(* ===== verification/_CoqProject ===== *)
-Q . S2P
Prelude.v
CString.v
DList.v
DListSort.v
SList.v
DirTree.v
DirList.v
ByteMem.v
KeywordCount.v
PardirList.v
PardirThreads.v
PardirWalk.v
PardirMain.v
RequestQueue.v
RequestRing.v
RequestSystem.v
RequestDelivery.v
ServerSearch.v
ServerThreads.v
ServerRing.v
ServerInvariant.v
ServerProgress.v
ServerProcess.v
ServerList.v
FsaList.v
Ext2Layout.v
FsaDisk.v
FsaTree.v
FsaMain.v
FsaTheorems.v
Ext2Dir.v
Ext2DirPage.v
Ext2DirRead.v
Ext2DirFind.v
Ext2DirWrite.v
Ext2DirUpdate.v
Ext2DirRep.v
Ext2DirTheorems.v
Ext2Super.v
Ext2Inode.v
Ext2Ialloc.v
Ext2IallocFacts.v
Ext2IallocTheorems.v
Ext2Balloc.v
Ext2BallocBits.v
Ext2BallocRsv.v
Ext2BallocGroup.v
Ext2BallocFacts.v
Ext2BallocAlloc.v
Ext2BallocFree.v
Ext2BallocTheorems.v
Ext2BlockMap.v
Ext2BlockTree.v
Ext2BlockPath.v
Ext2BlockFacts.v
Ext2BlockFile.v
Ext2BlockTrunc.v
Ext2BlockAlloc.v
Ext2BlockGet.v
Ext2GetBlocks.v
Ext2BlockSystem.v
Ext2BlockTheorems.v
Ext2Namei.v
Ext2Tree.v
Ext2TreeOps.v
Ext2NameiSim.v
Ext2NameiCalls.v
Ext2NameiOps.v
Ext2NameiRename.v
Ext2NameiTheorems.v
UserNs.v
UserNsTheorems.v
Groups.v
Dquot.v
Ext2InodeDisk.v
Ext2InodeDiskFacts.v
Ext2InodeWrite.v
Ext2InodeRead.v
Ext2Evict.v
Ext2InodeTheorems.v
