(* ===== verification/Prelude.v ===== *)
(** * The POSIX projects: a verification development

    The repository holds four small POSIX programs (directories of src/) and, among the
    test files of dirlist, a copy of the Linux tree, of which fs/ext2 is modelled here, the
    file system that fsa reads from the outside, and the user namespaces and groups of
    kernel/ that decide who may change its inodes.  Paths below are relative to src/;
    linux/ stands for dirlist/BlackBoxTesting/files/linux-master/.

    ** The programs

    - dirlist/dirlist.c lists a directory tree, by level and path, into a file.
    - pardirlist/pardirlist.c does the same and counts a keyword in every file, in the
      main thread or in one thread per file.
    - client-server/client.c sends search requests through a byte queue in shared memory;
      client-server/server.c takes them out, forks a process per request, and there one
      worker thread per file and one printer thread meet at a bounded buffer.
    - fsa/fsa.c walks the directory tree of an ext2 image, or prints a file of it.
    - linux/fs/ext2: dir.c (directories in the page cache), ialloc.c (inodes), balloc.c
      (blocks and reservation windows), inode.c (the map from the blocks of a file to the
      blocks of the disk, truncation, inodes on the disk, attributes, eviction), namei.c
      (operations on names), with what they use of ext2.h, super.c, xattr.c, ioctl.c and of
      linux/fs/inode.c, attr.c, bad_inode.c, dcache.c.
    - linux/kernel/user_namespace.c (namespaces of users, groups and projects and their
      maps) and groups.c (supplementary groups); linux/fs/quota/dquot.c (whom an inode is
      charged to).

    The handlers of namei.c call dir.c for entries and ialloc.c for inodes; inode.c calls
    balloc.c for blocks and ialloc.c for the inode that it evicts; ialloc.c and balloc.c
    share the group descriptors.  ext2_setattr asks the namespace and the groups of the
    task through attr.c, and moves the inode between quotas.

    ** How code becomes definitions

    A C function is a function with the same name.  Memory it changes is an argument and a
    result; a computation that can leave defined behaviour, call exit or run out of fuel
    returns in the type [res] of this file.  Linked structures live in finite maps from
    addresses to nodes, so that every pointer assignment is a step (DList, SList).  Threads
    and processes are step relations that interleave at every operation on shared data
    (RequestQueue, ServerThreads), or functions that a scheduler calls at chosen points
    (PardirList).  Integers are [Z], wrapped with [u16], [u32], [u64], [i32] where the
    width shows.  Code outside src/ and the parts of the kernel outside the files above
    are parameters: records of functions ([fsys], [kernel], [vfs], [block_env], [map_env],
    [disk_env], [attr_env], [quota_env], [userns_env], [rb_lib], [klib]) with their
    documented behaviour as hypotheses or type classes ([RbLaws], [NameiEnv], [EnvWf],
    [DevLaws], [QuotaLaws], [KLibLaws], [SortLaws]); each theorem with such a hypothesis is
    applied to a concrete instance in its witness.  The quota of the allocators, and in
    Ext2Namei the release of blocks and the reading of inodes from the disk, are parameters
    too; Dquot, Ext2BlockMap and Ext2InodeDisk model the code behind them.

    Two programs leave defined behaviour on every useful input: fsa.c and server.c copy
    paths into arrays that are declared two bytes too short, and server.c keeps pointers to
    names in a directory stream that it closes.  The model has the missing bytes ([spare],
    [filepath_spare]) and the ownership of the names ([dup_filename]) as parameters.  With
    the values of the source the theorems are that the program overflows or reads freed
    storage; what the rest of the program does is shown for the repaired values.

    ** The files, by part

    Shared: this file (outcomes, widths, list and integer lemmas, the hint database
    [posix], tactics), CString (string.h, stdio.h), ByteMem (byte arrays).

    dirlist and pardirlist: DList (list operations; [dseg] relates store and list),
    DListSort (the sort by level, ownership, destruction), DirTree (the answers of the
    file system and the reference listing), DirList (walk, output and main of
    dirlist.c), KeywordCount (seq_search_file), PardirList (definitions of pardirlist.c),
    PardirThreads, PardirWalk, PardirMain (invariant of the threads, walk, output).
    The theorems: the written file is the reference listing, with the counts, for every
    scheduler and every order of readdir, and all memory is given back; the list
    operations refine pure ones; the search counts words; the buffer for paths overflows
    on long paths and unreadable directories pass a null stream.

    client-server: RequestQueue (both halves of the queue and the semaphores), RequestRing
    (the bytes as a ring of strings), RequestSystem (the invariant of all interleavings),
    RequestDelivery (delivery in order, progress, the request split by the end of the
    buffer), ServerSearch (retrieve_keyword and the output format), ServerThreads (the
    search process as a step relation), ServerRing, ServerInvariant, ServerProgress,
    ServerProcess (the repaired process prints everything found, once; what the source
    does as written; the race on the thread count after which nothing is printed), SList
    and ServerList (the thread list).

    fsa: FsaList (its list), Ext2Layout (the structures of ext2.h with computed offsets),
    FsaDisk (the program), FsaTree (what an image holds), FsaMain and FsaTheorems (what
    the commands print with large enough arrays, the overflow without, and the images that
    break it).

    ext2 directories: Ext2Dir (dir.c), Ext2DirPage (records of a page and the page check),
    Ext2DirRead, Ext2DirFind (reading and searching), Ext2DirWrite, Ext2DirUpdate
    (changes), Ext2DirRep (a directory as a map from names to inodes), Ext2DirTheorems.

    ext2 inodes: Ext2Super (groups, bitmaps, counters), Ext2Inode (struct inode and link
    counts), Ext2Ialloc (ialloc.c), Ext2IallocFacts and Ext2IallocTheorems (a new inode
    was free and one is found whenever one is free; taking and freeing).

    ext2 blocks: Ext2Balloc (balloc.c), Ext2BallocBits (searches in a bitmap),
    Ext2BallocRsv (the windows stay disjoint: [win_ok]), Ext2BallocGroup (allocation in a
    group), Ext2BallocFacts (the invariant [balloc_ok] of bitmaps and counts),
    Ext2BallocAlloc (ext2_new_blocks), Ext2BallocFree (ext2_free_blocks),
    Ext2BallocTheorems (the invariant under any sequence of calls, what a call takes, the
    round trip, the range check that lets a block past the end through).

    ext2 files: Ext2BlockMap (inode.c up to ext2_setsize: ext2_get_blocks and what it calls,
    truncation, failed writes), Ext2BlockTree and Ext2BlockPath (a tree of indirect blocks,
    the paths of block numbers), Ext2BlockFacts (the buffers and the allocator below a
    file), Ext2BlockFile (the invariant [file_ok] and the map [bmap] of a file),
    Ext2BlockTrunc, Ext2BlockAlloc, Ext2BlockGet, Ext2GetBlocks (truncation, new branches,
    lookups), Ext2BlockSystem (several files over one allocator), Ext2BlockTheorems (files
    share no block, what ext2_get_blocks maps and truncation cuts, failed writes, block
    counts, the zeroing error that loses blocks).

    ext2 inodes on the disk: Ext2InodeDisk (the rest of inode.c, on the bytes of the inode
    tables, with attr.c), Dquot (dqget, dquot_initialize, dquot_transfer and what they charge
    to whom), Ext2InodeDiskFacts (stores to and loads from the fields of
    [struct ext2_inode]), Ext2InodeWrite (where an inode is and what a write changes),
    Ext2InodeRead (an inode that fits, [storable], is read back), Ext2Evict (what an evicted
    file gives back), Ext2InodeTheorems (the round trip, eviction, the file whose blocks are
    lost, changes of attributes and the quotas they move).

    Users and groups: UserNs (user_namespace.c), UserNsTheorems (the invariant [ns_ok] of the
    tree of namespaces: maps are bijections within those of the parents, are written once
    and can be read and written back; walks to the root end), Groups (groups.c: the list
    that setgroups installs is searched and returned correctly).

    ext2 names: Ext2Namei (namei.c), Ext2Tree and Ext2TreeOps (the abstract tree, whose
    directories all hang below the root, link counts), Ext2NameiSim (the relation [sim]),
    Ext2NameiCalls, Ext2NameiOps, Ext2NameiRename (each handler refines its operation on the
    tree), Ext2NameiTheorems (refinement and link counts under any sequence of calls).

    ** Bounds and fuel

    Recursion over a tree takes the depth or the size of the tree as fuel, and the theorems
    state that this is enough.  Loops over a list take the number of nodes in the store,
    loops over a block, a page or a string the number of its bytes: each iteration consumes
    at least one.  In Ext2Balloc a search of a group takes the blocks of the group plus
    one, since each retry starts at a later block; a group is tried three times at most
    with reservations; ext2_new_blocks starts again at most once for each block that a
    group holds inside a system zone, plus once without reservations.  The allocator
    theorems assume at most 2^30 blocks and groups of fewer than 2^16 blocks, as mkfs makes
    them, so that no sum of block numbers wraps; on an image outside these bounds nothing
    is claimed.  The frequency of a keyword and the number of an entry within its level are
    not wrapped: a file would need 2^31 words, a level 2^31 entries.
    In Ext2BlockMap ext2_alloc_blocks asks the allocator at most once for each block it
    wants and the loops over the pointers of a block stop at its end; subtrees have at most
    three levels, which is structural.  In UserNs a map has at most five lines, and a
    namespace at most 33 above it, since create_user_ns refuses a parent at level 33; the
    binary search of Groups takes the length of the list.

    ** Not modelled

    - The rest of the Linux tree: it is test input of dirlist and no program of the
      repository calls it.  Of fs/ext2 the entries of extended attributes (xattr*.c beyond
      the release of their block, acl.c), mounting (super.c beyond what is named above) and
      the wrappers of the generic read and write paths (file.c, symlink.c) are left out:
      most of their work is done by code outside fs/ext2 (the page cache, iomap, quota,
      mbcache).  Of user_namespace.c the reference counts and free_user_ns.  Of dquot.c
      turning quota on and off, the quota files, writing back, reference counts and the
      warnings sent to users; what security modules and posix_acl_chmod do to extended
      attributes is a parameter of ext2_setattr.
    - Locks, reference counts of buffers and pages: the kernel runs one operation at a time
      in these models.  Write-back of dirty buffers and the journal-less crash states.
    - fork, signal handling and process exit of server.c beyond the search process: the
      parent only waits for more requests. *)

From Stdlib Require Export ZArith Lia.
From Stdlib Require Strings.Byte.
From stdpp Require Export base gmap sets sorting numbers.
From stdpp Require Export list relations.

#[global] Open Scope Z_scope.

(** ** Outcomes of a C computation *)

(** The ways in which the C abstract machine leaves the defined behaviour of a
    program, as far as the sources of this repository can reach them. *)
Inductive undefined : Set :=
  | NullDeref        (* a null or dangling pointer is used *)
  | BufferOverflow   (* a write past the end of an array *)
  | OutOfBoundsRead  (* a read past the end of an object *)
  | UseAfterFree     (* a read of storage that has been given back *)
  | Uninitialised    (* an indeterminate value decides a branch *)
  | DivideByZero     (* the remainder by zero *)
  | SignedOverflow   (* arithmetic outside the range of int *)
  | KernelBug.       (* BUG or a failing BUG_ON of the kernel *)

#[export] Instance undefined_eq_dec : EqDecision undefined.
Proof. solve_decision. Defined.

(** [Ok] is a normal return, [Exit] a call of [exit] (or a return from [main])
    with that status, [Undef] undefined behaviour, [NoFuel] a loop or recursion
    that has not ended within the fuel of the model. *)
Inductive res (A : Type) : Type :=
  | Ok (a : A)
  | Exit (code : Z)
  | Undef (u : undefined)
  | NoFuel.
Arguments Ok {A} _.
Arguments Exit {A} _.
Arguments Undef {A} _.
Arguments NoFuel {A}.

Definition rbind {A B} (r : res A) (k : A -> res B) : res B :=
  match r with
  | Ok a => k a
  | Exit c => Exit c
  | Undef u => Undef u
  | NoFuel => NoFuel
  end.

Declare Scope c_scope.
Delimit Scope c_scope with c.
#[global] Open Scope c_scope.

Notation "'let*' x ':=' r 'in' k" := (rbind r (fun x => k))
  (at level 10, x name, r at level 100, k at level 200) : c_scope.
Notation "'let*' ' p ':=' r 'in' k" := (rbind r (fun x => match x with p => k end))
  (at level 10, p strict pattern, r at level 100, k at level 200) : c_scope.

(** Dereferencing: the value behind a possibly null or dangling pointer. *)
Definition deref {A} (o : option A) : res A :=
  match o with Some a => Ok a | None => Undef NullDeref end.

Definition is_ok {A} (r : res A) : bool :=
  match r with Ok _ => true | _ => false end.

#[export] Instance Ok_inj {A} : Inj (=) (=) (@Ok A).
Proof. by intros ?? [=]. Qed.

Lemma rbind_Ok {A B} (r : res A) (k : A -> res B) b :
  rbind r k = Ok b <-> exists a, r = Ok a /\ k a = Ok b.
Proof.
  destruct r; simpl; split; first [by intros (?&[=->]&?) | by eauto | by intros [=]
    | by intros (?&[=]&?)].
Qed.

(** ** Bytes and C strings *)

Abbreviation byte := Byte.byte.
Abbreviation NUL := Byte.x00.

#[export] Instance byte_eq_dec : EqDecision byte := Byte.byte_eq_dec.

(** The value of an [unsigned char]. *)
Definition b2z (b : byte) : Z := Z.of_N (Byte.to_N b).

(** The conversion of an integer to [unsigned char]. *)
Definition z2b (z : Z) : byte :=
  match Byte.of_N (Z.to_N (z mod 256)) with Some b => b | None => NUL end.

Lemma b2z_range b : 0 <= b2z b < 256.
Proof. unfold b2z. pose proof (Byte.to_N_bounded b). lia. Qed.

Lemma b2z_inj b c : b2z b = b2z c -> b = c.
Proof.
  unfold b2z. intros H. assert (E : Byte.to_N b = Byte.to_N c) by lia.
  assert (Some b = Some c) as [=]; [|done].
  by rewrite <- (Byte.of_to_N b), <- (Byte.of_to_N c), E.
Qed.

Lemma z2b_b2z b : z2b (b2z b) = b.
Proof.
  unfold z2b. rewrite Z.mod_small by apply b2z_range.
  unfold b2z. by rewrite N2Z.id, Byte.of_to_N.
Qed.

Lemma b2z_z2b z : b2z (z2b z) = z mod 256.
Proof.
  unfold z2b. pose proof (Z.mod_pos_bound z 256 ltac:(lia)) as B.
  destruct (Byte.of_N (Z.to_N (z mod 256))) as [b|] eqn:E.
  - apply Byte.to_of_N in E. unfold b2z. rewrite E. lia.
  - apply Byte.of_N_None_iff in E. lia.
Qed.

(** A C string value: the bytes before the terminating null character. *)
Abbreviation cstr := (list byte).

(** ** Integers at their width *)

Definition u16 (z : Z) : Z := z mod 2 ^ 16.
Definition u32 (z : Z) : Z := z mod 2 ^ 32.
Definition u64 (z : Z) : Z := z mod 2 ^ 64.

(** Conversion to a 32-bit two's complement [int]. *)
Definition i32 (z : Z) : Z := (z + 2 ^ 31) mod 2 ^ 32 - 2 ^ 31.

Lemma u16_id z : 0 <= z < 2 ^ 16 -> u16 z = z.
Proof. intros. by apply Z.mod_small. Qed.
Lemma u32_id z : 0 <= z < 2 ^ 32 -> u32 z = z.
Proof. intros. by apply Z.mod_small. Qed.
Lemma u64_id z : 0 <= z < 2 ^ 64 -> u64 z = z.
Proof. intros. by apply Z.mod_small. Qed.
Lemma i32_id z : - 2 ^ 31 <= z < 2 ^ 31 -> i32 z = z.
Proof. intros. unfold i32. rewrite Z.mod_small; lia. Qed.
Lemma u16_range z : 0 <= u16 z < 2 ^ 16.
Proof. by apply Z.mod_pos_bound. Qed.
Lemma u32_range z : 0 <= u32 z < 2 ^ 32.
Proof. by apply Z.mod_pos_bound. Qed.
Lemma i32_range z : - 2 ^ 31 <= i32 z < 2 ^ 31.
Proof. unfold i32. pose proof (Z.mod_pos_bound (z + 2 ^ 31) (2 ^ 32)). lia. Qed.

(** Little-endian decoding of the bytes of an unsigned field. *)
Fixpoint le_decode (bs : list byte) : Z :=
  match bs with
  | [] => 0
  | b :: bs' => b2z b + 256 * le_decode bs'
  end.

Fixpoint le_encode (n : nat) (z : Z) : list byte :=
  match n with
  | O => []
  | S n' => z2b z :: le_encode n' (z / 256)
  end.

Lemma length_le_encode n z : length (le_encode n z) = n.
Proof. revert z. induction n; intros; simpl; auto. Qed.

Lemma le_decode_range bs : 0 <= le_decode bs < 256 ^ Z.of_nat (length bs).
Proof.
  induction bs as [|b bs IH]; [simpl; lia|].
  cbn [le_decode length]. rewrite Nat2Z.inj_succ, Z.pow_succ_r by lia.
  pose proof (b2z_range b). nia.
Qed.

Lemma le_decode_encode n z :
  0 <= z < 256 ^ Z.of_nat n -> le_decode (le_encode n z) = z.
Proof.
  revert z. induction n as [|n IH]; intros z Hz; [simpl in *; lia|].
  rewrite Nat2Z.inj_succ, Z.pow_succ_r in Hz by lia.
  cbn [le_encode le_decode]. rewrite b2z_z2b, IH.
  - pose proof (Z.div_mod z 256). lia.
  - split; [apply Z.div_pos; lia | apply Z.div_lt_upper_bound; lia].
Qed.

(** ** Generic lemmas on lists *)

Lemma NoDup_app_cons_comm {A} (l k : list A) x :
  NoDup (l ++ x :: k) <-> NoDup (x :: l ++ k).
Proof. by rewrite <- Permutation_middle. Qed.

Lemma filter_all {A} (P : A -> Prop) `{!forall x, Decision (P x)} (l : list A) :
  (forall x, x ∈ l -> P x) -> filter P l = l.
Proof.
  induction l as [|x l IH]; intros Hl; [done|].
  rewrite filter_cons_True by set_solver. f_equal. apply IH. set_solver.
Qed.

(** ** Transition sequences *)

(** A property kept by every step holds wherever the steps lead. *)
Lemma rtc_invariant {St} (step : St -> St -> Prop) (I : St -> Prop) :
  (forall s s', I s -> step s s' -> I s') ->
  forall s s', rtc step s s' -> I s -> I s'.
Proof. intros HI s s'. induction 1; eauto. Qed.

(** A measure that every step decreases bounds the length of a run. *)
Lemma nsteps_measure {St} (step : St -> St -> Prop) (I : St -> Prop) (f : St -> nat) :
  (forall s s', I s -> step s s' -> I s' /\ (f s' < f s)%nat) ->
  forall k s s', nsteps step k s s' -> I s -> (k + f s' <= f s)%nat.
Proof.
  intros HI k s s'. induction 1 as [|k s1 s2 s3 H _ IH]; intros Hs; [lia|].
  destruct (HI _ _ Hs H) as [H2 H3]. specialize (IH H2). lia.
Qed.

(** ** Automation *)

Create HintDb posix discriminated.
#[export] Hint Constructors rtc nsteps : posix.
#[export] Hint Resolve b2z_range le_decode_range u16_range u32_range i32_range : posix.

(** Destructs a successful monadic computation in the context into the results
    of its parts. *)
Ltac inv_ok :=
  repeat match goal with
  | H : rbind _ _ = Ok _ |- _ =>
      let a := fresh "a" in let Ha := fresh "Ha" in let Hk := fresh "Hk" in
      apply rbind_Ok in H as (a & Ha & Hk)
  | H : Ok _ = Ok _ |- _ => injection H as H; subst
  | H : Undef _ = Ok _ |- _ => discriminate H
  | H : Exit _ = Ok _ |- _ => discriminate H
  | H : NoFuel = Ok _ |- _ => discriminate H
  | H : deref _ = Ok _ |- _ => unfold deref in H
  | H : match ?o with Some _ => Ok _ | None => Undef _ end = Ok _ |- _ =>
      let E := fresh "E" in destruct o eqn:E; [|discriminate H]
  end.
