(* ===== verification/CString.v ===== *)
(** * The C library's strings and streams

    What the sources use of [<string.h>], [<stdio.h>] and [<stdlib.h>]: [strcmp],
    [strtok_r], [fgets], [atoi] and the conversion [%d].  A C string is the list
    of its bytes before the terminating null character; a stream opened for
    reading is the list of the bytes not yet read. *)

From S2P Require Import Prelude.
From Stdlib Require Strings.Ascii Strings.String.

(** The bytes of an ASCII literal, for concrete inputs. *)
Definition lit (s : String.string) : cstr := String.list_byte_of_string s.
Export String.StringSyntax.
#[global] Arguments lit _%_string_scope.

Abbreviation newline := Byte.x0a.
Abbreviation tab := Byte.x09.
Abbreviation space := Byte.x20.
Abbreviation slash := Byte.x2f.
Abbreviation dot := Byte.x2e.
Abbreviation colon := Byte.x3a.

(** ** strcmp *)

(** Lexicographic on unsigned bytes; callers only look at the sign. *)
Fixpoint strcmp (s t : cstr) : Z :=
  match s, t with
  | [], [] => 0
  | [], _ :: _ => -1
  | _ :: _, [] => 1
  | a :: s', b :: t' =>
      match b2z a ?= b2z b with Lt => -1 | Gt => 1 | Eq => strcmp s' t' end
  end.

Lemma strcmp_refl s : strcmp s s = 0.
Proof. induction s as [|a s IH]; simpl; [done|]. by rewrite Z.compare_refl. Qed.

Lemma strcmp_eq s t : strcmp s t = 0 <-> s = t.
Proof.
  split; [|intros ->; apply strcmp_refl].
  revert t. induction s as [|a s IH]; intros [|b t]; simpl; try done.
  destruct (Z.compare_spec (b2z a) (b2z b)) as [E|E|E]; try done.
  intros H%IH. apply b2z_inj in E. by subst.
Qed.

Lemma strcmp_opp s t : strcmp t s = - strcmp s t.
Proof.
  revert t. induction s as [|a s IH]; intros [|b t]; simpl; try done.
  rewrite (Z.compare_antisym (b2z b) (b2z a)).
  destruct (b2z b ?= b2z a); simpl; auto.
Qed.

Lemma strcmp_trans s t u : strcmp s t <= 0 -> strcmp t u <= 0 -> strcmp s u <= 0.
Proof.
  revert t u. induction s as [|a s IH]; intros [|b t] [|c u]; simpl; try lia.
  destruct (Z.compare_spec (b2z a) (b2z b)) as [E|E|E];
    destruct (Z.compare_spec (b2z b) (b2z c)) as [F|F|F];
    destruct (Z.compare_spec (b2z a) (b2z c)) as [G|G|G]; try lia; eauto.
Qed.

(** The order [strcmp] puts on paths. *)
Definition strle (s t : cstr) : Prop := strcmp s t <= 0.

#[export] Instance strle_dec s t : Decision (strle s t).
Proof. unfold strle. apply _. Defined.
#[export] Instance strle_preorder : PreOrder strle.
Proof.
  split; [intros s; unfold strle; by rewrite strcmp_refl|].
  intros s t u. apply strcmp_trans.
Qed.
#[export] Instance strle_antisymm : AntiSymm (=) strle.
Proof.
  intros s t H1 H2. unfold strle in *. apply strcmp_eq.
  rewrite strcmp_opp in H2. lia.
Qed.
#[export] Instance strle_total : Total strle.
Proof. intros s t. unfold strle. rewrite (strcmp_opp s t). lia. Qed.

(** A proper prefix precedes what extends it. *)
Lemma strcmp_prefix s c t : strcmp s (s ++ c :: t) = -1.
Proof. induction s as [|a s IH]; simpl; [done|]. by rewrite Z.compare_refl. Qed.

(** ** strtok_r *)

Fixpoint take_while (p : byte -> bool) (s : cstr) : cstr :=
  match s with
  | [] => []
  | b :: s' => if p b then b :: take_while p s' else []
  end.

Fixpoint drop_while (p : byte -> bool) (s : cstr) : cstr :=
  match s with
  | [] => []
  | b :: s' => if p b then drop_while p s' else s
  end.

(** The C string held by a buffer: the bytes before its first null character. *)
Definition c_str (buf : list byte) : cstr := take_while (fun b => bool_decide (b <> NUL)) buf.

Lemma c_str_id s : NUL ∉ s -> c_str s = s.
Proof.
  unfold c_str. induction s as [|b s IH]; simpl; [done|]. intros H.
  rewrite bool_decide_true by set_solver. f_equal. apply IH. set_solver.
Qed.

Definition is_delim (delim : cstr) (b : byte) : bool := bool_decide (b ∈ delim).

(** One call of [strtok_r]: the token and what the saved pointer is left at, or
    [None] for the null pointer. *)
Definition strtok_r (delim s : cstr) : option (cstr * cstr) :=
  match drop_while (is_delim delim) s with
  | [] => None
  | s1 => let stop b := negb (is_delim delim b) in
          Some (take_while stop s1, drop 1 (drop_while stop s1))
  end.

(** The reference notion: the maximal runs of non-delimiter bytes, in order. *)
Fixpoint split_at (d : byte -> bool) (s : cstr) : list cstr :=
  match s with
  | [] => [[]]
  | b :: s' =>
      if d b then [] :: split_at d s'
      else match split_at d s' with
           | [] => [[b]]
           | w :: ws => (b :: w) :: ws
           end
  end.

Definition words (d : byte -> bool) (s : cstr) : list cstr :=
  filter (fun w => w <> []) (split_at d s).

Section Words.
Context (d : byte -> bool).

Lemma words_delim b s : d b = true -> words d (b :: s) = words d s.
Proof. intros H. unfold words. simpl. rewrite H. by rewrite filter_cons_False by auto. Qed.

Lemma split_at_nonempty s : split_at d s <> [].
Proof. destruct s as [|b s]; simpl; [done|]. by destruct (d b), (split_at d s). Qed.

Lemma split_at_span s :
  split_at d s =
    take_while (fun b => negb (d b)) s ::
    match drop_while (fun b => negb (d b)) s with
    | [] => []
    | _ :: r => split_at d r
    end.
Proof.
  induction s as [|b s IH]; simpl; [done|].
  destruct (d b) eqn:E; simpl; [done|]. rewrite IH. by destruct (drop_while _ s).
Qed.

Lemma words_drop s : words d (drop_while d s) = words d s.
Proof.
  induction s as [|b s IH]; simpl; [done|].
  destruct (d b) eqn:E; [|done]. by rewrite words_delim.
Qed.

Lemma words_span b s :
  d b = false ->
  words d (b :: s) = take_while (fun b => negb (d b)) (b :: s) ::
    words d (drop 1 (drop_while (fun b => negb (d b)) (b :: s))).
Proof.
  intros E. unfold words at 1. rewrite split_at_span. cbn [take_while drop_while].
  rewrite E. simpl negb. cbn iota. rewrite filter_cons_True by done.
  f_equal. by destruct (drop_while _ s) as [|c r].
Qed.
End Words.

Lemma drop_while_length p s : (length (drop_while p s) <= length s)%nat.
Proof. induction s as [|b s IH]; simpl; [lia|]. destruct (p b); simpl; lia. Qed.

Lemma drop_while_head p s b r : drop_while p s = b :: r -> p b = false.
Proof.
  induction s as [|a s IH]; simpl; [done|].
  destruct (p a) eqn:E; [auto|]. by intros [= <- _].
Qed.

(** [strtok_r] enumerates the words, and consumes its input. *)
Lemma strtok_r_words delim s :
  match strtok_r delim s with
  | None => words (is_delim delim) s = []
  | Some (t, r) => words (is_delim delim) s = t :: words (is_delim delim) r
                   /\ (length r < length s)%nat
  end.
Proof.
  unfold strtok_r. rewrite <- (words_drop _ s).
  pose proof (drop_while_length (is_delim delim) s) as L.
  destruct (drop_while (is_delim delim) s) as [|b s1] eqn:E; [done|].
  apply drop_while_head in E. split; [by apply words_span|].
  cbn [drop_while]. rewrite E. cbn [negb length] in *. rewrite length_drop.
  pose proof (drop_while_length (fun b => negb (is_delim delim b)) s1). lia.
Qed.

(** ** fgets *)

(** At most [k] bytes, up to and including the first newline. *)
Fixpoint fgets_take (k : nat) (s : list byte) : list byte * list byte :=
  match k, s with
  | S k', b :: s' =>
      if decide (b = newline) then ([b], s')
      else let '(l, r) := fgets_take k' s' in (b :: l, r)
  | _, _ => ([], s)
  end.

(** [fgets (buf, n, stream)]: the bytes stored before the null character and the
    rest of the stream, or [None] at the end of the file. *)
Definition fgets (n : nat) (s : list byte) : option (list byte * list byte) :=
  match s with
  | [] => None
  | _ => Some (fgets_take (n - 1) s)
  end.

(** What successive calls return; [length s] calls reach the end of the file. *)
Fixpoint fgets_all (fuel n : nat) (s : list byte) : list (list byte) :=
  match fuel with
  | O => []
  | S f => match fgets n s with
           | None => []
           | Some (l, r) => l :: fgets_all f n r
           end
  end.

(** The records into which a file is cut by [fgets] calls with size [n]. *)
Definition records (n : nat) (s : list byte) : list (list byte) :=
  fgets_all (length s) n s.

Lemma fgets_take_app k s : let '(l, r) := fgets_take k s in l ++ r = s.
Proof.
  revert s. induction k as [|k IH]; intros [|b s]; simpl; try done.
  case_decide; [done|]. specialize (IH s). destruct (fgets_take k s). simpl. by f_equal.
Qed.

Lemma fgets_take_length k s : (length (fgets_take k s).1 <= k)%nat.
Proof.
  revert s. induction k as [|k IH]; intros [|b s]; simpl; try lia.
  case_decide; simpl; [lia|]. specialize (IH s). destruct (fgets_take k s). simpl in *. lia.
Qed.

Lemma fgets_rest n s l r :
  (2 <= n)%nat -> fgets n s = Some (l, r) ->
  s = l ++ r /\ (0 < length l <= n - 1)%nat /\ (length r < length s)%nat.
Proof.
  intros Hn. destruct s as [|b s]; [done|]. unfold fgets. intros [= E].
  pose proof (fgets_take_app (n - 1) (b :: s)) as A.
  pose proof (fgets_take_length (n - 1) (b :: s)) as L.
  assert (0 < length l)%nat.
  { destruct (n - 1)%nat eqn:En; [lia|]. cbn [fgets_take] in E.
    destruct (decide (b = newline)); [injection E as <- <-; simpl; lia|].
    destruct (fgets_take _ s). injection E as <- <-. simpl. lia. }
  rewrite E in A, L. simpl in L. rewrite <- A, length_app. split; [done|]. lia.
Qed.

(** More fuel than bytes changes nothing. *)
Lemma fgets_all_fuel f n s :
  (2 <= n)%nat -> (length s <= f)%nat -> fgets_all f n s = records n s.
Proof.
  intros Hn. unfold records. generalize (Nat.le_refl (length s)).
  generalize (length s) at 2 4 as g. intros g.
  revert f s. induction g as [|g IH]; intros f s Hg Hf.
  - destruct s; simpl in *; [|lia]. by destruct f.
  - destruct f as [|f]; [destruct s; simpl in *; [done|lia]|]. simpl.
    destruct (fgets n s) as [[l r]|] eqn:E; [|done].
    apply fgets_rest in E as (E & _ & L); [|done]. f_equal.
    apply IH; lia.
Qed.

Lemma records_unfold n s :
  (2 <= n)%nat ->
  records n s = match fgets n s with None => [] | Some (l, r) => l :: records n r end.
Proof.
  intros Hn. unfold records at 1. destruct s as [|b s]; [done|].
  cbn [length fgets_all]. destruct (fgets n (b :: s)) as [[l r]|] eqn:E; [|done].
  apply fgets_rest in E as (E & _ & L); [|done]. f_equal.
  apply fgets_all_fuel; simpl in *; [done|lia].
Qed.

(** The records partition the file, and each fits the buffer. *)
Lemma records_concat n s : (2 <= n)%nat -> concat (records n s) = s.
Proof.
  intros Hn. induction s as [s IH] using (induction_ltof1 _ (@length byte)).
  rewrite records_unfold by done.
  destruct (fgets n s) as [[l r]|] eqn:E.
  - apply fgets_rest in E as (E & _ & L); [|done]. simpl. rewrite IH; [done|]. exact L.
  - by destruct s.
Qed.

Lemma records_length n s :
  (2 <= n)%nat -> Forall (fun l => (0 < length l <= n - 1)%nat) (records n s).
Proof.
  intros Hn. induction s as [s IH] using (induction_ltof1 _ (@length byte)).
  rewrite records_unfold by done.
  destruct (fgets n s) as [[l r]|] eqn:E; [|constructor].
  apply fgets_rest in E as (E & B & L); [|done]. constructor; [done|]. by apply IH.
Qed.

(** ** Decimal numbers *)

Definition digit (z : Z) : byte := z2b (48 + z mod 10).

Fixpoint dec_loop (fuel : nat) (z : Z) (acc : cstr) : cstr :=
  match fuel with
  | O => acc
  | S f => let acc' := digit z :: acc in
           if z / 10 =? 0 then acc' else dec_loop f (z / 10) acc'
  end.

(** The conversion [%d] of an [int]: ten digits are enough for 32 bits. *)
Definition dec (z : Z) : cstr :=
  if z <? 0 then Byte.x2d :: dec_loop 10 (- z) [] else dec_loop 10 z [].

Definition is_space (b : byte) : bool :=
  bool_decide (b = space) || ((9 <=? b2z b) && (b2z b <=? 13)).
Definition is_digit (b : byte) : bool := (48 <=? b2z b) && (b2z b <=? 57).

Definition atoi_digits (s : cstr) : Z :=
  fold_left (fun n b => 10 * n + (b2z b - 48)) (take_while is_digit s) 0.

Definition atoi (s : cstr) : Z :=
  match drop_while is_space s with
  | b :: s' => if decide (b = Byte.x2d) then - atoi_digits s'
               else if decide (b = Byte.x2b) then atoi_digits s'
               else atoi_digits (b :: s')
  | [] => 0
  end.

Lemma dec_loop_length f z acc k :
  0 <= z < 10 ^ Z.of_nat k -> (0 < k)%nat -> (length (dec_loop f z acc) <= k + length acc)%nat.
Proof.
  revert z acc k. induction f as [|f IH]; intros z acc k Hz Hk; [simpl; lia|].
  cbn [dec_loop]. destruct (Z.eqb_spec (z / 10) 0) as [E|E]; [simpl; lia|].
  destruct k as [|k]; [lia|]. rewrite Nat2Z.inj_succ, Z.pow_succ_r in Hz by lia.
  assert (0 <= z / 10 < 10 ^ Z.of_nat k).
  { split; [apply Z.div_pos; lia|apply Z.div_lt_upper_bound; lia]. }
  destruct k as [|k]; [simpl in *; lia|].
  etransitivity; [apply (IH _ _ (S k)); [done|lia]|]. simpl. lia.
Qed.

Lemma dec_loop_length_ge f z acc k :
  10 ^ Z.of_nat k <= z -> (k < f)%nat -> (k + length acc < length (dec_loop f z acc))%nat.
Proof.
  revert z acc k. induction f as [|f IH]; intros z acc k Hz Hk; [lia|].
  cbn [dec_loop]. destruct k as [|k].
  { assert (forall g y a, length a <= length (dec_loop g y a))%nat as M.
    { induction g as [|g IHg]; intros y a; simpl; [lia|].
      destruct (_ =? 0); [simpl; lia|]. etransitivity; [|apply IHg]. simpl. lia. }
    destruct (_ =? 0); simpl; [lia|]. specialize (M f (z / 10) (digit z :: acc)).
    simpl in M. lia. }
  rewrite Nat2Z.inj_succ, Z.pow_succ_r in Hz by lia.
  assert (10 ^ Z.of_nat k <= z / 10) by (apply Z.div_le_lower_bound; lia).
  assert (0 < 10 ^ Z.of_nat k) by (apply Z.pow_pos_nonneg; lia).
  destruct (Z.eqb_spec (z / 10) 0); [lia|].
  specialize (IH (z / 10) (digit z :: acc) k). simpl in IH. lia.
Qed.

(** A non-negative [int] needs at most [k] characters exactly when it is below [10^k]. *)
Lemma dec_length z k :
  0 <= z -> (0 < k < 10)%nat -> (length (dec z) <= k)%nat <-> z < 10 ^ Z.of_nat k.
Proof.
  intros Hz Hk. unfold dec. destruct (Z.ltb_spec z 0); [lia|].
  destruct (Z.lt_ge_cases z (10 ^ Z.of_nat k)) as [L|G].
  - pose proof (dec_loop_length 10 z [] k). simpl length in *. split; [done|].
    intros _. specialize (H0 ltac:(lia) ltac:(lia)). lia.
  - pose proof (dec_loop_length_ge 10 z [] k G). simpl length in *. split; [|lia]. lia.
Qed.
