(* ===== verification/DList.v ===== *)
(** * Doubly linked lists of paths

    The list that [dirlist/dirlist.c] and [pardirlist/pardirlist.c] both build:
    nodes with a path, the fields a program keeps beside it (the type [V]), and
    [next]/[prev] pointers.  The store maps addresses to nodes, so aliasing and
    every pointer assignment are explicit.  [dseg] relates a segment of the store
    to the list of elements it holds; each operation is proved against the pure
    list function it implements. *)

From S2P Require Import Prelude CString.

Abbreviation loc := positive.

(** ** The store *)

Record node (V : Type) := Node {
  n_path : option cstr;      (* [None]: [strdup] failed, or the string is freed *)
  n_val : V;
  n_next : option loc;
  n_prev : option loc }.
Arguments Node {V} _ _ _ _.
Arguments n_path {V} _.
Arguments n_val {V} _.
Arguments n_next {V} _.
Arguments n_prev {V} _.

(** [m_quota] is the number of allocations the allocator still satisfies. *)
Record mem (V : Type) := Mem { m_nodes : gmap loc (node V); m_quota : nat }.
Arguments Mem {V} _ _.
Arguments m_nodes {V} _.
Arguments m_quota {V} _.

Record llist := LList { l_head : option loc; l_tail : option loc }.

Section Ops.
Context {V : Type} (level : V -> Z).
Implicit Types (M : mem V) (L : llist) (p q : option loc).

(** ** Access through pointers *)

Definition get p M : res (node V) := deref (p ≫= fun l => m_nodes M !! l).

Definition get_path p M : res cstr := let* n := get p M in deref (n_path n).

Definition put p (f : node V -> node V) M : res (mem V) :=
  match p with
  | Some l => match m_nodes M !! l with
              | Some n => Ok (Mem (<[l := f n]> (m_nodes M)) (m_quota M))
              | None => Undef NullDeref
              end
  | None => Undef NullDeref
  end.

Definition with_next (x : option loc) (n : node V) : node V :=
  Node (n_path n) (n_val n) x (n_prev n).
Definition with_prev (x : option loc) (n : node V) : node V :=
  Node (n_path n) (n_val n) (n_next n) x.
Definition with_val (v : V) (n : node V) : node V :=
  Node (n_path n) v (n_next n) (n_prev n).

Definition set_next p x M := put p (with_next x) M.
Definition set_prev p x M := put p (with_prev x) M.
Definition set_val p v M := put p (with_val v) M.

(** ** Allocation *)

(** A failing [malloc] ends the program with [exit(-1)]; a failing [strdup] is
  not checked and leaves a null path. *)
Definition create_node (path : cstr) (v : V) M : res (loc * mem V) :=
  match m_quota M with
  | O => Exit (-1)
  | S q =>
      let l := fresh (dom (m_nodes M)) in
      let '(dup, q') := match q with O => (None, O) | S q' => (Some path, q') end in
      Ok (l, Mem (<[l := Node dup v None None]> (m_nodes M)) q')
  end.

Definition create_list M : res (llist * mem V) :=
  match m_quota M with
  | O => Exit (-1)
  | S q => Ok (LList None None, Mem (m_nodes M) q)
  end.

(** ** Insertion in path order *)

(** [while (ptr->next != NULL && strcmp(node->path, ptr->path) > 0) ptr = ptr->next] *)
Fixpoint find_pos (fuel : nat) (path : cstr) (ptr : option loc) M : res (option loc) :=
  match fuel with
  | O => NoFuel
  | S f =>
      let* n := get ptr M in
      match n_next n with
      | None => Ok ptr
      | Some _ =>
          let* pp := deref (n_path n) in
          if 0 <? strcmp path pp then find_pos f path (n_next n) M else Ok ptr
      end
  end.

Definition insert_sorted (nd : loc) L M : res (llist * mem V) :=
  match l_head L, l_tail L with
  | None, None => Ok (LList (Some nd) (Some nd), M)
  | _, _ =>
      let* np := get_path (Some nd) M in
      let* hp := get_path (l_head L) M in
      if strcmp np hp <=? 0 then
        let* M := set_prev (l_head L) (Some nd) M in
        let* M := set_next (Some nd) (l_head L) M in
        Ok (LList (Some nd) (l_tail L), M)
      else
        let* tp := get_path (l_tail L) M in
        if 0 <? strcmp np tp then
          let* M := set_next (l_tail L) (Some nd) M in
          let* M := set_prev (Some nd) (l_tail L) M in
          Ok (LList (l_head L) (Some nd), M)
        else
          let* ptr := find_pos (size (m_nodes M)) np (l_head L) M in
          let* M := set_next (Some nd) ptr M in
          let* n := get ptr M in
          let* M := set_prev (Some nd) (n_prev n) M in
          let* n := get ptr M in
          let* M := set_next (n_prev n) (Some nd) M in
          let* M := set_prev ptr (Some nd) M in
          Ok (L, M)
  end.

(** ** Sorting by level *)

(** [while (bi != list->head && bi->level > key) bi = bi->prev] *)
Fixpoint find_back (fuel : nat) (key : Z) (bi : option loc) L M : res (option loc) :=
  match fuel with
  | O => NoFuel
  | S f =>
      if decide (bi = l_head L) then Ok bi
      else
        let* n := get bi M in
        if key <? level (n_val n) then find_back f key (n_prev n) L M else Ok bi
  end.

(** Removes [tmp] from the list. *)
Definition unlink (tmp : option loc) M : res (mem V) :=
  let* t := get tmp M in
  let* M := match n_next t with
            | Some _ => set_prev (n_next t) (n_prev t) M
            | None => Ok M
            end in
  let* t := get tmp M in
  set_next (n_prev t) (n_next t) M.

(** Places [tmp] after [bi]. *)
Definition link_after (tmp bi : option loc) M : res (mem V) :=
  let* b := get bi M in
  let* M := set_next tmp (n_next b) M in
  let* M := set_prev tmp bi M in
  let* b := get bi M in
  let* M := match n_next b with
            | Some _ => set_prev (n_next b) tmp M
            | None => Ok M
            end in
  set_next bi tmp M.

Fixpoint sort_loop (fuel : nat) (fi : option loc) L M : res (mem V) :=
  match fi with
  | None => Ok M
  | Some _ =>
      match fuel with
      | O => NoFuel
      | S f =>
          let* n := get fi M in
          let key := level (n_val n) in
          let* bi := find_back (size (m_nodes M)) key (n_prev n) L M in
          let tmp := fi in
          let* M := unlink tmp M in
          let* M := link_after tmp bi M in
          sort_loop f (n_next n) L M
      end
  end.

Definition insertion_sort_by_level_increasing L M : res (mem V) :=
  let* h := get (l_head L) M in
  sort_loop (size (m_nodes M)) (n_next h) L M.

(** ** Destruction *)

Fixpoint destroy_loop (fuel : nat) (curr : option loc) M : res (mem V) :=
  match curr with
  | None => Ok M
  | Some l =>
      match fuel with
      | O => NoFuel
      | S f =>
          let* n := get curr M in
          destroy_loop f (n_next n) (Mem (delete l (m_nodes M)) (m_quota M))
      end
  end.

Definition destroy_list L M : res (mem V) :=
  destroy_loop (size (m_nodes M)) (l_head L) M.
End Ops.

(** ** Segments of the store *)

Record elem (V : Type) := Elem { e_loc : loc; e_path : cstr; e_val : V }.
Arguments Elem {V} _ _ _.
Arguments e_loc {V} _.
Arguments e_path {V} _.
Arguments e_val {V} _.

Section Segments.
Context {V : Type}.
Implicit Types (m : gmap loc (node V)) (x : elem V) (xs ys : list (elem V)).
Implicit Types (p c q e : option loc).

Definition locs xs : list loc := e_loc <$> xs.

Definition elem_node x nx pv : node V := Node (Some (e_path x)) (e_val x) nx pv.

(** [dseg m p c xs q e]: from the node [c], whose [prev] is [p], following
    [next] visits the elements [xs] and arrives at [e]; [q] is the last node
    visited, or [p] when there is none. *)
Fixpoint dseg m p c xs q e : Prop :=
  match xs with
  | [] => c = e /\ p = q
  | x :: xs' =>
      c = Some (e_loc x) /\
      exists nx, m !! e_loc x = Some (elem_node x nx p) /\ dseg m (Some (e_loc x)) nx xs' q e
  end.

(** A whole list: both ends null, no node twice. *)
Definition dlist m (L : llist) xs : Prop :=
  dseg m None (l_head L) xs (l_tail L) None /\ NoDup (locs xs).

Lemma dseg_app m p c xs ys q e :
  dseg m p c (xs ++ ys) q e <->
  exists j jn, dseg m p c xs j jn /\ dseg m j jn ys q e.
Proof.
  revert p c. induction xs as [|x xs IH]; intros p c; simpl.
  - split; [by eauto|]. by intros (j & jn & [-> ->] & H).
  - setoid_rewrite IH. naive_solver.
Qed.

Lemma dseg_frame m m' p c xs q e :
  (forall l, l ∈ locs xs -> m' !! l = m !! l) -> dseg m p c xs q e -> dseg m' p c xs q e.
Proof.
  revert p c. induction xs as [|x xs IH]; intros p c Hm; simpl; [done|].
  intros (-> & nx & Hx & Hs). split; [done|]. exists nx. split.
  - rewrite Hm; [done|]. set_solver.
  - apply IH; [|done]. intros l Hl. apply Hm. set_solver.
Qed.

Lemma dseg_insert_ne m l n p c xs q e :
  l ∉ locs xs -> dseg m p c xs q e -> dseg (<[l := n]> m) p c xs q e.
Proof. intros Hl. apply dseg_frame. intros k Hk. rewrite lookup_insert_ne; set_solver. Qed.

Lemma dseg_delete_ne m l p c xs q e :
  l ∉ locs xs -> dseg m p c xs q e -> dseg (delete l m) p c xs q e.
Proof. intros Hl. apply dseg_frame. intros k Hk. rewrite lookup_delete_ne; set_solver. Qed.

Lemma dseg_dom m p c xs q e l :
  dseg m p c xs q e -> l ∈ locs xs -> l ∈ dom m.
Proof.
  revert p c. induction xs as [|x xs IH]; intros p c; simpl; [set_solver|].
  intros (-> & nx & Hx & Hs) [->|H]%elem_of_cons; [|by eapply IH].
  by apply elem_of_dom_2 in Hx.
Qed.

(** The last node, from either side. *)
Lemma dseg_snoc m p c xs x q e :
  dseg m p c (xs ++ [x]) q e <->
  exists j, dseg m p c xs j (Some (e_loc x)) /\ q = Some (e_loc x)
            /\ m !! e_loc x = Some (elem_node x e j).
Proof. rewrite dseg_app. simpl. naive_solver. Qed.

(** The head pointer and the [next] pointers fix where a segment ends. *)
Lemma dseg_cur m p c xs q e :
  dseg m p c xs q e -> c = match xs with [] => e | x :: _ => Some (e_loc x) end.
Proof. destruct xs; simpl; naive_solver. Qed.

Lemma dseg_last m p c xs q e :
  dseg m p c xs q e -> q = match last xs with None => p | Some x => Some (e_loc x) end.
Proof.
  destruct xs as [|x xs _] using rev_ind; [by intros [_ <-]|].
  rewrite dseg_snoc, last_snoc. naive_solver.
Qed.

(** A segment holds at most as many nodes as the store. *)
Lemma dseg_size m p c xs q e :
  dseg m p c xs q e -> NoDup (locs xs) -> (length xs <= size m)%nat.
Proof.
  intros Hs Hd. transitivity (length (locs xs)); [by unfold locs; rewrite length_fmap|].
  rewrite <- size_dom. rewrite <- (size_list_to_set (C := gset loc)) by done.
  apply subseteq_size. intros l Hl%elem_of_list_to_set. by eapply dseg_dom.
Qed.

(** Redirecting the two ends of a non-empty segment. *)
Lemma dseg_set_prev m p' x xs nx q e :
  x.(e_loc) ∉ locs xs ->
  dseg m (Some (e_loc x)) nx xs q e ->
  dseg (<[e_loc x := elem_node x nx p']> m) p' (Some (e_loc x)) (x :: xs) q e.
Proof.
  intros Hx Hs. split; [done|]. exists nx. rewrite lookup_insert_eq. split; [done|].
  by apply dseg_insert_ne.
Qed.

Lemma dseg_set_next m p c xs x j e :
  e_loc x ∉ locs xs ->
  dseg m p c xs j (Some (e_loc x)) ->
  dseg (<[e_loc x := elem_node x e j]> m) p c (xs ++ [x]) (Some (e_loc x)) e.
Proof.
  intros Hx Hs. apply dseg_snoc. exists j. rewrite lookup_insert_eq.
  split_and!; [|done..]. by apply dseg_insert_ne.
Qed.
End Segments.

(** Evaluates accesses to nodes whose contents the context knows. *)
Lemma put_Some {V} (M : mem V) l f n :
  m_nodes M !! l = Some n -> put (Some l) f M = Ok (Mem (<[l := f n]> (m_nodes M)) (m_quota M)).
Proof. intros H. unfold put. by rewrite H. Qed.

Lemma get_Some {V} (M : mem V) l n : m_nodes M !! l = Some n -> get (Some l) M = Ok n.
Proof. intros H. unfold get. simpl. by rewrite H. Qed.

Ltac node_lookup :=
  cbn [m_nodes m_quota];
  repeat first
    [ rewrite lookup_insert_eq
    | rewrite lookup_insert_ne by (first [done | congruence]) ];
  first [eassumption | reflexivity].

Ltac node_step :=
  unfold get_path, set_next, set_prev, set_val;
  repeat first
    [ progress cbn [rbind deref n_path n_val n_next n_prev elem_node with_next with_prev
                    with_val m_nodes m_quota l_head l_tail]
    | erewrite get_Some by node_lookup
    | erewrite put_Some by node_lookup ].

(** Breaks a [NoDup] hypothesis into the atomic disequalities. *)
Ltac nodup_facts :=
  repeat match goal with
  | H : NoDup (_ :: _) |- _ => apply NoDup_cons in H as [? H]
  | H : _ ∉ _ :: _ |- _ => apply not_elem_of_cons in H as [? H]
  | H : _ ∉ _ ++ _ |- _ => apply not_elem_of_app in H as [? H]
  end.

(** ** Insertion in path order *)

Section InsertSorted.
Context {V : Type}.
Implicit Types (m : gmap loc (node V)) (x y : elem V) (xs ys zs : list (elem V)).

Definition path_le x y : Prop := strle (e_path x) (e_path y).

(** The pure insertion: before the first element that is not smaller. *)
Fixpoint ins x xs : list (elem V) :=
  match xs with
  | [] => [x]
  | y :: ys => if strcmp (e_path x) (e_path y) <=? 0 then x :: xs else y :: ins x ys
  end.

Lemma ins_Permutation x xs : ins x xs ≡ₚ x :: xs.
Proof.
  induction xs as [|y ys IH]; simpl; [done|]. destruct (_ <=? 0); [done|].
  rewrite IH. apply Permutation_swap.
Qed.

Lemma ins_sorted x xs : StronglySorted path_le xs -> StronglySorted path_le (ins x xs).
Proof.
  induction 1 as [|y ys Hs IH Hy]; simpl; [by repeat constructor|].
  destruct (Z.leb_spec (strcmp (e_path x) (e_path y)) 0) as [L|G].
  - constructor; [by constructor|]. constructor; [done|].
    eapply Forall_impl; [exact Hy|]. intros z Hz. unfold path_le. by transitivity (e_path y).
  - constructor; [done|]. rewrite ins_Permutation. constructor; [|done].
    unfold path_le, strle. rewrite strcmp_opp. lia.
Qed.

Lemma ins_split x ys b zs :
  Forall (fun y => 0 < strcmp (e_path x) (e_path y)) ys ->
  strcmp (e_path x) (e_path b) <= 0 ->
  ins x (ys ++ b :: zs) = ys ++ x :: b :: zs.
Proof.
  intros Hys Hb. induction Hys as [|y ys Hy _ IH]; simpl.
  - by destruct (Z.leb_spec (strcmp (e_path x) (e_path b)) 0); [|lia].
  - destruct (Z.leb_spec (strcmp (e_path x) (e_path y)) 0); [lia|]. by f_equal.
Qed.

Lemma ins_end x xs :
  Forall (fun y => 0 < strcmp (e_path x) (e_path y)) xs -> ins x xs = xs ++ [x].
Proof.
  induction 1 as [|y ys Hy _ IH]; simpl; [done|].
  destruct (Z.leb_spec (strcmp (e_path x) (e_path y)) 0); [lia|]. by f_equal.
Qed.

(** The search stops at the first element that is not smaller. *)
Lemma find_pos_spec (M : mem V) path p c xs t fuel :
  dseg (m_nodes M) p c xs t None ->
  Exists (fun y => strcmp path (e_path y) <= 0) xs ->
  (length xs <= fuel)%nat ->
  exists ys b zs, xs = ys ++ b :: zs
    /\ Forall (fun y => 0 < strcmp path (e_path y)) ys /\ strcmp path (e_path b) <= 0
    /\ find_pos fuel path c M = Ok (Some (e_loc b)).
Proof.
  revert p c fuel. induction xs as [|x xs IH]; intros p c fuel Hs Hex Hf.
  { by apply Exists_nil in Hex. }
  destruct fuel as [|fuel]; simpl in Hf; [lia|].
  destruct Hs as (-> & nx & Hx & Hs). cbn [find_pos]. node_step.
  destruct (Z.le_gt_cases (strcmp path (e_path x)) 0) as [L|G].
  - exists [], x, xs. split_and!; [done..|].
    destruct nx; [|done]. by destruct (Z.ltb_spec 0 (strcmp path (e_path x))); [lia|].
  - apply Exists_cons in Hex as [?|Hex]; [lia|].
    destruct nx as [nl|].
    + destruct (Z.ltb_spec 0 (strcmp path (e_path x))); [|lia].
      destruct (IH _ _ fuel Hs Hex ltac:(lia)) as (ys & b & zs & -> & Hys & Hb & ->).
      exists (x :: ys), b, zs. split_and!; try done. by constructor.
    + apply dseg_cur in Hs. destruct xs; [by apply Exists_nil in Hex|done].
Qed.

(** The four ways of linking a fresh node in. *)
Lemma dseg_push_front m x y ys t ny nx pv :
  NoDup (locs (x :: y :: ys)) ->
  m !! e_loc x = Some (elem_node x nx pv) ->
  dseg m (Some (e_loc y)) ny ys t None ->
  dseg (<[e_loc x := elem_node x (Some (e_loc y)) None]>
         (<[e_loc y := elem_node y ny (Some (e_loc x))]> m))
    None (Some (e_loc x)) (x :: y :: ys) t None.
Proof.
  intros Hd Hx Hs. cbn in Hd. apply NoDup_cons in Hd as [H1 [H2 H3]%NoDup_cons].
  apply dseg_set_prev; [done|]. by apply dseg_set_prev.
Qed.

Lemma dseg_push_back m h x y ys j nx pv :
  NoDup (locs (x :: ys ++ [y])) ->
  m !! e_loc x = Some (elem_node x nx pv) ->
  dseg m None h ys j (Some (e_loc y)) ->
  dseg (<[e_loc x := elem_node x None (Some (e_loc y))]>
         (<[e_loc y := elem_node y (Some (e_loc x)) j]> m))
    None h ((ys ++ [y]) ++ [x]) (Some (e_loc x)) None.
Proof.
  intros Hd Hx Hs. cbn in Hd. apply NoDup_cons in Hd as [H1 H2].
  apply dseg_set_next; [done|]. apply dseg_set_next; [|done].
  unfold locs in H2. rewrite fmap_app in H2. apply NoDup_app in H2. set_solver.
Qed.

Lemma dseg_link m h x ys a b zs ja nb t nx pv :
  NoDup (locs (x :: ys ++ a :: b :: zs)) ->
  m !! e_loc x = Some (elem_node x nx pv) ->
  dseg m None h ys ja (Some (e_loc a)) ->
  dseg m (Some (e_loc b)) nb zs t None ->
  dseg (<[e_loc b := elem_node b nb (Some (e_loc x))]>
         (<[e_loc a := elem_node a (Some (e_loc x)) ja]>
           (<[e_loc x := elem_node x (Some (e_loc b)) (Some (e_loc a))]> m)))
    None h (ys ++ a :: x :: b :: zs) t None.
Proof.
  intros Hd Hx Hys Hzs.
  assert (Hd' : NoDup (e_loc x :: e_loc a :: e_loc b :: locs ys ++ locs zs)).
  { revert Hd. unfold locs. csimpl. rewrite fmap_app. csimpl. by rewrite <- !Permutation_middle. }
  clear Hd. nodup_facts.
  apply dseg_app. exists ja, (Some (e_loc a)). split.
  - by repeat apply dseg_insert_ne.
  - simpl. split; [done|]. exists (Some (e_loc x)).
    rewrite lookup_insert_ne, lookup_insert_eq by done. split; [done|].
    split; [done|]. exists (Some (e_loc b)).
    rewrite !lookup_insert_ne, lookup_insert_eq by done. split; [done|].
    split; [done|]. exists nb. rewrite lookup_insert_eq. split; [done|].
    by repeat apply dseg_insert_ne.
Qed.

Lemma dom_insert_old m l n n' : m !! l = Some n -> dom (<[l := n']> m) = dom m.
Proof. intros H. apply dom_insert_lookup_L. by eexists. Qed.

Lemma dlist_NoDup_ins m L x xs :
  dlist m L xs -> e_loc x ∉ locs xs -> NoDup (locs (ins x xs)).
Proof.
  intros [_ Hd] Hx. unfold locs. rewrite ins_Permutation. csimpl. by apply NoDup_cons.
Qed.

Definition inserted (M : mem V) L x xs : Prop :=
  exists L' m', insert_sorted (e_loc x) L M = Ok (L', Mem m' (m_quota M))
    /\ dlist m' L' (ins x xs) /\ dom m' = dom (m_nodes M).

Lemma insert_front M L x y ys :
  dlist (m_nodes M) L (y :: ys) -> e_loc x ∉ locs (y :: ys) ->
  m_nodes M !! e_loc x = Some (elem_node x None None) ->
  strcmp (e_path x) (e_path y) <= 0 -> inserted M L x (y :: ys).
Proof.
  intros HL Hf Hx Hle. pose proof (dlist_NoDup_ins _ _ _ _ HL Hf) as Hd'.
  assert (E : ins x (y :: ys) = x :: y :: ys) by by apply (ins_split x []).
  unfold inserted. rewrite E in *. clear E.
  destruct HL as [(Hh & ny & Hy & Hs) Hd]. destruct L as [h t]; cbn in Hh, Hs; subst.
  unfold insert_sorted. cbn in Hf, Hd. nodup_facts. node_step.
  destruct (Z.leb_spec (strcmp (e_path x) (e_path y)) 0) as [_|]; [|lia].
  node_step. do 2 eexists. split; [done|]. split; [split; [|done]|].
  - by apply (dseg_push_front _ _ _ _ _ _ None None).
  - cbn [m_nodes]. erewrite !dom_insert_old; [done|done|].
    rewrite lookup_insert_ne by done. done.
Qed.

Lemma insert_back M L x y ys :
  dlist (m_nodes M) L (ys ++ [y]) -> e_loc x ∉ locs (ys ++ [y]) ->
  m_nodes M !! e_loc x = Some (elem_node x None None) ->
  Forall (fun z => 0 < strcmp (e_path x) (e_path z)) (ys ++ [y]) -> inserted M L x (ys ++ [y]).
Proof.
  intros HL Hf Hx Hgt. pose proof (dlist_NoDup_ins _ _ _ _ HL Hf) as Hd'.
  unfold inserted. rewrite ins_end in * by done.
  destruct HL as [Hs Hd]. destruct L as [h t]; cbn in Hs.
  pose proof (dseg_cur _ _ _ _ _ _ Hs) as Hh.
  apply dseg_snoc in Hs as (j & Hs & -> & Hy).
  assert (exists hd nh ph, h = Some (e_loc hd) /\ e_loc hd <> e_loc x
            /\ m_nodes M !! e_loc hd = Some (elem_node hd nh ph)
            /\ 0 < strcmp (e_path x) (e_path hd)) as (hd & nh & ph & -> & Hne & Hhd & Hc).
  { destruct ys as [|z ys]; cbn in Hs, Hh, Hf.
    - destruct Hs as [? <-]. exists y, None, None. cbn in Hgt. apply Forall_cons in Hgt as [? _]. nodup_facts. split_and!; try done; congruence.
    - destruct Hs as (-> & nz & Hz & _). exists z, nz, None. nodup_facts.
      apply Forall_cons in Hgt as [? _]. split_and!; try done; congruence. }
  apply Forall_app in Hgt as [_ [Hy' _]%Forall_cons].
  assert (e_loc x <> e_loc y) by set_solver.
  unfold insert_sorted. cbn [l_head l_tail]. node_step.
  destruct (Z.leb_spec (strcmp (e_path x) (e_path hd)) 0) as [|_]; [lia|].
  node_step. destruct (Z.ltb_spec 0 (strcmp (e_path x) (e_path y))) as [_|]; [|lia].
  node_step. do 2 eexists. split; [done|]. split; [split; [|done]|].
  - apply (dseg_push_back _ _ _ _ _ _ None None); [|done..].
    unfold locs in *. csimpl. by apply NoDup_cons.
  - cbn [m_nodes]. erewrite !dom_insert_old; [done|done|].
    rewrite lookup_insert_ne by done. done.
Qed.

Lemma insert_middle M L x y ys :
  dlist (m_nodes M) L (y :: ys) -> e_loc x ∉ locs (y :: ys) ->
  m_nodes M !! e_loc x = Some (elem_node x None None) ->
  0 < strcmp (e_path x) (e_path y) ->
  (forall z, last (y :: ys) = Some z -> strcmp (e_path x) (e_path z) <= 0) ->
  inserted M L x (y :: ys).
Proof.
  intros HL Hf Hx Hy Hz. pose proof (dlist_NoDup_ins _ _ _ _ HL Hf) as Hd'.
  destruct HL as [Hs Hd]. destruct L as [h t]; cbn in Hs.
  destruct (exists_last (l := y :: ys)) as (zs & z & Ez); [done|].
  rewrite Ez, last_snoc in Hz. specialize (Hz _ eq_refl).
  assert (exists nz pz, m_nodes M !! e_loc z = Some (elem_node z nz pz) /\ t = Some (e_loc z))
    as (nz & pz & Hmz & ->).
  { pose proof Hs as Hs'. change (dseg (m_nodes M) None h (y :: ys) t None) in Hs'.
    rewrite Ez in Hs'. apply dseg_snoc in Hs' as (j & _ & -> & ?). by eauto. }
  destruct Hs as (-> & ny & Hmy & Hs).
  assert (Hs' : dseg (m_nodes M) None (Some (e_loc y)) (y :: ys) (Some (e_loc z)) None).
  { split; [done|]. by eauto. }
  unfold inserted, insert_sorted. cbn [l_head l_tail]. node_step.
  destruct (Z.leb_spec (strcmp (e_path x) (e_path y)) 0) as [|_]; [lia|].
  node_step. destruct (Z.ltb_spec 0 (strcmp (e_path x) (e_path z))) as [|_]; [lia|].
  destruct (find_pos_spec M (e_path x) _ _ _ _ (size (m_nodes M)) Hs')
    as (ys1 & b & zs1 & E & Hys1 & Hb & ->).
  { rewrite Ez. apply Exists_app. right. by apply Exists_cons_hd. }
  { by eapply dseg_size. }
  destruct ys1 as [|a ys1 _] using rev_ind; [injection E as -> ->; lia|].
  rewrite E in *. rewrite ins_split in * by done. clear E Ez Hmy Hs.
  rewrite <- !app_assoc in *. cbn [app] in *.
  apply dseg_app in Hs' as (ja & jn & Hys & (-> & na & Ha & (-> & nb & Hmb & Hzs))).
  assert (Hd2 : NoDup (e_loc x :: e_loc a :: e_loc b :: locs ys1 ++ locs zs1)).
  { revert Hd'. unfold locs. rewrite fmap_app. csimpl. rewrite <- !Permutation_middle.
    by rewrite (Permutation_swap (e_loc x)). }
  pose proof (conj Hd2 I) as Hd3. nodup_facts. node_step.
  do 2 eexists. split; [done|]. split; [split; [|done]|].
  - cbn [l_head l_tail]. rewrite insert_insert_eq. eapply (dseg_link _ _ _ _ _ _ _ _ _ _ None None); [|done..].
    unfold locs. csimpl. rewrite fmap_app. csimpl. rewrite <- !Permutation_middle. apply Hd3.
  - cbn [m_nodes]. rewrite insert_insert_eq.
    erewrite !dom_insert_old; [done|done|..]; rewrite ?lookup_insert_ne by done; done.
Qed.

(** [insert_sorted] implements [ins] on a sorted list, and neither allocates
    nor frees. *)
Lemma insert_sorted_spec M L x xs :
  dlist (m_nodes M) L xs -> StronglySorted path_le xs -> e_loc x ∉ locs xs ->
  m_nodes M !! e_loc x = Some (elem_node x None None) -> inserted M L x xs.
Proof.
  intros HL Hsort Hf Hx. destruct xs as [|y ys].
  - destruct HL as [[Hh Ht] _]. destruct L as [h t]; cbn in Hh, Ht; subst.
    exists (LList (Some (e_loc x)) (Some (e_loc x))), (m_nodes M). destruct M as [m q].
    split; [done|]. split; [|done]. split; [|apply NoDup_singleton].
    split; [done|]. by exists None.
  - destruct (Z.le_gt_cases (strcmp (e_path x) (e_path y)) 0) as [Hle|Hgt].
    { by apply insert_front. }
    destruct (exists_last (l := y :: ys)) as (zs & z & Ez); [done|].
    destruct (Z.le_gt_cases (strcmp (e_path x) (e_path z)) 0) as [Hle|Hgtz].
    { apply insert_middle; try done. rewrite Ez, last_snoc. by intros ? [= <-]. }
    rewrite Ez in *. apply insert_back; try done.
    apply Forall_app. split; [|by constructor].
    apply Forall_forall. intros w Hw.
    apply StronglySorted_app_1_elem_of with (x1 := w) (x2 := z) in Hsort; [|done|set_solver].
    unfold path_le, strle in Hsort.
    destruct (Z.le_gt_cases (strcmp (e_path x) (e_path w)) 0) as [H|]; [|done].
    pose proof (strcmp_trans _ _ _ H Hsort). lia.
Qed.
End InsertSorted.
