(* ===== verification/DListSort.v ===== *)
(** * Sorting by level, ownership and destruction

    [insertion_sort_by_level_increasing] moves nodes inside the doubly linked
    list; it is proved to implement the stable insertion sort [level_sort], under
    the precondition its loop needs (the first element has the least level).
    [owns] says that the store holds exactly one list and nothing else, and
    [destroy_list] gives every node back. *)

From S2P Require Import Prelude CString DList.

Section Sort.
Context {V : Type} (level : V -> Z).
Implicit Types (m : gmap loc (node V)) (M : mem V) (x y t b : elem V).
Implicit Types (xs ys zs ws : list (elem V)).

Abbreviation lev x := (level (e_val x)).

(** ** The pure sort *)

(** After every element whose level is not larger. *)
Fixpoint level_ins t xs : list (elem V) :=
  match xs with
  | [] => [t]
  | x :: xs' => if lev x <=? lev t then x :: level_ins t xs' else t :: xs
  end.

Definition level_sort xs : list (elem V) := fold_left (fun acc t => level_ins t acc) xs [].

Definition level_le x y : Prop := lev x <= lev y.

(** Level first, path second: the order of the output files. *)
Definition lex_le x y : Prop := lev x < lev y \/ (lev x = lev y /\ path_le x y).

Lemma level_ins_Permutation t xs : level_ins t xs ≡ₚ t :: xs.
Proof.
  induction xs as [|x xs IH]; simpl; [done|]. destruct (_ <=? _); [|done].
  rewrite IH. apply Permutation_swap.
Qed.

Lemma level_ins_sorted t xs :
  StronglySorted level_le xs -> StronglySorted level_le (level_ins t xs).
Proof.
  induction 1 as [|x xs Hs IH Hx]; simpl; [by repeat constructor|].
  destruct (Z.leb_spec (lev x) (lev t)).
  - constructor; [done|]. rewrite level_ins_Permutation. by constructor.
  - constructor; [by constructor|]. constructor; [unfold level_le; lia|].
    eapply Forall_impl; [exact Hx|]. unfold level_le. intros z. lia.
Qed.

Lemma level_ins_lex t xs :
  Forall (fun x => path_le x t) xs -> StronglySorted lex_le xs ->
  StronglySorted lex_le (level_ins t xs).
Proof.
  intros Hp Hs. induction Hs as [|x xs Hs IH Hx]; simpl; [by repeat constructor|].
  apply Forall_cons in Hp as [Hpx Hp]. destruct (Z.leb_spec (lev x) (lev t)).
  - constructor; [by apply IH|]. rewrite level_ins_Permutation. constructor; [|done].
    unfold lex_le. destruct (Z.eq_dec (lev x) (lev t)); [right; done|left; lia].
  - constructor; [by constructor|]. constructor; [left; lia|].
    eapply Forall_impl; [exact Hx|]. unfold lex_le. intros z. lia.
Qed.

Lemma fold_level_ins_Permutation xs acc :
  fold_left (fun acc t => level_ins t acc) xs acc ≡ₚ xs ++ acc.
Proof.
  revert acc. induction xs as [|x xs IH]; intros acc; simpl; [done|].
  rewrite IH, level_ins_Permutation. by rewrite Permutation_middle.
Qed.

Lemma level_sort_Permutation xs : level_sort xs ≡ₚ xs.
Proof. unfold level_sort. by rewrite fold_level_ins_Permutation, app_nil_r. Qed.

(** Sorting a list that is in path order by level gives the order by level and
    then by path: the sort is stable. *)
Lemma level_sort_lex xs : StronglySorted path_le xs -> StronglySorted lex_le (level_sort xs).
Proof.
  intros Hp. unfold level_sort.
  assert (forall acc, StronglySorted lex_le acc ->
            Forall (fun a => Forall (path_le a) xs) acc ->
            StronglySorted lex_le (fold_left (fun acc t => level_ins t acc) xs acc)) as H.
  { induction Hp as [|x xs Hs IH Hx]; intros acc Ha Hacc; simpl; [done|].
    apply IH.
    - apply level_ins_lex; [|done]. eapply Forall_impl; [exact Hacc|]. intros a Hxa. simpl in Hxa. by apply Forall_cons in Hxa as [? _].
    - rewrite level_ins_Permutation. constructor; [done|].
      eapply Forall_impl; [exact Hacc|]. intros a Hxa. simpl in Hxa. by apply Forall_cons in Hxa as [_ ?]. }
  apply H; constructor.
Qed.

(** Where [level_ins] puts an element, read from the back as the loop does. *)
Lemma level_ins_split t ys b zs :
  StronglySorted level_le (ys ++ [b]) -> lev b <= lev t ->
  Forall (fun z => lev t < lev z) zs ->
  level_ins t (ys ++ b :: zs) = ys ++ b :: t :: zs.
Proof.
  intros Hs Hb Hz. induction ys as [|y ys IH]; simpl.
  - destruct (Z.leb_spec (lev b) (lev t)); [|lia]. f_equal.
    destruct Hz as [|z zs Hz _]; simpl; [done|].
    by destruct (Z.leb_spec (lev z) (lev t)); [lia|].
  - apply StronglySorted_cons in Hs as [Hy Hs].
    assert (level_le y b) as Hyb by (rewrite Forall_forall in Hy; apply Hy; set_solver).
    unfold level_le in Hyb. destruct (Z.leb_spec (lev y) (lev t)); [|lia].
    f_equal. by apply IH.
Qed.

(** ** Moving one node *)

Lemma unlink_spec M h ys a t ws q :
  dseg (m_nodes M) None h (ys ++ a :: t :: ws) q None ->
  NoDup (locs (ys ++ a :: t :: ws)) ->
  exists m' q', unlink (Some (e_loc t)) M = Ok (Mem m' (m_quota M))
    /\ dseg m' None h (ys ++ a :: ws) q' None
    /\ (exists nt, m' !! e_loc t = Some (elem_node t nt (Some (e_loc a))))
    /\ dom m' = dom (m_nodes M).
Proof.
  intros Hs Hd. apply dseg_app in Hs as (j & jn & Hys & (-> & na & Ha & (-> & nt & Ht & Hws))).
  unfold unlink.
  destruct ws as [|w ws].
  - destruct Hws as [-> <-].
    assert (Hd' : NoDup (e_loc a :: e_loc t :: locs ys)).
    { revert Hd. unfold locs. rewrite fmap_app. csimpl. rewrite <- !Permutation_middle.
      by rewrite app_nil_r. }
    nodup_facts. node_step.
    do 2 eexists. split; [done|]. split_and!.
    + apply dseg_snoc. exists j. rewrite lookup_insert_eq. split_and!; [|done..].
      by apply dseg_insert_ne.
    + exists None. by rewrite lookup_insert_ne.
    + by erewrite dom_insert_old.
  - destruct Hws as (-> & nw & Hw & Hws).
    assert (Hd' : NoDup (e_loc a :: e_loc t :: e_loc w :: locs ys ++ locs ws)).
    { revert Hd. unfold locs. rewrite fmap_app. csimpl. by rewrite <- !Permutation_middle. }
    nodup_facts. node_step.
    do 2 eexists. split; [done|]. split_and!.
    + apply dseg_app. exists j, (Some (e_loc a)). split; [by repeat apply dseg_insert_ne|].
      split; [done|]. exists (Some (e_loc w)). rewrite lookup_insert_eq. split; [done|].
      split; [done|]. exists nw. rewrite lookup_insert_ne, lookup_insert_eq by done.
      split; [done|]. by repeat apply dseg_insert_ne.
    + exists (Some (e_loc w)). by rewrite !lookup_insert_ne.
    + erewrite !dom_insert_old; [done|done|]. by rewrite lookup_insert_ne.
Qed.

Lemma link_after_spec M h ys b ws t q nt pt :
  dseg (m_nodes M) None h (ys ++ b :: ws) q None ->
  NoDup (locs (t :: ys ++ b :: ws)) ->
  m_nodes M !! e_loc t = Some (elem_node t nt pt) ->
  exists m' q', link_after (Some (e_loc t)) (Some (e_loc b)) M = Ok (Mem m' (m_quota M))
    /\ dseg m' None h (ys ++ b :: t :: ws) q' None
    /\ dom m' = dom (m_nodes M).
Proof.
  intros Hs Hd Ht. apply dseg_app in Hs as (j & jn & Hys & (-> & nb & Hb & Hws)).
  unfold link_after.
  destruct ws as [|w ws].
  - destruct Hws as [-> <-].
    assert (Hd' : NoDup (e_loc t :: e_loc b :: locs ys)).
    { revert Hd. unfold locs. csimpl. rewrite fmap_app. csimpl. rewrite <- !Permutation_middle.
      by rewrite app_nil_r. }
    nodup_facts. node_step.
    do 2 eexists. split; [done|]. split.
    + apply dseg_app. exists j, (Some (e_loc b)). split; [by repeat apply dseg_insert_ne|].
      split; [done|]. exists (Some (e_loc t)). rewrite lookup_insert_eq. split; [done|].
      split; [done|]. exists None. by rewrite lookup_insert_ne, lookup_insert_eq.
    + rewrite insert_insert_eq. erewrite !dom_insert_old; [done|done|]. by rewrite lookup_insert_ne.
  - destruct Hws as (-> & nw & Hw & Hws).
    assert (Hd' : NoDup (e_loc t :: e_loc b :: e_loc w :: locs ys ++ locs ws)).
    { revert Hd. unfold locs. csimpl. rewrite fmap_app. csimpl. by rewrite <- !Permutation_middle. }
    nodup_facts. node_step.
    do 2 eexists. split; [done|]. split.
    + rewrite insert_insert_eq. rewrite insert_insert_ne by done.
      by apply (dseg_link _ _ _ _ _ _ _ _ _ _ nt pt).
    + rewrite insert_insert_eq.
      erewrite !dom_insert_old; [done|done|..]; rewrite ?lookup_insert_ne by done; done.
Qed.

(** ** The loops *)

(** Walking back from the last element of [ds] stops at the head or at the last
    element whose level is not larger. *)
Lemma find_back_spec M h ds jn key fuel q :
  dseg (m_nodes M) None (Some h) ds q jn -> NoDup (locs ds) -> ds <> [] ->
  (length ds <= fuel)%nat ->
  exists ys b zs, ds = ys ++ b :: zs
    /\ Forall (fun z => key < lev z) zs /\ (ys = [] \/ lev b <= key)
    /\ forall tl, find_back level fuel key q (LList (Some h) tl) M = Ok (Some (e_loc b)).
Proof.
  revert jn q fuel. induction ds as [|d ds IH] using rev_ind; intros jn q fuel Hs Hd Hne Hf; [done|].
  apply dseg_snoc in Hs as (j & Hs & -> & Hm).
  rewrite length_app in Hf. simpl in Hf. destruct fuel as [|fuel]; [lia|].
  destruct ds as [|d0 ds0] eqn:Eds.
  - destruct Hs as [[= ->] <-]. exists [], d, []. split_and!; [done|done|by left|].
    intros tl. simpl. by rewrite decide_True.
  - rewrite <- Eds in *.
    assert (h = e_loc d0 /\ e_loc d <> h) as [_ Hdh].
    { pose proof (dseg_cur _ _ _ _ _ _ Hs) as E. rewrite Eds in E, Hd. injection E as ->.
      split; [done|]. cbn in Hd. apply NoDup_cons in Hd as [Hd _].
      unfold locs in Hd. rewrite fmap_app in Hd. set_solver. }
    destruct (Z.lt_ge_cases key (lev d)) as [L|G].
    + destruct (IH _ _ fuel Hs) as (ys & b & zs & E & Hz & Hb & Hf').
      { unfold locs in Hd. rewrite fmap_app in Hd. by apply NoDup_app in Hd as [? _]. }
      { by rewrite Eds. }
      { lia. }
      exists ys, b, (zs ++ [d]). split_and!.
      * by rewrite E, <- app_assoc.
      * apply Forall_app. split; [done|by constructor].
      * done.
      * intros tl. cbn [find_back l_head]. rewrite decide_False by congruence.
        node_step. destruct (Z.ltb_spec key (lev d)); [|lia]. apply Hf'.
    + exists ds, d, []. split_and!; [done|constructor|by right|]. intros tl.
      cbn [find_back l_head]. rewrite decide_False by congruence.
      node_step. by destruct (Z.ltb_spec key (lev d)); [lia|].
Qed.

(** The head stays first: every element is at least as deep. *)
Lemma level_ins_head t d ds :
  lev d <= lev t -> exists ds', level_ins t (d :: ds) = d :: ds'.
Proof. intros H. simpl. destruct (Z.leb_spec (lev d) (lev t)); [by eexists|lia]. Qed.

(** One iteration puts [w] where [level_ins] does. *)
Lemma sort_iter_spec h ds w ws L M q :
  l_head L = Some (e_loc h) ->
  dseg (m_nodes M) None (Some (e_loc h)) ((h :: ds) ++ w :: ws) q None ->
  NoDup (locs ((h :: ds) ++ w :: ws)) ->
  StronglySorted level_le (h :: ds) -> lev h <= lev w ->
  exists bi m1 m2 q2 n,
    get (Some (e_loc w)) M = Ok n /\ n_val n = e_val w
    /\ n_next n = match ws with [] => None | w' :: _ => Some (e_loc w') end
    /\ find_back level (size (m_nodes M)) (lev w) (n_prev n) L M = Ok bi
    /\ unlink (Some (e_loc w)) M = Ok (Mem m1 (m_quota M))
    /\ link_after (Some (e_loc w)) bi (Mem m1 (m_quota M)) = Ok (Mem m2 (m_quota M))
    /\ dseg m2 None (Some (e_loc h)) (level_ins w (h :: ds) ++ ws) q2 None
    /\ dom m2 = dom (m_nodes M).
Proof.
  intros HL Hs Hd Hsort Hw. destruct L as [lh lt]. cbn in HL. subst lh.
  pose proof Hs as Hs0. apply dseg_app in Hs0 as (j & jn & Hds & (-> & nw & Hmw & Hws)).
  assert (Hdd : NoDup (locs (h :: ds))).
  { unfold locs in Hd. rewrite fmap_app in Hd. by apply NoDup_app in Hd as [? _]. }
  destruct (find_back_spec M (e_loc h) (h :: ds) _ (lev w) (size (m_nodes M)) _ Hds Hdd)
    as (ys & b & zs & E & Hz & Hb & Hfb); [done|by eapply dseg_size|].
  assert (Hb' : lev b <= lev w).
  { destruct Hb as [->|]; [|done]. injection E as -> ->. done. }
  destruct (exists_last (l := b :: zs)) as (as_ & a & Ea); [done|].
  assert (Eall : (h :: ds) ++ w :: ws = (ys ++ as_) ++ a :: w :: ws).
  { rewrite E, Ea, <- !app_assoc. done. }
  rewrite Eall in Hs, Hd.
  destruct (unlink_spec M _ _ _ _ _ _ Hs Hd) as (m1 & q1 & Hu & Hs1 & (nt & Hw1) & Hdom1).
  assert (E1 : (ys ++ as_) ++ a :: ws = ys ++ b :: zs ++ ws).
  { rewrite <- app_assoc. f_equal. rewrite app_comm_cons, Ea, <- app_assoc. done. }
  rewrite E1 in Hs1.
  assert (Hd1 : NoDup (locs (w :: ys ++ b :: zs ++ ws))).
  { rewrite <- E1. revert Hd. unfold locs. csimpl. rewrite !fmap_app. csimpl.
    rewrite <- !Permutation_middle. by rewrite (Permutation_swap (e_loc w)). }
  destruct (link_after_spec (Mem m1 (m_quota M)) _ _ _ _ _ _ _ _ Hs1 Hd1 Hw1)
    as (m2 & q2 & Hl & Hs2 & Hdom2).
  exists (Some (e_loc b)), m1, m2, q2, (elem_node w nw j). cbn [n_next n_prev n_val elem_node].
  split_and!; try done; [by node_step|by apply dseg_cur in Hws| |by rewrite Hdom2].
  rewrite E, level_ins_split; [by rewrite <- app_assoc| |done..].
  rewrite E, cons_middle, app_assoc in Hsort. by apply StronglySorted_app_1_l in Hsort.
Qed.

Lemma sort_loop_spec h ds ws L M q fuel :
  l_head L = Some (e_loc h) ->
  dseg (m_nodes M) None (Some (e_loc h)) ((h :: ds) ++ ws) q None ->
  NoDup (locs ((h :: ds) ++ ws)) ->
  StronglySorted level_le (h :: ds) -> Forall (fun w => lev h <= lev w) ws ->
  (length ws <= fuel)%nat ->
  exists m' q', sort_loop level fuel (match ws with [] => None | w :: _ => Some (e_loc w) end) L M
                = Ok (Mem m' (m_quota M))
    /\ dseg m' None (Some (e_loc h)) (fold_left (fun acc t => level_ins t acc) ws (h :: ds)) q' None
    /\ dom m' = dom (m_nodes M).
Proof.
  intros HL. revert ds M q fuel.
  induction ws as [|w ws IH]; intros ds M q fuel Hs Hd Hsort Hmin Hf.
  - exists (m_nodes M), q. destruct M. rewrite app_nil_r in Hs. by destruct fuel.
  - destruct fuel as [|fuel]; simpl in Hf; [lia|].
    apply Forall_cons in Hmin as [Hw Hmin].
    destruct (sort_iter_spec h ds w ws L M q) as (bi & m1 & m2 & q2 & n & Hg & Hv & Hn & Hf1 & Hu & Hl & Hs2 & Hdom);
      try done.
    cbn [sort_loop]. rewrite Hg. cbn [rbind]. rewrite Hv, Hf1. cbn [rbind].
    rewrite Hu. cbn [rbind]. rewrite Hl. cbn [rbind]. rewrite Hn.
    destruct (level_ins_head w h ds Hw) as (ds' & Eh).
    destruct (IH ds' (Mem m2 (m_quota M)) q2 fuel) as (m3 & q3 & HR & Hs3 & Hdom3); try done.
    + by rewrite <- Eh.
    + revert Hd. unfold locs. rewrite <- Eh, !fmap_app, level_ins_Permutation. csimpl.
      by rewrite <- !Permutation_middle, (Permutation_swap (e_loc w)).
    + rewrite <- Eh. by apply level_ins_sorted.
    + lia.
    + cbn [m_quota m_nodes] in *. exists m3, q3. split; [exact HR|]. split; [|congruence].
      cbn [fold_left]. by rewrite Eh.
Qed.

(** The whole sort, on a list whose first element has the least level.  The
    [tail] field of the list header is not part of the result: the code does
    not update it. *)
Lemma insertion_sort_spec M L h xs :
  dlist (m_nodes M) L (h :: xs) -> Forall (fun x => lev h <= lev x) xs ->
  exists m' q', insertion_sort_by_level_increasing level L M = Ok (Mem m' (m_quota M))
    /\ dlist m' (LList (l_head L) q') (level_sort (h :: xs))
    /\ dom m' = dom (m_nodes M).
Proof.
  intros [Hs Hd] Hmin. unfold insertion_sort_by_level_increasing.
  pose proof Hs as (Hh & nh & Hmh & Hxs).
  destruct (sort_loop_spec h [] xs L M (l_tail L) (size (m_nodes M))) as (m' & q' & HR & Hs' & Hdom);
    try done.
  { cbn [app]. by rewrite Hh in Hs. }
  { by repeat constructor. }
  { apply dseg_size in Hs; [|done]. simpl in Hs. lia. }
  exists m', q'. rewrite Hh. node_step. rewrite (dseg_cur _ _ _ _ _ _ Hxs), HR.
  split; [done|]. split; [|done]. split; [exact Hs'|].
  unfold locs. by rewrite level_sort_Permutation.
Qed.
End Sort.

(** ** Ownership *)

Section Owns.
Context {V : Type}.
Implicit Types (M : mem V) (x : elem V) (xs : list (elem V)).

(** The store holds the nodes of this list and no others. *)
Definition owns M L xs : Prop :=
  dlist (m_nodes M) L xs /\ dom (m_nodes M) = list_to_set (locs xs).

Lemma owns_inj M L xs x y : owns M L xs -> x ∈ xs -> y ∈ xs -> e_loc x = e_loc y -> x = y.
Proof.
  intros [[_ Hd] _] Hx Hy E. apply list_elem_of_lookup in Hx as [i Hi], Hy as [j Hj].
  assert (i = j) as ->; [|congruence]. eapply NoDup_lookup; [exact Hd|..];
    unfold locs; rewrite list_lookup_fmap, ?Hi, ?Hj; simpl; by rewrite ?E.
Qed.

(** Allocating a node and inserting it in path order. *)
Lemma create_insert_spec M L xs path v :
  owns M L xs -> StronglySorted path_le xs -> (2 <= m_quota M)%nat ->
  exists l M1 L' M2,
    create_node path v M = Ok (l, M1) /\ insert_sorted l L M1 = Ok (L', M2)
    /\ owns M2 L' (ins (Elem l path v) xs) /\ m_quota M2 = (m_quota M - 2)%nat
    /\ l ∉ locs xs.
Proof.
  intros [[Hs Hd] Hdom] Hsort Hq.
  destruct M as [m [|[|q]]]; cbn [m_nodes m_quota] in *; [lia|lia|].
  set (l := fresh (dom m) : loc).
  set (x := Elem l path v).
  assert (Hl : l ∉ dom m) by apply is_fresh.
  assert (Hl' : l ∉ locs xs) by (rewrite Hdom in Hl; set_solver).
  set (M1 := Mem (<[l := elem_node x None None]> m) q).
  destruct (insert_sorted_spec M1 L x xs) as (L' & m2 & HR & HL & Hdom2).
  - split; [|done]. by apply dseg_insert_ne.
  - done.
  - done.
  - cbn. by rewrite lookup_insert_eq.
  - exists l, M1, L', (Mem m2 q). split_and!; [done|exact HR| |cbn; lia|done].
    split; [done|]. cbn [m_nodes] in *. rewrite Hdom2. cbn [M1 m_nodes]. rewrite dom_insert_L, Hdom.
    apply set_eq. intros k. unfold locs. rewrite elem_of_union, elem_of_singleton, !elem_of_list_to_set.
    rewrite ins_Permutation. csimpl. by rewrite elem_of_cons.
Qed.

(** When [malloc] fails, the program exits. *)
Lemma create_node_exit M path v : m_quota M = O -> create_node path v M = Exit (-1).
Proof. intros H. unfold create_node. by rewrite H. Qed.

Lemma destroy_loop_spec M p c xs q fuel :
  dseg (m_nodes M) p c xs q None -> NoDup (locs xs) -> (length xs <= fuel)%nat ->
  exists m', destroy_loop fuel c M = Ok (Mem m' (m_quota M))
    /\ dom m' = dom (m_nodes M) ∖ list_to_set (locs xs).
Proof.
  revert p c M fuel. induction xs as [|x xs IH]; intros p c M fuel Hs Hd Hf.
  - destruct Hs as [-> _]. exists (m_nodes M). destruct M. destruct fuel; set_solver.
  - destruct Hs as (-> & nx & Hx & Hs). destruct fuel as [|fuel]; simpl in Hf; [lia|].
    cbn in Hd. apply NoDup_cons in Hd as [Hx' Hd].
    destruct (IH (Some (e_loc x)) nx (Mem (delete (e_loc x) (m_nodes M)) (m_quota M)) fuel)
      as (m' & HR & Hdom); [by apply dseg_delete_ne|done|lia|].
    exists m'. cbn [destroy_loop]. node_step. split; [done|].
    rewrite Hdom. cbn. rewrite dom_delete_L. set_solver.
Qed.

(** [destroy_list] frees every node of the list, and the list's nodes are all
    there is: nothing is leaked, nothing freed twice. *)
Lemma destroy_list_spec M L xs : owns M L xs -> destroy_list L M = Ok (Mem ∅ (m_quota M)).
Proof.
  intros [[Hs Hd] Hdom]. unfold destroy_list.
  destruct (destroy_loop_spec M None (l_head L) xs (l_tail L) (size (m_nodes M)))
    as (m' & -> & Hm'); [done|done|by eapply dseg_size|].
  do 2 f_equal. apply dom_empty_inv_L. set_solver.
Qed.
End Owns.

(** ** Writing a node's fields *)

Section SetVal.
Context {V : Type}.
Implicit Types (m : gmap loc (node V)) (x : elem V) (xs : list (elem V)).

Definition update_val (l : loc) (v : V) xs : list (elem V) :=
  (fun x => if decide (e_loc x = l) then Elem (e_loc x) (e_path x) v else x) <$> xs.

Lemma locs_update_val l v xs : locs (update_val l v xs) = locs xs.
Proof.
  unfold locs, update_val. rewrite <- list_fmap_compose. apply list_fmap_ext.
  intros i x _. simpl. by case_decide.
Qed.

Lemma update_val_id l v xs : l ∉ locs xs -> update_val l v xs = xs.
Proof.
  intros H. unfold update_val. rewrite <- (list_fmap_id xs) at 2.
  apply list_fmap_ext. intros i x Hx. rewrite decide_False; [done|].
  intros <-. apply H, list_elem_of_fmap_2, list_elem_of_lookup. eauto.
Qed.

(** Overwriting the fields of one node leaves the links alone. *)
Lemma dseg_set_val m p c xs q e x v :
  dseg m p c xs q e -> NoDup (locs xs) -> x ∈ xs ->
  exists nx pv, m !! e_loc x = Some (elem_node x nx pv) /\
    dseg (<[e_loc x := with_val v (elem_node x nx pv)]> m) p c (update_val (e_loc x) v xs) q e.
Proof.
  revert p c. induction xs as [|y ys IH]; intros p c Hs Hd Hx; [set_solver|].
  destruct Hs as (-> & ny & Hy & Hs). cbn in Hd. apply NoDup_cons in Hd as [Hy' Hd].
  destruct (decide (e_loc x = e_loc y)) as [E|E].
  - assert (x = y) as ->.
    { apply elem_of_cons in Hx as [|Hx]; [done|]. exfalso. apply Hy'. rewrite <- E.
      by apply list_elem_of_fmap_2. }
    exists ny, p. split; [done|]. unfold update_val. csimpl. rewrite decide_True by done.
    fold (update_val (e_loc y) v ys). rewrite update_val_id by done. cbn.
    split; [done|]. exists ny. rewrite lookup_insert_eq. split; [done|]. by apply dseg_insert_ne.
  - apply elem_of_cons in Hx as [->|Hx]; [done|].
    destruct (IH _ _ Hs Hd Hx) as (nx & pv & Hm & Hs').
    exists nx, pv. split; [done|]. unfold update_val. csimpl. rewrite decide_False by done.
    fold (update_val (e_loc x) v ys). cbn. split; [done|]. exists ny.
    rewrite lookup_insert_ne by done. by split.
Qed.

(** The same through the pointer operations, for an owned list. *)
Lemma owns_set_val (M : mem V) L xs x v :
  owns M L xs -> x ∈ xs ->
  exists n M', get (Some (e_loc x)) M = Ok n /\ n_path n = Some (e_path x) /\ n_val n = e_val x
    /\ set_val (Some (e_loc x)) v M = Ok M'
    /\ owns M' L (update_val (e_loc x) v xs) /\ m_quota M' = m_quota M.
Proof.
  intros [[Hs Hd] Hdom] Hx. destruct (dseg_set_val _ _ _ _ _ _ x v Hs Hd Hx) as (nx & pv & Hm & Hs').
  eexists _, _. split_and!; [by apply get_Some| | |by apply put_Some| |]; try done.
  split; [split|]; cbn [m_nodes]; rewrite ?locs_update_val; try done.
  by rewrite dom_insert_lookup_L by by eexists.
Qed.
End SetVal.

(** ** Properties of the list *)

(** C21: [insert_sorted] on a doubly linked list sorted by path succeeds, never
    dereferences a bad pointer, and leaves a well-linked list that is sorted and
    holds the old elements and the new one; no node is allocated or freed. *)
Theorem insert_sorted_refines {V} (M : mem V) L x xs :
  dlist (m_nodes M) L xs -> StronglySorted path_le xs -> e_loc x ∉ locs xs ->
  m_nodes M !! e_loc x = Some (elem_node x None None) ->
  exists L' m' ys, insert_sorted (e_loc x) L M = Ok (L', Mem m' (m_quota M))
    /\ dlist m' L' ys /\ StronglySorted path_le ys /\ ys ≡ₚ x :: xs
    /\ dom m' = dom (m_nodes M).
Proof.
  intros HL Hs Hf Hx. destruct (insert_sorted_spec M L x xs HL Hs Hf Hx) as (L' & m' & HR & HL' & Hd).
  exists L', m', (ins x xs). split_and!; try done; [by apply ins_sorted|apply ins_Permutation].
Qed.

(** [insertion_sort_by_level_increasing] on a list in path order whose first
    element has the least level terminates and relinks the same nodes in the order
    of level and then path. *)
Theorem level_sort_refines {V} (level : V -> Z) (M : mem V) L h xs :
  dlist (m_nodes M) L (h :: xs) -> StronglySorted path_le (h :: xs) ->
  Forall (fun x => level (e_val h) <= level (e_val x)) xs ->
  exists m' t' ys, insertion_sort_by_level_increasing level L M = Ok (Mem m' (m_quota M))
    /\ dlist m' (LList (l_head L) t') ys /\ ys ≡ₚ h :: xs
    /\ StronglySorted (lex_le level) ys /\ dom m' = dom (m_nodes M).
Proof.
  intros HL Hs Hmin. destruct (insertion_sort_spec level M L h xs HL Hmin) as (m' & t' & HR & HL' & Hd).
  exists m', t', (level_sort level (h :: xs)).
  split_and!; try done; [apply level_sort_Permutation|by apply level_sort_lex].
Qed.

(** [destroy_list] on the only list of the store frees every node: the store
    is empty afterwards, so nothing leaks and nothing is freed twice. *)
Theorem destroy_list_frees_all {V} (M : mem V) L xs :
  owns M L xs -> destroy_list L M = Ok (Mem ∅ (m_quota M)).
Proof. apply destroy_list_spec. Qed.

(** A list of two nodes, "a" at level 1 and "c" at level 2, with a third node "b"
    not yet linked. *)
Module DemoList.
Definition a : elem Z := Elem 1 (lit "a") 1.
Definition b : elem Z := Elem 2 (lit "b") 3.
Definition c : elem Z := Elem 3 (lit "c") 2.
Definition linked : gmap loc (node Z) :=
  {[ 1%positive := elem_node a (Some 3%positive) None;
     3%positive := elem_node c None (Some 1%positive) ]}.
Definition M3 : mem Z := Mem (<[2%positive := elem_node b None None]> linked) 5.
Definition L : llist := LList (Some 1%positive) (Some 3%positive).
Definition M2 : mem Z := Mem linked 5.
End DemoList.

Lemma demo_dlist : dlist DemoList.linked DemoList.L [DemoList.a; DemoList.c].
Proof.
  split; [|by apply (bool_decide_unpack _); vm_compute].
  split; [done|]. eexists. split; [reflexivity|]. split; [done|]. eexists. by split.
Qed.

Lemma demo_sorted : StronglySorted path_le [DemoList.a; DemoList.c].
Proof. repeat constructor. by vm_compute. Qed.

Lemma insert_sorted_refines_witness :
  exists L' m' ys, insert_sorted (e_loc DemoList.b) DemoList.L DemoList.M3 = Ok (L', Mem m' 5)
    /\ dlist m' L' ys /\ StronglySorted path_le ys /\ ys ≡ₚ [DemoList.b; DemoList.a; DemoList.c]
    /\ dom m' = dom (m_nodes DemoList.M3).
Proof.
  apply (insert_sorted_refines DemoList.M3 DemoList.L DemoList.b [DemoList.a; DemoList.c]).
  - destruct demo_dlist as [Hs Hd]. split; [|done]. apply dseg_insert_ne; [|done].
    apply (bool_decide_unpack _). by vm_compute.
  - apply demo_sorted.
  - apply (bool_decide_unpack _). by vm_compute.
  - reflexivity.
Defined.

Lemma level_sort_refines_witness :
  exists m' t' ys, insertion_sort_by_level_increasing (fun l : Z => l) DemoList.L DemoList.M2 = Ok (Mem m' 5)
    /\ dlist m' (LList (Some 1%positive) t') ys /\ ys ≡ₚ [DemoList.a; DemoList.c]
    /\ StronglySorted (lex_le (fun l : Z => l)) ys /\ dom m' = dom (m_nodes DemoList.M2).
Proof.
  apply (level_sort_refines (fun l : Z => l) DemoList.M2 DemoList.L DemoList.a [DemoList.c]).
  - apply demo_dlist.
  - apply demo_sorted.
  - repeat constructor. by vm_compute.
Defined.

Lemma destroy_list_frees_all_witness :
  destroy_list DemoList.L DemoList.M2 = Ok (Mem ∅ 5).
Proof.
  apply (destroy_list_frees_all DemoList.M2 DemoList.L [DemoList.a; DemoList.c]).
  split; [apply demo_dlist|by vm_compute].
Defined.
