(* ===== verification/SList.v ===== *)
(** * Singly linked lists with a tail pointer

    The lists of [fsa/fsa.c] (paths with inode numbers) and of
    [client-server/server.c] (threads): nodes are appended at the tail, walked from
    the head and freed in order.  [chain] relates the store to the list of values. *)

From S2P Require Import Prelude CString DList.

Record snode (V : Type) := SNode { sn_val : V; sn_next : option loc }.
Arguments SNode {V} _ _.
Arguments sn_val {V} _.
Arguments sn_next {V} _.

Abbreviation store V := (gmap loc (snode V)).

Record slist := SList { sl_head : option loc; sl_tail : option loc }.

Definition empty_list : slist := SList None None.

Section Ops.
Context {V : Type}.
Implicit Types (M : store V) (L : slist) (p q : option loc).

(** A new node outside the list. *)
Definition new_node (v : V) M : loc * store V :=
  let l := fresh (dom M) in (l, <[l := SNode v None]> M).

Definition sget p M : res (snode V) := deref (p ≫= fun l => M !! l).

Definition sset_next p x M : res (store V) :=
  let* n := sget p M in
  match p with
  | Some l => Ok (<[l := SNode (sn_val n) x]> M)
  | None => Undef NullDeref
  end.

(** [insert_tail]: both programs test that head and tail are null. *)
Definition insert_tail (l : loc) L M : res (slist * store V) :=
  match sl_head L, sl_tail L with
  | None, None => Ok (SList (Some l) (Some l), M)
  | _, _ =>
      let* M := sset_next (sl_tail L) (Some l) M in
      Ok (SList (sl_head L) (Some l), M)
  end.

(** [while (ptr != NULL) { ...; ptr = ptr->next; }] with the result of the body
    accumulated. *)
Fixpoint walk {A} (fuel : nat) (f : A -> V -> res A) (a : A) (ptr : option loc) M : res A :=
  match ptr with
  | None => Ok a
  | Some _ =>
      match fuel with
      | O => NoFuel
      | S k => let* n := sget ptr M in
               let* a := f a (sn_val n) in
               walk k f a (sn_next n) M
      end
  end.

(** [destroy_list]: a node is freed after its successor has been read. *)
Fixpoint destroy_loop (fuel : nat) (ptr : option loc) M : res (store V) :=
  match ptr with
  | None => Ok M
  | Some l =>
      match fuel with
      | O => NoFuel
      | S k => let* n := sget ptr M in destroy_loop k (sn_next n) (delete l M)
      end
  end.

(** ** The list a store holds *)

(** From [p] the values [xs] are linked, at these addresses, up to [q]. *)
Fixpoint chain M p (xs : list (loc * V)) q : Prop :=
  match xs with
  | [] => p = q
  | (l, v) :: xs' => p = Some l /\ exists nx, M !! l = Some (SNode v nx) /\ chain M nx xs' q
  end.

Record holds M L (xs : list (loc * V)) : Prop := {
  h_chain : chain M (sl_head L) xs None;
  h_tail : sl_tail L = fst <$> last xs;
  h_nodup : NoDup xs.*1 }.

Lemma chain_app M p xs ys q :
  chain M p (xs ++ ys) q <-> exists r, chain M p xs r /\ chain M r ys q.
Proof.
  revert p. induction xs as [|[l v] xs IH]; intros p; simpl; [naive_solver|].
  setoid_rewrite IH. naive_solver.
Qed.

Lemma chain_frame M M' p xs q :
  (forall l, l ∈ xs.*1 -> M' !! l = M !! l) -> chain M p xs q -> chain M' p xs q.
Proof.
  revert p. induction xs as [|[l v] xs IH]; intros p Hf; simpl; [done|].
  intros (-> & nx & E & C). split; [done|]. exists nx. rewrite Hf by set_solver.
  split; [done|]. apply IH; [set_solver|done].
Qed.

Lemma chain_dom M p xs q l : chain M p xs q -> l ∈ xs.*1 -> l ∈ dom M.
Proof.
  revert p. induction xs as [|[l' v] xs IH]; intros p; simpl; [set_solver|].
  intros (-> & nx & E & C) [->|Hl]%elem_of_cons; [by apply elem_of_dom_2 in E|eauto].
Qed.

Lemma holds_empty M : holds M empty_list [].
Proof. constructor; [done..|]. apply NoDup_nil. done. Qed.

(** Appending a node that is not in the list. *)
Lemma insert_tail_spec M L xs l v :
  holds M L xs -> l ∉ xs.*1 -> M !! l = Some (SNode v None) ->
  exists L' M', insert_tail l L M = Ok (L', M') /\ holds M' L' (xs ++ [(l, v)]) /\
    dom M' = dom M /\ (forall k, k ∉ xs.*1 -> M' !! k = M !! k).
Proof.
  intros [Hc Ht Hn] Hl Hv. destruct L as [hd tl]; simpl in *.
  assert (ND : NoDup (xs ++ [(l, v)]).*1).
  { rewrite fmap_app. simpl. apply NoDup_app. split_and!; [done| |apply NoDup_singleton]. set_solver. }
  destruct xs as [|x xs _] using rev_ind.
  - simpl in *. subst. exists (SList (Some l) (Some l)), M. split_and!; [done| |done|done].
    constructor; simpl; [|done..]. split; [done|]. by exists None.
  - rewrite last_snoc in Ht. simpl in Ht. destruct x as [lx vx]. simpl in Ht. subst tl.
    apply chain_app in Hc as (r & Hc & Hx). simpl in Hx. destruct Hx as (-> & nx & Ex & ->).
    unfold insert_tail. simpl. unfold sset_next, sget. simpl. rewrite Ex. simpl.
    exists (SList hd (Some l)), (<[lx := SNode vx (Some l)]> M).
    assert (Hlx : (lx ∉ xs.*1) /\ l <> lx).
    { rewrite fmap_app in Hn, Hl. apply NoDup_app in Hn as (_ & Hd & _). set_solver. }
    split_and!.
    + by destruct hd.
    + constructor; simpl; [|by rewrite last_snoc|done].
      rewrite <- app_assoc. apply chain_app. exists (Some lx). split.
      * eapply chain_frame; [|done]. intros k Hk. rewrite lookup_insert_ne; [done|]. set_solver.
      * simpl. split; [done|]. exists (Some l). rewrite lookup_insert_eq. split; [done|].
        split; [done|]. exists None. rewrite lookup_insert_ne by naive_solver. done.
    + apply elem_of_dom_2 in Ex. set_solver.
    + intros k Hk. rewrite lookup_insert_ne; [done|]. rewrite fmap_app in Hk. set_solver.
Qed.

Lemma new_node_fresh v M l M' :
  new_node v M = (l, M') -> (l ∉ dom M) /\ M' = <[l := SNode v None]> M.
Proof. unfold new_node. intros [= <- <-]. split; [apply is_fresh|done]. Qed.

(** Allocating and appending a node. *)
Lemma new_node_insert M L xs v :
  holds M L xs ->
  exists l L' M', (l ∉ dom M) /\
    insert_tail (new_node v M).1 L (new_node v M).2 = Ok (L', M') /\
    holds M' L' (xs ++ [(l, v)]) /\ dom M' = {[ l ]} ∪ dom M /\
    (forall k, k <> l -> k ∉ xs.*1 -> M' !! k = M !! k).
Proof.
  intros H. destruct (new_node v M) as [l M1] eqn:E. apply new_node_fresh in E as [Hl ->].
  assert (Hx : l ∉ xs.*1).
  { intros Hin. apply Hl. by eapply chain_dom; [apply H|]. }
  destruct (insert_tail_spec (<[l := SNode v None]> M) L xs l v) as (L' & M' & E & Hh & Hd & Hf).
  - destruct H as [Hc Ht Hn]. constructor; [|done..]. eapply chain_frame; [|done].
    intros k Hk. rewrite lookup_insert_ne; [done|]. set_solver.
  - done.
  - apply lookup_insert_eq.
  - exists l, L', M'. split_and!; [done..|rewrite Hd; set_solver|].
    intros k Hk Hk'. rewrite Hf by done. by apply lookup_insert_ne.
Qed.

(** A walk folds over the values in order; the number of nodes is enough fuel. *)
Lemma walk_chain {A} (f : A -> V -> res A) M p xs fuel a :
  chain M p xs None -> (length xs <= fuel)%nat ->
  walk fuel f a p M = foldl (fun r v => let* a := r in f a v) (Ok a) xs.*2.
Proof.
  revert p fuel a. induction xs as [|[l v] xs IH]; intros p fuel a; simpl.
  - intros -> _. by destruct fuel.
  - intros (-> & nx & E & C) Hf. destruct fuel as [|k]; [lia|]. simpl. unfold sget. simpl.
    rewrite E. simpl. destruct (f a v) as [a'| | |]; simpl; [apply IH; [done|lia]|..].
    all: clear; induction xs as [|[l' v'] xs IH]; simpl; auto.
Qed.

Lemma chain_length M p xs q : NoDup xs.*1 -> chain M p xs q -> (length xs <= size M)%nat.
Proof.
  intros ND C. rewrite <- (length_fmap fst xs), <- size_dom.
  rewrite <- (size_list_to_set (C := gset loc) xs.*1) by done. apply subseteq_size.
  intros l Hl. apply elem_of_list_to_set in Hl. by eapply chain_dom.
Qed.

(** Every node of the list is freed, once, and nothing else. *)
Lemma destroy_chain_spec M p xs fuel :
  chain M p xs None -> NoDup xs.*1 -> (length xs <= fuel)%nat ->
  exists M', destroy_loop fuel p M = Ok M' /\
    forall l, M' !! l = if decide (l ∈ xs.*1) then None else M !! l.
Proof.
  revert M p fuel. induction xs as [|[l v] xs IH]; intros M p fuel; simpl.
  - intros -> _ _. exists M. split; [by destruct fuel|]. done.
  - intros (-> & nx & E & C) [Hl ND]%NoDup_cons Hf. destruct fuel as [|k]; [lia|]. simpl.
    unfold sget. simpl. rewrite E. simpl.
    destruct (IH (delete l M) nx k) as (M' & E' & Hm); [|done|lia|].
    + eapply chain_frame; [|done]. intros j Hj. rewrite lookup_delete_ne; [done|]. set_solver.
    + exists M'. split; [done|]. intros j. rewrite Hm.
      destruct (decide (j = l)) as [->|Hne].
      * rewrite lookup_delete_eq. rewrite (decide_True (P := l ∈ l :: _)) by set_solver. by case_decide.
      * rewrite lookup_delete_ne by done. repeat case_decide; set_solver.
Qed.
End Ops.
