(* ===== verification/DirTree.v ===== *)
(** * The directory trees the listing programs walk

    What [opendir], [readdir], [stat] and [fopen] answer is a parameter of the
    model ([fsys]); [tree_at] says that these answers describe a finite directory
    tree, and [visible_entries] is the reference listing of that tree, in the
    order of its entries. *)

From S2P Require Import Prelude CString DList DListSort.

(** ** The operating system's answers *)

Record fsys := Fsys {
  fs_readdir : cstr -> option (list cstr);  (* [None]: [opendir] returns NULL *)
  fs_stat : cstr -> option bool;            (* [S_ISDIR]; [None]: [stat] fails *)
  fs_read : cstr -> option (list byte);     (* contents; [None]: [fopen] "r" fails *)
  fs_create : cstr -> bool }.               (* whether [fopen] "w" succeeds *)

(** ** Paths *)

Definition hidden (name : cstr) : bool :=
  match name with b :: _ => bool_decide (b = dot) | [] => false end.

Definition join (path name : cstr) : cstr := path ++ slash :: name.

(** [char tmp[255]] receives the joined path and its null character. *)
Definition PATHBUF : nat := 255.
Definition fits (path name : cstr) : bool := (length (join path name) <? PATHBUF)%nat.

(** ** Trees *)

Inductive tree : Type :=
  | File
  | Dir (entries : list (cstr * tree)).

Definition is_dir (t : tree) : bool := match t with Dir _ => true | File => false end.

Section Entries.
Context {A : Type} (f : cstr -> tree -> list A).
Fixpoint flat_entries (es : list (cstr * tree)) : list A :=
  match es with
  | [] => []
  | (n, t) :: es' => (if hidden n then [] else f n t) ++ flat_entries es'
  end.
End Entries.

(** Every visible entry below [path] with its level, a directory before its
    contents. *)
Fixpoint visible_entries (path : cstr) (lev : Z) (t : tree) : list (cstr * Z) :=
  match t with
  | File => []
  | Dir es => flat_entries
      (fun n t' => (join path n, lev) :: visible_entries (join path n) (lev + 1) t') es
  end.

(** The paths of the visible entries that are not directories. *)
Fixpoint visible_files (path : cstr) (t : tree) : list cstr :=
  match t with
  | File => []
  | Dir es => flat_entries
      (fun n t' => (if is_dir t' then [] else [join path n]) ++ visible_files (join path n) t') es
  end.

Section TreeAt.
Context (env : fsys).

(** The file system shows the tree [t] at [path]: [readdir] lists the entries,
    and for each visible one the joined path fits the buffer, [stat] tells
    whether it is a directory and, recursively, the subtree is there. *)
Fixpoint tree_at (path : cstr) (t : tree) : Prop :=
  match t with
  | File => True
  | Dir es =>
      fs_readdir env path = Some (map fst es) /\
      (fix go es := match es with
       | [] => True
       | (n, t') :: es' =>
           (hidden n = true \/
            (fits path n = true /\ fs_stat env (join path n) = Some (is_dir t')
             /\ tree_at (join path n) t')) /\ go es'
       end) es
  end.

Definition entry_at (path : cstr) (e : cstr * tree) : Prop :=
  hidden e.1 = true \/
  (fits path e.1 = true /\ fs_stat env (join path e.1) = Some (is_dir e.2)
   /\ tree_at (join path e.1) e.2).

Lemma tree_at_Dir path es :
  tree_at path (Dir es) <->
  fs_readdir env path = Some (map fst es) /\ Forall (entry_at path) es.
Proof.
  simpl. f_equiv. induction es as [|[n t] es IH]; [by split|].
  rewrite Forall_cons. unfold entry_at at 1. simpl. by rewrite IH.
Qed.
End TreeAt.

(** The number of nested directories, the fuel a walk needs. *)
Fixpoint depth (t : tree) : nat :=
  match t with
  | File => 0%nat
  | Dir es => S ((fix go es := match es with
                  | [] => 0%nat
                  | (_, t') :: es' => Nat.max (depth t') (go es')
                  end) es)
  end.

Lemma depth_entry es n t : (n, t) ∈ es -> (S (depth t) <= depth (Dir es))%nat.
Proof.
  intros H. simpl. apply le_n_S. induction es as [|[n' t'] es IH]; [set_solver|].
  apply elem_of_cons in H as [[= -> ->]|H]; [lia|]. specialize (IH H). lia.
Qed.

(** Every listed path extends the base path, and lies at or below its level. *)
Definition below (path : cstr) (lev : Z) (e : cstr * Z) : Prop :=
  (exists s, e.1 = join path s) /\ lev <= e.2.

Lemma below_join path n lev e : below (join path n) (lev + 1) e -> below path lev e.
Proof.
  intros [[s Hs] Hl]. split; [|lia]. exists (join n s). rewrite Hs. unfold join.
  by rewrite <- app_assoc.
Qed.

Lemma visible_entries_below path lev t : Forall (below path lev) (visible_entries path lev t).
Proof.
  remember (depth t) as d eqn:Hd. assert (Hle : (depth t <= d)%nat) by lia. clear Hd.
  revert path lev t Hle. induction d as [|d IH]; intros path lev [|es] Hle; try by constructor.
  - simpl in Hle. lia.
  - cbn [visible_entries]. assert (Hes : forall n t, (n, t) ∈ es -> (depth t <= d)%nat).
    { intros n t H%depth_entry. lia. }
    clear Hle. induction es as [|[n t] es IHes]; simpl; [constructor|].
    apply Forall_app. split; [|apply IHes; set_solver].
    destruct (hidden n); [constructor|]. constructor; [split; [by exists n|simpl; lia]|].
    eapply Forall_impl; [apply (IH (join path n)), (Hes n); set_solver|].
    intros e. apply below_join.
Qed.

(** ** Permuted trees *)

(** The same tree up to the order of entries in each directory. *)
Inductive tree_perm : tree -> tree -> Prop :=
  | tp_file : tree_perm File File
  | tp_dir es es1 es' :
      es ≡ₚ es1 -> Forall2 (fun e e' => e.1 = e'.1 /\ tree_perm e.2 e'.2) es1 es' ->
      tree_perm (Dir es) (Dir es').

Lemma flat_entries_perm {A} (f : cstr -> tree -> list A) es es' :
  es ≡ₚ es' -> flat_entries f es ≡ₚ flat_entries f es'.
Proof.
  induction 1 as [|[n t] es es' _ IH|[n t] [n' t'] es|es es1 es' _ IH1 _ IH2]; simpl; [done| | |].
  - by rewrite IH.
  - rewrite !app_assoc. by rewrite (Permutation_app_comm (if hidden n' then _ else _)).
  - by rewrite IH1.
Qed.

Lemma tree_perm_entries t t' :
  tree_perm t t' -> forall path lev, visible_entries path lev t ≡ₚ visible_entries path lev t'.
Proof.
  remember (depth t) as d eqn:Hd. assert (Hle : (depth t <= d)%nat) by lia. clear Hd.
  revert t t' Hle. induction d as [|d IH]; intros t t' Hle Hp path lev;
    destruct Hp as [|es es1 es' Hp Hf]; try done; [simpl in Hle; lia|].
  cbn [visible_entries]. rewrite (flat_entries_perm _ _ _ Hp).
  assert (Hes : forall n t, (n, t) ∈ es1 -> (depth t <= d)%nat).
  { intros n t H. rewrite <- Hp in H. apply depth_entry in H. lia. }
  clear Hle Hp es. induction Hf as [|[n t] [n' t'] es1 es' [Hn Ht] _ IHf]; [done|].
  simpl in Hn, Ht. subst n'. simpl. apply Permutation_app.
  - destruct (hidden n); [done|]. f_equiv. apply IH; [|done]. apply (Hes n). set_solver.
  - apply IHf. set_solver.
Qed.

(** ** The order of the output *)

Definition entry_le (x y : cstr * Z) : Prop :=
  x.2 < y.2 \/ (x.2 = y.2 /\ strle x.1 y.1).

#[export] Instance entry_le_dec x y : Decision (entry_le x y).
Proof. unfold entry_le. apply _. Defined.
#[export] Instance entry_le_trans : Transitive entry_le.
Proof.
  intros x y z. unfold entry_le. intros [H1|[H1 H1']] [H2|[H2 H2']]; try (left; lia).
  right. split; [lia|]. by etransitivity.
Qed.
#[export] Instance entry_le_antisymm : AntiSymm (=) entry_le.
Proof.
  intros [p l] [p' l']. unfold entry_le. simpl. intros [H1|[H1 H1']] [H2|[H2 H2']]; try lia.
  f_equal; [|done]. by apply (anti_symm strle).
Qed.
#[export] Instance entry_le_total : Total entry_le.
Proof.
  intros x y. unfold entry_le. destruct (Z.lt_trichotomy x.2 y.2) as [|[|]]; auto.
  destruct (total strle x.1 y.1); auto.
Qed.

(** ** Ranks

    An entry's order number is its rank among the entries of its level. *)

Definition rank (seen : list (cstr * Z)) (lev : Z) : Z :=
  1 + Z.of_nat (length (filter (fun e => e.2 = lev) seen)).

Lemma rank_snoc seen e lev :
  rank (seen ++ [e]) lev = rank seen lev + (if decide (e.2 = lev) then 1 else 0).
Proof.
  unfold rank. rewrite filter_app, length_app. rewrite filter_cons, filter_nil.
  case_decide; simpl; lia.
Qed.

Lemma rank_none seen lev : Forall (fun e => e.2 <> lev) seen -> rank seen lev = 1.
Proof.
  intros H. unfold rank. assert (filter (fun e => e.2 = lev) seen = []) as ->; [|done].
  induction H as [|e seen He _ IH]; [done|]. by rewrite filter_cons_False.
Qed.

(** Proves [tree_at] of a concrete tree by evaluating the file system. *)
Ltac solve_tree_at :=
  match goal with
  | |- tree_at _ _ File => exact I
  | |- tree_at _ _ (Dir _) =>
      apply tree_at_Dir; split; [vm_compute; reflexivity|]; solve_tree_at
  | |- Forall _ [] => apply Forall_nil_2
  | |- Forall _ (_ :: _) => apply Forall_cons_2; solve_tree_at
  | |- entry_at _ _ _ =>
      first [ left; vm_compute; reflexivity
            | right; cbn [fst snd]; split; [vm_compute; reflexivity|];
              split; [vm_compute; reflexivity|]; solve_tree_at ]
  end.

(** ** From lists of nodes to listings

    The paths and levels held by a list, and two facts both programs rest on: the base
    path is first in path order, and a sorted listing is determined by its contents. *)

Section Listing.
Context {V : Type} (lv : V -> Z).
Implicit Types (xs : list (elem V)).

Definition listing xs : list (cstr * Z) := (fun x => (e_path x, lv (e_val x))) <$> xs.

(** In path order the base path comes first, and it has the least level. *)
Lemma root_first path E xs :
  StronglySorted path_le xs -> listing xs ≡ₚ (path, 1) :: E -> Forall (below path 2) E ->
  exists h xs', xs = h :: xs' /\ Forall (fun x => lv (e_val h) <= lv (e_val x)) xs'.
Proof.
  intros Hs Hp HE. destruct xs as [|h xs]; [by apply Permutation_nil_l in Hp|].
  exists h, xs. split; [done|].
  assert (Hall : Forall (fun e => e = (path, 1) \/ below path 2 e) (listing (h :: xs))).
  { rewrite Hp. constructor; [by left|]. eapply Forall_impl; [exact HE|]. auto. }
  assert (Hh : lv (e_val h) = 1).
  { assert (Hin : (path, 1) ∈ listing (h :: xs)) by (rewrite Hp; set_solver).
    apply list_elem_of_fmap in Hin as (r & Hr & Hin).
    pose proof Hall as Hall'. cbn in Hall'. apply Forall_cons in Hall' as [[[= Hhp Hh]|Hb] _]; [done|].
    injection Hr as Hrp Hrl. apply elem_of_cons in Hin as [->|Hin]; [done|].
    apply StronglySorted_cons in Hs as [Hs _]. rewrite Forall_forall in Hs. specialize (Hs _ Hin).
    destruct Hb as [[s Hb] _]. unfold path_le, strle in Hs. simpl in Hb. rewrite Hb, <- Hrp in Hs.
    rewrite strcmp_opp in Hs. unfold join in Hs. rewrite strcmp_prefix in Hs. lia. }
  rewrite Hh. cbn in Hall. apply Forall_cons in Hall as [_ Hall].
  unfold listing in Hall. apply Forall_fmap in Hall. eapply Forall_impl; [exact Hall|].
  intros x [[= _ ->]|[_ Hx]]; simpl in *; lia.
Qed.

Lemma listing_sorted xs : StronglySorted (lex_le lv) xs -> StronglySorted entry_le (listing xs).
Proof.
  induction 1 as [|x xs Hs IH Hx]; [constructor|]. constructor; [done|].
  unfold listing. apply Forall_fmap. exact Hx.
Qed.

(** A sorted list of entries is determined by what it contains. *)
Lemma sorted_listing xs E :
  StronglySorted entry_le (listing xs) -> listing xs ≡ₚ E -> listing xs = merge_sort entry_le E.
Proof.
  intros Hs Hp. apply (StronglySorted_unique entry_le); [done| |].
  - apply StronglySorted_merge_sort; apply _.
  - by rewrite merge_sort_Permutation.
Qed.
End Listing.
