(* ===== verification/DirList.v ===== *)
(** * dirlist.c

    The listing program: walks a directory tree, keeps every visible entry with
    its level in a list sorted by path, sorts that list by level and writes one
    line per entry.  The list operations are those of [DList]; this file has the
    walk, the output and [main], and proves the written file equal to a reference
    listing of the tree. *)

From S2P Require Import Prelude CString DList DListSort DirTree.

(** A node's field beside its path and links is its level. *)
Abbreviation level := (fun l : Z => l).

(** ** The walk *)

(** The list with the store it lives in, and the static [current_level]. *)
Record walk := Walk { w_level : Z; w_list : llist; w_mem : mem Z }.

Definition insert_path (path : cstr) (w : walk) : res walk :=
  let* '(nd, M) := create_node path (w_level w) (w_mem w) in
  let* '(L, M) := insert_sorted nd (w_list w) M in
  Ok (Walk (w_level w) L M).

Definition add_level (d : Z) (w : walk) : walk := Walk (w_level w + d) (w_list w) (w_mem w).

(** The loop over [readdir].  [rec] is the recursive call; [buf] is the [struct
    stat], indeterminate until a [stat] succeeds. *)
Fixpoint populate_entries (rec : cstr -> walk -> res walk) (env : fsys) (path : cstr)
    (buf : option bool) (names : list cstr) (w : walk) : res walk :=
  match names with
  | [] => Ok w
  | d :: names' =>
      if hidden d then populate_entries rec env path buf names' w
      else if fits path d then
        let tmp := join path d in
        let buf := match fs_stat env tmp with Some b => Some b | None => buf end in
        let* w := insert_path tmp w in
        match buf with
        | None => Undef Uninitialised
        | Some true =>
            let* w := rec tmp (add_level 1 w) in
            populate_entries rec env path buf names' (add_level (-1) w)
        | Some false => populate_entries rec env path buf names' w
        end
      else Undef BufferOverflow
  end.

Fixpoint populate_list (fuel : nat) (env : fsys) (path : cstr) (w : walk) : res walk :=
  match fuel with
  | O => NoFuel
  | S f =>
      let* w := if w_level w =? 1
                then let* w := insert_path path w in Ok (add_level 1 w)
                else Ok w in
      let* names := deref (fs_readdir env path) in
      populate_entries (populate_list f env) env path None names w
  end.

(** ** The output *)

Definition out_line (lev order : Z) (path : cstr) : list byte :=
  dec lev ++ colon :: dec order ++ colon :: path ++ [newline].

(** [order] is indeterminate before the first iteration; it counts the entries of a level,
    and is an [int] in the source. *)
Fixpoint print_loop (fuel : nat) (curr : option loc) (order : option Z) (M : mem Z)
  : res (list byte) :=
  match curr with
  | None => Ok []
  | Some _ =>
      match fuel with
      | O => NoFuel
      | S f =>
          let* n := get curr M in
          let* same := match n_prev n with
                       | None => Ok false
                       | Some _ => let* p := get (n_prev n) M in Ok (n_val n =? n_val p)
                       end in
          let* order := if (same : bool)
                        then match order with Some o => Ok (o + 1) | None => Undef Uninitialised end
                        else Ok 1 in
          let* path := deref (n_path n) in
          let* rest := print_loop f (n_next n) (Some order) M in
          Ok (out_line (n_val n) order path ++ rest)
      end
  end.

(** The contents the output file gets; [fprintf] and [fclose] on the null stream are
    undefined. *)
Definition print_list_to_file (env : fsys) (L : llist) (filename : cstr) (M : mem Z)
  : res (list byte) :=
  if fs_create env filename then print_loop (size (m_nodes M)) (l_head L) None M
  else Undef NullDeref.

(** ** main *)

(** The exit status, the output file written, and the store at the end.  The
    usage message of a wrong call goes to the standard output. *)
Definition main (fuel : nat) (env : fsys) (argv : list cstr) (M : mem Z)
  : res (Z * option (cstr * list byte) * mem Z) :=
  match argv with
  | [_; dirpath; outfile] =>
      let* '(L, M) := create_list M in
      let* w := populate_list fuel env dirpath (Walk 1 L M) in
      let* M := insertion_sort_by_level_increasing level (w_list w) (w_mem w) in
      let* out := print_list_to_file env (w_list w) outfile M in
      let* M := destroy_list (w_list w) M in
      Ok (0, Some (outfile, out), M)
  | _ => Ok (-1, None, M)
  end.

(** ** What the walk builds *)

Abbreviation content := (listing level).

(** The walk holds exactly the entries [E], sorted by path, and may still
    allocate [q] times. *)
Definition holds (w : walk) (E : list (cstr * Z)) (q : nat) : Prop :=
  exists xs, owns (w_mem w) (w_list w) xs /\ StronglySorted path_le xs
             /\ content xs ≡ₚ E /\ m_quota (w_mem w) = q.

Lemma holds_add_level d w E q : holds w E q -> holds (add_level d w) E q.
Proof. done. Qed.

Lemma insert_path_spec path w E q :
  holds w E q -> (2 <= q)%nat ->
  exists w', insert_path path w = Ok w' /\ w_level w' = w_level w
             /\ holds w' ((path, w_level w) :: E) (q - 2).
Proof.
  intros (xs & Ho & Hs & HE & <-) Hq.
  destruct (create_insert_spec _ _ _ path (w_level w) Ho Hs Hq)
    as (l & M1 & L' & M2 & HR1 & HR2 & Ho' & Hq' & _).
  exists (Walk (w_level w) L' M2). unfold insert_path. rewrite HR1. simpl. rewrite HR2.
  split; [done|]. split; [done|]. eexists. split_and!; [exact Ho'|by apply ins_sorted| |exact Hq'].
  unfold listing. rewrite ins_Permutation. csimpl. by f_equiv.
Qed.

(** What the recursive call promises for the subtrees of depth at most [d]. *)
Definition walks (rec : cstr -> walk -> res walk) (env : fsys) (d : nat) : Prop :=
  forall path es w E q,
    (depth (Dir es) <= d)%nat -> tree_at env path (Dir es) -> 1 < w_level w -> holds w E q ->
    (2 * length (visible_entries path (w_level w) (Dir es)) <= q)%nat ->
    exists w', rec path w = Ok w' /\ w_level w' = w_level w
      /\ holds w' (visible_entries path (w_level w) (Dir es) ++ E)
               (q - 2 * length (visible_entries path (w_level w) (Dir es))).

Lemma holds_perm w E E' q q' : holds w E q -> E ≡ₚ E' -> q = q' -> holds w E' q'.
Proof. intros (xs & H1 & H2 & H3 & H4) HE <-. exists xs. by rewrite <- HE. Qed.

Lemma populate_entries_spec rec env d path es buf w E q :
  walks rec env d ->
  (forall n t, (n, t) ∈ es -> (depth t <= d)%nat) -> Forall (entry_at env path) es ->
  1 < w_level w -> holds w E q ->
  let new := flat_entries (fun n t => (join path n, w_level w)
               :: visible_entries (join path n) (w_level w + 1) t) es in
  (2 * length new <= q)%nat ->
  exists w', populate_entries rec env path buf (map fst es) w = Ok w'
    /\ w_level w' = w_level w /\ holds w' (new ++ E) (q - 2 * length new).
Proof.
  intros Hrec. revert buf w E q. induction es as [|[n t] es IH]; intros buf w E q Hd Hat Hl Hw new Hq.
  - exists w. split_and!; try done. eapply holds_perm; [done..|simpl; lia].
  - apply Forall_cons in Hat as [He Hat]. cbn [map fst populate_entries].
    destruct He as [He|(Hfit & Hst & Hsub)]; cbn in *.
    + subst new. rewrite He in *. apply IH; try done. set_solver.
    + subst new. destruct (hidden n) eqn:Hh.
      { apply IH; try done. set_solver. }
      cbn [app length] in *. rewrite Hfit, Hst. rewrite length_app in *.
      destruct (insert_path_spec (join path n) w E q Hw ltac:(lia)) as (w1 & -> & Hl1 & Hw1).
      cbn [rbind]. destruct t as [|es']; cbn [is_dir].
      * destruct (IH (Some false) w1 _ _ ltac:(set_solver) Hat ltac:(lia) Hw1) as (w2 & HR & Hl2 & Hw2).
        { rewrite Hl1. simpl in *. lia. }
        rewrite Hl1 in *. exists w2. split_and!; [done..|]. eapply holds_perm; [exact Hw2| |simpl; lia].
        cbn. solve_Permutation.
      * destruct (Hrec (join path n) es' (add_level 1 w1) _ _ ltac:(apply (Hd n); set_solver) Hsub
                    ltac:(simpl; lia) (holds_add_level _ _ _ _ Hw1)) as (w2 & -> & Hl2 & Hw2).
        { cbn [add_level w_level]. rewrite Hl1. lia. }
        cbn [rbind]. cbn [add_level w_level] in *. rewrite Hl1 in *.
        destruct (IH (Some true) (add_level (-1) w2) _ _ ltac:(set_solver) Hat ltac:(cbn; lia)
                    (holds_add_level _ _ _ _ Hw2)) as (w3 & HR & Hl3 & Hw3).
        { cbn [add_level w_level]. rewrite Hl2. replace (w_level w + 1 + -1) with (w_level w) by lia. lia. }
        cbn [add_level w_level] in *. rewrite Hl2 in *.
        replace (w_level w + 1 + -1) with (w_level w) in * by lia.
        exists w3. split_and!; [done..|]. eapply holds_perm; [exact Hw3| |lia].
        solve_Permutation.
Qed.

Lemma populate_list_walks env d : walks (populate_list d env) env d.
Proof.
  induction d as [|d IH]; intros path es w E q Hd Hat Hl Hw Hq; [simpl in Hd; lia|].
  apply tree_at_Dir in Hat as [Hr Hes]. cbn [populate_list].
  destruct (Z.eqb_spec (w_level w) 1); [lia|]. cbn [rbind]. rewrite Hr. cbn [deref rbind].
  eapply (populate_entries_spec _ env d); try done.
  intros n' t H%depth_entry. lia.
Qed.

(** The call from [main]: the base path itself is listed first, at level 1. *)
Lemma populate_list_root env path es d q :
  (depth (Dir es) <= d)%nat -> tree_at env path (Dir es) ->
  let E := (path, 1) :: visible_entries path 2 (Dir es) in
  (2 * length E <= q)%nat ->
  exists w', populate_list d env path (Walk 1 (LList None None) (Mem ∅ q)) = Ok w'
    /\ holds w' E (q - 2 * length E).
Proof.
  intros Hd Hat E Hq. destruct d as [|d]; [simpl in Hd; lia|].
  apply tree_at_Dir in Hat as [Hr Hes]. cbn [populate_list w_level].
  change (1 =? 1) with true. cbn iota.
  assert (H0 : holds (Walk 1 (LList None None) (Mem ∅ q)) [] q).
  { exists []. split_and!; [|constructor|done|done]. split; [|done]. split; [done|constructor]. }
  destruct (insert_path_spec path _ _ _ H0) as (w1 & -> & Hl1 & Hw1); [simpl in Hq; lia|].
  cbn [rbind]. rewrite Hr. cbn [deref rbind]. cbn [w_level] in *.
  destruct (populate_entries_spec (populate_list d env) env d path es None (add_level 1 w1)
              [(path, 1)] (q - 2) (populate_list_walks env d)) as (w2 & HR & _ & Hw2); try done.
  - intros n' t H%depth_entry. lia.
  - cbn. lia.
  - cbn [add_level w_level]. rewrite Hl1. subst E. cbn [visible_entries length] in Hq.
    change (1 + 1) with 2. lia.
  - exists w2. split; [exact HR|]. cbn [add_level w_level] in Hw2. rewrite Hl1 in Hw2.
    change (1 + 1) with 2 in Hw2. subst E. cbn [visible_entries length] in *.
    eapply holds_perm; [exact Hw2|solve_Permutation|lia].
Qed.

(** ** What the output is *)

(** The reference text: each entry with its level and its rank among the entries
    of that level. *)
Fixpoint render (seen es : list (cstr * Z)) : list byte :=
  match es with
  | [] => []
  | e :: es' => out_line e.2 (rank seen e.2) e.1 ++ render (seen ++ [e]) es'
  end.

Lemma print_loop_spec M p c xs q seen last_e order fuel :
  dseg (m_nodes M) p c xs q None ->
  StronglySorted entry_le (seen ++ content xs) ->
  match p with
  | None => seen = []
  | Some l => exists s n, seen = s ++ [last_e] /\ m_nodes M !! l = Some n
                          /\ n_val n = last_e.2 /\ order = Some (rank s last_e.2)
  end ->
  (length xs <= fuel)%nat ->
  print_loop fuel c order M = Ok (render seen (content xs)).
Proof.
  revert p c seen last_e order fuel.
  induction xs as [|x xs IH]; intros p c seen last_e order fuel Hs Hsort Hp Hf.
  { destruct Hs as [-> _]. by destruct fuel. }
  destruct Hs as (-> & nx & Hx & Hs). destruct fuel as [|fuel]; simpl in Hf; [lia|].
  cbn [print_loop]. node_step.
  change (listing level (x :: xs)) with ((e_path x, e_val x) :: content xs) in *.
  set (e := (e_path x, e_val x)) in *.
  assert (Hnext : forall o, o = rank seen (e_val x) ->
            print_loop fuel nx (Some o) M = Ok (render (seen ++ [e]) (content xs))).
  { intros o ->. eapply (IH (Some (e_loc x)) nx (seen ++ [e]) e); [done| | |lia].
    - by rewrite <- app_assoc.
    - exists seen, (elem_node x nx p). done. }
  cbn [render]. destruct p as [l|].
  - destruct Hp as (s & n & -> & Hl & Hv & ->). node_step. rewrite Hv. cbn [rbind].
    destruct (Z.eqb_spec (e_val x) last_e.2) as [E|E].
    + cbn [rbind]. rewrite (Hnext (rank s last_e.2 + 1)).
      * cbn [rbind e snd fst]. rewrite rank_snoc, decide_True by done. by rewrite E.
      * rewrite rank_snoc, decide_True by done. by rewrite E.
    + assert (rank (s ++ [last_e]) (e_val x) = 1) as Hr.
      { apply rank_none. rewrite <- app_assoc in Hsort.
        apply Forall_app. split; [|by constructor; [congruence|]].
        apply Forall_forall. intros y Hy.
        assert (entry_le y last_e) as H1.
        { eapply StronglySorted_app_1_elem_of; [exact Hsort|done|set_solver]. }
        apply StronglySorted_app_1_r, StronglySorted_cons in Hsort as [H2 _].
        apply Forall_cons in H2 as [H2 _]. subst e. unfold entry_le in H1, H2. simpl in H2. lia. }
      cbn [rbind]. rewrite (Hnext 1) by done. subst e. cbn [rbind fst snd]. by rewrite Hr.
  - subst seen. cbn [rbind]. rewrite (Hnext 1) by done. done.
Qed.

(** ** The program *)

Lemma main_spec env prog dir out es q d :
  (depth (Dir es) <= d)%nat -> tree_at env dir (Dir es) -> fs_create env out = true ->
  let E := (dir, 1) :: visible_entries dir 2 (Dir es) in
  (2 * length E + 1 <= q)%nat ->
  main d env [prog; dir; out] (Mem ∅ q) =
    Ok (0, Some (out, render [] (merge_sort entry_le E)), Mem ∅ (q - 1 - 2 * length E)).
Proof.
  intros Hd Hat Hout E Hq. destruct q as [|q]; [lia|].
  unfold main, create_list. cbn [m_quota m_nodes rbind].
  assert (Hq' : (2 * length E <= q)%nat) by lia.
  destruct (populate_list_root env dir es d q Hd Hat Hq') as (w & -> & (xs & Ho & Hs & Hc & Hwq)).
  cbn [rbind]. fold E in Hwq, Hc.
  destruct (root_first level dir _ xs Hs Hc (visible_entries_below dir 2 (Dir es))) as (h & xs' & -> & Hmin).
  destruct Ho as [Hl Hdom].
  destruct (insertion_sort_spec level (w_mem w) (w_list w) h xs' Hl Hmin) as (m' & q' & -> & Hl' & Hdom').
  cbn [rbind]. set (ys := level_sort level (h :: xs')) in *.
  assert (Hys : ys ≡ₚ h :: xs') by apply level_sort_Permutation.
  assert (Hcs : StronglySorted entry_le (content ys)).
  { apply listing_sorted, level_sort_lex, Hs. }
  assert (Hce : content ys = merge_sort entry_le E).
  { apply sorted_listing; [done|]. unfold listing. by rewrite Hys. }
  unfold print_list_to_file. rewrite Hout. cbn [m_nodes].
  rewrite (print_loop_spec (Mem m' (m_quota (w_mem w))) None (l_head (w_list w)) ys q' [] (dir, 1));
    [|apply Hl'|done|done|by eapply dseg_size; apply Hl'].
  cbn [rbind]. rewrite Hce.
  assert (destroy_list (w_list w) (Mem m' (m_quota (w_mem w))) = Ok (Mem ∅ (m_quota (w_mem w)))) as ->.
  { apply (destroy_list_spec (Mem m' (m_quota (w_mem w))) (LList (l_head (w_list w)) q') ys).
    split; [done|]. cbn [m_nodes]. rewrite Hdom', Hdom. unfold locs. apply set_eq. intros k.
    rewrite !elem_of_list_to_set. by rewrite Hys. }
  cbn [rbind]. rewrite Hwq. repeat f_equal. lia.
Qed.

(** ** Properties *)

(** C1: called on a directory tree whose joined paths fit the 255-byte buffer, with
    enough memory, [dirlist] returns 0 and writes exactly the reference listing:
    every visible entry once, in the order of level and then path, each numbered by
    its rank in its level; and it has freed all its nodes. *)
Theorem dirlist_writes_reference_listing env prog dir out es q d :
  (depth (Dir es) <= d)%nat -> tree_at env dir (Dir es) -> fs_create env out = true ->
  let E := (dir, 1) :: visible_entries dir 2 (Dir es) in
  (2 * length E + 1 <= q)%nat ->
  main d env [prog; dir; out] (Mem ∅ q) =
    Ok (0, Some (out, render [] (merge_sort entry_le E)), Mem ∅ (q - 1 - 2 * length E)).
Proof. apply main_spec. Qed.

(** C23: the output does not depend on the order in which [readdir] returns the
    entries: two file systems that show permuted versions of one tree give the
    same file. *)
Theorem dirlist_order_independent env env' prog dir out es es' q d d' :
  (depth (Dir es) <= d)%nat -> tree_at env dir (Dir es) -> fs_create env out = true ->
  (depth (Dir es') <= d')%nat -> tree_at env' dir (Dir es') -> fs_create env' out = true ->
  tree_perm (Dir es) (Dir es') ->
  (2 * length (visible_entries dir 2 (Dir es)) + 3 <= q)%nat ->
  main d env [prog; dir; out] (Mem ∅ q) = main d' env' [prog; dir; out] (Mem ∅ q)
  /\ is_ok (main d env [prog; dir; out] (Mem ∅ q)) = true.
Proof.
  intros Hd Hat Hc Hd' Hat' Hc' Hp Hq.
  pose proof (tree_perm_entries _ _ Hp dir 2) as HE.
  pose proof (Permutation_length HE) as HL.
  pose proof (main_spec env prog dir out es q d Hd Hat Hc) as H1.
  pose proof (main_spec env' prog dir out es' q d' Hd' Hat' Hc') as H2.
  cbn [length] in H1, H2. rewrite H1, H2 by lia.
  split; [|done]. rewrite HL. do 6 f_equal.
  apply (StronglySorted_unique entry_le); [apply StronglySorted_merge_sort; apply _..|].
  by rewrite !merge_sort_Permutation, HE.
Qed.

(** The joined path is written to a 255-byte buffer without a check: a visible
    entry whose joined path has 255 bytes or more overflows it, whatever the
    hidden entries before it. *)
Theorem dirlist_long_path_overflows env path hid name rest w d :
  fs_readdir env path = Some (hid ++ name :: rest) ->
  Forall (fun n => hidden n = true) hid -> hidden name = false ->
  (255 <= length path + 1 + length name)%nat -> w_level w <> 1 ->
  populate_list (S d) env path w = Undef BufferOverflow.
Proof.
  intros Hr Hh Hn Hlen Hl. cbn [populate_list]. destruct (Z.eqb_spec (w_level w) 1); [done|].
  cbn [rbind]. rewrite Hr. cbn [deref rbind].
  assert (Hf : fits path name = false).
  { unfold fits, join, PATHBUF. apply Nat.ltb_ge. rewrite length_app. simpl. lia. }
  clear Hr. induction Hh as [|h hid Hh _ IH]; simpl; [by rewrite Hn, Hf|by rewrite Hh].
Qed.

(** A directory that cannot be opened is not reported: the null stream goes to
    [readdir]. *)
Theorem dirlist_unreadable_directory env path w d :
  fs_readdir env path = None -> w_level w <> 1 ->
  populate_list (S d) env path w = Undef NullDeref.
Proof.
  intros Hr Hl. cbn [populate_list]. destruct (Z.eqb_spec (w_level w) 1); [done|].
  by cbn [rbind]; rewrite Hr.
Qed.

(** ** A concrete run *)

Module Demo.
(** "a" with "b" (a directory with "x"), the hidden ".h" and the file "c". *)
Definition es : list (cstr * tree) :=
  [(lit "b", Dir [(lit "x", File)]); (lit ".h", File); (lit "c", File)].
Definition es' : list (cstr * tree) :=
  [(lit "c", File); (lit "b", Dir [(lit "x", File)]); (lit ".h", File)].
Definition env_of (es : list (cstr * tree)) : fsys :=
  Fsys (fun p => if decide (p = lit "a") then Some (map fst es)
                 else if decide (p = lit "a/b") then Some [lit "x"] else None)
       (fun p => Some (bool_decide (p = lit "a/b"))) (fun _ => None) (fun _ => true).
Definition argv : list cstr := [lit "dirlist"; lit "a"; lit "out"].
End Demo.

Lemma dirlist_writes_reference_listing_witness :
  main 2 (Demo.env_of Demo.es) Demo.argv (Mem ∅ 9) =
    Ok (0, Some (lit "out", out_line 1 1 (lit "a") ++ out_line 2 1 (lit "a/b")
                   ++ out_line 2 2 (lit "a/c") ++ out_line 3 1 (lit "a/b/x")), Mem ∅ 0).
Proof.
  refine (eq_trans (dirlist_writes_reference_listing (Demo.env_of Demo.es) (lit "dirlist") (lit "a")
    (lit "out") Demo.es 9 2 _ _ _ _) _).
  - vm_compute. lia.
  - unfold Demo.es, Demo.es'. solve_tree_at.
  - reflexivity.
  - vm_compute. lia.
  - vm_compute. reflexivity.
Defined.

Lemma dirlist_order_independent_witness :
  main 2 (Demo.env_of Demo.es) Demo.argv (Mem ∅ 9) = main 2 (Demo.env_of Demo.es') Demo.argv (Mem ∅ 9)
  /\ is_ok (main 2 (Demo.env_of Demo.es) Demo.argv (Mem ∅ 9)) = true.
Proof.
  apply (dirlist_order_independent (Demo.env_of Demo.es) (Demo.env_of Demo.es') (lit "dirlist")
    (lit "a") (lit "out") Demo.es Demo.es' 9 2 2).
  - vm_compute. lia.
  - unfold Demo.es, Demo.es'. solve_tree_at.
  - reflexivity.
  - vm_compute. lia.
  - unfold Demo.es, Demo.es'. solve_tree_at.
  - reflexivity.
  - apply (tp_dir _ Demo.es' Demo.es'); [unfold Demo.es, Demo.es'; solve_Permutation|].
    repeat constructor. apply (tp_dir _ [(lit "x", File)]); [done|]. repeat constructor.
  - vm_compute. lia.
Defined.

Definition long_env : fsys :=
  Fsys (fun _ => Some [lit ".h"; replicate 253 colon; lit "y"]) (fun _ => None) (fun _ => None) (fun _ => true).

Lemma dirlist_long_path_overflows_witness :
  populate_list 1 long_env (lit "a") (Walk 2 (LList None None) (Mem ∅ 9)) = Undef BufferOverflow.
Proof.
  apply (dirlist_long_path_overflows long_env (lit "a") [lit ".h"] (replicate 253 colon) [lit "y"]).
  - reflexivity.
  - repeat constructor.
  - reflexivity.
  - vm_compute. lia.
  - done.
Defined.

Lemma dirlist_unreadable_directory_witness :
  populate_list 1 (Demo.env_of Demo.es) (lit "locked") (Walk 2 (LList None None) (Mem ∅ 9)) = Undef NullDeref.
Proof. apply (dirlist_unreadable_directory (Demo.env_of Demo.es)); [reflexivity|done]. Defined.
