(* ===== verification/ByteMem.v ===== *)
(** * Byte arrays

    Character arrays and shared memory as lists of bytes: the stores and loads of
    [strcpy], [sprintf ("%s")], [snprintf] and of an [unsigned short] inside the
    array, with the C behaviour outside the bounds made explicit. *)

From S2P Require Import Prelude CString.

(** The byte at an index. *)
Definition at_ (m : list byte) (i : Z) : option byte := m !! Z.to_nat i.

Definition len (s : list byte) : Z := Z.of_nat (length s).

(** A store of consecutive bytes. *)
Definition write_at (m : list byte) (i : Z) (bs : list byte) : res (list byte) :=
  if (0 <=? i) && (i + len bs <=? len m)
  then let n := Z.to_nat i in Ok (take n m ++ bs ++ drop (n + length bs) m)
  else Undef BufferOverflow.

(** [sprintf (&m[i], "%s", s)] and [strcpy (&m[i], s)]. *)
Definition sprintf_s (m : list byte) (i : Z) (s : cstr) : res (list byte) :=
  write_at m i (s ++ [NUL]).

(** [snprintf (&m[i], n, "%s", s)]: at most [n - 1] bytes and a null character. *)
Definition snprintf_s (m : list byte) (i n : Z) (s : cstr) : res (list byte) :=
  if 0 <? n then write_at m i (take (Z.to_nat (n - 1)) s ++ [NUL]) else Ok m.

(** The C string that starts at an index. *)
Definition read_cstr (m : list byte) (i : Z) : res cstr :=
  if (0 <=? i) && bool_decide (NUL ∈ drop (Z.to_nat i) m)
  then Ok (c_str (drop (Z.to_nat i) m))
  else Undef OutOfBoundsRead.

(** A little-endian [unsigned short] inside the array. *)
Definition peek16 (m : list byte) (i : Z) : res Z :=
  if (0 <=? i) && (i + 2 <=? len m)
  then Ok (le_decode (take 2 (drop (Z.to_nat i) m)))
  else Undef OutOfBoundsRead.

Definition poke16 (m : list byte) (i v : Z) : res (list byte) :=
  write_at m i (le_encode 2 v).

(** The string [s] and its null character are stored at [i]. *)
Definition stored (m : list byte) (i : Z) (s : cstr) : Prop :=
  forall k, 0 <= k <= len s -> at_ m (i + k) = at_ (s ++ [NUL]) k.

Lemma len_nonneg s : 0 <= len s.
Proof. unfold len. lia. Qed.
Lemma len_app s t : len (s ++ t) = len s + len t.
Proof. unfold len. rewrite length_app. lia. Qed.
Lemma len_snoc s b : len (s ++ [b]) = len s + 1.
Proof. rewrite len_app. done. Qed.
#[export] Hint Resolve len_nonneg : posix.

(** A store within the bounds succeeds, keeps the length and changes exactly the
    bytes it covers. *)
Lemma write_at_spec m i bs :
  0 <= i -> i + len bs <= len m ->
  exists m', write_at m i bs = Ok m' /\ len m' = len m /\
    (forall j, 0 <= j -> at_ m' j = if (i <=? j) && (j <? i + len bs) then at_ bs (j - i) else at_ m j).
Proof.
  intros Hi Hl. unfold write_at. rewrite (proj2 (Z.leb_le _ _) Hi), (proj2 (Z.leb_le _ _) Hl).
  eexists. split; [done|]. unfold len, at_ in *. split.
  - rewrite !length_app, length_take, length_drop. lia.
  - intros j Hj. destruct (Z.leb_spec i j); simpl.
    + rewrite lookup_app_r by (rewrite length_take; lia). rewrite length_take.
      replace (Z.to_nat j - Z.to_nat i `min` length m)%nat with (Z.to_nat (j - i)) by lia.
      destruct (Z.ltb_spec j (i + Z.of_nat (length bs))).
      * by rewrite lookup_app_l by lia.
      * rewrite lookup_app_r, lookup_drop by lia. f_equal. lia.
    + rewrite lookup_app_l by (rewrite length_take; lia). rewrite lookup_take_lt by lia. done.
Qed.

Lemma write_at_overflow m i bs : len m < i + len bs -> write_at m i bs = Undef BufferOverflow.
Proof.
  intros H. unfold write_at. rewrite (proj2 (Z.leb_gt _ _) H). by rewrite andb_false_r.
Qed.

(** A store that is already there is read back. *)
Lemma stored_read m i s : 0 <= i -> NUL ∉ s -> stored m i s -> read_cstr m i = Ok s.
Proof.
  intros Hi Hs Hst. unfold read_cstr. rewrite (proj2 (Z.leb_le _ _) Hi). simpl.
  assert (exists r, drop (Z.to_nat i) m = s ++ NUL :: r) as [r Hr].
  { exists (drop (Z.to_nat i + length s + 1) m). apply list_eq. intros k.
    rewrite lookup_drop. destruct (decide (k <= length s)%nat) as [L|G].
    - pose proof (Hst (Z.of_nat k) ltac:(unfold len; lia)) as H. unfold at_ in H.
      rewrite Nat2Z.id in H. replace (Z.to_nat (i + Z.of_nat k)) with (Z.to_nat i + k)%nat in H by lia.
      rewrite H. destruct (decide (k = length s)) as [->|].
      + by rewrite !lookup_app_r, Nat.sub_diag by lia.
      + by rewrite !lookup_app_l by lia.
    - rewrite lookup_app_r by lia. destruct (k - length s)%nat eqn:E; [lia|]. simpl.
      rewrite lookup_drop. f_equal. lia. }
  rewrite Hr, bool_decide_true by set_solver. f_equal.
  clear -Hs. unfold c_str. induction s as [|b s IH]; simpl.
  - done.
  - rewrite bool_decide_true by set_solver. f_equal. apply IH. set_solver.
Qed.

Lemma stored_write m i s m' :
  0 <= i -> i + len s + 1 <= len m -> sprintf_s m i s = Ok m' -> stored m' i s.
Proof.
  intros Hi Hl Hw. unfold sprintf_s in Hw.
  destruct (write_at_spec m i (s ++ [NUL])) as (m1 & E & _ & Hm); [done|rewrite len_snoc; lia|].
  rewrite E in Hw. injection Hw as <-. intros k Hk. rewrite Hm by lia. rewrite len_snoc.
  rewrite (proj2 (Z.leb_le _ _)), (proj2 (Z.ltb_lt _ _)) by lia. simpl. f_equal. lia.
Qed.

Lemma peek_poke16 m i v m' :
  0 <= v < 2 ^ 16 -> poke16 m i v = Ok m' -> peek16 m' i = Ok v.
Proof.
  intros Hv. unfold poke16, write_at, peek16, len.
  pose proof (le_decode_encode 2 v Hv) as Hd. pose proof (length_le_encode 2 v) as Hb.
  generalize dependent (le_encode 2 v). intros bs Hd Hb.
  destruct (Z.leb_spec 0 i) as [Hi|]; [|done].
  destruct (Z.leb_spec (i + Z.of_nat (length bs)) (Z.of_nat (length m))) as [Hl|]; [|done].
  simpl andb. intros [= <-]. rewrite !length_app, length_take, length_drop.
  rewrite (proj2 (Z.leb_le _ _)) by lia. simpl andb. f_equal.
  rewrite drop_app_ge, length_take by (rewrite length_take; lia).
  replace (Z.to_nat i - Z.to_nat i `min` length m)%nat with 0%nat by lia.
  by rewrite drop_0, take_app_le, firstn_all2 by lia.
Qed.
