(* ===== verification/KeywordCount.v ===== *)
(** * Counting a keyword in a file

    The loop shared by [seq_search_file] and [psf_runner] of
    [pardirlist/pardirlist.c]: records of at most 1024 bytes, tokens cut at
    blanks, a counter of the tokens equal to the keyword. *)

From S2P Require Import Prelude CString.

Definition exclude : cstr := [space; tab; newline].

(** [for (token = strtok_r(buff, ...); token; token = strtok_r(NULL, ...))] *)
Fixpoint token_loop (fuel : nat) (keyword s : cstr) (frequency : Z) : Z :=
  match fuel with
  | O => frequency
  | S f =>
      match strtok_r exclude s with
      | None => frequency
      | Some (token, context) =>
          token_loop f keyword context
            (if strcmp token keyword =? 0 then frequency + 1 else frequency)
      end
  end.

(** [while (fgets(buff, 1025, fs) != NULL)]: each iteration consumes a byte of the
    stream and each token a byte of the record, so the lengths bound the loops. *)
Fixpoint line_loop (fuel : nat) (keyword : cstr) (fs : list byte) (frequency : Z) : Z :=
  match fuel with
  | O => frequency
  | S f =>
      match fgets 1025 fs with
      | None => frequency
      | Some (buff, fs') =>
          let s := c_str buff in
          line_loop f keyword fs' (token_loop (S (length s)) keyword s frequency)
      end
  end.

Definition search_stream (keyword : cstr) (fs : list byte) : Z :=
  line_loop (S (length fs)) keyword fs 0.

(** ** The reference count *)

Definition occurrences (keyword : cstr) (ws : list cstr) : Z :=
  Z.of_nat (length (filter (fun w => w = keyword) ws)).

Lemma occurrences_app k ws ws' : occurrences k (ws ++ ws') = occurrences k ws + occurrences k ws'.
Proof. unfold occurrences. rewrite filter_app, length_app. lia. Qed.

Lemma occurrences_cons k w ws :
  occurrences k (w :: ws) = (if strcmp w k =? 0 then 1 else 0) + occurrences k ws.
Proof.
  unfold occurrences. rewrite filter_cons.
  destruct (Z.eqb_spec (strcmp w k) 0) as [E|E]; rewrite strcmp_eq in E.
  - rewrite decide_True by done. simpl length. lia.
  - rewrite decide_False by done. lia.
Qed.

Lemma token_loop_spec fuel k s n :
  (length s < fuel)%nat ->
  token_loop fuel k s n = n + occurrences k (words (is_delim exclude) s).
Proof.
  revert s n. induction fuel as [|f IH]; intros s n Hf; [lia|]. cbn [token_loop].
  pose proof (strtok_r_words exclude s) as H.
  destruct (strtok_r exclude s) as [[t r]|].
  - destruct H as [-> Hr]. rewrite IH by lia. rewrite occurrences_cons.
    destruct (_ =? 0); lia.
  - rewrite H. unfold occurrences. simpl. lia.
Qed.

(** The words of each record, in order. *)
Definition record_words (fs : list byte) : list cstr :=
  concat (map (fun r => words (is_delim exclude) (c_str r)) (records 1025 fs)).

Lemma line_loop_spec fuel k fs n :
  (length fs < fuel)%nat ->
  line_loop fuel k fs n = n + occurrences k (record_words fs).
Proof.
  unfold record_words. revert fs n. induction fuel as [|f IH]; intros fs n Hf; [lia|].
  cbn [line_loop]. rewrite records_unfold by lia.
  destruct (fgets 1025 fs) as [[l r]|] eqn:E.
  - apply fgets_rest in E as (_ & _ & L); [|lia]. rewrite IH by lia.
    rewrite token_loop_spec by lia. cbn [map concat]. rewrite occurrences_app. lia.
  - unfold occurrences. simpl. lia.
Qed.

Lemma search_stream_spec k fs : search_stream k fs = occurrences k (record_words fs).
Proof. unfold search_stream. rewrite line_loop_spec by lia. lia. Qed.

(** ** Files whose lines fit the buffer *)

(** Every record except the last ends in a newline: no line is cut. *)
Fixpoint lines_fit (rs : list (list byte)) : Prop :=
  match rs with
  | [] | [_] => True
  | r :: rs' => last r = Some newline /\ lines_fit rs'
  end.

#[export] Instance lines_fit_dec rs : Decision (lines_fit rs).
Proof.
  induction rs as [|r [|r' rs] IH]; simpl in *; try apply _.
Defined.

Lemma split_at_app d l b r :
  d b = true -> split_at d (l ++ b :: r) = split_at d l ++ split_at d r.
Proof.
  intros Hb. induction l as [|a l IH]; simpl; [by rewrite Hb|].
  destruct (d a); simpl; [by rewrite IH|]. rewrite IH.
  destruct (split_at d l) as [|w ws] eqn:E; [by apply split_at_nonempty in E|done].
Qed.

Lemma words_app_delim d l b r :
  d b = true -> words d (l ++ b :: r) = words d l ++ words d r.
Proof. intros Hb. unfold words. by rewrite split_at_app, filter_app. Qed.

Lemma words_lines_fit rs :
  lines_fit rs ->
  concat (map (words (is_delim exclude)) rs) = words (is_delim exclude) (concat rs).
Proof.
  induction rs as [|r rs IH]; [done|]. intros H. cbn [map concat].
  destruct rs as [|r' rs]; [by rewrite !app_nil_r|].
  destruct H as [Hr H]. rewrite IH by done.
  apply last_Some in Hr as (l & ->). rewrite <- app_assoc. cbn [app].
  rewrite !words_app_delim by done. by rewrite app_nil_r.
Qed.

(** On a text file whose lines fit, the records' words are the file's words. *)
Lemma record_words_text fs :
  NUL ∉ fs -> lines_fit (records 1025 fs) -> record_words fs = words (is_delim exclude) fs.
Proof.
  intros Hn Hf. rewrite <- (records_concat 1025 fs) at 2 by lia.
  rewrite <- words_lines_fit by done. unfold record_words. f_equal.
  apply map_ext_in. intros r Hr. rewrite c_str_id; [done|].
  intros Hin. apply Hn. rewrite <- (records_concat 1025 fs) by lia.
  apply list_elem_of_In, in_concat. exists r. split; [done|]. by apply list_elem_of_In.
Qed.

(** C22: the search counts the words of the file that equal the keyword, record by
    record; on a text file (no null bytes) whose lines fit the 1024-byte records
    this is the number of occurrences among the blank-separated words of the whole
    file. *)
Theorem search_counts_words keyword fs :
  search_stream keyword fs = occurrences keyword (record_words fs) /\
  (NUL ∉ fs -> lines_fit (records 1025 fs) ->
   search_stream keyword fs = occurrences keyword (words (is_delim exclude) fs)).
Proof.
  split; [apply search_stream_spec|]. intros Hn Hf.
  by rewrite search_stream_spec, record_words_text.
Qed.
