(* ===== verification/PardirList.v ===== *)
(** * pardirlist.c

    The listing program with keyword counts.  With [ispar = 0] each file is
    searched when it is found; with [ispar = 1] a thread per file is started and
    joined when its line is printed.  Threads run at the points a scheduler
    chooses ([sched]); the theorems hold for every scheduler. *)

From S2P Require Import Prelude CString DList DListSort DirTree KeywordCount.

(** ** Nodes *)

Record pinfo := PInfo {
  p_level : Z;
  p_freq : Z;                    (* keyword_frequency *)
  p_tid : option positive }.     (* [None]: the initial thread id 0 *)

Definition with_freq (f : Z) (v : pinfo) : pinfo := PInfo (p_level v) f (p_tid v).
Definition with_tid (t : positive) (v : pinfo) : pinfo := PInfo (p_level v) (p_freq v) (Some t).

Definition create_node (path : cstr) (level keyword_frequency : Z) (M : mem pinfo)
  : res (loc * mem pinfo) :=
  DList.create_node path (PInfo level keyword_frequency None) M.

Definition create_list (M : mem pinfo) : res (llist * mem pinfo) := DList.create_list M.

Definition insert_sorted (nd : loc) (L : llist) (M : mem pinfo) : res (llist * mem pinfo) :=
  DList.insert_sorted nd L M.

Definition insertion_sort_by_level_increasing (L : llist) (M : mem pinfo) : res (mem pinfo) :=
  DList.insertion_sort_by_level_increasing p_level L M.

Definition destroy_list (L : llist) (M : mem pinfo) : res (mem pinfo) := DList.destroy_list L M.

(** ** Searching a file *)

Definition seq_search_file (env : fsys) (nd : loc) (keyword : cstr) (M : mem pinfo)
  : res (mem pinfo) :=
  let* n := get (Some nd) M in
  let* path := deref (n_path n) in
  let* fs := deref (fs_read env path) in
  set_val (Some nd) (with_freq (search_stream keyword fs) (n_val n)) M.

(** The body of a thread, on its argument structure. *)
Record psf_args := PsfArgs { a_node : loc; a_keyword : cstr }.

Definition psf_runner (env : fsys) (args : psf_args) (M : mem pinfo) : res (mem pinfo) :=
  let* n := get (Some (a_node args)) M in
  let* path := deref (n_path n) in
  let* fs := deref (fs_read env path) in
  set_val (Some (a_node args)) (with_freq (search_stream (a_keyword args) fs) (n_val n)) M.

(** ** Threads *)

(** The threads started and not finished, the next thread id, the number of
    threads the system still grants, and a clock for the scheduler. *)
Record threads := Threads {
  t_running : gmap positive psf_args;
  t_next : positive;
  t_quota : nat;
  t_clock : nat }.

Record pwalk := PWalk { pw_level : Z; pw_list : llist; pw_mem : mem pinfo; pw_thr : threads }.

Definition set_mem (M : mem pinfo) (w : pwalk) : pwalk :=
  PWalk (pw_level w) (pw_list w) M (pw_thr w).

(** Thread [t] runs to its end, if it has not done so. *)
Definition run_thread (env : fsys) (t : positive) (w : pwalk) : res pwalk :=
  match t_running (pw_thr w) !! t with
  | None => Ok w
  | Some args =>
      let* M := psf_runner env args (pw_mem w) in
      let T := pw_thr w in
      Ok (PWalk (pw_level w) (pw_list w) M
            (Threads (delete t (t_running T)) (t_next T) (t_quota T) (t_clock T)))
  end.

Fixpoint run_threads (env : fsys) (ts : list positive) (w : pwalk) : res pwalk :=
  match ts with
  | [] => Ok w
  | t :: ts' => let* w := run_thread env t w in run_threads env ts' w
  end.

Definition tick (T : threads) : threads :=
  Threads (t_running T) (t_next T) (t_quota T) (S (t_clock T)).

(** The scheduler names the threads that run at each point of the main thread. *)
Definition yield (env : fsys) (sched : nat -> list positive) (w : pwalk) : res pwalk :=
  run_threads env (sched (t_clock (pw_thr w)))
    (PWalk (pw_level w) (pw_list w) (pw_mem w) (tick (pw_thr w))).

(** [malloc] of the arguments is not checked; a failing [pthread_create] exits. *)
Definition par_search_file (nd : loc) (keyword : cstr) (w : pwalk) : res pwalk :=
  let M := pw_mem w in
  let T := pw_thr w in
  match m_quota M with
  | O => Undef NullDeref
  | S q =>
      match t_quota T with
      | O => Exit (-1)
      | S tq =>
          let t := t_next T in
          let* n := get (Some nd) M in
          let* M := set_val (Some nd) (with_tid t (n_val n)) (Mem (m_nodes M) q) in
          Ok (PWalk (pw_level w) (pw_list w) M
                (Threads (<[t := PsfArgs nd keyword]> (t_running T)) (Pos.succ t) tq (t_clock T)))
      end
  end.

(** ** The walk *)

Definition insert_path (path : cstr) (w : pwalk) : res (loc * pwalk) :=
  let* '(nd, M) := create_node path (pw_level w) 0 (pw_mem w) in
  let* '(L, M) := insert_sorted nd (pw_list w) M in
  Ok (nd, PWalk (pw_level w) L M (pw_thr w)).

Definition add_level (d : Z) (w : pwalk) : pwalk :=
  PWalk (pw_level w + d) (pw_list w) (pw_mem w) (pw_thr w).

Definition search_new (env : fsys) (ispar : bool) (keyword : cstr) (nd : loc) (w : pwalk)
  : res pwalk :=
  if ispar then par_search_file nd keyword w
  else let* M := seq_search_file env nd keyword (pw_mem w) in Ok (set_mem M w).

Section Populate.
Context (env : fsys) (sched : nat -> list positive) (ispar : bool) (keyword : cstr).

(** One visible entry: a node for it, then the recursion or the search. *)
Definition visit (rec : cstr -> pwalk -> res pwalk) (buf : option bool) (tmp : cstr) (w : pwalk)
  : res pwalk :=
  let* '(new, w) := insert_path tmp w in
  match buf with
  | None => Undef Uninitialised
  | Some true => let* w := rec tmp (add_level 1 w) in Ok (add_level (-1) w)
  | Some false => search_new env ispar keyword new w
  end.

(** The loop over [readdir]; the scheduler runs threads between iterations. *)
Fixpoint populate_entries (rec : cstr -> pwalk -> res pwalk) (path : cstr)
    (buf : option bool) (names : list cstr) (w : pwalk) : res pwalk :=
  let* w := yield env sched w in
  match names with
  | [] => Ok w
  | d :: names' =>
      if hidden d then populate_entries rec path buf names' w
      else if fits path d then
        let tmp := join path d in
        let buf := match fs_stat env tmp with Some b => Some b | None => buf end in
        let* w := visit rec buf tmp w in
        populate_entries rec path buf names' w
      else Undef BufferOverflow
  end.

Fixpoint populate_list (fuel : nat) (path : cstr) (w : pwalk) : res pwalk :=
  match fuel with
  | O => NoFuel
  | S f =>
      let* w := if pw_level w =? 1
                then let* '(_, w) := insert_path path w in Ok (add_level 1 w)
                else Ok w in
      let* names := deref (fs_readdir env path) in
      populate_entries (populate_list f) path None names w
  end.

(** ** The output *)

Definition out_line (lev order freq : Z) (path : cstr) : list byte :=
  dec lev ++ colon :: dec order ++ colon :: dec freq ++ colon :: path ++ [newline].

(** Joining waits until the thread has run. *)
Definition join_node (curr : option loc) (w : pwalk) : res pwalk :=
  let* n := get curr (pw_mem w) in
  match ispar, p_tid (n_val n) with
  | true, Some t => run_thread env t w
  | _, _ => Ok w
  end.

Fixpoint print_loop (fuel : nat) (curr : option loc) (order : option Z) (w : pwalk)
  : res (list byte * pwalk) :=
  let* w := yield env sched w in
  match curr with
  | None => Ok ([], w)
  | Some _ =>
      match fuel with
      | O => NoFuel
      | S f =>
          let* w := join_node curr w in
          let* n := get curr (pw_mem w) in
          let* same := match n_prev n with
                       | None => Ok false
                       | Some _ => let* p := get (n_prev n) (pw_mem w) in
                                   Ok (p_level (n_val n) =? p_level (n_val p))
                       end in
          let* order := if (same : bool)
                        then match order with Some o => Ok (o + 1) | None => Undef Uninitialised end
                        else Ok 1 in
          let* path := deref (n_path n) in
          let* '(rest, w) := print_loop f (n_next n) (Some order) w in
          Ok (out_line (p_level (n_val n)) order (p_freq (n_val n)) path ++ rest, w)
      end
  end.

Definition print_list_to_file (filename : cstr) (w : pwalk) : res (list byte * pwalk) :=
  if fs_create env filename
  then print_loop (size (m_nodes (pw_mem w))) (l_head (pw_list w)) None w
  else Undef NullDeref.
End Populate.

(** ** main *)

(** The exit status, the output file and the state at the end. *)
Definition run (fuel : nat) (env : fsys) (sched : nat -> list positive) (ispar : bool)
    (dirpath keyword outfile : cstr) (M : mem pinfo) (T : threads)
  : res (Z * option (cstr * list byte) * mem pinfo * threads) :=
  let* '(L, M) := create_list M in
  let* w := populate_list env sched ispar keyword fuel dirpath (PWalk 1 L M T) in
  let* w := yield env sched w in
  let* M := insertion_sort_by_level_increasing (pw_list w) (pw_mem w) in
  let* '(out, w) := print_list_to_file env sched ispar outfile (set_mem M w) in
  let* M := destroy_list (pw_list w) (pw_mem w) in
  Ok (0, Some (outfile, out), M, pw_thr w).

Definition main (fuel : nat) (env : fsys) (sched : nat -> list positive) (argv : list cstr)
    (M : mem pinfo) (T : threads)
  : res (Z * option (cstr * list byte) * mem pinfo * threads) :=
  match argv with
  | [_; dirpath; keyword; outfile; flag] =>
      let ispar := atoi flag in
      if negb (ispar =? 0) && negb (ispar =? 1) then Ok (1, None, M, T)
      else run fuel env sched (ispar =? 1) dirpath keyword outfile M T
  | _ => Ok (1, None, M, T)
  end.
