(* ===== verification/PardirThreads.v ===== *)
(** * pardirlist: the threads never disturb the list

    The invariant of the shared state ([pinv]) and what every step of a thread
    preserves ([evolves]): the list, its order, the levels, and the frequency each
    node will finally have.  The walk, the sort and the output are then proved for
    every scheduler. *)

From S2P Require Import Prelude CString DList DListSort DirTree KeywordCount PardirList.

Section Threads.
Context (env : fsys) (kw : cstr).
Implicit Types (w : pwalk) (x y : elem pinfo) (xs : list (elem pinfo)) (T : threads).

(** The count a search of the file at [p] yields. *)
Definition cnt (p : cstr) : Z :=
  match fs_read env p with Some fs => search_stream kw fs | None => 0 end.

(** The frequency a node has once the threads still running have finished. *)
Definition final_freq T x : Z :=
  match p_tid (e_val x) with
  | Some t => match t_running T !! t with
              | Some _ => cnt (e_path x)
              | None => p_freq (e_val x)
              end
  | None => p_freq (e_val x)
  end.

Definition final T x : cstr * Z * Z := (e_path x, p_level (e_val x), final_freq T x).

(** [L] is the list's header, or the header with the true last node where the
    program's own is stale. *)
Record pinv (L : llist) w xs : Prop := PInv {
  pi_owns : owns (pw_mem w) L xs;
  pi_running : forall t a, t_running (pw_thr w) !! t = Some a ->
    a_keyword a = kw /\ exists x, x ∈ xs /\ e_loc x = a_node a
      /\ p_tid (e_val x) = Some t /\ is_Some (fs_read env (e_path x));
  pi_tid : forall x y t, x ∈ xs -> y ∈ xs ->
    p_tid (e_val x) = Some t -> p_tid (e_val y) = Some t -> x = y;
  pi_next : forall x t, x ∈ xs -> p_tid (e_val x) = Some t -> (t < t_next (pw_thr w))%positive }.

Definition same x y : Prop :=
  e_loc x = e_loc y /\ e_path x = e_path y /\ p_level (e_val x) = p_level (e_val y)
  /\ p_tid (e_val x) = p_tid (e_val y).

(** What a thread's step leaves unchanged. *)
Record evolves w xs w' xs' : Prop := Evolves {
  ev_level : pw_level w' = pw_level w;
  ev_list : pw_list w' = pw_list w;
  ev_quota : m_quota (pw_mem w') = m_quota (pw_mem w);
  ev_tquota : t_quota (pw_thr w') = t_quota (pw_thr w);
  ev_running : t_running (pw_thr w') ⊆ t_running (pw_thr w);
  ev_same : Forall2 same xs xs';
  ev_final : final (pw_thr w') <$> xs' = final (pw_thr w) <$> xs }.

#[export] Instance same_preorder : PreOrder same.
Proof. split; [done|]. intros x y z. unfold same. intuition congruence. Qed.

Lemma evolves_refl w xs : evolves w xs w xs.
Proof. by split. Qed.

Lemma evolves_trans w1 xs1 w2 xs2 w3 xs3 :
  evolves w1 xs1 w2 xs2 -> evolves w2 xs2 w3 xs3 -> evolves w1 xs1 w3 xs3.
Proof. intros [] []. split; try congruence; by etransitivity. Qed.

(** A permuted list of the same elements keeps the invariant on threads. *)
Lemma pinv_perm L L' w w' xs xs' :
  pinv L w xs -> xs ≡ₚ xs' -> owns (pw_mem w') L' xs' -> pw_thr w' = pw_thr w ->
  pinv L' w' xs'.
Proof.
  intros [H1 H2 H3 H4] Hp Ho Ht. split; rewrite ?Ht; [done| | |].
  - setoid_rewrite <- Hp. done.
  - setoid_rewrite <- Hp. done.
  - setoid_rewrite <- Hp. done.
Qed.

(** Elements may change as long as they stay the same node for the invariant. *)
Lemma pinv_map L w w' xs f :
  pinv L w xs -> (forall y, y ∈ xs -> same y (f y)) ->
  owns (pw_mem w') L (f <$> xs) ->
  t_running (pw_thr w') ⊆ t_running (pw_thr w) -> t_next (pw_thr w') = t_next (pw_thr w) ->
  pinv L w' (f <$> xs).
Proof.
  intros [_ H2 H3 H4] Hf Ho Hr Hn. split; [done|..].
  - intros t a Ha. destruct (H2 t a) as (Hk & x & Hx & Hl & Ht & Hfs).
    { by eapply lookup_weaken. }
    destruct (Hf _ Hx) as (E1 & E2 & _ & E4). split; [done|]. exists (f x).
    split_and!; [by apply list_elem_of_fmap_2|congruence|congruence|by rewrite <- E2].
  - intros x y t Hx Hy Hxt Hyt. apply list_elem_of_fmap in Hx as (x0 & -> & Hx).
    apply list_elem_of_fmap in Hy as (y0 & -> & Hy).
    destruct (Hf _ Hx) as (_ & _ & _ & Ex), (Hf _ Hy) as (_ & _ & _ & Ey).
    f_equal. apply (H3 x0 y0 t); congruence.
  - intros x t Hx Hxt. apply list_elem_of_fmap in Hx as (x0 & -> & Hx).
    destruct (Hf _ Hx) as (_ & _ & _ & Ex). rewrite Hn. apply (H4 x0 t); congruence.
Qed.

Lemma run_thread_spec L t w xs :
  pinv L w xs ->
  exists w' xs', run_thread env t w = Ok w' /\ pinv L w' xs' /\ evolves w xs w' xs'
    /\ t_running (pw_thr w') = delete t (t_running (pw_thr w)).
Proof.
  intros Hi. pose proof Hi as [Ho Hr Ht Hn]. unfold run_thread.
  destruct (t_running (pw_thr w) !! t) as [a|] eqn:Ea.
  2: { exists w, xs. split_and!; [done|done|apply evolves_refl|by rewrite delete_id]. }
  destruct (Hr _ _ Ea) as (Hk & x & Hx & Hl & Htx & [fs Hfs]).
  unfold psf_runner. rewrite <- Hl.
  set (v := with_freq (search_stream kw fs) (e_val x)).
  destruct (owns_set_val _ _ _ x v Ho Hx) as (n & M' & -> & Hp & Hv & HM & Ho' & Hq).
  cbn [rbind]. rewrite Hp. cbn [deref rbind]. rewrite Hfs. cbn [deref rbind].
  rewrite Hk, Hv. fold v. rewrite HM. cbn [rbind].
  set (f := fun y => if decide (e_loc y = e_loc x) then Elem (e_loc y) (e_path y) v else y) in *.
  change (update_val (e_loc x) v xs) with (f <$> xs) in Ho'.
  assert (Hsame : forall y, y ∈ xs -> same y (f y)).
  { intros y Hy. subst f. simpl. case_decide as El; [|done].
    by rewrite (owns_inj _ _ _ _ _ Ho Hy Hx El). }
  eexists _, (f <$> xs). split_and!; [done| |split|]; cbn; try done.
  - eapply pinv_map; cbn; try done. apply delete_subseteq.
  - apply delete_subseteq.
  - apply Forall2_fmap_r, Forall_Forall2_diag, Forall_forall. done.
  - rewrite <- list_fmap_compose. apply list_fmap_ext. intros i y Hy%list_elem_of_lookup_2.
    destruct (Hsame y Hy) as (_ & Ep & Ele & Et). unfold final. simpl. rewrite <- Ep, <- Ele. f_equal.
    unfold final_freq. cbn [t_running]. rewrite <- Et, <- Ep.
    destruct (p_tid (e_val y)) as [t'|] eqn:Et'.
    + destruct (decide (t' = t)) as [->|Hne].
      * rewrite (Ht y x t) by done. rewrite lookup_delete_eq, Ea. subst f. simpl.
        rewrite decide_True by done. simpl. unfold cnt. by rewrite Hfs.
      * rewrite lookup_delete_ne by done. subst f. simpl. case_decide as El; [|done].
        rewrite (owns_inj _ _ _ _ _ Ho Hy Hx El) in Et'. congruence.
    + subst f. simpl. case_decide as El; [|done].
      rewrite (owns_inj _ _ _ _ _ Ho Hy Hx El) in Et'. congruence.
Qed.

Lemma run_threads_spec L ts w xs :
  pinv L w xs -> exists w' xs', run_threads env ts w = Ok w' /\ pinv L w' xs' /\ evolves w xs w' xs'.
Proof.
  revert w xs. induction ts as [|t ts IH]; intros w xs Hi.
  - exists w, xs. split_and!; [done|done|apply evolves_refl].
  - destruct (run_thread_spec L t w xs Hi) as (w1 & xs1 & E1 & Hi1 & Hev1 & _).
    destruct (IH w1 xs1 Hi1) as (w2 & xs2 & E2 & Hi2 & Hev2).
    exists w2, xs2. cbn [run_threads]. rewrite E1. cbn [rbind]. rewrite E2.
    split_and!; [done|done|by eapply evolves_trans].
Qed.

(** Whatever the scheduler decides, the shared state only evolves. *)
Lemma yield_spec L sched w xs :
  pinv L w xs -> exists w' xs', yield env sched w = Ok w' /\ pinv L w' xs' /\ evolves w xs w' xs'.
Proof.
  intros Hi. unfold yield.
  destruct (run_threads_spec L (sched (t_clock (pw_thr w)))
              (PWalk (pw_level w) (pw_list w) (pw_mem w) (tick (pw_thr w))) xs)
    as (w' & xs' & E & Hi' & []).
  - destruct Hi. by split.
  - exists w', xs'. split_and!; [done|done|]. by split.
Qed.
End Threads.
