(* ===== verification/PardirWalk.v ===== *)
(** * pardirlist: the walk, for every scheduler

    After [populate_list] the list holds exactly the visible entries of the tree,
    sorted by path, and every node either has its keyword count or has a thread
    that will store it. *)

From S2P Require Import Prelude CString DList DListSort DirTree KeywordCount PardirList PardirThreads.

Section Walk.
Context (env : fsys) (sched : nat -> list positive) (ispar : bool) (kw dir : cstr).
Implicit Types (w : pwalk) (x y : elem pinfo) (xs : list (elem pinfo)).

(** The count the listing shows for a path: none for directories. *)
Definition freq_of (p : cstr) : Z :=
  if decide (p = dir) then 0
  else match fs_stat env p with Some true => 0 | _ => cnt env kw p end.

Abbreviation content := (listing p_level).

Definition settled T x : Prop := final_freq env kw T x = freq_of (e_path x).

(** At least [q] allocations and [tq] threads are still available. *)
Record pholds w (E : list (cstr * Z)) (q tq : nat) xs : Prop := PHolds {
  ph_inv : pinv env kw (pw_list w) w xs;
  ph_sorted : StronglySorted path_le xs;
  ph_content : content xs ≡ₚ E;
  ph_settled : Forall (settled (pw_thr w)) xs;
  ph_quota : (q <= m_quota (pw_mem w))%nat;
  ph_tquota : (tq <= t_quota (pw_thr w))%nat;
  ph_seq : ispar = false -> t_running (pw_thr w) = ∅ }.

Lemma same_sorted xs xs' :
  Forall2 same xs xs' -> StronglySorted path_le xs -> StronglySorted path_le xs'.
Proof.
  induction 1 as [|x y xs ys (_ & Hp & _) Hxy IH]; [done|]. intros [Hx Hs]%StronglySorted_cons.
  constructor; [by apply IH|]. clear IH Hs. induction Hxy as [|x' y' xs ys (_ & Hp' & _) _ IH]; [done|].
  apply Forall_cons in Hx as [H1 H2]. constructor; [|by apply IH].
  unfold path_le in *. by rewrite <- Hp, <- Hp'.
Qed.

Lemma same_content xs xs' : Forall2 same xs xs' -> content xs = content xs'.
Proof.
  induction 1 as [|x y xs ys (_ & Hp & Hl & _) Hxy IH]; [done|].
  unfold listing in *. csimpl. congruence.
Qed.

Lemma evolves_settled w xs w' xs' :
  evolves env kw w xs w' xs' -> Forall (settled (pw_thr w)) xs -> Forall (settled (pw_thr w')) xs'.
Proof.
  intros [_ _ _ _ _ Hsame Hfin]. revert Hfin.
  induction Hsame as [|x y xs ys (_ & Hp & _) Hxy IH]; intros Hfin; [done|].
  cbn in Hfin. injection Hfin as _ _ Hf Hfin. intros [Hx Hs]%Forall_cons.
  constructor; [|by apply IH]. unfold settled in *. congruence.
Qed.

Lemma evolves_pholds w xs w' xs' E q tq :
  pholds w E q tq xs -> pinv env kw (pw_list w) w' xs' -> evolves env kw w xs w' xs' ->
  pholds w' E q tq xs'.
Proof.
  intros [H1 H2 H3 H4 H5 H6 H7] Hi Hev. pose proof Hev as []. split.
  - by rewrite ev_list.
  - by eapply same_sorted.
  - by rewrite <- (same_content xs xs').
  - by eapply evolves_settled.
  - lia.
  - lia.
  - intros Hs. rewrite H7 in * by done.
    apply (anti_symm (⊆)); [done|apply map_empty_subseteq].
Qed.

Lemma yield_pholds w E q tq xs :
  pholds w E q tq xs ->
  exists w' xs', yield env sched w = Ok w' /\ pw_level w' = pw_level w /\ pholds w' E q tq xs'.
Proof.
  intros H. destruct (yield_spec env kw (pw_list w) sched w xs (ph_inv _ _ _ _ _ H)) as (w' & xs' & E1 & Hi & Hev).
  exists w', xs'. split_and!; [done|apply Hev|by eapply evolves_pholds].
Qed.

(** ** New nodes *)

Lemma insert_path_pholds path w E q tq xs :
  pholds w E (2 + q) tq xs ->
  exists nd w' xs', insert_path path w = Ok (nd, w') /\ pw_level w' = pw_level w
    /\ pw_thr w' = pw_thr w
    /\ xs' ≡ₚ Elem nd path (PInfo (pw_level w) 0 None) :: xs
    /\ pinv env kw (pw_list w') w' xs' /\ StronglySorted path_le xs'
    /\ (q <= m_quota (pw_mem w'))%nat.
Proof.
  intros [[Ho Hr Ht Hn] Hs Hc Hf Hq Htq _].
  destruct (create_insert_spec _ _ _ path (PInfo (pw_level w) 0 None) Ho Hs ltac:(lia))
    as (l & M1 & L' & M2 & HR1 & HR2 & Ho' & Hq' & Hfresh).
  exists l, (PWalk (pw_level w) L' M2 (pw_thr w)), (ins (Elem l path (PInfo (pw_level w) 0 None)) xs).
  unfold insert_path, create_node, insert_sorted. rewrite HR1. cbn [rbind]. rewrite HR2.
  assert (Hp := ins_Permutation (Elem l path (PInfo (pw_level w) 0 None)) xs).
  split_and!; [done..| |by apply ins_sorted|cbn; lia].
  split; cbn.
  - done.
  - intros t a Ha. destruct (Hr t a Ha) as (Hk & x & Hx & ?). split; [done|].
    exists x. rewrite Hp. split; [set_solver|done].
  - intros x y t. rewrite Hp. intros [->|Hx]%elem_of_cons [->|Hy]%elem_of_cons; cbn; try done. by apply Ht.
  - intros x t. rewrite Hp. intros [->|Hx]%elem_of_cons; cbn; [done|]. by apply Hn.
Qed.

(** A directory keeps frequency 0. *)
Lemma insert_dir_pholds path w E q tq xs :
  pholds w E (2 + q) tq xs -> freq_of path = 0 ->
  exists nd w' xs', insert_path path w = Ok (nd, w') /\ pw_level w' = pw_level w
    /\ pholds w' ((path, pw_level w) :: E) q tq xs'.
Proof.
  intros H Hf. destruct (insert_path_pholds path w E q tq xs H)
    as (nd & w' & xs' & HR & Hl & Hthr & Hp & Hi & Hs & Hq).
  exists nd, w', xs'. split_and!; [done|done|]. destruct H. split; try done; rewrite ?Hthr.
  - unfold listing. rewrite Hp. csimpl. by f_equiv.
  - rewrite Hp. constructor; [|done]. by unfold settled, final_freq.
  - done.
  - done.
Qed.

(** Storing the count, or the thread that will store it, in a new node. *)
Lemma set_val_pinv w xs x v M' T' :
  pinv env kw (pw_list w) w xs -> x ∈ xs -> p_tid (e_val x) = None -> p_level v = p_level (e_val x) ->
  owns M' (pw_list w) (update_val (e_loc x) v xs) ->
  is_Some (fs_read env (e_path x)) ->
  (p_tid v = None /\ T' = pw_thr w \/
   p_tid v = Some (t_next (pw_thr w)) /\ t_next T' = Pos.succ (t_next (pw_thr w))
     /\ t_running T' = <[t_next (pw_thr w) := PsfArgs (e_loc x) kw]> (t_running (pw_thr w))) ->
  pinv env kw (pw_list w) (PWalk (pw_level w) (pw_list w) M' T') (update_val (e_loc x) v xs).
Proof.
  intros [Ho Hr Ht Hn] Hx Htx Hlv Ho' Hfs Hcase.
  assert (Hu : forall y, y ∈ update_val (e_loc x) v xs ->
            y = Elem (e_loc x) (e_path x) v \/ y ∈ xs /\ y <> x).
  { intros y (z & -> & Hz)%list_elem_of_fmap. simpl. case_decide as El.
    - left. by rewrite (owns_inj _ _ _ _ _ Ho Hz Hx El).
    - right. split; [done|]. by intros ->. }
  assert (Hk : forall y, y ∈ xs -> e_loc y <> e_loc x -> y ∈ update_val (e_loc x) v xs).
  { intros y Hy Hl. apply list_elem_of_fmap. exists y. by rewrite decide_False. }
  assert (Hxv : Elem (e_loc x) (e_path x) v ∈ update_val (e_loc x) v xs).
  { apply list_elem_of_fmap. exists x. by rewrite decide_True. }
  assert (Hold : forall t a, t_running (pw_thr w) !! t = Some a ->
            a_keyword a = kw /\ exists y, y ∈ update_val (e_loc x) v xs /\ e_loc y = a_node a
              /\ p_tid (e_val y) = Some t /\ is_Some (fs_read env (e_path y))).
  { intros t a Ha. destruct (Hr t a Ha) as (H1 & y & Hy & H2 & H3 & H4). split; [done|].
    exists y. split_and!; try done. apply Hk; [done|]. intros El.
    rewrite (owns_inj _ _ _ _ _ Ho Hy Hx El) in H3. congruence. }
  assert (Hfr : forall y t, y ∈ xs -> p_tid (e_val y) = Some t -> t <> t_next (pw_thr w)).
  { intros y t Hy Hty ->. apply (Hn y) in Hty; [|done]. lia. }
  destruct Hcase as [[Hv ->]|(Hv & Hnx & Hrun)]; split; cbn; try done.
  - intros y z t Hy%Hu Hz%Hu Hyt Hzt.
    destruct Hy as [->|[Hy _]], Hz as [->|[Hz _]]; cbn in *; try congruence. by apply (Ht y z t).
  - intros y t Hy%Hu Hyt. destruct Hy as [->|[Hy _]]; cbn in *; [congruence|]. by apply (Hn y).
  - intros t a. rewrite Hrun, lookup_insert. case_decide as Et; [|by apply Hold].
    intros [= <-]. split; [done|]. eexists. split_and!; [exact Hxv|done| |done]. cbn. congruence.
  - intros y z t Hy%Hu Hz%Hu Hyt Hzt.
    destruct Hy as [->|[Hy _]], Hz as [->|[Hz _]]; cbn in *; try done.
    + rewrite Hv in Hyt. injection Hyt as <-. by apply Hfr in Hzt.
    + rewrite Hv in Hzt. injection Hzt as <-. by apply Hfr in Hyt.
    + by apply (Ht y z t).
  - intros y t Hy%Hu Hyt. rewrite Hnx. destruct Hy as [->|[Hy _]]; cbn in *; [|apply (Hn y) in Hyt; [lia|done]].
    rewrite Hv in Hyt. injection Hyt as <-. lia.
Qed.

Lemma update_val_forall (P : elem pinfo -> Prop) M L xs x v :
  owns M L xs -> x ∈ xs -> P (Elem (e_loc x) (e_path x) v) ->
  (forall y, y ∈ xs -> y <> x -> P y) -> Forall P (update_val (e_loc x) v xs).
Proof.
  intros Ho Hx H1 H2. unfold update_val. rewrite Forall_fmap, Forall_forall. intros y Hy. simpl. case_decide as El.
  - by rewrite (owns_inj _ _ _ _ _ Ho Hy Hx El).
  - apply H2; [done|]. by intros ->.
Qed.

Lemma update_val_content xs l v :
  Forall (fun x => e_loc x = l -> p_level v = p_level (e_val x)) xs ->
  content (update_val l v xs) = content xs.
Proof.
  intros H. unfold listing, update_val. rewrite <- list_fmap_compose.
  apply list_fmap_ext. intros i x Hx%list_elem_of_lookup_2. simpl. case_decide; [|done].
  rewrite Forall_forall in H. simpl. by rewrite (H x).
Qed.

Lemma update_val_sorted xs l v :
  StronglySorted path_le xs -> StronglySorted path_le (update_val l v xs).
Proof.
  induction 1 as [|x xs Hs IH Hx]; [constructor|]. unfold update_val. csimpl.
  constructor; [done|]. apply Forall_fmap. eapply Forall_impl; [exact Hx|].
  intros y Hy. unfold path_le in *. simpl. by repeat case_decide.
Qed.

Lemma search_new_pholds w E q tq xs x :
  pinv env kw (pw_list w) w xs -> StronglySorted path_le xs -> content xs ≡ₚ E -> x ∈ xs ->
  p_tid (e_val x) = None -> is_Some (fs_read env (e_path x)) ->
  freq_of (e_path x) = cnt env kw (e_path x) ->
  Forall (fun y => y <> x -> settled (pw_thr w) y) xs ->
  (S q <= m_quota (pw_mem w))%nat -> (S tq <= t_quota (pw_thr w))%nat ->
  (ispar = false -> t_running (pw_thr w) = ∅) ->
  exists w' xs', search_new env ispar kw (e_loc x) w = Ok w' /\ pw_level w' = pw_level w
    /\ pholds w' E q tq xs'.
Proof.
  intros Hi Hs Hc Hx Htx [fs Hfs] Hfx Hset Hq Htq Hseq.
  pose proof (pi_owns _ _ _ _ _ Hi) as Ho.
  assert (Hcv : forall v, p_level v = p_level (e_val x) -> content (update_val (e_loc x) v xs) ≡ₚ E).
  { intros v Hv. rewrite update_val_content; [done|]. apply Forall_forall. intros y Hy El.
    by rewrite (owns_inj _ _ _ _ _ Ho Hy Hx El). }
  rewrite Forall_forall in Hset. unfold search_new. destruct ispar eqn:Hpar.
  - unfold par_search_file. destruct w as [lv L [m mq] T].
    cbn [pw_level pw_list pw_mem pw_thr m_nodes m_quota] in *.
    set (v := with_tid (t_next T) (e_val x)).
    destruct mq as [|mq]; [lia|]. destruct (t_quota T) as [|tq'] eqn:Etq; [lia|].
    destruct (owns_set_val (Mem m mq) L xs x v Ho Hx) as (n & M' & Hg & Hp & Hv & HM & Ho' & Hq').
    change (get (Some (e_loc x)) (Mem m (S mq))) with (get (Some (e_loc x)) (Mem m mq)).
    rewrite Hg. cbn [rbind]. rewrite Hv. fold v. rewrite HM. cbn [rbind].
    eexists _, (update_val (e_loc x) v xs). split_and!; [done|done|].
    split; cbn; [|by apply update_val_sorted|by apply Hcv| |cbn in Hq'; lia|lia|congruence].
    + eapply (set_val_pinv (PWalk lv L (Mem m (S mq)) T)); cbn; try done.
      by right.
    + eapply update_val_forall; [done|done| |].
      * unfold settled, final_freq. cbn. rewrite lookup_insert_eq. done.
      * intros y Hy Hne. specialize (Hset y Hy Hne). unfold settled, final_freq in *. cbn.
        destruct (p_tid (e_val y)) as [t|] eqn:Et; [|done].
        rewrite lookup_insert_ne; [done|]. apply (pi_next _ _ _ _ _ Hi) in Et; [|done]. cbn in Et. lia.
  - set (v := with_freq (search_stream kw fs) (e_val x)).
    unfold seq_search_file.
    destruct (owns_set_val (pw_mem w) (pw_list w) xs x v Ho Hx) as (n & M' & Hg & Hp & Hv & HM & Ho' & Hq').
    rewrite Hg. cbn [rbind]. rewrite Hp. cbn [deref rbind]. rewrite Hfs. cbn [deref rbind].
    rewrite Hv. fold v. rewrite HM. cbn [rbind].
    eexists _, (update_val (e_loc x) v xs). split_and!; [done|done|].
    split; cbn; [|by apply update_val_sorted|by apply Hcv| |lia|lia|by intros; apply Hseq].
    + eapply set_val_pinv; cbn; try done. by left.
    + eapply update_val_forall; [done|done| |by auto].
      unfold settled, final_freq. cbn. rewrite Htx, Hfx. unfold cnt. by rewrite Hfs.
Qed.

Lemma insert_file_pholds path w E q tq xs :
  pholds w E (3 + q) (1 + tq) xs -> is_Some (fs_read env path) ->
  freq_of path = cnt env kw path ->
  exists nd w1 w' xs', insert_path path w = Ok (nd, w1)
    /\ search_new env ispar kw nd w1 = Ok w' /\ pw_level w' = pw_level w
    /\ pholds w' ((path, pw_level w) :: E) q tq xs'.
Proof.
  intros H Hfs Hf. destruct (insert_path_pholds path w E (1 + q) (1 + tq) xs H)
    as (nd & w1 & xs1 & HR & Hl & Hthr & Hp & Hi & Hs & Hq).
  set (x := Elem nd path (PInfo (pw_level w) 0 None)) in *.
  destruct (search_new_pholds w1 ((path, pw_level w) :: E) q tq xs1 x)
    as (w' & xs' & HR' & Hl' & H'); try done.
  - unfold listing. rewrite Hp. csimpl. f_equiv. apply H.
  - rewrite Hp. set_solver.
  - rewrite Hp, Hthr. constructor; [done|]. eapply Forall_impl; [apply H|]. done.
  - rewrite Hthr. apply H.
  - rewrite Hthr. apply H.
  - exists nd, w1, w', xs'. split_and!; [done|done|congruence|done].
Qed.

(** ** The walk *)

Definition readable (p : cstr) : Prop := is_Some (fs_read env p).

Definition pwalks (rec : cstr -> pwalk -> res pwalk) (d : nat) : Prop :=
  forall path es w E q tq xs,
    (depth (Dir es) <= d)%nat -> tree_at env path (Dir es) -> 1 < pw_level w ->
    (exists s, path = dir ++ s) -> Forall readable (visible_files path (Dir es)) ->
    let new := visible_entries path (pw_level w) (Dir es) in
    pholds w E (3 * length new + q) (length new + tq) xs ->
    exists w' xs', rec path w = Ok w' /\ pw_level w' = pw_level w
      /\ pholds w' (new ++ E) q tq xs'.

Lemma pholds_weaken w E E' q q' tq tq' xs :
  pholds w E q tq xs -> E ≡ₚ E' -> (q' <= q)%nat -> (tq' <= tq)%nat -> pholds w E' q' tq' xs.
Proof. intros [] HE Hq Htq. split; try done; [by rewrite <- HE|lia|lia]. Qed.

Lemma pholds_add_level d w E q tq xs : pholds w E q tq xs -> pholds (add_level d w) E q tq xs.
Proof. intros [H]. split; try done. by destruct H. Qed.

Lemma freq_of_entry path n t :
  (exists s, path = dir ++ s) -> fs_stat env (join path n) = Some (is_dir t) ->
  freq_of (join path n) = if is_dir t then 0 else cnt env kw (join path n).
Proof.
  intros [s ->] Hst. unfold freq_of. rewrite decide_False, Hst; [by destruct t|].
  intros E%(f_equal length). unfold join in E. rewrite !length_app in E. simpl in E. lia.
Qed.

Lemma visit_spec rec d path n t w E q tq xs :
  pwalks rec d -> (exists s, path = dir ++ s) -> (depth t <= d)%nat ->
  fs_stat env (join path n) = Some (is_dir t) -> tree_at env (join path n) t ->
  Forall readable ((if is_dir t then [] else [join path n]) ++ visible_files (join path n) t) ->
  1 < pw_level w ->
  let new := (join path n, pw_level w) :: visible_entries (join path n) (pw_level w + 1) t in
  pholds w E (3 * length new + q) (length new + tq) xs ->
  exists w' xs', visit env ispar kw rec (Some (is_dir t)) (join path n) w = Ok w'
    /\ pw_level w' = pw_level w /\ pholds w' (new ++ E) q tq xs'.
Proof.
  intros Hrec Hpre Hd Hst Hsub Hrd Hl new Hw. unfold visit.
  pose proof (freq_of_entry path n t Hpre Hst) as Hfq. subst new.
  destruct t as [|es]; cbn [is_dir length] in *.
  - cbn in Hrd. apply Forall_cons in Hrd as [Hr _].
    destruct (insert_file_pholds (join path n) w E q tq xs)
      as (nd & w1 & w2 & xs2 & -> & HS & Hl2 & Hw2); [by eapply pholds_weaken; [exact Hw|done|cbn; lia..]|done..|].
    by eauto.
  - set (sub := visible_entries (join path n) (pw_level w + 1) (Dir es)) in *.
    destruct (insert_dir_pholds (join path n) w E (3 * length sub + q) (length sub + tq) xs)
      as (nd & w1 & xs1 & -> & Hl1 & Hw1); [by eapply pholds_weaken; [exact Hw|done|lia..]|done|].
    cbn [rbind].
    destruct (Hrec (join path n) es (add_level 1 w1) ((join path n, pw_level w) :: E) q tq xs1)
      as (w2 & xs2 & -> & Hl2 & Hw2); try done.
    + cbn. lia.
    + destruct Hpre as [s ->]. exists (s ++ slash :: n). unfold join. by rewrite <- app_assoc.
    + cbn [add_level pw_level]. rewrite Hl1. by apply pholds_add_level.
    + cbn [rbind add_level pw_level] in *. rewrite Hl1 in *.
      exists (add_level (-1) w2), xs2. split_and!; [done|cbn; lia|].
      apply pholds_add_level. eapply pholds_weaken; [exact Hw2|solve_Permutation|lia..].
Qed.

Lemma populate_entries_pholds rec d path es buf w E q tq xs :
  pwalks rec d -> (exists s, path = dir ++ s) ->
  (forall n t, (n, t) ∈ es -> (depth t <= d)%nat) -> Forall (entry_at env path) es ->
  Forall readable (visible_files path (Dir es)) -> 1 < pw_level w ->
  let new := visible_entries path (pw_level w) (Dir es) in
  pholds w E (3 * length new + q) (length new + tq) xs ->
  exists w' xs', populate_entries env sched ispar kw rec path buf (map fst es) w = Ok w'
    /\ pw_level w' = pw_level w /\ pholds w' (new ++ E) q tq xs'.
Proof.
  intros Hrec Hpre. cbn [visible_files visible_entries]. revert buf w E q tq xs.
  induction es as [|[n t] es IH]; intros buf w E q tq xs Hd Hat Hrd Hl Hw;
    destruct (yield_pholds _ _ _ _ _ Hw) as (w1 & xs1 & HY & Hl1 & Hw1);
    cbn [populate_entries map fst]; rewrite HY; cbn [rbind]; clear Hw HY.
  { by exists w1, xs1. }
  apply Forall_cons in Hat as [He Hat]. cbn [flat_entries] in *.
  rewrite <- Hl1 in *. clear Hl1 w xs. rename w1 into w, xs1 into xs, Hw1 into Hw.
  destruct (hidden n) eqn:Hh.
  { apply IH with (xs := xs); try done. set_solver. }
  destruct He as [He|(Hfit & Hst & Hsub)]; cbn [fst snd] in *; [by rewrite Hh in He|].
  rewrite Hfit, Hst. apply Forall_app in Hrd as [Hrd1 Hrd].
  set (rest := flat_entries (fun n t' => (join path n, pw_level w)
                 :: visible_entries (join path n) (pw_level w + 1) t') es) in *.
  rewrite length_app in Hw.
  destruct (visit_spec rec d path n t w E (3 * length rest + q) (length rest + tq) xs)
    as (w1 & xs1 & -> & Hl1 & Hw1); try done.
  { apply (Hd n). set_solver. }
  { eapply pholds_weaken; [exact Hw|done|lia..]. }
  cbn [rbind].
  destruct (IH (Some (is_dir t)) w1 (((join path n, pw_level w)
      :: visible_entries (join path n) (pw_level w + 1) t) ++ E) q tq xs1 ltac:(set_solver) Hat Hrd)
    as (w2 & xs2 & -> & Hl2 & Hw2); [lia|by rewrite Hl1|].
  exists w2, xs2. rewrite Hl1 in *. split_and!; [done..|].
  eapply pholds_weaken; [exact Hw2|solve_Permutation|lia..].
Qed.

Lemma populate_list_pwalks d : pwalks (populate_list env sched ispar kw d) d.
Proof.
  induction d as [|d IH]; intros path es w E q tq xs Hd Hat Hl Hpre Hrd new Hw; [simpl in Hd; lia|].
  apply tree_at_Dir in Hat as [Hr Hes]. cbn [populate_list].
  destruct (Z.eqb_spec (pw_level w) 1); [lia|]. cbn [rbind]. rewrite Hr. cbn [deref rbind].
  eapply (populate_entries_pholds _ d); try done.
  intros n' t H%depth_entry. lia.
Qed.

(** The call from [main], with the base path at level 1. *)
Lemma populate_root_pholds es d q T :
  (depth (Dir es) <= d)%nat -> tree_at env dir (Dir es) ->
  Forall readable (visible_files dir (Dir es)) ->
  let E := (dir, 1) :: visible_entries dir 2 (Dir es) in
  (3 * length E <= q)%nat -> (length E <= t_quota T)%nat -> t_running T = ∅ ->
  exists w xs, populate_list env sched ispar kw d dir (PWalk 1 (LList None None) (Mem ∅ q) T) = Ok w
    /\ pholds w E 0 0 xs.
Proof.
  intros Hd Hat Hrd E Hq Htq HT. destruct d as [|d]; [simpl in Hd; lia|].
  apply tree_at_Dir in Hat as [Hr Hes]. cbn [populate_list pw_level].
  change (1 =? 1) with true. cbn iota. subst E. cbn [length] in *.
  set (new := visible_entries dir 2 (Dir es)) in *.
  assert (H0 : pholds (PWalk 1 (LList None None) (Mem ∅ q) T) [] (2 + (3 * length new + 0)) (length new + 0) []).
  { split; [|apply SSorted_nil|done|by apply Forall_nil|cbn [pw_mem m_quota]; lia|cbn [pw_thr]; lia|done].
    split; cbn; [|by rewrite HT|set_solver|set_solver].
    split; [|done]. split; [done|constructor]. }
  destruct (insert_dir_pholds dir _ _ _ _ _ H0) as (nd & w1 & xs1 & -> & Hl1 & Hw1).
  { unfold freq_of. by rewrite decide_True. }
  cbn [rbind]. rewrite Hr. cbn [deref rbind]. cbn [pw_level] in *.
  destruct (populate_entries_pholds (populate_list env sched ispar kw d) d dir es None
              (add_level 1 w1) [(dir, 1)] 0 0 xs1 (populate_list_pwalks d)) as (w2 & xs2 & HR & _ & Hw2);
    try done.
  - exists []. by rewrite app_nil_r.
  - intros n' t H%depth_entry. lia.
  - cbn. lia.
  - cbn [add_level pw_level]. rewrite Hl1. by apply pholds_add_level.
  - exists w2, xs2. split; [exact HR|]. cbn [add_level pw_level] in Hw2. rewrite Hl1 in Hw2.
    eapply pholds_weaken; [exact Hw2| |lia..]. change (1 + 1) with 2. fold new. solve_Permutation.
Qed.
End Walk.
