(* ===== verification/PardirMain.v ===== *)
(** * pardirlist: the output, for every scheduler

    Each line is printed after its node's thread has been joined, so the file is
    the reference listing with the keyword counts, whatever the scheduler does and
    whether or not threads are used. *)

From S2P Require Import Prelude CString DList DListSort DirTree KeywordCount PardirList PardirThreads PardirWalk.

(** The reference text with the counts [g]. *)
Fixpoint render (g : cstr -> Z) (seen es : list (cstr * Z)) : list byte :=
  match es with
  | [] => []
  | e :: es' => out_line e.2 (rank seen e.2) (g e.1) e.1 ++ render g (seen ++ [e]) es'
  end.

Section Print.
Context (env : fsys) (sched : nat -> list positive) (ispar : bool) (kw dir : cstr).
Implicit Types (w : pwalk) (x y : elem pinfo) (xs done rest : list (elem pinfo)).

Abbreviation content := (listing p_level).
Abbreviation freq_of := (freq_of env kw dir).
Abbreviation settled := (settled env kw dir).

(** The thread of a printed node has ended. *)
Definition joined (T : threads) x : Prop :=
  forall t, p_tid (e_val x) = Some t -> t_running T !! t = None.

(** [L] is the list header with the last node the sort has left. *)
Record printing (L : llist) w done rest : Prop := Printing {
  pr_inv : pinv env kw L w (done ++ rest);
  pr_settled : Forall (settled (pw_thr w)) (done ++ rest);
  pr_seq : ispar = false -> t_running (pw_thr w) = ∅;
  pr_done : Forall (joined (pw_thr w)) done }.

Lemma printing_evolves L w done rest w' xs' :
  printing L w done rest -> pinv env kw L w' xs' -> evolves env kw w (done ++ rest) w' xs' ->
  exists done' rest', xs' = done' ++ rest' /\ Forall2 same done done' /\ Forall2 same rest rest'
    /\ printing L w' done' rest'.
Proof.
  intros [H1 H2 H3 H4] Hi Hev. pose proof Hev as [].
  apply Forall2_app_inv_l in ev_same as (done' & rest' & Hd & Hr & ->).
  exists done', rest'. split_and!; [done..|]. split; [done| | |].
  - by eapply evolves_settled.
  - intros Hs. rewrite H3 in ev_running by done.
    apply (anti_symm (⊆)); [done|apply map_empty_subseteq].
  - clear H1 H2 Hev ev_final Hi. induction Hd as [|x y done done' (_ & _ & _ & Ht) _ IH]; [constructor|].
    apply Forall_cons in H4 as [Hx H4]. constructor; [|by apply IH].
    intros t Hy. rewrite <- Ht in Hy. eapply lookup_weaken_None; [by apply Hx|done].
Qed.


Definition first_loc xs : option loc := match xs with [] => None | x :: _ => Some (e_loc x) end.
Definition last_loc xs : option loc := match last xs with None => None | Some x => Some (e_loc x) end.

Lemma dlist_node m L done x rest :
  dlist m L (done ++ x :: rest) ->
  m !! e_loc x = Some (elem_node x (first_loc rest) (last_loc done)).
Proof.
  intros [Hs _]. apply dseg_app in Hs as (j & jn & Hd & (-> & nx & Hx & Hr)).
  apply dseg_last in Hd. apply dseg_cur in Hr. unfold first_loc, last_loc.
  rewrite Hx. subst. by destruct rest, (last done).
Qed.

Lemma printing_get L w done x rest :
  printing L w done (x :: rest) ->
  get (Some (e_loc x)) (pw_mem w) = Ok (elem_node x (first_loc rest) (last_loc done)).
Proof. intros [[[Hl _] _ _ _] _ _ _]. eapply get_Some, dlist_node, Hl. Qed.

Lemma yield_printing L w done rest :
  printing L w done rest ->
  exists w' done' rest', yield env sched w = Ok w' /\ pw_list w' = pw_list w
    /\ Forall2 same done done' /\ Forall2 same rest rest' /\ printing L w' done' rest'.
Proof.
  intros Hp. destruct (yield_spec env kw L sched w _ (pr_inv _ _ _ _ Hp)) as (w' & xs' & HR & Hi & Hev).
  destruct (printing_evolves _ _ _ _ _ _ Hp Hi Hev) as (done' & rest' & -> & Hd & Hr & Hp').
  exists w', done', rest'. split_and!; try done. apply Hev.
Qed.

(** After the join the node holds its final count. *)
Lemma join_node_spec L w done x rest :
  printing L w done (x :: rest) ->
  exists w' done' x' rest', join_node env ispar (Some (e_loc x)) w = Ok w'
    /\ pw_list w' = pw_list w
    /\ Forall2 same done done' /\ same x x' /\ Forall2 same rest rest'
    /\ printing L w' done' (x' :: rest') /\ joined (pw_thr w') x'
    /\ p_freq (e_val x') = freq_of (e_path x').
Proof.
  intros Hp. unfold join_node. rewrite (printing_get _ _ _ _ _ Hp). cbn [rbind n_val elem_node].
  assert (Hfin : forall w done x rest, printing L w done (x :: rest) -> joined (pw_thr w) x ->
            p_freq (e_val x) = freq_of (e_path x)).
  { intros w0 d0 x0 r0 Hp0 Hj. pose proof (pr_settled _ _ _ _ Hp0) as Hs.
    apply Forall_app in Hs as [_ [Hs _]%Forall_cons]. unfold settled, final_freq in Hs. rewrite <- Hs.
    destruct (p_tid (e_val x0)) as [t|] eqn:Et; [|done]. by rewrite Hj. }
  destruct (p_tid (e_val x)) as [t|] eqn:Et.
  - destruct ispar eqn:Hpar.
    + destruct (run_thread_spec env kw L t w _ (pr_inv _ _ _ _ Hp)) as (w' & xs' & -> & Hi & Hev & Hrun).
      destruct (printing_evolves _ _ _ _ _ _ Hp Hi Hev) as (done' & rest' & -> & Hd & Hr & Hp').
      apply Forall2_cons_inv_l in Hr as (x' & r' & Hx & Hr & ->).
      assert (Hj : joined (pw_thr w') x').
      { intros t' Ht'. destruct Hx as (_ & _ & _ & Ex). rewrite Hrun.
        rewrite <- Ex, Et in Ht'. injection Ht' as <-. apply lookup_delete_eq. }
      exists w', done', x', r'. split_and!; try done; [apply Hev|by eapply Hfin].
    + assert (Hj : joined (pw_thr w) x).
      { intros t' _. by rewrite (pr_seq _ _ _ _ Hp). }
      exists w, done, x, rest. split_and!; try done; by eapply Hfin.
  - assert (Hj : joined (pw_thr w) x) by (intros t'; congruence).
    exists w, done, x, rest. split_and!; try done; [by destruct ispar|by eapply Hfin].
Qed.

Lemma printing_shift L w done x rest :
  printing L w done (x :: rest) -> joined (pw_thr w) x -> printing L w (done ++ [x]) rest.
Proof.
  intros [H1 H2 H3 H4] Hj. split; rewrite <- ?app_assoc; try done.
  apply Forall_app. split; [done|]. by constructor.
Qed.

(** What is known of the order number before a node is printed. *)
Definition order_ok (order : option Z) done : Prop :=
  done = [] \/ exists ds y, done = ds ++ [y]
    /\ order = Some (rank (content ds) (p_level (e_val y))).

Lemma content_app xs ys : content (xs ++ ys) = content xs ++ content ys.
Proof. apply fmap_app. Qed.

(** The number the loop computes is the rank. *)
Lemma order_step L w done x rest order :
  printing L w done (x :: rest) -> StronglySorted entry_le (content (done ++ x :: rest)) ->
  order_ok order done ->
  (let* same := match last_loc done with
                | None => Ok false
                | Some _ => let* p := get (last_loc done) (pw_mem w) in
                            Ok (p_level (e_val x) =? p_level (n_val p))
                end in
   if (same : bool) then match order with Some o => Ok (o + 1) | None => Undef Uninitialised end
   else Ok 1) = Ok (rank (content done) (p_level (e_val x))).
Proof.
  intros Hp Hs [->|(ds & y & -> & ->)]; [done|].
  assert (last_loc (ds ++ [y]) = Some (e_loc y)) as -> by (unfold last_loc; by rewrite last_snoc).
  destruct Hp as [[[Hl _] _ _ _] _ _ _]. rewrite <- app_assoc in Hl.
  rewrite (get_Some _ _ _ (dlist_node _ _ _ _ _ Hl)). cbn [rbind n_val elem_node].
  rewrite !content_app in *. cbn [listing fmap list_fmap] in *.
  destruct (Z.eqb_spec (p_level (e_val x)) (p_level (e_val y))) as [E|E]; cbn [rbind].
  - rewrite rank_snoc. simpl. rewrite decide_True by done. by rewrite E.
  - f_equal. symmetry. apply rank_none.
    apply Forall_app. split; [|constructor; [cbn; congruence|done]].
    apply Forall_forall. intros e He. rewrite <- app_assoc in Hs.
    assert (entry_le e (e_path y, p_level (e_val y))) as H1.
    { eapply StronglySorted_app_1_elem_of; [exact Hs|done|set_solver]. }
    apply StronglySorted_app_1_r, StronglySorted_cons in Hs as [H2 _].
    apply Forall_cons in H2 as [H2 _]. unfold entry_le in H1, H2. simpl in H1, H2. lia.
Qed.

Lemma order_ok_same order done done' :
  Forall2 same done done' -> order_ok order done -> order_ok order done'.
Proof.
  intros Hd [->|(ds & y & -> & ->)]; [left; by apply Forall2_nil_inv_l in Hd|right].
  apply Forall2_app_inv_l in Hd as (ds' & l & Hds & Hl & ->).
  apply Forall2_cons_inv_l in Hl as (y' & ? & (_ & _ & Hy & _) & ->%Forall2_nil_inv_l & ->).
  exists ds', y'. by rewrite Hy, (same_content _ _ Hds).
Qed.

(** One iteration: the line of [x], and the loop goes on behind it. *)
Lemma print_step L w done x rest order fuel :
  printing L w done (x :: rest) -> StronglySorted entry_le (content (done ++ x :: rest)) ->
  order_ok order done ->
  let r := rank (content done) (p_level (e_val x)) in
  exists w2 done2 x2 rest2,
    print_loop env sched ispar (S fuel) (Some (e_loc x)) order w =
      (let* '(out, w') := print_loop env sched ispar fuel (first_loc rest2) (Some r) w2 in
       Ok (out_line (p_level (e_val x)) r (freq_of (e_path x)) (e_path x) ++ out, w'))
    /\ pw_list w2 = pw_list w /\ printing L w2 (done2 ++ [x2]) rest2
    /\ Forall2 same done done2 /\ same x x2 /\ Forall2 same rest rest2.
Proof.
  intros Hp Hs Ho r.
  destruct (yield_printing L w done _ Hp) as (w1 & done1 & rest1 & HY & HL1 & Hd1 & Hr1 & Hp1).
  apply Forall2_cons_inv_l in Hr1 as (x1 & r1 & Hx1 & Hr1 & ->).
  destruct (join_node_spec L w1 done1 x1 r1 Hp1)
    as (w2 & done2 & x2 & r2 & HJ & HL2 & Hd2 & Hx2 & Hr2 & Hp2 & Hj2 & Hq2).
  assert (Hx : same x x2) by by etransitivity. assert (Hd : Forall2 same done done2) by by etransitivity.
  assert (Hr : Forall2 same rest r2) by by etransitivity. clear Hd1 Hd2 Hr1 Hr2.
  assert (Hall : Forall2 same (done ++ x :: rest) (done2 ++ x2 :: r2)).
  { apply Forall2_app; [done|]. by constructor. }
  rewrite (same_content _ _ Hall) in Hs.
  pose proof (order_step L w2 done2 x2 r2 order Hp2 Hs (order_ok_same _ _ _ Hd Ho)) as Hos.
  apply rbind_Ok in Hos as (b & Hb & Hos).
  exists w2, done2, x2, r2. split_and!; [|congruence|by apply printing_shift|done..].
  cbn [print_loop]. rewrite HY. cbn [rbind].
  assert (e_loc x = e_loc x1) as -> by apply Hx1. rewrite HJ. cbn [rbind].
  assert (e_loc x1 = e_loc x2) as -> by apply Hx2.
  rewrite (printing_get _ _ _ _ _ Hp2). cbn [rbind n_prev n_next n_val n_path elem_node deref].
  rewrite Hb. cbn [rbind]. rewrite Hos. cbn [rbind]. rewrite Hq2. subst r.
  destruct Hx as (_ & -> & -> & _). by rewrite (same_content _ _ Hd).
Qed.

Lemma print_loop_joins L n : forall rest done order fuel w,
  length rest = n -> printing L w done rest -> StronglySorted entry_le (content (done ++ rest)) ->
  order_ok order done -> (n <= fuel)%nat ->
  exists w' xs', print_loop env sched ispar fuel (first_loc rest) order w
      = Ok (render freq_of (content done) (content rest), w')
    /\ pw_list w' = pw_list w /\ printing L w' xs' [] /\ Forall2 same (done ++ rest) xs'.
Proof.
  induction n as [|n IH]; intros rest done order fuel w Hn Hp Hs Ho Hf.
  - apply nil_length_inv in Hn as ->.
    destruct (yield_printing L w done _ Hp) as (w1 & done1 & rest1 & HY & HL1 & Hd1 & Hr1 & Hp1).
    apply Forall2_nil_inv_l in Hr1 as ->. exists w1, done1. rewrite app_nil_r.
    split_and!; try done. destruct fuel; cbn; by rewrite HY.
  - destruct rest as [|x rest]; [done|]. injection Hn as Hn.
    destruct fuel as [|fuel]; [lia|].
    destruct (print_step L w done x rest order fuel Hp Hs Ho)
      as (w2 & done2 & x2 & rest2 & HR & HL & Hp2 & Hd & Hx & Hr).
    assert (Hall : Forall2 same (done ++ x :: rest) ((done2 ++ [x2]) ++ rest2)).
    { rewrite <- app_assoc. apply Forall2_app; [done|]. by constructor. }
    destruct (IH rest2 (done2 ++ [x2]) (Some (rank (content done) (p_level (e_val x)))) fuel w2)
      as (w3 & xs3 & HR3 & HL3 & Hp3 & Hs3).
    + by rewrite <- (Forall2_length _ _ _ Hr).
    + done.
    + by rewrite <- (same_content _ _ Hall).
    + right. exists done2, x2. destruct Hx as (_ & _ & <- & _). by rewrite (same_content _ _ Hd).
    + lia.
    + exists w3, xs3. cbn [first_loc]. rewrite HR, HR3. cbn [rbind].
      split_and!; [|congruence|done|by etransitivity].
      rewrite content_app, <- (same_content _ _ Hd), <- (same_content _ _ Hr).
      unfold listing. cbn [render fmap list_fmap fst snd].
      destruct Hx as (_ & <- & <- & _). done.
Qed.
End Print.

Section Run.
Context (env : fsys) (sched : nat -> list positive) (ispar : bool) (kw dir out : cstr).

(** Sorting by level keeps everything the print loop needs. *)
Lemma sort_printing w E q tq xs :
  pholds env ispar kw dir w E q tq xs ->
  (exists h xs', xs = h :: xs' /\ Forall (fun x => p_level (e_val h) <= p_level (e_val x)) xs') ->
  exists M' L' ys, insertion_sort_by_level_increasing (pw_list w) (pw_mem w) = Ok M'
    /\ l_head (pw_list w) = first_loc ys /\ l_head L' = l_head (pw_list w)
    /\ printing env ispar kw dir L' (set_mem M' w) [] ys
    /\ listing p_level ys = merge_sort entry_le E.
Proof.
  intros [Hi Hs Hc Hset Hq Htq Hseq] (h & xs' & -> & Hmin). pose proof Hi as [[Hl Hdom] _ _ _].
  destruct (insertion_sort_spec p_level (pw_mem w) (pw_list w) h xs' Hl Hmin) as (m' & t' & HR & Hl' & Hdom').
  set (ys := level_sort p_level (h :: xs')) in *.
  assert (Hys : ys ≡ₚ h :: xs') by apply level_sort_Permutation.
  exists (Mem m' (m_quota (pw_mem w))), (LList (l_head (pw_list w)) t'), ys.
  split_and!; [done| |done| |].
  - destruct Hl' as [Hs' _]. by apply dseg_cur in Hs'.
  - split; cbn [app pw_thr set_mem]; [| |done|constructor].
    + eapply (pinv_perm env kw (pw_list w) _ w); [exact Hi|done| |done]. split; [done|].
      cbn [pw_mem m_nodes set_mem]. rewrite Hdom', Hdom. apply set_eq. intros k.
      rewrite !elem_of_list_to_set. unfold locs. by rewrite Hys.
    + by rewrite Hys.
  - apply sorted_listing; [by apply listing_sorted, level_sort_lex|].
    unfold listing. by rewrite Hys.
Qed.

(** After the last line every thread has been joined. *)
Lemma printing_done L w xs : printing env ispar kw dir L w xs [] -> t_running (pw_thr w) = ∅.
Proof.
  intros [[_ Hr _ _] _ _ Hj]. rewrite app_nil_r in Hr. apply map_empty. intros t.
  destruct (t_running (pw_thr w) !! t) as [a|] eqn:E; [|done].
  destruct (Hr _ _ E) as (_ & x & Hx & _ & Ht & _). rewrite Forall_forall in Hj.
  by rewrite (Hj x Hx t Ht) in E.
Qed.

Lemma run_spec es q d T :
  (depth (Dir es) <= d)%nat -> tree_at env dir (Dir es) ->
  Forall (readable env) (visible_files dir (Dir es)) -> fs_create env out = true ->
  let E := (dir, 1) :: visible_entries dir 2 (Dir es) in
  (3 * length E + 1 <= q)%nat -> (length E <= t_quota T)%nat -> t_running T = ∅ ->
  exists q' T', run d env sched ispar dir kw out (Mem ∅ q) T
    = Ok (0, Some (out, render (freq_of env kw dir) [] (merge_sort entry_le E)), Mem ∅ q', T')
    /\ t_running T' = ∅.
Proof.
  intros Hd Hat Hrd Hout E Hq Htq HT. destruct q as [|q]; [lia|].
  unfold run, create_list, DList.create_list. cbn [m_quota m_nodes rbind].
  assert (Hq' : (3 * length E <= q)%nat) by lia.
  destruct (populate_root_pholds env sched ispar kw dir es d q T Hd Hat Hrd Hq' Htq HT) as (w & xs & -> & Hw).
  cbn [rbind]. fold E in Hw.
  destruct (yield_pholds env sched ispar kw dir w E 0 0 xs Hw) as (w1 & xs1 & -> & _ & Hw1). cbn [rbind].
  destruct (sort_printing w1 E 0 0 xs1 Hw1) as (M' & L' & ys & -> & Hf & Hh & Hp & Hys).
  { eapply (root_first p_level dir); [apply Hw1|apply Hw1|apply visible_entries_below]. }
  cbn [rbind]. unfold print_list_to_file. rewrite Hout. cbn [pw_list set_mem]. rewrite Hf.
  pose proof (pr_inv _ _ _ _ _ _ _ _ Hp) as [[[Hseg Hnd] _] _ _ _].
  destruct (print_loop_joins env sched ispar kw dir L' (length ys) ys [] None
              (size (m_nodes (pw_mem (set_mem M' w1)))) (set_mem M' w1))
    as (w2 & zs & -> & HL2 & Hp2 & Hsame); try done.
  { cbn [app]. rewrite Hys. apply StronglySorted_merge_sort; apply _. }
  { by left. }
  { by eapply dseg_size. }
  cbn [rbind]. rewrite HL2. pose proof (pr_inv _ _ _ _ _ _ _ _ Hp2) as [Ho2 _ _ _]. rewrite app_nil_r in Ho2.
  assert (destroy_list (pw_list (set_mem M' w1)) (pw_mem w2) = Ok (Mem ∅ (m_quota (pw_mem w2)))) as ->.
  { rewrite <- (destroy_list_spec _ _ _ Ho2). unfold destroy_list, DList.destroy_list.
    cbn [pw_list set_mem]. by rewrite Hh. }
  cbn [rbind]. exists (m_quota (pw_mem w2)), (pw_thr w2). split; [by rewrite Hys|by eapply printing_done].
Qed.
End Run.

(** ** Properties *)

(** C2: for every scheduler, and with or without threads, [pardirlist] on a readable
    directory tree returns 0 and writes the reference listing in which every file
    carries the number of occurrences of the keyword and every directory 0; all
    threads have been joined and all nodes freed. *)
Theorem pardirlist_writes_counted_listing env sched prog dir kw out flag es q d T :
  atoi flag = 0 \/ atoi flag = 1 ->
  (depth (Dir es) <= d)%nat -> tree_at env dir (Dir es) ->
  Forall (readable env) (visible_files dir (Dir es)) -> fs_create env out = true ->
  let E := (dir, 1) :: visible_entries dir 2 (Dir es) in
  (3 * length E + 1 <= q)%nat -> (length E <= t_quota T)%nat -> t_running T = ∅ ->
  exists q' T', main d env sched [prog; dir; kw; out; flag] (Mem ∅ q) T
    = Ok (0, Some (out, render (freq_of env kw dir) [] (merge_sort entry_le E)), Mem ∅ q', T')
    /\ t_running T' = ∅.
Proof.
  intros Hflag Hd Hat Hrd Hout E Hq Htq HT. unfold main.
  destruct Hflag as [-> | ->]; by apply run_spec.
Qed.

(** C19: the file written with one thread per file is, for every scheduler, the file
    written sequentially. *)
Theorem pardirlist_parallel_equals_sequential env sched sched' prog dir kw out es q d T :
  (depth (Dir es) <= d)%nat -> tree_at env dir (Dir es) ->
  Forall (readable env) (visible_files dir (Dir es)) -> fs_create env out = true ->
  (3 * length (visible_entries dir 2 (Dir es)) + 4 <= q)%nat ->
  (length (visible_entries dir 2 (Dir es)) + 1 <= t_quota T)%nat -> t_running T = ∅ ->
  exists text q1 T1 q0 T0,
    main d env sched [prog; dir; kw; out; lit "1"] (Mem ∅ q) T = Ok (0, Some (out, text), Mem ∅ q1, T1)
    /\ main d env sched' [prog; dir; kw; out; lit "0"] (Mem ∅ q) T = Ok (0, Some (out, text), Mem ∅ q0, T0).
Proof.
  intros Hd Hat Hrd Hout Hq Htq HT.
  destruct (run_spec env sched true kw dir out es q d T Hd Hat Hrd Hout) as (q1 & T1 & H1 & _);
    [cbn [length]; lia..|done|].
  destruct (run_spec env sched' false kw dir out es q d T Hd Hat Hrd Hout) as (q0 & T0 & H0 & _);
    [cbn [length]; lia..|done|].
  eexists _, q1, T1, q0, T0. split; [exact H1|exact H0].
Qed.

(** ** A concrete run *)

Module Demo.
(** "a" with the directory "b", which has "x", and the file "c". *)
Definition es : list (cstr * tree) := [(lit "b", Dir [(lit "x", File)]); (lit "c", File)].
Definition env : fsys :=
  Fsys (fun p => if decide (p = lit "a") then Some (map fst es)
                 else if decide (p = lit "a/b") then Some [lit "x"] else None)
       (fun p => Some (bool_decide (p = lit "a/b")))
       (fun p => if decide (p = lit "a/c") then Some (lit "k kk k") else Some (lit "none"))
       (fun _ => true).
Definition T : threads := Threads ∅ 1 9 0.
(** Thread 1 runs late, thread 2 as soon as possible. *)
Definition sched (n : nat) : list positive := if decide (n < 6)%nat then [2%positive] else [].
End Demo.

Lemma demo_tree : tree_at Demo.env (lit "a") (Dir Demo.es).
Proof. unfold Demo.es. solve_tree_at. Qed.

Lemma demo_readable : Forall (readable Demo.env) (visible_files (lit "a") (Dir Demo.es)).
Proof. repeat constructor; eexists; vm_compute; reflexivity. Qed.

Lemma pardirlist_writes_counted_listing_witness :
  exists q' T', main 2 Demo.env Demo.sched
      [lit "pardirlist"; lit "a"; lit "k"; lit "out"; lit "1"] (Mem ∅ 13) Demo.T
    = Ok (0, Some (lit "out", render (freq_of Demo.env (lit "k") (lit "a")) []
            (merge_sort entry_le ((lit "a", 1) :: visible_entries (lit "a") 2 (Dir Demo.es)))), Mem ∅ q', T')
    /\ t_running T' = ∅.
Proof.
  apply (pardirlist_writes_counted_listing Demo.env Demo.sched (lit "pardirlist") (lit "a") (lit "k")
           (lit "out") (lit "1") Demo.es 13 2 Demo.T).
  - right. reflexivity.
  - vm_compute. lia.
  - apply demo_tree.
  - apply demo_readable.
  - reflexivity.
  - vm_compute. lia.
  - vm_compute. lia.
  - reflexivity.
Defined.

Lemma pardirlist_parallel_equals_sequential_witness :
  exists text q1 T1 q0 T0,
    main 2 Demo.env Demo.sched [lit "pardirlist"; lit "a"; lit "k"; lit "out"; lit "1"] (Mem ∅ 13) Demo.T
      = Ok (0, Some (lit "out", text), Mem ∅ q1, T1)
    /\ main 2 Demo.env (fun _ => []) [lit "pardirlist"; lit "a"; lit "k"; lit "out"; lit "0"] (Mem ∅ 13) Demo.T
      = Ok (0, Some (lit "out", text), Mem ∅ q0, T0).
Proof.
  apply (pardirlist_parallel_equals_sequential Demo.env Demo.sched (fun _ => []) (lit "pardirlist")
           (lit "a") (lit "k") (lit "out") Demo.es 13 2 Demo.T).
  - vm_compute. lia.
  - apply demo_tree.
  - apply demo_readable.
  - reflexivity.
  - vm_compute. lia.
  - vm_compute. lia.
  - reflexivity.
Defined.
