(* ===== verification/RequestQueue.v ===== *)
(** * The request queue in shared memory

    The client half ([open_queue], [enqueue], [read_inputfile] of
    [client-server/client.c]) and the server half ([create_queue], [dequeue],
    [unlink_queue], [watch_queue] of [client-server/server.c]) of the byte queue
    between the two processes, with the three named semaphores.  The two processes
    interleave at every semaphore operation. *)

From S2P Require Import Prelude CString ByteMem.

Definition MAXDIRPATH : Z := 1024.
Definition MAXKEYWORD : Z := 256.

(** [linesize]: a directory, a space, a keyword and a null character. *)
Definition line_size : Z := MAXDIRPATH + 1 + MAXKEYWORD + 1.

(** ** Named objects of the operating system *)

(** The shared memory object "queue" and the semaphores "/empty", "/full" and
    "/mutex", where they exist. *)
Record os := Os {
  o_queue : option (list byte);
  o_empty : option Z;
  o_full : option Z;
  o_mutex : option Z }.

(** [ftruncate]: the object is cut, or extended with zeros. *)
Definition ftruncate (m : list byte) (size : Z) : list byte :=
  take (Z.to_nat size) (m ++ replicate (Z.to_nat size - length m) NUL).

(** [sem_open (name, O_CREAT, 0666, v)]: an existing semaphore keeps its value. *)
Definition sem_create (s : option Z) (v : Z) : option Z :=
  match s with Some w => Some w | None => Some v end.

(** [create_shared_memory]; [mapped] is whether [mmap] succeeds. *)
Definition create_shared_memory (mapped : bool) (o : os) (size : Z) : res os :=
  let m := ftruncate (default [] (o_queue o)) (size + 1 + 2) in
  if mapped then Ok (Os (Some m) (o_empty o) (o_full o) (o_mutex o)) else Exit 1.

(** The process's own part of [struct Queue]: [front] in the server, [back] in the
    client, and the size. *)
Record queue := Queue { q_pos : Z; q_size : Z }.

Definition create_queue (mapped : bool) (o : os) (size : Z) : res (os * queue) :=
  let total_size := i32 (size * line_size) in
  let* o1 := create_shared_memory mapped o total_size in
  let* m := deref (o_queue o1) in
  let* m' := poke16 m (total_size + 1) 0 in
  Ok (Os (Some m') (sem_create (o_empty o1) size) (sem_create (o_full o1) 0)
        (sem_create (o_mutex o1) 1),
      Queue 0 total_size).

(** [unlink_queue] removes the four names. *)
Definition unlink_queue (o : os) : os := Os None None None None.

(** The client's [open_shared_memory] and [open_queue]. *)
Definition open_shared_memory (mapped : bool) (o : os) : res unit :=
  match o_queue o with
  | None => Exit 1
  | Some _ => if mapped then Ok tt else Exit 1
  end.

Definition open_queue (mapped : bool) (o : os) (size : Z) : res queue :=
  let* _ := open_shared_memory mapped o in Ok (Queue 0 (i32 (size * line_size))).

(** ** The critical sections *)

(** [strlen (request) + 1] in an [unsigned short]. *)
Definition reqlen (request : cstr) : Z := u16 (len request + 1).

(** [enqueue] between [sem_wait (mutex)] and [sem_post (mutex)]. *)
Definition enqueue_write (m : list byte) (q : queue) (request : cstr) : res (list byte) :=
  if q_pos q + reqlen request <=? q_size q
  then sprintf_s m (q_pos q) request
  else
    let offset := u16 (q_size q - q_pos q) in
    let* m1 := snprintf_s m (q_pos q) (offset + 1) request in
    if offset <=? len request then
      let* m2 := sprintf_s m1 0 (drop (Z.to_nat offset) request) in
      poke16 m2 (q_size q + 1) offset
    else Undef OutOfBoundsRead.

(** [q->back = (q->back + reqlen) % q->size], and the same for [q->front]. *)
Definition advance (q : queue) (request : cstr) : res queue :=
  if q_size q =? 0 then Undef DivideByZero
  else Ok (Queue (Z.rem (q_pos q + reqlen request) (q_size q)) (q_size q)).

Definition REQBUF : Z := MAXDIRPATH + MAXKEYWORD + 2.

(** [strcpy (request_buffer, s)] into the server's array. *)
Definition to_request_buffer (s : cstr) : res cstr :=
  if len s + 1 <=? REQBUF then Ok s else Undef BufferOverflow.

(** [dequeue] between the two mutex operations: the memory (with the overlap
    reset in the second branch) and the request buffer's string. *)
Definition dequeue_read (m : list byte) (q : queue) : res (list byte * cstr) :=
  let* overlap := peek16 m (q_size q + 1) in
  if negb (overlap =? 0) || negb (q_pos q =? q_size q - overlap)
  then
    let* s := read_cstr m (q_pos q) in
    let* r := to_request_buffer s in Ok (m, r)
  else
    let* s := read_cstr m (q_pos q) in
    let head := take (Z.to_nat overlap) s in
    let* tail := read_cstr m 0 in
    let* r := to_request_buffer (if len head <? overlap then head else head ++ tail) in
    let* m' := poke16 m (q_size q + 1) 0 in
    Ok (m', r).

(** ** The two processes *)

(** Where the client is: before the next [fgets], or inside [enqueue] with a
    request, before the operation the constructor names. *)
Inductive cpc :=
  | CNext | CWaitEmpty (r : cstr) | CWaitMutex (r : cstr) | CWrite (r : cstr)
  | CPostMutex (r : cstr) | CPostFull (r : cstr) | CAdvance (r : cstr) | CDone.

(** Where the server is: at the loop's condition, inside [dequeue], before [fork],
    before one of the [wait]s that remain, or after [watch_queue]. *)
Inductive spc :=
  | STest | SWaitFull | SWaitMutex | SRead | SPostMutex | SPostEmpty | SAdvance
  | SFork | SReap (n : nat) | SDone (unlinked : bool).

Record sys := Sys {
  mem : list byte; empty : Z; full : Z; mutex : Z;
  c_pc : cpc; c_queue : queue; c_file : list byte;
  s_pc : spc; s_queue : queue; request_buffer : cstr; process_count : nat; pid : Z;
  (* the requests for which [fork] was called, the last first, with its success *)
  forked : list (cstr * bool) }.

Definition with_mem m' s := let 'Sys m e f x a b c d g h i j k := s in Sys m' e f x a b c d g h i j k.
Definition with_empty e' s := let 'Sys m e f x a b c d g h i j k := s in Sys m e' f x a b c d g h i j k.
Definition with_full f' s := let 'Sys m e f x a b c d g h i j k := s in Sys m e f' x a b c d g h i j k.
Definition with_mutex x' s := let 'Sys m e f x a b c d g h i j k := s in Sys m e f x' a b c d g h i j k.
Definition with_cpc a' s := let 'Sys m e f x a b c d g h i j k := s in Sys m e f x a' b c d g h i j k.
Definition with_cqueue b' s := let 'Sys m e f x a b c d g h i j k := s in Sys m e f x a b' c d g h i j k.
Definition with_cfile c' s := let 'Sys m e f x a b c d g h i j k := s in Sys m e f x a b c' d g h i j k.
Definition with_spc d' s := let 'Sys m e f x a b c d g h i j k := s in Sys m e f x a b c d' g h i j k.
Definition with_squeue g' s := let 'Sys m e f x a b c d g h i j k := s in Sys m e f x a b c d g' h i j k.
Definition with_request h' s := let 'Sys m e f x a b c d g h i j k := s in Sys m e f x a b c d g h' i j k.
Definition with_fork i' j' k' s := let 'Sys m e f x a b c d g h i j k := s in Sys m e f x a b c d g h i' j' k'.

(** One step of the client; [None] where it blocks or has ended. *)
Definition client_step (s : sys) : option (res sys) :=
  match c_pc s with
  | CNext =>
      Some (match fgets (Z.to_nat REQBUF) (c_file s) with
            | None => Ok (with_cpc CDone s)
            | Some (l, file) =>
                match strtok_r [newline] (c_str l) with
                | None => Undef NullDeref   (* strlen (NULL) *)
                | Some (r, _) => Ok (with_cfile file (with_cpc (CWaitEmpty r) s))
                end
            end)
  | CWaitEmpty r =>
      if 0 <? empty s then Some (Ok (with_empty (empty s - 1) (with_cpc (CWaitMutex r) s)))
      else None
  | CWaitMutex r =>
      if 0 <? mutex s then Some (Ok (with_mutex (mutex s - 1) (with_cpc (CWrite r) s)))
      else None
  | CWrite r =>
      Some (let* m := enqueue_write (mem s) (c_queue s) r in
            Ok (with_mem m (with_cpc (CPostMutex r) s)))
  | CPostMutex r => Some (Ok (with_mutex (mutex s + 1) (with_cpc (CPostFull r) s)))
  | CPostFull r => Some (Ok (with_full (full s + 1) (with_cpc (CAdvance r) s)))
  | CAdvance r =>
      Some (let* q := advance (c_queue s) r in Ok (with_cqueue q (with_cpc CNext s)))
  | CDone => None
  end.

(** One step of the server in [watch_queue]; [forks] is whether a [fork] made by
    this step succeeds. *)
Definition server_step (forks : bool) (s : sys) : option (res sys) :=
  match s_pc s with
  | STest =>
      if negb (pid s =? 0) && negb (strcmp (request_buffer s) (lit "exit") =? 0)
      then Some (Ok (with_spc SWaitFull s))
      else if pid s <? 0 then Some (Exit 1)
      else Some (Ok (with_spc (SReap (process_count s)) s))
  | SWaitFull =>
      if 0 <? full s then Some (Ok (with_full (full s - 1) (with_spc SWaitMutex s))) else None
  | SWaitMutex =>
      if 0 <? mutex s then Some (Ok (with_mutex (mutex s - 1) (with_spc SRead s))) else None
  | SRead =>
      Some (let* '(m, r) := dequeue_read (mem s) (s_queue s) in
            Ok (with_mem m (with_request r (with_spc SPostMutex s))))
  | SPostMutex => Some (Ok (with_mutex (mutex s + 1) (with_spc SPostEmpty s)))
  | SPostEmpty => Some (Ok (with_empty (empty s + 1) (with_spc SAdvance s)))
  | SAdvance =>
      Some (let* q := advance (s_queue s) (request_buffer s) in
            Ok (with_squeue q (with_spc SFork s)))
  | SFork =>
      Some (Ok (with_fork (S (process_count s)) (if forks then 1 else -1)
                  ((request_buffer s, forks) :: forked s) (with_spc STest s)))
  | SReap (S n) => Some (Ok (with_spc (SReap n) s))
  | SReap O => Some (Ok (with_spc (SDone true) s))
  | SDone _ => None
  end.

Inductive step : sys -> sys -> Prop :=
  | step_client s s' : client_step s = Some (Ok s') -> step s s'
  | step_server b s s' : server_step b s = Some (Ok s') -> step s s'.

(** ** The two main functions *)

(** The server's [main], up to the loop of [watch_queue]: the named objects, its
    queue and the size of the thread buffer. *)
Definition server_main (mapped : bool) (o : os) (argv : list cstr) : res (os * queue * Z) :=
  match argv with
  | [req_queue_size; buffersize] =>
      let* '(o, q) := create_queue mapped o (atoi req_queue_size) in
      Ok (o, q, atoi buffersize)
  | _ => Exit 1
  end.

(** The client's [main], up to the loop of [read_inputfile]: its queue and the input
    file ([fopen] is not checked, and [fgets] takes the stream).  [close_queue], at
    the end, leaves the named objects as they are. *)
Definition client_main (mapped : bool) (o : os) (fopen : cstr -> option (list byte))
    (argv : list cstr) : res (queue * list byte) :=
  match argv with
  | [req_queue_size; inputfile] =>
      let* q := open_queue mapped o (atoi req_queue_size) in
      let* fs := deref (fopen inputfile) in
      Ok (q, fs)
  | _ => Exit 1
  end.

(** A server started on a system without a queue, then a client. *)
Definition boot (fopen : cstr -> option (list byte)) (server_argv client_argv : list cstr) : res sys :=
  let* '(o, sq, _) := server_main true (Os None None None None) server_argv in
  let* '(cq, file) := client_main true o fopen client_argv in
  let* m := deref (o_queue o) in
  let* e := deref (o_empty o) in
  let* f := deref (o_full o) in
  let* x := deref (o_mutex o) in
  Ok (Sys m e f x CNext cq file STest sq [] 0 1 []).
