(* ===== verification/RequestRing.v ===== *)
(** * The request queue as a ring of strings

    Between the server's [front] and the client's [back] the shared memory holds
    the pending requests, each with its null character, as long as no request is
    split by the end of the buffer.  [pending] is that abstraction; the critical
    sections of [enqueue] and [dequeue] implement the operations of a FIFO queue on
    it. *)

From S2P Require Import Prelude CString ByteMem RequestQueue.

(** The bytes a sequence of requests takes in the buffer. *)
Fixpoint span (q : list cstr) : Z :=
  match q with [] => 0 | r :: q' => len r + 1 + span q' end.

Lemma span_app q q' : span (q ++ q') = span q + span q'.
Proof. induction q as [|r q IH]; simpl; lia. Qed.

Lemma span_nonneg q : 0 <= span q.
Proof. induction q as [|r q IH]; simpl; [lia|]. pose proof (len_nonneg r). lia. Qed.

(** A request that fits a line of the queue. *)
Definition wf_request (r : cstr) : Prop := (NUL ∉ r) /\ len r + 1 <= line_size.

Lemma span_bound q : Forall wf_request q -> span q <= Z.of_nat (length q) * line_size.
Proof.
  induction 1 as [|r q [_ Hr] Hq IH]; [simpl; lia|]. cbn [span length]. nia.
Qed.

Lemma reqlen_wf r : wf_request r -> reqlen r = len r + 1.
Proof. intros [_ H]. apply u16_id. pose proof (len_nonneg r). unfold line_size, MAXDIRPATH, MAXKEYWORD in *. lia. Qed.

Section Ring.
Context (size : Z) (size_line : line_size <= size).

Lemma size_pos : 0 < size.
Proof using size_line. unfold line_size, MAXDIRPATH, MAXKEYWORD in *. lia. Qed.

(** A request placed at [b] is not split: at most its null character goes over the
    end, and there the buffer has a byte of its own for it. *)
Definition unsplit (b : Z) (r : cstr) : bool :=
  (b + len r + 1 <=? size) || (b + len r + 1 =? size + 1).

Fixpoint unsplit_all (b : Z) (rs : list cstr) : bool :=
  match rs with
  | [] => true
  | r :: rs' => unsplit b r && unsplit_all ((b + len r + 1) mod size) rs'
  end.

Lemma unsplit_spec b r : unsplit b r = true <-> b + len r <= size.
Proof. unfold unsplit. rewrite orb_true_iff, Z.leb_le, Z.eqb_eq. lia. Qed.

(** The memory holds the requests [q] one after the other from position [v],
    counted around the ring. *)
Fixpoint pending (m : list byte) (v : Z) (q : list cstr) : Prop :=
  match q with
  | [] => True
  | r :: q' => (unsplit (v mod size) r = true /\ stored m (v mod size) r)
               /\ pending m (v + len r + 1) q'
  end.

Lemma pending_mod m v q : pending m (v mod size) q <-> pending m v q.
Proof using size_line.
  revert v. induction q as [|r q IH]; intros v; [done|]. cbn [pending].
  pose proof size_pos. rewrite Z.mod_mod by lia. f_equiv.
  rewrite <- (IH (v mod size + len r + 1)), <- (IH (v + len r + 1)), <- !Z.add_assoc.
  by rewrite Z.add_mod_idemp_l by lia.
Qed.

Lemma pending_app m v q q' :
  pending m v (q ++ q') <-> pending m v q /\ pending m (v + span q) q'.
Proof.
  revert v. induction q as [|r q IH]; intros v; cbn [app pending span].
  - rewrite Z.add_0_r. naive_solver.
  - rewrite IH. replace (v + len r + 1 + span q) with (v + (len r + 1 + span q)) by lia.
    naive_solver.
Qed.

(** A request stays stored when no byte of it changes. *)
Lemma stored_frame m m' v r :
  at_ m' size = at_ m size ->
  (forall k, 0 <= k <= len r -> at_ m' ((v + k) mod size) = at_ m ((v + k) mod size)) ->
  unsplit (v mod size) r = true -> stored m (v mod size) r -> stored m' (v mod size) r.
Proof using size_line.
  intros Hs Hf Hu Hst k Hk. rewrite <- Hst by done.
  apply unsplit_spec in Hu. pose proof size_pos. pose proof (Z.mod_pos_bound v size size_pos).
  destruct (Z.eq_dec (v mod size + k) size) as [->|Hne]; [done|].
  assert (E : v mod size + k = (v + k) mod size).
  { rewrite <- Z.add_mod_idemp_l by lia. symmetry. apply Z.mod_small. lia. }
  rewrite E. by apply Hf.
Qed.

Lemma pending_frame m m' v q :
  at_ m' size = at_ m size ->
  (forall k, 0 <= k < span q -> at_ m' ((v + k) mod size) = at_ m ((v + k) mod size)) ->
  pending m v q -> pending m' v q.
Proof using size_line.
  intros Hs. revert v. induction q as [|r q IH]; intros v Hf; [done|]. cbn [pending span] in *.
  pose proof (span_nonneg q). pose proof (len_nonneg r).
  intros [[Hu Hst] Hq]. split; [split; [done|]|].
  - eapply stored_frame; eauto. intros k Hk. apply Hf. lia.
  - apply IH; [|done]. intros k Hk. replace (v + len r + 1 + k) with (v + (len r + 1 + k)) by lia.
    apply Hf. lia.
Qed.

Lemma mod_window a b : a mod size = b mod size -> - size < a - b < size -> a = b.
Proof using size_line.
  intros H B. pose proof size_pos. pose proof (Z.div_mod a size ltac:(lia)). pose proof (Z.div_mod b size ltac:(lia)).
  assert (a / size = b / size); nia.
Qed.

(** ** The critical sections *)

(** The bytes of the ring a request at [b] does not use. *)
Definition outside (b : Z) (r : cstr) (i : Z) : Prop :=
  forall k, 0 <= k <= len r -> i <> (b + k) mod size.

(** The request is stored at [b], and no other byte of the ring has changed. *)
Definition written (m m' : list byte) (b : Z) (r : cstr) : Prop :=
  len m' = size + 3 /\ at_ m' size = Some NUL /\ stored m' b r /\
  (forall i, 0 <= i < size -> outside b r i -> at_ m' i = at_ m i).

Lemma outside_range b r i :
  0 <= b -> 0 <= i < size -> outside b r i -> (b <=? i) && (i <? b + (len r + 1)) = false.
Proof.
  intros Hb Hi Ho. apply andb_false_iff. rewrite Z.leb_gt, Z.ltb_ge.
  destruct (Z.le_gt_cases b i); [|lia]. destruct (Z.lt_ge_cases i (b + (len r + 1))); [|lia].
  exfalso. apply (Ho (i - b)); [lia|]. replace (b + (i - b)) with i by lia. by rewrite Z.mod_small.
Qed.

Lemma write_fits m b r :
  len m = size + 3 -> at_ m size = Some NUL -> 0 <= b -> b + len r + 1 <= size ->
  exists m', sprintf_s m b r = Ok m' /\ written m m' b r.
Proof using size_line.
  intros Hm Hz Hb L. pose proof (len_nonneg r).
  destruct (write_at_spec m b (r ++ [NUL])) as (m1 & E & Hm1 & H1); [lia|rewrite len_snoc; lia|].
  rewrite len_snoc in H1. exists m1. unfold sprintf_s, written. split_and!; [done|lia| | |].
  - rewrite H1 by lia. rewrite (proj2 (Z.ltb_ge _ _)) by lia. by rewrite andb_false_r.
  - eapply (stored_write m); [lia|lia|done].
  - intros i Hi Ho. rewrite H1 by lia. by rewrite outside_range by (lia || done).
Qed.

(** At the end of the buffer: the string goes before the end, its null character
    into the extra byte and also to the first position of the ring. *)
Lemma write_at_end m b r :
  len m = size + 3 -> 0 <= b -> b + len r = size -> len r < size ->
  exists m1 m2 m3, write_at m b (r ++ [NUL]) = Ok m1 /\ sprintf_s m1 0 [] = Ok m2 /\
    poke16 m2 (size + 1) (len r) = Ok m3 /\ written m m3 b r.
Proof using size_line.
  intros Hm Hb L Hlt. pose proof (len_nonneg r).
  destruct (write_at_spec m b (r ++ [NUL])) as (m1 & E1 & Hm1 & H1); [lia|rewrite len_snoc; lia|].
  destruct (write_at_spec m1 0 ([] ++ [NUL])) as (m2 & E2 & Hm2 & H2);
    [lia|change (0 + 1 <= len m1); lia|].
  assert (Hle : len (le_encode 2 (len r)) = 2) by (unfold len; by rewrite length_le_encode).
  destruct (write_at_spec m2 (size + 1) (le_encode 2 (len r))) as (m3 & E3 & Hm3 & H3); [lia..|].
  rewrite Hle in H3. change (len ([] ++ [NUL])) with 1 in H2. rewrite len_snoc in H1.
  assert (Hsz : forall j, 0 < j <= size -> at_ m3 j = at_ m1 j).
  { intros j Hj. rewrite H3, H2 by lia. rewrite (proj2 (Z.leb_gt (size + 1) j)) by lia. simpl.
    destruct (Z.ltb_spec j (0 + 1)); [lia|]. by rewrite andb_false_r. }
  assert (Hst : stored m1 b r) by (eapply (stored_write m); [lia|lia|done]).
  exists m1, m2, m3. unfold written. split_and!; [done..| lia | | |].
  - rewrite Hsz by lia. pose proof (Hst (len r) ltac:(lia)) as X. rewrite L in X. rewrite X.
    unfold at_, len. by rewrite Nat2Z.id, lookup_app_r, Nat.sub_diag by lia.
  - intros k Hk. rewrite Hsz by lia. by apply Hst.
  - intros i Hi Ho. assert (i <> 0).
    { specialize (Ho (len r) ltac:(lia)). rewrite L, Z.mod_same in Ho by lia. done. }
    rewrite Hsz, H1 by lia. by rewrite outside_range by (lia || done).
Qed.

(** Writing an unsplit request stores it, and changes no other byte of the ring. *)
Lemma enqueue_write_spec m b r :
  len m = size + 3 -> at_ m size = Some NUL -> 0 <= b < size ->
  wf_request r -> unsplit b r = true ->
  exists m', enqueue_write m (Queue b size) r = Ok m' /\ written m m' b r.
Proof using size_line.
  intros Hm Hz Hb Hr Hu. apply unsplit_spec in Hu. pose proof (len_nonneg r) as Hl.
  unfold enqueue_write. simpl. rewrite reqlen_wf by done.
  destruct (Z.leb_spec (b + (len r + 1)) size) as [L|G]; [apply write_fits; lia || done|].
  assert (Hlr : len r < size) by (destruct Hr; lia).
  destruct (write_at_end m b r) as (m1 & m2 & m3 & E1 & E2 & E3 & Hw); [lia..|].
  assert (Hu16 : u16 (size - b) = len r).
  { replace (size - b) with (len r) by lia. apply u16_id. destruct Hr as [_ Hr].
    unfold line_size, MAXDIRPATH, MAXKEYWORD in Hr. lia. }
  rewrite Hu16. unfold snprintf_s. rewrite (proj2 (Z.ltb_lt _ _)) by lia.
  replace (len r + 1 - 1) with (len r) by lia. rewrite firstn_all2 by (unfold len; lia).
  rewrite E1. simpl. rewrite Z.leb_refl, drop_ge by (unfold len; lia). rewrite E2. simpl. eauto.
Qed.

(** Reading takes the plain branch whatever the overlap is, and returns the string
    stored at [front]. *)
Lemma dequeue_read_spec m f r :
  len m = size + 3 -> 0 <= f < size -> wf_request r -> stored m f r ->
  dequeue_read m (Queue f size) = Ok (m, r).
Proof using size_line.
  intros Hm Hf [Hn Hl] Hst. unfold dequeue_read, peek16. simpl.
  rewrite (proj2 (Z.leb_le _ _)), (proj2 (Z.leb_le _ _)) by lia. simpl.
  rewrite (stored_read m f r) by (lia || done). simpl. unfold to_request_buffer.
  replace REQBUF with line_size by done. rewrite (proj2 (Z.leb_le _ _) Hl). simpl.
  destruct (Z.eqb_spec (le_decode (take 2 (drop (Z.to_nat (size + 1)) m))) 0) as [E|E]; [|done].
  simpl. rewrite E, (proj2 (Z.eqb_neq _ _)) by lia. done.
Qed.

Lemma advance_spec p r :
  0 <= p < size -> wf_request r ->
  advance (Queue p size) r = Ok (Queue ((p + len r + 1) mod size) size).
Proof using size_line.
  intros Hp Hr. unfold advance. simpl. pose proof size_pos. pose proof (len_nonneg r).
  rewrite (proj2 (Z.eqb_neq _ _)) by lia. rewrite reqlen_wf by done.
  rewrite Z.rem_mod_nonneg by lia. do 3 f_equal. lia.
Qed.

(** A written request joins the end of the ring. *)
Lemma pending_written m m' v q r :
  at_ m size = Some NUL -> pending m v q -> written m m' ((v + span q) mod size) r ->
  unsplit ((v + span q) mod size) r = true -> span q + len r + 1 <= size ->
  pending m' v (q ++ [r]).
Proof using size_line.
  intros Hz Hp (Hm & Hz' & Hst & Hf) Hu Hl. pose proof size_pos. apply pending_app.
  split; [|cbn [pending]; done].
  eapply pending_frame; [by rewrite Hz, Hz'| |done].
  intros k Hk. apply Hf; [apply Z.mod_pos_bound; lia|]. intros j Hj E.
  rewrite Z.add_mod_idemp_l in E by lia. apply mod_window in E; lia.
Qed.
End Ring.
