(* ===== verification/RequestSystem.v ===== *)
(** * Client and server on the request queue: delivery

    Every interleaving of a client that sends the lines of its input file and a
    server in [watch_queue]: the invariant that ties the semaphores, the positions
    and the bytes of the shared memory to the requests, and from it delivery in
    order, mutual exclusion, absence of undefined behaviour and of deadlock. *)

From S2P Require Import Prelude CString ByteMem RequestQueue RequestRing.

(** ** The requests of an input file *)

Definition record_request (l : list byte) : option cstr :=
  fst <$> strtok_r [newline] (c_str l).

(** The requests [read_inputfile] sends; [None] where it meets a line without
    characters, for which [strtok_r] returns NULL. *)
Definition client_requests (file : list byte) : option (list cstr) :=
  mapM record_request (records (Z.to_nat REQBUF) file).

Lemma client_requests_unfold file :
  client_requests file =
    match fgets (Z.to_nat REQBUF) file with
    | None => Some []
    | Some (l, file') =>
        r ← record_request l; rs ← client_requests file'; Some (r :: rs)
    end.
Proof.
  unfold client_requests. rewrite records_unfold by (compute; lia).
  destruct (fgets _ file) as [[l file']|]; [|done].
  destruct (record_request l) as [r|] eqn:E; [|simpl; by rewrite E].
  simpl. rewrite E. simpl. by destruct (mapM _ _).
Qed.

Lemma drop_while_subset p s b : b ∈ drop_while p s -> b ∈ s.
Proof.
  induction s as [|a s IH]; simpl; [done|]. destruct (p a); [|done]. set_solver.
Qed.

Lemma take_while_spec p s :
  (length (take_while p s) <= length s)%nat /\
  (forall b, b ∈ take_while p s -> b ∈ s /\ p b = true).
Proof.
  induction s as [|a s [IHl IHs]]; simpl; [set_solver|]. destruct (p a) eqn:E; simpl.
  - split; [lia|]. intros b [->|H]%elem_of_cons; [set_solver|]. set_solver.
  - split; [lia|set_solver].
Qed.

(** A request is a part of a line that fits the buffer, so it is well formed. *)
Lemma record_request_wf l r :
  (length l < Z.to_nat REQBUF)%nat -> record_request l = Some r -> wf_request r.
Proof.
  unfold record_request, strtok_r. intros Hl.
  pose proof (drop_while_length (is_delim [newline]) (c_str l)) as Hd.
  pose proof (drop_while_subset (is_delim [newline]) (c_str l)) as Hs.
  destruct (drop_while _ _) as [|b s]; [done|]. cbn zeta. intros [= <-].
  destruct (take_while_spec (fun b => bool_decide (b <> NUL)) l) as [Hc Hn].
  fold (c_str l) in Hc, Hn.
  destruct (take_while_spec (fun b => negb (is_delim [newline] b)) (b :: s)) as [Ht Hm].
  split.
  - intros Hin. apply Hm in Hin as [Hin _]. apply Hs, Hn in Hin as [_ Hin].
    by apply bool_decide_eq_true in Hin.
  - unfold len, line_size, REQBUF, MAXDIRPATH, MAXKEYWORD in *. cbn [take_while] in Ht. lia.
Qed.

Lemma client_requests_wf file rs : client_requests file = Some rs -> Forall wf_request rs.
Proof.
  unfold client_requests. intros H. apply mapM_Some in H.
  pose proof (records_length (Z.to_nat REQBUF) file ltac:(compute; lia)) as L.
  induction H as [|l r ls rs Hr H IH]; constructor; inversion L; subst.
  - eapply record_request_wf; [|done]. lia.
  - by apply IH.
Qed.

(** ** The system *)

(** The requests the server has taken from the queue and called [fork] for. *)
Definition received (s : sys) : list cstr := rev (map fst (forked s)).

(** *** What each program counter holds *)

(** A request the client has read from its file and not yet written. *)
Definition c_unsent (p : cpc) : list cstr :=
  match p with CWaitEmpty r | CWaitMutex r | CWrite r => [r] | _ => [] end.
(** A request written while [back] still points to its start. *)
Definition c_written (p : cpc) : list cstr :=
  match p with CPostMutex r | CPostFull r | CAdvance r => [r] | _ => [] end.
Definition c_slot (p : cpc) : Z := match p with CWaitMutex _ | CWrite _ => 1 | _ => 0 end.
Definition c_crit (p : cpc) : Z := match p with CWrite _ | CPostMutex _ => 1 | _ => 0 end.
Definition c_unposted (p : cpc) : Z :=
  match p with CPostMutex _ | CPostFull _ => 1 | _ => 0 end.
Definition s_taken (p : spc) : Z := match p with SWaitMutex | SRead => 1 | _ => 0 end.
Definition s_crit (p : spc) : Z := match p with SRead | SPostMutex => 1 | _ => 0 end.
Definition s_unfreed (p : spc) : Z := match p with SPostMutex | SPostEmpty => 1 | _ => 0 end.
(** The request read while [front] still points to its start. *)
Definition s_read (p : spc) (r : cstr) : list cstr :=
  match p with SPostMutex | SPostEmpty | SAdvance => [r] | _ => [] end.
(** The request read and not yet forked for. *)
Definition s_unforked (p : spc) (r : cstr) : list cstr :=
  match p with SPostMutex | SPostEmpty | SAdvance | SFork => [r] | _ => [] end.

(** The server has left the loop. *)
Definition s_left (p : spc) : bool := match p with SReap _ | SDone _ => true | _ => false end.
(** The server is in the loop, past its condition. *)
Definition s_inside (p : spc) : bool :=
  match p with STest | SReap _ | SDone _ => false | _ => true end.

Definition exit_request : cstr := lit "exit".

Section System.
Context (n : Z) (n_pos : 0 < n).
Context (rs : list cstr) (rs_wf : Forall wf_request rs).

Definition size : Z := n * line_size.

Lemma line_le_size : line_size <= size.
Proof using n_pos. unfold size, line_size, MAXDIRPATH, MAXKEYWORD. lia. Qed.

(** [q]: the requests in the memory; [todo]: those still in the file. *)
Record inv (q todo : list cstr) (s : sys) : Prop := {
  inv_file : client_requests (c_file s) = Some todo;
  inv_done : c_pc s = CDone -> todo = [];
  inv_cwf : Forall wf_request (c_written (c_pc s));
  inv_order : rs = received s ++ s_unforked (s_pc s) (request_buffer s) ++ q
                   ++ c_unsent (c_pc s) ++ todo;
  inv_len : len (mem s) = size + 3;
  inv_nul : at_ (mem s) size = Some NUL;
  inv_csize : q_size (c_queue s) = size;
  inv_ssize : q_size (s_queue s) = size;
  inv_back : 0 <= q_pos (c_queue s) < size;
  inv_front : 0 <= q_pos (s_queue s) < size;
  inv_pending : pending size (mem s)
    (q_pos (s_queue s) + span (s_read (s_pc s) (request_buffer s))) q;
  inv_ring : (q_pos (c_queue s) + span (c_written (c_pc s))) mod size =
    (q_pos (s_queue s) + span (s_read (s_pc s) (request_buffer s)) + span q) mod size;
  inv_space : unsplit_all size
    ((q_pos (c_queue s) + span (c_written (c_pc s))) mod size) (c_unsent (c_pc s) ++ todo) = true;
  inv_mutex : mutex s = 1 - c_crit (c_pc s) - s_crit (s_pc s) /\ 0 <= mutex s;
  inv_full : full s = Z.of_nat (length q) - c_unposted (c_pc s) - s_taken (s_pc s) /\ 0 <= full s;
  inv_empty : empty s = n - Z.of_nat (length q) - c_slot (c_pc s) - s_unfreed (s_pc s)
              /\ 0 <= empty s;
  inv_pid : pid s = match head (forked s) with Some (_, false) => -1 | _ => 1 end;
  inv_count : process_count s = length (forked s);
  inv_last : s_inside (s_pc s) = false ->
             request_buffer s = default [] (fst <$> head (forked s));
  inv_exit : s_left (s_pc s) = true -> request_buffer s = exit_request }.

(** The requests in the memory fit in the ring together with one more, whenever the
    client holds a slot for it. *)
Lemma ring_room q r :
  Forall wf_request q -> wf_request r -> Z.of_nat (length q) + 1 <= n ->
  span q + len r + 1 <= size.
Proof using n_pos.
  intros Hq [_ Hr] Hn. pose proof (span_bound q Hq). unfold size.
  assert (0 <= line_size) by done.
  pose proof (Z.mul_le_mono_nonneg_r _ _ line_size ltac:(done) Hn). lia.
Qed.

Lemma inv_wf q todo s :
  inv q todo s ->
  Forall wf_request q /\ Forall wf_request (c_unsent (c_pc s)) /\
  Forall wf_request (s_unforked (s_pc s) (request_buffer s)).
Proof using rs_wf.
  intros [_ _ _ Ho _ _ _ _ _ _ _ _ _ _ _ _ _ _ _ _]. rewrite Ho, !Forall_app in rs_wf. naive_solver.
Qed.

(** Closes the fields of the invariant that a step does not touch. *)
Ltac same_fields := constructor; simpl in *; try done; try lia.

Lemma client_write_inv q todo s r :
  inv q todo s -> c_pc s = CWrite r ->
  exists m, enqueue_write (mem s) (c_queue s) r = Ok m /\
  inv (q ++ [r]) todo (with_mem m (with_cpc (CPostMutex r) s)).
Proof using n_pos rs_wf.
  intros I E. destruct (inv_wf _ _ _ I) as (Wq & Wr & _).
  destruct s as [m e f x pc [b sz] file sp [fr sz'] rb pcnt pd fk]. simpl in E. subst pc.
  destruct I as [If Id Iw Io Il In Ics Iss Ib Ifr Ip Ir Is [Im Im'] [Ifu Ifu'] [Ie Ie'] Ipd Ipc Ila Iex].
  simpl in *. subst sz sz'. pose proof (size_pos size line_le_size). apply Forall_cons in Wr as [Wr _].
  rewrite Z.add_0_r in Ir, Is. rewrite Z.mod_small in Is by done.
  rewrite Z.mod_small in Ir by done.
  apply andb_true_iff in Is as [Iu Is].
  destruct (enqueue_write_spec size line_le_size m b r Il In Ib Wr Iu) as (m' & Ew & W).
  exists m'. split; [done|]. pose proof W as (Hl & Hz & _).
  assert (s_unfreed sp >= 0) by (destruct sp; simpl; lia).
  constructor; simpl; try done; try lia.
  - by constructor.
  - rewrite Io. rewrite <- !app_assoc. done.
  - rewrite Ir in W, Iu. apply (pending_written size line_le_size m); [done..|].
    apply ring_room; [done..|lia].
  - rewrite Ir, Z.add_mod_idemp_l by lia. rewrite span_app. simpl. f_equal. lia.
  - by rewrite <- Is, Z.add_0_r, Z.add_assoc.
  - rewrite length_app. simpl. lia.
  - rewrite length_app. simpl. lia.
Qed.

(** Destructs a state and its invariant. *)
Ltac open_inv s I :=
  destruct s as [m e f x pc [b sz] file sp [fr sz'] rb pcnt pd fk];
  destruct I as [If Id Iw Io Il In Ics Iss Ib Ifr Ip Ir Is [Im Im'] [Ifu Ifu'] [Ie Ie'] Ipd Ipc Ila Iex];
  simpl in *; subst sz sz'; pose proof (size_pos size line_le_size).

(** Every step the client can take is defined and keeps the invariant. *)
Lemma client_step_inv q todo s o :
  inv q todo s -> client_step s = Some o ->
  exists s' q' todo', o = Ok s' /\ inv q' todo' s'.
Proof using n_pos rs_wf.
  intros I. unfold client_step. destruct (c_pc s) as [|r|r|r|r|r|r|] eqn:E; [ | | | | | | |done].
  - pose proof (inv_file _ _ _ I) as F. rewrite client_requests_unfold in F. intros [= <-].
    open_inv s I. subst pc. destruct (fgets _ file) as [[l file']|].
    + unfold record_request in F. destruct (strtok_r _ (c_str l)) as [[r r']|]; [|done].
      simpl in F. destruct (client_requests file') as [rs'|] eqn:E'; [|done].
      injection F as <-. do 3 eexists. split; [done|]. same_fields.
    + injection F as <-. do 3 eexists. split; [done|]. same_fields.
  - destruct (Z.ltb_spec 0 (empty s)); [|done]. intros [= <-].
    open_inv s I. subst pc. do 3 eexists. split; [done|]. same_fields.
  - destruct (Z.ltb_spec 0 (mutex s)); [|done]. intros [= <-].
    open_inv s I. subst pc. do 3 eexists. split; [done|]. same_fields.
  - intros [= <-]. destruct (client_write_inv _ _ _ _ I E) as (m & -> & I'). eauto.
  - intros [= <-]. open_inv s I. subst pc. do 3 eexists. split; [done|]. same_fields.
  - intros [= <-]. open_inv s I. subst pc. do 3 eexists. split; [done|]. same_fields.
  - intros [= <-]. assert (W : wf_request r).
    { pose proof (inv_cwf _ _ _ I) as W. rewrite E in W. by inversion W. }
    open_inv s I. subst pc.
    rewrite advance_spec by (done || apply line_le_size). do 3 eexists. split; [done|].
    same_fields; [by apply Z.mod_pos_bound| |]; rewrite !Z.add_0_r, Z.mod_mod in * by lia;
      by rewrite <- Z.add_assoc.
Qed.

Lemma server_read_inv q todo s :
  inv q todo s -> s_pc s = SRead ->
  exists r q', q = r :: q' /\ dequeue_read (mem s) (s_queue s) = Ok (mem s, r) /\
    inv q' todo (with_mem (mem s) (with_request r (with_spc SPostMutex s))).
Proof using n_pos rs_wf.
  intros I E. destruct (inv_wf _ _ _ I) as (Wq & _ & _).
  open_inv s I. subst sp. simpl in *.
  assert (c_unposted pc >= 0) by (destruct pc; simpl; lia).
  destruct q as [|r q]; [simpl in *; lia|]. exists r, q. split; [done|].
  apply Forall_cons in Wq as [Wr Wq]. destruct Ip as [[_ Hs] Ip].
  rewrite Z.add_0_r, Z.mod_small in Hs by done. split.
  - by apply dequeue_read_spec; [apply line_le_size|..].
  - same_fields.
    + by replace (fr + (len r + 1 + 0)) with (fr + 0 + len r + 1) by lia.
    + rewrite Ir. f_equal. lia.
Qed.

(** Every step the server can take is defined, up to [exit (1)] after a failed
    [fork], and keeps the invariant. *)
Lemma server_step_inv forks q todo s o :
  inv q todo s -> server_step forks s = Some o ->
  (o = Exit 1 /\ s_pc s = STest /\ request_buffer s = exit_request /\ pid s < 0) \/
  exists s' q' todo', o = Ok s' /\ inv q' todo' s'.
Proof using n_pos rs_wf.
  intros I. destruct (inv_wf _ _ _ I) as (_ & _ & Wr).
  unfold server_step. destruct (s_pc s) as [| | | | | | | |[|k]|] eqn:E; [ | | | | | | | | | |done].
  - assert (pid s <> 0) as P.
    { rewrite (inv_pid _ _ _ I). by destruct (head (forked s)) as [[? []]|]. }
    rewrite (proj2 (Z.eqb_neq _ _) P). simpl.
    destruct (Z.eqb_spec (strcmp (request_buffer s) (lit "exit")) 0) as [X|X]; simpl.
    + apply strcmp_eq in X. destruct (Z.ltb_spec (pid s) 0); intros [= <-]; [by left|right].
      open_inv s I. subst sp. do 3 eexists. split; [done|]. same_fields.
    + intros [= <-]. right. open_inv s I. subst sp. do 3 eexists. split; [done|]. same_fields.
  - destruct (Z.ltb_spec 0 (full s)); [|done]. intros [= <-]. right.
    open_inv s I. subst sp. do 3 eexists. split; [done|]. same_fields.
  - destruct (Z.ltb_spec 0 (mutex s)); [|done]. intros [= <-]. right.
    open_inv s I. subst sp. do 3 eexists. split; [done|]. same_fields.
  - intros [= <-]. right. destruct (server_read_inv _ _ _ I E) as (r & q' & -> & -> & I'). simpl. eauto.
  - intros [= <-]. right. open_inv s I. subst sp. do 3 eexists. split; [done|]. same_fields.
  - intros [= <-]. right. open_inv s I. subst sp. do 3 eexists. split; [done|]. same_fields.
  - intros [= <-]. right. apply Forall_cons in Wr as [Wr _].
    open_inv s I. subst sp. simpl in *.
    rewrite advance_spec by (done || apply line_le_size). do 3 eexists. split; [done|].
    same_fields; [by apply Z.mod_pos_bound| |].
    + rewrite Z.add_0_r. apply pending_mod; [apply line_le_size|].
      by replace (fr + len rb + 1) with (fr + (len rb + 1 + 0)) by lia.
    + rewrite Ir, <- (Z.add_assoc (_ mod _)), Z.add_mod_idemp_l by lia. f_equal. lia.
  - intros [= <-]. right. open_inv s I. subst sp. do 3 eexists. split; [done|].
    same_fields.
    unfold received. simpl. rewrite <- app_assoc. done.
  - intros [= <-]. right. open_inv s I. subst sp. do 3 eexists. split; [done|]. same_fields.
  - intros [= <-]. right. open_inv s I. subst sp. do 3 eexists. split; [done|]. same_fields.
Qed.
End System.
