(* ===== verification/RequestDelivery.v ===== *)
(** * Client and server on the request queue: the theorems

    Delivery, progress and termination for every interleaving, from the invariant
    of RequestSystem; and what happens to the first request that the end of the
    buffer splits. *)

From S2P Require Import Prelude CString ByteMem RequestQueue RequestRing RequestSystem.

(** ** The start *)

Lemma at_replicate k b i : 0 <= i < Z.of_nat k -> at_ (replicate k b) i = Some b.
Proof. intros H. unfold at_. apply lookup_replicate_2. lia. Qed.

(** On a fresh system the queue is empty and zeroed, with [n] slots free. *)
Lemma create_queue_ok n :
  0 < n -> n * line_size + 3 < 2 ^ 31 ->
  exists m, create_queue true (Os None None None None) n
      = Ok (Os (Some m) (Some n) (Some 0) (Some 1), Queue 0 (size n))
    /\ len m = size n + 3 /\ at_ m (size n) = Some NUL.
Proof.
  intros Hn Hs. pose proof (line_le_size n Hn) as Hl. unfold size in *.
  assert (0 < line_size) by done.
  assert (Hi : i32 (n * line_size) = n * line_size) by (apply i32_id; lia).
  unfold create_queue, create_shared_memory. cbn [o_queue default rbind deref]. rewrite Hi.
  set (m := ftruncate [] _).
  assert (Hm : m = replicate (Z.to_nat (n * line_size + 3)) NUL).
  { unfold m, ftruncate. cbn [app length]. rewrite Nat.sub_0_r, take_replicate, Nat.min_id.
    f_equal. lia. }
  assert (Hlen : len m = n * line_size + 3) by (rewrite Hm; unfold len; rewrite length_replicate; lia).
  destruct (write_at_spec m (n * line_size + 1) (le_encode 2 0)) as (m' & E & Hm' & H');
    [lia|change (n * line_size + 1 + 2 <= len m); lia|].
  unfold poke16. rewrite E. cbn. exists m'. split_and!; [done|lia|]. rewrite H' by lia.
  rewrite (proj2 (Z.leb_gt _ _)) by lia. simpl. rewrite Hm. apply at_replicate. lia.
Qed.

Lemma boot_ok fopen size_arg buffer_arg input n file :
  atoi size_arg = n -> fopen input = Some file -> 0 < n -> n * line_size + 3 < 2 ^ 31 ->
  exists m, boot fopen [size_arg; buffer_arg] [size_arg; input]
      = Ok (Sys m n 0 1 CNext (Queue 0 (size n)) file STest (Queue 0 (size n)) [] 0 1 [])
    /\ len m = size n + 3 /\ at_ m (size n) = Some NUL.
Proof.
  intros Ha Hf Hn Hs. destruct (create_queue_ok n Hn Hs) as (m & E & Hm). exists m. split; [|done].
  unfold boot, server_main, client_main, open_queue, open_shared_memory. rewrite Ha, E. cbn [rbind o_queue].
  rewrite Hf. cbn [deref rbind o_queue o_empty o_full o_mutex]. rewrite i32_id; [done|].
  assert (0 < line_size) by done. nia.
Qed.

Section Delivery.
Context (n : Z) (n_pos : 0 < n).
Context (file : list byte) (rs : list cstr) (Hfile : client_requests file = Some rs).

Let rs_wf : Forall wf_request rs := client_requests_wf file rs Hfile.

(** A state together with the requests in the memory and in the file. *)
Definition good (s : sys) : Prop := exists q todo, inv n rs q todo s.

Lemma good_client s o : good s -> client_step s = Some o -> exists s', o = Ok s' /\ good s'.
Proof using n_pos Hfile.
  intros (q & todo & I) E.
  destruct (client_step_inv n n_pos rs rs_wf q todo s o I E) as (s' & q' & todo' & -> & I').
  exists s'. split; [done|]. by exists q', todo'.
Qed.

Lemma good_server b s o :
  good s -> server_step b s = Some o ->
  (o = Exit 1 /\ s_pc s = STest /\ request_buffer s = exit_request /\ pid s < 0) \/
  exists s', o = Ok s' /\ good s'.
Proof using n_pos Hfile.
  intros (q & todo & I) E.
  destruct (server_step_inv n n_pos rs rs_wf b q todo s o I E) as [?|(s' & q' & todo' & -> & I')];
    [by left|]. right. exists s'. split; [done|]. by exists q', todo'.
Qed.

Lemma good_step s s' : good s -> step s s' -> good s'.
Proof using n_pos Hfile.
  intros I Hst. destruct Hst as [s s' E|b s s' E].
  - by destruct (good_client _ _ I E) as (s3 & [= ->] & I').
  - destruct (good_server _ _ _ I E) as [([=] & _)|(s3 & [= ->] & I')]. done.
Qed.

(** ** Termination *)

Definition c_rank (p : cpc) : nat :=
  match p with
  | CDone => 0 | CNext => 1 | CAdvance _ => 2 | CPostFull _ => 3 | CPostMutex _ => 4
  | CWrite _ => 5 | CWaitMutex _ => 6 | CWaitEmpty _ => 7
  end.

Definition s_rank (p : spc) : nat :=
  match p with
  | SDone _ => 0 | SReap k => S k
  | SRead => 3 + length rs | SWaitMutex => 4 + length rs | SWaitFull => 5 + length rs
  | STest => 6 + length rs | SFork => 7 + length rs | SAdvance => 8 + length rs
  | SPostEmpty => 9 + length rs | SPostMutex => 10 + length rs
  end.

(** What both processes still have to do. *)
Definition work (s : sys) : nat :=
  8 * length (default [] (client_requests (c_file s))) + c_rank (c_pc s)
  + (9 * (length rs - (length (forked s) + length (s_unforked (s_pc s) (request_buffer s))))
     + s_rank (s_pc s)).

Lemma good_counts s :
  good s -> (length (forked s) + length (s_unforked (s_pc s) (request_buffer s)) <= length rs)%nat.
Proof.
  intros (q & todo & I). rewrite (inv_order _ _ _ _ _ I). unfold received.
  rewrite !length_app, length_rev, length_map. lia.
Qed.

Lemma client_work s s' :
  client_step s = Some (Ok s') -> client_requests (c_file s) <> None ->
  (8 * length (default [] (client_requests (c_file s'))) + c_rank (c_pc s')
   < 8 * length (default [] (client_requests (c_file s))) + c_rank (c_pc s))%nat
  /\ forked s' = forked s /\ s_pc s' = s_pc s /\ request_buffer s' = request_buffer s.
Proof.
  intros E F. unfold client_step in E.
  destruct s as [m e f x [|r|r|r|r|r|r|] cq fl sp sq rb pcnt pd fk]; simpl in *; try done;
    try (case_match; [|done]); injection E as E; inv_ok; try subst s'; simpl; try (split_and!; [lia|done..]).
  rewrite (client_requests_unfold fl) in F |- *.
  destruct (fgets _ fl) as [[l fl']|] eqn:Ef; simpl in *.
  - unfold record_request in *. destruct (strtok_r _ _) as [[r ?]|]; [|done]. simpl in *.
    injection E as <-. simpl. destruct (client_requests fl') as [t|]; [|done]. simpl.
    split_and!; [lia|done..].
  - injection E as <-. simpl. rewrite client_requests_unfold, Ef. simpl.
    split_and!; [lia|done..].
Qed.

Lemma server_work b s s' :
  server_step b s = Some (Ok s') -> process_count s = length (forked s) ->
  (length (forked s) + length (s_unforked (s_pc s) (request_buffer s)) <= length rs)%nat ->
  (length (forked s') + length (s_unforked (s_pc s') (request_buffer s')) <= length rs)%nat ->
  (9 * (length rs - (length (forked s') + length (s_unforked (s_pc s') (request_buffer s'))))
     + s_rank (s_pc s')
   < 9 * (length rs - (length (forked s) + length (s_unforked (s_pc s) (request_buffer s))))
     + s_rank (s_pc s))%nat
  /\ c_pc s' = c_pc s /\ c_file s' = c_file s.
Proof.
  intros E N C C'. unfold server_step in E.
  destruct s as [m e f x cp cq fl [| | | | | | | |[|k]|] sq rb pcnt pd fk]; simpl in *; try done;
    repeat (case_match; try done); injection E as E; inv_ok;
    try (destruct a as [m' r]; inv_ok); try subst s'; simpl in *; split_and!; try done; lia.
Qed.

Lemma step_work s s' : good s -> step s s' -> good s' /\ (work s' < work s)%nat.
Proof using n_pos Hfile.
  intros I Hst. pose proof (good_step _ _ I Hst) as I'. split; [done|].
  pose proof (good_counts _ I) as C. pose proof (good_counts _ I') as C'. unfold work.
  destruct I as (q & todo & I). pose proof (inv_file _ _ _ _ _ I) as F.
  pose proof (inv_count _ _ _ _ _ I) as N. destruct Hst as [s s' E|b s s' E].
  - destruct (client_work s s' E) as (W & -> & -> & ->); [by rewrite F|]. lia.
  - destruct (server_work b s s' E N C C') as (W & -> & ->). lia.
Qed.

(** ** Progress *)

(** Where nothing can step, the mutex is free. *)
Lemma stuck_shape s :
  good s -> (forall s', ~ step s s') ->
  (c_pc s = CDone \/ exists r, c_pc s = CWaitEmpty r /\ empty s <= 0) /\
  (s_pc s = SDone true \/ s_pc s = SDone false \/ (s_pc s = SWaitFull /\ full s <= 0) \/
   (s_pc s = STest /\ request_buffer s = exit_request /\ pid s < 0)).
Proof using n_pos Hfile.
  intros I Hst.
  assert (Hc : forall o, client_step s = Some o -> False).
  { intros o E. destruct (good_client _ _ I E) as (s' & -> & _). by eapply Hst, step_client. }
  assert (Hs : forall o, server_step true s = Some o ->
            s_pc s = STest /\ request_buffer s = exit_request /\ pid s < 0).
  { intros o E. destruct (good_server _ _ _ I E) as [(_ & ?)|(s' & -> & _)]; [done|].
    exfalso. by eapply Hst, step_server. }
  destruct I as (q & todo & I). pose proof (inv_mutex _ _ _ _ _ I) as [M _].
  assert (Hcrit : 0 < mutex s).
  { rewrite M. unfold client_step in Hc. unfold server_step in Hs.
    destruct (c_pc s); simpl; try (exfalso; by eapply Hc);
      destruct (s_pc s); simpl; try lia; by destruct (Hs _ eq_refl). }
  unfold client_step in Hc. unfold server_step in Hs. apply Z.ltb_lt in Hcrit. split.
  - destruct (c_pc s) as [|r|r|r|r|r|r|] eqn:E; rewrite ?Hcrit in Hc; try (exfalso; by eapply Hc).
    + right. exists r. split; [done|]. destruct (Z.ltb_spec 0 (empty s)); [|lia].
      exfalso. by eapply Hc.
    + by left.
  - destruct (s_pc s) as [| | | | | | | |[]|[]] eqn:E; rewrite ?Hcrit in Hs; auto;
      try by destruct (Hs _ eq_refl).
    + do 3 right. case_match; [by eapply Hs|]. case_match; by eapply Hs.
    + destruct (Z.ltb_spec 0 (full s)); [by destruct (Hs _ eq_refl)|]. do 2 right. left. by split.
Qed.

(** A request equal to "exit" is the last one. *)
Definition exit_last : Prop := forall a b, rs = a ++ exit_request :: b -> b = [].

(** In the loop's condition and after the loop the last forked request is in the
    buffer. *)
Lemma exit_received s q todo :
  inv n rs q todo s -> s_inside (s_pc s) = false -> request_buffer s = exit_request -> exit_last ->
  q = [] /\ c_unsent (c_pc s) = [] /\ todo = [] /\ received s = rs.
Proof.
  intros I Hi Hr Hx. pose proof (inv_order _ _ _ _ _ I) as O.
  pose proof (inv_last _ _ _ _ _ I Hi) as L. rewrite Hr in L.
  assert (s_unforked (s_pc s) (request_buffer s) = []) as E by (by destruct (s_pc s)).
  unfold received in *. rewrite E in O.
  destruct (forked s) as [|[x b] fk]; [done|]. simpl in L, O. subst x.
  rewrite <- app_assoc in O. cbn [app] in O.
  pose proof (Hx _ _ O) as Hn. apply app_nil in Hn as [-> Hn]. apply app_nil in Hn as [Hn ->].
  rewrite Hn in O. split_and!; [done..|]. rewrite O. done.
Qed.

(** Where nothing can step any more, everything has been delivered. *)
Lemma stuck_delivered s :
  good s -> (forall s', ~ step s s') -> exit_last -> c_pc s = CDone /\ received s = rs.
Proof using n_pos Hfile.
  intros I Hst Hx. destruct (stuck_shape s I Hst) as [Hc Hs]. destruct I as (q & todo & I).
  pose proof (inv_full _ _ _ _ _ I) as [Hfu _]. pose proof (inv_empty _ _ _ _ _ I) as [Hem _].
  pose proof (inv_order _ _ _ _ _ I) as O. pose proof (inv_done _ _ _ _ _ I) as D.
  destruct (decide (s_inside (s_pc s) = false)) as [Hin|Hin].
  - assert (request_buffer s = exit_request) as Hr.
    { destruct Hs as [E|[E|[[E _]|(_ & E & _)]]]; [..|done].
      1-2: by apply (inv_exit _ _ _ _ _ I); rewrite E.
      by rewrite E in Hin. }
    destruct (exit_received s q todo I Hin Hr Hx) as (-> & Hu & -> & ->). split; [|done].
    destruct Hc as [?|(r & E & _)]; [done|]. by rewrite E in Hu.
  - destruct Hs as [E|[E|[[E Hf]|(E & _)]]]; rewrite E in Hin; try done.
    rewrite E in Hfu, Hem, O. simpl in *. destruct Hc as [Hc|(r & Hc & He)].
    + rewrite Hc in Hfu, O. simpl in *. destruct q; simpl in *; [|lia].
      rewrite (D Hc) in O. rewrite app_nil_r in O. done.
    + rewrite Hc in Hfu, Hem. simpl in *. lia.
Qed.
End Delivery.

Lemma boot_good fopen size_arg buffer_arg input n file rs :
  atoi size_arg = n -> fopen input = Some file -> 0 < n -> n * line_size + 3 < 2 ^ 31 ->
  client_requests file = Some rs -> unsplit_all (size n) 0 rs = true ->
  exists s0, boot fopen [size_arg; buffer_arg] [size_arg; input] = Ok s0 /\ good n rs s0 /\
    work rs s0 = (18 * length rs + 7)%nat.
Proof.
  intros Ha Hi Hn Hs Hf Hu.
  destruct (boot_ok fopen size_arg buffer_arg input n file Ha Hi Hn Hs) as (m & E & Hm & Hz).
  eexists. split; [done|]. split; [|unfold work; simpl; rewrite Hf; simpl; lia].
  exists [], rs. pose proof (size_pos (size n) (line_le_size n Hn)).
  constructor; simpl; try done; try lia; rewrite ?Zmod_0_l; done.
Qed.

(** ** A request split by the end of the buffer *)

(** The part before the end and the overlap after such a write. *)
Lemma split_write n m b r offset :
  0 < n -> len m = size n + 3 -> 0 <= b -> wf_request r ->
  offset = size n - b -> 0 < offset < len r ->
  exists m', enqueue_write m (Queue b (size n)) r = Ok m' /\ len m' = size n + 3 /\
    peek16 m' (size n + 1) = Ok offset /\ stored m' b (take (Z.to_nat offset) r).
Proof.
  intros Hn Hm Hb Hr -> Hk. pose proof (line_le_size n Hn) as Hsz. pose proof Hr as [_ Hl].
  set (k := size n - b) in *. set (t := take (Z.to_nat k) r).
  assert (Hu : u16 k = k) by (apply u16_id; unfold line_size, MAXDIRPATH, MAXKEYWORD in *; lia).
  assert (Ht : len t = k) by (unfold t, len in *; rewrite length_take; lia).
  assert (Hd : len (drop (Z.to_nat k) r) = len r - k) by (unfold len in *; rewrite length_drop; lia).
  unfold enqueue_write. simpl. rewrite reqlen_wf by done. fold k. rewrite Hu.
  rewrite (proj2 (Z.leb_gt _ _)) by lia. unfold snprintf_s. rewrite (proj2 (Z.ltb_lt _ _)) by lia.
  replace (k + 1 - 1) with k by lia. fold t.
  destruct (write_at_spec m b (t ++ [NUL])) as (m1 & E1 & Hm1 & H1); [lia|rewrite len_snoc; lia|].
  rewrite E1. simpl. rewrite (proj2 (Z.leb_le _ _)) by lia.
  destruct (write_at_spec m1 0 (drop (Z.to_nat k) r ++ [NUL])) as (m2 & E2 & Hm2 & H2);
    [lia|rewrite len_snoc; lia|].
  unfold sprintf_s. rewrite E2. simpl rbind. rewrite len_snoc, Hd in H2.
  assert (Hle : len (le_encode 2 k) = 2) by (unfold len; by rewrite length_le_encode).
  destruct (write_at_spec m2 (size n + 1) (le_encode 2 k)) as (m3 & E3 & Hm3 & H3); [lia..|].
  exists m3. split_and!; [done|lia| |].
  - eapply peek_poke16; [|done]. unfold line_size, MAXDIRPATH, MAXKEYWORD in *. lia.
  - intros j Hj. rewrite H3, H2 by lia. rewrite (proj2 (Z.leb_gt (size n + 1) _)) by lia.
    simpl. rewrite (proj2 (Z.ltb_ge (b + j) _)), andb_false_r by lia.
    apply (stored_write m b t m1); [lia|lia|done|lia].
Qed.

(** ** Properties *)

(** C20: a server started on a fresh queue of [n] slots and a single client started
    with the same size, which sends the lines [rs] of its file, when no line is split by
    the end of the buffer: in every interleaving the server receives a prefix of [rs],
    in order and unchanged; the two processes are never in the critical section
    together; and no step is undefined behaviour (the server may call [exit (1)]
    after a failed [fork]). *)
Theorem queue_delivers_in_order fopen size_arg buffer_arg input n file rs :
  atoi size_arg = n -> fopen input = Some file -> 0 < n -> n * line_size + 3 < 2 ^ 31 ->
  client_requests file = Some rs -> unsplit_all (size n) 0 rs = true ->
  exists s0, boot fopen [size_arg; buffer_arg] [size_arg; input] = Ok s0 /\
    forall s, rtc step s0 s ->
      received s `prefix_of` rs /\
      ~ (c_crit (c_pc s) = 1 /\ s_crit (s_pc s) = 1) /\
      (forall o, client_step s = Some o -> is_ok o = true) /\
      (forall b o, server_step b s = Some o -> is_ok o = true \/ o = Exit 1).
Proof.
  intros Ha Hi Hn Hs Hf Hu.
  destruct (boot_good fopen size_arg buffer_arg input n file rs Ha Hi Hn Hs Hf Hu) as (s0 & E & G0 & _).
  exists s0. split; [done|]. intros s Hr.
  assert (G : good n rs s).
  { eapply rtc_invariant; [|done..]. intros s1 s2. by apply (good_step n Hn file rs Hf). }
  split_and!.
  - destruct G as (q & todo & I). rewrite (inv_order _ _ _ _ _ I) at 1. by apply prefix_app_r.
  - destruct G as (q & todo & I). pose proof (inv_mutex _ _ _ _ _ I). lia.
  - intros o Ho. by destruct (good_client n Hn file rs Hf _ _ G Ho) as (s' & -> & _).
  - intros b o Ho.
    destruct (good_server n Hn file rs Hf _ _ _ G Ho) as [(-> & _)|(s' & -> & _)]; auto.
Qed.

(** C17: under the same conditions, when "exit" can only be the last line: every run
    ends (after at most [18 * length rs + 7] steps), and a run can only end with the
    client finished and every request received: there is no deadlock and no lost
    wake-up. *)
Theorem queue_delivers_all fopen size_arg buffer_arg input n file rs :
  atoi size_arg = n -> fopen input = Some file -> 0 < n -> n * line_size + 3 < 2 ^ 31 ->
  client_requests file = Some rs -> unsplit_all (size n) 0 rs = true -> exit_last rs ->
  exists s0, boot fopen [size_arg; buffer_arg] [size_arg; input] = Ok s0 /\
    (forall k s, nsteps step k s0 s -> (k <= 18 * length rs + 7)%nat) /\
    (forall s, rtc step s0 s -> (forall s', ~ step s s') -> c_pc s = CDone /\ received s = rs).
Proof.
  intros Ha Hi Hn Hs Hf Hu Hx.
  destruct (boot_good fopen size_arg buffer_arg input n file rs Ha Hi Hn Hs Hf Hu) as (s0 & E & G0 & W0).
  exists s0. split_and!; [done|..].
  - intros k s Hk. pose proof (nsteps_measure step (good n rs) (work rs)
      (step_work n Hn file rs Hf) k s0 s Hk G0). lia.
  - intros s Hr Hst. apply (stuck_delivered n Hn file rs Hf); [|done..].
    eapply rtc_invariant; [|done..]. intros s1 s2. by apply (good_step n Hn file rs Hf).
Qed.

(** C36: the first request that the end of the buffer splits ([offset] bytes before
    the end, at least one more after it) is lost in part: the client records the
    overlap, but the condition in [dequeue] can never select the branch that uses
    it, so the server receives only the first [offset] bytes and goes on at
    position 1, while the client goes on behind the wrapped bytes. *)
Theorem split_request_is_truncated n m b r offset :
  0 < n -> len m = size n + 3 -> 0 <= b < size n -> wf_request r ->
  offset = size n - b -> offset < len r ->
  exists m', enqueue_write m (Queue b (size n)) r = Ok m' /\
    peek16 m' (size n + 1) = Ok offset /\
    dequeue_read m' (Queue b (size n)) = Ok (m', take (Z.to_nat offset) r) /\
    advance (Queue b (size n)) (take (Z.to_nat offset) r) = Ok (Queue 1 (size n)) /\
    advance (Queue b (size n)) r = Ok (Queue (len r + 1 - offset) (size n)).
Proof.
  intros Hn Hm Hb Hr Ho Hk.
  destruct (split_write n m b r offset) as (m' & E & Hm' & Hp & Hst); try done; try lia.
  exists m'. pose proof (line_le_size n Hn) as Hsz. pose proof (size_pos _ Hsz). pose proof Hr as [Hnul Hl].
  assert (Ht : len (take (Z.to_nat offset) r) = offset)
    by (unfold len in *; rewrite length_take; lia).
  assert (Wt : wf_request (take (Z.to_nat offset) r)).
  { split; [|lia]. intros Hin. apply Hnul. rewrite <- (take_drop (Z.to_nat offset) r). set_solver. }
  rewrite !advance_spec by done. rewrite Ht. split_and!; [done..| | |].
  - by apply dequeue_read_spec.
  - replace (b + offset + 1) with (1 + 1 * size n) by lia.
    rewrite Z.mod_add, Z.mod_small by (unfold line_size, MAXDIRPATH, MAXKEYWORD in *; lia). done.
  - replace (b + len r + 1) with (len r + 1 - offset + 1 * size n) by lia.
    rewrite Z.mod_add, Z.mod_small by lia. done.
Qed.

(** ** Witnesses *)

Lemma exit_last_snoc rs : exit_request ∉ rs -> exit_last (rs ++ [exit_request]).
Proof.
  intros Hn a b E. destruct b as [|x b _] using rev_ind; [done|].
  exfalso. apply Hn. rewrite app_comm_cons, app_assoc in E.
  apply app_inj_tail in E as [-> _]. set_solver.
Qed.

Module DemoQueue.
(** Two requests in a queue of one slot. *)
Definition file : list byte := lit "/tmp main" ++ newline :: lit "exit" ++ [newline].
Definition rs : list cstr := [lit "/tmp main"] ++ [exit_request].
Definition fopen (p : cstr) : option (list byte) :=
  if bool_decide (p = lit "in") then Some file else None.
End DemoQueue.

Lemma queue_delivers_in_order_witness :
  exists s0, boot DemoQueue.fopen [lit "1"; lit "5"] [lit "1"; lit "in"] = Ok s0 /\
    forall s, rtc step s0 s ->
      received s `prefix_of` DemoQueue.rs /\
      ~ (c_crit (c_pc s) = 1 /\ s_crit (s_pc s) = 1) /\
      (forall o, client_step s = Some o -> is_ok o = true) /\
      (forall b o, server_step b s = Some o -> is_ok o = true \/ o = Exit 1).
Proof.
  apply (queue_delivers_in_order DemoQueue.fopen (lit "1") (lit "5") (lit "in") 1 DemoQueue.file DemoQueue.rs);
    [vm_compute; reflexivity | reflexivity | lia | done | vm_compute; reflexivity | vm_compute; reflexivity].
Defined.

Lemma queue_delivers_all_witness :
  exists s0, boot DemoQueue.fopen [lit "1"; lit "5"] [lit "1"; lit "in"] = Ok s0 /\
    (forall k s, nsteps step k s0 s -> (k <= 43)%nat) /\
    (forall s, rtc step s0 s -> (forall s', ~ step s s') ->
       c_pc s = CDone /\ received s = DemoQueue.rs).
Proof.
  apply (queue_delivers_all DemoQueue.fopen (lit "1") (lit "5") (lit "in") 1 DemoQueue.file DemoQueue.rs);
    [vm_compute; reflexivity | reflexivity | lia | done | vm_compute; reflexivity | vm_compute; reflexivity | apply exit_last_snoc].
  apply (bool_decide_unpack _). vm_compute. exact I.
Defined.

(** Five bytes of the request fit before the end of a one-slot buffer. *)
Lemma split_request_is_truncated_witness :
  exists m', enqueue_write (replicate 1285 NUL) (Queue 1277 1282) (lit "/tmp main") = Ok m' /\
    peek16 m' 1283 = Ok 5 /\
    dequeue_read m' (Queue 1277 1282) = Ok (m', lit "/tmp ") /\
    advance (Queue 1277 1282) (lit "/tmp ") = Ok (Queue 1 1282) /\
    advance (Queue 1277 1282) (lit "/tmp main") = Ok (Queue 5 1282).
Proof.
  apply (split_request_is_truncated 1 (replicate 1285 NUL) 1277 (lit "/tmp main") 5);
    [lia | vm_compute; reflexivity | vm_compute; split; congruence | | done | vm_compute; reflexivity].
  split; [apply (bool_decide_unpack _); vm_compute; exact I | vm_compute; congruence].
Defined.
