(* ===== verification/ServerSearch.v ===== *)
(** * The server's workers: matching lines of a file

    [retrieve_keyword] of [client-server/server.c] reads a file twice: one stream
    finds the records that contain the keyword, the other follows it to copy their
    text.  [print_buffer] formats an item as [name:number:text]. *)

From S2P Require Import Prelude CString ByteMem KeywordCount.

Definition MAXLINESIZE : nat := 1024.
Definition MAXOUTSIZE : Z := 2048.

(** [struct Item].  The filename is a pointer into the storage of a directory
    entry, numbered here by the entry; the fields a function has not assigned are
    [None]. *)
Record Item := mkItem {
  filename : option nat;
  linenumber : Z;
  line : option (list byte) }.

(** The item that says that a worker has finished. *)
Definition dummyItem : Item := mkItem None (-1) None.

(** ** retrieve_keyword *)

(** The inner loop: is some token of the record equal to the keyword? *)
Fixpoint find_token (fuel : nat) (keyword s : cstr) : bool :=
  match fuel with
  | O => false
  | S f =>
      match strtok_r exclude s with
      | None => false
      | Some (token, saveptr) =>
          if strcmp token keyword =? 0 then true else find_token f keyword saveptr
      end
  end.

(** [for (i = lastsavedline; i < currentline; i++) fgets(item.line, 1024, lineptr)];
    at the end of the file [fgets] leaves the array as it is. *)
Fixpoint copy_line (k : nat) (text : option (list byte)) (lineptr : list byte) :
  option (list byte) * list byte :=
  match k with
  | O => (text, lineptr)
  | S k' => match fgets MAXLINESIZE lineptr with
            | None => copy_line k' text lineptr
            | Some (l, rest) => copy_line k' (Some l) rest
            end
  end.

(** The outer loop: the items handed to the buffer, in order. *)
Fixpoint scan_loop (fuel : nat) (name : nat) (keyword : cstr)
    (fileptr lineptr : list byte) (lastsavedline currentline : Z) : list Item :=
  match fuel with
  | O => []
  | S f =>
      match fgets MAXLINESIZE fileptr with
      | None => []
      | Some (filebuffer, fileptr') =>
          let currentline := currentline + 1 in
          let s := c_str filebuffer in
          if find_token (S (length s)) keyword s then
            let '(text, lineptr') :=
              copy_line (Z.to_nat (currentline - lastsavedline)) None lineptr in
            mkItem (Some name) currentline text
              :: scan_loop f name keyword fileptr' lineptr' currentline currentline
          else scan_loop f name keyword fileptr' lineptr lastsavedline currentline
      end
  end.

(** Everything a worker puts into the buffer.  Each iteration consumes a byte of
    the file, so its length bounds the loop. *)
Definition retrieve_keyword (name : nat) (keyword : cstr) (contents : list byte) : list Item :=
  scan_loop (S (length contents)) name keyword contents contents 0 0 ++ [dummyItem].

(** ** print_buffer: one item *)

(** [sprintf (linenumber, "%d", n)] into an array of five bytes. *)
Definition linenumber_buffer (n : Z) : res cstr :=
  if (length (dec n) + 1 <=? 5)%nat then Ok (dec n) else Undef BufferOverflow.

(** The line built in [linebuff]; [name] is what the filename points to. *)
Definition format_item (name : cstr) (it : Item) : res (list byte) :=
  let* number := linenumber_buffer (linenumber it) in
  let* text := (match line it with Some l => Ok (c_str l) | None => Undef Uninitialised end) in
  let linebuff := name ++ [colon] ++ number ++ [colon] ++ text in
  if len linebuff + 1 <=? MAXOUTSIZE then Ok linebuff else Undef BufferOverflow.

(** ** The reference search *)

Definition has_word (keyword : cstr) (r : list byte) : Prop :=
  keyword ∈ words (is_delim exclude) (c_str r).

#[export] Instance has_word_dec keyword r : Decision (has_word keyword r).
Proof. unfold has_word. apply _. Defined.

(** The records with their numbers, from [n + 1] on. *)
Fixpoint numbered (n : Z) (rs : list (list byte)) : list (Z * list byte) :=
  match rs with [] => [] | r :: rs' => (n + 1, r) :: numbered (n + 1) rs' end.

Definition matches (keyword : cstr) (n : Z) (rs : list (list byte)) : list (Z * list byte) :=
  filter (fun p => has_word keyword p.2) (numbered n rs).

Definition to_item (name : nat) (p : Z * list byte) : Item :=
  mkItem (Some name) p.1 (Some p.2).

(** The items of a file: one per record that contains the keyword. *)
Definition file_items (name : nat) (keyword : cstr) (contents : list byte) : list Item :=
  map (to_item name) (matches keyword 0 (records MAXLINESIZE contents)).

Lemma find_token_spec fuel keyword s :
  (length s < fuel)%nat ->
  find_token fuel keyword s = bool_decide (keyword ∈ words (is_delim exclude) s).
Proof.
  revert s. induction fuel as [|f IH]; intros s Hf; [lia|]. cbn [find_token].
  pose proof (strtok_r_words exclude s) as H.
  destruct (strtok_r exclude s) as [[t r]|].
  - destruct H as [-> Hr]. destruct (Z.eqb_spec (strcmp t keyword) 0) as [E|E];
      rewrite strcmp_eq in E.
    + rewrite bool_decide_true by set_solver. done.
    + rewrite IH by lia. apply bool_decide_ext. set_solver.
  - rewrite H. by rewrite bool_decide_false by set_solver.
Qed.

(** Following the records: after [k + 1] reads the text is the record [k]. *)
Lemma copy_line_records k text lp r rs :
  records MAXLINESIZE lp = take k (records MAXLINESIZE lp) ++ r :: rs ->
  (k < length (records MAXLINESIZE lp))%nat ->
  exists lp', copy_line (S k) text lp = (Some r, lp') /\ records MAXLINESIZE lp' = rs.
Proof.
  revert text lp. induction k as [|k IH]; intros text lp Hr Hk.
  - rewrite take_0 in Hr. cbn [app] in Hr. rewrite records_unfold in Hr by (unfold MAXLINESIZE; lia).
    cbn [copy_line]. destruct (fgets MAXLINESIZE lp) as [[l lp']|]; [|done].
    injection Hr as -> Hr. by exists lp'.
  - rewrite (records_unfold _ lp) in Hr, Hk by (unfold MAXLINESIZE; lia).
    cbn [copy_line]. destruct (fgets MAXLINESIZE lp) as [[l lp']|]; [|simpl in *; lia].
    cbn [take app length] in *. injection Hr as Hr. apply IH; [done|lia].
Qed.

Lemma scan_loop_spec fuel name keyword fp lp last cur skipped :
  (length fp < fuel)%nat -> 0 <= last <= cur ->
  records MAXLINESIZE lp = skipped ++ records MAXLINESIZE fp ->
  Z.of_nat (length skipped) = cur - last ->
  scan_loop fuel name keyword fp lp last cur =
    map (to_item name) (matches keyword cur (records MAXLINESIZE fp)).
Proof.
  revert fp lp last cur skipped. induction fuel as [|f IH]; intros fp lp last cur skipped Hf Hl Hlp Hs; [lia|].
  cbn [scan_loop]. rewrite (records_unfold _ fp) in Hlp |- * by (unfold MAXLINESIZE; lia).
  destruct (fgets MAXLINESIZE fp) as [[l fp']|] eqn:E; [|done].
  apply fgets_rest in E as (_ & _ & E); [|unfold MAXLINESIZE; lia].
  rewrite find_token_spec by lia. unfold matches. cbn [numbered]. rewrite filter_cons. cbn [snd].
  unfold has_word at 1. destruct (decide (keyword ∈ _)) as [Hin|Hin].
  - rewrite bool_decide_true by done.
    replace (Z.to_nat (cur + 1 - last)) with (S (length skipped)) by lia.
    destruct (copy_line_records (length skipped) None lp l (records MAXLINESIZE fp')) as (lp' & -> & Hlp').
    { rewrite Hlp, take_app_length. done. }
    { rewrite Hlp, length_app. simpl. lia. }
    cbn [map]. f_equal. apply (IH fp' lp' _ _ []); [lia|lia|done|]. simpl. lia.
  - rewrite bool_decide_false by done. apply (IH fp' lp _ _ (skipped ++ [l])); [lia|lia| |].
    + by rewrite <- app_assoc.
    + rewrite length_app. simpl. lia.
Qed.

Lemma retrieve_keyword_spec name keyword contents :
  retrieve_keyword name keyword contents = file_items name keyword contents ++ [dummyItem].
Proof.
  unfold retrieve_keyword. by rewrite (scan_loop_spec _ _ _ _ _ _ _ []) by (simpl; lia || done).
Qed.

(** ** Items of a file *)

Lemma numbered_range n rs p :
  p ∈ numbered n rs -> n + 1 <= p.1 <= n + Z.of_nat (length rs) /\ p.2 ∈ rs.
Proof.
  revert n. induction rs as [|r rs IH]; intros n; simpl; [set_solver|].
  intros [->|H]%elem_of_cons; [split; [simpl; lia|set_solver]|].
  apply IH in H as [? ?]. split; [lia|set_solver].
Qed.

Lemma file_items_elem name keyword contents it :
  it ∈ file_items name keyword contents ->
  exists p, it = to_item name p /\
    1 <= p.1 <= Z.of_nat (length (records MAXLINESIZE contents)) /\ (length p.2 <= 1023)%nat.
Proof.
  unfold file_items, matches. intros (p & -> & Hp)%list_elem_of_fmap. exists p. split; [done|].
  apply list_elem_of_filter in Hp as [_ Hp]. apply numbered_range in Hp as [Hr Hin].
  split; [lia|]. pose proof (records_length MAXLINESIZE contents ltac:(unfold MAXLINESIZE; lia)) as L.
  rewrite Forall_forall in L. specialize (L _ Hin). unfold MAXLINESIZE in L. lia.
Qed.

Lemma c_str_length l : (length (c_str l) <= length l)%nat.
Proof.
  unfold c_str. induction l as [|b l IH]; simpl; [lia|]. case_match; simpl; lia.
Qed.

(** A record's line fits the output buffer under every file name of up to 255
    bytes; its number fits its array exactly below 10000. *)
Lemma format_item_spec name i p :
  (length name <= 255)%nat -> 1 <= p.1 -> (length p.2 <= 1023)%nat ->
  format_item name (to_item i p) =
    if p.1 <? 10000 then Ok (name ++ [colon] ++ dec p.1 ++ [colon] ++ c_str p.2)
    else Undef BufferOverflow.
Proof.
  intros Hn Hp Hl. unfold format_item, linenumber_buffer. simpl.
  pose proof (dec_length p.1 4 ltac:(lia) ltac:(lia)) as D. change (10 ^ Z.of_nat 4) with 10000 in D.
  pose proof (c_str_length p.2) as C.
  destruct (Nat.leb_spec (length (dec p.1) + 1) 5) as [L|G], (Z.ltb_spec p.1 10000); try lia; try done.
  simpl. unfold len, MAXOUTSIZE. rewrite !length_app. cbn [length]. rewrite length_app. cbn [length].
  rewrite (proj2 (Z.leb_le _ _)) by lia. done.
Qed.
