(* ===== verification/ServerThreads.v ===== *)
(** * The server's search process: threads around a bounded buffer

    The process forked for a request ([handle_client_request], [search_directory],
    [retrieve_keyword], [print_buffer], [buffer_fill], [buffer_get] and the thread
    list of [client-server/server.c]) as a step relation: the main thread, one
    worker per regular file and the printer interleave at every operation on the
    semaphores and at every load and store of [list->threadcount], which main and
    the printer modify without a lock.  Two faults of the source, an array that is too
    small and a pointer into a closed directory stream, can be taken as written or
    repaired ([edits]). *)

From S2P Require Import Prelude CString ByteMem DirTree ServerSearch.

(** What the operating system answers about the directory. *)
Record sfs := Sfs {
  sf_readdir : cstr -> option (list cstr);  (* [None]: [opendir] returns NULL *)
  sf_isreg : cstr -> option bool;           (* [S_ISREG]; [None]: [stat] fails *)
  sf_read : cstr -> option (list byte) }.   (* contents; [None]: [fopen] fails *)

(** Two places of the source that the model can take as written or repaired: the
    bytes by which [filepath] is declared larger, and whether [create_thread_args]
    duplicates the file name as it does the path. *)
Record edits := Edits { filepath_spare : nat; dup_filename : bool }.
Definition as_written : edits := Edits 0 false.
Definition repaired : edits := Edits 2 true.

(** The parameters of one request. *)
Record config := Config {
  c_fs : sfs;
  c_dir : cstr;
  c_keyword : option cstr;                  (* [None]: NULL *)
  threadbuffersize : Z;
  (* what the [d_name] pointer of worker [p] points to when line [k] is written, as
     long as the directory stream is open: [readdir] may have overwritten it *)
  c_dname : nat -> nat -> cstr;
  c_src : edits }.

(** ** The bounded buffer *)

Record ring := Ring {
  slots : list (option Item);               (* [None]: never assigned *)
  buffer_filler : Z;
  buffer_use : Z }.

Definition buffer_fill (item : Item) (size : Z) (r : ring) : res ring :=
  if (0 <=? buffer_filler r) && (buffer_filler r <? Z.of_nat (length (slots r))) then
    let slots' := <[Z.to_nat (buffer_filler r) := Some item]> (slots r) in
    let filler := buffer_filler r + 1 in
    Ok (Ring slots' (if filler =? size then 0 else filler) (buffer_use r))
  else Undef BufferOverflow.

Definition buffer_get (size : Z) (r : ring) : res (Item * ring) :=
  if (0 <=? buffer_use r) && (buffer_use r <? Z.of_nat (length (slots r))) then
    match slots r !! Z.to_nat (buffer_use r) with
    | Some (Some tmp) =>
        let use := buffer_use r + 1 in
        Ok (tmp, Ring (slots r) (buffer_filler r) (if use =? size then 0 else use))
    | _ => Undef Uninitialised
    end
  else Undef OutOfBoundsRead.

(** ** Threads *)

(** A worker: before [fopen], before an operation on the item it carries, or done. *)
Inductive wpc :=
  | WOpen (path : cstr) | WEmpty (it : Item) | WMutex (it : Item) | WFill (it : Item)
  | WPostMutex | WPostFull | WDone.

(** With the items it has still to hand over. *)
Abbreviation worker := (wpc * list Item)%type.

(** The printer: before its first instruction, at the loop's condition, inside the
    loop, at the two accesses of a decrement of [threadcount], or done. *)
Inductive ppc :=
  | PStart | PTest | PFull | PMutex | PGet | PPostMutex (it : Item) | PPostEmpty (it : Item)
  | PItem (it : Item) | PLoad | PStore (v : Z) | PLastLoad | PLastStore (v : Z) | PDone.

(** The main thread: in [readdir]'s loop, at the accesses of [threadcount++] in
    [insert_tail], at the creation of the printer, at [closedir], in the waiting
    loop, joining, or at the end. *)
Inductive mpc :=
  | MNext (names : list cstr) | MLoad (names : list cstr) | MStore (v : Z) (names : list cstr)
  | MPrinter | MLastLoad | MLastStore (v : Z) | MClose | MSpin | MJoin (nodes : list nat) | MDone.

Record thr := Thr {
  t_ring : ring; buffer_empty : Z; buffer_full : Z; buffer_mutex : Z;
  threadcount : Z; nodes : list nat;
  workers : list worker; printer : option ppc; main_pc : mpc;
  lines_written : nat; output : list byte;
  filenames : list cstr }.                  (* of the workers, where duplicated *)

Definition set_ring v s := let 'Thr a b c d e f g h i j k l := s in Thr v b c d e f g h i j k l.
Definition set_empty v s := let 'Thr a b c d e f g h i j k l := s in Thr a v c d e f g h i j k l.
Definition set_full v s := let 'Thr a b c d e f g h i j k l := s in Thr a b v d e f g h i j k l.
Definition set_mutex v s := let 'Thr a b c d e f g h i j k l := s in Thr a b c v e f g h i j k l.
Definition set_count v s := let 'Thr a b c d e f g h i j k l := s in Thr a b c d v f g h i j k l.
Definition set_nodes v s := let 'Thr a b c d e f g h i j k l := s in Thr a b c d e v g h i j k l.
Definition set_workers v s := let 'Thr a b c d e f g h i j k l := s in Thr a b c d e f v h i j k l.
Definition set_printer v s := let 'Thr a b c d e f g h i j k l := s in Thr a b c d e f g (Some v) i j k l.
Definition set_main v s := let 'Thr a b c d e f g h i j k l := s in Thr a b c d e f g h v j k l.
Definition set_output j' v s := let 'Thr a b c d e f g h i j k l := s in Thr a b c d e f g h i j' v l.
Definition set_filenames v s := let 'Thr a b c d e f g h i j k l := s in Thr a b c d e f g h i j k v.
Definition set_worker n w s := set_workers (<[n := w]> (workers s)) s.

(** What a worker does next: the item it takes up, or its end. *)
Definition next_item (items : list Item) : worker :=
  match items with [] => (WDone, []) | it :: rest => (WEmpty it, rest) end.

(** [retrieve_keyword] on thread [p]. *)
Definition worker_step (c : config) (p : nat) (s : thr) : option (res thr) :=
  '(pc, items) ← workers s !! p;
  match pc with
  | WOpen path =>
      Some (match sf_read (c_fs c) path, c_keyword c with
            | Some contents, Some keyword =>
                Ok (set_worker p (next_item (retrieve_keyword p keyword contents)) s)
            | _, _ => Undef NullDeref
            end)
  | WEmpty it =>
      if 0 <? buffer_empty s
      then Some (Ok (set_empty (buffer_empty s - 1) (set_worker p (WMutex it, items) s))) else None
  | WMutex it =>
      if 0 <? buffer_mutex s
      then Some (Ok (set_mutex (buffer_mutex s - 1) (set_worker p (WFill it, items) s))) else None
  | WFill it =>
      Some (let* r := buffer_fill it (threadbuffersize c) (t_ring s) in
            Ok (set_ring r (set_worker p (WPostMutex, items) s)))
  | WPostMutex => Some (Ok (set_mutex (buffer_mutex s + 1) (set_worker p (WPostFull, items) s)))
  | WPostFull => Some (Ok (set_full (buffer_full s + 1) (set_worker p (next_item items) s)))
  | WDone => None
  end.

(** The directory stream, which the [d_name] pointers point into, is closed. *)
Definition closed (m : mpc) : bool := match m with MSpin | MJoin _ | MDone => true | _ => false end.

(** The string behind the [filename] of an item of worker [p]. *)
Definition item_filename (c : config) (s : thr) (p : nat) : res cstr :=
  if dup_filename (c_src c) then match filenames s !! p with Some n => Ok n | None => Undef Uninitialised end
  else if closed (main_pc s) then Undef UseAfterFree
  else Ok (c_dname c (lines_written s) p).

(** [print_buffer]. *)
Definition printer_step (c : config) (s : thr) : option (res thr) :=
  pc ← printer s;
  match pc with
  | PStart => Some (Ok (set_printer PTest s))
  | PTest => Some (Ok (set_printer (if threadcount s =? 1 then PLastLoad else PFull) s))
  | PFull =>
      if 0 <? buffer_full s
      then Some (Ok (set_full (buffer_full s - 1) (set_printer PMutex s))) else None
  | PMutex =>
      if 0 <? buffer_mutex s
      then Some (Ok (set_mutex (buffer_mutex s - 1) (set_printer PGet s))) else None
  | PGet =>
      Some (let* '(it, r) := buffer_get (threadbuffersize c) (t_ring s) in
            Ok (set_ring r (set_printer (PPostMutex it) s)))
  | PPostMutex it => Some (Ok (set_mutex (buffer_mutex s + 1) (set_printer (PPostEmpty it) s)))
  | PPostEmpty it => Some (Ok (set_empty (buffer_empty s + 1) (set_printer (PItem it) s)))
  | PItem it =>
      Some (if linenumber it =? -1 then Ok (set_printer PLoad s)
            else match filename it with
                 | None => Ok (set_printer PLoad s)
                 | Some p =>
                     let* name := item_filename c s p in
                     let* l := format_item name it in
                     Ok (set_output (S (lines_written s)) (output s ++ l) (set_printer PTest s))
                 end)
  | PLoad => Some (Ok (set_printer (PStore (threadcount s)) s))
  | PStore v => Some (Ok (set_count (v - 1) (set_printer PTest s)))
  | PLastLoad => Some (Ok (set_printer (PLastStore (threadcount s)) s))
  | PLastStore v => Some (Ok (set_count (v - 1) (set_printer PDone s)))
  | PDone => None
  end.

(** Whether [pthread_join] on a thread returns: workers first, then the printer. *)
Definition finished (s : thr) (tid : nat) : bool :=
  match workers s !! tid with
  | Some (WDone, _) => true
  | Some _ => false
  | None => match printer s with Some PDone => true | _ => false end
  end.

(** [search_directory] and the rest of [handle_client_request] on the main thread. *)
Definition main_step (c : config) (s : thr) : option (res thr) :=
  match main_pc s with
  | MNext [] => Some (Ok (set_main MPrinter s))
  | MNext (name :: rest) =>
      Some (let filepath := join (c_dir c) name in
            if (length (c_dir c) + length name + filepath_spare (c_src c) <? length filepath + 1)%nat
            then Undef BufferOverflow
            else if hidden name then Ok (set_main (MNext rest) s)
            else match sf_isreg (c_fs c) filepath with
                 | None => Undef Uninitialised
                 | Some false => Ok (set_main (MNext rest) s)
                 | Some true =>
                     (* create_thread_args duplicates the keyword *)
                     let* _ := deref (c_keyword c) in
                     Ok (set_filenames (filenames s ++ [name])
                           (set_workers (workers s ++ [(WOpen filepath, [])]) (set_main (MLoad rest) s)))
                 end)
  | MLoad rest => Some (Ok (set_main (MStore (threadcount s) rest) s))
  | MStore v rest =>
      Some (Ok (set_count (v + 1) (set_nodes (nodes s ++ [length (nodes s)]) (set_main (MNext rest) s))))
  | MPrinter =>
      Some (let* _ := deref (c_keyword c) in Ok (set_printer PStart (set_main MLastLoad s)))
  | MLastLoad => Some (Ok (set_main (MLastStore (threadcount s)) s))
  | MLastStore v =>
      Some (Ok (set_count (v + 1) (set_nodes (nodes s ++ [length (nodes s)]) (set_main MClose s))))
  | MClose => Some (Ok (set_main MSpin s))
  | MSpin => if threadcount s =? 0 then Some (Ok (set_main (MJoin (nodes s)) s)) else None
  | MJoin [] => Some (Ok (set_main MDone s))
  | MJoin (tid :: rest) => if finished s tid then Some (Ok (set_main (MJoin rest) s)) else None
  | MDone => None
  end.

Inductive tstep (c : config) : thr -> thr -> Prop :=
  | tstep_main s s' : main_step c s = Some (Ok s') -> tstep c s s'
  | tstep_worker p s s' : worker_step c p s = Some (Ok s') -> tstep c s s'
  | tstep_printer s s' : printer_step c s = Some (Ok s') -> tstep c s s'.

(** [handle_client_request] up to the call of [search_directory]. *)
Definition handle_client_request (fs : sfs) (dname : nat -> nat -> cstr) (src : edits)
    (request : cstr) (buffer_size : Z) : res (config * thr) :=
  match strtok_r [space] request with
  | None => Undef NullDeref
  | Some (directory_path, context) =>
      let keyword := fst <$> strtok_r [space] context in
      let* names := deref (sf_readdir fs directory_path) in
      Ok (Config fs directory_path keyword buffer_size dname src,
          Thr (Ring (replicate (Z.to_nat buffer_size) None) 0 0) buffer_size 0 1
            0 [] [] None (MNext names) 0 [] [])
  end.
