(* ===== verification/ServerRing.v ===== *)
(** * The bounded buffer as a FIFO history

    [buffer_fill] and [buffer_get] of [client-server/server.c] against the list of
    all items ever put into the buffer and the number of items taken from it. *)

From S2P Require Import Prelude CString ByteMem ServerSearch ServerThreads.

(** ** Sums over the workers *)

Lemma sum_list_insert {A} (f : A -> nat) l i x y :
  l !! i = Some x -> (sum_list_with f (<[i := y]> l) + f x = sum_list_with f l + f y)%nat.
Proof.
  revert i. induction l as [|z l IH]; intros [|i] H; simpl in *; simplify_eq; [lia|].
  specialize (IH i H). lia.
Qed.

Lemma sum_list_snoc {A} (f : A -> nat) l x :
  sum_list_with f (l ++ [x]) = (sum_list_with f l + f x)%nat.
Proof. induction l; simpl; lia. Qed.

Lemma sum_list_lookup {A} (f : A -> nat) l i x :
  l !! i = Some x -> (f x <= sum_list_with f l)%nat.
Proof.
  revert i. induction l as [|z l IH]; intros [|i] H; simpl in *; simplify_eq; [lia|].
  specialize (IH i H). lia.
Qed.

Lemma sum_list_zero {A} (f : A -> nat) l :
  (forall i x, l !! i = Some x -> f x = 0%nat) -> sum_list_with f l = 0%nat.
Proof.
  induction l as [|z l IH]; intros H; simpl; [done|].
  rewrite (H 0%nat z) by done. apply IH. intros i x Hx. by apply (H (S i)).
Qed.

Lemma sum_list_le {A} (f : A -> nat) l :
  (forall x, x ∈ l -> (f x <= 1)%nat) -> (sum_list_with f l <= length l)%nat.
Proof.
  induction l as [|z l IH]; intros Hf; simpl; [lia|].
  specialize (IH ltac:(set_solver)). specialize (Hf z ltac:(set_solver)). lia.
Qed.

(** If terms of at most 1 sum to their number, each of them is 1. *)
Lemma sum_list_full {A} (f : A -> nat) l :
  (forall x, x ∈ l -> (f x <= 1)%nat) -> (length l <= sum_list_with f l)%nat ->
  forall x, x ∈ l -> f x = 1%nat.
Proof.
  induction l as [|z l IH]; intros Hf Hs x; simpl in *; [set_solver|].
  pose proof (sum_list_le f l ltac:(set_solver)). pose proof (Hf z ltac:(set_solver)).
  intros [->|Hx]%elem_of_cons; [lia|]. apply IH; [set_solver|lia|done].
Qed.

Lemma sum_list_ext {A} (f g : A -> nat) l :
  (forall x, f x = g x) -> sum_list_with f l = sum_list_with g l.
Proof. intros E. induction l; simpl; congruence. Qed.

(** One term raised by [a]. *)
Lemma sum_list_point (q a : nat) (f : nat -> nat) l :
  NoDup l -> q ∈ l ->
  sum_list_with (fun p => (if decide (q = p) then a else 0) + f p)%nat l
  = (a + sum_list_with f l)%nat.
Proof.
  induction l as [|p l IH]; [set_solver|]. intros [Hp ND]%NoDup_cons Hq. simpl.
  apply elem_of_cons in Hq as [->|Hq].
  - rewrite decide_True by done. assert (sum_list_with
      (fun r => (if decide (p = r) then a else 0) + f r)%nat l = sum_list_with f l) as ->; [|lia].
    clear -Hp. induction l as [|r l IH]; simpl; [done|].
    rewrite decide_False by set_solver. rewrite IH by set_solver. done.
  - rewrite decide_False by set_solver. rewrite IH by done. lia.
Qed.

(** ** The ring *)

(** The items put so far with the worker they come from, oldest first; the first
    [G] have been taken. *)
Record ring_ok (B : Z) (r : ring) (H : list (nat * Item)) (G : nat) : Prop := {
  ring_size : Z.of_nat (length (slots r)) = B;
  ring_taken : (G <= length H)%nat;
  ring_room : Z.of_nat (length H) <= Z.of_nat G + B;
  ring_filler : buffer_filler r = Z.of_nat (length H) mod B;
  ring_use : buffer_use r = Z.of_nat G mod B;
  ring_slots : forall k x, (G <= k)%nat -> H !! k = Some x ->
    slots r !! Z.to_nat (Z.of_nat k mod B) = Some (Some x.2) }.

(** The index wraps to 0 at the size, which is addition modulo the size. *)
Lemma wrap_mod B k :
  0 < B -> (if Z.of_nat k mod B + 1 =? B then 0 else Z.of_nat k mod B + 1) = Z.of_nat (S k) mod B.
Proof.
  intros HB. pose proof (Z.mod_pos_bound (Z.of_nat k) B HB).
  rewrite Nat2Z.inj_succ. unfold Z.succ. rewrite <- Z.add_mod_idemp_l by lia.
  destruct (Z.eqb_spec (Z.of_nat k mod B + 1) B) as [->|].
  - by rewrite Z.mod_same by lia.
  - by rewrite (Z.mod_small (_ + 1)) by lia.
Qed.

(** The buffer starts empty. *)
Lemma ring_ok_empty B : 0 < B -> ring_ok B (Ring (replicate (Z.to_nat B) None) 0 0) [] 0.
Proof.
  intros HB. constructor; simpl; rewrite ?length_replicate; try lia; by rewrite ?Zmod_0_l.
Qed.

(** Filling with a free slot appends to the history and overwrites nothing that is
    still to be taken. *)
Lemma buffer_fill_spec B r H G p it :
  0 < B -> ring_ok B r H G -> Z.of_nat (length H) < Z.of_nat G + B ->
  exists r', buffer_fill it B r = Ok r' /\ ring_ok B r' (H ++ [(p, it)]) G.
Proof.
  intros HB [R1 R2 R3 R4 R5 R6] Hroom. pose proof (Z.mod_pos_bound (Z.of_nat (length H)) B HB).
  unfold buffer_fill. rewrite R4, (proj2 (Z.leb_le _ _)), (proj2 (Z.ltb_lt _ _)) by lia. simpl.
  eexists. split; [done|]. constructor; simpl; rewrite ?length_insert, ?length_app; simpl; try lia.
  - rewrite wrap_mod by done. do 2 f_equal. lia.
  - intros k x Hk Hx. destruct (decide (k = length H)) as [->|Hne].
    + rewrite list_lookup_insert_eq by lia.
      rewrite lookup_app_r, Nat.sub_diag in Hx by lia. by injection Hx as <-.
    + assert (k < length H)%nat.
      { apply lookup_lt_Some in Hx. rewrite length_app in Hx. simpl in Hx. lia. }
      rewrite lookup_app_l in Hx by lia. rewrite list_lookup_insert_ne; [by apply R6|].
      intros E. pose proof (Z.mod_pos_bound (Z.of_nat k) B HB).
      pose proof (Z.div_mod (Z.of_nat k) B ltac:(lia)).
      pose proof (Z.div_mod (Z.of_nat (length H)) B ltac:(lia)).
      assert (Z.of_nat k mod B = Z.of_nat (length H) mod B) by lia.
      assert (Z.of_nat k / B = Z.of_nat (length H) / B); nia.
Qed.

(** Getting from a buffer that is not empty returns the oldest item not yet taken. *)
Lemma buffer_get_spec B r H G :
  0 < B -> ring_ok B r H G -> (G < length H)%nat ->
  exists x r', H !! G = Some x /\ buffer_get B r = Ok (x.2, r') /\ ring_ok B r' H (S G).
Proof.
  intros HB [R1 R2 R3 R4 R5 R6] HG. destruct (lookup_lt_is_Some_2 H G HG) as [x Hx].
  pose proof (Z.mod_pos_bound (Z.of_nat G) B HB).
  unfold buffer_get. rewrite R5, (proj2 (Z.leb_le _ _)), (proj2 (Z.ltb_lt _ _)) by lia. simpl.
  rewrite (R6 G x) by (lia || done). exists x. eexists. split_and!; [done..|].
  rewrite wrap_mod by done. constructor; simpl; try done; try lia.
  intros k y Hk Hy. apply R6; [lia|done].
Qed.
