(* ===== verification/ServerInvariant.v ===== *)
(** * The server's search process: the invariant

    Relates the semaphores, the buffer, the threads and the output of a search
    process to the history of the items put into the buffer. *)

From S2P Require Import Prelude CString ByteMem DirTree ServerSearch ServerThreads ServerRing.

(** ** What each program counter holds *)

Definition carrying (pc : wpc) : list Item :=
  match pc with WEmpty it | WMutex it | WFill it => [it] | _ => [] end.
Definition w_slot (w : worker) : nat := match w with ((WMutex _ | WFill _), _) => 1 | _ => 0 end.
Definition w_crit (w : worker) : nat := match w with ((WFill _ | WPostMutex), _) => 1 | _ => 0 end.
Definition w_unposted (w : worker) : nat :=
  match w with ((WPostMutex | WPostFull), _) => 1 | _ => 0 end.

Definition p_taken (p : option ppc) : Z :=
  match p with Some (PMutex | PGet) => 1 | _ => 0 end.
Definition p_crit (p : option ppc) : Z :=
  match p with Some (PGet | PPostMutex _) => 1 | _ => 0 end.
Definition p_unfreed (p : option ppc) : Z :=
  match p with Some (PPostMutex _ | PPostEmpty _) => 1 | _ => 0 end.
Definition p_held (p : option ppc) : list Item :=
  match p with Some (PPostMutex it | PPostEmpty it | PItem it) => [it] | _ => [] end.
Definition p_dec (p : option ppc) : Z :=
  match p with Some (PLoad | PStore _) => 1 | _ => 0 end.
(** The printer has found [threadcount] equal to 1. *)
Definition p_last (p : option ppc) : bool :=
  match p with Some (PLastLoad | PLastStore _ | PDone) => true | _ => false end.
(** The printer has not executed an instruction. *)
Definition fresh (p : option ppc) : bool :=
  match p with None | Some PStart => true | _ => false end.

(** The names the main thread has still to look at. *)
Definition rest_names (m : mpc) : list cstr :=
  match m with MNext l | MLoad l | MStore _ l => l | _ => [] end.
(** The printer's node is in the list. *)
Definition late (m : mpc) : bool :=
  match m with MClose | MSpin | MJoin _ | MDone => true | _ => false end.
(** A thread created and not yet inserted. *)
Definition m_pending (m : mpc) : Z :=
  match m with MLoad _ | MStore _ _ => 1 | _ => 0 end.

(** ** Histories *)

(** The items of worker [p], in order. *)
Definition from (p : nat) (H : list (nat * Item)) : list Item :=
  (filter (fun x => x.1 = p) H).*2.

(** Items that are lines, and the number of those that are not. *)
Definition real (l : list Item) : list Item := filter (fun it => linenumber it <> -1) l.
Definition dummies (l : list Item) : nat := length (filter (fun it => linenumber it = -1) l).

Lemma from_app p H H' : from p (H ++ H') = from p H ++ from p H'.
Proof. unfold from. by rewrite filter_app, fmap_app. Qed.

Lemma from_snoc p H q it :
  from p (H ++ [(q, it)]) = from p H ++ (if decide (q = p) then [it] else []).
Proof. rewrite from_app. unfold from at 2. rewrite filter_cons. simpl. by case_decide. Qed.

Lemma from_elem p H it : it ∈ from p H <-> (p, it) ∈ H.
Proof.
  unfold from. rewrite list_elem_of_fmap. split.
  - intros ([q i] & -> & [Hq Hin]%list_elem_of_filter). simpl in *. by subst.
  - intros Hin. exists (p, it). split; [done|]. by apply list_elem_of_filter.
Qed.

Lemma real_app l l' : real (l ++ l') = real l ++ real l'.
Proof. apply filter_app. Qed.

Lemma dummies_app l l' : dummies (l ++ l') = (dummies l + dummies l')%nat.
Proof. unfold dummies. by rewrite filter_app, length_app. Qed.

Lemma from_cons p q it H :
  from p ((q, it) :: H) = (if decide (q = p) then [it] else []) ++ from p H.
Proof. unfold from. rewrite filter_cons. simpl. by case_decide. Qed.

(** Counting worker by worker. *)
Lemma dummies_sum H W :
  Forall (fun x => (x.1 < W)%nat) H ->
  dummies H.*2 = sum_list_with (fun p => dummies (from p H)) (seq 0 W).
Proof.
  induction 1 as [|[q it] H Hq HH IH]; [symmetry; by apply sum_list_zero|].
  simpl in Hq. change ((q, it) :: H).*2 with ([it] ++ H.*2). rewrite dummies_app, IH.
  rewrite <- (sum_list_point q _ _ (seq 0 W)); [|apply NoDup_seq|apply elem_of_seq; lia].
  apply sum_list_ext. intros p. rewrite from_cons, dummies_app. by case_decide.
Qed.

Lemma dummies_prefix l l' : l `prefix_of` l' -> (dummies l <= dummies l')%nat.
Proof. intros [k ->]. rewrite dummies_app. lia. Qed.

Lemma from_prefix p H g : from p (take g H) `prefix_of` from p H.
Proof. rewrite <- (take_drop g H) at 2. rewrite from_app. by apply prefix_app_r. Qed.

Lemma dummies_file_items p kw cs : dummies (file_items p kw cs ++ [dummyItem]) = 1%nat.
Proof.
  rewrite dummies_app. change (dummies [dummyItem]) with 1%nat.
  assert (dummies (file_items p kw cs) = 0%nat) as ->; [|done].
  unfold dummies. destruct (filter _ _) as [|it l] eqn:E; [done|exfalso].
  assert (it ∈ it :: l) as Hin by set_solver. rewrite <- E in Hin.
  apply list_elem_of_filter in Hin as [H1 (q & -> & H2 & _)%file_items_elem]. simpl in H1. lia.
Qed.

(** The bytes written for a sequence of lines, [fns] being the names of the files. *)
Fixpoint render (fns : list cstr) (l : list Item) : res (list byte) :=
  match l with
  | [] => Ok []
  | it :: l' =>
      let* p := deref (filename it) in
      let* name := deref (fns !! p) in
      let* b := format_item name it in
      let* bs := render fns l' in Ok (b ++ bs)
  end.

Lemma render_snoc fns l it p name b bs :
  render fns l = Ok bs -> filename it = Some p -> fns !! p = Some name ->
  format_item name it = Ok b -> render fns (l ++ [it]) = Ok (bs ++ b).
Proof.
  revert bs. induction l as [|x l IH]; intros bs Hr Hf Hn Hb; simpl in *.
  - injection Hr as <-. rewrite Hf. simpl. rewrite Hn. simpl. rewrite Hb. simpl. by rewrite app_nil_r.
  - inv_ok. simpl. rewrite E. simpl. rewrite Ha1. simpl. erewrite IH; eauto.
    simpl. by rewrite app_assoc.
Qed.

(** ** The directory *)

Section Server.
Context (c : config) (kw : cstr) (names : list cstr).
Context (c_kw : c_keyword c = Some kw) (B_pos : 0 < threadbuffersize c).

Let B := threadbuffersize c.

(** The regular files that are searched, in the order of the directory: their names
    and their paths. *)
Fixpoint target_names (ns : list cstr) : list cstr :=
  match ns with
  | [] => []
  | n :: ns' =>
      if hidden n then target_names ns'
      else match sf_isreg (c_fs c) (join (c_dir c) n) with
           | Some true => n :: target_names ns'
           | _ => target_names ns'
           end
  end.

Definition targets (ns : list cstr) : list cstr := map (join (c_dir c)) (target_names ns).

(** An entry the program can handle: its name is no longer than a directory entry's
    can be; and, if the entry is visible, [stat] succeeds, and a regular file can be
    read and has fewer than 10000 records. *)
Definition name_ok (n : cstr) : Prop :=
  let path := join (c_dir c) n in
  (length n <= 255)%nat /\
  (hidden n = true \/ sf_isreg (c_fs c) path = Some false \/
   (sf_isreg (c_fs c) path = Some true /\
    exists contents, sf_read (c_fs c) path = Some contents /\
      Z.of_nat (length (records MAXLINESIZE contents)) < 10000)).

Definition contents_of (path : cstr) : list byte := default [] (sf_read (c_fs c) path).

Definition items_of (p : nat) (path : cstr) : list Item :=
  file_items p kw (contents_of path) ++ [dummyItem].

(** A worker has put what is in the history, and holds the rest. *)
Definition worker_ok (p : nat) (path : cstr) (H : list (nat * Item)) (w : worker) : Prop :=
  match w with
  | (WOpen path', items) => path' = path /\ from p H = []
  | (WDone, items) => items_of p path = from p H
  | (pc, items) => items_of p path = from p H ++ carrying pc ++ items
  end.

(** The number of items the printer has dealt with. *)
Definition handled (G : nat) (p : option ppc) : nat := (G - length (p_held p))%nat.

Record inv (H : list (nat * Item)) (G : nat) (s : thr) : Prop := {
  i_ring : ring_ok B (t_ring s) H G;
  i_rest : (length (workers s) <= length (targets names))%nat /\
           drop (length (workers s)) (targets names) = targets (rest_names (main_pc s));
  i_fnames : filenames s ++ target_names (rest_names (main_pc s)) = target_names names /\
             length (filenames s) = length (workers s);
  i_names : Forall name_ok (rest_names (main_pc s));
  i_workers : forall p w, workers s !! p = Some w ->
    exists path, targets names !! p = Some path /\ worker_ok p path H w;
  i_origin : Forall (fun x => (x.1 < length (workers s))%nat) H;
  i_empty : buffer_empty s = B - (Z.of_nat (length H) - Z.of_nat G)
    - Z.of_nat (sum_list_with w_slot (workers s)) - p_unfreed (printer s) /\ 0 <= buffer_empty s;
  i_full : buffer_full s = Z.of_nat (length H) - Z.of_nat G
    - Z.of_nat (sum_list_with w_unposted (workers s)) - p_taken (printer s) /\ 0 <= buffer_full s;
  i_mutex : buffer_mutex s = 1 - Z.of_nat (sum_list_with w_crit (workers s)) - p_crit (printer s)
    /\ 0 <= buffer_mutex s;
  i_held : forall it, p_held (printer s) = [it] ->
    exists g p, G = S g /\ H !! g = Some (p, it);
  i_lines : lines_written s = length (real (take (handled G (printer s)) H).*2);
  i_output : render (target_names names) (real (take (handled G (printer s)) H).*2) = Ok (output s);
  i_early : late (main_pc s) = false ->
    fresh (printer s) = true /\ G = 0%nat /\
    threadcount s = Z.of_nat (length (workers s)) - m_pending (main_pc s) /\
    (printer s = None <-> match main_pc s with MLastLoad | MLastStore _ => False | _ => True end);
  i_store : match main_pc s with MStore v _ | MLastStore v => v = threadcount s | _ => True end;
  i_pstore : match printer s with
             | Some (PStore v | PLastStore v) => v = threadcount s | _ => True end;
  i_late : late (main_pc s) = true -> printer s <> None /\
    (let d := dummies (take (handled G (printer s)) H).*2 in
     let W := length (workers s) in
     if p_last (printer s) then d = W /\ threadcount s = match printer s with Some PDone => 0 | _ => 1 end
     else threadcount s = Z.of_nat W + 1 - Z.of_nat d + p_dec (printer s) /\
          match printer s with
          | Some (PFull | PMutex | PGet) => threadcount s <> 1 | _ => True end);
  i_join : match main_pc s with MJoin _ | MDone => printer s = Some PDone | _ => True end }.

Context (names_ok : Forall name_ok names).

Lemma target_ok p path :
  targets names !! p = Some path ->
  exists contents, sf_read (c_fs c) path = Some contents /\
    Z.of_nat (length (records MAXLINESIZE contents)) < 10000.
Proof using names_ok.
  unfold targets. revert p. induction names as [|n ns IH]; intros p; [done|].
  apply Forall_cons in names_ok as [[_ Hn] Hns]. cbn [target_names].
  destruct (hidden n) eqn:Eh; [by apply IH|].
  destruct Hn as [|[->|[-> Hc]]]; [done|by apply IH|].
  destruct p as [|p]; simpl; [|by apply IH]. intros [= <-]. done.
Qed.

Lemma length_targets ns : length (targets ns) = length (target_names ns).
Proof. apply length_map. Qed.

Lemma target_name p : (p < length (targets names))%nat ->
  exists n, target_names names !! p = Some n /\ (length n <= 255)%nat.
Proof using names_ok.
  rewrite length_targets. intros [n Hn]%lookup_lt_is_Some. exists n. split; [done|].
  revert p Hn. induction names as [|m ns IH]; intros p; [done|].
  apply Forall_cons in names_ok as [[Hm _] Hns]. cbn [target_names].
  repeat case_match; eauto. destruct p; simpl; [by intros [= <-]|eauto].
Qed.

(** ** Steps of a worker *)

Lemma workers_insert (P : nat -> worker -> Prop) (ws : list worker) p w' :
  (forall q w, ws !! q = Some w -> P q w) -> P p w' ->
  forall q w, <[p := w']> ws !! q = Some w -> P q w.
Proof.
  intros Hws Hw q w Hq. destruct (decide (q = p)) as [->|Hne].
  - apply list_lookup_insert_Some in Hq as [(_ & <- & _)|[? _]]; done.
  - rewrite list_lookup_insert_ne in Hq by done. auto.
Qed.

(** Opens a state with its invariant and the sums over the updated worker. *)
Ltac open_worker s I p Hw w' :=
  destruct s as [rg em fu mu tc nd ws pr mp lw out fn]; simpl in *;
  pose proof (sum_list_insert w_slot ws p _ w' Hw) as Sslot;
  pose proof (sum_list_insert w_crit ws p _ w' Hw) as Scrit;
  pose proof (sum_list_insert w_unposted ws p _ w' Hw) as Spost;
  destruct I as [Ir Ire Ifn Ina Iw Io [Ie Ie'] [If If'] [Im Im'] Ih Il Iou Iea Ist Ips Ila Ij];
  simpl in *.

Lemma next_item_ok p path H items :
  items_of p path = from p H ++ items -> worker_ok p path H (next_item items).
Proof. destruct items as [|it items]; simpl; [by rewrite app_nil_r|done]. Qed.

(** A step that keeps the history. *)
Lemma worker_quiet_step s o p w H G :
  inv H G s -> workers s !! p = Some w -> (forall it, w.1 <> WFill it) ->
  worker_step c p s = Some o -> exists s', o = Ok s' /\ inv H G s' /\ main_pc s' = main_pc s
    /\ printer s' = printer s.
Proof using c_kw names_ok.
  intros I Hw Hf. unfold worker_step. rewrite Hw. simpl. destruct w as [pc items].
  destruct (i_workers _ _ _ I p _ Hw) as (path & Hp & Hok). simpl in Hok.
  destruct pc as [path'|it|it|it| | |]; simpl in Hok; [ | | |by edestruct Hf| | |done].
  - destruct Hok as [-> Hfr]. destruct (target_ok p path Hp) as (cs & Hr & _).
    rewrite Hr, c_kw. intros [= <-]. eexists. split; [done|].
    set (w' := next_item _). open_worker s I p Hw w'. split; [|done].
    assert (E : w_slot w' = 0%nat /\ w_crit w' = 0%nat /\ w_unposted w' = 0%nat).
    { unfold w'. by destruct (retrieve_keyword p kw cs). }
    destruct E as (E1 & E2 & E3). rewrite E1 in Sslot. rewrite E2 in Scrit. rewrite E3 in Spost.
    simpl in *.
    constructor; simpl; rewrite ?length_insert; try done; try lia.
    apply workers_insert; [done|]. exists path. split; [done|]. apply next_item_ok.
    rewrite Hfr, retrieve_keyword_spec. unfold items_of, contents_of. by rewrite Hr.
  - destruct (Z.ltb_spec 0 (buffer_empty s)); [|done]. intros [= <-]. eexists. split; [done|].
    open_worker s I p Hw (WMutex it, items). split; [|done].
    constructor; simpl; rewrite ?length_insert; try done; try lia.
    apply workers_insert; [done|]. by exists path.
  - destruct (Z.ltb_spec 0 (buffer_mutex s)); [|done]. intros [= <-]. eexists. split; [done|].
    open_worker s I p Hw (WFill it, items). split; [|done].
    constructor; simpl; rewrite ?length_insert; try done; try lia.
    apply workers_insert; [done|]. by exists path.
  - intros [= <-]. eexists. split; [done|].
    open_worker s I p Hw (WPostFull, items). split; [|done].
    constructor; simpl; rewrite ?length_insert; try done; try lia.
    apply workers_insert; [done|]. by exists path.
  - intros [= <-]. eexists. split; [done|].
    set (w' := next_item _). open_worker s I p Hw w'. split; [|done].
    assert (E : w_slot w' = 0%nat /\ w_crit w' = 0%nat /\ w_unposted w' = 0%nat).
    { unfold w'. by destruct items. }
    destruct E as (E1 & E2 & E3). rewrite E1 in Sslot. rewrite E2 in Scrit. rewrite E3 in Spost.
    simpl in *.
    constructor; simpl; rewrite ?length_insert; try done; try lia.
    apply workers_insert; [done|]. exists path. split; [done|]. by apply next_item_ok.
Qed.
Lemma worker_ok_other p q path H it w :
  q <> p -> worker_ok q path H w -> worker_ok q path (H ++ [(p, it)]) w.
Proof.
  intros Hne. destruct w as [[]]; simpl; by rewrite from_snoc, decide_False, app_nil_r by done.
Qed.

Lemma take_handled G pr (H : list (nat * Item)) x :
  (G <= length H)%nat -> take (handled G pr) (H ++ [x]) = take (handled G pr) H.
Proof. intros HG. apply take_app_le. unfold handled. lia. Qed.

(** The step that puts an item into the buffer. *)
Lemma worker_fill_step s o p it items H G :
  inv H G s -> workers s !! p = Some (WFill it, items) -> worker_step c p s = Some o ->
  exists s', o = Ok s' /\ inv (H ++ [(p, it)]) G s' /\ main_pc s' = main_pc s
    /\ printer s' = printer s.
Proof using B_pos.
  intros I Hw. unfold worker_step. rewrite Hw. simpl. intros [= <-].
  destruct (i_workers _ _ _ I p _ Hw) as (path & Hp & Hok).
  pose proof (sum_list_lookup w_slot (workers s) p _ Hw) as Hs. simpl in Hs.
  assert (Hun : p_unfreed (printer s) >= 0) by (destruct (printer s) as [[]|]; simpl; lia).
  destruct (buffer_fill_spec B (t_ring s) H G p it B_pos (i_ring _ _ _ I)) as (r' & E & Hr').
  { destruct (i_empty _ _ _ I). lia. }
  unfold B in E. rewrite E. simpl. eexists. split; [done|].
  pose proof (ring_taken _ _ _ _ (i_ring _ _ _ I)) as HG.
  assert (Hpl : (p < length (workers s))%nat) by (by eapply lookup_lt_Some).
  open_worker s I p Hw (WPostMutex, items). split; [|done].
  constructor; simpl; rewrite ?length_insert, ?length_app, ?take_handled by done; simpl;
    try done; try lia.
  - intros q w Hq. destruct (decide (q = p)) as [->|Hne].
    + rewrite list_lookup_insert_eq in Hq by done. injection Hq as <-. exists path.
      split; [done|]. simpl. by rewrite from_snoc, decide_True, <- app_assoc by done.
    + rewrite list_lookup_insert_ne in Hq by done. destruct (Iw q w Hq) as (path' & Hp' & Hok').
      exists path'. split; [done|]. by apply worker_ok_other.
  - apply Forall_app. split; [done|]. by constructor.
  - intros it' Hit. destruct (Ih it' Hit) as (g & q & -> & Hg). exists g, q. split; [done|].
    by rewrite lookup_app_l by (by eapply lookup_lt_Some).
Qed.

Lemma worker_step_inv s o p H G :
  inv H G s -> worker_step c p s = Some o ->
  exists s' H', o = Ok s' /\ inv H' G s' /\ main_pc s' = main_pc s /\ printer s' = printer s.
Proof using c_kw names_ok B_pos.
  intros I E. assert (exists w, workers s !! p = Some w) as [[pc items] Hw].
  { unfold worker_step in E. destruct (workers s !! p); [by eexists|done]. }
  assert ((exists it, pc = WFill it) \/ forall it, pc <> WFill it) as [[it ->]|Hne]
    by (destruct pc; eauto).
  - destruct (worker_fill_step _ _ _ _ _ _ _ I Hw E) as (s' & ?). eauto.
  - destruct (worker_quiet_step s o p (pc, items) H G I Hw Hne E) as (s' & ?). eauto.
Qed.
(** ** Steps of the printer *)

(** An item in the history is a line of the file of its worker, or the dummy. *)
Lemma history_item s H G g p it :
  inv H G s -> H !! g = Some (p, it) ->
  it = dummyItem \/
  exists q, it = to_item p q /\ 1 <= q.1 < 10000 /\ (length q.2 <= 1023)%nat.
Proof using c_kw B_pos names_ok.
  intros I Hg. assert (Hin : (p, it) ∈ H) by (by eapply list_elem_of_lookup_2).
  pose proof (i_origin _ _ _ I) as Ho. rewrite Forall_forall in Ho. apply Ho in Hin as Hp.
  simpl in Hp. apply lookup_lt_is_Some in Hp as [w Hw].
  destruct (i_workers _ _ _ I p w Hw) as (path & Ht & Hok).
  apply from_elem in Hin. assert (Hit : it ∈ items_of p path).
  { destruct w as [[] items]; simpl in Hok; try (rewrite Hok; set_solver). destruct Hok as [_ Hok].
    rewrite Hok in Hin. set_solver. }
  unfold items_of in Hit. apply elem_of_app in Hit as [Hit|Hit]; [right|left; set_solver].
  destruct (target_ok p path Ht) as (cs & Hr & Hlen). unfold contents_of in Hit. rewrite Hr in Hit.
  apply file_items_elem in Hit as (q & -> & Hq & Hl). exists q. split; [done|]. simpl in *. lia.
Qed.

Context (dup : dup_filename (c_src c) = true).

(** Opens a state with its invariant, the printer past its start. *)
Ltac open_printer s I Hp :=
  destruct s as [rg em fu mu tc nd ws pr mp lw out fn]; simpl in *; subst pr;
  destruct I as [Ir Ire Ifn Ina Iw Io [Ie Ie'] [If If'] [Im Im'] Ih Il Iou Iea Ist Ips Ila Ij];
  simpl in *;
  destruct (late mp) eqn:Hlate; [clear Iea; destruct (Ila eq_refl) as [_ Ic]; simpl in Ic
                                |by destruct (Iea eq_refl) as [? _]].

Ltac keep_fields := constructor; unfold handled; simpl; rewrite ?Nat.sub_0_r; try done; try lia;
  try (intros ?; congruence); try (match goal with m : mpc |- _ => by destruct m end).

Lemma printer_item_step s it H G :
  inv H G s -> printer s = Some (PItem it) ->
  exists s', printer_step c s = Some (Ok s') /\ inv H G s' /\ main_pc s' = main_pc s.
Proof using c_kw B_pos names_ok dup.
  intros I Hp. destruct (i_held _ _ _ I it) as (g & p & -> & Hg); [by rewrite Hp|].
  pose proof (history_item _ _ _ _ _ _ I Hg) as Hit. unfold printer_step. rewrite Hp. simpl.
  pose proof (take_S_r H g (p, it) Hg) as Ht.
  destruct Hit as [->|(q & -> & Hq & Hl)]; simpl.
  - eexists. split; [done|]. open_printer s I Hp. unfold handled in *. simpl in *.
    rewrite Nat.sub_0_r in *. split; [|done]. keep_fields; simpl.
    + by rewrite Ht, fmap_app, real_app, app_nil_r.
    + by rewrite Ht, fmap_app, real_app, app_nil_r.
    + intros _. split; [done|]. rewrite Ht, fmap_app, dummies_app. simpl.
      change (dummies [dummyItem]) with 1%nat. lia.
  - rewrite (proj2 (Z.eqb_neq _ _)) by lia.
    assert (Hpw : (p < length (workers s))%nat).
    { pose proof (i_origin _ _ _ I) as Ho. rewrite Forall_lookup in Ho. apply (Ho _ _ Hg). }
    destruct (target_name p) as (n & Hn & Hnl); [destruct (i_rest _ _ _ I); lia|].
    unfold item_filename. destruct (i_fnames _ _ _ I) as [Hfn Hfl].
    rewrite <- Hfn, lookup_app_l in Hn by lia. rewrite dup, Hn. simpl.
    assert (target_names names !! p = Some n) by (rewrite <- Hfn, lookup_app_l by lia; done).
    pose proof (format_item_spec n p q Hnl ltac:(lia) Hl) as F.
    rewrite (proj2 (Z.ltb_lt _ _)) in F by lia. rewrite F. simpl. eexists. split; [done|].
    open_printer s I Hp. unfold handled in *. simpl in *. rewrite Nat.sub_0_r in *.
    assert (Hreal : real [to_item p q] = [to_item p q]).
    { unfold real. rewrite filter_cons_True; [done|simpl; lia]. }
    split; [|done]. keep_fields; simpl.
    + rewrite Ht, fmap_app, real_app, length_app. simpl. rewrite Hreal. simpl. lia.
    + rewrite Ht, fmap_app, real_app. simpl. rewrite Hreal.
      by eapply render_snoc.
    + intros _. split; [done|]. rewrite Ht, fmap_app, dummies_app. simpl.
      assert (dummies [to_item p q] = 0%nat) as ->; [|lia].
      unfold dummies. rewrite filter_cons_False; [done|simpl; lia].
Qed.

Lemma printer_get_step s H G :
  inv H G s -> printer s = Some PGet ->
  exists s', printer_step c s = Some (Ok s') /\ inv H (S G) s' /\ main_pc s' = main_pc s.
Proof using c_kw B_pos names_ok dup.
  intros I Hp. unfold printer_step. rewrite Hp. simpl.
  destruct (buffer_get_spec B (t_ring s) H G B_pos (i_ring _ _ _ I)) as ([p it] & r' & Hx & E & Hr').
  { destruct (i_full _ _ _ I) as [F F']. rewrite Hp in F. simpl in F. lia. }
  unfold B in E. rewrite E. simpl. eexists. split; [done|].
  open_printer s I Hp. unfold handled in *. simpl in *. rewrite Nat.sub_0_r in *.
  split; [|done]. keep_fields.
  - intros it' [= <-]. by exists G, p.
  - intros _. split; [done|]. lia.
Qed.
(** A printer that has not started is started only when its node is in the list. *)
Lemma printer_step_inv s o H G :
  inv H G s -> (late (main_pc s) = true \/ printer s <> Some PStart) -> printer_step c s = Some o ->
  exists s' G', o = Ok s' /\ inv H G' s' /\ main_pc s' = main_pc s.
Proof using c_kw B_pos names_ok dup.
  intros I Hl Hs. destruct (printer s) as [pc|] eqn:Hp; [|unfold printer_step in Hs; by rewrite Hp in Hs].
  destruct pc as [| | | | |it|it|it| |v| |v|].
  5: { destruct (printer_get_step s H G I Hp) as (s' & E & I' & Em).
       rewrite E in Hs. injection Hs as <-. eauto. }
  7: { destruct (printer_item_step s it H G I Hp) as (s' & E & I' & Em).
       rewrite E in Hs. injection Hs as <-. eauto. }
  all: unfold printer_step in Hs; rewrite Hp in Hs; simpl in Hs; try done.
  3: destruct (Z.ltb_spec 0 (buffer_full s)); [|done].
  4: destruct (Z.ltb_spec 0 (buffer_mutex s)); [|done].
  all: injection Hs as <-; do 2 eexists; (split; [done|]).
  2: destruct (Z.eqb_spec (threadcount s) 1).
  1: destruct Hl as [Hl|]; [|done].
  all: open_printer s I Hp; unfold handled in *; simpl in *; rewrite ?Nat.sub_0_r in *.
  all: split; [|done]; keep_fields.
  all: try (intros _; split; [done|]).
  all: lia.
Qed.
End Server.
