(* ===== verification/ServerProgress.v ===== *)
(** * The server's search process: steps of the main thread, progress, termination *)

From S2P Require Import Prelude CString ByteMem DirTree ServerSearch ServerThreads ServerRing ServerInvariant.

Section Progress.
Context (c : config) (kw : cstr) (names : list cstr).
Context (c_kw : c_keyword c = Some kw) (B_pos : 0 < threadbuffersize c).
Context (names_ok : Forall (name_ok c) names).
Context (dup : dup_filename (c_src c) = true) (roomy : (2 <= filepath_spare (c_src c))%nat).

Abbreviation inv := (inv c kw names).
Abbreviation items_of := (items_of c kw).

(** ** Counting the dummies *)

Lemma worker_prefix H G s p w :
  inv H G s -> workers s !! p = Some w ->
  exists path, targets c names !! p = Some path /\ from p H `prefix_of` items_of p path.
Proof.
  intros I Hw. destruct (i_workers _ _ _ _ _ _ I p w Hw) as (path & Hp & Hok). exists path.
  split; [done|]. destruct w as [[] items]; simpl in Hok;
    try (rewrite Hok; by apply prefix_app_r).
  - destruct Hok as [_ ->]. apply prefix_nil.
  - by rewrite Hok.
Qed.

(** A worker has at most one dummy in the history, as its last item. *)
Lemma worker_dummies H G s p g :
  inv H G s -> (p < length (workers s))%nat ->
  (dummies (from p (take g H)) <= 1)%nat /\
  (dummies (from p (take g H)) = 1%nat ->
   exists path, targets c names !! p = Some path /\ from p (take g H) = items_of p path).
Proof.
  intros I [w Hw]%lookup_lt_is_Some. destruct (worker_prefix _ _ _ _ _ I Hw) as (path & Hp & Hpre).
  assert (Hpre' : from p (take g H) `prefix_of` items_of p path)
    by (etransitivity; [apply from_prefix|done]).
  split; [rewrite <- (dummies_file_items p kw (contents_of c path)); by apply dummies_prefix|].
  intros Hd. exists path. split; [done|].
  destruct Hpre' as [k Hk]. destruct k as [|x k _] using rev_ind; [by rewrite app_nil_r in Hk|].
  rewrite app_assoc in Hk. unfold ServerInvariant.items_of in Hk.
  apply app_inj_tail in Hk as [Hk _]. pose proof (dummies_file_items p kw (contents_of c path)) as D.
  rewrite Hk, !dummies_app, Hd in D. change (dummies [dummyItem]) with 1%nat in D. lia.
Qed.

Lemma origin_take H G s g :
  inv H G s -> Forall (fun x => (x.1 < length (workers s))%nat) (take g H).
Proof. intros I. apply Forall_take, (i_origin _ _ _ _ _ _ I). Qed.

Lemma dummies_le H G s g : inv H G s -> (dummies (take g H).*2 <= length (workers s))%nat.
Proof.
  intros I. rewrite (dummies_sum _ _ (origin_take _ _ _ g I)).
  etransitivity; [apply sum_list_le|by rewrite length_seq].
  intros p Hp%elem_of_seq. apply (worker_dummies _ _ _ _ _ I). lia.
Qed.

(** When every dummy has been dealt with, so has every item. *)
Lemma all_handled H G s g :
  inv H G s -> dummies (take g H).*2 = length (workers s) ->
  (length H <= g)%nat /\
  (forall p, (p < length (workers s))%nat ->
     exists path, targets c names !! p = Some path /\ from p H = items_of p path).
Proof.
  intros I Hd. rewrite (dummies_sum _ _ (origin_take _ _ _ g I)) in Hd.
  assert (Hall : forall p, (p < length (workers s))%nat ->
    exists path, targets c names !! p = Some path /\ from p (take g H) = items_of p path).
  { intros p Hp. apply (worker_dummies _ _ _ _ _ I); [done|].
    apply (sum_list_full (fun p => dummies (from p (take g H))) (seq 0 (length (workers s)))).
    - intros q Hq%elem_of_seq. apply (worker_dummies _ _ _ _ _ I). lia.
    - rewrite length_seq. lia.
    - apply elem_of_seq. lia. }
  assert (HL : (length H <= g)%nat).
  { destruct (decide (length H <= g)%nat) as [|Hlt]; [done|exfalso].
    destruct (lookup_lt_is_Some_2 H g ltac:(lia)) as [[q it] Hx].
    assert (Hq : (q < length (workers s))%nat).
    { pose proof (i_origin _ _ _ _ _ _ I) as Ho. rewrite Forall_lookup in Ho. apply (Ho _ _ Hx). }
    destruct (Hall q Hq) as (path & Hp & E). apply lookup_lt_is_Some in Hq as [w Hw].
    destruct (worker_prefix _ _ _ _ _ I Hw) as (path' & Hp' & Hpre). simplify_eq.
    assert (Hp2 : from q (take (S g) H) `prefix_of` items_of q path)
      by (etransitivity; [apply from_prefix|done]).
    rewrite (take_S_r H g _ Hx), from_snoc, decide_True, <- E in Hp2 by done.
    apply prefix_length in Hp2. rewrite length_app in Hp2. simpl in Hp2. lia. }
  split; [done|]. by rewrite (take_ge H g) in Hall.
Qed.

(** ** Steps of the main thread *)

Ltac open_main s I :=
  destruct s as [rg em fu mu tc nd ws pr mp lw out fn]; simpl in *; subst mp;
  destruct I as [Ir [Ire Ire'] Ifn Ina Iw Io [Ie Ie'] [If If'] [Im Im'] Ih Il Iou Iea Ist Ips Ila Ij];
  simpl in *.

Ltac main_fields := constructor; simpl in *; try done; try lia.

Lemma from_other H (W p : nat) : Forall (fun x : nat * Item => (x.1 < W)%nat) H -> (W <= p)%nat -> from p H = [].
Proof.
  intros Ho Hp. unfold from. destruct (filter _ _) as [|x l] eqn:E; [done|exfalso].
  assert (x ∈ x :: l) as Hin by set_solver. rewrite <- E in Hin.
  apply list_elem_of_filter in Hin as [H1 H2]. rewrite Forall_forall in Ho.
  specialize (Ho x H2). lia.
Qed.

(** The next name of the directory. *)
Lemma main_next_step s o H G name rest :
  inv H G s -> main_pc s = MNext (name :: rest) -> main_step c s = Some o ->
  exists s', o = Ok s' /\ inv H G s'.
Proof using All.
  intros I Em. unfold main_step. rewrite Em. intros [= <-].
  open_main s I. apply Forall_cons in Ina as [[_ Hn] Ina].
  destruct (Iea eq_refl) as (Hfr & HG & Htc & Hpr). clear Iea Ila.
  rewrite (proj2 (Nat.ltb_ge _ _)) by (unfold join; rewrite length_app; simpl; lia).
  unfold targets in Ire'. cbn [target_names] in Ire', Ifn.
  destruct (hidden name) eqn:Eh; [eexists; split; [done|]; main_fields|].
  destruct Hn as [|[E|[E _]]]; [done| |]; rewrite E in *.
  - eexists; split; [done|]; main_fields.
  - rewrite c_kw. simpl. eexists. split; [done|].
    assert (Hlt : targets c names !! length ws = Some (join (c_dir c) name)).
    { unfold targets. rewrite <- (Nat.add_0_r (length ws)), <- lookup_drop, Ire'. done. }
    assert (Hlen : (length ws < length (targets c names))%nat) by (by eapply lookup_lt_Some).
    constructor; simpl; rewrite ?length_app, ?sum_list_snoc; simpl; try done; try lia.
    + split; [lia|]. rewrite <- drop_drop. unfold targets at 1. by rewrite Ire'.
    + destruct Ifn as [Ifn <-]. split; [|simpl; lia]. by rewrite <- Ifn, <- app_assoc.
    + intros p w Hp. apply lookup_app_Some in Hp as [Hp|[Hge Hp]]; [by apply Iw|].
      apply list_lookup_singleton_Some in Hp as [Hp0 <-].
      assert (p = length ws) as -> by lia. exists (join (c_dir c) name). split; [done|].
      split; [done|]. by eapply from_other.
    + eapply Forall_impl; [exact Io|]. simpl. intros x. lia.
    + intros _. split_and!; [done..|lia|done].
Qed.
Lemma main_step_inv s o H G :
  inv H G s -> main_step c s = Some o -> exists s', o = Ok s' /\ inv H G s'.
Proof using All.
  intros I E. destruct (main_pc s) as [[|name rest]|rest|v rest| | |v| | |[|tid l]|] eqn:Em.
  2: by eapply main_next_step.
  all: unfold main_step in E; rewrite Em in E; try done.
  4: rewrite c_kw in E; simpl in E.
  8: { destruct (Z.eqb_spec (threadcount s) 0) as [Hz|]; [|done]. injection E as <-.
       eexists. split; [done|]. pose proof (dummies_le H G s (handled G (printer s)) I) as D.
       open_main s I. main_fields. destruct (Ila eq_refl) as [Hp Hc].
       destruct pr as [[]|]; simpl in *; try done; lia. }
  9: destruct (finished s tid); [|done].
  all: injection E as <-; eexists; (split; [done|]).
  all: open_main s I; main_fields.
  all: try (destruct (Iea eq_refl) as (Hfr & -> & Htc & Hpr)).
  all: destruct pr as [[]|]; simpl in *; try done; try lia.
  all: try (by destruct Hpr as [_ Hpr]; discriminate (Hpr Logic.I)).
  all: try (by destruct Hpr as [Hpr _]; destruct (Hpr eq_refl)).
  all: intros _; change (dummies []) with 0%nat; split_and!; try done; try lia.
Qed.
(** ** The whole process *)

Definition good (s : thr) : Prop := exists H G, inv H G s.

(** Once the printer's node is in the list, every step is defined and keeps the
    invariant; before that, as long as the printer does not start. *)
Lemma good_main s o : good s -> main_step c s = Some o -> exists s', o = Ok s' /\ good s'.
Proof using All.
  intros (H & G & I) E. destruct (main_step_inv s o H G I E) as (s' & -> & I').
  exists s'. split; [done|]. by exists H, G.
Qed.

Lemma good_worker p s o : good s -> worker_step c p s = Some o -> exists s', o = Ok s' /\ good s'.
Proof using All.
  intros (H & G & I) E.
  destruct (worker_step_inv c kw names c_kw B_pos names_ok s o p H G I E) as (s' & H' & -> & I' & _).
  exists s'. split; [done|]. by exists H', G.
Qed.

Lemma good_printer s o :
  good s -> (late (main_pc s) = true \/ printer s <> Some PStart) -> printer_step c s = Some o ->
  exists s', o = Ok s' /\ good s'.
Proof using All.
  intros (H & G & I) Hl E.
  destruct (printer_step_inv c kw names c_kw B_pos names_ok dup s o H G I Hl E)
    as (s' & G' & -> & I' & _).
  exists s'. split; [done|]. by exists H, G'.
Qed.

Lemma late_step s s' : late (main_pc s) = true -> tstep c s s' -> late (main_pc s') = true.
Proof.
  intros Hl Hst. destruct Hst as [s s' E|p s s' E|s s' E].
  - unfold main_step in E. destruct s; simpl in *. destruct main_pc as [| | | | | | | |[]|]; try done;
      repeat (case_match; try done); by simplify_eq/=.
  - unfold worker_step in E. destruct s; simpl in *. destruct (workers !! p) as [[[] ?]|]; try done;
      simpl in E; repeat (case_match; try done); simplify_eq/=; inv_ok; done.
  - unfold printer_step in E. destruct s; simpl in *. destruct printer as [[]|]; try done;
      simpl in E; repeat (case_match; try done); simplify_eq/=; inv_ok;
      try (destruct a; inv_ok); done.
Qed.
(** ** Termination *)

Definition file_work (path : cstr) : nat :=
  S (length (matches kw 0 (records MAXLINESIZE (contents_of c path)))).

Definition w_rank (pc : wpc) : nat :=
  match pc with
  | WOpen path => 6 * file_work path + 1
  | WEmpty _ => 5 | WMutex _ => 4 | WFill _ => 3 | WPostMutex => 2 | WPostFull => 1 | WDone => 0
  end.

Definition w_work (w : worker) : nat := match w with (pc, items) => 6 * length items + w_rank pc end.

(** The items a worker has still to put into the buffer. *)
Definition w_items (w : worker) : nat :=
  match w with
  | (WOpen path, items) => file_work path + length items
  | (pc, items) => length (carrying pc) + length items
  end.

Definition p_rank (p : option ppc) : nat :=
  match p with
  | None | Some PDone => 0 | Some (PLastStore _) => 1 | Some PGet | Some PLastLoad => 2
  | Some PMutex => 3 | Some PFull => 4 | Some PTest => 5 | Some (PStore _) | Some PStart => 6
  | Some PLoad => 7 | Some (PItem _) => 8 | Some (PPostEmpty _) => 9 | Some (PPostMutex _) => 10
  end.

Definition m_rank (s : thr) : nat :=
  match main_pc s with
  | MJoin l => S (length l) | MDone => 0 | MSpin => 2 + length (nodes s) | _ => 3 + length (nodes s)
  end.

(** What the threads still have to do once the printer's node is in the list. *)
Definition work (s : thr) : nat :=
  sum_list_with w_work (workers s)
  + 12 * (sum_list_with w_items (workers s) + Z.to_nat (buffer_full s)
          + sum_list_with w_unposted (workers s) + Z.to_nat (p_taken (printer s)))
  + p_rank (printer s) + m_rank s.

Lemma length_retrieve p path contents :
  sf_read (c_fs c) path = Some contents -> length (retrieve_keyword p kw contents) = file_work path.
Proof.
  clear roomy. intros E. rewrite retrieve_keyword_spec, length_app. unfold file_items, file_work, contents_of.
  rewrite length_map, E. simpl. lia.
Qed.

Lemma next_item_work items :
  (w_work (next_item items) < 6 * length items + 1)%nat /\
  w_items (next_item items) = length items /\ w_unposted (next_item items) = 0%nat.
Proof. clear roomy. destruct items; simpl; split_and!; lia. Qed.

Lemma worker_work p s s' :
  worker_step c p s = Some (Ok s') -> 0 <= buffer_full s -> (work s' < work s)%nat.
Proof using c_kw.
  clear roomy. intros E Hf. unfold worker_step in E. destruct (workers s !! p) as [[pc items]|] eqn:Hw; [|done].
  destruct s as [rg em fu mu tc nd ws pr mp lw out fn]; simpl in *.
  rewrite c_kw in E.
  destruct pc as [path|it|it|it| | |]; simpl in E; try done;
    repeat (case_match eqn:Er; try done); injection E as E; inv_ok; subst; unfold work, m_rank; cbn -[Nat.mul file_work retrieve_keyword next_item];
    match goal with |- context [<[p := ?w']> ws] =>
      pose proof (sum_list_insert w_work ws p _ w' Hw) as S1;
      pose proof (sum_list_insert w_items ws p _ w' Hw) as S2;
      pose proof (sum_list_insert w_unposted ws p _ w' Hw) as S3
    end;
    cbn [w_work w_items w_unposted w_rank carrying length] in S1, S2, S3; try lia.
  - pose proof (next_item_work (retrieve_keyword p kw l)) as (N1 & N2 & N3).
    rewrite (length_retrieve p path l) in N1, N2 by done. lia.
  - pose proof (next_item_work items) as (N1 & N2 & N3). lia.
Qed.

Lemma printer_work s s' :
  printer_step c s = Some (Ok s') -> 0 <= buffer_full s -> (work s' < work s)%nat.
Proof.
  clear roomy. intros E Hf. unfold printer_step in E.
  destruct s as [rg em fu mu tc nd ws pr mp lw out fn]; simpl in *.
  destruct pr as [[]|]; simpl in E; try done; repeat (case_match; try done); injection E as E;
    inv_ok; try (destruct a; inv_ok); subst; unfold work, m_rank; cbn -[Nat.mul]; try lia.
Qed.

Lemma main_work s s' :
  late (main_pc s) = true -> main_step c s = Some (Ok s') -> (work s' < work s)%nat.
Proof.
  clear roomy. intros Hl E. unfold main_step in E.
  destruct s as [rg em fu mu tc nd ws pr mp lw out fn]; simpl in *.
  destruct mp as [| | | | | | | |[]|]; simpl in E; try done; repeat (case_match; try done);
    injection E as E; inv_ok; subst; unfold work, m_rank; cbn -[Nat.mul]; try lia.
Qed.

Definition good_late (s : thr) : Prop := good s /\ late (main_pc s) = true.

Lemma good_late_step s s' : good_late s -> tstep c s s' -> good_late s' /\ (work s' < work s)%nat.
Proof using All.
  intros [I Hl] Hst. pose proof (late_step s s' Hl Hst) as Hl'.
  assert (Hf : 0 <= buffer_full s) by (destruct I as (H & G & I); apply (i_full _ _ _ _ _ _ I)).
  destruct Hst as [s s' E|p s s' E|s s' E].
  - split; [|by apply main_work]. by destruct (good_main _ _ I E) as (s1 & [= <-] & I').
  - split; [|by eapply worker_work]. by destruct (good_worker _ _ _ I E) as (s1 & [= <-] & I').
  - split; [|by apply printer_work].
    by destruct (good_printer _ _ I (or_introl Hl) E) as (s1 & [= <-] & I').
Qed.
(** ** Progress *)

Section Stuck.
Context (s : thr) (H : list (nat * Item)) (G : nat).
Context (I : inv H G s) (Hlate : late (main_pc s) = true) (Hst : forall s', ~ tstep c s s').

Lemma no_worker_step p : worker_step c p s = None.
Proof using All.
  destruct (worker_step c p s) as [o|] eqn:E; [exfalso|done].
  destruct (good_worker p s o (ex_intro _ H (ex_intro _ G I)) E) as (s' & -> & _).
  by eapply Hst, tstep_worker.
Qed.

Lemma no_printer_step : printer_step c s = None.
Proof using All.
  destruct (printer_step c s) as [o|] eqn:E; [exfalso|done].
  destruct (good_printer s o (ex_intro _ H (ex_intro _ G I)) (or_introl Hlate) E) as (s' & -> & _).
  by eapply Hst, tstep_printer.
Qed.

Lemma no_main_step : main_step c s = None.
Proof using All.
  destruct (main_step c s) as [o|] eqn:E; [exfalso|done].
  destruct (good_main s o (ex_intro _ H (ex_intro _ G I)) E) as (s' & -> & _).
  by eapply Hst, tstep_main.
Qed.

(** No thread is in the critical section. *)
Lemma stuck_mutex : 0 < buffer_mutex s.
Proof using All.
  destruct (i_mutex _ _ _ _ _ _ I) as [Hm _].
  assert (p_crit (printer s) = 0) as Hp.
  { pose proof no_printer_step as N. unfold printer_step in N.
    destruct (printer s) as [[]|]; try done; simpl in N; done. }
  assert (sum_list_with w_crit (workers s) = 0%nat) as Hw; [|lia].
  apply sum_list_zero. intros p [pc items] Hw. pose proof (no_worker_step p) as N.
  unfold worker_step in N. rewrite Hw in N. simpl in N.
  destruct pc; try done; done.
Qed.

Lemma stuck_worker p w :
  workers s !! p = Some w -> w.1 = WDone \/ (exists it, w.1 = WEmpty it) /\ buffer_empty s <= 0.
Proof using All.
  intros Hw. pose proof (no_worker_step p) as N. unfold worker_step in N. rewrite Hw in N.
  simpl in N. destruct w as [[] items]; simpl; try done; [|..|by left].
  - right. split; [eauto|]. destruct (Z.ltb_spec 0 (buffer_empty s)); [done|done].
  - pose proof stuck_mutex as Hm. apply Z.ltb_lt in Hm. rewrite Hm in N. done.
Qed.

Lemma stuck_sums :
  sum_list_with w_slot (workers s) = 0%nat /\ sum_list_with w_unposted (workers s) = 0%nat.
Proof using All.
  split; apply sum_list_zero; intros p [pc items] Hw;
    by destruct (stuck_worker p _ Hw) as [E|[[it E] _]]; simpl in E; subst pc.
Qed.

Lemma stuck_printer :
  printer s = Some PDone \/ (printer s = Some PFull /\ buffer_full s <= 0).
Proof using All.
  pose proof no_printer_step as N. unfold printer_step in N.
  destruct (i_late _ _ _ _ _ _ I Hlate) as [Hp _].
  destruct (printer s) as [[]|]; try done; simpl in N; try done; auto.
  - right. split; [done|]. destruct (Z.ltb_spec 0 (buffer_full s)); [done|done].
  - pose proof stuck_mutex as Hm. apply Z.ltb_lt in Hm. rewrite Hm in N. done.
Qed.

(** With the buffer empty no worker waits. *)
Lemma stuck_workers_done :
  length H = G -> p_unfreed (printer s) = 0 -> forall p w, workers s !! p = Some w -> w.1 = WDone.
Proof using All.
  intros HG Hu p w Hw. destruct (stuck_worker p w Hw) as [?|[_ He]]; [done|].
  destruct (i_empty _ _ _ _ _ _ I) as [E _]. destruct stuck_sums as [S1 _].
  rewrite S1, Hu, HG in E. lia.
Qed.

Lemma stuck_printer_done : printer s = Some PDone.
Proof using All.
  destruct stuck_printer as [|[Hp Hf]]; [done|exfalso].
  destruct stuck_sums as [S1 S2]. destruct (i_full _ _ _ _ _ _ I) as [F F'].
  pose proof (ring_taken _ _ _ _ (i_ring _ _ _ _ _ _ I)) as HG.
  rewrite Hp, S2 in F. simpl in F. assert (length H = G) as EG by lia.
  assert (D : forall p w, workers s !! p = Some w -> w.1 = WDone)
    by (apply stuck_workers_done; [done|by rewrite Hp]).
  destruct (i_late _ _ _ _ _ _ I Hlate) as [_ C]. rewrite Hp in C. simpl in C.
  destruct C as [C C']. unfold handled in C. simpl in C. rewrite Nat.sub_0_r in C.
  rewrite take_ge in C by lia. rewrite (dummies_sum H (length (workers s))) in C
    by apply (i_origin _ _ _ _ _ _ I).
  assert (sum_list_with (fun p => dummies (from p H)) (seq 0 (length (workers s)))
          = length (workers s)) as E; [|rewrite E in C; lia].
  rewrite <- (length_seq (length (workers s)) 0) at 2. apply Nat.le_antisymm.
  - apply sum_list_le. intros p Hp'%elem_of_seq. rewrite <- (take_ge H (length H)) by lia.
    apply (worker_dummies _ _ _ _ _ I). lia.
  - assert (A : forall p, p ∈ seq 0 (length (workers s)) -> dummies (from p H) = 1%nat).
    { intros p Hp'%elem_of_seq. destruct (lookup_lt_is_Some_2 (workers s) p ltac:(lia)) as [[pc it] Hw].
      pose proof (D p _ Hw) as Dw. simpl in Dw. subst pc.
      destruct (i_workers _ _ _ _ _ _ I p _ Hw) as (path & _ & Hok). simpl in Hok.
      rewrite <- Hok. apply dummies_file_items. }
    clear -A. induction (seq 0 _) as [|q l IH]; simpl; [lia|].
    rewrite (A q) by set_solver. specialize (IH ltac:(set_solver)). lia.
Qed.

(** A search process that cannot step has ended, with every item printed. *)
Lemma stuck_end :
  main_pc s = MDone /\ length (workers s) = length (targets c names) /\
  lines_written s = length (real H.*2) /\ render (target_names c names) (real H.*2) = Ok (output s) /\
  (forall p path, targets c names !! p = Some path -> from p H = items_of p path).
Proof using All.
  pose proof stuck_printer_done as Hp.
  destruct (i_late _ _ _ _ _ _ I Hlate) as [_ C]. rewrite Hp in C. unfold handled in C. simpl in C.
  rewrite Nat.sub_0_r in C. destruct C as [Cd Ct].
  destruct (all_handled H G s G I Cd) as [HL Hall].
  pose proof (ring_taken _ _ _ _ (i_ring _ _ _ _ _ _ I)) as HG.
  assert (D : forall p w, workers s !! p = Some w -> w.1 = WDone)
    by (apply stuck_workers_done; [lia|by rewrite Hp]).
  assert (EW : length (workers s) = length (targets c names)).
  { destruct (i_rest _ _ _ _ _ _ I) as [E1 E2].
    assert (rest_names (main_pc s) = []) as Er by (by destruct (main_pc s)). rewrite Er in E2.
    apply Nat.le_antisymm; [done|]. pose proof (length_drop (targets c names) (length (workers s))) as L.
    rewrite E2 in L. simpl in L. lia. }
  split_and!; [|done|..].
  - pose proof no_main_step as N. unfold main_step in N.
    destruct (main_pc s) as [| | | | | | | |[|tid l]|]; try done; try done.
    + rewrite Ct in N. done.
    + assert (finished s tid = true) as E; [|rewrite E in N; done].
      unfold finished. destruct (workers s !! tid) as [[pc it]|] eqn:Hw; [|by rewrite Hp].
      pose proof (D tid _ Hw) as Dw. simpl in Dw. by subst pc.
  - pose proof (i_lines _ _ _ _ _ _ I) as O. rewrite Hp in O. unfold handled in O. simpl in O.
    by rewrite Nat.sub_0_r, take_ge in O by lia.
  - pose proof (i_output _ _ _ _ _ _ I) as O. rewrite Hp in O. unfold handled in O. simpl in O.
    by rewrite Nat.sub_0_r, take_ge in O by lia.
  - intros p path Ht. destruct (Hall p) as (path' & Ht' & E); [|by simplify_eq].
    rewrite EW. by eapply lookup_lt_Some.
Qed.
End Stuck.
End Progress.
