(* ===== verification/ServerProcess.v ===== *)
(** * The server's search process: the theorems

    What the repaired search process writes when the printer's node is in the list
    before the printer runs, what the source does as written, and what can happen when
    the printer's node is not in the list. *)

From S2P Require Import Prelude CString ByteMem DirTree ServerSearch ServerThreads ServerRing ServerInvariant ServerProgress.

(** ** The start *)

(** The printer does not exist before main creates it. *)
Definition unborn (s : thr) : Prop :=
  match main_pc s with
  | MNext _ | MLoad _ | MStore _ _ | MPrinter => printer s = None
  | _ => True
  end.

Lemma unborn_step c s s' : unborn s -> tstep c s s' -> unborn s'.
Proof.
  unfold unborn. intros U Hst. destruct Hst as [s s' E|p s s' E|s s' E].
  - unfold main_step in E. destruct s; simpl in *.
    destruct main_pc as [[]| | | | | | | |[]|]; try done; repeat (case_match; try done);
      injection E as E; inv_ok; try subst s'; done.
  - unfold worker_step in E. destruct s; simpl in *.
    destruct (workers !! p) as [[[] ?]|]; try done; simpl in E; repeat (case_match; try done);
      injection E as E; inv_ok; try subst s'; done.
  - unfold printer_step in E. destruct s; simpl in *.
    destruct printer as [pc|]; [|done]. destruct main_pc; try done; simpl in E;
      destruct pc; repeat (case_match; try done);
      injection E as E; inv_ok; try (destruct a; inv_ok); try subst s'; done.
Qed.

(** The same request with the file names duplicated. *)
Definition dup_names (c : config) : config :=
  Config (c_fs c) (c_dir c) (c_keyword c) (threadbuffersize c) (c_dname c)
    (Edits (filepath_spare (c_src c)) true).

(** While the printer has not started, only the others step, and they do not read
    the names. *)
Lemma fresh_back c s s' :
  unborn s -> tstep c s s' -> fresh (printer s') = true ->
  fresh (printer s) = true /\ tstep (dup_names c) s s'.
Proof.
  intros U Hst Hf. destruct Hst as [s s' E|p s s' E|s s' E].
  - split; [|by apply tstep_main]. unfold unborn in U. unfold main_step in E. destruct s; simpl in *.
    destruct main_pc as [[]| | | | | | | |[]|]; try (by rewrite U); try done;
      repeat (case_match; try done); injection E as E; inv_ok; try subst s'; done.
  - split; [|by eapply tstep_worker]. unfold worker_step in E. destruct s; simpl in *.
    destruct (workers !! p) as [[[] ?]|]; try done; simpl in E; repeat (case_match; try done);
      injection E as E; inv_ok; try subst s'; done.
  - exfalso. unfold printer_step in E. destruct s; simpl in *.
    destruct printer as [[]|]; try done; simpl in E; repeat (case_match; try done);
      injection E as E; inv_ok; try (destruct a; inv_ok); try subst s'; done.
Qed.

Lemma fresh_reach c s0 s :
  unborn s0 -> rtc (tstep c) s0 s -> fresh (printer s) = true -> rtc (tstep (dup_names c)) s0 s.
Proof.
  intros U Hr. apply (rtc_invariant (tstep c)
    (fun s => unborn s /\ (fresh (printer s) = true -> rtc (tstep (dup_names c)) s0 s))) with (s := s0); [|done|].
  - intros s1 s2 [U1 IH] Hst. split; [by eapply unborn_step|]. intros Hf.
    destruct (fresh_back c s1 s2 U1 Hst Hf) as [Hf1 H12]. eapply rtc_r; eauto.
  - done.
Qed.

Section Start.
Context (c : config) (kw : cstr) (names : list cstr) (s0 : thr).
Context (c_kw : c_keyword c = Some kw) (B_pos : 0 < threadbuffersize c).
Context (names_ok : Forall (name_ok c) names).
Context (dup : dup_filename (c_src c) = true) (roomy : (2 <= filepath_spare (c_src c))%nat).
Context (Hs0 : s0 = Thr (Ring (replicate (Z.to_nat (threadbuffersize c)) None) 0 0)
                      (threadbuffersize c) 0 1 0 [] [] None (MNext names) 0 [] []).

Lemma start_inv : inv c kw names [] 0 s0.
Proof using All.
  rewrite Hs0. constructor; simpl; try done; try lia; [by apply ring_ok_empty|].
  split; [lia|by rewrite drop_0].
Qed.

(** Up to the insertion of the printer's node, as long as it has not started. *)
Lemma fresh_step s s' :
  unborn s -> (fresh (printer s) = true -> good c kw names s) -> tstep c s s' ->
  fresh (printer s') = true -> good c kw names s'.
Proof using All.
  intros U IH Hst Hf. destruct (fresh_back c s s' U Hst Hf) as [Hfs _]. specialize (IH Hfs).
  destruct Hst as [s s' E|p s s' E|s s' E].
  - by destruct (good_main c kw names c_kw B_pos names_ok dup roomy s _ IH E) as (s1 & [= <-] & ?).
  - by destruct (good_worker c kw names c_kw B_pos names_ok dup roomy p s _ IH E) as (s1 & [= <-] & ?).
  - exfalso. clear -E Hf. unfold printer_step in E. destruct s; simpl in *.
    destruct printer as [[]|]; try done; simpl in E; repeat (case_match; try done);
      injection E as E; inv_ok; try (destruct a; inv_ok); try subst s'; done.
Qed.

Lemma fresh_good s : rtc (tstep c) s0 s -> fresh (printer s) = true -> good c kw names s.
Proof using All.
  intros Hr. apply (rtc_invariant (tstep c)
    (fun s => unborn s /\ (fresh (printer s) = true -> good c kw names s))) with (s := s0); [|done|].
  - intros s1 s2 [U IH] Hst. split; [by eapply unborn_step|by eapply fresh_step].
  - split; [by rewrite Hs0|]. intros _. exists [], 0%nat. apply start_inv.
Qed.

Lemma start_late s1 :
  rtc (tstep c) s0 s1 -> late (main_pc s1) = true -> printer s1 = Some PStart -> good_late c kw names s1.
Proof using All. intros Hr Hm Hp. split; [|done]. apply fresh_good; [done|by rewrite Hp]. Qed.

Lemma late_reach s1 s : good_late c kw names s1 -> rtc (tstep c) s1 s -> good_late c kw names s.
Proof using c_kw B_pos names_ok dup roomy.
  intros G1 Hs. eapply rtc_invariant; [|done..]. intros a b Ha Hab.
  by apply (good_late_step c kw names c_kw B_pos names_ok dup roomy a b Ha Hab).
Qed.

Lemma late_bound s1 s k : good_late c kw names s1 -> nsteps (tstep c) k s1 s -> (k <= work c kw s1)%nat.
Proof using c_kw B_pos names_ok dup roomy.
  intros G1 Hs. pose proof (nsteps_measure (tstep c) (good_late c kw names) (work c kw)
    (good_late_step c kw names c_kw B_pos names_ok dup roomy) k s1 s Hs G1). lia.
Qed.
End Start.

(** ** The printed lines as an interleaving *)


Lemma real_from p H : from p (filter (fun x => linenumber x.2 <> -1) H) = real (from p H).
Proof.
  induction H as [|[q it] H IH]; [done|]. rewrite from_cons, real_app, filter_cons. simpl.
  destruct (decide (linenumber it = -1)) as [E|E].
  - rewrite decide_False by auto. rewrite IH. case_decide; [|done].
    unfold real at 2. by rewrite filter_cons_False by auto.
  - rewrite decide_True by done. rewrite from_cons, IH. case_decide; [|done].
    unfold real at 2. by rewrite filter_cons_True by done.
Qed.

Lemma real_snd H : real H.*2 = (filter (fun x : nat * Item => linenumber x.2 <> -1) H).*2.
Proof.
  unfold real. induction H as [|[q it] H IH]; [done|].
  rewrite fmap_cons, !filter_cons. simpl. case_decide; simpl; by rewrite IH.
Qed.

Lemma real_items p kw cs : real (file_items p kw cs ++ [dummyItem]) = file_items p kw cs.
Proof.
  rewrite real_app. change (real [dummyItem]) with (@nil Item). rewrite app_nil_r.
  apply filter_all. intros it (q & -> & Hq & _)%file_items_elem. simpl. lia.
Qed.

(** ** Properties *)


(** ** The source as written *)

(** Only the printer writes. *)
Lemma main_quiet c s s' :
  main_step c s = Some (Ok s') -> lines_written s' = lines_written s /\ output s' = output s.
Proof.
  unfold main_step. intros E. destruct s; simpl in *.
  destruct main_pc as [[]| | | | | | | |[]|]; try done; repeat (case_match; try done);
    simplify_eq/=; inv_ok; done.
Qed.

Lemma worker_quiet c p s s' :
  worker_step c p s = Some (Ok s') -> lines_written s' = lines_written s /\ output s' = output s /\
    main_pc s' = main_pc s /\ printer s' = printer s.
Proof.
  unfold worker_step. intros E. destruct s; simpl in *.
  destruct (workers !! p) as [[[] ?]|]; try done; simpl in E; repeat (case_match; try done);
    simplify_eq/=; inv_ok; done.
Qed.

Lemma fresh_quiet c s0 s :
  unborn s0 -> rtc (tstep c) s0 s -> fresh (printer s) = true ->
  lines_written s = lines_written s0 /\ output s = output s0.
Proof.
  intros U Hr. apply (rtc_invariant (tstep c)
    (fun s => unborn s /\ (fresh (printer s) = true ->
       lines_written s = lines_written s0 /\ output s = output s0))) with (s := s0); [|done|done].
  intros s1 s2 [U1 IH] Hst. split; [by eapply unborn_step|]. intros Hf.
  destruct (fresh_back c s1 s2 U1 Hst Hf) as [Hf1 _]. destruct (IH Hf1) as [<- <-].
  destruct Hst as [s1 s2 E|p s1 s2 E|s1 s2 E]; [by eapply main_quiet|by edestruct worker_quiet as (? & ? & _)|].
  exfalso. clear -E Hf. unfold printer_step in E. destruct s1; simpl in *.
  destruct printer as [[]|]; try done; simpl in E; repeat (case_match; try done);
    injection E as E; inv_ok; try (destruct a; inv_ok); try subst s2; done.
Qed.

(** With the stream closed, the printer's step agrees with the repaired one up to the
    first line it formats. *)
Lemma closed_printer_step c s :
  dup_filename (c_src c) = false -> closed (main_pc s) = true ->
  printer_step c s = Some (Undef UseAfterFree) \/
  (printer_step c s = printer_step (dup_names c) s /\
   forall s', printer_step c s = Some (Ok s') -> lines_written s' = lines_written s /\ output s' = output s).
Proof.
  intros Hdup Hc. unfold printer_step. destruct s; simpl in *. destruct printer as [[]|]; simpl; [..|by right];
    try (right; split; [done|]; intros s' E; repeat (case_match; try done); simplify_eq/=; inv_ok;
         try (destruct a; inv_ok); done).
  unfold item_filename. simpl. rewrite Hdup, Hc.
  repeat case_match; simpl; try by left.
  all: right; split; [done|]; intros s' E; by simplify_eq/=.
Qed.

Lemma closed_step c s s' :
  dup_filename (c_src c) = false -> closed (main_pc s) = true -> tstep c s s' ->
  tstep (dup_names c) s s' /\ closed (main_pc s') = true /\
  lines_written s' = lines_written s /\ output s' = output s.
Proof.
  intros Hdup Hc Hst. destruct Hst as [s s' E|p s s' E|s s' E].
  - split; [by apply tstep_main|]. split; [|by eapply main_quiet]. unfold main_step in E. destruct s; simpl in *.
    destruct main_pc as [| | | | | | | |[]|]; try done; repeat (case_match; try done); by simplify_eq/=.
  - split; [by eapply tstep_worker|]. destruct (worker_quiet c p s s' E) as (? & ? & -> & _). done.
  - destruct (closed_printer_step c s Hdup Hc) as [E'|[E1 E2]]; [congruence|].
    split; [apply tstep_printer; congruence|]. split; [|by apply E2].
    clear E1 E2. unfold printer_step in E. destruct s; simpl in *. destruct printer as [[]|]; try done;
      simpl in E; repeat (case_match; try done); simplify_eq/=; inv_ok; try (destruct a; inv_ok); done.
Qed.

Lemma closed_reach c s1 s :
  dup_filename (c_src c) = false -> closed (main_pc s1) = true -> rtc (tstep c) s1 s ->
  rtc (tstep (dup_names c)) s1 s /\ closed (main_pc s) = true /\
  lines_written s = lines_written s1 /\ output s = output s1.
Proof.
  intros Hdup Hc Hr. revert Hc. induction Hr as [s|s1 s2 s H12 Hr IH]; intros Hc; [done|].
  destruct (closed_step c s1 s2 Hdup Hc H12) as (H12' & Hc2 & <- & <-).
  destruct (IH Hc2) as (? & ? & ? & ?). split_and!; try done. by eapply rtc_l.
Qed.

Lemma closed_nsteps c k s1 s :
  dup_filename (c_src c) = false -> closed (main_pc s1) = true -> nsteps (tstep c) k s1 s ->
  nsteps (tstep (dup_names c)) k s1 s.
Proof.
  intros Hdup Hc Hr. revert Hc. induction Hr as [s|k s1 s2 s H12 Hr IH]; intros Hc; [constructor|].
  destruct (closed_step c s1 s2 Hdup Hc H12) as (? & Hc2 & _). econstructor; eauto.
Qed.

(** The array for the path is declared two bytes short: the first directory entry,
    hidden or not, overflows it. *)
Lemma path_overflow c s name rest :
  main_pc s = MNext (name :: rest) -> (filepath_spare (c_src c) < 2)%nat ->
  main_step c s = Some (Undef BufferOverflow).
Proof.
  intros Hm Hv. unfold main_step. rewrite Hm.
  rewrite (proj2 (Nat.ltb_lt _ _)); [done|]. unfold join. rewrite length_app. simpl. lia.
Qed.

(** A process that prints in a closed directory, without names of its own, stops at
    the first line. *)
Lemma closed_stuck c kw names s1 s :
  c_keyword c = Some kw -> 0 < threadbuffersize c -> Forall (name_ok c) names ->
  dup_filename (c_src c) = false -> (2 <= filepath_spare (c_src c))%nat ->
  good_late (dup_names c) kw names s1 -> closed (main_pc s1) = true -> lines_written s1 = 0%nat ->
  (exists p path, targets c names !! p = Some path /\ file_items p kw (contents_of c path) <> []) ->
  rtc (tstep c) s1 s -> (forall s', ~ tstep c s s') -> printer_step c s = Some (Undef UseAfterFree).
Proof.
  intros Hk HB Hn Hdup Hsp G1 Hc Hz (p & path & Hp & Hne) Hr Hst. set (c' := dup_names c) in *.
  destruct (closed_reach c s1 s Hdup Hc Hr) as (Hr' & Hcs & Hl & _).
  assert (Gs : good_late c' kw names s) by (by eapply (late_reach c' kw names Hk HB Hn eq_refl Hsp)).
  destruct (closed_printer_step c s Hdup Hcs) as [|[E _]]; [done|exfalso].
  destruct Gs as [(H & G & I) Hlate].
  assert (Hst' : forall s', ~ tstep c' s s').
  { intros s' Hs'. destruct Hs' as [s s' Es|q s s' Es|s s' Es].
    - by apply (Hst s'), tstep_main.
    - by eapply (Hst s'), tstep_worker.
    - apply (Hst s'), tstep_printer. rewrite E. exact Es. }
  destruct (stuck_end c' kw names Hk HB Hn eq_refl Hsp s H G I Hlate Hst') as (_ & _ & HL & _ & HF).
  rewrite Hl, Hz in HL. symmetry in HL. apply nil_length_inv in HL.
  apply Hne. rewrite <- (real_items p kw (contents_of c path)).
  change (real (items_of c' kw p path) = []). rewrite <- (HF p path Hp), <- real_from.
  rewrite real_snd in HL. apply fmap_nil_inv in HL. by rewrite HL.
Qed.

(** C38: the search process as written ([filepath_spare = 0], the file name not
    duplicated) has undefined behaviour.  Its first step overflows [filepath] whenever
    the directory has an entry.  And were the array large enough: when the directory
    has been closed before the printer starts and some file has a matching line, every
    run ends, and it ends with nothing written and the printer about to read the file
    name in the storage that [closedir] has freed. *)
Theorem search_undefined_as_written fs dname src request B c s0 kw names :
  0 < B -> dup_filename src = false -> handle_client_request fs dname src request B = Ok (c, s0) ->
  c_keyword c = Some kw -> sf_readdir fs (c_dir c) = Some names -> Forall (name_ok c) names ->
  ((filepath_spare src < 2)%nat -> names <> [] ->
     main_step c s0 = Some (Undef BufferOverflow) /\ forall s', ~ tstep c s0 s') /\
  ((2 <= filepath_spare src)%nat -> forall s1,
     rtc (tstep c) s0 s1 -> closed (main_pc s1) = true -> printer s1 = Some PStart ->
     (exists p path, targets c names !! p = Some path /\ file_items p kw (contents_of c path) <> []) ->
     (forall k s, nsteps (tstep c) k s1 s -> (k <= work c kw s1)%nat) /\
     (forall s, rtc (tstep c) s1 s -> (forall s', ~ tstep c s s') ->
        printer_step c s = Some (Undef UseAfterFree) /\ output s = [])).
Proof.
  intros HB Hdup Hh Hk Hd Hn. unfold handle_client_request in Hh.
  destruct (strtok_r [space] request) as [[dir ctx]|]; [|done]. inv_ok. simpl in *.
  assert (a = names) as -> by congruence. set (c := Config _ _ _ _ _ _) in *. set (s0 := Thr _ _ _ _ _ _ _ _ _ _ _ _) in *.
  split.
  - intros Hsp Hne. destruct names as [|name rest]; [done|].
    assert (Eov : main_step c s0 = Some (Undef BufferOverflow)) by (by eapply path_overflow).
    split; [done|]. intros s' Hst. remember s0 as s eqn:Es. destruct Hst as [s s' E'|p s s' E'|s s' E'];
      [congruence|subst s; done..].
  - intros Hsp s1 Hr Hc Hp Hm.
    assert (Hf : fresh (printer s1) = true) by (by rewrite Hp).
    assert (Hl : late (main_pc s1) = true) by (by destruct (main_pc s1)).
    assert (G1 : good_late (dup_names c) kw names s1).
    { eapply (start_late (dup_names c)); try done. by apply (fresh_reach c s0). }
    destruct (fresh_quiet c s0 s1 eq_refl Hr Hf) as [Hz Ho]. split.
    + intros k s Hs. apply (late_bound (dup_names c) kw names Hk HB Hn eq_refl Hsp s1 s k G1).
      by apply closed_nsteps.
    + intros s Hs Hst. split; [by eapply (closed_stuck c kw names s1)|].
      destruct (closed_reach c s1 s Hdup Hc Hs) as (_ & _ & _ & ->). done.
Qed.

(** A worker hands over exactly one item for every record that has the keyword
    among its words, with the record's number and text, in order, and then the
    dummy: the second stream, which lags behind the first, ends up at the right
    record every time. *)
Theorem worker_items_are_matches p keyword contents :
  retrieve_keyword p keyword contents =
    map (to_item p) (matches keyword 0 (records MAXLINESIZE contents)) ++ [dummyItem].
Proof. apply retrieve_keyword_spec. Qed.

(** C40: a line of a file is printed as name, number and text for a name of up to 255
    bytes, within the output buffer, when its number is below 10000; from 10000 on
    [sprintf] overflows the five bytes of [linenumber]. *)
Theorem matching_line_format name p keyword contents q :
  (length name <= 255)%nat -> q ∈ matches keyword 0 (records MAXLINESIZE contents) ->
  format_item name (to_item p q) =
    if q.1 <? 10000 then Ok (name ++ [colon] ++ dec q.1 ++ [colon] ++ c_str q.2)
    else Undef BufferOverflow.
Proof.
  intros Hn Hq. destruct (file_items_elem p keyword contents (to_item p q)) as (q' & E & Hr & Hl).
  - by apply list_elem_of_fmap_2.
  - destruct q as [n l], q' as [n' l']. injection E as <- <-. apply format_item_spec; simpl in *; lia || done.
Qed.

(** ** A concrete search *)

(** Runs given by the threads that step. *)
Inductive who := Main | Worker (p : nat) | Printer.

Definition step_of (c : config) (w : who) (s : thr) : option (res thr) :=
  match w with Main => main_step c s | Worker p => worker_step c p s | Printer => printer_step c s end.

Fixpoint run (c : config) (ws : list who) (s : thr) : option thr :=
  match ws with
  | [] => Some s
  | w :: ws' => match step_of c w s with Some (Ok s') => run c ws' s' | _ => None end
  end.

Lemma run_rtc c ws s s' : run c ws s = Some s' -> rtc (tstep c) s s'.
Proof.
  revert s. induction ws as [|w ws IH]; intros s; simpl; [by intros [= ->]|].
  destruct (step_of c w s) as [[s2| | |]|] eqn:E; try done. intros H.
  eapply rtc_l; [|by apply IH]. destruct w; simpl in E.
  - by apply tstep_main.
  - by eapply tstep_worker.
  - by apply tstep_printer.
Qed.

(** ** The race of the printer *)





Module DemoServer.
(** One directory with one file of one line, which contains the keyword. *)
Definition fs : sfs := Sfs
  (fun d => if bool_decide (d = lit "d") then Some [lit "."; lit "a"] else None)
  (fun p => if bool_decide (p = lit "d/a") then Some true else Some false)
  (fun p => if bool_decide (p = lit "d/a") then Some (lit "key" ++ [newline]) else None).
Definition dname (k p : nat) : cstr := lit "a".
Definition names : list cstr := [lit "."; lit "a"].
Definition c (src : edits) : config := Config fs (lit "d") (Some (lit "key")) 10 dname src.
Definition s0 : thr :=
  Thr (Ring (replicate 10 None) 0 0) 10 0 1 0 [] [] None (MNext names) 0 [] [].
(** The main thread alone, up to the end of [search_directory]. *)
Definition prompt : list who := replicate 9 Main.
Definition s1 : thr := default s0 (run (c repaired) prompt s0).
(** Only the array is repaired. *)
Definition larger : edits := Edits 2 false.

Lemma names_ok src : Forall (name_ok (c src)) names.
Proof.
  apply Forall_cons. split; [|apply Forall_cons; split; [|done]].
  - split; [vm_compute; lia|by left].
  - split; [vm_compute; lia|]. right. right. split; [done|].
    eexists. split; [reflexivity|]. vm_compute. reflexivity.
Qed.
End DemoServer.


Lemma search_undefined_as_written_witness :
  main_step (DemoServer.c as_written) DemoServer.s0 = Some (Undef BufferOverflow) /\
  (forall s, rtc (tstep (DemoServer.c DemoServer.larger)) DemoServer.s1 s ->
     (forall s', ~ tstep (DemoServer.c DemoServer.larger) s s') ->
     printer_step (DemoServer.c DemoServer.larger) s = Some (Undef UseAfterFree) /\ output s = []).
Proof.
  split.
  - apply (search_undefined_as_written DemoServer.fs DemoServer.dname as_written (lit "d key") 10
             (DemoServer.c as_written) DemoServer.s0 (lit "key") DemoServer.names);
      [lia | reflexivity | vm_compute; reflexivity | reflexivity | vm_compute; reflexivity
      | apply DemoServer.names_ok | vm_compute; lia | discriminate].
  - apply (search_undefined_as_written DemoServer.fs DemoServer.dname DemoServer.larger (lit "d key") 10
             (DemoServer.c DemoServer.larger) DemoServer.s0 (lit "key") DemoServer.names);
      [lia | reflexivity | vm_compute; reflexivity | reflexivity | vm_compute; reflexivity
      | apply DemoServer.names_ok | vm_compute; lia
      | apply (run_rtc _ DemoServer.prompt); vm_compute; reflexivity
      | vm_compute; reflexivity | vm_compute; reflexivity
      | exists 0%nat, (lit "d/a"); split; [vm_compute; reflexivity | vm_compute; discriminate]].
Defined.


Lemma matching_line_format_witness :
  format_item (lit "a") (to_item 0 (1, lit "key" ++ [newline])) =
    Ok (lit "a:1:key" ++ [newline]).
Proof.
  rewrite (matching_line_format (lit "a") 0 (lit "key") (lit "key" ++ [newline]) (1, lit "key" ++ [newline])).
  - reflexivity.
  - vm_compute. lia.
  - apply (bool_decide_unpack _). vm_compute. exact I.
Defined.
