(* ===== verification/ServerList.v ===== *)
(** * The server's list of threads

    [create_node], [create_list], [insert_tail], [destroy_list] of
    [client-server/server.c] and the loop of [handle_client_request] that joins the
    threads of the list. *)

From S2P Require Import Prelude CString DList SList.

(** [struct List]; a node carries its thread id. *)
Record tlist := TList { t_links : slist; t_threadcount : Z; t_overall : Z }.

(** [ok]: whether [malloc] succeeds. *)
Definition create_node (ok : bool) (M : store Z) : res (loc * store Z) :=
  if ok then Ok (new_node 0 M) else Exit (-1).

Definition create_list (ok : bool) : res tlist :=
  if ok then Ok (TList empty_list 0 0) else Exit (-1).

Definition insert_tail (l : loc) (L : tlist) (M : store Z) : res (tlist * store Z) :=
  let* '(links, M) := SList.insert_tail l (t_links L) M in
  Ok (TList links (t_threadcount L + 1) (t_overall L + 1), M).

Definition destroy_list (L : tlist) (M : store Z) : res (store Z) :=
  destroy_loop (size M) (sl_head (t_links L)) M.

(** [pthread_create (&node->tid, ...)] stores the thread's id in the node. *)
Definition set_tid (l : loc) (tid : Z) (M : store Z) : res (store Z) :=
  let* n := sget (Some l) M in Ok (<[l := SNode tid (sn_next n)]> M).

(** The part of [search_directory] that adds a thread to the list. *)
Definition add_thread (tid : Z) (L : tlist) (M : store Z) : res (tlist * store Z) :=
  let* '(l, M) := create_node true M in
  let* M := set_tid l tid M in
  insert_tail l L M.

Fixpoint add_threads (tids : list Z) (L : tlist) (M : store Z) : res (tlist * store Z) :=
  match tids with
  | [] => Ok (L, M)
  | t :: ts => let* '(L, M) := add_thread t L M in add_threads ts L M
  end.

(** [for (i = 0; i < overallthreadcount; i++) { pthread_join(threadnode->tid, NULL);
    threadnode = threadnode->next; }]: the ids joined, in order. *)
Fixpoint join_loop (n : nat) (threadnode : option loc) (M : store Z) : res (list Z) :=
  match n with
  | O => Ok []
  | S k => let* nd := sget threadnode M in
           let* ts := join_loop k (sn_next nd) M in
           Ok (sn_val nd :: ts)
  end.

Definition join_all (L : tlist) (M : store Z) : res (list Z) :=
  join_loop (Z.to_nat (t_overall L)) (sl_head (t_links L)) M.

(** ** Correctness *)

Record tholds (M : store Z) (L : tlist) (xs : list (loc * Z)) : Prop := {
  th_links : holds M (t_links L) xs;
  th_count : t_threadcount L = Z.of_nat (length xs);
  th_overall : t_overall L = Z.of_nat (length xs);
  th_dom : dom M = list_to_set xs.*1 }.

Lemma add_thread_spec tid L M xs :
  tholds M L xs ->
  exists L' M' l, add_thread tid L M = Ok (L', M') /\ tholds M' L' (xs ++ [(l, tid)]).
Proof.
  intros [H Hc Ho Hd]. destruct (new_node_insert M (t_links L) xs tid H)
    as (l & links & M' & Hl & E & Hh & Hdom & _).
  unfold add_thread, create_node, set_tid, insert_tail, new_node, sget in *. simpl in *.
  rewrite lookup_insert_eq. simpl. rewrite insert_insert_eq, E. simpl.
  eexists _, M', l. split; [done|]. constructor; simpl; rewrite ?length_app; simpl; try lia; [done|].
  rewrite Hdom, Hd, fmap_app, list_to_set_app_L. set_solver.
Qed.

Lemma add_threads_spec tids L M xs :
  tholds M L xs ->
  exists L' M' ys, add_threads tids L M = Ok (L', M') /\ tholds M' L' (xs ++ ys) /\ ys.*2 = tids.
Proof.
  revert L M xs. induction tids as [|t ts IH]; intros L M xs H; simpl.
  - exists L, M, []. by rewrite app_nil_r.
  - destruct (add_thread_spec t L M xs H) as (L1 & M1 & l & -> & H1). simpl.
    destruct (IH L1 M1 _ H1) as (L2 & M2 & ys & -> & H2 & E).
    exists L2, M2, ((l, t) :: ys). rewrite <- app_assoc in H2. split_and!; [done..|].
    by rewrite fmap_cons, E.
Qed.

Lemma join_loop_chain M p xs : chain M p xs None -> join_loop (length xs) p M = Ok xs.*2.
Proof.
  revert p. induction xs as [|[l v] xs IH]; intros p; simpl; [done|].
  intros (-> & nx & E & C). unfold sget. simpl. rewrite E. simpl. by rewrite IH.
Qed.

(** The threads added one after the other, starting from an empty list, are
    counted by both counters and joined exactly once each, in the order of their
    creation; destroying the list then frees every node. *)
Theorem thread_list_joins_all tids :
  exists L0 L M, create_list true = Ok L0 /\ add_threads tids L0 ∅ = Ok (L, M) /\
    t_threadcount L = Z.of_nat (length tids) /\ join_all L M = Ok tids /\
    destroy_list L M = Ok ∅.
Proof.
  assert (H0 : tholds ∅ (TList empty_list 0 0) []).
  { constructor; simpl; [apply holds_empty|done|done|]. by rewrite dom_empty_L. }
  destruct (add_threads_spec tids _ _ _ H0) as (L & M & ys & E & H & Ey). simpl in H.
  exists (TList empty_list 0 0), L, M. destruct H as [Hh Hc Ho Hd].
  assert (length ys = length tids) as El by (by rewrite <- Ey, length_fmap).
  split_and!; [done..|by rewrite Hc, El| |].
  - unfold join_all. rewrite Ho, Nat2Z.id, <- Ey. apply join_loop_chain, Hh.
  - unfold destroy_list. destruct (destroy_chain_spec M (sl_head (t_links L)) ys (size M))
      as (M' & -> & Hm); [apply Hh|apply Hh|eapply chain_length; apply Hh|].
    f_equal. apply map_eq. intros l. rewrite Hm, lookup_empty. case_decide as Hl; [done|].
    apply not_elem_of_dom. rewrite Hd. set_solver.
Qed.
