(* ===== verification/FsaList.v ===== *)
(** * fsa: the list of inodes and paths

    [create_node], [init_list], [insert_tail], [print_list], [search_by_path] and
    [destroy_list] of [fsa/fsa.c], on the linked store of SList. *)

From S2P Require Import Prelude CString DList SList.

(** [struct list_node] without its link: the inode number, and the duplicated path,
    null where [strdup] failed. *)
Record entry := Entry { inode_number : Z; path : option cstr }.

(** The store, and the number of allocations that still succeed. *)
Record fmem := FMem { f_store : store entry; f_quota : nat }.

(** One successful [malloc]; the callers that do not test its result hand it to
    [read], which fails on a null pointer, so that all of them end with [exit(1)]. *)
Definition malloc (m : fmem) : res fmem :=
  match f_quota m with O => Exit 1 | S q => Ok (FMem (f_store m) q) end.

(** [free] gives the memory back to the allocator. *)
Definition free (m : fmem) : fmem := FMem (f_store m) (S (f_quota m)).

Definition create_node (inode : Z) (p : cstr) (m : fmem) : res (loc * fmem) :=
  let* m := malloc m in
  let '(dup, q) := match f_quota m with O => (None, O) | S q => (Some p, q) end in
  let '(l, M) := new_node (Entry inode dup) (f_store m) in
  Ok (l, FMem M q).

Definition init_list (m : fmem) : res (slist * fmem) :=
  let* m := malloc m in Ok (empty_list, m).

Definition insert_tail (l : loc) (L : slist) (m : fmem) : res (slist * fmem) :=
  let* '(L, M) := SList.insert_tail l L (f_store m) in Ok (L, FMem M (f_quota m)).

(** [printf("%s\n", ptr->path)] for every node. *)
Definition print_list (L : slist) (m : fmem) : res (list byte) :=
  walk (size (f_store m))
    (fun out e => let* p := deref (path e) in Ok (out ++ p ++ [newline]))
    [] (sl_head L) (f_store m).

(** The inode number of the first node with the path, or 0. *)
Fixpoint search_loop (fuel : nat) (key : cstr) (ptr : option loc) (M : store entry) : res Z :=
  match ptr with
  | None => Ok 0
  | Some _ =>
      match fuel with
      | O => NoFuel
      | S k => let* n := sget ptr M in
               let* p := deref (path (sn_val n)) in
               if strcmp key p =? 0 then Ok (inode_number (sn_val n))
               else search_loop k key (sn_next n) M
      end
  end.

(** [strcmp(path, ...)] with a null [path] when no file name was given. *)
Definition search_by_path (key : option cstr) (L : slist) (m : fmem) : res Z :=
  match sl_head L with
  | None => Ok 0
  | Some _ => let* k := deref key in search_loop (size (f_store m)) k (sl_head L) (f_store m)
  end.

(** [free(NULL)] does nothing. *)
Fixpoint destroy_loop (fuel : nat) (ptr : option loc) (m : fmem) : res fmem :=
  match ptr with
  | None => Ok m
  | Some l =>
      match fuel with
      | O => NoFuel
      | S k =>
          let* n := sget ptr (f_store m) in
          let m := match path (sn_val n) with Some _ => free m | None => m end in
          destroy_loop k (sn_next n) (free (FMem (delete l (f_store m)) (f_quota m)))
      end
  end.

Definition destroy_list (L : slist) (m : fmem) : res fmem :=
  let* m := destroy_loop (size (f_store m)) (sl_head L) m in Ok (free m).

(** ** Correctness *)

(** The list holds these inode numbers and paths; the store has its nodes and, beside
    them, the nodes [E]. *)
Definition lists (E : store entry) (m : fmem) (L : slist) (es : list (Z * cstr)) : Prop :=
  exists xs, holds (f_store m) L xs /\ dom (f_store m) = dom E ∪ list_to_set xs.*1 /\
    (forall l, l ∈ dom E -> (l ∉ xs.*1) /\ f_store m !! l = E !! l) /\
    xs.*2 = map (fun e => Entry e.1 (Some e.2)) es.

(** The first inode number listed with a path. *)
Fixpoint lookup_path (key : cstr) (es : list (Z * cstr)) : Z :=
  match es with
  | [] => 0
  | (i, p) :: es' => if decide (key = p) then i else lookup_path key es'
  end.

(** The text of a traversal. *)
Definition listing_text (es : list (Z * cstr)) : list byte :=
  concat (map (fun e => e.2 ++ [newline]) es).

Lemma create_node_ok i p q M :
  create_node i p (FMem M (S (S q))) =
    Ok ((new_node (Entry i (Some p)) M).1, FMem (new_node (Entry i (Some p)) M).2 q).
Proof. done. Qed.

(** Creating and appending a node takes two allocations. *)
Lemma append_spec E i p M q L es :
  lists E (FMem M (S (S q))) L es ->
  exists l m1 L' m2, create_node i p (FMem M (S (S q))) = Ok (l, m1) /\
    insert_tail l L m1 = Ok (L', m2) /\ lists E m2 L' (es ++ [(i, p)]) /\ f_quota m2 = q.
Proof.
  intros (xs & Hh & Hd & HE & Hx). simpl in *.
  destruct (new_node_insert M L xs (Entry i (Some p)) Hh) as (l & L' & M' & Hl & Ei & Hh' & Hd' & Hf).
  rewrite create_node_ok. eexists _, _, L', (FMem M' q). split; [done|].
  unfold insert_tail. simpl. unfold new_node in *. simpl in *. rewrite Ei. split; [done|].
  split; [|done]. exists (xs ++ [(l, Entry i (Some p))]). simpl. split_and!; [done| | |].
  - rewrite Hd', Hd, fmap_app, list_to_set_app_L. set_solver.
  - intros k Hk. destruct (HE k Hk) as [H1 H2]. assert (k <> l) by set_solver.
    split; [rewrite fmap_app; set_solver|]. by rewrite Hf.
  - by rewrite fmap_app, map_app, Hx.
Qed.

(** A node kept beside the list joins it. *)
Lemma insert_kept l v m L es :
  lists {[ l := SNode (Entry v.1 (Some v.2)) None ]} m L es ->
  exists L' m', insert_tail l L m = Ok (L', m') /\ lists ∅ m' L' (es ++ [v]) /\
    f_quota m' = f_quota m.
Proof.
  intros (xs & Hh & Hd & HE & Hx). destruct (HE l) as [Hl Hv]; [set_solver|].
  rewrite lookup_singleton_eq in Hv.
  destruct (insert_tail_spec (f_store m) L xs l _ Hh Hl Hv) as (L' & M' & Ei & Hh' & Hd' & _).
  exists L', (FMem M' (f_quota m)). unfold insert_tail. rewrite Ei. split; [done|]. split; [|done].
  exists (xs ++ [(l, Entry v.1 (Some v.2))]). simpl. split_and!; [done| |set_solver|].
  - rewrite Hd', Hd, dom_singleton_L, fmap_app, list_to_set_app_L. set_solver.
  - by rewrite fmap_app, map_app, Hx.
Qed.

Lemma print_fold es acc :
  foldl (fun r v => let* a := r in let* p := deref (path v) in Ok (a ++ p ++ [newline])) (Ok acc)
    (map (fun e : Z * cstr => Entry e.1 (Some e.2)) es) = Ok (acc ++ listing_text es).
Proof.
  revert acc. induction es as [|[i p] es IH]; intros acc; simpl.
  - unfold listing_text. simpl. by rewrite app_nil_r.
  - rewrite IH. unfold listing_text. simpl. by rewrite <- !app_assoc.
Qed.

Lemma print_list_spec m L es : lists ∅ m L es -> print_list L m = Ok (listing_text es).
Proof.
  intros (xs & Hh & Hd & _ & Hx). unfold print_list.
  rewrite (walk_chain _ _ _ xs); [|apply Hh|eapply chain_length; apply Hh].
  rewrite Hx. apply print_fold.
Qed.

Lemma search_loop_chain key M p xs es fuel :
  chain M p xs None -> xs.*2 = map (fun e => Entry e.1 (Some e.2)) es ->
  (length xs <= fuel)%nat -> search_loop fuel key p M = Ok (lookup_path key es).
Proof.
  revert p es fuel. induction xs as [|[l v] xs IH]; intros p es fuel; simpl.
  - intros -> Hx _. destruct es; [|done]. by destruct fuel.
  - intros (-> & nx & E & C) Hx Hf. destruct es as [|[i q] es]; [done|]. injection Hx as -> Hx.
    destruct fuel as [|k]; [lia|]. simpl. unfold sget. simpl. rewrite E. simpl.
    destruct (Z.eqb_spec (strcmp key q) 0) as [Z0|Z0]; rewrite strcmp_eq in Z0.
    + by rewrite decide_True.
    + rewrite decide_False by done. apply IH; [done..|lia].
Qed.

Lemma search_by_path_spec key m L es :
  lists ∅ m L es -> es <> [] -> search_by_path (Some key) L m = Ok (lookup_path key es).
Proof.
  intros (xs & Hh & Hd & _ & Hx) Hne. unfold search_by_path.
  pose proof (search_loop_chain key _ _ xs es (size (f_store m)) (h_chain _ _ _ Hh) Hx) as S.
  destruct (sl_head L) as [l|] eqn:E.
  - simpl. apply S. eapply chain_length; apply Hh.
  - destruct Hh as [Hc _ _]. rewrite E in Hc. destruct xs as [|[l v] xs]; [by destruct es|].
    by destruct Hc.
Qed.

Lemma destroy_loop_chain xs es p m fuel :
  chain (f_store m) p xs None -> NoDup xs.*1 -> (length xs <= fuel)%nat ->
  xs.*2 = map (fun e => Entry e.1 (Some e.2)) es ->
  exists M, destroy_loop fuel p m = Ok (FMem M (2 * length es + f_quota m)) /\
    forall l, M !! l = if decide (l ∈ xs.*1) then None else f_store m !! l.
Proof.
  revert p m es fuel. induction xs as [|[l v] xs IH]; intros p m es fuel; simpl.
  - intros -> _ _ Hx. destruct es; [|done]. exists (f_store m). split; [by destruct fuel, m|done].
  - intros (-> & nx & E & C) [Hl ND]%NoDup_cons Hf Hx. destruct es as [|[i q] es]; [done|].
    injection Hx as -> Hx. destruct fuel as [|k]; [lia|]. simpl.
    unfold sget. simpl. rewrite E. simpl.
    destruct (IH nx (free (FMem (delete l (f_store m)) (S (f_quota m)))) es k) as (M & E' & Hm);
      [|done|lia|done|].
    + eapply chain_frame; [|done]. intros j Hj. simpl. rewrite lookup_delete_ne; [done|]. set_solver.
    + exists M. split; [unfold free in *; simpl in *; rewrite E'; do 2 f_equal; lia|].
      intros j. rewrite Hm. simpl. destruct (decide (j = l)) as [->|Hne].
      * rewrite lookup_delete_eq. rewrite (decide_True (P := l ∈ l :: _)) by set_solver. by case_decide.
      * rewrite lookup_delete_ne by done. repeat case_decide; set_solver.
Qed.

(** Every node and every path is freed, and the list itself. *)
Lemma destroy_list_frees m L es :
  lists ∅ m L es -> destroy_list L m = Ok (FMem ∅ (S (2 * length es + f_quota m))).
Proof.
  intros (xs & Hh & Hd & _ & Hx). unfold destroy_list.
  destruct (destroy_loop_chain xs es (sl_head L) m (size (f_store m)))
    as (M' & -> & Hm); [apply Hh|apply Hh|eapply chain_length; apply Hh|done|]. simpl.
  assert (M' = ∅) as ->; [|done]. apply map_eq. intros l. rewrite Hm, lookup_empty.
  case_decide as Hl; [done|]. apply not_elem_of_dom. rewrite Hd. set_solver.
Qed.
