(* ===== verification/Ext2Layout.v ===== *)
(** * The on-disk structures of ext2

    The structures that [fsa/fsa.c] reads through [<ext2fs/ext2fs.h>], transcribed
    from the same on-disk format in [fs/ext2/ext2.h] of the Linux tree kept with the
    tests of dirlist: the fields in order with their widths, from which the offsets
    are computed. *)

From S2P Require Import Prelude.

(** ** Structures as sequences of little-endian fields *)

Section Layout.
Context {F : Type} `{EqDecision F}.
Implicit Types (L : list (F * nat)) (f : F).

Fixpoint offset_of L f : nat :=
  match L with
  | [] => 0%nat
  | (g, w) :: L' => if decide (f = g) then 0%nat else (w + offset_of L' f)%nat
  end.

Fixpoint width_of L f : nat :=
  match L with
  | [] => 0%nat
  | (g, w) :: L' => if decide (f = g) then w else width_of L' f
  end.

Definition size_of L : nat := sum_list_with snd L.

(** A field of the structure stored in a sequence of bytes. *)
Definition field L f (bs : list byte) : Z :=
  le_decode (take (width_of L f) (drop (offset_of L f) bs)).

(** The bytes of a structure with the given field values. *)
Fixpoint encode L (v : F -> Z) : list byte :=
  match L with
  | [] => []
  | (f, w) :: L' => le_encode w (v f) ++ encode L' v
  end.

Lemma length_encode L v : length (encode L v) = size_of L.
Proof. induction L as [|[f w] L IH]; simpl; [done|]. by rewrite length_app, length_le_encode, IH. Qed.

(** Every field of a stored structure is read back. *)
Lemma field_encode L v f rest :
  f ∈ L.*1 -> 0 <= v f < 256 ^ Z.of_nat (width_of L f) -> field L f (encode L v ++ rest) = v f.
Proof.
  unfold field. induction L as [|[g w] L IH]; simpl; [set_solver|].
  intros Hin Hv. case_decide as E.
  - subst g. rewrite drop_0, <- app_assoc, take_app_le, firstn_all2 by (rewrite length_le_encode; lia).
    by apply le_decode_encode.
  - rewrite <- app_assoc, drop_app_ge by (rewrite length_le_encode; lia).
    rewrite length_le_encode. replace (w + offset_of L f - w)%nat with (offset_of L f) by lia.
    apply IH; [set_solver|done].
Qed.
End Layout.

(** ** The superblock *)

Inductive sb_field :=
| s_inodes_count | s_blocks_count | s_r_blocks_count | s_free_blocks_count
| s_free_inodes_count | s_first_data_block | s_log_block_size | s_log_frag_size
| s_blocks_per_group | s_frags_per_group | s_inodes_per_group | s_mtime | s_wtime
| s_mnt_count | s_max_mnt_count | s_magic | s_state | s_errors | s_minor_rev_level
| s_lastcheck | s_checkinterval | s_creator_os | s_rev_level | s_def_resuid
| s_def_resgid | s_first_ino | s_inode_size | s_block_group_nr | s_feature_compat
| s_feature_incompat | s_feature_ro_compat | s_uuid | s_volume_name | s_last_mounted
| s_algorithm_usage_bitmap | s_prealloc_blocks | s_prealloc_dir_blocks | s_padding1
| s_journal_uuid | s_journal_inum | s_journal_dev | s_last_orphan | s_hash_seed
| s_def_hash_version | s_reserved_char_pad | s_reserved_word_pad
| s_default_mount_opts | s_first_meta_bg | s_reserved.

#[export] Instance sb_field_eq_dec : EqDecision sb_field.
Proof. solve_decision. Defined.

(** [struct ext2_super_block]. *)
Definition ext2_super_block : list (sb_field * nat) :=
  [(s_inodes_count, 4); (s_blocks_count, 4); (s_r_blocks_count, 4);
   (s_free_blocks_count, 4); (s_free_inodes_count, 4); (s_first_data_block, 4);
   (s_log_block_size, 4); (s_log_frag_size, 4); (s_blocks_per_group, 4);
   (s_frags_per_group, 4); (s_inodes_per_group, 4); (s_mtime, 4); (s_wtime, 4);
   (s_mnt_count, 2); (s_max_mnt_count, 2); (s_magic, 2); (s_state, 2); (s_errors, 2);
   (s_minor_rev_level, 2); (s_lastcheck, 4); (s_checkinterval, 4); (s_creator_os, 4);
   (s_rev_level, 4); (s_def_resuid, 2); (s_def_resgid, 2); (s_first_ino, 4);
   (s_inode_size, 2); (s_block_group_nr, 2); (s_feature_compat, 4);
   (s_feature_incompat, 4); (s_feature_ro_compat, 4); (s_uuid, 16);
   (s_volume_name, 16); (s_last_mounted, 64); (s_algorithm_usage_bitmap, 4);
   (s_prealloc_blocks, 1); (s_prealloc_dir_blocks, 1); (s_padding1, 2);
   (s_journal_uuid, 16); (s_journal_inum, 4); (s_journal_dev, 4); (s_last_orphan, 4);
   (s_hash_seed, 16); (s_def_hash_version, 1); (s_reserved_char_pad, 1);
   (s_reserved_word_pad, 2); (s_default_mount_opts, 4); (s_first_meta_bg, 4);
   (s_reserved, 760)]%nat.

(** ** Group descriptors *)

Inductive gd_field :=
| bg_block_bitmap | bg_inode_bitmap | bg_inode_table | bg_free_blocks_count
| bg_free_inodes_count | bg_used_dirs_count | bg_pad | bg_reserved.

#[export] Instance gd_field_eq_dec : EqDecision gd_field.
Proof. solve_decision. Defined.

(** [struct ext2_group_desc]. *)
Definition ext2_group_desc : list (gd_field * nat) :=
  [(bg_block_bitmap, 4); (bg_inode_bitmap, 4); (bg_inode_table, 4);
   (bg_free_blocks_count, 2); (bg_free_inodes_count, 2); (bg_used_dirs_count, 2);
   (bg_pad, 2); (bg_reserved, 12)]%nat.

(** ** Inodes *)

Inductive ino_field :=
| i_mode | i_uid | i_size | i_atime | i_ctime | i_mtime | i_dtime | i_gid
| i_links_count | i_blocks | i_flags | osd1 | i_block (k : nat) | i_generation
| i_file_acl | i_dir_acl | i_faddr | osd2.

#[export] Instance ino_field_eq_dec : EqDecision ino_field.
Proof. solve_decision. Defined.

Definition EXT2_NDIR_BLOCKS : nat := 12.
Definition EXT2_N_BLOCKS : nat := 15.

(** [struct ext2_inode]. *)
Definition ext2_inode : list (ino_field * nat) :=
  [(i_mode, 2); (i_uid, 2); (i_size, 4); (i_atime, 4); (i_ctime, 4); (i_mtime, 4);
   (i_dtime, 4); (i_gid, 2); (i_links_count, 2); (i_blocks, 4); (i_flags, 4);
   (osd1, 4)]%nat
  ++ map (fun k => (i_block k, 4%nat)) (seq 0 EXT2_N_BLOCKS)
  ++ [(i_generation, 4); (i_file_acl, 4); (i_dir_acl, 4); (i_faddr, 4); (osd2, 12)]%nat.

(** ** Directory entries *)

Inductive de_field := de_inode | de_rec_len | de_name_len | de_file_type.

#[export] Instance de_field_eq_dec : EqDecision de_field.
Proof. solve_decision. Defined.

(** [struct ext2_dir_entry_2] before its name. *)
Definition ext2_dir_entry_2 : list (de_field * nat) :=
  [(de_inode, 4); (de_rec_len, 2); (de_name_len, 1); (de_file_type, 1)]%nat.

(** The entry's header: the name follows it. *)
Definition DIRENT_HEADER : nat := size_of ext2_dir_entry_2.
Definition EXT2_NAME_LEN : nat := 255.

Definition EXT2_FT_DIR : Z := 2.
Definition EXT2_ROOT_INO : Z := 2.

(** [EXT2_DIR_REC_LEN]: the header and the name, rounded up to a multiple of 4. *)
Definition EXT2_DIR_PAD : Z := 4.
Definition EXT2_DIR_ROUND : Z := EXT2_DIR_PAD - 1.
Definition EXT2_DIR_REC_LEN (name_len : Z) : Z :=
  Z.land (name_len + 8 + EXT2_DIR_ROUND) (Z.lnot EXT2_DIR_ROUND).

(** [verify_offsets], the checks that stop the kernel's build when they fail, on the
    offsets that its header [<linux/ext2_fs.h>] defines. *)
Definition verify_offsets (EXT2_SB_MAGIC_OFFSET EXT2_SB_BLOCKS_OFFSET EXT2_SB_BSIZE_OFFSET : nat) : bool :=
  (EXT2_SB_MAGIC_OFFSET =? offset_of ext2_super_block s_magic)%nat &&
  (EXT2_SB_BLOCKS_OFFSET =? offset_of ext2_super_block s_blocks_count)%nat &&
  (EXT2_SB_BSIZE_OFFSET =? offset_of ext2_super_block s_log_block_size)%nat.

Lemma EXT2_DIR_REC_LEN_div n : 0 <= n -> EXT2_DIR_REC_LEN n = (n + 11) / 4 * 4.
Proof.
  intros Hn. unfold EXT2_DIR_REC_LEN, EXT2_DIR_ROUND, EXT2_DIR_PAD.
  change (Z.lnot (4 - 1)) with (Z.lnot (Z.ones 2)).
  rewrite <- Z.ldiff_land, Z.ldiff_ones_r, Z.shiftl_mul_pow2, Z.shiftr_div_pow2 by lia.
  change (2 ^ 2) with 4. do 2 f_equal. lia.
Qed.

(** The record length of a name is the smallest multiple of 4 that holds the
    header and the name. *)
Theorem rec_len_rounds_up n :
  0 <= n -> EXT2_DIR_REC_LEN n mod 4 = 0 /\ n + 8 <= EXT2_DIR_REC_LEN n < n + 12.
Proof.
  intros Hn. rewrite EXT2_DIR_REC_LEN_div by done. split; [apply Z.mod_mul; lia|].
  pose proof (Z.div_mod (n + 11) 4 ltac:(lia)). pose proof (Z.mod_pos_bound (n + 11) 4 ltac:(lia)). lia.
Qed.

Lemma rec_len_rounds_up_witness : EXT2_DIR_REC_LEN 5 mod 4 = 0 /\ 5 + 8 <= EXT2_DIR_REC_LEN 5 < 5 + 12.
Proof. apply (rec_len_rounds_up 5). lia. Defined.
