(* ===== verification/FsaDisk.v ===== *)
(** * fsa: reading an ext2 image

    [read_inode], [read_directory], [populate_list], [print_file_contents],
    [print_disk], [print_file], [disk_analyze] and [main] of [fsa/fsa.c].  Every
    access seeks first, so the file offset is not part of the state; the list's
    store and the allocator are threaded through. *)

From S2P Require Import Prelude CString ByteMem SList FsaList Ext2Layout.

(** ** The disk image *)

(** The bytes of the image; [d_ioerr] tells where [read] returns -1. *)
Record disk := Disk { d_bytes : list byte; d_ioerr : Z -> bool }.

(** [lseek (fd, off, SEEK_SET)]: -1 for a negative offset. *)
Definition lseek (off : Z) : Z := if off <? 0 then -1 else off.

(** [lseek] compared with the requested offset, then [read]: the bytes stored, which
    are fewer than [n] near the end of the image. *)
Definition seek_read (d : disk) (off n : Z) : res (list byte) :=
  if negb (lseek off =? off) then Exit 1
  else if d_ioerr d off then Exit 1
  else Ok (take (Z.to_nat n) (drop (Z.to_nat off) (d_bytes d))).

(** A field of a structure of which only some bytes may have been read. *)
Definition get_field {F} `{EqDecision F} (L : list (F * nat)) (f : F) (bs : list byte) : res Z :=
  if (offset_of L f + width_of L f <=? length bs)%nat then Ok (field L f bs)
  else Undef Uninitialised.

(** A sum in an [int]. *)
Definition add_int (a b : Z) : res Z :=
  if (- 2 ^ 31 <=? a + b) && (a + b <? 2 ^ 31) then Ok (a + b) else Undef SignedOverflow.

(** [struct file_system_info], without the pointers to the raw structures. *)
Record file_system_info := Fsi {
  block_size : Z;
  inode_table_block : Z;
  inode_size : Z }.

Definition create_fsi (m : fmem) (block_size inode_table_block inode_size : Z) :
  res (file_system_info * fmem) :=
  let* m := malloc m in Ok (Fsi block_size inode_table_block inode_size, m).

(** ** Inodes *)

(** The unsigned computation of the inode's place. *)
Definition inode_location (fsi : file_system_info) (inode_number : Z) : Z :=
  u32 (u32 (inode_table_block fsi * block_size fsi)
       + u32 (u32 (inode_number - 1) * inode_size fsi)).

Definition read_inode (d : disk) (fsi : file_system_info) (inode_number : Z) (m : fmem) :
  res (list byte * fmem) :=
  let* m := malloc m in
  let* inode := seek_read d (inode_location fsi inode_number) (Z.of_nat (size_of ext2_inode)) in
  Ok (inode, m).

(** ** Directories *)

(** [sizeof (struct ext2_dir_entry)]: the header and 255 bytes of name, aligned. *)
Definition DIRENT_SIZE : Z := 264.

(** The arrays [file_name] and [file_path] are declared with the lengths of the strings
    that go into them; [spare] is what a declaration would have to add, 0 in the source. *)

(** [file_name]: the copied bytes and the null character behind them. *)
Definition make_file_name (spare : nat) (name : list byte) : res cstr :=
  if (length name + 1 <=? length name + spare)%nat then Ok (c_str name) else Undef BufferOverflow.

(** [file_path]: the base path, a slash and the name. *)
Definition make_file_path (spare : nat) (path file_name : cstr) : res cstr :=
  let file_path := path ++ slash :: file_name in
  if (length file_path + 1 <=? length path + length file_name + spare)%nat
  then Ok file_path else Undef BufferOverflow.

Section Directory.
Context (d : disk) (spare : nat) (fsi : file_system_info).
(** The recursive call on the inode of a subdirectory. *)
Context (rec : list byte -> slist -> cstr -> fmem -> res (slist * fmem)).

(** The body of the loop for the entry that has been read. *)
Definition visit_entry (dirent : list byte) (L : slist) (path : cstr) (m : fmem) :
  res (slist * fmem) :=
  let* first := (match dirent !! DIRENT_HEADER with Some b => Ok b | None => Undef Uninitialised end) in
  let* inode := get_field ext2_dir_entry_2 de_inode dirent in
  if negb (bool_decide (first = dot)) && negb (inode =? 0) then
    let* name_len := get_field ext2_dir_entry_2 de_name_len dirent in
    let name := take (Z.to_nat name_len) (drop DIRENT_HEADER dirent) in
    if (length name <? Z.to_nat name_len)%nat then Undef Uninitialised else
    let* file_name := make_file_name spare name in
    let* file_path := make_file_path spare path file_name in
    let* '(new_node, m) := create_node inode file_path m in
    let* '(L, m) := insert_tail new_node L m in
    let* file_type := get_field ext2_dir_entry_2 de_file_type dirent in
    if file_type =? EXT2_FT_DIR then
      let* '(tmp, m) := read_inode d fsi inode m in
      let* '(L, m) := rec tmp L file_path m in
      Ok (L, free m)
    else Ok (L, m)
  else Ok (L, m).

(** [while (directory_entry_index < block_upper_limit)]: every entry with a positive
    length moves the index, so a block needs at most [block_size] iterations. *)
Fixpoint entries_loop (fuel : nat) (index limit : Z) (L : slist) (path : cstr) (m : fmem) :
  res (slist * fmem) :=
  if index <? limit then
    match fuel with
    | O => NoFuel
    | S f =>
        let* m := malloc m in
        let* dirent := seek_read d index DIRENT_SIZE in
        let* rec_len := get_field ext2_dir_entry_2 de_rec_len dirent in
        let* index := add_int index rec_len in
        let* '(L, m) := visit_entry dirent L path m in
        entries_loop f index limit L path (free m)
    end
  else Ok (L, m).

(** [for (i = 0; i < 12; i++)] over the direct blocks. *)
Fixpoint blocks_loop (idx : list nat) (inode : list byte) (L : slist) (path : cstr) (m : fmem) :
  res (slist * fmem) :=
  match idx with
  | [] => Ok (L, m)
  | i :: idx' =>
      let* block := get_field ext2_inode (i_block i) inode in
      let* '(L, m) :=
        (if block =? 0 then Ok (L, m)
         else
           let index := i32 (block * block_size fsi) in
           let limit := i32 (index + block_size fsi) in
           entries_loop (Z.to_nat (block_size fsi)) index limit L path m) in
      blocks_loop idx' inode L path m
  end.
End Directory.

(** [fuel] bounds the depth of the recursion. *)
Fixpoint read_directory (fuel : nat) (d : disk) (spare : nat) (fsi : file_system_info)
    (inode : list byte) (L : slist) (path : cstr) (m : fmem) : res (slist * fmem) :=
  match fuel with
  | O => NoFuel
  | S f => blocks_loop d spare fsi (read_directory f d spare fsi) (seq 0 EXT2_NDIR_BLOCKS) inode L path m
  end.

Definition populate_list (fuel : nat) (d : disk) (spare : nat) (fsi : file_system_info)
    (m : fmem) : res (slist * fmem) :=
  let* '(L, m) := init_list m in
  let* '(root_inode, m) := read_inode d fsi EXT2_ROOT_INO m in
  let* '(root_list_node, m) := create_node EXT2_ROOT_INO [slash] m in
  let* '(L, m) := read_directory fuel d spare fsi root_inode L [] m in
  let* '(L, m) := insert_tail root_list_node L m in
  Ok (L, free m).

(** ** Output *)

(** [printf ("%s", linebuffer)]: the block up to its first null character. *)
Definition print_file_contents (d : disk) (data_block_number block_size : Z) : res (list byte) :=
  let data_block := i32 (data_block_number * block_size) in
  let* linebuffer := seek_read d data_block block_size in
  if bool_decide (NUL ∈ linebuffer) then Ok (c_str linebuffer) else Undef OutOfBoundsRead.

Definition print_disk (fuel : nat) (d : disk) (spare : nat) (fsi : file_system_info)
    (m : fmem) : res (list byte * fmem) :=
  let* '(L, m) := populate_list fuel d spare fsi m in
  let* out := print_list L m in
  let* m := destroy_list L m in
  Ok (out, m).

(** The direct blocks of a file. *)
Fixpoint direct_loop (d : disk) (fsi : file_system_info) (idx : list nat) (inode : list byte)
    (out : list byte) : res (list byte) :=
  match idx with
  | [] => Ok out
  | i :: idx' =>
      let* block := get_field ext2_inode (i_block i) inode in
      let* out :=
        (if block =? 0 then Ok out
         else let* s := print_file_contents d block (block_size fsi) in Ok (out ++ s)) in
      direct_loop d fsi idx' inode out
  end.

(** The single indirect block: a table of block numbers, four bytes each. *)
Fixpoint indirect_loop (fuel : nat) (d : disk) (fsi : file_system_info) (index limit : Z)
    (out : list byte) : res (list byte) :=
  if index <? limit then
    match fuel with
    | O => NoFuel
    | S f =>
        let* bs := seek_read d index 4 in
        let* out :=
          (if (length bs <? 4)%nat then Undef Uninitialised
           else let block := le_decode bs in
                if block =? 0 then Ok out
                else let* s := print_file_contents d block (block_size fsi) in Ok (out ++ s)) in
        let* index := add_int index 4 in
        indirect_loop f d fsi index limit out
    end
  else Ok out.

Definition print_blocks (d : disk) (fsi : file_system_info) (inode : list byte) : res (list byte) :=
  let* out := direct_loop d fsi (seq 0 EXT2_NDIR_BLOCKS) inode [] in
  let* block := get_field ext2_inode (i_block 12) inode in
  if block =? 0 then Ok out
  else
    let index := i32 (block * block_size fsi) in
    let limit := i32 (index + block_size fsi) in
    indirect_loop (Z.to_nat (block_size fsi)) d fsi index limit out.

Definition print_file (fuel : nat) (d : disk) (spare : nat) (fsi : file_system_info)
    (absolute_path : option cstr) (m : fmem) : res (list byte * fmem) :=
  let* '(L, m) := populate_list fuel d spare fsi m in
  let* m := malloc m in
  let* inode_found := search_by_path absolute_path L m in
  let* '(out, m) :=
    (if inode_found =? 0 then Ok ([], m)
     else let* '(read_node, m) := read_inode d fsi inode_found m in
          let* out := print_blocks d fsi read_node in Ok (out, free m)) in
  let* m := destroy_list L (free m) in
  Ok (out, m).

(** ** disk_analyze and main *)

Definition BOOT_OFFSET : Z := 1024.

(** [1024 << s_log_block_size] in an [int]. *)
Definition block_size_of (log : Z) : res Z :=
  if log <? 21 then Ok (Z.shiftl 1024 log) else Undef SignedOverflow.

(** [open_disk]: the image, or a failing [open]. *)
Definition disk_analyze (fuel : nat) (open_disk : cstr -> option disk) (spare : nat)
    (disk_name : cstr) (traverse file : bool) (absolute_path : option cstr) (m : fmem) :
  res (list byte * fmem) :=
  let* m := malloc m in
  let* m := malloc m in
  match open_disk disk_name with
  | None => Exit 1
  | Some d =>
      let* sb := seek_read d BOOT_OFFSET (Z.of_nat (size_of ext2_super_block)) in
      let* log := get_field ext2_super_block s_log_block_size sb in
      let* bsize := block_size_of log in
      let* gd := seek_read d bsize (Z.of_nat (size_of ext2_group_desc)) in
      let* table := get_field ext2_group_desc bg_inode_table gd in
      let* isize := get_field ext2_super_block s_inode_size sb in
      let* '(fsi, m) := create_fsi m bsize table isize in
      let* '(out1, m) := (if traverse then print_disk fuel d spare fsi m else Ok ([], m)) in
      let* '(out2, m) := (if file then print_file fuel d spare fsi absolute_path m else Ok ([], m)) in
      Ok (out1 ++ out2, free (free (free m)))
  end.

(** The loop over [argv[2]], ...; [None] for an invalid argument. *)
Fixpoint parse_args (args : list cstr) (traverse file : bool) (absolute_path : option cstr) :
  option (bool * bool * option cstr) :=
  match args with
  | [] => Some (traverse, file, absolute_path)
  | a :: args' =>
      if strcmp a (lit "-traverse") =? 0 then parse_args args' true file absolute_path
      else if (strcmp a (lit "-file") =? 0) && negb file then
        match args' with
        | [] => Some (traverse, true, None)        (* argv[argc] is NULL *)
        | p :: args'' => parse_args args'' traverse true (Some p)
        end
      else None
  end.

(** The status and what is printed; [argv] without the program's name. *)
Definition main (fuel : nat) (open_disk : cstr -> option disk) (spare : nat) (argv : list cstr)
    (m : fmem) : res (Z * list byte) :=
  match argv with
  | [] => Ok (1, [])
  | disk_name :: args =>
      match parse_args args false false None with
      | None => Ok (1, [])
      | Some (traverse, file, absolute_path) =>
          let* '(out, _) := disk_analyze fuel open_disk spare disk_name traverse file absolute_path m in
          Ok (0, out)
      end
  end.
