(* ===== verification/FsaTree.v ===== *)
(** * fsa: the directory tree of an image, and the traversal

    [node_at] says that the image holds a finite directory tree below an inode, in
    the on-disk format of Ext2Layout; [read_directory] lists that tree in preorder. *)

From S2P Require Import Prelude CString ByteMem DirTree SList FsaList Ext2Layout FsaDisk.

(** ** Trees *)

(** A directory entry as it is stored. *)
Record dent := Dent { dt_inode : Z; dt_rec_len : Z; dt_type : Z; dt_name : list byte }.

Definition dent_field (e : dent) (f : de_field) : Z :=
  match f with
  | de_inode => dt_inode e
  | de_rec_len => dt_rec_len e
  | de_name_len => len (dt_name e)
  | de_file_type => dt_type e
  end.

(** Its bytes, up to the end of the name. *)
Definition dent_bytes (e : dent) : list byte := encode ext2_dir_entry_2 (dent_field e) ++ dt_name e.

Definition visible (e : dent) : bool := negb (hidden (dt_name e)) && negb (dt_inode e =? 0).

(** A directory has the entries of its blocks, each with what is below it. *)
Inductive enode := ELeaf | EDir (blocks : list (list (dent * enode))).

Definition is_edir (t : enode) : bool := match t with EDir _ => true | ELeaf => false end.

Section Fold.
Context {A : Type} (f : dent -> enode -> A) (op : A -> A -> A) (unit : A).
Fixpoint fold_entries (des : list (dent * enode)) : A :=
  match des with [] => unit | (e, t) :: des' => op (f e t) (fold_entries des') end.
Fixpoint fold_blocks (blks : list (list (dent * enode))) : A :=
  match blks with [] => unit | des :: blks' => op (fold_entries des) (fold_blocks blks') end.
End Fold.

(** The reference listing: each visible entry, then what is below it. *)
Fixpoint preorder (path : cstr) (t : enode) : list (Z * cstr) :=
  match t with
  | ELeaf => []
  | EDir blks =>
      fold_blocks (fun e t' =>
        if visible e then (dt_inode e, join path (dt_name e)) :: preorder (join path (dt_name e)) t'
        else []) app [] blks
  end.

(** The depth of the recursion. *)
Fixpoint height (t : enode) : nat :=
  match t with
  | ELeaf => 0%nat
  | EDir blks => S (fold_blocks (fun e t' => if visible e then height t' else 0%nat) Nat.max 0%nat blks)
  end.

(** ** The image holds a tree *)

Section Image.
Context (d : disk) (spare : nat) (fsi : file_system_info).

Definition wf_dent (e : dent) : Prop :=
  0 <= dt_inode e < 2 ^ 32 /\ 0 <= dt_rec_len e < 2 ^ 16 /\ 0 <= dt_type e < 256 /\
  len (dt_name e) <= 255 /\ (dt_inode e <> 0 -> dt_name e <> []).

(** The entry [e] is stored at [off]. *)
Definition entry_stored (off : Z) (e : dent) : Prop :=
  0 <= off /\ d_ioerr d off = false /\ wf_dent e /\
  exists rest, drop (Z.to_nat off) (d_bytes d) = dent_bytes e ++ rest /\ dt_name e ++ rest <> [].

Section Entries.
Context (below : cstr -> enode -> Z -> Prop).

(** The entries fill the block up to [limit]. *)
Fixpoint entries_at (path : cstr) (off limit : Z) (des : list (dent * enode)) {struct des} : Prop :=
  match des with
  | [] => limit <= off
  | (e, t) :: des' =>
      (off < limit /\ 0 < dt_rec_len e /\ off + dt_rec_len e < 2 ^ 31 /\ entry_stored off e /\
       (visible e = true ->
          (NUL ∉ dt_name e) /\ (is_edir t = true <-> dt_type e = EXT2_FT_DIR) /\
          below (join path (dt_name e)) t (dt_inode e))) /\
      entries_at path (off + dt_rec_len e) limit des'
  end.

Fixpoint blocks_at (path : cstr) (bs : list Z) (blks : list (list (dent * enode))) {struct blks} : Prop :=
  match bs, blks with
  | [], [] => True
  | b :: bs', des :: blks' =>
      (0 < b /\ (b + 1) * block_size fsi < 2 ^ 31 /\
       entries_at path (b * block_size fsi) ((b + 1) * block_size fsi) des) /\
      blocks_at path bs' blks'
  | _, _ => False
  end.
End Entries.

(** The bytes of an inode. *)
Definition inode_stored (ino : Z) (ib : list byte) : Prop :=
  d_ioerr d (inode_location fsi ino) = false /\ length ib = size_of ext2_inode /\
  take (size_of ext2_inode) (drop (Z.to_nat (inode_location fsi ino)) (d_bytes d)) = ib.

(** The block numbers of an inode that are used, among the direct ones. *)
Definition direct_blocks (ib : list byte) : list Z :=
  filter (fun b => b <> 0) (map (fun i => field ext2_inode (i_block i) ib) (seq 0 EXT2_NDIR_BLOCKS)).

Fixpoint node_at (path : cstr) (t : enode) (ino : Z) : Prop :=
  match t with
  | ELeaf => True
  | EDir blks => exists ib, inode_stored ino ib /\ blocks_at node_at path (direct_blocks ib) blks
  end.

(** ** Reading entries *)

Lemma get_field_ok {F} `{EqDecision F} (L : list (F * nat)) f bs :
  (offset_of L f + width_of L f <= length bs)%nat -> get_field L f bs = Ok (field L f bs).
Proof. intros Hl. unfold get_field. by rewrite (proj2 (Nat.leb_le _ _) Hl). Qed.

Lemma dent_get_field e f rest :
  wf_dent e -> get_field ext2_dir_entry_2 f (dent_bytes e ++ rest) = Ok (dent_field e f).
Proof.
  intros (Hi & Hr & Ht & Hn & _). unfold dent_bytes. rewrite <- app_assoc.
  rewrite get_field_ok.
  - f_equal. apply field_encode; [destruct f; set_solver|].
    destruct f; simpl; try lia. pose proof (len_nonneg (dt_name e)). lia.
  - rewrite length_app, length_encode. destruct f; simpl; lia.
Qed.

(** What [read] puts into the buffer for a stored entry. *)
Lemma seek_read_entry off e :
  entry_stored off e ->
  exists rest, seek_read d off DIRENT_SIZE = Ok (dent_bytes e ++ rest) /\ dt_name e ++ rest <> [].
Proof.
  intros (Ho & Hio & (_ & _ & _ & Hn & _) & rest & Hd & Hne). unfold seek_read, lseek.
  rewrite (proj2 (Z.ltb_ge _ _) Ho), Z.eqb_refl, Hio, Hd. simpl negb.
  assert (Hlen : (length (dent_bytes e) <= 263)%nat).
  { unfold dent_bytes. rewrite length_app, length_encode. unfold len in Hn. simpl. lia. }
  exists (take (264 - length (dent_bytes e)) rest). split.
  - rewrite take_app_ge by (unfold DIRENT_SIZE; lia). done.
  - destruct (dt_name e) as [|b nm] eqn:E; [|done]. destruct rest as [|b rest]; [done|].
    destruct (264 - length (dent_bytes e))%nat eqn:E2; [lia|]. done.
Qed.

Lemma make_path_ok path name :
  (2 <= spare)%nat -> NUL ∉ name ->
  make_file_name spare name = Ok name /\ make_file_path spare path name = Ok (join path name).
Proof.
  intros Hs Hn. unfold make_file_name, make_file_path. rewrite length_app. cbn [length].
  rewrite !(proj2 (Nat.leb_le _ _)), c_str_id by (done || lia). done.
Qed.


(** ** The traversal *)

Definition entry_list (path : cstr) (e : dent) (t : enode) : list (Z * cstr) :=
  if visible e then (dt_inode e, join path (dt_name e)) :: preorder (join path (dt_name e)) t else [].

(** A call that appends [new] to the list; each node keeps two allocations, and [n]
    more are needed for a time. *)
Definition appends (call : slist -> fmem -> res (slist * fmem)) (new : list (Z * cstr)) (n : nat) : Prop :=
  forall E L m es, lists E m L es -> (2 * length new + n <= f_quota m)%nat ->
    exists L' m', call L m = Ok (L', m') /\ lists E m' L' (es ++ new) /\
      f_quota m' = (f_quota m - 2 * length new)%nat.

Lemma lists_free E m L es : lists E m L es -> lists E (free m) L es.
Proof. done. Qed.

(** The recursive call lists the subtree of an inode. *)
Definition lists_below (rec : list byte -> slist -> cstr -> fmem -> res (slist * fmem))
    (path : cstr) (t : enode) (ino : Z) : Prop :=
  forall ib, inode_stored ino ib -> appends (fun L m => rec ib L path m) (preorder path t) (2 * height t).

Lemma first_byte e rest :
  dt_name e ++ rest <> [] ->
  exists b, (dent_bytes e ++ rest) !! DIRENT_HEADER = Some b /\
    (dt_name e <> [] -> hidden (dt_name e) = bool_decide (b = dot)).
Proof.
  intros Hne. unfold dent_bytes. rewrite <- app_assoc, lookup_app_r by (by rewrite length_encode).
  rewrite length_encode, Nat.sub_diag. destruct (dt_name e ++ rest) as [|b r] eqn:E; [done|].
  exists b. split; [done|]. intros Hn. destruct (dt_name e) as [|b' nm]; [done|].
  by injection E as -> _.
Qed.

Lemma name_bytes e rest :
  take (length (dt_name e)) (drop DIRENT_HEADER (dent_bytes e ++ rest)) = dt_name e.
Proof.
  unfold dent_bytes. rewrite <- app_assoc, drop_app_ge by (by rewrite length_encode).
  rewrite length_encode, Nat.sub_diag, drop_0. apply take_app_length.
Qed.

Lemma read_inode_ok ino ib m :
  inode_stored ino ib -> (1 <= f_quota m)%nat ->
  exists m', read_inode d fsi ino m = Ok (ib, m') /\ f_store m' = f_store m /\
    f_quota m' = (f_quota m - 1)%nat.
Proof.
  intros (Hio & _ & Hb) Hq. unfold read_inode, malloc. destruct m as [M [|q]]; simpl in *; [lia|].
  unfold seek_read, lseek. pose proof (u32_range (u32 (inode_table_block fsi * block_size fsi)
       + u32 (u32 (ino - 1) * inode_size fsi))) as R. fold (inode_location fsi ino) in R.
  rewrite (proj2 (Z.ltb_ge _ _)) by lia. rewrite Z.eqb_refl, Hio. simpl.
  rewrite Nat2Z.id, Hb. eexists. split; [done|]. split; [done|]. simpl. lia.
Qed.

Lemma i_block_field i ib :
  length ib = size_of ext2_inode -> (i < EXT2_N_BLOCKS)%nat ->
  get_field ext2_inode (i_block i) ib = Ok (field ext2_inode (i_block i) ib) /\
  0 <= field ext2_inode (i_block i) ib < 2 ^ 32.
Proof.
  intros Hl Hi. unfold EXT2_N_BLOCKS in Hi.
  assert (offset_of ext2_inode (i_block i) + width_of ext2_inode (i_block i) <= 128 /\
          width_of ext2_inode (i_block i) = 4)%nat as [Ho Hw].
  { do 15 (destruct i as [|i]; [vm_compute; lia|]). lia. }
  split; [apply get_field_ok; rewrite Hl; done|].
  unfold field. rewrite Hw. pose proof (le_decode_range
    (take 4 (drop (offset_of ext2_inode (i_block i)) ib))) as R.
  rewrite length_take, length_drop in R. change (size_of ext2_inode) with 128%nat in Hl.
  replace (4 `min` (length ib - offset_of ext2_inode (i_block i)))%nat with 4%nat in R by lia. done.
Qed.

(** Both arrays are two bytes larger than the source declares them. *)
Section Roomy.
Context (roomy : (2 <= spare)%nat).

Lemma visit_entry_spec rec path e t rest k :
  wf_dent e -> dt_name e ++ rest <> [] ->
  (visible e = true -> (NUL ∉ dt_name e) /\ (is_edir t = true <-> dt_type e = EXT2_FT_DIR) /\
     (height t <= k)%nat /\
     (is_edir t = true -> (exists ib, inode_stored (dt_inode e) ib) /\
        lists_below rec (join path (dt_name e)) t (dt_inode e))) ->
  appends (fun L m => visit_entry d spare fsi rec (dent_bytes e ++ rest) L path m)
    (entry_list path e t) (2 * k + 1).
Proof.
  intros W Hne Hv E L m es Hl Hq. destruct (first_byte e rest Hne) as (b & Hb & Hh).
  unfold visit_entry. rewrite Hb. cbn [rbind]. rewrite dent_get_field by done. cbn [rbind dent_field].
  assert (negb (bool_decide (b = dot)) && negb (dt_inode e =? 0) = visible e) as ->.
  { unfold visible. destruct (Z.eqb_spec (dt_inode e) 0); [by rewrite !andb_false_r|].
    rewrite Hh; [done|]. by apply W. }
  unfold entry_list in *. destruct (visible e) eqn:Ev.
  2: { exists L, m. rewrite app_nil_r. split_and!; [done..|]. simpl. lia. }
  destruct (Hv eq_refl) as (Ha & Ht & Hk & Hr). clear Hv.
  rewrite dent_get_field by done. cbn [rbind dent_field]. unfold len at 1 2 3. rewrite !Nat2Z.id, name_bytes.
  rewrite (proj2 (Nat.ltb_ge _ _)) by lia. destruct (make_path_ok path (dt_name e) roomy Ha) as [-> H2].
  cbn [rbind]. rewrite H2. cbn [rbind]. destruct m as [M q]. cbn [length f_quota] in Hq.
  destruct q as [|[|q]]; [lia..|].
  destruct (append_spec E (dt_inode e) (join path (dt_name e)) M q L es Hl)
    as (l & m1 & L1 & m2 & -> & E2 & Hl2 & Hq2).
  cbn [rbind]. rewrite E2. cbn [rbind]. rewrite dent_get_field by done. cbn [rbind dent_field].
  destruct (Z.eqb_spec (dt_type e) EXT2_FT_DIR) as [Et|Et].
  - apply Ht in Et as Hd. destruct (Hr Hd) as [[ib Hib] Hrec].
    destruct (read_inode_ok (dt_inode e) ib m2 Hib ltac:(lia)) as (m3 & -> & Hs3 & Hq3). cbn [rbind].
    destruct (Hrec ib Hib E L1 m3 (es ++ [(dt_inode e, join path (dt_name e))])) as (L' & m' & -> & Hl' & Hq');
      [unfold lists in *; by rewrite Hs3|lia|].
    cbn [rbind]. exists L', (free m'). rewrite <- app_assoc in Hl'.
    split_and!; [done|by apply lists_free|]. cbn [length f_quota free]. lia.
  - assert (is_edir t = false) as Hd by (destruct (is_edir t); [exfalso; by apply Et, Ht|done]).
    destruct t; [|done]. exists L1, m2. split_and!; [done..|]. simpl. lia.
Qed.

(** What a directory needs of each subtree. *)
Definition listed (rec : list byte -> slist -> cstr -> fmem -> res (slist * fmem))
    (path : cstr) (t : enode) (ino : Z) : Prop :=
  is_edir t = true -> (exists ib, inode_stored ino ib) /\ lists_below rec path t ino.

(** The height of what is below the visible entries. *)
Definition entry_height (e : dent) (t : enode) : nat := if visible e then height t else 0%nat.

Lemma entries_loop_spec rec path des off limit fuel k :
  entries_at (listed rec) path off limit des -> limit - off <= Z.of_nat fuel ->
  (fold_entries entry_height Nat.max 0%nat des <= k)%nat ->
  appends (fun L m => entries_loop d spare fsi rec fuel off limit L path m)
    (fold_entries (entry_list path) app [] des) (2 * S k).
Proof.
  revert off fuel. induction des as [|[e t] des IH]; intros off fuel; cbn [entries_at fold_entries].
  - intros Hlim _ _ E L m es Hl Hq. exists L, m. rewrite app_nil_r.
    split_and!; [|done|simpl; lia]. destruct fuel; simpl; by rewrite (proj2 (Z.ltb_ge _ _) Hlim).
  - intros [(Hlt & Hrl & Hov & Hst & Hv) Hdes] Hf Hk E L m es Hl Hq.
    destruct (seek_read_entry off e Hst) as (rest & Er & Hne).
    pose proof Hst as (Ho & _ & W & _).
    destruct fuel as [|fuel]; [lia|]. cbn [entries_loop]. rewrite (proj2 (Z.ltb_lt _ _) Hlt).
    rewrite length_app in Hq. destruct m as [M [|q]]; cbn [f_quota] in Hq; [lia|].
    unfold malloc. cbn [f_quota f_store rbind]. rewrite Er. cbn [rbind].
    rewrite dent_get_field by done. cbn [rbind dent_field]. unfold add_int.
    rewrite (proj2 (Z.leb_le _ _)), (proj2 (Z.ltb_lt _ _)) by lia. cbn [andb rbind].
    destruct (visit_entry_spec rec path e t rest k W Hne) with (E := E) (L := L) (m := FMem M q) (es := es)
      as (L1 & m1 & -> & Hl1 & Hq1); [|done|cbn [f_quota]; lia|].
    { intros Ev. destruct (Hv Ev) as (H1 & H2 & H3). unfold entry_height in Hk. rewrite Ev in Hk.
      split_and!; [done..|lia|done]. }
    cbn [rbind f_quota] in *.
    destruct (IH (off + dt_rec_len e) fuel Hdes ltac:(lia) ltac:(lia) E L1 (free m1) _ (lists_free _ _ _ _ Hl1))
      as (L2 & m2 & -> & Hl2 & Hq2); [cbn [f_quota free]; lia|].
    exists L2, m2. rewrite <- app_assoc in Hl2. split_and!; [done..|].
    cbn [f_quota free] in *. rewrite length_app. lia.
Qed.

Lemma blocks_loop_spec rec path ib idx blks k :
  0 < block_size fsi -> length ib = size_of ext2_inode ->
  Forall (fun i => (i < EXT2_N_BLOCKS)%nat) idx ->
  blocks_at (listed rec) path
    (filter (fun b => b <> 0) (map (fun i => field ext2_inode (i_block i) ib) idx)) blks ->
  (fold_blocks entry_height Nat.max 0%nat blks <= k)%nat ->
  appends (fun L m => blocks_loop d spare fsi rec idx ib L path m)
    (fold_blocks (entry_list path) app [] blks) (2 * S k).
Proof.
  intros Hbs Hl. revert blks. induction idx as [|i idx IH]; intros blks Hidx; cbn [map].
  - intros Hb Hk E L m es Hls Hq. destruct blks; [|done]. exists L, m. rewrite app_nil_r.
    split_and!; [done..|]. simpl. lia.
  - apply Forall_cons in Hidx as [Hi Hidx]. destruct (i_block_field i ib Hl Hi) as [Hg Hr].
    rewrite filter_cons. case_decide as Hz; intros Hb Hk E L m es Hls Hq; cbn [blocks_loop].
    + destruct blks as [|des blks]; [done|]. destruct Hb as [(Hb0 & Hb1 & Hdes) Hb].
      rewrite Hg. cbn [rbind]. rewrite (proj2 (Z.eqb_neq _ _) Hz).
      set (b := field ext2_inode (i_block i) ib) in *.
      assert (0 < b * block_size fsi) by nia.
      rewrite (i32_id (b * block_size fsi)) by nia. rewrite (i32_id (_ + block_size fsi)) by nia.
      replace (b * block_size fsi + block_size fsi) with ((b + 1) * block_size fsi) by lia.
      cbn [fold_blocks] in *. rewrite length_app in *.
      destruct (entries_loop_spec rec path des _ _ (Z.to_nat (block_size fsi)) k Hdes ltac:(lia) ltac:(lia) E L m es Hls)
        as (L1 & m1 & -> & Hl1 & Hq1); [lia|]. cbn [rbind].
      destruct (IH blks Hidx Hb ltac:(lia) E L1 m1 _ Hl1) as (L2 & m2 & -> & Hl2 & Hq2); [lia|].
      exists L2, m2. rewrite <- app_assoc in Hl2. split_and!; [done..|]. lia.
    + rewrite Hg. cbn [rbind]. destruct (Z.eqb_spec (field ext2_inode (i_block i) ib) 0); [|done].
      cbn [rbind]. by apply IH.
Qed.

(** Strengthening what is known of the subtrees, up to a height. *)
Lemma entries_at_impl (P Q : cstr -> enode -> Z -> Prop) h path des off limit :
  (forall p t ino, (height t <= h)%nat -> P p t ino -> Q p t ino) ->
  (fold_entries entry_height Nat.max 0%nat des <= h)%nat ->
  entries_at P path off limit des -> entries_at Q path off limit des.
Proof.
  intros HPQ. revert off. induction des as [|[e t] des IH]; intros off; cbn [entries_at fold_entries]; [done|].
  intros Hh [(H1 & H2 & H3 & H4 & Hv) Hd]. split; [split_and!; [done..|]|apply IH; [lia|done]].
  intros Ev. destruct (Hv Ev) as (Ha & Ht & Hp). split_and!; [done..|]. unfold entry_height in Hh. rewrite Ev in Hh.
  apply HPQ; [lia|done].
Qed.

Lemma blocks_at_impl (P Q : cstr -> enode -> Z -> Prop) h path bs blks :
  (forall p t ino, (height t <= h)%nat -> P p t ino -> Q p t ino) ->
  (fold_blocks entry_height Nat.max 0%nat blks <= h)%nat ->
  blocks_at P path bs blks -> blocks_at Q path bs blks.
Proof.
  intros HPQ. revert bs. induction blks as [|des blks IH]; intros [|b bs]; cbn [blocks_at fold_blocks]; try done.
  intros Hh [(H1 & H2 & H3) Hb]. split; [split_and!; [done..|]|apply IH; [lia|done]].
  eapply entries_at_impl; [done| |done]. lia.
Qed.

(** The traversal of a directory lists its tree in preorder. *)
Lemma read_directory_spec fuel path t ino :
  0 < block_size fsi -> node_at path t ino -> is_edir t = true -> (height t <= fuel)%nat ->
  lists_below (read_directory fuel d spare fsi) path t ino.
Proof.
  intros Hbs. revert path t ino. induction fuel as [|f IH]; intros path t ino Hn Hd Hh;
    destruct t as [|blks]; try done; simpl in Hh; [lia|].
  destruct Hn as (ib0 & Hs0 & Hb). intros ib Hib.
  assert (ib0 = ib) as -> by (destruct Hs0 as (_ & _ & <-), Hib as (_ & _ & <-); done).
  cbn [read_directory height]. apply blocks_loop_spec; [done|apply Hib| | |done].
  - apply Forall_forall. intros i Hi%elem_of_seq. unfold EXT2_NDIR_BLOCKS, EXT2_N_BLOCKS in *. lia.
  - eapply (blocks_at_impl node_at _ f); [|exact (le_S_n _ _ Hh)|done].
    intros p t' ino' Ht' Hn' Hd'. split; [|by apply IH].
    destruct t'; [done|]. destruct Hn' as (ib' & ? & _). by exists ib'.
Qed.
End Roomy.

(** An entry that is not listed leaves everything as it is. *)
Lemma visit_hidden rec path e rest L m :
  wf_dent e -> dt_name e ++ rest <> [] -> visible e = false ->
  visit_entry d spare fsi rec (dent_bytes e ++ rest) L path m = Ok (L, m).
Proof.
  intros W Hne Hv. destruct (first_byte e rest Hne) as (b & Hb & Hh).
  unfold visit_entry. rewrite Hb. cbn [rbind]. rewrite dent_get_field by done. cbn [rbind dent_field].
  unfold visible in Hv. destruct (Z.eqb_spec (dt_inode e) 0); [by rewrite andb_false_r|].
  rewrite <- Hh by (by apply W). by rewrite Hv.
Qed.

(** With less, the first entry that is listed is written past the end of an array. *)
Section Narrow.
Context (narrow : (spare < 2)%nat).

Lemma make_path_overflows path name :
  NUL ∉ name ->
  (let* f := make_file_name spare name in make_file_path spare path f) = Undef BufferOverflow.
Proof using narrow.
  intros Hn. unfold make_file_name. destruct (Nat.leb_spec (length name + 1) (length name + spare)); [|done].
  cbn [rbind]. unfold make_file_path. rewrite c_str_id, length_app by done. cbn [length].
  by rewrite (proj2 (Nat.leb_gt _ _)) by lia.
Qed.

Lemma visit_overflows rec path e rest L m :
  wf_dent e -> dt_name e ++ rest <> [] -> visible e = true -> NUL ∉ dt_name e ->
  visit_entry d spare fsi rec (dent_bytes e ++ rest) L path m = Undef BufferOverflow.
Proof using narrow.
  intros W Hne Ev Hn. destruct (first_byte e rest Hne) as (b & Hb & Hh).
  unfold visit_entry. rewrite Hb. cbn [rbind]. rewrite dent_get_field by done. cbn [rbind dent_field].
  unfold visible in Ev. destruct (Z.eqb_spec (dt_inode e) 0) as [|Hi]; [by rewrite andb_false_r in Ev|].
  rewrite <- Hh by (by apply W). rewrite Ev. rewrite dent_get_field by done. cbn [rbind dent_field].
  unfold len at 1 2 3. rewrite !Nat2Z.id, name_bytes, (proj2 (Nat.ltb_ge _ _)) by lia.
  pose proof (make_path_overflows path (dt_name e) Hn) as O.
  destruct (make_file_name spare (dt_name e)); cbn [rbind] in *; try congruence. by rewrite O.
Qed.

(** Whether an entry is listed. *)
Definition shows (e : dent) (_ : enode) : bool := visible e.

Lemma entries_loop_narrow (P : cstr -> enode -> Z -> Prop) rec path des off limit fuel L m :
  entries_at P path off limit des -> limit - off <= Z.of_nat fuel -> (1 <= f_quota m)%nat ->
  entries_loop d spare fsi rec fuel off limit L path m
  = if fold_entries shows orb false des then Undef BufferOverflow else Ok (L, m).
Proof using narrow.
  revert off fuel. induction des as [|[e t] des IH]; intros off fuel; cbn [entries_at fold_entries].
  - intros Hlim _ _. destruct fuel; simpl; by rewrite (proj2 (Z.ltb_ge _ _) Hlim).
  - intros [(Hlt & Hrl & Hov & Hst & Hv) Hdes] Hf Hq.
    destruct (seek_read_entry off e Hst) as (rest & Er & Hne). pose proof Hst as (Ho & _ & W & _).
    destruct fuel as [|fuel]; [lia|]. cbn [entries_loop]. rewrite (proj2 (Z.ltb_lt _ _) Hlt).
    destruct m as [M [|q]]; cbn [f_quota] in Hq; [lia|].
    unfold malloc. cbn [f_quota f_store rbind]. rewrite Er. cbn [rbind].
    rewrite dent_get_field by done. cbn [rbind dent_field]. unfold add_int.
    rewrite (proj2 (Z.leb_le _ _)), (proj2 (Z.ltb_lt _ _)) by lia. cbn [andb rbind].
    unfold shows at 1. destruct (visible e) eqn:Ev; cbn [orb].
    + rewrite visit_overflows by (done || by apply Hv). done.
    + rewrite visit_hidden by done. cbn [rbind]. unfold free. cbn [f_quota f_store]. apply IH; [done|lia|simpl; lia].
Qed.

Lemma blocks_loop_narrow (P : cstr -> enode -> Z -> Prop) rec path ib idx blks L m :
  0 < block_size fsi -> length ib = size_of ext2_inode ->
  Forall (fun i => (i < EXT2_N_BLOCKS)%nat) idx ->
  blocks_at P path (filter (fun b => b <> 0) (map (fun i => field ext2_inode (i_block i) ib) idx)) blks ->
  (1 <= f_quota m)%nat ->
  blocks_loop d spare fsi rec idx ib L path m
  = if fold_blocks shows orb false blks then Undef BufferOverflow else Ok (L, m).
Proof using narrow.
  intros Hbs Hl. revert blks. induction idx as [|i idx IH]; intros blks Hidx; cbn [map].
  - intros Hb _. by destruct blks.
  - apply Forall_cons in Hidx as [Hi Hidx]. destruct (i_block_field i ib Hl Hi) as [Hg Hr].
    rewrite filter_cons. case_decide as Hz; intros Hb Hq; cbn [blocks_loop].
    + destruct blks as [|des blks]; [done|]. destruct Hb as [(Hb0 & Hb1 & Hdes) Hb].
      rewrite Hg. cbn [rbind]. rewrite (proj2 (Z.eqb_neq _ _) Hz).
      set (b := field ext2_inode (i_block i) ib) in *.
      assert (0 < b * block_size fsi) by nia.
      rewrite (i32_id (b * block_size fsi)) by nia. rewrite (i32_id (_ + block_size fsi)) by nia.
      replace (b * block_size fsi + block_size fsi) with ((b + 1) * block_size fsi) by lia.
      cbn [fold_blocks]. rewrite (entries_loop_narrow P rec path des) by (done || lia).
      destruct (fold_entries shows orb false des); [done|]. cbn [rbind orb]. by apply IH.
    + rewrite Hg. cbn [rbind]. destruct (Z.eqb_spec (field ext2_inode (i_block i) ib) 0); [|done].
      cbn [rbind]. by apply IH.
Qed.

Lemma shows_preorder path blks :
  fold_blocks shows orb false blks = negb (bool_decide (preorder path (EDir blks) = [])).
Proof.
  cbn [preorder]. induction blks as [|des blks IH]; [done|]. cbn [fold_blocks]. rewrite IH.
  assert (fold_entries shows orb false des
          = negb (bool_decide (fold_entries (fun e t => if visible e then
              (dt_inode e, join path (dt_name e)) :: preorder (join path (dt_name e)) t else []) app [] des = []))) as ->.
  { clear. induction des as [|[e t] des IH]; [done|]. cbn [fold_entries]. rewrite IH.
    unfold shows at 1. by destruct (visible e). }
  destruct (fold_entries _ app [] des); done.
Qed.
End Narrow.

(** ** Checking an image *)

Definition wf_dentb (e : dent) : bool :=
  (0 <=? dt_inode e) && (dt_inode e <? 2 ^ 32) && (0 <=? dt_rec_len e) && (dt_rec_len e <? 2 ^ 16) &&
  (0 <=? dt_type e) && (dt_type e <? 256) && (len (dt_name e) <=? 255) &&
  ((dt_inode e =? 0) || negb (bool_decide (dt_name e = []))).

Definition entry_storedb (off : Z) (e : dent) : bool :=
  let at_off := drop (Z.to_nat off) (d_bytes d) in
  (0 <=? off) && negb (d_ioerr d off) && wf_dentb e &&
  bool_decide (take (length (dent_bytes e)) at_off = dent_bytes e) &&
  (DIRENT_HEADER <? length at_off)%nat.

Section Check.
Context (below : cstr -> enode -> Z -> bool).

Fixpoint entries_atb (path : cstr) (off limit : Z) (des : list (dent * enode)) {struct des} : bool :=
  match des with
  | [] => limit <=? off
  | (e, t) :: des' =>
      (off <? limit) && (0 <? dt_rec_len e) && (off + dt_rec_len e <? 2 ^ 31) && entry_storedb off e &&
      (if visible e then
         bool_decide (NUL ∉ dt_name e) && Bool.eqb (is_edir t) (dt_type e =? EXT2_FT_DIR) &&
         below (join path (dt_name e)) t (dt_inode e)
       else true) &&
      entries_atb path (off + dt_rec_len e) limit des'
  end.

Fixpoint blocks_atb (path : cstr) (bs : list Z) (blks : list (list (dent * enode))) {struct blks} : bool :=
  match bs, blks with
  | [], [] => true
  | b :: bs', des :: blks' =>
      (0 <? b) && ((b + 1) * block_size fsi <? 2 ^ 31) &&
      entries_atb path (b * block_size fsi) ((b + 1) * block_size fsi) des && blocks_atb path bs' blks'
  | _, _ => false
  end.
End Check.

Definition inode_at (ino : Z) : list byte :=
  take (size_of ext2_inode) (drop (Z.to_nat (inode_location fsi ino)) (d_bytes d)).

Fixpoint node_atb (path : cstr) (t : enode) (ino : Z) : bool :=
  match t with
  | ELeaf => true
  | EDir blks =>
      negb (d_ioerr d (inode_location fsi ino)) &&
      (length (inode_at ino) =? size_of ext2_inode)%nat &&
      blocks_atb node_atb path (direct_blocks (inode_at ino)) blks
  end.

Lemma entry_storedb_sound off e : entry_storedb off e = true -> entry_stored off e.
Proof.
  unfold entry_storedb, wf_dentb. cbv zeta.
  rewrite !andb_true_iff, orb_true_iff, !negb_true_iff, bool_decide_eq_true, bool_decide_eq_false.
  rewrite Nat.ltb_lt, Z.eqb_eq, !Z.leb_le, !Z.ltb_lt.
  intros ((((Ho & Hio) & (((((((W1 & W2) & W3) & W4) & W5) & W6) & W7) & W8)) & Ht) & Hlen).
  split_and!; try done; [split_and!; try done; naive_solver|].
  exists (drop (length (dent_bytes e)) (drop (Z.to_nat off) (d_bytes d))). split.
  - rewrite <- Ht at 1. by rewrite take_drop.
  - intros [Hn Hd]%app_nil. apply (f_equal length) in Hd. rewrite length_drop in Hd.
    unfold dent_bytes in Hd. rewrite Hn, app_nil_r, length_encode in Hd.
    unfold DIRENT_HEADER in Hlen. simpl in *. lia.
Qed.

Lemma entries_atb_sound (f : cstr -> enode -> Z -> bool) (P : cstr -> enode -> Z -> Prop) h path des off limit :
  (forall p t ino, (height t <= h)%nat -> f p t ino = true -> P p t ino) ->
  (fold_entries entry_height Nat.max 0%nat des <= h)%nat ->
  entries_atb f path off limit des = true -> entries_at P path off limit des.
Proof.
  intros HfP. revert off. induction des as [|[e t] des IH]; intros off; cbn [entries_at entries_atb fold_entries].
  - intros _. apply Z.leb_le.
  - intros Hh. rewrite !andb_true_iff, !Z.ltb_lt. intros (((((H1 & H2) & H3) & H4) & Hv) & Hd).
    split; [|apply IH; [lia|done]]. split_and!; [done..|by apply entry_storedb_sound|].
    intros Ev. unfold entry_height in Hh. rewrite Ev in *.
    apply andb_true_iff in Hv as [[Ha Ht]%andb_true_iff Hb].
    apply bool_decide_eq_true in Ha. apply Bool.eqb_prop in Ht. split_and!; [done| |apply HfP; [lia|done]].
    rewrite Ht. apply Z.eqb_eq.
Qed.

Lemma blocks_atb_sound (f : cstr -> enode -> Z -> bool) (P : cstr -> enode -> Z -> Prop) h path bs blks :
  (forall p t ino, (height t <= h)%nat -> f p t ino = true -> P p t ino) ->
  (fold_blocks entry_height Nat.max 0%nat blks <= h)%nat ->
  blocks_atb f path bs blks = true -> blocks_at P path bs blks.
Proof.
  intros HfP. revert bs. induction blks as [|des blks IH]; intros [|b bs]; cbn [blocks_at blocks_atb fold_blocks]; try done.
  intros Hh. rewrite !andb_true_iff, !Z.ltb_lt. intros (((H1 & H2) & H3) & Hb).
  split; [split_and!; [done..|]|apply IH; [lia|done]].
  eapply entries_atb_sound; [done| |done]. lia.
Qed.

(** The check decides what the traversal needs. *)
Lemma node_atb_sound path t ino : node_atb path t ino = true -> node_at path t ino.
Proof.
  remember (height t) as h eqn:Eh. assert (Hh : (height t <= h)%nat) by lia. clear Eh.
  revert path t ino Hh. induction h as [|h IH]; intros path [|blks] ino Hh; try done; [simpl in Hh; lia|].
  cbn [node_atb]. rewrite !andb_true_iff, negb_true_iff, Nat.eqb_eq. intros ((Hio & Hl) & Hb).
  exists (inode_at ino). split; [split_and!; done|].
  eapply (blocks_atb_sound node_atb _ h); [done| |done]. exact (le_S_n _ _ Hh).
Qed.
End Image.
