(* ===== verification/FsaMain.v ===== *)
(** * fsa: what the program prints

    The traversal and the output of a file, from the image to the bytes written, with
    all memory given back. *)

From S2P Require Import Prelude CString ByteMem DirTree SList FsaList Ext2Layout FsaDisk FsaTree.

(** The image's superblock and first group descriptor give these parameters. *)
Definition mounted (d : disk) (fsi : file_system_info) : Prop :=
  exists sb gd log,
    seek_read d BOOT_OFFSET (Z.of_nat (size_of ext2_super_block)) = Ok sb /\
    get_field ext2_super_block s_log_block_size sb = Ok log /\
    block_size_of log = Ok (block_size fsi) /\
    seek_read d (block_size fsi) (Z.of_nat (size_of ext2_group_desc)) = Ok gd /\
    get_field ext2_group_desc bg_inode_table gd = Ok (inode_table_block fsi) /\
    get_field ext2_super_block s_inode_size sb = Ok (inode_size fsi).

Lemma le_decode_nonneg bs : 0 <= le_decode bs.
Proof. apply le_decode_range. Qed.

Lemma mounted_block_size d fsi : mounted d fsi -> 0 < block_size fsi.
Proof.
  intros (sb & gd & log & _ & Hl & Hb & _). unfold get_field in Hl. case_match; [|done].
  injection Hl as <-. unfold block_size_of in Hb. case_match; [|done]. injection Hb as <-.
  rewrite Z.shiftl_mul_pow2 by apply le_decode_nonneg.
  apply Z.mul_pos_pos; [lia|]. apply Z.pow_pos_nonneg; [lia|apply le_decode_nonneg].
Qed.

(** The whole listing: the tree in preorder, then the root. *)
Definition whole_listing (t : enode) : list (Z * cstr) := preorder [] t ++ [(EXT2_ROOT_INO, [slash])].

(** The allocations a traversal has at a time, at most. *)
Definition peak (t : enode) : nat := (4 + 2 * length (preorder [] t) + 2 * height t)%nat.

Section Traversal.
Context (d : disk) (spare : nat) (fsi : file_system_info) (t : enode) (fuel : nat).
Context (bs_pos : 0 < block_size fsi) (Hnode : node_at d fsi [] t EXT2_ROOT_INO).
Context (Hdir : is_edir t = true) (Hfuel : (height t <= fuel)%nat) (roomy : (2 <= spare)%nat).

Lemma populate_list_spec q :
  (peak t <= q)%nat ->
  exists L m, populate_list fuel d spare fsi (FMem ∅ q) = Ok (L, m) /\
    lists ∅ m L (whole_listing t) /\ f_quota m = (q - (3 + 2 * length (preorder [] t)))%nat.
Proof using All.
  unfold peak. intros Hq. unfold populate_list, init_list, malloc. destruct q as [|q]; [lia|]. simpl.
  assert (exists ib, inode_stored d fsi EXT2_ROOT_INO ib) as [ib Hib].
  { destruct t; [done|]. destruct Hnode as (ib & ? & _). by exists ib. }
  destruct (read_inode_ok d fsi EXT2_ROOT_INO ib (FMem ∅ q) Hib) as (m1 & -> & Hs & Hq1);
    [simpl; lia|]. cbn [rbind]. destruct m1 as [M1 q1]. simpl in Hs, Hq1. subst M1.
  destruct q1 as [|[|q1]]; [lia..|]. rewrite create_node_ok. cbn [rbind]. unfold new_node. cbn [fst snd].
  set (l := fresh _). set (E := <[l := _]> ∅).
  assert (H0 : lists E (FMem E q1) empty_list []).
  { exists []. split_and!; [apply holds_empty|simpl; set_solver| |done]. intros k _. split; [set_solver|done]. }
  destruct (read_directory_spec d spare fsi roomy fuel [] t EXT2_ROOT_INO bs_pos Hnode Hdir Hfuel ib Hib E
              empty_list (FMem E q1) [] H0) as (L & m & -> & Hl & Hq2); [simpl; lia|]. cbn [rbind].
  cbn [app] in Hl.
  destruct (insert_kept l (EXT2_ROOT_INO, [slash]) m L (preorder [] t)) as (L' & m' & -> & Hl' & Hq');
    [done|]. cbn [rbind].
  exists L', (free m'). split_and!; [done|by apply lists_free|]. simpl in *. lia.
Qed.

Lemma print_disk_spec q :
  (peak t <= q)%nat ->
  print_disk fuel d spare fsi (FMem ∅ q) = Ok (listing_text (whole_listing t), FMem ∅ q).
Proof using All.
  intros Hq. unfold print_disk. destruct (populate_list_spec q Hq) as (L & m & -> & Hl & Hm).
  cbn [rbind]. rewrite (print_list_spec m L _ Hl). cbn [rbind].
  rewrite (destroy_list_frees m L _ Hl). cbn [rbind]. unfold whole_listing. rewrite length_app.
  cbn [length]. do 3 f_equal. unfold peak in Hq. lia.
Qed.
End Traversal.

(** As declared in the source, the arrays overflow at the first entry that is listed. *)
Lemma populate_list_overflows d spare fsi t fuel q :
  0 < block_size fsi -> node_at d fsi [] t EXT2_ROOT_INO -> (spare < 2)%nat ->
  preorder [] t <> [] -> (1 <= fuel)%nat -> (5 <= q)%nat ->
  populate_list fuel d spare fsi (FMem ∅ q) = Undef BufferOverflow.
Proof.
  intros Hbs Hnode Hs Hp Hf Hq. destruct t as [|blks]; [done|]. destruct Hnode as (ib & Hib & Hb).
  unfold populate_list, init_list, malloc. destruct q as [|q]; [lia|]. simpl.
  destruct (read_inode_ok d fsi EXT2_ROOT_INO ib (FMem ∅ q) Hib) as (m1 & -> & HM & Hq1); [simpl; lia|].
  cbn [rbind]. destruct m1 as [M1 q1]. simpl in HM, Hq1. subst M1.
  destruct q1 as [|[|q1]]; [lia..|]. rewrite create_node_ok. cbn [rbind]. unfold new_node. cbn [fst snd].
  destruct fuel as [|f]; [lia|]. cbn [read_directory].
  erewrite blocks_loop_narrow with (blks := blks); [|done..|apply Hib| |exact Hb|simpl; lia].
  - rewrite (shows_preorder []). by rewrite bool_decide_false.
  - apply Forall_forall. intros i Hi%elem_of_seq. unfold EXT2_NDIR_BLOCKS, EXT2_N_BLOCKS in *. lia.
Qed.

(** ** The contents of a file *)

Section Contents.
Context (d : disk) (fsi : file_system_info).

Definition block_bytes (b : Z) : list byte :=
  take (Z.to_nat (block_size fsi)) (drop (Z.to_nat (b * block_size fsi)) (d_bytes d)).

(** The text the program prints for a block. *)
Definition block_text (b : Z) : list byte := c_str (block_bytes b).

(** The block can be read at an [int] offset. *)
Definition block_readable (b : Z) : Prop :=
  0 <= b /\ b * block_size fsi < 2 ^ 31 /\ d_ioerr d (b * block_size fsi) = false.

(** And has a null character. *)
Definition block_ok (b : Z) : Prop := block_readable b /\ NUL ∈ block_bytes b.

(** The entries of the table in a single indirect block. *)
Definition table_entry (b : Z) (k : nat) : Z :=
  le_decode (take 4 (drop (Z.to_nat (b * block_size fsi + 4 * Z.of_nat k)) (d_bytes d))).

Definition table_blocks (b : Z) : list Z :=
  filter (fun x => x <> 0) (map (table_entry b) (seq 0 (Z.to_nat (block_size fsi / 4)))).

Definition table_ok (b : Z) : Prop :=
  0 < b /\ (b + 1) * block_size fsi < 2 ^ 31 /\ (b + 1) * block_size fsi <= len (d_bytes d) /\
  (forall k, (k < Z.to_nat (block_size fsi / 4))%nat ->
     d_ioerr d (b * block_size fsi + 4 * Z.of_nat k) = false).

(** The data blocks of an inode: the direct ones and those of the indirect table. *)
Definition file_blocks (ib : list byte) : list Z :=
  direct_blocks ib ++
  (let b := field ext2_inode (i_block 12) ib in if decide (b = 0) then [] else table_blocks b).

Context (bs_pos : 0 < block_size fsi) (bs_mult : block_size fsi mod 4 = 0).

Lemma print_contents_eq b :
  block_readable b ->
  print_file_contents d b (block_size fsi) =
    if bool_decide (NUL ∈ block_bytes b) then Ok (block_text b) else Undef OutOfBoundsRead.
Proof using bs_pos.
  intros (Hb & Hlt & Hio). unfold print_file_contents. rewrite i32_id by nia.
  unfold seek_read, lseek. rewrite (proj2 (Z.ltb_ge _ _)) by nia. rewrite Z.eqb_refl, Hio. done.
Qed.

Lemma direct_loop_spec idx ib out :
  length ib = size_of ext2_inode -> Forall (fun i => (i < EXT2_N_BLOCKS)%nat) idx ->
  let bs := filter (fun b => b <> 0) (map (fun i => field ext2_inode (i_block i) ib) idx) in
  Forall block_ok bs -> direct_loop d fsi idx ib out = Ok (out ++ concat (map block_text bs)).
Proof using bs_pos.
  intros Hl. revert out. induction idx as [|i idx IH]; intros out Hidx; cbn [map direct_loop].
  - intros _. by rewrite app_nil_r.
  - apply Forall_cons in Hidx as [Hi Hidx]. destruct (i_block_field i ib Hl Hi) as [-> _].
    cbn [rbind]. cbv zeta in *. rewrite filter_cons. case_decide as Hz.
    + intros [[Hb Hn] Hbs]%Forall_cons. rewrite (proj2 (Z.eqb_neq _ _) Hz).
      rewrite print_contents_eq, bool_decide_true by done. cbn [rbind].
      rewrite IH by done. cbn [map concat]. by rewrite app_assoc.
    + intros Hbs. destruct (Z.eqb_spec (field ext2_inode (i_block i) ib) 0); [|done].
      cbn [rbind]. by rewrite IH.
Qed.

Lemma read_table_entry b k :
  table_ok b -> (k < Z.to_nat (block_size fsi / 4))%nat ->
  exists bs, seek_read d (b * block_size fsi + 4 * Z.of_nat k) 4 = Ok bs /\ length bs = 4%nat /\
    le_decode bs = table_entry b k.
Proof using bs_pos bs_mult.
  intros (Hb & Hlt & Hlen & Hio) Hk. pose proof (Z.div_mod (block_size fsi) 4 ltac:(lia)) as D.
  unfold seek_read, lseek. rewrite (proj2 (Z.ltb_ge _ _)) by nia. rewrite Z.eqb_refl, Hio by done.
  eexists. split; [done|]. split; [|done]. rewrite length_take, length_drop. unfold len in Hlen. nia.
Qed.

Lemma indirect_loop_spec b n k out fuel :
  table_ok b -> (k + n = Z.to_nat (block_size fsi / 4))%nat -> (n <= fuel)%nat ->
  let bs := filter (fun x => x <> 0) (map (table_entry b) (seq k n)) in
  Forall block_ok bs ->
  indirect_loop fuel d fsi (b * block_size fsi + 4 * Z.of_nat k) ((b + 1) * block_size fsi) out
  = Ok (out ++ concat (map block_text bs)).
Proof using bs_pos bs_mult.
  intros Ht. pose proof (Z.div_mod (block_size fsi) 4 ltac:(lia)) as D.
  revert k out fuel. induction n as [|n IH]; intros k out fuel Hk Hf; cbn [seq map].
  - intros _. rewrite app_nil_r. destruct fuel; cbn [indirect_loop];
      by rewrite (proj2 (Z.ltb_ge _ _)) by nia.
  - destruct fuel as [|fuel]; [lia|]. cbn [indirect_loop].
    rewrite (proj2 (Z.ltb_lt _ _)) by nia.
    destruct (read_table_entry b k Ht ltac:(lia)) as (bs & -> & Hl & Hd). cbn [rbind].
    rewrite Hl, Hd. cbn [Nat.ltb Nat.leb rbind]. cbv zeta in *. rewrite filter_cons.
    assert (Hadd : add_int (b * block_size fsi + 4 * Z.of_nat k) 4
                   = Ok (b * block_size fsi + 4 * Z.of_nat (S k))).
    { unfold add_int. destruct Ht as (Hb & Hlt & _).
      rewrite (proj2 (Z.leb_le _ _)), (proj2 (Z.ltb_lt _ _)) by nia. simpl. f_equal. lia. }
    rewrite Hadd. case_decide as Hz.
    + intros [[Hb Hn] Hbs]%Forall_cons. rewrite (proj2 (Z.eqb_neq _ _) Hz).
      rewrite print_contents_eq, bool_decide_true by done. cbn [rbind].
      rewrite IH by (done || lia). cbn [map concat]. by rewrite app_assoc.
    + intros Hbs. destruct (Z.eqb_spec (table_entry b k) 0); [|done]. cbn [rbind].
      by rewrite IH by (done || lia).
Qed.

(** All the data blocks, one after the other. *)
Lemma print_blocks_spec ib :
  length ib = size_of ext2_inode -> Forall block_ok (file_blocks ib) ->
  (field ext2_inode (i_block 12) ib <> 0 -> table_ok (field ext2_inode (i_block 12) ib)) ->
  print_blocks d fsi ib = Ok (concat (map block_text (file_blocks ib))).
Proof using bs_pos bs_mult.
  intros Hl [Hd Hi]%Forall_app Ht. unfold print_blocks.
  rewrite (direct_loop_spec _ ib []); [|done| |done].
  2: { apply Forall_forall. intros i Hi'%elem_of_seq. unfold EXT2_NDIR_BLOCKS, EXT2_N_BLOCKS in *. lia. }
  cbn [rbind app]. destruct (i_block_field 12 ib Hl) as [-> _]; [unfold EXT2_N_BLOCKS; lia|].
  cbn [rbind]. unfold file_blocks. rewrite map_app, concat_app. cbv zeta in *.
  set (b := field ext2_inode (i_block 12) ib) in *. destruct (Z.eqb_spec b 0) as [E|E].
  - rewrite decide_True by done. simpl. by rewrite app_nil_r.
  - rewrite decide_False in Hi |- * by done. specialize (Ht E). pose proof Ht as (Hb & Hlt & _).
    rewrite (i32_id (b * block_size fsi)) by nia. rewrite (i32_id (_ + block_size fsi)) by nia.
    pose proof (indirect_loop_spec b (Z.to_nat (block_size fsi / 4)) 0
      (concat (map block_text (direct_blocks ib))) (Z.to_nat (block_size fsi)) Ht eq_refl) as S.
    rewrite Z.mul_0_r, Z.add_0_r in S.
    replace (b * block_size fsi + block_size fsi) with ((b + 1) * block_size fsi) by lia.
    apply S; [|done]. apply Z2Nat.inj_le; [apply Z.div_pos; lia|lia|]. apply Z.div_le_upper_bound; lia.
Qed.
End Contents.

(** ** The commands *)

(** What [disk_analyze] does once the image's parameters are known. *)
Lemma disk_analyze_mounted fuel open_disk spare name d fsi (traverse file : bool) path q :
  open_disk name = Some d -> mounted d fsi ->
  disk_analyze fuel open_disk spare name traverse file path (FMem ∅ (3 + q)) =
    (let* '(out1, m) := (if traverse then print_disk fuel d spare fsi (FMem ∅ q) else Ok ([], FMem ∅ q)) in
     let* '(out2, m) := (if file then print_file fuel d spare fsi path m else Ok ([], m)) in
     Ok (out1 ++ out2, free (free (free m)))).
Proof.
  intros Ho (sb & gd & log & E1 & E2 & E3 & E4 & E5 & E6). unfold disk_analyze, malloc, create_fsi.
  cbn [Nat.add f_quota f_store rbind]. rewrite Ho, E1. cbn [rbind]. rewrite E2. cbn [rbind].
  rewrite E3. cbn [rbind]. rewrite E4. cbn [rbind]. rewrite E5. cbn [rbind]. rewrite E6. cbn [rbind].
  unfold malloc. cbn [Nat.add f_quota f_store rbind]. by destruct fsi as [bs itb isz].
Qed.

Section Commands.
Context (open_disk : cstr -> option disk) (spare : nat) (name : cstr).
Context (d : disk) (fsi : file_system_info) (t : enode) (fuel q : nat).
Context (Hopen : open_disk name = Some d) (Hm : mounted d fsi).
Context (Hnode : node_at d fsi [] t EXT2_ROOT_INO) (Hdir : is_edir t = true).
Context (Hfuel : (height t <= fuel)%nat) (Hq : (peak t <= q)%nat) (roomy : (2 <= spare)%nat).

Lemma print_file_spec path :
  let ino := lookup_path path (whole_listing t) in
  (ino = 0 -> print_file fuel d spare fsi (Some path) (FMem ∅ q) = Ok ([], FMem ∅ q)) /\
  (forall ib, ino <> 0 -> inode_stored d fsi ino ib -> block_size fsi mod 4 = 0 ->
     Forall (block_ok d fsi) (file_blocks d fsi ib) ->
     (field ext2_inode (i_block 12) ib <> 0 -> table_ok d fsi (field ext2_inode (i_block 12) ib)) ->
     print_file fuel d spare fsi (Some path) (FMem ∅ q)
     = Ok (concat (map (block_text d fsi) (file_blocks d fsi ib)), FMem ∅ q)).
Proof using All.
  pose proof (mounted_block_size d fsi Hm) as Hbs. cbv zeta.
  assert (Hh : (1 <= height t)%nat) by (destruct t; [done|simpl; lia]). unfold print_file.
  destruct (populate_list_spec d spare fsi t fuel Hbs Hnode Hdir Hfuel roomy q Hq) as (L & m & -> & Hl & Hmq).
  cbn [rbind]. destruct m as [M k]. unfold peak in Hq. simpl in Hmq. unfold malloc.
  destruct k as [|[|k]]; [lia..|]. cbn [f_quota f_store rbind].
  assert (Hl1 : lists ∅ (FMem M (S k)) L (whole_listing t)) by done.
  rewrite (search_by_path_spec path _ L _ Hl1) by (unfold whole_listing; by destruct (preorder [] t)).
  cbn [rbind].
  assert (Hd : destroy_list L (free (FMem M (S k))) = Ok (FMem ∅ q)).
  { rewrite (destroy_list_frees _ L _ (lists_free _ _ _ _ Hl1)). unfold whole_listing.
    rewrite length_app. cbn [length f_quota free]. do 2 f_equal. lia. }
  split.
  - intros ->. rewrite Z.eqb_refl. cbn [rbind]. by rewrite Hd.
  - intros ib Hne Hib Hmul Hok Htab. rewrite (proj2 (Z.eqb_neq _ _) Hne).
    destruct (read_inode_ok d fsi _ ib (FMem M (S k)) Hib) as (m' & -> & Hs & Hq'); [simpl; lia|].
    cbn [rbind]. rewrite (print_blocks_spec d fsi Hbs Hmul ib) by (done || apply Hib). cbn [rbind].
    destruct m' as [M' k']. simpl in Hs, Hq'. subst M'.
    assert (free (FMem M k') = FMem M (S k)) as ->; [unfold free; simpl; f_equal; lia|]. by rewrite Hd.
Qed.
End Commands.
