(* ===== verification/FsaTheorems.v ===== *)
(** * fsa: the theorems, with a concrete image

    The properties of the commands [-traverse] and [-file], the errors that an image
    or a command line can provoke, and an ext2 image on which they are evaluated. *)

From S2P Require Import Prelude CString ByteMem DirTree SList FsaList Ext2Layout FsaDisk FsaTree FsaMain.


(** C39: as the source declares the arrays ([spare = 0], and with one byte more), any
    command that loads the directory tree of an image whose root directory has an
    entry to list writes past the end of [file_name] or [file_path], at the first such
    entry: [-traverse] and [-file path] alike. *)
Theorem fsa_overflows_at_first_entry open_disk spare name d fsi t fuel q path :
  (spare < 2)%nat ->
  open_disk name = Some d -> mounted d fsi ->
  node_at d fsi [] t EXT2_ROOT_INO -> preorder [] t <> [] ->
  (1 <= fuel)%nat -> (5 <= q)%nat ->
  main fuel open_disk spare [name; lit "-traverse"] (FMem ∅ (3 + q)) = Undef BufferOverflow /\
  main fuel open_disk spare [name; lit "-file"; path] (FMem ∅ (3 + q)) = Undef BufferOverflow.
Proof.
  intros Hs Ho Hm Hn Hp Hf Hq.
  pose proof (populate_list_overflows d spare fsi t fuel q (mounted_block_size d fsi Hm) Hn Hs Hp Hf Hq) as O.
  unfold main. change (parse_args [lit "-file"; path] false false None) with (Some (false, true, Some path)).
  change (parse_args [lit "-traverse"] false false None) with (Some (true, false, @None cstr)).
  cbn iota. rewrite !(disk_analyze_mounted _ _ _ _ d fsi) by done. cbn [rbind].
  unfold print_disk, print_file. by rewrite O.
Qed.

(** With the larger arrays, on such an image [fsa disk -file path] prints nothing when
    the path is not listed; otherwise, when every data block of the file (direct, or in
    the single indirect table) can be read and contains a null character, it prints
    each block up to its first null character, in order. *)
Theorem fsa_file_prints_blocks open_disk spare name d fsi t fuel q path ib :
  (2 <= spare)%nat ->
  open_disk name = Some d -> mounted d fsi ->
  node_at d fsi [] t EXT2_ROOT_INO -> is_edir t = true ->
  (height t <= fuel)%nat -> (peak t <= q)%nat ->
  (lookup_path path (whole_listing t) <> 0 ->
     inode_stored d fsi (lookup_path path (whole_listing t)) ib /\
     block_size fsi mod 4 = 0 /\ Forall (block_ok d fsi) (file_blocks d fsi ib) /\
     (field ext2_inode (i_block 12) ib <> 0 -> table_ok d fsi (field ext2_inode (i_block 12) ib))) ->
  main fuel open_disk spare [name; lit "-file"; path] (FMem ∅ (3 + q))
    = Ok (0, if decide (lookup_path path (whole_listing t) = 0) then []
             else concat (map (block_text d fsi) (file_blocks d fsi ib))).
Proof.
  intros Hs Ho Hm Hn Hd Hf Hq Hfile.
  destruct (print_file_spec open_disk spare name d fsi t fuel q Ho Hm Hn Hd Hf Hq Hs path) as [P0 P1].
  unfold main. change (parse_args [lit "-file"; path] false false None) with (Some (false, true, Some path)).
  cbn iota. rewrite (disk_analyze_mounted _ _ _ _ d fsi) by done. cbn [rbind]. case_decide as E.
  - rewrite P0 by done. done.
  - destruct (Hfile E) as (H1 & H2 & H3 & H4). by rewrite (P1 ib E H1 H2 H3 H4).
Qed.

(** A file whose first data block is full, without a null character, makes
    [printf] read past the buffer of one block. *)
Theorem fsa_full_block_overreads d fsi ib :
  0 < block_size fsi -> length ib = size_of ext2_inode ->
  field ext2_inode (i_block 0) ib <> 0 ->
  block_readable d fsi (field ext2_inode (i_block 0) ib) ->
  NUL ∉ block_bytes d fsi (field ext2_inode (i_block 0) ib) ->
  print_blocks d fsi ib = Undef OutOfBoundsRead.
Proof.
  intros Hbs Hl Hb Hr Hn. unfold print_blocks.
  change (seq 0 EXT2_NDIR_BLOCKS) with (0%nat :: seq 1 11). cbn [direct_loop].
  destruct (i_block_field 0 ib Hl) as [-> _]; [unfold EXT2_N_BLOCKS; lia|]. cbn [rbind].
  rewrite (proj2 (Z.eqb_neq _ _) Hb), print_contents_eq, bool_decide_false by done. done.
Qed.

(** A directory entry of length 0 is read for ever: whatever the fuel, the loop
    over the block does not end. *)
Theorem fsa_zero_rec_len_loops d spare fsi rec path e off limit fuel L m :
  entry_stored d off e -> dt_rec_len e = 0 -> visible e = false -> off < limit -> off < 2 ^ 31 ->
  (1 <= f_quota m)%nat ->
  entries_loop d spare fsi rec fuel off limit L path m = NoFuel.
Proof.
  intros Hst Hz Hv Hlt Ho Hq. destruct (seek_read_entry d off e Hst) as (rest & Er & Hne).
  destruct Hst as (Ho' & _ & W & _).
  induction fuel as [|f IH]; cbn [entries_loop]; rewrite (proj2 (Z.ltb_lt _ _) Hlt); [done|].
  destruct m as [M [|q]]; simpl in Hq; [lia|]. unfold malloc. cbn [f_quota f_store rbind].
  rewrite Er. cbn [rbind]. rewrite dent_get_field by done. cbn [rbind dent_field]. rewrite Hz.
  unfold add_int. rewrite Z.add_0_r, (proj2 (Z.leb_le _ _)), (proj2 (Z.ltb_lt _ _)) by lia. cbn [andb rbind].
  rewrite visit_hidden by done. exact IH.
Qed.

(** [-file] as the last argument passes a null path to [strcmp]. *)
Theorem fsa_file_without_path open_disk spare name d fsi t fuel q :
  (2 <= spare)%nat ->
  open_disk name = Some d -> mounted d fsi ->
  node_at d fsi [] t EXT2_ROOT_INO -> is_edir t = true ->
  (height t <= fuel)%nat -> (peak t <= q)%nat ->
  main fuel open_disk spare [name; lit "-file"] (FMem ∅ (3 + q)) = Undef NullDeref.
Proof.
  intros Hs Ho Hm Hn Hd Hf Hq. unfold main.
  change (parse_args [lit "-file"] false false None) with (Some (false, true, @None cstr)). cbn iota.
  rewrite (disk_analyze_mounted _ _ _ _ d fsi) by done. cbn [rbind].
  unfold print_file. destruct (populate_list_spec d spare fsi t fuel (mounted_block_size d fsi Hm) Hn Hd Hf Hs q Hq)
    as (L & m & -> & (xs & Hh & _ & _ & Hx) & Hmq). cbn [rbind].
  destruct m as [M [|k]]; simpl in Hmq; unfold peak in Hq; [lia|]. unfold malloc. cbn [f_quota f_store rbind].
  unfold search_by_path. destruct (sl_head L) eqn:E; [done|]. exfalso.
  destruct Hh as [Hc _ _]. rewrite E in Hc. destruct xs as [|[l v] xs]; [|by destruct Hc].
  unfold whole_listing in Hx. simpl in Hx. by destruct (preorder [] t).
Qed.

(** ** A concrete image *)

Module DemoImage.
Definition pad (n : nat) (l : list byte) : list byte := l ++ replicate (n - length l) NUL.

Definition sb (f : sb_field) : Z :=
  match f with s_log_block_size => 1 | s_inode_size => 128 | s_magic => 61267 | _ => 0 end.
Definition gd (f : gd_field) : Z := match f with bg_inode_table => 2 | _ => 0 end.
(** An inode with one data block. *)
Definition ino (b : Z) (f : ino_field) : Z := match f with i_block O => b | _ => 0 end.
Definition no_inode : list byte := replicate 128 NUL.

Definition root_dir : list (dent * enode) :=
  [(Dent 2 12 2 (lit "."), ELeaf); (Dent 2 12 2 (lit ".."), ELeaf); (Dent 12 12 1 (lit "a"), ELeaf);
   (Dent 13 2012 2 (lit "s"),
    EDir [[(Dent 13 12 2 (lit "."), ELeaf); (Dent 2 12 2 (lit ".."), ELeaf);
           (Dent 12 2024 1 (lit "b"), ELeaf)]])].
Definition tree : enode := EDir [root_dir].

Definition dir_block (es : list dent) : list byte :=
  pad 2048 (concat (map (fun e => pad (Z.to_nat (dt_rec_len e)) (dent_bytes e)) es)).

(** Six blocks of 2048 bytes: boot and superblock, descriptors, inode table, the root
    directory, a file, and a subdirectory. *)
Definition image : list byte :=
  replicate 1024 NUL ++ encode ext2_super_block sb
  ++ pad 2048 (encode ext2_group_desc gd)
  ++ pad 2048 (no_inode ++ encode ext2_inode (ino 3) ++ concat (replicate 9 no_inode)
               ++ encode ext2_inode (ino 4) ++ encode ext2_inode (ino 5))
  ++ dir_block (map fst root_dir)
  ++ pad 2048 (lit "hello" ++ [newline])
  ++ dir_block [Dent 13 12 2 (lit "."); Dent 2 12 2 (lit ".."); Dent 12 2024 1 (lit "b")].

Definition d : disk := Disk image (fun _ => false).
Definition fsi : file_system_info := Fsi 2048 2 128.
Definition open_disk (n : cstr) : option disk := if bool_decide (n = lit "img") then Some d else None.

Lemma is_mounted : mounted d fsi.
Proof.
  exists (encode ext2_super_block sb), (take 32 (encode ext2_group_desc gd)), 1.
  split_and!; vm_compute; reflexivity.
Qed.

Lemma holds_tree : node_at d fsi [] tree EXT2_ROOT_INO.
Proof. apply node_atb_sound. vm_compute. reflexivity. Qed.

(** The same directory with an unused entry of length 0 in front. *)
Definition bad : disk := Disk (pad 2048 (dent_bytes (Dent 0 0 0 []))) (fun _ => false).
(** A file with a block full of text. *)
Definition long : disk := Disk (replicate 2048 NUL ++ replicate 2048 newline) (fun _ => false).
End DemoImage.


Lemma fsa_overflows_at_first_entry_witness :
  main 2 DemoImage.open_disk 0 [lit "img"; lit "-traverse"] (FMem ∅ (3 + 20)) = Undef BufferOverflow.
Proof.
  apply (fsa_overflows_at_first_entry DemoImage.open_disk 0 (lit "img") DemoImage.d
    DemoImage.fsi DemoImage.tree 2 20 []);
    [lia | reflexivity | apply DemoImage.is_mounted | apply DemoImage.holds_tree
    | vm_compute; discriminate | lia | lia].
Defined.

Lemma fsa_file_prints_blocks_witness :
  main 2 DemoImage.open_disk 2 [lit "img"; lit "-file"; lit "/s/b"] (FMem ∅ (3 + 20))
    = Ok (0, lit "hello" ++ [newline]).
Proof.
  rewrite (fsa_file_prints_blocks DemoImage.open_disk 2 (lit "img") DemoImage.d
    DemoImage.fsi DemoImage.tree 2 20 (lit "/s/b") (encode ext2_inode (DemoImage.ino 4)));
    [vm_compute; reflexivity | lia | reflexivity | apply DemoImage.is_mounted | apply DemoImage.holds_tree
    | reflexivity | vm_compute; lia | vm_compute; lia |].
  intros _. split; [split; [reflexivity | split; [vm_compute; reflexivity | vm_compute; reflexivity]]|].
  split; [reflexivity|]. split.
  - replace (file_blocks DemoImage.d DemoImage.fsi (encode ext2_inode (DemoImage.ino 4))) with [4]
      by (vm_compute; reflexivity).
    apply Forall_cons. split; [|constructor]. split; [split; [lia|split; [vm_compute; reflexivity|reflexivity]]|].
    apply (bool_decide_unpack _). vm_compute. exact I.
  - intros H. exfalso. apply H. vm_compute. reflexivity.
Defined.

Lemma fsa_full_block_overreads_witness :
  print_blocks DemoImage.long DemoImage.fsi (encode ext2_inode (DemoImage.ino 1)) = Undef OutOfBoundsRead.
Proof.
  apply (fsa_full_block_overreads DemoImage.long DemoImage.fsi (encode ext2_inode (DemoImage.ino 1)));
    [vm_compute; reflexivity | vm_compute; reflexivity | vm_compute; congruence
    | split; [vm_compute; congruence | split; [vm_compute; reflexivity | reflexivity]]
    | apply (bool_decide_unpack _); vm_compute; exact I].
Defined.

Lemma fsa_zero_rec_len_loops_witness :
  entries_loop DemoImage.bad 2 DemoImage.fsi (fun _ L _ m => Ok (L, m)) 1000 0 2048
    empty_list [] (FMem ∅ 5) = NoFuel.
Proof.
  apply (fsa_zero_rec_len_loops DemoImage.bad 2 DemoImage.fsi (fun _ L _ m => Ok (L, m)) []
           (Dent 0 0 0 []) 0 2048 1000 empty_list (FMem ∅ 5));
    [apply entry_storedb_sound; vm_compute; reflexivity | reflexivity | reflexivity | lia | lia
    | simpl; lia].
Defined.

Lemma fsa_file_without_path_witness :
  main 2 DemoImage.open_disk 2 [lit "img"; lit "-file"] (FMem ∅ (3 + 20)) = Undef NullDeref.
Proof.
  apply (fsa_file_without_path DemoImage.open_disk 2 (lit "img") DemoImage.d
    DemoImage.fsi DemoImage.tree 2 20);
    [lia | reflexivity | apply DemoImage.is_mounted | apply DemoImage.holds_tree | reflexivity
    | vm_compute; lia | vm_compute; lia].
Defined.
