(* ===== verification/Ext2Dir.v ===== *)
(** * ext2: directories

    [fs/ext2/dir.c] of the Linux tree: the pages of a directory are arrays of bytes
    in the page cache, and every function reads and writes them there.  What the rest
    of the kernel does for it (reading a page, allocating blocks for a chunk, the
    clock) is a parameter, [kernel].  Locks and reference counts of pages are not
    part of the state: the directory is locked by the caller. *)

From S2P Require Import Prelude CString ByteMem Ext2Layout.

(** ** The kernel around a directory *)

Definition EIO : Z := 5.
Definition ENOMEM : Z := 12.
Definition EEXIST : Z := 17.
Definition EINVAL : Z := 22.

Record kernel := Kernel {
  PAGE_SHIFT : Z;
  dir_pages : Z -> Z;                      (* the number of pages for a size *)
  EXT2_BTREE_FL : Z;
  readpage : Z -> Z + list byte;           (* a page read from the disk, or an error *)
  block_write_begin : Z -> Z -> Z -> Z * Z;  (* size, position, length: 0 or why the chunk
                                                cannot be written, and the new sectors *)
  dirsync : option Z;                      (* of a synchronous directory: the result of writing *)
  current_time : Z }.

Definition PAGE_SIZE (k : kernel) : Z := Z.shiftl 1 (PAGE_SHIFT k).

(** The fields of the superblock that directories use. *)
Record super := Super { s_blocksize : Z; sb_inodes_count : Z; sb_feature_incompat : Z }.

Definition EXT2_FEATURE_INCOMPAT_FILETYPE : Z := 2.
Definition EXT2_HAS_INCOMPAT_FEATURE (sb : super) (mask : Z) : bool :=
  negb (Z.land (sb_feature_incompat sb) mask =? 0).

(** A page of the cache with its flags [PageChecked] and [PageError]. *)
Record page := Page { p_data : list byte; p_checked : bool; p_error : bool }.

(** The reports of [ext2_error]. *)
Inductive report :=
  | Ebadsize | Eshort | Ealign | Enamelen | Espan | Einumber | Eend
  | ZeroLength | BadPage | ExceedsBlocks.

(** A directory's inode, its part of the page cache and the reports on it. *)
Record dir := Dir {
  i_ino : Z; i_mode : Z; i_size : Z; i_blocks : Z; i_version : Z; i_flags : Z;
  i_mtime : Z; i_ctime : Z; i_dir_start_lookup : Z; i_dirty : bool;
  i_pages : gmap Z page; reports : list report }.

Definition with_pages ps d := let 'Dir a b c e f g h i j l _ r := d in Dir a b c e f g h i j l ps r.
Definition with_lookup n d := let 'Dir a b c e f g h i _ l m r := d in Dir a b c e f g h i n l m r.
Definition with_size n d := let 'Dir a b _ e f g h i j _ m r := d in Dir a b n e f g h i j true m r.
Definition with_blocks n d := let 'Dir a b c _ f g h i j l m r := d in Dir a b c n f g h i j l m r.
Definition with_version n d := let 'Dir a b c e _ g h i j l m r := d in Dir a b c e n g h i j l m r.
Definition ext2_error q d := let 'Dir a b c e f g h i j l m r := d in Dir a b c e f g h i j l m (r ++ [q]).
(** The times, the btree flag and [mark_inode_dirty]. *)
Definition with_times n d := let 'Dir a b c e f g _ _ j l m r := d in Dir a b c e f g n n j l m r.
Definition clear_btree k d :=
  let 'Dir a b c e f g h i j _ m r := d in
  Dir a b c e f (Z.land g (u32 (Z.lnot (EXT2_BTREE_FL k)))) h i j true m r.

Definition set_data (n : Z) (data : list byte) (d : dir) : dir :=
  match i_pages d !! n with
  | Some p => with_pages (<[n := Page data (p_checked p) (p_error p)]> (i_pages d)) d
  | None => d
  end.

(** ** Entries in a page *)

Section DirC.
Context (k : kernel) (sb : super).

Definition EXT2_MAX_REC_LEN : Z := 65535.

Definition ext2_rec_len_from_disk (dlen : Z) : Z :=
  if (65536 <=? PAGE_SIZE k) && (dlen =? EXT2_MAX_REC_LEN) then 65536 else dlen.

Definition ext2_rec_len_to_disk (l : Z) : res Z :=
  if 65536 <=? PAGE_SIZE k then
    if l =? 65536 then Ok EXT2_MAX_REC_LEN
    else if 65536 <? l then Undef KernelBug
    else Ok (u16 l)
  else Ok (u16 l).

(** A field of the entry at an offset of the page, and a store into one. *)
Definition de_get (kaddr : list byte) (de : Z) (f : de_field) : res Z :=
  let o := de + Z.of_nat (offset_of ext2_dir_entry_2 f) in
  if (0 <=? de) && (o + Z.of_nat (width_of ext2_dir_entry_2 f) <=? len kaddr)
  then Ok (field ext2_dir_entry_2 f (drop (Z.to_nat de) kaddr))
  else Undef OutOfBoundsRead.

Definition de_set (kaddr : list byte) (de : Z) (f : de_field) (v : Z) : res (list byte) :=
  write_at kaddr (de + Z.of_nat (offset_of ext2_dir_entry_2 f))
    (le_encode (width_of ext2_dir_entry_2 f) v).

(** [n] bytes of the entry's name. *)
Definition de_name (kaddr : list byte) (de n : Z) : res (list byte) :=
  let o := de + Z.of_nat DIRENT_HEADER in
  if (0 <=? de) && (o + n <=? len kaddr)
  then Ok (take (Z.to_nat n) (drop (Z.to_nat o) kaddr))
  else Undef OutOfBoundsRead.

Definition ext2_chunk_size : Z := s_blocksize sb.

Definition ext2_last_byte (d : dir) (page_nr : Z) : Z :=
  let last_byte := u32 (u32 (i_size d) - Z.shiftl page_nr (PAGE_SHIFT k)) in
  if PAGE_SIZE k <? last_byte then PAGE_SIZE k else last_byte.

Definition ext2_commit_chunk (d : dir) (pos l : Z) : Z * dir :=
  let d := with_version (i_version d + 1) d in
  let d := if i_size d <? pos + l then with_size (pos + l) d else d in
  (match dirsync k with Some err => err | None => 0 end, d).

(** The loop of [ext2_check_page]: an error, or the offset at which it ends. *)
Fixpoint check_loop (fuel : nat) (kaddr : list byte) (limit offs : Z) : res (report + Z) :=
  match fuel with
  | O => NoFuel
  | S fuel' =>
      if negb (offs <=? u32 (limit - EXT2_DIR_REC_LEN 1)) then Ok (inr offs)
      else
        let* dlen := de_get kaddr offs de_rec_len in
        let rec_len := ext2_rec_len_from_disk dlen in
        if rec_len <? EXT2_DIR_REC_LEN 1 then Ok (inl Eshort)
        else if negb (Z.land rec_len 3 =? 0) then Ok (inl Ealign)
        else
          let* name_len := de_get kaddr offs de_name_len in
          if rec_len <? EXT2_DIR_REC_LEN name_len then Ok (inl Enamelen)
          else if negb (Z.land (Z.lxor (u32 (offs + rec_len - 1)) offs)
                          (u32 (Z.lnot (ext2_chunk_size - 1))) =? 0)
          then Ok (inl Espan)
          else
            let* ino := de_get kaddr offs de_inode in
            if sb_inodes_count sb <? ino then Ok (inl Einumber)
            else check_loop fuel' kaddr limit (u32 (offs + rec_len))
  end.

(** What [ext2_check_page] finds on page [n]: an error, or none. *)
Definition check_data (d : dir) (n : Z) (kaddr : list byte) : res (option report) :=
  let last := Z.shiftr (i_size d) (PAGE_SHIFT k) =? n in
  let limit := if last then Z.land (i_size d) (PAGE_SIZE k - 1) else PAGE_SIZE k in
  if last && negb (Z.land limit (ext2_chunk_size - 1) =? 0) then Ok (Some Ebadsize)
  else if last && (limit =? 0) then Ok None
  else
    let* r := check_loop (S (Z.to_nat (PAGE_SIZE k))) kaddr limit 0 in
    match r with
    | inl e => Ok (Some e)
    | inr offs => Ok (if offs =? limit then None else Some Eend)
    end.

Definition ext2_check_page (d : dir) (n : Z) (p : page) (quiet : bool) : res (bool * dir) :=
  let* e := check_data d n (p_data p) in
  match e with
  | None => Ok (true, with_pages (<[n := Page (p_data p) true (p_error p)]> (i_pages d)) d)
  | Some r =>
      let d := if quiet then d else ext2_error r d in
      Ok (false, with_pages (<[n := Page (p_data p) (p_checked p) true]> (i_pages d)) d)
  end.

(** [read_mapping_page]: the page of the cache, which is read in when it is not there. *)
Definition read_mapping_page (d : dir) (n : Z) : Z + page * dir :=
  match i_pages d !! n with
  | Some p => inr (p, d)
  | None =>
      match readpage k n with
      | inl err => inl err
      | inr data => let p := Page data false false in inr (p, with_pages (<[n := p]> (i_pages d)) d)
      end
  end.

Definition ext2_get_page (d : dir) (n : Z) (quiet : bool) : res ((Z + list byte) * dir) :=
  match read_mapping_page d n with
  | inl err => Ok (inl err, d)
  | inr (p, d) =>
      if negb (p_checked p) then
        if p_error p then Ok (inl (- EIO), d)
        else
          let* '(good, d) := ext2_check_page d n p quiet in
          Ok (if good then inr (p_data p) else inl (- EIO), d)
      else Ok (inr (p_data p), d)
  end.

Definition ext2_match (name : list byte) (kaddr : list byte) (de : Z) : res bool :=
  let* name_len := de_get kaddr de de_name_len in
  if negb (len name =? name_len) then Ok false
  else
    let* ino := de_get kaddr de de_inode in
    if ino =? 0 then Ok false
    else let* nm := de_name kaddr de (len name) in Ok (bool_decide (name = nm)).

Definition ext2_next_entry (kaddr : list byte) (p : Z) : res Z :=
  let* dlen := de_get kaddr p de_rec_len in Ok (p + ext2_rec_len_from_disk dlen).

Fixpoint validate_loop (fuel : nat) (base : list byte) (de p : Z) : res Z :=
  match fuel with
  | O => NoFuel
  | S fuel' =>
      if negb (p <? de) then Ok p
      else
        let* dlen := de_get base p de_rec_len in
        if dlen =? 0 then Ok p
        else let* p := ext2_next_entry base p in validate_loop fuel' base de p
  end.

Definition ext2_validate_entry (base : list byte) (offset mask : Z) : res Z :=
  validate_loop (S (Z.to_nat (PAGE_SIZE k))) base offset (Z.land offset mask).

(** ** File types *)

Inductive dtype := DT_UNKNOWN | DT_REG | DT_DIR | DT_CHR | DT_BLK | DT_FIFO | DT_SOCK | DT_LNK.

Definition EXT2_FT_MAX : Z := 8.

Definition ext2_filetype_table (file_type : Z) : dtype :=
  nth (Z.to_nat file_type) [DT_UNKNOWN; DT_REG; DT_DIR; DT_CHR; DT_BLK; DT_FIFO; DT_SOCK; DT_LNK]
    DT_UNKNOWN.

(** The type bits of a mode, [S_IFMT] and its values on Linux. *)
Definition S_IFMT : Z := 61440.    (* 0170000 *)
Definition S_SHIFT : Z := 12.

(** [ext2_type_by_mode]: the entries of the table are 0 where no type is given. *)
Definition ext2_type_by_mode (i : Z) : Z :=
  match i with
  | 8 => 1     (* S_IFREG 0100000, EXT2_FT_REG_FILE *)
  | 4 => EXT2_FT_DIR     (* S_IFDIR 0040000 *)
  | 2 => 3     (* S_IFCHR 0020000, EXT2_FT_CHRDEV *)
  | 6 => 4     (* S_IFBLK 0060000, EXT2_FT_BLKDEV *)
  | 1 => 5     (* S_IFIFO 0010000, EXT2_FT_FIFO *)
  | 12 => 6    (* S_IFSOCK 0140000, EXT2_FT_SOCK *)
  | 10 => 7    (* S_IFLNK 0120000, EXT2_FT_SYMLINK *)
  | _ => 0
  end.

(** The type [ext2_set_de_type] stores for an inode with this mode. *)
Definition de_type_of (mode : Z) : Z :=
  if EXT2_HAS_INCOMPAT_FEATURE sb EXT2_FEATURE_INCOMPAT_FILETYPE
  then ext2_type_by_mode (Z.shiftr (Z.land mode S_IFMT) S_SHIFT)
  else 0.

Definition ext2_set_de_type (kaddr : list byte) (de mode : Z) : res (list byte) :=
  de_set kaddr de de_file_type (de_type_of mode).

(** ** Loops over the entries of a page *)

(** How a loop ends: at the end of the page, at an entry of length 0, or by a jump. *)
Inductive scan_result (A B : Type) :=
  | ScanEnd (a : A)
  | ScanZero (a : A)
  | ScanExit (b : B).
#[global] Arguments ScanEnd {A B} _.
#[global] Arguments ScanZero {A B} _.
#[global] Arguments ScanExit {A B} _.

(** [while (de <= limit) { if (de->rec_len == 0) ...; body; de = ext2_next_entry (de); }] *)
Fixpoint each_entry {A B} (fuel : nat) (kaddr : list byte) (limit : Z)
    (body : Z -> A -> res (A + B)) (de : Z) (a : A) : res (scan_result A B) :=
  match fuel with
  | O => NoFuel
  | S fuel' =>
      if negb (de <=? limit) then Ok (ScanEnd a)
      else
        let* dlen := de_get kaddr de de_rec_len in
        if dlen =? 0 then Ok (ScanZero a)
        else
          let* r := body de a in
          match r with
          | inl a => let* de := ext2_next_entry kaddr de in each_entry fuel' kaddr limit body de a
          | inr b => Ok (ScanExit b)
          end
  end.

(** A loop over a page visits fewer entries than the page has bytes. *)
Definition page_fuel : nat := S (Z.to_nat (PAGE_SIZE k)).

(** ** Reading a directory *)

(** What [dir_emit] hands over: the name, the inode and the type. *)
Definition emitted : Type := list byte * Z * dtype.

(** [struct dir_context], with what has been emitted; the actor may refuse an entry. *)
Record dir_context := Ctx { ctx_pos : Z; ctx_out : list emitted }.

Section Readdir.
Context (actor : dir_context -> emitted -> bool).

Definition dir_emit (ctx : dir_context) (e : emitted) : option dir_context :=
  if actor ctx e then Some (Ctx (ctx_pos ctx) (ctx_out ctx ++ [e])) else None.

(** The body of the inner loop; it jumps to the end when the actor refuses. *)
Definition readdir_entry (types : bool) (kaddr : list byte) (de : Z) (ctx : dir_context) :
  res (dir_context + dir_context) :=
  let* ino := de_get kaddr de de_inode in
  let* dlen := de_get kaddr de de_rec_len in
  let next c := Ctx (ctx_pos c + ext2_rec_len_from_disk dlen) (ctx_out c) in
  if negb (ino =? 0) then
    let* file_type := de_get kaddr de de_file_type in
    let d_type := if types && (file_type <? EXT2_FT_MAX) then ext2_filetype_table file_type
                  else DT_UNKNOWN in
    let* name_len := de_get kaddr de de_name_len in
    let* name := de_name kaddr de name_len in
    match dir_emit ctx (name, ino, d_type) with
    | None => Ok (inr ctx)
    | Some ctx => Ok (inl (next ctx))
    end
  else Ok (inl (next ctx)).

(** The loop over the pages: the result, the directory, the file's version, the context. *)
Fixpoint readdir_pages (fuel : nat) (n offset : Z) (need_revalidate : bool) (d : dir)
    (f_version : Z) (ctx : dir_context) : res (Z * dir * Z * dir_context) :=
  match fuel with
  | O => Ok (0, d, f_version, ctx)
  | S fuel' =>
      let types := EXT2_HAS_INCOMPAT_FEATURE sb EXT2_FEATURE_INCOMPAT_FILETYPE in
      let* '(pg, d) := ext2_get_page d n false in
      match pg with
      | inl err =>
          Ok (err, ext2_error BadPage d, f_version,
              Ctx (ctx_pos ctx + (PAGE_SIZE k - offset)) (ctx_out ctx))
      | inr kaddr =>
          let* '(offset, ctx, f_version) :=
            (if need_revalidate then
               if negb (offset =? 0) then
                 let* o := ext2_validate_entry kaddr offset (u32 (Z.lnot (ext2_chunk_size - 1))) in
                 Ok (o, Ctx (Z.shiftl n (PAGE_SHIFT k) + o) (ctx_out ctx), i_version d)
               else Ok (offset, ctx, i_version d)
             else Ok (offset, ctx, f_version)) in
          let limit := ext2_last_byte d n - EXT2_DIR_REC_LEN 1 in
          let* r := each_entry page_fuel kaddr limit (readdir_entry types kaddr) offset ctx in
          match r with
          | ScanEnd ctx => readdir_pages fuel' (n + 1) 0 false d f_version ctx
          | ScanZero ctx => Ok (- EIO, ext2_error ZeroLength d, f_version, ctx)
          | ScanExit ctx => Ok (0, d, f_version, ctx)
          end
      end
  end.

Definition ext2_readdir (d : dir) (f_version : Z) (ctx : dir_context) :
  res (Z * dir * Z * dir_context) :=
  let pos := ctx_pos ctx in
  let offset := Z.land pos (PAGE_SIZE k - 1) in
  let n := Z.shiftr pos (PAGE_SHIFT k) in
  let npages := dir_pages k (i_size d) in
  let need_revalidate := negb (f_version =? i_version d) in
  if i_size d - EXT2_DIR_REC_LEN 1 <? pos then Ok (0, d, f_version, ctx)
  else readdir_pages (Z.to_nat (npages - n)) n offset need_revalidate d f_version ctx.
End Readdir.

(** ** Finding an entry *)

(** The [do ... while] loop of [ext2_find_entry]: the page and the offset of the entry. *)
Fixpoint find_pages (fuel : nat) (name : list byte) (npages start n : Z) (dir_has_error : bool)
    (d : dir) : res (option (Z * Z) * dir) :=
  match fuel with
  | O => NoFuel
  | S fuel' =>
      let next err d :=
        let n := if npages <=? n + 1 then 0 else n + 1 in
        if Z.shiftr (i_blocks d) (PAGE_SHIFT k - 9) <? n then Ok (None, ext2_error ExceedsBlocks d)
        else if n =? start then Ok (None, d)
        else find_pages fuel' name npages start n err d in
      let* '(pg, d) := ext2_get_page d n dir_has_error in
      match pg with
      | inl _ => next true d
      | inr kaddr =>
          let limit := u32 (ext2_last_byte d n - EXT2_DIR_REC_LEN (len name)) in
          let body de (_ : unit) :=
            let* found := ext2_match name kaddr de in Ok (if found then inr de else inl tt) in
          let* r := each_entry page_fuel kaddr limit body 0 tt in
          match r with
          | ScanZero _ => Ok (None, ext2_error ZeroLength d)
          | ScanExit de => Ok (Some (n, de), with_lookup n d)
          | ScanEnd _ => next dir_has_error d
          end
      end
  end.

Definition ext2_find_entry (d : dir) (name : list byte) : res (option (Z * Z) * dir) :=
  let npages := dir_pages k (i_size d) in
  if npages =? 0 then Ok (None, d)
  else
    let start := if npages <=? i_dir_start_lookup d then 0 else i_dir_start_lookup d in
    find_pages (Z.to_nat npages) name npages start start false d.

(** The entry after the first one of the first page: [..]. *)
Definition ext2_dotdot (d : dir) : res (option Z * dir) :=
  let* '(pg, d) := ext2_get_page d 0 false in
  match pg with
  | inl _ => Ok (None, d)
  | inr kaddr => let* de := ext2_next_entry kaddr 0 in Ok (Some de, d)
  end.

(** The data of a page that has been looked up. *)
Definition page_address (d : dir) (n : Z) : res (list byte) :=
  match i_pages d !! n with Some p => Ok (p_data p) | None => Undef NullDeref end.

Definition ext2_inode_by_name (d : dir) (name : list byte) : res (Z * dir) :=
  let* '(r, d) := ext2_find_entry d name in
  match r with
  | Some (n, de) =>
      let* kaddr := page_address d n in
      let* ino := de_get kaddr de de_inode in Ok (ino, d)
  | None => Ok (0, d)
  end.

(** [__block_write_begin] allocates the blocks of the chunk that are not there yet. *)
Definition ext2_prepare_chunk (d : dir) (pos l : Z) : Z * dir :=
  let '(err, sectors) := block_write_begin k (i_size d) pos l in
  (err, if err =? 0 then with_blocks (i_blocks d + sectors) d else d).

(** ** Changing a directory *)

(** The inode an entry is to refer to: its number and its mode. *)
Record target := Target { t_ino : Z; t_mode : Z }.

Definition page_offset (n : Z) : Z := Z.shiftl n (PAGE_SHIFT k).

Definition ext2_set_link (d : dir) (n de : Z) (inode : target) (update_times : bool) : res dir :=
  let pos := page_offset n + de in
  let* kaddr := page_address d n in
  let* dlen := de_get kaddr de de_rec_len in
  let l := ext2_rec_len_from_disk dlen in
  let '(err, d) := ext2_prepare_chunk d pos l in
  if negb (err =? 0) then Undef KernelBug
  else
    let* kaddr := de_set kaddr de de_inode (t_ino inode) in
    let* kaddr := ext2_set_de_type kaddr de (t_mode inode) in
    let '(_, d) := ext2_commit_chunk (set_data n kaddr d) pos l in
    let d := if update_times then with_times (current_time k) d else d in
    Ok (clear_btree k d).

(** How the search for room in a page ends. *)
Inductive room :=
  | GotIt (de name_len rec_len : Z) (kaddr : list byte)
  | AddError (err : Z) (zero : bool)
  | NoRoom.

Fixpoint add_scan (fuel : nat) (name kaddr : list byte) (dir_end de : Z) : res room :=
  match fuel with
  | O => NoFuel
  | S fuel' =>
      let reclen := EXT2_DIR_REC_LEN (len name) in
      if negb (de <=? PAGE_SIZE k - reclen) then Ok NoRoom
      else if de =? dir_end then
        let* dlen := ext2_rec_len_to_disk ext2_chunk_size in
        let* kaddr := de_set kaddr de de_rec_len dlen in
        let* kaddr := de_set kaddr de de_inode 0 in
        Ok (GotIt de 0 (u16 ext2_chunk_size) kaddr)
      else
        let* dlen := de_get kaddr de de_rec_len in
        if dlen =? 0 then Ok (AddError (- EIO) true)
        else
          let* found := ext2_match name kaddr de in
          if found then Ok (AddError (- EEXIST) false)
          else
            let* nl := de_get kaddr de de_name_len in
            let name_len := u16 (EXT2_DIR_REC_LEN nl) in
            let rec_len := u16 (ext2_rec_len_from_disk dlen) in
            let* ino := de_get kaddr de de_inode in
            if (ino =? 0) && (reclen <=? rec_len) then Ok (GotIt de name_len rec_len kaddr)
            else if name_len + reclen <=? rec_len then Ok (GotIt de name_len rec_len kaddr)
            else add_scan fuel' name kaddr dir_end (de + rec_len)
  end.

(** From [got_it] on: the entry is split if it is in use, and the new one is written. *)
Definition add_entry (kaddr : list byte) (de name_len rec_len : Z) (name : list byte)
    (inode : target) : res (list byte) :=
  let* ino := de_get kaddr de de_inode in
  let* '(kaddr, de) :=
    (if negb (ino =? 0) then
       let de1 := de + name_len in
       let* dlen1 := ext2_rec_len_to_disk (rec_len - name_len) in
       let* kaddr := de_set kaddr de1 de_rec_len dlen1 in
       let* dlen := ext2_rec_len_to_disk name_len in
       let* kaddr := de_set kaddr de de_rec_len dlen in
       Ok (kaddr, de1)
     else Ok (kaddr, de)) in
  let* kaddr := de_set kaddr de de_name_len (len name) in
  let* kaddr := write_at kaddr (de + Z.of_nat DIRENT_HEADER) name in
  let* kaddr := de_set kaddr de de_inode (t_ino inode) in
  ext2_set_de_type kaddr de (t_mode inode).

Fixpoint add_pages (fuel : nat) (n npages : Z) (d : dir) (name : list byte) (inode : target) :
  res (Z * dir) :=
  match fuel with
  | O => NoFuel
  | S fuel' =>
      if negb (n <=? npages) then Undef KernelBug
      else
        let* '(pg, d) := ext2_get_page d n false in
        match pg with
        | inl err => Ok (err, d)
        | inr kaddr =>
            let* r := add_scan page_fuel name kaddr (ext2_last_byte d n) 0 in
            match r with
            | NoRoom => add_pages fuel' (n + 1) npages d name inode
            | AddError err zero => Ok (err, if zero then ext2_error ZeroLength d else d)
            | GotIt de name_len rec_len kaddr =>
                let d := set_data n kaddr d in
                let pos := page_offset n + de in
                let '(err, d) := ext2_prepare_chunk d pos rec_len in
                if negb (err =? 0) then Ok (err, d)
                else
                  let* kaddr := add_entry kaddr de name_len rec_len name inode in
                  let '(err, d) := ext2_commit_chunk (set_data n kaddr d) pos rec_len in
                  Ok (err, clear_btree k (with_times (current_time k) d))
            end
        end
  end.

Definition ext2_add_link (d : dir) (name : list byte) (inode : target) : res (Z * dir) :=
  let npages := dir_pages k (i_size d) in
  add_pages (Z.to_nat (npages + 2)) 0 npages d name inode.

(** The loop of [ext2_delete_entry] from [de] up to the entry [dir]: the entry before
    it, if there is one; [None] at an entry of length 0. *)
Fixpoint prev_loop (fuel : nat) (kaddr : list byte) (dir : Z) (pde : option Z) (de : Z) :
  res (option (option Z)) :=
  match fuel with
  | O => NoFuel
  | S fuel' =>
      if negb (de <? dir) then Ok (Some pde)
      else
        let* dlen := de_get kaddr de de_rec_len in
        if dlen =? 0 then Ok None
        else let* next := ext2_next_entry kaddr de in prev_loop fuel' kaddr dir (Some de) next
  end.

Definition ext2_delete_entry (d : dir) (n dir : Z) : res (Z * Ext2Dir.dir) :=
  let* kaddr := page_address d n in
  let from := Z.land dir (u32 (Z.lnot (ext2_chunk_size - 1))) in
  let* dlen := de_get kaddr dir de_rec_len in
  let to := dir + ext2_rec_len_from_disk dlen in
  let* r := prev_loop page_fuel kaddr dir None from in
  match r with
  | None => Ok (- EIO, ext2_error ZeroLength d)
  | Some pde =>
      let from := match pde with Some p => p | None => from end in
      let pos := page_offset n + from in
      let '(err, d) := ext2_prepare_chunk d pos (to - from) in
      if negb (err =? 0) then Undef KernelBug
      else
        let* kaddr :=
          (match pde with
           | Some p =>
               let* dlen := ext2_rec_len_to_disk (to - from) in
               de_set kaddr p de_rec_len dlen
           | None => Ok kaddr
           end) in
        let* kaddr := de_set kaddr dir de_inode 0 in
        let '(err, d) := ext2_commit_chunk (set_data n kaddr d) pos (to - from) in
        Ok (err, clear_btree k (with_times (current_time k) d))
  end.

(** The bytes of a page that has just been added to the cache, [None] without memory. *)
Definition grab_cache_page (d : dir) (fresh : option (list byte)) : option (page * dir) :=
  match i_pages d !! 0 with
  | Some p => Some (p, d)
  | None =>
      match fresh with
      | Some data => let p := Page data false false in Some (p, with_pages (<[0 := p]> (i_pages d)) d)
      | None => None
      end
  end.

(** The first chunk of a new directory. *)
Definition empty_chunk (kaddr : list byte) (ino mode parent_ino : Z) : res (list byte) :=
  let* kaddr := write_at kaddr 0 (replicate (Z.to_nat ext2_chunk_size) NUL) in
  let* kaddr := de_set kaddr 0 de_name_len 1 in
  let* dlen := ext2_rec_len_to_disk (EXT2_DIR_REC_LEN 1) in
  let* kaddr := de_set kaddr 0 de_rec_len dlen in
  let* kaddr := write_at kaddr (Z.of_nat DIRENT_HEADER) [dot; NUL; NUL; NUL] in
  let* kaddr := de_set kaddr 0 de_inode ino in
  let* kaddr := ext2_set_de_type kaddr 0 mode in
  let de := EXT2_DIR_REC_LEN 1 in
  let* kaddr := de_set kaddr de de_name_len 2 in
  let* dlen := ext2_rec_len_to_disk (ext2_chunk_size - EXT2_DIR_REC_LEN 1) in
  let* kaddr := de_set kaddr de de_rec_len dlen in
  let* kaddr := de_set kaddr de de_inode parent_ino in
  let* kaddr := write_at kaddr (de + Z.of_nat DIRENT_HEADER) [dot; dot; NUL; NUL] in
  ext2_set_de_type kaddr de mode.

Definition ext2_make_empty (fresh : option (list byte)) (d : dir) (parent_ino : Z) : res (Z * dir) :=
  match grab_cache_page d fresh with
  | None => Ok (- ENOMEM, d)
  | Some (p, d) =>
      let '(err, d) := ext2_prepare_chunk d 0 ext2_chunk_size in
      if negb (err =? 0) then Ok (err, d)
      else
        let* kaddr := empty_chunk (p_data p) (i_ino d) (i_mode d) parent_ino in
        Ok (ext2_commit_chunk (set_data 0 kaddr d) 0 ext2_chunk_size)
  end.

(** The body of the loop of [ext2_empty_dir], which jumps to [not_empty]. *)
Definition empty_entry (ino : Z) (kaddr : list byte) (de : Z) (_ : unit) : res (unit + unit) :=
  let* inode := de_get kaddr de de_inode in
  if inode =? 0 then Ok (inl tt)
  else
    let* c0 := de_name kaddr de 1 in
    if negb (bool_decide (c0 = [dot])) then Ok (inr tt)
    else
      let* name_len := de_get kaddr de de_name_len in
      if 2 <? name_len then Ok (inr tt)
      else if name_len <? 2 then Ok (if negb (inode =? u32 ino) then inr tt else inl tt)
      else
        let* c := de_name kaddr de 2 in
        Ok (if bool_decide (drop 1 c = [dot]) then inl tt else inr tt).

Fixpoint empty_pages (fuel : nat) (i : Z) (dir_has_error : bool) (d : dir) : res (bool * dir) :=
  match fuel with
  | O => Ok (true, d)
  | S fuel' =>
      let* '(pg, d) := ext2_get_page d i dir_has_error in
      match pg with
      | inl _ => empty_pages fuel' (i + 1) true d
      | inr kaddr =>
          let limit := u32 (ext2_last_byte d i - EXT2_DIR_REC_LEN 1) in
          let* r := each_entry page_fuel kaddr limit (empty_entry (i_ino d) kaddr) 0 tt in
          match r with
          | ScanEnd _ => empty_pages fuel' (i + 1) dir_has_error d
          | ScanZero _ => Ok (false, ext2_error ZeroLength d)
          | ScanExit _ => Ok (false, d)
          end
      end
  end.

Definition ext2_empty_dir (d : dir) : res (bool * dir) :=
  empty_pages (Z.to_nat (dir_pages k (i_size d))) 0 false d.
End DirC.
