(* ===== verification/Ext2DirPage.v ===== *)
(** * ext2: the records of a directory page

    The abstract view of a page of a directory, a sequence of records, and what
    [ext2_check_page] guarantees: it accepts exactly the pages that are such a
    sequence.  The accesses to the fields of an entry are accesses to its record. *)

From S2P Require Import Prelude CString ByteMem Ext2Layout Ext2Dir.

(** ** Arrays of bytes in parts *)

Lemma write_at_app a b b' c :
  length b' = length b -> write_at (a ++ b ++ c) (len a) b' = Ok (a ++ b' ++ c).
Proof.
  intros Hb. unfold write_at, len. rewrite !length_app, Hb.
  rewrite (proj2 (Z.leb_le 0 _)), (proj2 (Z.leb_le _ (Z.of_nat _))) by lia. simpl.
  rewrite Nat2Z.id, take_app_length. do 2 f_equal.
  rewrite drop_app_ge by lia. replace (length a + length b - length a)%nat with (length b) by lia.
  by rewrite drop_app_length.
Qed.

Lemma le_encode_decode bs : le_encode (length bs) (le_decode bs) = bs.
Proof.
  induction bs as [|b bs IH]; [done|]. cbn [length le_encode le_decode].
  pose proof (b2z_range b). f_equal.
  - unfold z2b. rewrite Z.mul_comm, Z.mod_add by lia.
    fold (z2b (b2z b)). apply z2b_b2z.
  - replace ((b2z b + 256 * le_decode bs) / 256) with (le_decode bs); [done|].
    rewrite Z.mul_comm, Z.div_add, (Z.div_small (b2z b)) by lia. lia.
Qed.

(** Any bytes of the size of a structure are an encoding of it. *)
Lemma encode_exists {F} `{EqDecision F} (L : list (F * nat)) bs :
  NoDup L.*1 -> length bs = size_of L ->
  exists v, bs = encode L v /\ forall f, 0 <= v f < 256 ^ Z.of_nat (width_of L f).
Proof.
  intros Hnd. revert bs. induction L as [|[f w] L IH]; simpl; intros bs Hl.
  - exists (fun _ => 0). split; [by destruct bs|]. done.
  - apply NoDup_cons in Hnd as [Hf Hnd]. unfold size_of in Hl. simpl in Hl.
    destruct (IH Hnd (drop w bs)) as (v & Hv & Hr); [rewrite length_drop; unfold size_of; lia|].
    exists (fun g => if decide (g = f) then le_decode (take w bs) else v g). split.
    + rewrite decide_True by done. rewrite <- (take_drop w bs) at 1. f_equal.
      * rewrite <- (le_encode_decode (take w bs)) at 1. rewrite length_take. f_equal. lia.
      * rewrite Hv. clear -Hf. induction L as [|[g u] L IH]; [done|]. simpl in *.
        rewrite decide_False by set_solver. f_equal. apply IH. set_solver.
    + intros g. case_decide; [|by apply Hr].
      pose proof (le_decode_range (take w bs)) as R. rewrite length_take in R.
      rewrite Nat.min_l in R by lia. done.
Qed.

Definition upd {F} `{EqDecision F} (v : F -> Z) (f : F) (x : Z) (g : F) : Z :=
  if decide (g = f) then x else v g.

(** ** Records *)

(** A directory entry with all the bytes up to the next one. *)
Record drec := Drec { dr_ino : Z; dr_name_len : Z; dr_type : Z; dr_body : list byte }.

Definition dr_len (r : drec) : Z := 8 + len (dr_body r).

Definition drec_field (r : drec) (f : de_field) : Z :=
  match f with
  | de_inode => dr_ino r
  | de_rec_len => dr_len r
  | de_name_len => dr_name_len r
  | de_file_type => dr_type r
  end.

Definition drec_bytes (r : drec) : list byte :=
  encode ext2_dir_entry_2 (drec_field r) ++ dr_body r.

Definition dr_name (r : drec) : list byte := take (Z.to_nat (dr_name_len r)) (dr_body r).

Definition page_bytes (rs : list drec) : list byte := mjoin (map drec_bytes rs).

(** The fields have the values their widths allow. *)
Definition in_range (r : drec) : Prop :=
  0 <= dr_ino r < 2 ^ 32 /\ dr_len r < 2 ^ 16 /\ 0 <= dr_name_len r < 2 ^ 8 /\ 0 <= dr_type r < 2 ^ 8.

Lemma len_drec_bytes r : len (drec_bytes r) = dr_len r.
Proof. unfold drec_bytes. rewrite len_app. unfold len at 1. by rewrite length_encode. Qed.

Lemma page_bytes_app rs1 rs2 : page_bytes (rs1 ++ rs2) = page_bytes rs1 ++ page_bytes rs2.
Proof. unfold page_bytes. by rewrite map_app, join_app. Qed.

Lemma page_bytes_cons r rs : page_bytes (r :: rs) = drec_bytes r ++ page_bytes rs.
Proof. done. Qed.

Lemma page_bytes_one r : page_bytes [r] = drec_bytes r.
Proof. unfold page_bytes. simpl. by rewrite app_nil_r. Qed.

Lemma len_page_bytes_cons r rs : len (page_bytes (r :: rs)) = dr_len r + len (page_bytes rs).
Proof. by rewrite page_bytes_cons, len_app, len_drec_bytes. Qed.

(** Reading a field of an encoded header. *)
Lemma de_get_encode pre v post f :
  (forall g, 0 <= v g < 256 ^ Z.of_nat (width_of ext2_dir_entry_2 g)) ->
  de_get (pre ++ encode ext2_dir_entry_2 v ++ post) (len pre) f = Ok (v f).
Proof.
  intros Hv. unfold de_get.
  assert (Z.of_nat (offset_of ext2_dir_entry_2 f) + Z.of_nat (width_of ext2_dir_entry_2 f) <= 8)
    by (destruct f; vm_compute; discriminate).
  assert (Hh : len (encode ext2_dir_entry_2 v) = 8) by (unfold len; by rewrite length_encode).
  rewrite !len_app, Hh, (proj2 (Z.leb_le _ _)), (proj2 (Z.leb_le _ _))
    by (pose proof (len_nonneg pre); pose proof (len_nonneg post); lia). cbn [andb].
  unfold len. rewrite Nat2Z.id, drop_app_length, field_encode; auto.
  destruct f; vm_compute; set_solver.
Qed.

Lemma drec_field_range r : in_range r ->
  forall f, 0 <= drec_field r f < 256 ^ Z.of_nat (width_of ext2_dir_entry_2 f).
Proof.
  intros (?&?&?&?) f. pose proof (len_nonneg (dr_body r)). unfold dr_len in *.
  destruct f; simpl; change (256 ^ Z.of_nat 4) with (2 ^ 32); change (256 ^ Z.of_nat 2) with (2 ^ 16);
    change (256 ^ Z.of_nat 1) with (2 ^ 8); unfold dr_len; lia.
Qed.

Lemma de_get_rec pre r post f :
  in_range r -> de_get (pre ++ drec_bytes r ++ post) (len pre) f = Ok (drec_field r f).
Proof.
  intros Hr. unfold drec_bytes. rewrite <- (app_assoc _ (dr_body r)).
  apply de_get_encode. by apply drec_field_range.
Qed.

Lemma de_name_rec pre r post n :
  0 <= n <= len (dr_body r) ->
  de_name (pre ++ drec_bytes r ++ post) (len pre) n = Ok (take (Z.to_nat n) (dr_body r)).
Proof.
  intros Hn. unfold de_name. rewrite !len_app, len_drec_bytes. unfold dr_len.
  change (Z.of_nat DIRENT_HEADER) with 8.
  rewrite (proj2 (Z.leb_le _ _)), (proj2 (Z.leb_le _ _))
    by (pose proof (len_nonneg pre); pose proof (len_nonneg post); lia). cbn [andb]. f_equal.
  unfold drec_bytes. rewrite <- (app_assoc _ (dr_body r)), app_assoc.
  rewrite drop_app_ge; rewrite length_app, length_encode;
    change (size_of ext2_dir_entry_2) with 8%nat; [|unfold len; lia].
  replace (Z.to_nat (len pre + 8) - (length pre + 8))%nat with 0%nat by (unfold len; lia).
  rewrite drop_0, take_app_le; [done|]. unfold len in Hn. lia.
Qed.

(** Storing into a field of an encoded header. *)
Lemma de_set_encode pre v post f x :
  de_set (pre ++ encode ext2_dir_entry_2 v ++ post) (len pre) f x =
  Ok (pre ++ encode ext2_dir_entry_2 (upd v f x) ++ post).
Proof.
  unfold de_set, encode, ext2_dir_entry_2, upd.
  assert (W : forall a b b' c c' : list byte, c' = c -> length b' = length b ->
    write_at (a ++ b ++ c) (len a) b' = Ok (a ++ b' ++ c')) by (intros; subst; by apply write_at_app).
  destruct f; cbn [offset_of width_of]; repeat (case_decide; try congruence).
  - rewrite Z.add_0_r, <- !app_assoc. by apply W; rewrite ?length_le_encode.
  - rewrite <- !app_assoc, !(app_assoc pre).
    replace (len pre + _) with (len (pre ++ le_encode 4 (v de_inode)))
      by (rewrite len_app; unfold len; rewrite length_le_encode; lia).
    by apply W; rewrite ?length_le_encode.
  - rewrite <- !app_assoc, !(app_assoc pre), !(app_assoc (pre ++ _)).
    replace (len pre + _) with (len ((pre ++ le_encode 4 (v de_inode)) ++ le_encode 2 (v de_rec_len)))
      by (rewrite !len_app; unfold len; rewrite !length_le_encode; lia).
    by apply W; rewrite ?length_le_encode.
  - rewrite <- !app_assoc, !(app_assoc pre), !(app_assoc (pre ++ _)), !(app_assoc ((pre ++ _) ++ _)).
    replace (len pre + _)
      with (len (((pre ++ le_encode 4 (v de_inode)) ++ le_encode 2 (v de_rec_len)) ++ le_encode 1 (v de_name_len)))
      by (rewrite !len_app; unfold len; rewrite !length_le_encode; lia).
    by apply W; rewrite ?length_le_encode.
Qed.

(** ** Valid pages *)

(** The sizes for which the format is defined: a chunk is a block of 1 to 32 KiB that
    divides the page. *)
Class Geometry (k : kernel) (sb : super) : Prop := {
  geo_chunk : exists c, s_blocksize sb = 2 ^ c /\ 10 <= c <= 15 /\ c <= PAGE_SHIFT k <= 16;
  geo_inodes : 0 <= sb_inodes_count sb < 2 ^ 32;
  geo_dir_pages : forall n, 0 <= n -> dir_pages k n = (n + PAGE_SIZE k - 1) / PAGE_SIZE k;
  (** a chunk after the end gets its sectors *)
  geo_sectors : forall size pos l, 0 <= snd (block_write_begin k size pos l) /\
    (size <= pos -> l <= 512 * snd (block_write_begin k size pos l)) }.

Lemma rec_len_bound n : 0 <= n -> n + 8 <= EXT2_DIR_REC_LEN n <= n + 11.
Proof.
  intros. rewrite EXT2_DIR_REC_LEN_div by done.
  pose proof (Z.div_mod (n + 11) 4 ltac:(lia)). pose proof (Z.mod_pos_bound (n + 11) 4 ltac:(lia)). lia.
Qed.

Lemma rec_len_mod4 n : 0 <= n -> EXT2_DIR_REC_LEN n mod 4 = 0.
Proof. intros. rewrite EXT2_DIR_REC_LEN_div by done. apply Z.mod_mul; lia. Qed.

Lemma rec_len_min n : 1 <= n -> 12 <= EXT2_DIR_REC_LEN n.
Proof.
  intros. rewrite EXT2_DIR_REC_LEN_div by lia.
  pose proof (Z.div_le_mono 12 (n + 11) 4 ltac:(lia) ltac:(lia)). change (12 / 4) with 3 in *. lia.
Qed.

(** The bits of [~(chunk_size - 1)] in an unsigned word. *)
Lemma chunk_mask_bits c i : 0 <= c <= 31 -> 0 <= i ->
  Z.testbit (u32 (Z.lnot (2 ^ c - 1))) i = (c <=? i) && (i <? 32).
Proof.
  intros Hc Hi. unfold u32. replace (2 ^ c - 1) with (Z.ones c) by (rewrite Z.ones_equiv; lia).
  destruct (Z.ltb_spec i 32).
  - rewrite Z.mod_pow2_bits_low, Z.lnot_spec by lia. rewrite Z.testbit_ones_nonneg by lia.
    destruct (Z.ltb_spec i c), (Z.leb_spec c i); try lia; done.
  - rewrite Z.mod_pow2_bits_high by lia. by rewrite andb_false_r.
Qed.

Lemma land_chunk_mask c x : 0 <= c <= 31 -> 0 <= x < 2 ^ 32 ->
  Z.land x (u32 (Z.lnot (2 ^ c - 1))) = x / 2 ^ c * 2 ^ c.
Proof.
  intros Hc Hx. rewrite <- Z.shiftr_div_pow2, <- Z.shiftl_mul_pow2 by lia.
  apply Z.bits_inj'. intros i Hi. rewrite Z.land_spec, chunk_mask_bits by lia.
  rewrite Z.shiftl_spec by lia. destruct (Z.leb_spec c i); simpl.
  - rewrite Z.shiftr_spec by lia. replace (i - c + c) with i by lia.
    destruct (Z.ltb_spec i 32); [by rewrite andb_true_r|].
    rewrite andb_false_r. symmetry. destruct (decide (x = 0)) as [->|]; [apply Z.testbit_0_l|].
    apply Z.bits_above_log2; [lia|]. apply Z.log2_lt_pow2; [lia|].
    eapply Z.lt_le_trans; [apply Hx|]. apply Z.pow_le_mono_r; lia.
  - rewrite andb_false_r. symmetry. apply Z.testbit_neg_r. lia.
Qed.

(** Two offsets with the same bits above the chunk are in the same chunk. *)
Lemma same_chunk c x y : 0 <= c <= 31 -> 0 <= x < 2 ^ 32 -> 0 <= y < 2 ^ 32 ->
  Z.land (Z.lxor x y) (u32 (Z.lnot (2 ^ c - 1))) = 0 <-> x / 2 ^ c = y / 2 ^ c.
Proof.
  intros Hc Hx Hy. assert (Hxy : 0 <= Z.lxor x y < 2 ^ 32).
  { split; [apply Z.lxor_nonneg; lia|]. destruct (decide (Z.lxor x y = 0)) as [->|]; [lia|].
    apply Z.log2_lt_pow2; [pose proof (proj2 (Z.lxor_nonneg x y)); lia|].
    eapply Z.le_lt_trans; [apply Z.log2_lxor; lia|].
    destruct (decide (x = 0)) as [->|], (decide (y = 0)) as [->|]; simpl; rewrite ?Z.max_lub_lt_iff;
      repeat split; try apply Z.log2_lt_pow2; simpl; lia. }
  rewrite land_chunk_mask by done. rewrite <- !Z.shiftr_div_pow2 by lia.
  rewrite Z.shiftr_lxor. rewrite Z.eq_mul_0, Z.lxor_eq_0_iff. split; [|auto].
  intros [?|?]; [done|]. pose proof (Z.pow_pos_nonneg 2 c). lia.
Qed.

Section Page.
Context (k : kernel) (sb : super) `{G : !Geometry k sb}.

Definition rec_ok (r : drec) : Prop :=
  0 <= dr_ino r <= sb_inodes_count sb /\ 0 <= dr_name_len r < 2 ^ 8 /\ 0 <= dr_type r < 2 ^ 8 /\
  dr_len r mod 4 = 0 /\ 12 <= dr_len r /\ EXT2_DIR_REC_LEN (dr_name_len r) <= dr_len r.

(** The record at [offs] does not cross a chunk boundary. *)
Definition in_chunk (offs : Z) (r : drec) : Prop :=
  (offs + dr_len r - 1) / s_blocksize sb = offs / s_blocksize sb.

Fixpoint recs_ok (offs : Z) (rs : list drec) : Prop :=
  match rs with
  | [] => True
  | r :: rs' => rec_ok r /\ in_chunk offs r /\ recs_ok (offs + dr_len r) rs'
  end.

(** The bytes of the page up to [limit] are the records. *)
Definition page_holds (kaddr : list byte) (limit : Z) (rs : list drec) : Prop :=
  len kaddr = PAGE_SIZE k /\ recs_ok 0 rs /\ len (page_bytes rs) = limit /\
  exists post, kaddr = page_bytes rs ++ post.

Lemma geo_sizes : exists c q, s_blocksize sb = 2 ^ c /\ 0 <= c <= 31 /\
  1024 <= s_blocksize sb <= 32768 /\ PAGE_SIZE k = q * s_blocksize sb /\ 0 < q /\
  PAGE_SIZE k <= 65536 /\ 0 <= PAGE_SHIFT k /\ PAGE_SIZE k = 2 ^ PAGE_SHIFT k.
Proof using G.
  destruct geo_chunk as (c & Hc & H1 & H2). exists c, (2 ^ (PAGE_SHIFT k - c)).
  assert (HP : PAGE_SIZE k = 2 ^ PAGE_SHIFT k)
    by (unfold PAGE_SIZE; rewrite Z.shiftl_mul_pow2 by lia; lia).
  rewrite HP, Hc. pose proof (Z.pow_le_mono_r 2 10 c). pose proof (Z.pow_le_mono_r 2 c 15).
  pose proof (Z.pow_le_mono_r 2 (PAGE_SHIFT k) 16). pose proof (Z.pow_pos_nonneg 2 (PAGE_SHIFT k - c)).
  rewrite <- Z.pow_add_r by lia. replace (PAGE_SHIFT k - c + c) with (PAGE_SHIFT k) by lia.
  repeat split; lia.
Qed.

Lemma chunk_bound x l limit :
  0 <= x < limit -> limit mod s_blocksize sb = 0 ->
  (x + l - 1) / s_blocksize sb = x / s_blocksize sb -> x + l <= limit /\ l <= s_blocksize sb.
Proof using G.
  destruct geo_sizes as (c & q & Hc & _ & HB & _). set (B := s_blocksize sb) in *. intros Hx Hl E.
  pose proof (Z.div_mod (x + l - 1) B ltac:(lia)) as D1. pose proof (Z.div_mod x B ltac:(lia)) as D2.
  pose proof (Z.div_mod limit B ltac:(lia)) as D3. rewrite Hl in D3. rewrite E in D1.
  pose proof (Z.mod_pos_bound (x + l - 1) B ltac:(lia)). pose proof (Z.mod_pos_bound x B ltac:(lia)).
  assert (x / B < limit / B) by nia. nia.
Qed.

Lemma rec_in_range offs r limit :
  0 <= offs < limit -> limit mod s_blocksize sb = 0 -> rec_ok r -> in_chunk offs r -> in_range r.
Proof using G.
  intros Ho Hl (?&?&?&?&?&?) Hc. destruct geo_sizes as (c & q & _ & _ & HB & _).
  destruct (chunk_bound offs (dr_len r) limit Ho Hl Hc). pose proof (geo_inodes (k := k) (sb := sb)).
  unfold in_range. lia.
Qed.

Lemma name_fits r : rec_ok r -> 0 <= dr_name_len r <= len (dr_body r).
Proof using.
  intros (?&?&?&?&?&?). pose proof (rec_len_bound (dr_name_len r)). unfold dr_len in *. lia.
Qed.

Lemma from_disk_id l : l < 65535 -> ext2_rec_len_from_disk k l = l.
Proof using.
  intros Hl. unfold ext2_rec_len_from_disk, EXT2_MAX_REC_LEN.
  rewrite (proj2 (Z.eqb_neq l _)) by lia. by rewrite andb_false_r.
Qed.

Lemma recs_ok_app rs1 rs2 : forall offs,
  recs_ok offs (rs1 ++ rs2) <-> recs_ok offs rs1 /\ recs_ok (offs + len (page_bytes rs1)) rs2.
Proof using.
  induction rs1 as [|r rs1 IH]; intros offs; simpl recs_ok; cbn [app].
  - change (len (page_bytes [])) with 0. rewrite Z.add_0_r. tauto.
  - rewrite IH, len_page_bytes_cons, Z.add_assoc. tauto.
Qed.

(** A page has fewer records than bytes. *)
Lemma recs_count rs : forall offs, recs_ok offs rs -> Z.of_nat (length rs) <= len (page_bytes rs).
Proof using.
  induction rs as [|r rs IH]; intros offs; [done|]. intros ((_&_&_&_&Hr&_) & _ & Hok).
  specialize (IH _ Hok). rewrite len_page_bytes_cons. simpl length. lia.
Qed.

(** ** The check accepts the valid pages *)

Lemma check_loop_complete rs : forall pre post fuel limit,
  recs_ok (len pre) rs -> len pre + len (page_bytes rs) = limit -> limit mod s_blocksize sb = 0 ->
  12 <= limit <= PAGE_SIZE k -> (length rs < fuel)%nat ->
  check_loop k sb fuel (pre ++ page_bytes rs ++ post) limit (len pre) = Ok (inr limit).
Proof using G.
  destruct geo_sizes as (c & q & Hc & Hc31 & HB & _ & _ & HP & _).
  change (EXT2_DIR_REC_LEN 1) with 12.
  induction rs as [|r rs IH]; intros pre post fuel limit Hok Hlen Hmod Hlim Hf;
    (destruct fuel as [|fuel]; [simpl in Hf; lia|]); cbn [check_loop];
    change (EXT2_DIR_REC_LEN 1) with 12; rewrite (u32_id (limit - 12)) by lia.
  - change (len (page_bytes [])) with 0 in Hlen. rewrite (proj2 (Z.leb_gt _ _)) by lia.
    simpl. do 2 f_equal. lia.
  - destruct Hok as (Hr & Hs & Hok). rewrite len_page_bytes_cons in Hlen.
    pose proof (len_nonneg pre). pose proof (len_nonneg (page_bytes rs)).
    assert (R : in_range r) by (apply (rec_in_range (len pre) r limit); auto; destruct Hr; lia).
    destruct Hr as (H1 & H2 & H3 & H4 & H5 & H6).
    destruct (chunk_bound (len pre) (dr_len r) limit) as [L1 L2]; [lia|done|done|].
    rewrite (proj2 (Z.leb_le _ _)) by lia. cbn [negb].
    rewrite page_bytes_cons, <- (app_assoc (drec_bytes r)). rewrite !de_get_rec by done.
    cbn [rbind drec_field]. rewrite from_disk_id by lia.
    rewrite (proj2 (Z.ltb_ge _ _)) by lia.
    change 3 with (Z.ones 2). rewrite Z.land_ones by lia. change (2 ^ 2) with 4. rewrite H4, Z.eqb_refl. cbn [negb].
    rewrite (proj2 (Z.ltb_ge _ _)) by lia. unfold ext2_chunk_size.
    rewrite (u32_id (len pre + dr_len r - 1)) by lia. unfold in_chunk in Hs. rewrite Hc in Hs |- *.
    rewrite (proj2 (same_chunk c (len pre + dr_len r - 1) (len pre) Hc31 ltac:(lia) ltac:(lia)) Hs).
    rewrite Z.eqb_refl. cbn [negb].
    rewrite (proj2 (Z.ltb_ge _ _)) by lia. rewrite u32_id by lia.
    rewrite app_assoc. replace (len pre + dr_len r) with (len (pre ++ drec_bytes r))
      by (rewrite len_app, len_drec_bytes; lia).
    apply IH; auto; rewrite ?len_app, ?len_drec_bytes; [done|lia|simpl in Hf; lia].
Qed.

Lemma check_loop_page kaddr limit rs : page_holds kaddr limit rs -> limit mod s_blocksize sb = 0 ->
  12 <= limit <= PAGE_SIZE k ->
  check_loop k sb (S (Z.to_nat (PAGE_SIZE k))) kaddr limit 0 = Ok (inr limit).
Proof using G.
  intros (_ & Hok & Hlen & post & ->) Hm Hl. apply (check_loop_complete rs [] post); auto.
  pose proof (recs_count rs 0 Hok). lia.
Qed.

(** ** The check accepts no other page *)

(** Eight bytes of a page are the header of an entry. *)
Lemma header_at kaddr offs : 0 <= offs -> offs + 8 <= len kaddr ->
  exists pre v rest, kaddr = pre ++ encode ext2_dir_entry_2 v ++ rest /\ len pre = offs /\
    len rest = len kaddr - offs - 8 /\
    (forall f, 0 <= v f < 256 ^ Z.of_nat (width_of ext2_dir_entry_2 f)).
Proof using.
  intros Ho Hl. unfold len in *.
  destruct (encode_exists ext2_dir_entry_2 (take 8 (drop (Z.to_nat offs) kaddr))) as (v & Hv & Hr).
  - by apply (bool_decide_unpack _); vm_compute.
  - rewrite length_take, length_drop. change (size_of ext2_dir_entry_2) with 8%nat. lia.
  - exists (take (Z.to_nat offs) kaddr), v, (drop 8 (drop (Z.to_nat offs) kaddr)).
    rewrite <- Hv, take_drop, take_drop, length_take, !length_drop. repeat split; try lia; apply Hr.
Qed.

(** A header whose length stays in the page is a record. *)
Lemma header_rec v rest :
  (forall f, 0 <= v f < 256 ^ Z.of_nat (width_of ext2_dir_entry_2 f)) ->
  8 <= v de_rec_len <= 8 + len rest ->
  exists r post, encode ext2_dir_entry_2 v ++ rest = drec_bytes r ++ post /\
    forall f, drec_field r f = v f.
Proof using.
  intros Hv Hl. set (n := Z.to_nat (v de_rec_len - 8)).
  exists (Drec (v de_inode) (v de_name_len) (v de_file_type) (take n rest)), (drop n rest).
  assert (Hf : forall f, drec_field (Drec (v de_inode) (v de_name_len) (v de_file_type) (take n rest)) f = v f).
  { intros []; try done. unfold drec_field, dr_len, len in *. simpl. rewrite length_take. lia. }
  split; [|done]. unfold drec_bytes. rewrite <- app_assoc. f_equal.
  - symmetry. clear -Hf. induction ext2_dir_entry_2 as [|[g w] L IH]; [done|]. simpl. by rewrite Hf, IH.
  - simpl. by rewrite take_drop.
Qed.

Lemma check_loop_sound kaddr limit : len kaddr = PAGE_SIZE k -> limit mod s_blocksize sb = 0 ->
  12 <= limit <= PAGE_SIZE k -> forall fuel offs, 0 <= offs <= limit -> limit - offs < Z.of_nat fuel ->
  exists r, check_loop k sb fuel kaddr limit offs = Ok r /\
    (r = inr limit -> exists pre rs post, kaddr = pre ++ page_bytes rs ++ post /\ len pre = offs /\
       offs + len (page_bytes rs) = limit /\ recs_ok offs rs).
Proof using G.
  intros Hk Hmod Hlim. destruct geo_sizes as (c & q & Hc & Hc31 & HB & _ & _ & HP & _).
  induction fuel as [|fuel IH]; intros offs Ho Hf; [lia|]. cbn [check_loop].
  change (EXT2_DIR_REC_LEN 1) with 12. rewrite (u32_id (limit - 12)) by lia.
  destruct (Z.leb_spec offs (limit - 12)) as [Hle|Hgt]; cbn [negb]; cycle 1.
  { eexists. split; [done|]. intros [= ->]. exists (take (Z.to_nat limit) kaddr), [], (drop (Z.to_nat limit) kaddr).
    simpl. rewrite take_drop. unfold len in *. rewrite length_take. repeat split; simpl; try lia. }
  destruct (header_at kaddr offs) as (pre & v & rest & E & Hpre & Hrest & Hv); [lia|lia|].
  assert (D : forall f, de_get kaddr offs f = Ok (v f)) by (intros f; rewrite E, <- Hpre; by apply de_get_encode).
  rewrite !D. cbn [rbind].
  set (l := ext2_rec_len_from_disk k (v de_rec_len)).
  assert (Hl : l = v de_rec_len \/ l = 65536).
  { unfold l, ext2_rec_len_from_disk. destruct (_ && _); auto. }
  assert (Hl0 : 0 <= v de_rec_len < 65536) by apply (Hv de_rec_len).
  destruct (Z.ltb_spec l 12); [eexists; split; [reflexivity|discriminate]|].
  change 3 with (Z.ones 2). rewrite Z.land_ones by lia. change (2 ^ 2) with 4.
  destruct (Z.eqb_spec (l mod 4) 0); cbn [negb]; [|eexists; split; [reflexivity|discriminate]].
  destruct (Z.ltb_spec l (EXT2_DIR_REC_LEN (v de_name_len))); [eexists; split; [reflexivity|discriminate]|].
  unfold ext2_chunk_size. rewrite (u32_id (offs + l - 1)) by lia.
  destruct (Z.eqb_spec (Z.land (Z.lxor (offs + l - 1) offs) (u32 (Z.lnot (s_blocksize sb - 1)))) 0)
    as [Hs|]; cbn [negb]; [|eexists; split; [reflexivity|discriminate]].
  rewrite Hc in Hs. apply same_chunk in Hs; [|lia..]. rewrite <- Hc in Hs.
  destruct (chunk_bound offs l limit) as [L1 L2]; [lia|done|done|].
  destruct (Z.ltb_spec (sb_inodes_count sb) (v de_inode)); [eexists; split; [reflexivity|discriminate]|].
  assert (l = v de_rec_len) as El by lia. rewrite u32_id by lia.
  destruct (IH (offs + l)) as (r & Hr & HIH); [lia|lia|]. exists r. split; [done|]. intros Er.
  destruct (HIH Er) as (pre2 & rs & post2 & E2 & Hp2 & Hl2 & Hok).
  destruct (header_rec v rest Hv) as (rc & post1 & E1 & Hrf); [lia|].
  assert (Hlen : dr_len rc = l) by (rewrite El; apply (Hrf de_rec_len)).
  exists pre, (rc :: rs), post2. rewrite len_page_bytes_cons.
  assert (pre2 = pre ++ drec_bytes rc /\ page_bytes rs ++ post2 = post1) as [-> <-].
  { apply app_inj_1; [|by rewrite <- E2, E, E1, app_assoc].
    pose proof (len_app pre (drec_bytes rc)) as La. rewrite len_drec_bytes in La. unfold len in *. lia. }
  rewrite page_bytes_cons, <- app_assoc. rewrite E2, <- app_assoc.
  split; [done|]. split; [done|]. split; [lia|]. split; [|split].
  - unfold rec_ok. pose proof (Hrf de_inode) as F1. pose proof (Hrf de_name_len) as F2.
    pose proof (Hrf de_file_type) as F3. simpl in F1, F2, F3. rewrite F1, F2, F3, Hlen.
    pose proof (Hv de_name_len). pose proof (Hv de_file_type). pose proof (Hv de_inode). repeat split; try apply Hv; lia.
  - unfold in_chunk. by rewrite Hlen.
  - by rewrite Hlen.
Qed.

(** ** The check of a page *)

(** A directory whose size the check accepts and an unsigned holds. *)
Definition size_ok (d : dir) : Prop := 0 <= i_size d < 2 ^ 32 /\ i_size d mod s_blocksize sb = 0.

Lemma last_byte_min d n : size_ok d -> 0 <= n -> n * PAGE_SIZE k <= i_size d ->
  ext2_last_byte k d n = Z.min (PAGE_SIZE k) (i_size d - n * PAGE_SIZE k).
Proof using G.
  intros [Hs _] Hn Hle. destruct geo_sizes as (c & q & _ & _ & HB & Hq & Hq0 & _ & HS & HP).
  unfold ext2_last_byte. rewrite Z.shiftl_mul_pow2, <- HP, (u32_id (i_size d)) by lia.
  rewrite u32_id by nia. destruct (Z.ltb_spec (PAGE_SIZE k) (i_size d - n * PAGE_SIZE k)); lia.
Qed.

Lemma page_size_mod : PAGE_SIZE k mod s_blocksize sb = 0.
Proof using G.
  destruct geo_sizes as (c & q & _ & _ & HB & Hq & _). rewrite Hq. apply Z.mod_mul. lia.
Qed.

Lemma last_byte_mod d n : size_ok d -> 0 <= n -> n * PAGE_SIZE k <= i_size d ->
  ext2_last_byte k d n mod s_blocksize sb = 0.
Proof using G.
  intros Hs Hn Hle. rewrite last_byte_min by done. destruct geo_sizes as (c & q & _ & _ & HB & _).
  pose proof page_size_mod as Hp. destruct Hs as [_ Hs]. apply Z.mod_divide in Hp, Hs; [|lia..].
  apply Z.mod_divide; [lia|]. destruct (Z.min_spec (PAGE_SIZE k) (i_size d - n * PAGE_SIZE k)) as [[_ ->]|[_ ->]];
    [done|]. apply Z.divide_sub_r; [done|]. by apply Z.divide_mul_r.
Qed.

(** The limit that the check computes for a page of the directory. *)
Lemma check_limit d n : size_ok d -> 0 <= n -> n * PAGE_SIZE k < i_size d ->
  (if Z.shiftr (i_size d) (PAGE_SHIFT k) =? n then Z.land (i_size d) (PAGE_SIZE k - 1) else PAGE_SIZE k)
  = ext2_last_byte k d n /\ 12 <= ext2_last_byte k d n <= PAGE_SIZE k.
Proof using G.
  intros Hs Hn Hlt. destruct geo_sizes as (c & q & _ & _ & HB & Hq & Hq0 & _ & HS & HP).
  pose proof (last_byte_mod d n Hs Hn ltac:(lia)) as Hm. rewrite last_byte_min in * by (done || lia).
  split.
  - rewrite Z.shiftr_div_pow2, <- HP by lia. replace (PAGE_SIZE k - 1) with (Z.ones (PAGE_SHIFT k))
      by (rewrite Z.ones_equiv; lia). rewrite Z.land_ones, <- HP by lia.
    pose proof (Z.div_mod (i_size d) (PAGE_SIZE k) ltac:(nia)) as D.
    pose proof (Z.mod_pos_bound (i_size d) (PAGE_SIZE k) ltac:(nia)).
    destruct (Z.eqb_spec (i_size d / PAGE_SIZE k) n) as [<-|]; [lia|].
    assert (n < i_size d / PAGE_SIZE k) by nia. nia.
  - split; [|lia]. set (x := Z.min _ _) in *. assert (0 < x) by (unfold x; nia).
    clearbody x. apply Z.mod_divide in Hm as [z Hz]; [|lia]. clear -H HB Hz.
    assert (0 < z) by nia. nia.
Qed.

Lemma check_data_spec d n kaddr : size_ok d -> 0 <= n -> n * PAGE_SIZE k < i_size d ->
  len kaddr = PAGE_SIZE k ->
  exists e, check_data k sb d n kaddr = Ok e /\
    (e = None <-> exists rs, page_holds kaddr (ext2_last_byte k d n) rs).
Proof using G.
  intros Hs Hn Hlt Hk. destruct (check_limit d n Hs Hn Hlt) as [El Hl].
  pose proof (last_byte_mod d n Hs Hn ltac:(lia)) as Hm. unfold check_data. rewrite El.
  destruct geo_sizes as (c & q & Hc & Hc31 & HB & _). unfold ext2_chunk_size.
  replace (s_blocksize sb - 1) with (Z.ones c) by (rewrite Z.ones_equiv; lia).
  rewrite Z.land_ones, <- Hc, Hm, Z.eqb_refl by lia. cbn [negb]. rewrite andb_false_r.
  rewrite (proj2 (Z.eqb_neq (ext2_last_byte k d n) 0)), andb_false_r by lia.
  destruct (check_loop_sound kaddr _ Hk Hm Hl (S (Z.to_nat (PAGE_SIZE k))) 0) as (r & Hr & HS); [lia|lia|].
  assert (HC : forall rs, page_holds kaddr (ext2_last_byte k d n) rs -> r = inr (ext2_last_byte k d n)).
  { intros rs H. assert (Ok r = Ok (inr (ext2_last_byte k d n))) as [=]; [|done].
    rewrite <- Hr. by apply (check_loop_page kaddr _ rs). }
  rewrite Hr. cbn [rbind]. destruct r as [e|o].
  - exists (Some e). split; [done|]. split; [done|]. intros (rs & H). by specialize (HC rs H).
  - eexists. split; [done|]. destruct (Z.eqb_spec o (ext2_last_byte k d n)) as [->|Hne].
    + split; [|done]. intros _. destruct (HS eq_refl) as (pre & rs & post & E & Hp & Hlen & Hok).
      destruct pre; [|unfold len in Hp; simpl in Hp; lia]. exists rs. repeat split; auto. by exists post.
    + split; [done|]. intros (rs & H). specialize (HC rs H). congruence.
Qed.
End Page.
