(* ===== verification/Ext2DirRead.v ===== *)
(** * ext2: reading directories

    The abstract directory, a sequence of records over the pages, and the functions
    that only read it: [ext2_readdir], [ext2_find_entry], [ext2_inode_by_name] and
    [ext2_empty_dir] compute on the bytes what one expects on the records. *)

From S2P Require Import Prelude CString ByteMem Ext2Layout Ext2Dir Ext2DirPage.

Lemma exists_last_or_nil {A} (l : list A) : l = [] \/ exists l' x, l = l' ++ [x].
Proof. destruct l using rev_ind; eauto. Qed.

Section Read.
Context (k : kernel) (sb : super) `{G : !Geometry k sb}.

(** ** The abstract directory *)

(** The data that [ext2_get_page] finds in page [n], unless the check fails. *)
Definition readable (d : dir) (n : Z) (kaddr : list byte) : Prop :=
  match i_pages d !! n with
  | Some p => p_data p = kaddr /\ (p_checked p = true \/ p_error p = false)
  | None => readpage k n = inr kaddr
  end.

(** The directory holds the records, page by page. *)
Record holds_dir (d : dir) (pss : list (list drec)) : Prop := {
  hd_size : size_ok sb d;
  hd_pages : Z.of_nat (length pss) = dir_pages k (i_size d);
  hd_page n rs : pss !! n = Some rs ->
    exists kaddr, readable d (Z.of_nat n) kaddr /\
      page_holds k sb kaddr (ext2_last_byte k d (Z.of_nat n)) rs }.

(** Two states of which the second has only more pages in the cache. *)
Definition view_le (d d' : dir) : Prop :=
  (exists ps, d' = with_pages ps d) /\ (forall n x, readable d n x -> readable d' n x) /\
  (forall n p, i_pages d !! n = Some p -> p_checked p = true -> i_pages d' !! n = Some p).

Lemma with_pages_id d : with_pages (i_pages d) d = d.
Proof using. by destruct d. Qed.

Lemma view_le_refl d : view_le d d.
Proof using. split; [exists (i_pages d); by rewrite with_pages_id|]. auto. Qed.

Lemma view_le_trans d1 d2 d3 : view_le d1 d2 -> view_le d2 d3 -> view_le d1 d3.
Proof using.
  intros [[p1 ->] [H1 H1']] [[p2 ->] [H2 H2']]. split; [exists p2; by destruct d1|]. split; by auto.
Qed.

Lemma last_byte_with_pages ps d n : ext2_last_byte k (with_pages ps d) n = ext2_last_byte k d n.
Proof using. by destruct d. Qed.

Lemma holds_view d d' pss : view_le d d' -> holds_dir d pss -> holds_dir d' pss.
Proof using.
  intros [[ps ->] [Hr _]] [H1 H2 H3]. split; [by destruct d|by destruct d|].
  intros n rs E. destruct (H3 n rs E) as (kaddr & Hk & Hp). exists kaddr.
  rewrite last_byte_with_pages. auto.
Qed.

(** The pages of the directory lie below its size. *)
Lemma page_below d pss n : holds_dir d pss -> (n < length pss)%nat ->
  Z.of_nat n * PAGE_SIZE k < i_size d.
Proof using G.
  intros [[Hs _] Hp _] Hn. destruct (geo_sizes k sb) as (c & q & _ & _ & HB & Hq & Hq0 & _).
  rewrite (geo_dir_pages (sb := sb)) in Hp by lia.
  pose proof (Z.div_mod (i_size d + PAGE_SIZE k - 1) (PAGE_SIZE k) ltac:(nia)).
  pose proof (Z.mod_pos_bound (i_size d + PAGE_SIZE k - 1) (PAGE_SIZE k) ltac:(nia)). nia.
Qed.

(** A page that passes the check is found; the cache then has it. *)
Lemma get_page_readable d n kaddr quiet : check_data k sb d n kaddr = Ok None -> readable d n kaddr ->
  exists d' p, ext2_get_page k sb d n quiet = Ok (inr kaddr, d') /\ view_le d d' /\
    i_pages d' !! n = Some p /\ p_data p = kaddr /\ p_checked p = true.
Proof using.
  intros Hc0 Hr. unfold ext2_get_page, read_mapping_page.
  assert (Hc : forall ps, check_data k sb (with_pages ps d) n kaddr = Ok None).
  { intros ps. replace (check_data k sb (with_pages ps d)) with (check_data k sb d) by by destruct d. done. }
  assert (Hins : forall p, p_data p = kaddr -> p_checked p = true ->
    forall m x, readable d m x -> readable (with_pages (<[n := p]> (i_pages d)) d) m x).
  { intros p Hpd Hpc m x. unfold readable in *. replace (i_pages (with_pages _ d))
      with (<[n := p]> (i_pages d)) by by destruct d.
    destruct (decide (m = n)) as [->|]; [|by rewrite lookup_insert_ne].
    rewrite lookup_insert_eq. destruct (i_pages d !! n); intuition congruence. }
  unfold readable in Hr. destruct (i_pages d !! n) as [p|] eqn:Ep.
  - destruct Hr as [Hpd Hpe]. destruct (p_checked p) eqn:Ec; cbn [negb].
    + exists d, p. rewrite Hpd. split_and!; auto using view_le_refl.
    + destruct Hpe as [|Hpe]; [done|]. rewrite Hpe. unfold ext2_check_page. rewrite Hpd, Hc0. cbn [rbind].
      eexists _, _. split; [done|]. split; [split; [by eexists|split; [by apply Hins|]]|].
      { intros m q Em Hq. rewrite Hpe. destruct d; simpl in *. rewrite lookup_insert_ne; [done|]. congruence. }
      rewrite Hpe. destruct d; simpl. by rewrite lookup_insert_eq.
  - rewrite Hr. cbn [negb p_checked p_error p_data]. unfold ext2_check_page. cbn [p_data].
    rewrite (Hc _). cbn [rbind]. eexists _, _. split; [done|]. split.
    + split; [by eexists; destruct d|]. split.
      * intros m x Hm. destruct d; simpl. rewrite insert_insert_eq. by apply (Hins (Page kaddr true false)).
      * intros m q Em Hq. destruct d; simpl in *. rewrite insert_insert_eq, lookup_insert_ne; [done|]. congruence.
    + destruct d; simpl. by rewrite lookup_insert_eq.
Qed.

Lemma get_page_spec d pss n rs quiet : holds_dir d pss -> pss !! n = Some rs ->
  exists kaddr d' p, ext2_get_page k sb d (Z.of_nat n) quiet = Ok (inr kaddr, d') /\ view_le d d' /\
    page_holds k sb kaddr (ext2_last_byte k d (Z.of_nat n)) rs /\
    i_pages d' !! Z.of_nat n = Some p /\ p_data p = kaddr /\ p_checked p = true.
Proof using G.
  intros Hd E. pose proof (page_below d pss n Hd (lookup_lt_Some _ _ _ E)) as Hlt.
  destruct (hd_page _ _ Hd n rs E) as (kaddr & Hr & Hp).
  destruct (get_page_readable d (Z.of_nat n) kaddr quiet) as (d' & p & H1 & H2 & H3); [|done|].
  - destruct (check_data_spec k sb d (Z.of_nat n) kaddr) as (e & -> & Hiff); [apply Hd|lia|done|apply Hp|].
    f_equal. apply Hiff. eauto.
  - by exists kaddr, d', p.
Qed.

(** ** Loops over the records *)

Section Fold.
Context {A B : Type} (g : Z -> drec -> A -> A + B).

Fixpoint fold_recs (limit offs : Z) (rs : list drec) (a : A) : scan_result A B :=
  match rs with
  | [] => ScanEnd a
  | r :: rs' =>
      if limit <? offs then ScanEnd a
      else match g offs r a with
           | inl a' => fold_recs limit (offs + dr_len r) rs' a'
           | inr b => ScanExit b
           end
  end.
End Fold.

(** A record of a valid page, with what is before and after it. *)
Definition at_rec (kaddr : list byte) (offs : Z) (r : drec) : Prop :=
  exists pre post, kaddr = pre ++ drec_bytes r ++ post /\ len pre = offs /\ rec_ok sb r /\
    in_range r /\ dr_len r < 65535.

Lemma at_rec_get kaddr offs r f : at_rec kaddr offs r -> de_get kaddr offs f = Ok (drec_field r f).
Proof using. intros (pre & post & -> & <- & _ & R & _). by apply de_get_rec. Qed.

Lemma at_rec_name kaddr offs r n : at_rec kaddr offs r -> 0 <= n <= len (dr_body r) ->
  de_name kaddr offs n = Ok (take (Z.to_nat n) (dr_body r)).
Proof using. intros (pre & post & -> & <- & _) Hn. by apply de_name_rec. Qed.

Lemma at_rec_next kaddr offs r : at_rec kaddr offs r -> ext2_next_entry k kaddr offs = Ok (offs + dr_len r).
Proof using.
  intros H. unfold ext2_next_entry. rewrite (at_rec_get _ _ r) by done. destruct H as (_&_&_&_&_&_&?).
  cbn [rbind drec_field]. by rewrite from_disk_id.
Qed.

Lemma at_rec_len kaddr offs r : at_rec kaddr offs r -> 12 <= dr_len r.
Proof using. intros (_&_&_&_&(?&?&?&?&?&?)&_). done. Qed.

(** The records of a page are at their offsets. *)
Lemma page_at_rec kaddr limit rs1 r rs2 :
  page_holds k sb kaddr limit (rs1 ++ r :: rs2) -> limit mod s_blocksize sb = 0 ->
  at_rec kaddr (len (page_bytes rs1)) r /\ in_chunk sb (len (page_bytes rs1)) r.
Proof using G.
  intros (_ & Hok & Hlen & post & ->) Hm.
  apply recs_ok_app in Hok as [_ Hok2].
  destruct Hok2 as (Hr & Hc & _). simpl in Hc. split; [|done].
  rewrite page_bytes_app, page_bytes_cons, <- !app_assoc in *. rewrite len_app, len_app, len_drec_bytes in Hlen.
  pose proof (len_nonneg (page_bytes rs1)). pose proof (len_nonneg (page_bytes rs2)).
  assert (12 <= dr_len r) by apply Hr.
  destruct (chunk_bound k sb (len (page_bytes rs1)) (dr_len r) limit); [lia|done|done|].
  destruct (geo_sizes k sb) as (c & q & _ & _ & HB & _).
  eexists _, _. split; [done|]. split; [done|]. split; [done|]. split; [|lia].
  apply (rec_in_range k sb (len (page_bytes rs1)) r limit); auto; lia.
Qed.

Lemma each_entry_spec {A B} (body : Z -> A -> res (A + B)) g kaddr limit lim rs2 :
  forall rs1 fuel a,
  page_holds k sb kaddr limit (rs1 ++ rs2) -> limit mod s_blocksize sb = 0 -> lim <= limit - 12 ->
  (forall offs r a, at_rec kaddr offs r -> body offs a = Ok (g offs r a)) ->
  (length rs2 < fuel)%nat ->
  each_entry k fuel kaddr lim body (len (page_bytes rs1)) a = Ok (fold_recs g lim (len (page_bytes rs1)) rs2 a).
Proof using G.
  induction rs2 as [|r rs2 IH]; intros rs1 fuel a Hp Hm Hl Hb Hf;
    (destruct fuel as [|fuel]; [simpl in Hf; lia|]); cbn [each_entry fold_recs].
  - destruct Hp as (_ & _ & Hlen & _). rewrite app_nil_r in Hlen.
    rewrite (proj2 (Z.leb_gt _ _)) by lia. done.
  - rewrite Z.ltb_antisym. destruct (Z.leb_spec (len (page_bytes rs1)) lim); [|done]. cbn [negb].
    destruct (page_at_rec kaddr limit rs1 r rs2 Hp Hm) as [Hr _].
    rewrite (at_rec_get _ _ r) by done. cbn [rbind drec_field].
    pose proof (at_rec_len _ _ _ Hr). rewrite (proj2 (Z.eqb_neq _ _)) by lia.
    rewrite (Hb _ r) by done. cbn [rbind]. destruct (g _ r a) as [a'|b]; [|done].
    rewrite (at_rec_next _ _ r) by done. cbn [rbind].
    replace (len (page_bytes rs1) + dr_len r) with (len (page_bytes (rs1 ++ [r])))
      by (rewrite page_bytes_app, len_app; change (page_bytes [r]) with (drec_bytes r ++ []);
          rewrite app_nil_r, len_drec_bytes; lia).
    apply IH; auto; [by rewrite <- app_assoc|simpl in Hf; lia].
Qed.

Lemma page_fuel_enough kaddr limit rs1 rs2 :
  page_holds k sb kaddr limit (rs1 ++ rs2) -> (length rs2 < page_fuel k)%nat.
Proof using.
  intros (Hk & Hok & Hlen & post & ->). pose proof (recs_count sb _ _ Hok) as H.
  rewrite !len_app in Hk. pose proof (len_nonneg post). rewrite length_app in H. unfold page_fuel. lia.
Qed.

(** ** Positions in the directory *)

Lemma page_len d pss n rs : holds_dir d pss -> pss !! n = Some rs ->
  len (page_bytes rs) = Z.min (PAGE_SIZE k) (i_size d - Z.of_nat n * PAGE_SIZE k).
Proof using G.
  intros Hd E. pose proof (page_below d pss n Hd (lookup_lt_Some _ _ _ E)).
  destruct (hd_page _ _ Hd n rs E) as (kaddr & _ & _ & _ & -> & _).
  apply (last_byte_min k sb); [apply Hd|lia|lia].
Qed.

(** Every page but the last is full. *)
Lemma full_pages d donep rest : holds_dir d (donep ++ rest) -> rest <> [] ->
  len (page_bytes (mjoin donep)) = Z.of_nat (length donep) * PAGE_SIZE k.
Proof using G.
  revert rest. induction donep as [|rs donep IH] using rev_ind; intros rest Hd Hne; [done|].
  rewrite <- app_assoc in Hd. rewrite join_app, page_bytes_app, len_app, (IH ([rs] ++ rest)) by (done || by destruct rest).
  change (mjoin [rs]) with (rs ++ []). rewrite app_nil_r, length_app, Nat2Z.inj_add. simpl.
  rewrite (page_len d _ (length donep) rs Hd) by (by rewrite lookup_app_r, Nat.sub_diag by lia).
  pose proof (page_below d _ (S (length donep)) Hd) as H. rewrite length_app in H. simpl in H.
  destruct rest; [done|]. simpl in H. specialize (H ltac:(lia)). lia.
Qed.

(** The records and the size. *)
Lemma dir_len d pss : holds_dir d pss -> len (page_bytes (mjoin pss)) = i_size d.
Proof using G.
  intros Hd. destruct (geo_sizes k sb) as (c & q & _ & _ & HB & Hq & Hq0 & _).
  assert (HP : 0 < PAGE_SIZE k) by nia. pose proof (hd_pages _ _ Hd) as Hn.
  destruct (hd_size _ _ Hd) as [Hs _]. rewrite (geo_dir_pages (sb := sb)) in Hn by lia.
  pose proof (Z.div_mod (i_size d + PAGE_SIZE k - 1) (PAGE_SIZE k) ltac:(lia)).
  pose proof (Z.mod_pos_bound (i_size d + PAGE_SIZE k - 1) (PAGE_SIZE k) HP).
  destruct (exists_last_or_nil pss) as [->|(donep & rs & ->)].
  - simpl in *. change (len _) with 0. nia.
  - rewrite join_app, page_bytes_app, len_app, (full_pages d donep [rs]) by done.
    change (mjoin [rs]) with (rs ++ []). rewrite app_nil_r.
    rewrite (page_len d _ (length donep) rs Hd) by (by rewrite lookup_app_r, Nat.sub_diag by lia).
    rewrite length_app in Hn. simpl in Hn. nia.
Qed.

(** Where a record of the directory is. *)
Lemma split_pages (pss : list (list drec)) before r after :
  mjoin pss = before ++ r :: after ->
  exists donep rs1 rs2 rest, pss = donep ++ (rs1 ++ r :: rs2) :: rest /\
    before = mjoin donep ++ rs1 /\ after = rs2 ++ mjoin rest.
Proof using.
  revert before. induction pss as [|rs pss IH]; intros before E; simpl in E.
  { by destruct before. }
  apply app_eq_inv in E as [(l & -> & E)|(l & -> & E)].
  - destruct l as [|r' l]; simpl in E.
    + destruct (IH [] (eq_sym E)) as (dp & rs1 & rs2 & rest & -> & E3 & ->).
      exists ((before ++ []) :: dp), rs1, rs2, rest. split; [done|]. split; [|done].
      simpl. by rewrite app_nil_r, <- app_assoc, <- E3, app_nil_r.
    + injection E as <- ->. by exists [], before, l, pss.
  - destruct (IH l E) as (dp & rs1 & rs2 & rest & -> & -> & ->).
    exists (rs :: dp), rs1, rs2, rest. split; [done|]. split; [|done]. simpl. by rewrite <- app_assoc.
Qed.

(** From the start of a chunk, the records lead to any later record boundary. *)
Lemma to_boundary rs b : forall o, recs_ok sb o rs -> 0 <= o <= b -> b <= o + len (page_bytes rs) ->
  b mod s_blocksize sb = 0 ->
  exists rs1 rs2, rs = rs1 ++ rs2 /\ o + len (page_bytes rs1) = b.
Proof using G.
  induction rs as [|r rs IH]; intros o Hok Ho Hb Hm.
  - exists [], []. split; [done|]. change (len (page_bytes [])) with 0 in *. lia.
  - destruct (decide (o = b)) as [->|Hne].
    { exists [], (r :: rs). split; [done|]. change (len (page_bytes [])) with 0. lia. }
    destruct Hok as (Hr & Hc & Hok). rewrite len_page_bytes_cons in Hb.
    destruct (chunk_bound k sb o (dr_len r) b) as [? _]; [lia|done|done|].
    assert (12 <= dr_len r) by apply Hr.
    destruct (IH (o + dr_len r)) as (rs1 & rs2 & -> & E); auto; [lia|lia|].
    exists (r :: rs1), rs2. split; [done|]. rewrite len_page_bytes_cons. lia.
Qed.

Lemma chunk_start limit rs1 rs2 kaddr : page_holds k sb kaddr limit (rs1 ++ rs2) ->
  exists ra rb, rs1 = ra ++ rb /\
    len (page_bytes ra) = len (page_bytes rs1) / s_blocksize sb * s_blocksize sb.
Proof using G.
  intros (_ & Hok & _ & _). apply recs_ok_app in Hok as [Hok _].
  destruct (geo_sizes k sb) as (c & q & _ & _ & HB & _).
  pose proof (Z.div_mod (len (page_bytes rs1)) (s_blocksize sb) ltac:(lia)).
  pose proof (Z.mod_pos_bound (len (page_bytes rs1)) (s_blocksize sb) ltac:(lia)).
  pose proof (len_nonneg (page_bytes rs1)).
  pose proof (Z.div_pos (len (page_bytes rs1)) (s_blocksize sb) ltac:(lia) ltac:(lia)).
  destruct (to_boundary rs1 (len (page_bytes rs1) / s_blocksize sb * s_blocksize sb) 0)
    as (ra & rb & E & Hl); [done|nia|nia|apply Z.mod_mul; lia|]. by exists ra, rb.
Qed.

Lemma page_bytes_snoc rs r : len (page_bytes (rs ++ [r])) = len (page_bytes rs) + dr_len r.
Proof using.
  rewrite page_bytes_app, len_app, len_page_bytes_cons. change (len (page_bytes [])) with 0. lia.
Qed.

(** Revalidation keeps an offset that is a record boundary. *)
Lemma validate_loop_spec kaddr limit rb : forall ra rs2 fuel,
  page_holds k sb kaddr limit (ra ++ rb ++ rs2) -> limit mod s_blocksize sb = 0 -> (length rb < fuel)%nat ->
  validate_loop k fuel kaddr (len (page_bytes (ra ++ rb))) (len (page_bytes ra)) = Ok (len (page_bytes (ra ++ rb))).
Proof using G.
  induction rb as [|r rb IH]; intros ra rs2 fuel Hp Hm Hf; (destruct fuel as [|fuel]; [simpl in Hf; lia|]);
    cbn [validate_loop].
  - rewrite app_nil_r, Z.ltb_irrefl. done.
  - destruct (page_at_rec kaddr limit ra r (rb ++ rs2) Hp Hm) as [Hr _]. pose proof (at_rec_len _ _ _ Hr).
    rewrite (proj2 (Z.ltb_lt _ _)); cycle 1.
    { rewrite page_bytes_app, len_app, len_page_bytes_cons. pose proof (len_nonneg (page_bytes rb)). lia. }
    cbn [negb]. rewrite (at_rec_get _ _ r) by done. cbn [rbind drec_field].
    rewrite (proj2 (Z.eqb_neq _ _)) by lia. rewrite (at_rec_next _ _ r) by done. cbn [rbind].
    rewrite <- page_bytes_snoc. rewrite cons_middle, !app_assoc. apply (IH (ra ++ [r]) rs2); auto.
    + by rewrite <- !app_assoc.
    + simpl in Hf. lia.
Qed.

Lemma validate_spec kaddr limit rs1 rs2 : page_holds k sb kaddr limit (rs1 ++ rs2) ->
  limit mod s_blocksize sb = 0 ->
  ext2_validate_entry k kaddr (len (page_bytes rs1)) (u32 (Z.lnot (ext2_chunk_size sb - 1)))
  = Ok (len (page_bytes rs1)).
Proof using G.
  intros Hp Hm. destruct (chunk_start limit rs1 rs2 kaddr Hp) as (ra & rb & -> & Hl).
  destruct (geo_sizes k sb) as (c & q & Hc & Hc31 & HB & _ & _ & HP & _).
  unfold ext2_validate_entry, ext2_chunk_size. rewrite Hc, land_chunk_mask, <- Hc, <- Hl by
    (try lia; pose proof (len_nonneg (page_bytes (ra ++ rb)));
     destruct Hp as (Hk & _ & _ & post & ->); rewrite page_bytes_app, !len_app in Hk;
     pose proof (len_nonneg (page_bytes rs2)); pose proof (len_nonneg post); lia).
  rewrite <- app_assoc in Hp. apply (validate_loop_spec kaddr limit rb ra rs2); auto.
  pose proof (page_fuel_enough kaddr limit ra (rb ++ rs2) Hp) as Hf. rewrite length_app in Hf.
  unfold page_fuel in Hf. lia.
Qed.

(** When no record starts after the limit, the loop visits them all. *)
Lemma fold_recs_all {A B} (g : Z -> drec -> A -> A + B) rs limit : forall offs a,
  recs_ok sb offs rs -> offs + len (page_bytes rs) = limit ->
  fold_recs g (limit - 12) offs rs a = fold_recs g (offs + len (page_bytes rs)) offs rs a.
Proof using.
  intros offs a Hok <-. assert (H : forall lim, offs + len (page_bytes rs) - 12 <= lim ->
    fold_recs g lim offs rs a = fold_recs g (offs + len (page_bytes rs) - 12) offs rs a).
  { revert offs a Hok. induction rs as [|r rs IH]; intros offs a Hok lim Hl; [done|]. simpl fold_recs.
    destruct Hok as (Hr & _ & Hok). assert (12 <= dr_len r) by apply Hr.
    rewrite len_page_bytes_cons in *. pose proof (len_nonneg (page_bytes rs)).
    rewrite !(proj2 (Z.ltb_ge _ _)) by lia. destruct (g offs r a); [|done].
    replace (offs + (dr_len r + len (page_bytes rs)) - 12) with (offs + dr_len r + len (page_bytes rs) - 12) by lia.
    apply IH; [done|lia]. }
  symmetry. apply H. lia.
Qed.

(** ** [ext2_readdir] *)

Section Readdir.
Context (actor : dir_context -> emitted -> bool).

(** The entry that a record stands for. *)
Definition emit_of (r : drec) : emitted :=
  (dr_name r, dr_ino r,
   if EXT2_HAS_INCOMPAT_FEATURE sb EXT2_FEATURE_INCOMPAT_FILETYPE && (dr_type r <? EXT2_FT_MAX)
   then ext2_filetype_table (dr_type r) else DT_UNKNOWN).

(** The context after some records, and whether the actor has refused one. *)
Fixpoint emit_recs (rs : list drec) (ctx : dir_context) : bool * dir_context :=
  match rs with
  | [] => (false, ctx)
  | r :: rs' =>
      let next c := Ctx (ctx_pos c + dr_len r) (ctx_out c) in
      if dr_ino r =? 0 then emit_recs rs' (next ctx)
      else match dir_emit actor ctx (emit_of r) with
           | None => (true, ctx)
           | Some ctx => emit_recs rs' (next ctx)
           end
  end.

Lemma emit_recs_app rs1 rs2 : forall ctx,
  emit_recs (rs1 ++ rs2) ctx =
  let '(stop, c) := emit_recs rs1 ctx in if stop then (true, c) else emit_recs rs2 c.
Proof using.
  induction rs1 as [|r rs1 IH]; intros ctx; [done|]. simpl. destruct (dr_ino r =? 0); [apply IH|].
  destruct (dir_emit actor ctx (emit_of r)); [apply IH|done].
Qed.

Lemma emit_recs_pos rs : forall ctx c, emit_recs rs ctx = (false, c) ->
  ctx_pos c = ctx_pos ctx + len (page_bytes rs).
Proof using.
  induction rs as [|r rs IH]; intros ctx c; cbn [emit_recs].
  - intros [= ->]. change (len (page_bytes [])) with 0. lia.
  - rewrite len_page_bytes_cons. destruct (dr_ino r =? 0).
    + intros H. apply IH in H. simpl in H. lia.
    + unfold dir_emit. destruct (actor ctx (emit_of r)); [|done]. intros H. apply IH in H. simpl in H. lia.
Qed.

Definition emit_step (offs : Z) (r : drec) (ctx : dir_context) : dir_context + dir_context :=
  let next c := Ctx (ctx_pos c + dr_len r) (ctx_out c) in
  if dr_ino r =? 0 then inl (next ctx)
  else match dir_emit actor ctx (emit_of r) with None => inr ctx | Some c => inl (next c) end.

Lemma readdir_entry_spec kaddr offs r ctx : at_rec kaddr offs r ->
  readdir_entry k actor (EXT2_HAS_INCOMPAT_FEATURE sb EXT2_FEATURE_INCOMPAT_FILETYPE) kaddr offs ctx
  = Ok (emit_step offs r ctx).
Proof using.
  intros H. unfold readdir_entry, emit_step. rewrite !(at_rec_get _ _ r) by done. cbn [rbind drec_field].
  destruct H as (pre & post & E & Ho & Hr & Hi & Hl). rewrite from_disk_id by done.
  destruct (Z.eqb_spec (dr_ino r) 0); cbn [negb]; [done|].
  rewrite (at_rec_name _ _ r) by (by exists pre, post || by apply (name_fits sb)). cbn [rbind].
  fold (dr_name r). fold (emit_of r). by destruct (dir_emit actor ctx (emit_of r)).
Qed.

Lemma fold_emit rs : forall lim offs ctx, offs + len (page_bytes rs) <= lim ->
  fold_recs emit_step lim offs rs ctx =
  let '(stop, c) := emit_recs rs ctx in if stop then ScanExit c else ScanEnd c.
Proof using.
  induction rs as [|r rs IH]; intros lim offs ctx Hl; [done|]. cbn [fold_recs emit_recs].
  rewrite len_page_bytes_cons in Hl. pose proof (len_nonneg (page_bytes rs)).
  assert (0 <= dr_len r) by (unfold dr_len; pose proof (len_nonneg (dr_body r)); lia).
  rewrite (proj2 (Z.ltb_ge _ _)) by lia. unfold emit_step.
  destruct (dr_ino r =? 0); [apply IH; lia|].
  destruct (dir_emit actor ctx (emit_of r)); [apply IH; lia|done].
Qed.

Lemma readdir_page_loop kaddr limit rs1 rs2 ctx :
  page_holds k sb kaddr limit (rs1 ++ rs2) -> limit mod s_blocksize sb = 0 ->
  each_entry k (page_fuel k) kaddr (limit - EXT2_DIR_REC_LEN 1)
    (readdir_entry k actor (EXT2_HAS_INCOMPAT_FEATURE sb EXT2_FEATURE_INCOMPAT_FILETYPE) kaddr)
    (len (page_bytes rs1)) ctx =
  Ok (let '(stop, c) := emit_recs rs2 ctx in if stop then ScanExit c else ScanEnd c).
Proof using G.
  intros Hp Hm. change (EXT2_DIR_REC_LEN 1) with 12.
  rewrite (each_entry_spec _ emit_step kaddr limit _ rs2);
    [|done|done|lia|intros; by apply readdir_entry_spec|by eapply page_fuel_enough].
  destruct Hp as (_ & Hok & Hl & _). rewrite page_bytes_app, len_app in Hl.
  apply recs_ok_app in Hok as [_ Hok]. rewrite fold_recs_all by done. by rewrite fold_emit by lia.
Qed.

(** Revalidation finds the same place and takes the new version. *)
Lemma revalidate_spec kaddr limit n rs1 rs2 (nr : bool) d fv ctx :
  page_holds k sb kaddr limit (rs1 ++ rs2) -> limit mod s_blocksize sb = 0 ->
  ctx_pos ctx = n * PAGE_SIZE k + len (page_bytes rs1) ->
  (if nr then
     if negb (len (page_bytes rs1) =? 0) then
       let* o := ext2_validate_entry k kaddr (len (page_bytes rs1)) (u32 (Z.lnot (ext2_chunk_size sb - 1))) in
       Ok (o, Ctx (Z.shiftl n (PAGE_SHIFT k) + o) (ctx_out ctx), i_version d)
     else Ok (len (page_bytes rs1), ctx, i_version d)
   else Ok (len (page_bytes rs1), ctx, fv)) =
  Ok (len (page_bytes rs1), ctx, if nr then i_version d else fv).
Proof using G.
  intros Hp Hm Hpos. destruct nr; [|done]. destruct (negb _); [|done].
  rewrite (validate_spec kaddr limit rs1 rs2) by done. cbn [rbind].
  destruct (geo_sizes k sb) as (c & q & _ & _ & _ & _ & _ & _ & HS & HP).
  rewrite Z.shiftl_mul_pow2, <- HP, <- Hpos by lia. by destruct ctx.
Qed.

Lemma readdir_pages_spec rest : forall donep rs1 rs2 d nr fv ctx,
  holds_dir d (donep ++ (rs1 ++ rs2) :: rest) ->
  ctx_pos ctx = Z.of_nat (length donep) * PAGE_SIZE k + len (page_bytes rs1) ->
  exists d' , view_le d d' /\
    readdir_pages k sb actor (S (length rest)) (Z.of_nat (length donep)) (len (page_bytes rs1)) nr d fv ctx
    = Ok (0, d', if nr then i_version d else fv, snd (emit_recs (rs2 ++ mjoin rest) ctx)).
Proof using G.
  induction rest as [|rs rest IH]; intros donep rs1 rs2 d nr fv ctx Hd Hpos.
  all: destruct (get_page_spec d _ (length donep) (rs1 ++ rs2) false Hd) as (kaddr & d1 & p & Eg & Hv & Hp & _);
    [by rewrite lookup_app_r, Nat.sub_diag by lia|].
  all: pose proof (page_below d _ (length donep) Hd) as Hb; rewrite length_app in Hb; simpl in Hb.
  all: pose proof (last_byte_mod k sb d (Z.of_nat (length donep)) (hd_size _ _ Hd) ltac:(lia) ltac:(lia)) as Hm.
  all: assert (Hlb : ext2_last_byte k d1 (Z.of_nat (length donep)) = ext2_last_byte k d (Z.of_nat (length donep)))
         by (destruct Hv as [[ps ->] _]; apply last_byte_with_pages).
  all: assert (Hver : i_version d1 = i_version d) by (destruct Hv as [[ps ->] _]; by destruct d).
  all: cbn [readdir_pages length]; rewrite Eg; cbn [rbind]; rewrite (revalidate_spec kaddr _ _ rs1 rs2) by eauto.
  all: cbn [rbind]; rewrite Hlb, (readdir_page_loop kaddr _ rs1 rs2), Hver by done.
  all: cbn [rbind]; rewrite emit_recs_app; destruct (emit_recs rs2 ctx) as [[] c] eqn:Ee; cbn [snd]; [by exists d1|].
  - by exists d1.
  - pose proof (emit_recs_pos _ _ _ Ee) as Hc.
    assert (Hd1 : holds_dir d1 ((donep ++ [rs1 ++ rs2]) ++ ([] ++ rs) :: rest))
      by (rewrite <- app_assoc; by apply (holds_view d)).
    destruct (IH (donep ++ [rs1 ++ rs2]) [] rs d1 false (if nr then i_version d else fv) c Hd1) as (d2 & Hv2 & E2).
    { change (len (page_bytes [])) with 0. rewrite Hc, Hpos.
      pose proof (full_pages d1 _ _ Hd1 ltac:(done)) as Hf. rewrite join_app, page_bytes_app, len_app in Hf.
      pose proof (full_pages d donep _ Hd ltac:(done)) as Hf2. change (mjoin [rs1 ++ rs2]) with ((rs1 ++ rs2) ++ []) in Hf.
      rewrite app_nil_r, page_bytes_app, len_app in Hf. lia. }
    exists d2. split; [by eapply view_le_trans|]. change (len (page_bytes [])) with 0 in E2.
    rewrite length_app, Nat2Z.inj_add in E2. exact E2.
Qed.

Lemma readdir_spec d pss before after fv ctx :
  holds_dir d pss -> mjoin pss = before ++ after -> ctx_pos ctx = len (page_bytes before) ->
  exists d' fv', view_le d d' /\ ext2_readdir k sb actor d fv ctx = Ok (0, d', fv', snd (emit_recs after ctx)).
Proof using G.
  intros Hd E Hpos. pose proof (dir_len d pss Hd) as Hsz. unfold ext2_readdir.
  change (EXT2_DIR_REC_LEN 1) with 12. rewrite E, page_bytes_app, len_app in Hsz.
  destruct after as [|r after].
  { change (len (page_bytes [])) with 0 in Hsz. rewrite (proj2 (Z.ltb_lt _ _)) by lia.
    exists d, fv. split; [apply view_le_refl|done]. }
  destruct (split_pages pss before r after E) as (donep & rs1 & rs2 & rest & -> & -> & ->).
  rewrite page_bytes_app, len_app, (full_pages d _ _ Hd) in Hpos by done.
  destruct (hd_page _ _ Hd (length donep) (rs1 ++ r :: rs2)) as (kaddr & _ & Hp);
    [by rewrite lookup_app_r, Nat.sub_diag by lia|].
  assert (Hok := Hp). destruct Hok as (Hk & Hok & _ & post & ->).
  apply recs_ok_app in Hok as (_ & Hr & _). assert (12 <= dr_len r) by apply Hr.
  rewrite page_bytes_app, !len_app, len_page_bytes_cons in Hk. rewrite len_page_bytes_cons in Hsz.
  rewrite page_bytes_app, len_app, (full_pages d _ _ Hd) in Hsz by done.
  pose proof (len_nonneg (page_bytes rs1)). pose proof (len_nonneg (page_bytes rs2)).
  pose proof (len_nonneg post). pose proof (len_nonneg (page_bytes (rs2 ++ mjoin rest))).
  rewrite (proj2 (Z.ltb_ge _ _)) by lia.
  destruct (geo_sizes k sb) as (c & q & _ & _ & HB & Hq & Hq0 & _ & HS & HP).
  replace (PAGE_SIZE k - 1) with (Z.ones (PAGE_SHIFT k)) by (rewrite Z.ones_equiv; lia).
  rewrite Z.land_ones, Z.shiftr_div_pow2, <- HP, Hpos by lia.
  rewrite (Z.add_comm (_ * _)), Z.div_add, Z.mod_add, Z.div_small, Z.mod_small, Z.add_0_l by nia.
  rewrite <- (hd_pages _ _ Hd), length_app, Nat2Z.inj_add, Z.add_simpl_l, Nat2Z.id.
  destruct (readdir_pages_spec rest donep rs1 (r :: rs2) d (negb (fv =? i_version d)) fv ctx Hd Hpos)
    as (d' & Hv & E'). eexists _, _. split; [exact Hv|exact E'].
Qed.

(** What the actor has taken, and the place at which it stopped. *)
Lemma emit_split rs : forall ctx, let c := snd (emit_recs rs ctx) in
  exists rs1 rs2, rs = rs1 ++ rs2 /\
    ctx_out c = ctx_out ctx ++ map emit_of (filter (fun r => dr_ino r <> 0) rs1) /\
    ctx_pos c = ctx_pos ctx + len (page_bytes rs1) /\
    (rs2 = [] \/ exists r rs3, rs2 = r :: rs3 /\ dr_ino r <> 0 /\ actor c (emit_of r) = false).
Proof using.
  induction rs as [|r rs IH]; intros ctx; cbn [emit_recs].
  - exists [], []. simpl. rewrite app_nil_r. change (len (page_bytes [])) with 0. split_and!; auto. lia.
  - destruct (Z.eqb_spec (dr_ino r) 0) as [Ez|Ez].
    + destruct (IH (Ctx (ctx_pos ctx + dr_len r) (ctx_out ctx))) as (rs1 & rs2 & -> & H1 & H2 & H3).
      exists (r :: rs1), rs2. split; [done|]. rewrite filter_cons_False by (intros []; done).
      split; [done|]. split; [|done]. rewrite H2, len_page_bytes_cons. simpl. lia.
    + unfold dir_emit. destruct (actor ctx (emit_of r)) eqn:Ea.
      * destruct (IH (Ctx (ctx_pos ctx + dr_len r) (ctx_out ctx ++ [emit_of r]))) as (rs1 & rs2 & -> & H1 & H2 & H3).
        exists (r :: rs1), rs2. split; [done|]. rewrite filter_cons_True by done.
        cbn [ctx_pos ctx_out] in *. split; [rewrite H1; simpl; by rewrite <- app_assoc|].
        split; [|done]. rewrite H2, len_page_bytes_cons. lia.
      * exists [], (r :: rs). simpl. rewrite app_nil_r. change (len (page_bytes [])) with 0.
        split; [done|]. split; [done|]. split; [lia|]. right. eauto.
Qed.
End Readdir.
End Read.
