(* ===== verification/Ext2DirFind.v ===== *)
(** * ext2: looking entries up

    [ext2_find_entry] goes around the pages from where the last search ended;
    whatever the start, it finds an entry with the name if the directory has one.
    [ext2_inode_by_name] and [ext2_empty_dir] follow. *)

From S2P Require Import Prelude CString ByteMem Ext2Layout Ext2Dir Ext2DirPage Ext2DirRead.

Section Find.
Context (k : kernel) (sb : super) `{G : !Geometry k sb}.

(** The record is a live entry with the name. *)
Definition is_match (name : list byte) (r : drec) : bool :=
  (len name =? dr_name_len r) && negb (dr_ino r =? 0) && bool_decide (name = dr_name r).

Lemma ext2_match_spec name kaddr offs r : at_rec sb kaddr offs r ->
  ext2_match name kaddr offs = Ok (is_match name r).
Proof using.
  intros H. unfold ext2_match, is_match. rewrite !(at_rec_get sb _ _ r) by done. cbn [rbind drec_field].
  destruct (Z.eqb_spec (len name) (dr_name_len r)) as [E|]; cbn [negb andb]; [|done].
  destruct (dr_ino r =? 0); cbn [negb andb]; [done|].
  rewrite (at_rec_name sb _ _ r) by (done || (destruct H as (_&_&_&_&Hr&_); rewrite E; by apply (name_fits sb))).
  unfold dr_name. by rewrite E.
Qed.

(** ** One page *)

Definition find_step (name : list byte) (offs : Z) (r : drec) (_ : unit) : unit + Z :=
  if is_match name r then inr offs else inl tt.

(** A record that starts after the limit is too short for the name. *)
Lemma fold_find name limit rs : forall offs, 0 <= offs ->
  recs_ok sb offs rs -> offs + len (page_bytes rs) = limit -> limit mod s_blocksize sb = 0 ->
  match fold_recs (find_step name) (limit - EXT2_DIR_REC_LEN (len name)) offs rs tt with
  | ScanEnd _ => Forall (fun r => is_match name r = false) rs
  | ScanExit o => exists rs1 r rs2, rs = rs1 ++ r :: rs2 /\ o = offs + len (page_bytes rs1) /\
                    is_match name r = true
  | ScanZero _ => False
  end.
Proof using G.
  induction rs as [|r rs IH]; intros offs Ho Hok Hl Hm; [by constructor|]. cbn [fold_recs].
  assert (Hok1 := Hok). destruct Hok1 as (Hr & Hc & Hok1). rewrite len_page_bytes_cons in Hl.
  pose proof (len_nonneg (page_bytes rs)). assert (12 <= dr_len r) by apply Hr.
  destruct (Z.ltb_spec (limit - EXT2_DIR_REC_LEN (len name)) offs) as [Hlt|Hge].
  - assert (Hall : forall rs offs', offs <= offs' -> recs_ok sb offs' rs -> offs' + len (page_bytes rs) = limit ->
      Forall (fun r => is_match name r = false) rs).
    { clear -Hlt. induction rs as [|r rs IH]; intros offs' Ho Hok Hl; [done|].
      destruct Hok as (Hr & Hc & Hok). rewrite len_page_bytes_cons in Hl.
      pose proof (len_nonneg (page_bytes rs)). assert (12 <= dr_len r) by apply Hr.
      constructor; [|apply (IH (offs' + dr_len r)); auto; lia].
      unfold is_match. destruct (Z.eqb_spec (len name) (dr_name_len r)) as [E|]; [|done].
      assert (EXT2_DIR_REC_LEN (dr_name_len r) <= dr_len r) by apply Hr. rewrite E in Hlt. lia. }
    apply (Hall (r :: rs) offs); auto; [lia|by rewrite len_page_bytes_cons].
  - unfold find_step at 1. destruct (is_match name r) eqn:Em.
    + exists [], r, rs. split; [done|]. change (len (page_bytes [])) with 0. split; [lia|done].
    + specialize (IH (offs + dr_len r) ltac:(lia) Hok1 ltac:(lia) Hm).
      destruct (fold_recs _ _ _ rs tt) as [?|?|o]; [by constructor|done|].
      destruct IH as (rs1 & r2 & rs2 & -> & -> & Hm2). exists (r :: rs1), r2, rs2.
      rewrite len_page_bytes_cons. split; [done|]. split; [lia|done].
Qed.

Lemma find_page_loop name kaddr limit rs : 1 <= len name <= 255 -> 1024 <= limit <= PAGE_SIZE k ->
  page_holds k sb kaddr limit rs -> limit mod s_blocksize sb = 0 ->
  exists r, each_entry k (page_fuel k) kaddr (u32 (limit - EXT2_DIR_REC_LEN (len name)))
    (fun de (_ : unit) => let* found := ext2_match name kaddr de in Ok (if found then inr de else inl tt)) 0 tt
    = Ok r /\
  match r with
  | ScanEnd _ => Forall (fun r => is_match name r = false) rs
  | ScanExit o => exists rs1 r rs2, rs = rs1 ++ r :: rs2 /\ o = len (page_bytes rs1) /\
                    is_match name r = true
  | ScanZero _ => False
  end.
Proof using G.
  intros Hn Hl Hp Hm. pose proof (rec_len_bound (len name) ltac:(lia)). pose proof (rec_len_min (len name)).
  destruct (geo_sizes k sb) as (c & q & _ & _ & HB & _ & _ & HP & _). rewrite u32_id by lia.
  eexists. split.
  - apply (each_entry_spec k sb _ (find_step name) kaddr limit _ rs []); [done|done|lia| |by eapply (page_fuel_enough k sb _ _ [])].
    intros offs r [] Hr. rewrite (ext2_match_spec name _ _ r Hr). done.
  - destruct Hp as (_ & Hok & Hlen & _). exact (fold_find name limit rs 0 ltac:(lia) Hok Hlen Hm).
Qed.

(** ** All pages *)

(** The place of the entry with the name, and the state in which it was found. *)
Definition found_at (d : dir) (pss : list (list drec)) (name : list byte) (n de : Z) : Prop :=
  exists rs1 r rs2 p, 0 <= n /\ pss !! Z.to_nat n = Some (rs1 ++ r :: rs2) /\ de = len (page_bytes rs1) /\
    is_match name r = true /\ i_pages d !! n = Some p /\ p_checked p = true /\
    page_holds k sb (p_data p) (ext2_last_byte k d n) (rs1 ++ r :: rs2).

(** The blocks of the directory cover its pages. *)
Definition blocks_cover (d : dir) (pss : list (list drec)) : Prop :=
  Z.of_nat (length pss) <= Z.shiftr (i_blocks d) (PAGE_SHIFT k - 9) + 1.

Lemma last_byte_range d pss n : holds_dir k sb d pss -> (n < length pss)%nat ->
  1024 <= ext2_last_byte k d (Z.of_nat n) <= PAGE_SIZE k /\
  ext2_last_byte k d (Z.of_nat n) mod s_blocksize sb = 0.
Proof using G.
  intros Hd Hn. pose proof (page_below k sb d pss n Hd Hn) as Hb.
  assert (Hm := last_byte_mod k sb d (Z.of_nat n) (hd_size _ _ _ _ Hd) ltac:(lia) ltac:(lia)).
  rewrite (last_byte_min k sb) in * by (apply Hd || lia). split; [|done].
  destruct (geo_sizes k sb) as (c & q & _ & _ & HB & Hq & Hq0 & _). split; [|lia].
  set (x := Z.min _ _) in *. assert (0 < x) by (unfold x; nia). clearbody x.
  apply Z.mod_divide in Hm as [z ->]; [|lia]. assert (0 < z) by nia. nia.
Qed.

Lemma next_page (N n m start : Z) : 0 <= n < N -> 1 <= m <= N -> (n + m) mod N = start ->
  (if N <=? n + 1 then 0 else n + 1) = (n + 1) mod N /\ ((n + 1) mod N = start <-> m = 1).
Proof using.
  intros Hn Hm Hs. assert (E : (n + 1) mod N = if N <=? n + 1 then 0 else n + 1).
  { destruct (Z.leb_spec N (n + 1)); [|apply Z.mod_small; lia].
    replace (n + 1) with N by lia. apply Z.mod_same. lia. }
  split; [done|]. split; [|by intros ->]. intros H.
  assert ((m - 1) mod N = 0).
  { replace (m - 1) with (n + m - (n + 1)) by lia. rewrite Zminus_mod, Hs, H, Z.sub_diag. apply Z.mod_0_l. lia. }
  rewrite Z.mod_small in H0 by lia. lia.
Qed.

(** The state after a search: more pages in the cache, and the start of the next one. *)
Definition searched (d d' : dir) : Prop := exists d1, view_le k d d1 /\ (d' = d1 \/ exists n, 0 <= n /\ d' = with_lookup n d1).

Lemma holds_lookup d pss n : holds_dir k sb d pss -> holds_dir k sb (with_lookup n d) pss.
Proof using. intros [H1 H2 H3]. destruct d. by split. Qed.

Lemma holds_searched d d' pss : searched d d' -> holds_dir k sb d pss -> holds_dir k sb d' pss.
Proof using.
  intros (d1 & Hv & [->|(n & _ & ->)]) Hd; [|apply holds_lookup]; by apply (holds_view k sb d).
Qed.

Lemma searched_view d d1 d' : view_le k d d1 -> searched d1 d' -> searched d d'.
Proof using. intros H (d2 & H2 & H3). exists d2. split; [by eapply view_le_trans|done]. Qed.

Lemma find_pages_spec name pss : 1 <= len name <= 255 -> forall fuel n m start err d,
  m = Z.of_nat fuel -> 1 <= m <= Z.of_nat (length pss) -> 0 <= n < Z.of_nat (length pss) ->
  (n + m) mod Z.of_nat (length pss) = start -> holds_dir k sb d pss -> blocks_cover d pss ->
  exists r d', find_pages k sb fuel name (Z.of_nat (length pss)) start n err d = Ok (r, d') /\ searched d d' /\
    match r with
    | Some (n', de) => found_at d' pss name n' de
    | None => forall j rs, 0 <= j < m -> pss !! Z.to_nat ((n + j) mod Z.of_nat (length pss)) = Some rs ->
                Forall (fun r => is_match name r = false) rs
    end.
Proof using G.
  intros Hname. induction fuel as [|fuel IH]; intros n m start err d Em Hm Hn Hs Hd Hb; [lia|].
  set (N := Z.of_nat (length pss)) in *.
  destruct (lookup_lt_is_Some_2 pss (Z.to_nat n)) as [rs Ers]; [lia|].
  destruct (get_page_spec k sb d pss _ rs err Hd Ers) as (kaddr & d1 & p & Eg & Hv & Hp & Epg & Epd & Epc).
  destruct (last_byte_range d pss (Z.to_nat n) Hd) as [Hl1 Hl2]; [lia|].
  rewrite Z2Nat.id in * by lia.
  assert (Hlb : ext2_last_byte k d1 n = ext2_last_byte k d n)
    by (destruct Hv as [[ps ->] _]; apply last_byte_with_pages).
  destruct (find_page_loop name kaddr _ rs Hname Hl1 Hp Hl2) as (r & Er & Hr).
  cbn [find_pages]. rewrite Eg. cbn [rbind]. rewrite Hlb, Er. cbn [rbind].
  destruct r as [[]|[]|de]; [|done|].
  - destruct (next_page N n m start Hn Hm Hs) as [-> Hst].
    assert (Hb1 : i_blocks d1 = i_blocks d) by (destruct Hv as [[ps ->] _]; by destruct d).
    pose proof (Z.mod_pos_bound (n + 1) N ltac:(lia)). unfold blocks_cover in Hb. fold N in Hb.
    rewrite Hb1, (proj2 (Z.ltb_ge _ _)) by lia.
    assert (H0 : forall rs0, pss !! Z.to_nat ((n + 0) mod N) = Some rs0 -> Forall (fun r => is_match name r = false) rs0).
    { intros rs0. rewrite Z.add_0_r, Z.mod_small by lia. rewrite Ers. by intros [= <-]. }
    destruct (Z.eqb_spec ((n + 1) mod N) start) as [Ee|Ee].
    + apply Hst in Ee. exists None, d1. split; [done|]. split; [exists d1; auto|].
      intros j rs0 Hj. replace j with 0 by lia. apply H0.
    + assert (m <> 1) by tauto.
      destruct (IH ((n + 1) mod N) (m - 1) start err d1) as (r & d2 & E2 & Hs2 & Hr2);
        [lia|lia|lia| |by apply (holds_view k sb d)|unfold blocks_cover; by rewrite Hb1|].
      { rewrite Z.add_mod_idemp_l by lia. rewrite <- Hs. f_equal. lia. }
      exists r, d2. split; [done|]. split; [by eapply searched_view|]. destruct r as [[n' de]|]; [done|].
      intros j rs0 Hj. destruct (decide (j = 0)) as [->|]; [apply H0|]. intros E.
      apply (Hr2 (j - 1) rs0); [lia|]. rewrite Z.add_mod_idemp_l by lia.
      by replace (n + 1 + (j - 1)) with (n + j) by lia.
  - destruct Hr as (rs1 & rc & rs2 & -> & -> & Hmt). eexists _, _. split; [done|].
    split; [exists d1; split; [done|]; right; exists n; split; [lia|done]|].
    exists rs1, rc, rs2, p. subst kaddr.
    replace (ext2_last_byte k (with_lookup n d1)) with (ext2_last_byte k d1) by by destruct d1.
    replace (i_pages (with_lookup n d1)) with (i_pages d1) by by destruct d1.
    rewrite Hlb. repeat split; auto; try lia; apply Hp.
Qed.

Lemma find_entry_spec d pss name : holds_dir k sb d pss -> blocks_cover d pss ->
  0 <= i_dir_start_lookup d -> 1 <= len name <= 255 ->
  exists r d', ext2_find_entry k sb d name = Ok (r, d') /\ searched d d' /\
    match r with
    | Some (n, de) => found_at d' pss name n de
    | None => Forall (fun r => is_match name r = false) (mjoin pss)
    end.
Proof using G.
  intros Hd Hb Hst Hn. unfold ext2_find_entry. rewrite <- (hd_pages _ _ _ _ Hd).
  destruct (Z.eqb_spec (Z.of_nat (length pss)) 0) as [E|E].
  { destruct pss; [|simpl in E; lia]. exists None, d. split; [done|]. split; [|by constructor].
    exists d. split; [apply view_le_refl|by left]. }
  set (N := Z.of_nat (length pss)) in *. set (start := if N <=? i_dir_start_lookup d then 0 else i_dir_start_lookup d).
  assert (Hs : 0 <= start < N) by (unfold start; destruct (Z.leb_spec N (i_dir_start_lookup d)); lia).
  destruct (find_pages_spec name pss Hn (Z.to_nat N) start N start false d) as (r & d' & E1 & H1 & H2); auto; try lia.
  { fold N. rewrite <- (Z.mul_1_l N) at 1. rewrite Z.mod_add by lia. by apply Z.mod_small. }
  exists r, d'. split; [exact E1|]. split; [done|]. destruct r as [[n de]|]; [done|].
  apply Forall_forall. intros rc Hrc. apply list_elem_of_join in Hrc as (rs & Hrc & Hrs).
  apply list_elem_of_lookup in Hrs as (i & Hi). pose proof (lookup_lt_Some _ _ _ Hi).
  assert (HF : Forall (fun r => is_match name r = false) rs); [|by eapply Forall_forall in HF].
  apply (H2 ((Z.of_nat i - start) mod N) rs); [apply Z.mod_pos_bound; lia|].
  fold N. rewrite Z.add_mod_idemp_r by lia. replace (start + (Z.of_nat i - start)) with (Z.of_nat i) by lia.
  rewrite Z.mod_small by lia. by rewrite Nat2Z.id.
Qed.

(** ** The entries of a directory *)

(** The live entries with their inodes, in the order of the pages. *)
Definition entries (rs : list drec) : list (list byte * Z) :=
  map (fun r => (dr_name r, dr_ino r)) (filter (fun r => dr_ino r <> 0) rs).

Lemma entries_app rs1 rs2 : entries (rs1 ++ rs2) = entries rs1 ++ entries rs2.
Proof using. unfold entries. by rewrite filter_app, map_app. Qed.

Lemma entries_one r : dr_ino r <> 0 -> entries [r] = [(dr_name r, dr_ino r)].
Proof using. intros H. unfold entries. by rewrite filter_cons_True. Qed.

Lemma elem_of_entries rs name ino :
  (name, ino) ∈ entries rs <-> exists r, r ∈ rs /\ dr_ino r <> 0 /\ dr_name r = name /\ dr_ino r = ino.
Proof using.
  unfold entries. rewrite list_elem_of_fmap. setoid_rewrite list_elem_of_filter.
  split; [intros (r & [= -> ->] & H1 & H2)|intros (r & H1 & H2 & <- & <-)]; eauto.
Qed.

Lemma recs_ok_elem offs rs r : recs_ok sb offs rs -> r ∈ rs -> rec_ok sb r.
Proof using.
  revert offs. induction rs as [|r' rs IH]; intros offs; [by rewrite elem_of_nil|].
  intros (H1 & _ & H2) [->|H]%elem_of_cons; eauto.
Qed.

Lemma dir_rec_ok d pss r : holds_dir k sb d pss -> r ∈ mjoin pss -> rec_ok sb r.
Proof using.
  intros Hd (rs & Hr & Hrs)%list_elem_of_join. apply list_elem_of_lookup in Hrs as (i & Hi).
  destruct (hd_page _ _ _ _ Hd i rs Hi) as (kaddr & _ & _ & Hok & _). by eapply recs_ok_elem.
Qed.

Lemma len_dr_name r : rec_ok sb r -> len (dr_name r) = dr_name_len r.
Proof using.
  intros H. pose proof (name_fits sb r H). unfold dr_name, len in *. rewrite length_take. lia.
Qed.

Lemma is_match_true name r : rec_ok sb r ->
  is_match name r = true <-> dr_ino r <> 0 /\ dr_name r = name.
Proof using.
  intros H. unfold is_match. rewrite !andb_true_iff, negb_true_iff, Z.eqb_eq, Z.eqb_neq, bool_decide_eq_true.
  rewrite <- (len_dr_name r H). split; [by intros [[_ ?] ->]|]. by intros [? <-].
Qed.

Lemma no_match_entries d pss name : holds_dir k sb d pss ->
  Forall (fun r => is_match name r = false) (mjoin pss) <-> forall ino, (name, ino) ∉ entries (mjoin pss).
Proof using.
  intros Hd. rewrite Forall_forall. split.
  - intros H ino (r & Hr & Hi & Hn & _)%elem_of_entries.
    specialize (H r Hr). by rewrite (proj2 (is_match_true name r (dir_rec_ok d pss r Hd Hr))) in H.
  - intros H r Hr. apply not_true_iff_false. intros (Hi & Hn)%is_match_true; [|by eapply dir_rec_ok].
    apply (H (dr_ino r)). apply elem_of_entries. eauto.
Qed.

Lemma found_entry d pss name n de : found_at d pss name n de -> holds_dir k sb d pss ->
  exists kaddr r, page_address d n = Ok kaddr /\ at_rec sb kaddr de r /\ r ∈ mjoin pss /\
    dr_ino r <> 0 /\ dr_name r = name.
Proof using G.
  intros (rs1 & r & rs2 & p & Hn & Ep & -> & Hm & Epg & _ & Hp) Hd.
  assert (Hr : r ∈ mjoin pss).
  { apply list_elem_of_join. exists (rs1 ++ r :: rs2). split; [set_solver|by eapply list_elem_of_lookup_2]. }
  exists (p_data p), r. unfold page_address. rewrite Epg.
  destruct (last_byte_range d pss (Z.to_nat n) Hd (lookup_lt_Some _ _ _ Ep)) as [_ Hmod].
  rewrite Z2Nat.id in Hmod by lia.
  destruct (page_at_rec k sb _ _ rs1 r rs2 Hp Hmod) as [Ha _].
  apply is_match_true in Hm; [|by eapply dir_rec_ok]. tauto.
Qed.

(** ** [ext2_inode_by_name] *)

Lemma inode_by_name_spec d pss name : holds_dir k sb d pss -> blocks_cover d pss ->
  0 <= i_dir_start_lookup d -> 1 <= len name <= 255 ->
  exists ino d', ext2_inode_by_name k sb d name = Ok (ino, d') /\ searched d d' /\
    (if ino =? 0 then forall i, (name, i) ∉ entries (mjoin pss) else (name, ino) ∈ entries (mjoin pss)).
Proof using G.
  intros Hd Hb Hs Hn. unfold ext2_inode_by_name.
  destruct (find_entry_spec d pss name Hd Hb Hs Hn) as (r & d' & -> & Hsd & Hr). cbn [rbind].
  destruct r as [[n de]|].
  - destruct (found_entry d' pss name n de Hr) as (kaddr & rc & -> & Ha & Hin & Hi & Hnm);
      [by apply (holds_searched d)|]. cbn [rbind]. rewrite (at_rec_get sb _ _ rc) by done. cbn [rbind drec_field].
    eexists _, _. split; [done|]. split; [done|]. rewrite (proj2 (Z.eqb_neq _ _)) by done.
    apply elem_of_entries. eauto.
  - exists 0, d'. split; [done|]. split; [done|]. simpl. by apply (no_match_entries d).
Qed.

(** ** [ext2_empty_dir] *)

(** An entry that an empty directory may have: none, [.] for itself, or [..]. *)
Definition dot_entry (ino : Z) (r : drec) : bool :=
  (dr_ino r =? 0) ||
  (bool_decide (take 1 (dr_body r) = [dot]) &&
   (if dr_name_len r <? 2 then dr_ino r =? ino
    else (dr_name_len r =? 2) && bool_decide (take 2 (dr_body r) = [dot; dot]))).

Lemma empty_entry_spec ino kaddr offs r : at_rec sb kaddr offs r -> 0 <= ino < 2 ^ 32 ->
  empty_entry ino kaddr offs tt = Ok (if dot_entry ino r then inl tt else inr tt).
Proof using.
  intros H Hi. unfold empty_entry, dot_entry. rewrite !(at_rec_get sb _ _ r) by done. cbn [rbind drec_field].
  pose proof (at_rec_len sb _ _ _ H) as Hl. unfold dr_len in Hl. rewrite (u32_id ino) by done.
  destruct (dr_ino r =? 0); [done|]. cbn [orb].
  rewrite !(at_rec_name sb _ _ r) by (done || lia). cbn [rbind].
  change (Z.to_nat 1) with 1%nat. change (Z.to_nat 2) with 2%nat.
  destruct (dr_body r) as [|b0 [|b1 bs]]; [unfold len in Hl; simpl in Hl; lia..|]. cbn [take drop].
  destruct (decide (b0 = dot)) as [->|Hb0]; [|by rewrite bool_decide_false by congruence].
  rewrite (bool_decide_true ([dot] = [dot])) by done. cbn [negb andb].
  destruct (Z.ltb_spec 2 (dr_name_len r)), (Z.ltb_spec (dr_name_len r) 2), (Z.eqb_spec (dr_name_len r) 2);
    try lia; cbn [andb]; try done.
  - by destruct (dr_ino r =? ino).
  - destruct (decide (b1 = dot)) as [->|]; [done|]. rewrite !bool_decide_false by congruence. done.
Qed.

Lemma fold_empty ino rs : forall lim offs, offs + len (page_bytes rs) <= lim ->
  fold_recs (fun _ r (_ : unit) => if dot_entry ino r then inl tt else inr tt) lim offs rs tt =
  if forallb (dot_entry ino) rs then ScanEnd tt else ScanExit tt.
Proof using.
  induction rs as [|r rs IH]; intros lim offs Hl; [done|]. cbn [fold_recs forallb].
  rewrite len_page_bytes_cons in Hl. pose proof (len_nonneg (page_bytes rs)).
  assert (0 <= dr_len r) by (unfold dr_len; pose proof (len_nonneg (dr_body r)); lia).
  rewrite (proj2 (Z.ltb_ge _ _)) by lia. destruct (dot_entry ino r); [apply IH; lia|done].
Qed.

Lemma empty_pages_spec rest : forall donep err d, holds_dir k sb d (donep ++ rest) -> 0 <= i_ino d < 2 ^ 32 ->
  exists d', empty_pages k sb (length rest) (Z.of_nat (length donep)) err d
    = Ok (forallb (dot_entry (i_ino d)) (mjoin rest), d') /\ view_le k d d'.
Proof using G.
  induction rest as [|rs rest IH]; intros donep err d Hd Hi; cbn [empty_pages length].
  { exists d. split; [done|apply view_le_refl]. }
  destruct (get_page_spec k sb d _ (length donep) rs err Hd) as (kaddr & d1 & p & -> & Hv & Hp & _);
    [by rewrite lookup_app_r, Nat.sub_diag by lia|]. cbn [rbind].
  destruct (last_byte_range d _ (length donep) Hd) as [Hl Hm]; [rewrite length_app; simpl; lia|].
  assert (Hmeta : ext2_last_byte k d1 (Z.of_nat (length donep)) = ext2_last_byte k d (Z.of_nat (length donep)) /\
    i_ino d1 = i_ino d).
  { destruct Hv as [[ps ->] _]. split; [apply last_byte_with_pages|by destruct d]. }
  destruct Hmeta as [-> Hino]. rewrite Hino. change (EXT2_DIR_REC_LEN 1) with 12.
  destruct (geo_sizes k sb) as (c & q & _ & _ & _ & _ & _ & HP & _). rewrite u32_id by lia.
  assert (Hok := Hp). destruct Hok as (_ & Hok & Hlen & _).
  assert (HE : each_entry k (page_fuel k) kaddr (ext2_last_byte k d (Z.of_nat (length donep)) - 12)
      (empty_entry (i_ino d) kaddr) (len (page_bytes [])) tt =
    Ok (if forallb (dot_entry (i_ino d)) rs then ScanEnd tt else ScanExit tt)).
  { rewrite (each_entry_spec k sb _ (fun _ r (_ : unit) => if dot_entry (i_ino d) r then inl tt else inr tt)
      kaddr (ext2_last_byte k d (Z.of_nat (length donep))) _ rs []);
      [|done|done|lia|intros ? r [] Hr; by apply empty_entry_spec|by apply (page_fuel_enough k sb _ _ [] _ Hp)].
    rewrite (fold_recs_all sb) by done. by rewrite fold_empty by lia. }
  change (len (page_bytes [])) with 0 in HE. rewrite HE.
  cbn [rbind]. simpl mjoin. rewrite forallb_app.
  destruct (forallb (dot_entry (i_ino d)) rs); [|by exists d1]. cbn [andb].
  destruct (IH (donep ++ [rs]) err d1) as (d2 & E2 & Hv2);
    [rewrite <- app_assoc; by apply (holds_view k sb d)|by rewrite Hino|].
  exists d2. split; [|by eapply view_le_trans]. rewrite length_app, Nat2Z.inj_add, Hino in E2. exact E2.
Qed.

Lemma empty_dir_spec d pss : holds_dir k sb d pss -> 0 <= i_ino d < 2 ^ 32 ->
  exists d', ext2_empty_dir k sb d = Ok (forallb (dot_entry (i_ino d)) (mjoin pss), d') /\ view_le k d d'.
Proof using G.
  intros Hd Hi. unfold ext2_empty_dir. rewrite <- (hd_pages _ _ _ _ Hd), Nat2Z.id.
  by apply (empty_pages_spec pss [] false d).
Qed.
End Find.
