(* ===== verification/Ext2DirWrite.v ===== *)
(** * ext2: changing directories

    [ext2_add_link], [ext2_delete_entry], [ext2_set_link] and [ext2_make_empty] on the
    records: the stores into a page are changes of its list of records, which stays
    valid, and the live entries change by exactly the one entry. *)

From S2P Require Import Prelude CString ByteMem Ext2Layout Ext2Dir Ext2DirPage Ext2DirRead Ext2DirFind.

Lemma encode_ext {F} (L : list (F * nat)) v v' : (forall f, v f = v' f) -> encode L v = encode L v'.
Proof. intros H. induction L as [|[f w] L IH]; simpl; [done|]. by rewrite H, IH. Qed.

Lemma len_encode v : len (encode ext2_dir_entry_2 v) = 8.
Proof. unfold len. by rewrite length_encode. Qed.

(** The stores that write a new entry over a header and the bytes after it. *)
Lemma fill_entry sb pre v body post name (inode : target) :
  len name <= len body -> v de_rec_len = 8 + len body ->
  (let* kaddr := de_set (pre ++ encode ext2_dir_entry_2 v ++ body ++ post) (len pre) de_name_len (len name) in
   let* kaddr := write_at kaddr (len pre + Z.of_nat DIRENT_HEADER) name in
   let* kaddr := de_set kaddr (len pre) de_inode (t_ino inode) in
   ext2_set_de_type sb kaddr (len pre) (t_mode inode)) =
  Ok (pre ++ drec_bytes (Drec (t_ino inode) (len name) (de_type_of sb (t_mode inode))
        (name ++ drop (length name) body)) ++ post).
Proof.
  intros Hn Hl. rewrite de_set_encode. cbn [rbind].
  set (v1 := upd v de_name_len (len name)).
  assert (Hw : write_at (pre ++ encode ext2_dir_entry_2 v1 ++ body ++ post) (len pre + Z.of_nat DIRENT_HEADER) name
    = Ok (pre ++ encode ext2_dir_entry_2 v1 ++ (name ++ drop (length name) body) ++ post)).
  { rewrite <- (take_drop (length name) body) at 1. rewrite <- !app_assoc.
    change (Z.of_nat DIRENT_HEADER) with 8. rewrite <- (len_encode v1), <- len_app.
    rewrite !(app_assoc pre). apply write_at_app. rewrite length_take. unfold len in Hn. lia. }
  rewrite Hw. cbn [rbind]. rewrite de_set_encode. cbn [rbind]. unfold ext2_set_de_type.
  rewrite de_set_encode. unfold drec_bytes. cbn [dr_body]. rewrite <- !app_assoc. do 3 f_equal.
  apply encode_ext. intros f. unfold v1, upd, drec_field, dr_len. cbn [dr_ino dr_name_len dr_type dr_body].
  destruct f; repeat (case_decide; try congruence).
  rewrite Hl, len_app. unfold len in *. rewrite length_drop. lia.
Qed.

Section Write.
Context (k : kernel) (sb : super) `{G : !Geometry k sb}.

Lemma to_disk_id l : 0 <= l < 65536 -> ext2_rec_len_to_disk k l = Ok l.
Proof using.
  intros Hl. unfold ext2_rec_len_to_disk. rewrite u16_id by lia.
  destruct (65536 <=? PAGE_SIZE k); [|done]. rewrite (proj2 (Z.eqb_neq _ _)), (proj2 (Z.ltb_ge _ _)) by lia. done.
Qed.

(** A free record, or the room after the name of a used one, takes the new entry. *)
Definition place (r : drec) (name : list byte) (inode : target) : list drec :=
  let fresh body := Drec (t_ino inode) (len name) (de_type_of sb (t_mode inode))
                      (name ++ drop (length name) body) in
  if dr_ino r =? 0 then [fresh (dr_body r)]
  else
    let n1 := Z.to_nat (EXT2_DIR_REC_LEN (dr_name_len r) - 8) in
    [Drec (dr_ino r) (dr_name_len r) (dr_type r) (take n1 (dr_body r));
     fresh (drop (n1 + 8) (dr_body r))].

(** The record has room for the name. *)
Definition has_room (r : drec) (name : list byte) : Prop :=
  let reclen := EXT2_DIR_REC_LEN (len name) in
  (dr_ino r = 0 /\ reclen <= dr_len r) \/ EXT2_DIR_REC_LEN (dr_name_len r) + reclen <= dr_len r.

Lemma add_entry_place pre r post name inode : in_range r -> rec_ok sb r -> dr_len r < 65535 ->
  has_room r name ->
  add_entry k sb (pre ++ drec_bytes r ++ post) (len pre) (EXT2_DIR_REC_LEN (dr_name_len r)) (dr_len r) name inode
  = Ok (pre ++ page_bytes (place r name inode) ++ post).
Proof using.
  intros Hi Hr Hl Hroom. unfold add_entry, place. rewrite de_get_rec by done. cbn [rbind drec_field].
  pose proof (rec_len_bound (len name) (len_nonneg name)) as Hb1. pose proof (len_nonneg name).
  assert (Hnl : 0 <= dr_name_len r) by apply Hr.
  pose proof (rec_len_bound (dr_name_len r) Hnl) as Hb2. unfold has_room in Hroom.
  destruct (Z.eqb_spec (dr_ino r) 0) as [E0|E0]; cbn [negb].
  - cbn [rbind]. unfold drec_bytes at 1. rewrite <- app_assoc, fill_entry;
      [|unfold dr_len in *; lia|done]. unfold page_bytes. simpl mjoin. by rewrite app_nil_r.
  - destruct Hroom as [[? _]|Hroom]; [done|].
    set (n1 := Z.to_nat (EXT2_DIR_REC_LEN (dr_name_len r) - 8)). set (l1 := EXT2_DIR_REC_LEN (dr_name_len r)) in *.
    rewrite !to_disk_id by lia. cbn [rbind].
    assert (Hbl : len (dr_body r) = dr_len r - 8) by (unfold dr_len; lia).
    assert (Hlt : len (take n1 (dr_body r)) = l1 - 8) by (unfold len in *; rewrite length_take; lia).
    destruct (encode_exists ext2_dir_entry_2 (take 8 (drop n1 (dr_body r)))) as (v & Hv & Hvr).
    { by apply (bool_decide_unpack _); vm_compute. }
    { rewrite length_take, length_drop. change (size_of ext2_dir_entry_2) with 8%nat. unfold len in *. lia. }
    assert (Hbody : dr_body r = take n1 (dr_body r) ++ encode ext2_dir_entry_2 v ++ drop (n1 + 8) (dr_body r))
      by (rewrite <- Hv, <- drop_drop, take_drop, take_drop; done).
    set (b1 := take n1 (dr_body r)) in *. set (b3 := drop (n1 + 8) (dr_body r)) in *.
    unfold drec_bytes at 1. rewrite Hbody. rewrite <- !app_assoc.
    rewrite !(app_assoc pre), !(app_assoc (pre ++ _)).
    set (pre2 := (pre ++ encode ext2_dir_entry_2 (drec_field r)) ++ b1).
    assert (Hp2 : len pre2 = len pre + l1) by (unfold pre2; rewrite !len_app, len_encode; lia).
    rewrite <- Hp2, de_set_encode. cbn [rbind].
    unfold pre2 at 1. rewrite <- !app_assoc, de_set_encode. cbn [rbind]. rewrite !(app_assoc pre), !(app_assoc (pre ++ _)).
    set (pre3 := (pre ++ _) ++ b1).
    assert (Hp3 : len pre3 = len pre2) by (unfold pre3, pre2; rewrite !len_app, !len_encode; lia).
    rewrite <- Hp3.
    assert (Hb3 : len b3 = dr_len r - l1 - 8).
    { apply (f_equal len) in Hbody. rewrite !len_app, len_encode in Hbody. lia. }
    rewrite fill_entry; [|lia|unfold upd; rewrite decide_True by done; lia].
    rewrite page_bytes_cons. replace (page_bytes [_]) with (drec_bytes (Drec (t_ino inode) (len name)
      (de_type_of sb (t_mode inode)) (name ++ drop (length name) b3))) by (unfold page_bytes; simpl; by rewrite app_nil_r).
    set (r2 := Drec (t_ino inode) _ _ _). unfold pre3. rewrite <- !app_assoc. do 2 f_equal.
    rewrite !app_assoc. do 2 f_equal. unfold drec_bytes. cbn [dr_body]. f_equal.
    apply encode_ext. intros f. unfold upd, drec_field, dr_len. cbn [dr_body dr_ino dr_name_len dr_type].
    destruct f; repeat (case_decide; try congruence). lia.
Qed.

(** ** The records after an entry has been placed *)

(** The inode that an entry may refer to, and the name it may have. *)
Definition valid_target (inode : target) : Prop := 0 < t_ino inode <= sb_inodes_count sb.
Definition valid_name (name : list byte) : Prop := 1 <= len name <= 255.

(** A live entry has a name. *)
Definition named (r : drec) : Prop := dr_ino r <> 0 -> 1 <= dr_name_len r.

Lemma de_type_range mode : 0 <= de_type_of sb mode < 2 ^ 8.
Proof using.
  unfold de_type_of. destruct (EXT2_HAS_INCOMPAT_FEATURE _ _); [|lia].
  unfold ext2_type_by_mode, EXT2_FT_DIR. repeat case_match; lia.
Qed.

Lemma in_chunk_within offs r o l :
  0 <= offs <= o -> 0 < l -> o + l <= offs + dr_len r -> in_chunk sb offs r ->
  (o + l - 1) / s_blocksize sb = o / s_blocksize sb.
Proof using G.
  intros Ho Hl Hle Hc. destruct (geo_sizes k sb) as (c & q & _ & _ & HB & _). unfold in_chunk in Hc.
  pose proof (Z.div_le_mono offs o (s_blocksize sb) ltac:(lia) ltac:(lia)).
  pose proof (Z.div_le_mono o (o + l - 1) (s_blocksize sb) ltac:(lia) ltac:(lia)).
  pose proof (Z.div_le_mono (o + l - 1) (offs + dr_len r - 1) (s_blocksize sb) ltac:(lia) ltac:(lia)). lia.
Qed.

Lemma fresh_rec_ok name inode body l : valid_name name -> valid_target inode ->
  l = 8 + len body -> l mod 4 = 0 -> EXT2_DIR_REC_LEN (len name) <= l ->
  let r := Drec (t_ino inode) (len name) (de_type_of sb (t_mode inode)) (name ++ drop (length name) body) in
  rec_ok sb r /\ dr_len r = l /\ dr_name r = name.
Proof using.
  intros Hn Ht Hl Hm Hle. pose proof (rec_len_bound (len name) (len_nonneg name)).
  pose proof (rec_len_min (len name)). unfold valid_name, valid_target in *.
  assert (E : len (name ++ drop (length name) body) = len body).
  { rewrite len_app. unfold len in *. rewrite length_drop. lia. }
  unfold rec_ok, dr_len, dr_name. cbn [dr_ino dr_name_len dr_type dr_body]. rewrite E, <- Hl.
  split; [repeat split; try apply de_type_range; lia|]. split; [done|].
  unfold len. by rewrite Nat2Z.id, take_app_length.
Qed.

Lemma place_ok offs r name inode : 0 <= offs -> rec_ok sb r -> in_chunk sb offs r -> named r ->
  has_room r name -> valid_name name -> valid_target inode ->
  recs_ok sb offs (place r name inode) /\ len (page_bytes (place r name inode)) = dr_len r /\
  Forall named (place r name inode) /\
  entries (place r name inode) ≡ₚ (name, t_ino inode) :: entries [r].
Proof using G.
  intros Ho Hr Hc Hnm Hroom Hn Ht. unfold place, has_room in *.
  assert (Hr0 := Hr). destruct Hr0 as (H1 & H2 & H3 & H4 & H5 & H6).
  pose proof (rec_len_bound (len name) (len_nonneg name)). pose proof (rec_len_bound (dr_name_len r) ltac:(lia)).
  unfold valid_name in Hn. assert (t_ino inode <> 0) by (unfold valid_target in Ht; lia).
  destruct (Z.eqb_spec (dr_ino r) 0) as [E0|E0].
  - destruct (fresh_rec_ok name inode (dr_body r) (dr_len r) Hn Ht) as (F1 & F2 & F3); [done|done|lia|].
    set (r' := Drec (t_ino inode) _ _ _) in *. split; [repeat split; auto; try apply F1|].
    + unfold in_chunk. by rewrite F2.
    + rewrite len_page_bytes_cons, F2. change (len (page_bytes [])) with 0. split; [lia|].
      split; [constructor; [|constructor]; intros _; simpl; lia|].
      unfold entries. rewrite filter_cons_True by done. rewrite filter_cons_False by tauto. simpl. by rewrite F3.
  - destruct Hroom as [[? _]|Hroom]; [done|]. specialize (Hnm E0).
    pose proof (rec_len_min (dr_name_len r) Hnm). pose proof (rec_len_mod4 (dr_name_len r) ltac:(lia)) as Hm1.
    set (l1 := EXT2_DIR_REC_LEN (dr_name_len r)) in *. set (n1 := Z.to_nat (l1 - 8)).
    assert (Hbl : len (dr_body r) = dr_len r - 8) by (unfold dr_len; lia).
    assert (Hb1 : len (take n1 (dr_body r)) = l1 - 8) by (unfold len in *; rewrite length_take; lia).
    assert (Hb3 : len (drop (n1 + 8) (dr_body r)) = dr_len r - l1 - 8) by (unfold len in *; rewrite length_drop; lia).
    destruct (fresh_rec_ok name inode (drop (n1 + 8) (dr_body r)) (dr_len r - l1) Hn Ht) as (F1 & F2 & F3);
      [lia|rewrite Zminus_mod, H4, Hm1; done|lia|].
    set (r2 := Drec (t_ino inode) _ _ _) in *. set (r1 := Drec (dr_ino r) _ _ _).
    assert (L1 : dr_len r1 = l1) by (unfold dr_len, r1; simpl; lia).
    assert (N1 : dr_name r1 = dr_name r).
    { unfold dr_name, r1. cbn [dr_body dr_name_len]. rewrite take_take. f_equal. lia. }
    split; [|split; [|split]].
    + simpl recs_ok. rewrite L1. split; [|split; [|split; [done|split; [|done]]]].
      * unfold rec_ok. rewrite L1. simpl. repeat split; lia.
      * unfold in_chunk. rewrite L1. apply (in_chunk_within offs r); auto; lia.
      * unfold in_chunk. rewrite F2. apply (in_chunk_within offs r); auto; lia.
    + rewrite !len_page_bytes_cons, L1, F2. change (len (page_bytes [])) with 0. lia.
    + repeat constructor; intros _; simpl; lia.
    + unfold entries. rewrite !filter_cons_True by done. simpl. rewrite N1, F3. apply Permutation_swap.
Qed.

(** ** Entries that keep their places *)

Lemma app_cons_split {A} (l1 l2 x : list A) c y : l1 ++ l2 = x ++ c :: y ->
  (exists y1, l1 = x ++ c :: y1 /\ y = y1 ++ l2) \/ (exists x2, x = l1 ++ x2 /\ l2 = x2 ++ c :: y).
Proof using.
  intros E. apply app_eq_inv in E as [(z & -> & E)|(z & -> & E)]; [|eauto].
  destruct z as [|c' z]; simpl in E; [right; exists []; by rewrite !app_nil_r|]. injection E as <- ->. eauto.
Qed.

(** The live records of [rs] are in [rs'] at the same offsets, except at [o]. *)
Definition keeps (o : Z) (rs rs' : list drec) : Prop :=
  forall ra rc rb, rs = ra ++ rc :: rb -> dr_ino rc <> 0 -> len (page_bytes ra) <> o ->
  exists ra' rc' rb', rs' = ra' ++ rc' :: rb' /\ len (page_bytes ra') = len (page_bytes ra) /\
    dr_name rc' = dr_name rc /\ dr_ino rc' = dr_ino rc.

Lemma keeps_refl o rs : keeps o rs rs.
Proof using. intros ra rc rb -> _ _. by exists ra, rc, rb. Qed.

Lemma keeps_weaken o rs rs' : keeps (-1) rs rs' -> keeps o rs rs'.
Proof using.
  intros H ra rc rb E Hi _. apply (H ra rc rb); auto. pose proof (len_nonneg (page_bytes ra)). lia.
Qed.

(** Only a part of the records changes. *)
Lemma keeps_middle o ra mid mid' rb : len (page_bytes mid') = len (page_bytes mid) ->
  keeps (o - len (page_bytes ra)) mid mid' -> keeps o (ra ++ mid ++ rb) (ra ++ mid' ++ rb).
Proof using.
  intros Hl Hk x rc y E Hi Ho. apply app_cons_split in E as [(y1 & -> & ->)|(x2 & -> & E)].
  { exists x, rc, (y1 ++ mid' ++ rb). by rewrite <- app_assoc. }
  rewrite page_bytes_app, len_app in Ho. apply app_cons_split in E as [(y1 & -> & ->)|(x3 & -> & ->)].
  - destruct (Hk x2 rc y1) as (ra' & rc' & rb' & -> & H1 & H2); [done|done|lia|].
    exists (ra ++ ra'), rc', (rb' ++ rb). rewrite <- !app_assoc. split; [done|].
    rewrite !page_bytes_app, !len_app. split; [lia|done].
  - exists (ra ++ mid' ++ x3), rc, y. rewrite <- !app_assoc. split; [done|].
    rewrite !page_bytes_app, !len_app. split; [lia|done].
Qed.

Lemma place_keeps r name inode : rec_ok sb r -> keeps (-1) [r] (place r name inode).
Proof using.
  intros Hr ra rc rb E Hi _. destruct ra as [|? ra]; [|by destruct ra]. injection E as <- <-.
  unfold place. rewrite (proj2 (Z.eqb_neq _ _)) by done.
  set (r1 := Drec (dr_ino r) _ _ _). eexists [], r1, _. split; [done|]. split; [done|]. split; [|done].
  unfold dr_name, r1. cbn [dr_body dr_name_len]. rewrite take_take. f_equal.
  assert (0 <= dr_name_len r) by apply Hr. pose proof (rec_len_bound (dr_name_len r) ltac:(done)). lia.
Qed.

(** ** The search for room in a page *)

(** Where the new entry goes: into a record, or into a new chunk at the end. *)
Definition room_at (name kaddr : list byte) (limit : Z) (rs : list drec) (r : room) : Prop :=
  match r with
  | GotIt de name_len rec_len kaddr' =>
      (exists ra rc rb, rs = ra ++ rc :: rb /\ de = len (page_bytes ra) /\ kaddr' = kaddr /\
         name_len = EXT2_DIR_REC_LEN (dr_name_len rc) /\ rec_len = dr_len rc /\ has_room rc name) \/
      (de = limit /\ name_len = 0 /\ rec_len = s_blocksize sb /\
       limit <= PAGE_SIZE k - EXT2_DIR_REC_LEN (len name) /\
       (let* kaddr := de_set kaddr limit de_rec_len (s_blocksize sb) in de_set kaddr limit de_inode 0) = Ok kaddr')
  | AddError err zero => err = - EEXIST /\ zero = false /\ Exists (fun r => is_match name r = true) rs
  | NoRoom => PAGE_SIZE k - EXT2_DIR_REC_LEN (len name) < limit
  end.

Lemma header_sets kaddr limit : 0 <= limit -> limit + 8 <= len kaddr -> forall x y,
  exists kaddr', (let* kaddr := de_set kaddr limit de_rec_len x in de_set kaddr limit de_inode y) = Ok kaddr'.
Proof using.
  intros H1 H2 x y. destruct (header_at kaddr limit H1 H2) as (pre & v & rest & -> & <- & _).
  rewrite de_set_encode. cbn [rbind]. rewrite de_set_encode. by eexists.
Qed.

Lemma add_scan_spec name kaddr limit rs2 : valid_name name -> limit mod s_blocksize sb = 0 ->
  0 <= limit <= PAGE_SIZE k -> forall rs1 fuel, page_holds k sb kaddr limit (rs1 ++ rs2) ->
  (length rs2 < fuel)%nat ->
  exists r, add_scan k sb fuel name kaddr limit (len (page_bytes rs1)) = Ok r /\
    room_at name kaddr limit (rs1 ++ rs2) r.
Proof using G.
  intros Hn Hm Hl. unfold valid_name in Hn. destruct (geo_sizes k sb) as (c & q & _ & _ & HB & _ & _ & HP & _).
  pose proof (rec_len_bound (len name) ltac:(lia)).
  induction rs2 as [|r rs2 IH]; intros rs1 fuel Hp Hf; (destruct fuel as [|fuel]; [simpl in Hf; lia|]);
    cbn [add_scan]; assert (Hp0 := Hp); destruct Hp0 as (Hk & Hok & Hlen & _).
  - rewrite app_nil_r in *. rewrite Hlen.
    destruct (Z.leb_spec limit (PAGE_SIZE k - EXT2_DIR_REC_LEN (len name))) as [Hle|Hgt]; cbn [negb];
      [|by exists NoRoom].
    rewrite Z.eqb_refl. unfold ext2_chunk_size. rewrite to_disk_id by lia. cbn [rbind].
    destruct (header_sets kaddr limit ltac:(lia) ltac:(lia) (s_blocksize sb) 0) as (kaddr' & E).
    exists (GotIt limit 0 (s_blocksize sb) kaddr'). rewrite (u16_id (s_blocksize sb)) by lia. split.
    + apply rbind_Ok in E as (k1 & -> & E2). cbn [rbind]. by rewrite E2.
    + right. done.
  - destruct (page_at_rec k sb kaddr limit rs1 r rs2 Hp Hm) as [Hr Hc]. pose proof (at_rec_len sb _ _ _ Hr).
    rewrite page_bytes_app, len_app, len_page_bytes_cons in Hlen. pose proof (len_nonneg (page_bytes rs2)).
    destruct (Z.leb_spec (len (page_bytes rs1)) (PAGE_SIZE k - EXT2_DIR_REC_LEN (len name))); cbn [negb];
      [|exists NoRoom; split; [done|simpl; lia]].
    rewrite (proj2 (Z.eqb_neq _ _)) by lia. rewrite !(at_rec_get sb _ _ r) by done. cbn [rbind drec_field].
    rewrite (proj2 (Z.eqb_neq _ _)) by lia. rewrite (ext2_match_spec sb name _ _ r Hr). cbn [rbind].
    destruct (is_match name r) eqn:Em.
    { eexists. split; [done|]. split; [done|]. split; [done|]. apply Exists_app. right. by constructor. }
    assert (Hr2 := Hr). destruct Hr2 as (_&_&_&_&(_&Hnl&_&_&_&_)&Hrange&Hl2).
    pose proof (rec_len_bound (dr_name_len r) ltac:(lia)).
    rewrite (from_disk_id k) by done. rewrite (u16_id (dr_len r)), (u16_id (EXT2_DIR_REC_LEN (dr_name_len r))) by lia.
    destruct (Z.eqb_spec (dr_ino r) 0) as [E0|E0], (Z.leb_spec (EXT2_DIR_REC_LEN (len name)) (dr_len r)) as [E1|E1];
      cbn [andb].
    1: { eexists. split; [done|]. left. exists rs1, r, rs2. unfold has_room. auto 10. }
    all: destruct (Z.leb_spec (EXT2_DIR_REC_LEN (dr_name_len r) + EXT2_DIR_REC_LEN (len name)) (dr_len r)) as [E2|E2];
      [eexists; split; [done|]; left; exists rs1, r, rs2; unfold has_room; auto 10|].
    all: rewrite <- page_bytes_snoc, (cons_middle r rs1 rs2), (app_assoc rs1); apply (IH (rs1 ++ [r]));
      [by rewrite <- app_assoc|simpl in Hf; lia].
Qed.

(** ** The page after an entry has been added *)

(** A new chunk takes the entry. *)
Lemma add_entry_chunk kaddr kaddr' limit rs name inode : valid_name name -> valid_target inode ->
  page_holds k sb kaddr limit rs -> limit mod s_blocksize sb = 0 -> limit + s_blocksize sb <= PAGE_SIZE k ->
  (let* kaddr := de_set kaddr limit de_rec_len (s_blocksize sb) in de_set kaddr limit de_inode 0) = Ok kaddr' ->
  exists kaddr2 r, add_entry k sb kaddr' limit 0 (s_blocksize sb) name inode = Ok kaddr2 /\
    page_holds k sb kaddr2 (limit + s_blocksize sb) (rs ++ [r]) /\ named r /\
    entries [r] = [(name, t_ino inode)].
Proof using G.
  intros Hn Ht (Hk & Hok & Hlen & post & ->) Hm Hle Hset. rewrite <- Hlen in Hset |- *.
  destruct (geo_sizes k sb) as (c & q & _ & _ & HB & _). unfold valid_name in Hn.
  rewrite len_app in Hk.
  destruct (header_at post 0 ltac:(lia) ltac:(lia)) as (pre & v & rest & Epost & Hpre & Hrest & Hv).
  destruct pre; [|unfold len in Hpre; simpl in Hpre; lia]. rewrite app_nil_l in Epost. subst post.
  rewrite de_set_encode in Hset. cbn [rbind] in Hset. rewrite de_set_encode in Hset. apply (inj Ok) in Hset as <-.
  set (n := Z.to_nat (s_blocksize sb - 8)). rewrite <- (take_drop n rest).
  unfold add_entry. rewrite de_get_encode; cycle 1.
  { intros f. unfold upd. destruct f; repeat case_decide; try congruence; try apply Hv; simpl; lia. }
  cbn [rbind]. unfold upd at 1. rewrite decide_True by done. cbn [negb Z.eqb rbind].
  assert (Hn1 : len (take n rest) = s_blocksize sb - 8).
  { rewrite len_app, len_encode in Hk. unfold len in *. rewrite length_take. lia. }
  pose proof (rec_len_bound (len name) ltac:(lia)).
  rewrite fill_entry; [|lia|unfold upd; rewrite decide_False, decide_True by done; lia].
  destruct (fresh_rec_ok name inode (take n rest) (s_blocksize sb) Hn Ht) as (F1 & F2 & F3); [lia| |lia|].
  { destruct geo_chunk as (c' & -> & Hc' & _). replace c' with (2 + (c' - 2)) by lia.
    rewrite Z.pow_add_r by lia. change (2 ^ 2) with 4. rewrite Z.mul_comm. apply Z.mod_mul. lia. }
  set (r := Drec (t_ino inode) _ _ _) in *. eexists _, r. split; [done|].
  assert (Hno : dr_ino r <> 0) by (unfold valid_target in Ht; simpl; lia).
  split; [|split; [intros _; simpl; lia|unfold entries; rewrite filter_cons_True by done; simpl; by rewrite F3]].
  split; [|split; [|split]].
  - rewrite !len_app, len_drec_bytes, F2. rewrite len_app, len_encode in Hk. pose proof (len_app (take n rest) (drop n rest)) as La.
    rewrite take_drop in La. lia.
  - apply recs_ok_app. split; [done|]. repeat split; try apply F1. unfold in_chunk. rewrite F2, Z.add_0_l.
    rewrite Hlen. apply Z.mod_divide in Hm as [z ->]; [|lia].
    replace (z * s_blocksize sb + s_blocksize sb - 1) with (s_blocksize sb - 1 + z * s_blocksize sb) by lia.
    rewrite Z.div_add, Z.div_mul, Z.div_small by lia. lia.
  - by rewrite page_bytes_snoc, F2.
  - exists (drop n rest). rewrite page_bytes_app, page_bytes_cons, <- !app_assoc. done.
Qed.

(** A record is replaced by others of the same length. *)
Lemma page_replace kaddr limit ra r rb new : page_holds k sb kaddr limit (ra ++ r :: rb) ->
  recs_ok sb (len (page_bytes ra)) new -> len (page_bytes new) = dr_len r ->
  exists pre post, kaddr = pre ++ drec_bytes r ++ post /\ len pre = len (page_bytes ra) /\
    page_holds k sb (pre ++ page_bytes new ++ post) limit (ra ++ new ++ rb).
Proof using.
  intros (Hk & Hok & Hlen & post & ->) Hnew Hl. exists (page_bytes ra), (page_bytes rb ++ post).
  split; [by rewrite page_bytes_app, page_bytes_cons, <- !app_assoc|]. split; [done|].
  rewrite page_bytes_app, page_bytes_cons in Hk, Hlen. rewrite !len_app, len_drec_bytes in Hk. rewrite !len_app, len_drec_bytes in Hlen.
  apply recs_ok_app in Hok as [Hok1 Hok2]. destruct Hok2 as (_ & _ & Hok2).
  split; [|split; [|split]].
  - rewrite !len_app. lia.
  - rewrite !recs_ok_app. split; [done|]. split; [done|]. by rewrite Hl.
  - rewrite !page_bytes_app, !len_app. lia.
  - exists post. by rewrite !page_bytes_app, <- !app_assoc.
Qed.
End Write.
