(* ===== verification/Ext2DirUpdate.v ===== *)
(** * ext2: the directory after a change

    The functions of [fs/ext2/dir.c] that change a directory, on the abstract
    directory: the pages stay valid and the live entries change by the one entry. *)

From S2P Require Import Prelude CString ByteMem Ext2Layout Ext2Dir Ext2DirPage Ext2DirRead Ext2DirFind Ext2DirWrite.

Section Update.
Context (k : kernel) (sb : super) `{G : !Geometry k sb}.

(** ** States with the same pages *)

Lemma holds_ext d d' pss : i_size d' = i_size d -> i_pages d' = i_pages d ->
  holds_dir k sb d pss -> holds_dir k sb d' pss.
Proof using.
  intros Es Ep [[H1 H1'] H2 H3]. split; [unfold size_ok; by rewrite Es|by rewrite Es|].
  intros n rs E. destruct (H3 n rs E) as (kaddr & Hr & Hp). exists kaddr.
  unfold readable, ext2_last_byte in *. by rewrite Es, Ep.
Qed.

(** What [ext2_commit_chunk] and the bookkeeping after it leave as it is. *)
Lemma commit_size d pos l err d' : ext2_commit_chunk k d pos l = (err, d') ->
  i_size d' = Z.max (i_size d) (pos + l) /\ i_pages d' = i_pages d.
Proof using.
  unfold ext2_commit_chunk. intros [= _ <-]. destruct d; simpl.
  destruct (Z.ltb_spec i_size (pos + l)); simpl; split; lia || done.
Qed.

Lemma bookkeeping_size d t : i_size (clear_btree k (with_times t d)) = i_size d /\
  i_pages (clear_btree k (with_times t d)) = i_pages d.
Proof using. by destruct d. Qed.

(** ** Changing the data of a page *)

Lemma set_data_pages d n p kaddr : i_pages d !! n = Some p ->
  i_pages (set_data n kaddr d) = <[n := Page kaddr (p_checked p) (p_error p)]> (i_pages d) /\
  i_size (set_data n kaddr d) = i_size d.
Proof using. intros E. unfold set_data. rewrite E. by destruct d. Qed.

Lemma set_data_twice d n k1 k2 : set_data n k2 (set_data n k1 d) = set_data n k2 d.
Proof using.
  unfold set_data. destruct (i_pages d !! n) as [p|] eqn:E; [|by rewrite E].
  destruct d; simpl in *. rewrite lookup_insert_eq. simpl. by rewrite insert_insert_eq.
Qed.

Lemma update_page d pss n rs rs' p kaddr : holds_dir k sb d pss -> pss !! n = Some rs ->
  i_pages d !! Z.of_nat n = Some p -> p_checked p = true ->
  page_holds k sb kaddr (ext2_last_byte k d (Z.of_nat n)) rs' ->
  holds_dir k sb (set_data (Z.of_nat n) kaddr d) (<[n := rs']> pss).
Proof using.
  intros Hd E Ep Hc Hp. destruct (set_data_pages d _ p kaddr Ep) as [Epg Es].
  assert (Hlb : forall m, ext2_last_byte k (set_data (Z.of_nat n) kaddr d) m = ext2_last_byte k d m)
    by (intros m; unfold ext2_last_byte; by rewrite Es).
  split; [unfold size_ok; rewrite Es; apply Hd|rewrite length_insert, Es; apply Hd|].
  intros m rsm Em. rewrite Hlb. unfold readable. rewrite Epg.
  destruct (decide (m = n)) as [->|Hne].
  - rewrite list_lookup_insert_eq in Em by (by eapply lookup_lt_Some). injection Em as <-.
    exists kaddr. rewrite lookup_insert_eq. simpl. auto.
  - rewrite list_lookup_insert_ne in Em by done. destruct (hd_page _ _ _ _ Hd m rsm Em) as (ka & Hr & Hpm).
    exists ka. rewrite lookup_insert_ne by lia. auto.
Qed.

(** The page at the end of the directory, which is new when the last one is full. *)
Lemma end_page d pss n : holds_dir k sb d pss -> n * PAGE_SIZE k <= i_size d < (n + 1) * PAGE_SIZE k ->
  dir_pages k (i_size d + s_blocksize sb) = n + 1 /\
  Z.of_nat (length pss) = (if i_size d =? n * PAGE_SIZE k then n else n + 1) /\
  i_size d + s_blocksize sb <= (n + 1) * PAGE_SIZE k.
Proof using G.
  intros Hd Hn. destruct (hd_size _ _ _ _ Hd) as [Hs Hm].
  destruct (geo_sizes k sb) as (c & q & _ & _ & HB & Hq & Hq0 & _).
  assert (HP : 0 < PAGE_SIZE k) by nia.
  assert (Hle : i_size d + s_blocksize sb <= (n + 1) * PAGE_SIZE k).
  { rewrite Hq in *. apply Z.mod_divide in Hm as [z Hz]; [|lia]. rewrite Hz in *.
    assert (z < (n + 1) * q) by nia. nia. }
  rewrite (hd_pages _ _ _ _ Hd), !(geo_dir_pages (sb := sb)) by lia. split; [|split; [|done]].
  - symmetry. apply (Z.div_unique _ _ _ (i_size d + s_blocksize sb - 1 - n * PAGE_SIZE k)); lia.
  - destruct (Z.eqb_spec (i_size d) (n * PAGE_SIZE k)) as [->|]; symmetry.
    + apply (Z.div_unique _ _ _ (PAGE_SIZE k - 1)); lia.
    + apply (Z.div_unique _ _ _ (i_size d - 1 - n * PAGE_SIZE k)); lia.
Qed.

(** The directory grows by a chunk at the end of the page [n]. *)
Lemma extend_page d d' pss n rs p : holds_dir k sb d pss ->
  Z.of_nat n * PAGE_SIZE k <= i_size d < (Z.of_nat n + 1) * PAGE_SIZE k ->
  i_size d + s_blocksize sb < 2 ^ 32 ->
  i_size d' = i_size d + s_blocksize sb -> i_pages d' = <[Z.of_nat n := p]> (i_pages d) ->
  p_checked p = true -> page_holds k sb (p_data p) (ext2_last_byte k d (Z.of_nat n) + s_blocksize sb) rs ->
  holds_dir k sb d' (take n pss ++ [rs]).
Proof using G.
  intros Hd Hn Hlt Es Epg Hc Hp. destruct (end_page d pss (Z.of_nat n) Hd Hn) as (E1 & E2 & E3).
  destruct (hd_size _ _ _ _ Hd) as [Hs Hm]. destruct (geo_sizes k sb) as (c & q & _ & _ & HB & Hq & Hq0 & _).
  assert (Hlen : length (take n pss) = n) by (rewrite length_take; destruct (i_size d =? _); lia).
  assert (Hs' : size_ok sb d').
  { split; [lia|]. rewrite Es. rewrite <- Zplus_mod_idemp_l, Hm, Z.add_0_l. apply Z.mod_same. lia. }
  split; [done|rewrite length_app, Hlen, Es, E1; simpl; lia|].
  intros m rsm Em. unfold readable. rewrite Epg. apply lookup_app_Some in Em as [Em|[Hge Em]].
  - assert (Hm1 : (m < n)%nat) by (apply lookup_lt_Some in Em; lia).
    rewrite lookup_take_lt in Em by done. destruct (hd_page _ _ _ _ Hd m rsm Em) as (ka & Hr & Hpm).
    exists ka. rewrite lookup_insert_ne by lia. split; [done|].
    rewrite (last_byte_min k sb) in Hpm |- * by (try apply Hd; try done; nia). rewrite Es.
    rewrite !Z.min_l in * by nia. done.
  - rewrite Hlen in *. destruct (m - n)%nat as [|?] eqn:Emn; [|done]. injection Em as <-.
    replace m with n by lia. exists (p_data p). rewrite lookup_insert_eq. split; [auto|].
    rewrite (last_byte_min k sb) in Hp |- * by (try apply Hd; try done; nia).
    rewrite Es. rewrite Z.min_r in Hp by lia. rewrite Z.min_r by lia.
    by replace (i_size d + s_blocksize sb - Z.of_nat n * PAGE_SIZE k)
      with (i_size d - Z.of_nat n * PAGE_SIZE k + s_blocksize sb) by lia.
Qed.

(** ** [ext2_add_link] *)

(** Page [n] is in the cache and holds [rs]: a page of the directory, or the one after
    the last when that is full. *)
Definition page_here (d : dir) (pss : list (list drec)) (n : nat) (rs : list drec) (p : page) : Prop :=
  i_pages d !! Z.of_nat n = Some p /\ p_checked p = true /\
  page_holds k sb (p_data p) (ext2_last_byte k d (Z.of_nat n)) rs /\
  Z.of_nat n * PAGE_SIZE k <= i_size d /\
  (pss !! n = Some rs \/ (n = length pss /\ rs = [] /\ i_size d = Z.of_nat n * PAGE_SIZE k)).

(** The entry that [ext2_find_entry] has returned. *)
Definition rec_here (d : dir) (pss : list (list drec)) (n : nat) (ra : list drec) (rc : drec) (rb : list drec)
    (p : page) : Prop :=
  pss !! n = Some (ra ++ rc :: rb) /\ i_pages d !! Z.of_nat n = Some p /\ p_checked p = true /\
  page_holds k sb (p_data p) (ext2_last_byte k d (Z.of_nat n)) (ra ++ rc :: rb).

(** The live entries are still where they were, except at offset [o] of page [m], and the
    pages that have been looked at are still in the cache. *)
Definition kept (m : nat) (o : Z) (d : dir) (pss : list (list drec)) (d' : dir) (pss' : list (list drec)) : Prop :=
  (forall n p, i_pages d !! n = Some p -> p_checked p = true ->
     exists p', i_pages d' !! n = Some p' /\ p_checked p' = true) /\
  (forall n rs, pss !! n = Some rs -> exists rs', pss' !! n = Some rs' /\
     keeps (if decide (n = m) then o else -1) rs rs').

Lemma checked_here d pss n ra rc rb p : holds_dir k sb d pss -> pss !! n = Some (ra ++ rc :: rb) ->
  i_pages d !! Z.of_nat n = Some p -> p_checked p = true -> rec_here d pss n ra rc rb p.
Proof using.
  intros Hd E Ep Hc. split; [done|]. split; [done|]. split; [done|].
  destruct (hd_page _ _ _ _ Hd n _ E) as (kaddr & Hr & Hp). unfold readable in Hr. rewrite Ep in Hr. by destruct Hr as [<- _].
Qed.

Definition commit_err : Z := match dirsync k with Some err => err | None => 0 end.

(** The blocks of the directory cover its size, and every page can be read. *)
Definition blocks_ok (d : dir) : Prop := i_size d <= 512 * i_blocks d.
Definition all_readable (d : dir) : Prop :=
  forall n, 0 <= n -> exists kaddr, readable k d n kaddr /\ len kaddr = PAGE_SIZE k.

(** What a change of the entries leaves as it is. *)
Definition same_ids (d d' : dir) : Prop :=
  i_ino d' = i_ino d /\ i_mode d' = i_mode d /\ i_dir_start_lookup d' = i_dir_start_lookup d /\
  (blocks_ok d -> blocks_ok d').

(** The directory after records of a page have changed and the chunk at [pos] is written. *)
Definition rewritten (d : dir) (n : Z) (kaddr : list byte) (pos l : Z) (d' : dir) : Prop :=
  i_size d' = Z.max (i_size d) (pos + l) /\ i_pages d' = i_pages (set_data n kaddr d) /\
  (pos + l <= i_size d \/ pos = i_size d -> same_ids d d').

Lemma set_data_ids n kaddr d : let d' := set_data n kaddr d in
  i_ino d' = i_ino d /\ i_mode d' = i_mode d /\ i_dir_start_lookup d' = i_dir_start_lookup d /\
  i_blocks d' = i_blocks d /\ i_size d' = i_size d.
Proof using. unfold set_data. destruct (i_pages d !! n); by destruct d. Qed.

Lemma with_blocks_set_data b n kaddr d : set_data n kaddr (with_blocks b d) = with_blocks b (set_data n kaddr d).
Proof using. unfold set_data. destruct d; simpl. by destruct (i_pages !! n). Qed.

(** The stores of a change, between the preparation of the chunk and its writing. *)
Lemma write_chunk d n kaddr pos l d1 d' err :
  ext2_prepare_chunk k d pos l = (0, d1) -> ext2_commit_chunk k (set_data n kaddr d1) pos l = (err, d') ->
  err = commit_err /\ rewritten d n kaddr pos l d'.
Proof using G.
  unfold ext2_prepare_chunk. pose proof (geo_sectors (sb := sb) (i_size d) pos l) as Hg.
  destruct (block_write_begin k (i_size d) pos l) as [e sec]. intros [= -> <-].
  cbn [Z.eqb]. rewrite with_blocks_set_data. destruct (set_data_ids n kaddr d) as (I1 & I2 & I3 & I4 & I5).
  unfold ext2_commit_chunk. intros [= <- <-]. split; [done|].
  unfold rewritten, same_ids, blocks_ok. rewrite <- I1, <- I2, <- I3, <- I4, <- I5 in *. clear I1 I2 I3 I4 I5.
  set (d2 := set_data n kaddr d) in *. clearbody d2. destruct d2; simpl in *.
  destruct (Z.ltb_spec i_size (pos + l)); simpl; repeat split; try lia.
Qed.

(** The bookkeeping after it. *)
Lemma rewritten_stamp d n kaddr pos l d' bt : rewritten d n kaddr pos l d' ->
  rewritten d n kaddr pos l (clear_btree k (if bt : bool then with_times (current_time k) d' else d')).
Proof using. unfold rewritten, same_ids, blocks_ok. by destruct d', bt. Qed.

Lemma rewritten_readable d n kaddr pos l d' p : rewritten d n kaddr pos l d' -> i_pages d !! n = Some p ->
  p_checked p = true \/ p_error p = false -> len kaddr = PAGE_SIZE k -> all_readable d -> all_readable d'.
Proof using.
  intros (_ & Epg & _) Ep Hc Hl Ha m Hm. unfold readable. rewrite Epg.
  destruct (set_data_pages d n p kaddr Ep) as [-> _].
  destruct (decide (m = n)) as [->|]; [exists kaddr; rewrite lookup_insert_eq; simpl; auto|].
  rewrite lookup_insert_ne by done. apply (Ha m Hm).
Qed.

(** What becomes of the directory: it has the new entry. *)
Definition added (d : dir) (pss : list (list drec)) (name : list byte) (inode : target) (d' : dir) : Prop :=
  exists pss', holds_dir k sb d' pss' /\ Forall named (mjoin pss') /\
    entries (mjoin pss') ≡ₚ (name, t_ino inode) :: entries (mjoin pss) /\
    kept 0 (-1) d pss d' pss' /\ same_ids d d' /\ i_size d <= i_size d' <= i_size d + s_blocksize sb /\
    (all_readable d -> all_readable d').

Lemma set_data_checked n kaddr d d' : i_pages d' = i_pages (set_data n kaddr d) ->
  forall m p, i_pages d !! m = Some p -> p_checked p = true ->
  exists p', i_pages d' !! m = Some p' /\ p_checked p' = true.
Proof using.
  intros -> m p Ep Hc. unfold set_data. destruct (i_pages d !! n) as [q|] eqn:Eq; [|eauto].
  replace (i_pages (with_pages _ d)) with (<[n := Page kaddr (p_checked q) (p_error q)]> (i_pages d)) by by destruct d.
  destruct (decide (m = n)) as [->|]; [|rewrite lookup_insert_ne by done; eauto].
  rewrite lookup_insert_eq. eexists. split; [done|]. simpl. congruence.
Qed.

Lemma mjoin_insert (pss : list (list drec)) n rs rs' : pss !! n = Some rs ->
  mjoin (<[n := rs']> pss) = mjoin (take n pss) ++ rs' ++ mjoin (drop (S n) pss) /\
  mjoin pss = mjoin (take n pss) ++ rs ++ mjoin (drop (S n) pss).
Proof using.
  intros E. split; [rewrite insert_take_drop by (by eapply lookup_lt_Some)|rewrite <- (take_drop_middle pss n rs E) at 1];
    rewrite join_app; done.
Qed.

Lemma add_into_record d pss n ra rc rb p name inode : holds_dir k sb d pss -> Forall named (mjoin pss) ->
  page_here d pss n (ra ++ rc :: rb) p -> has_room rc name -> valid_name name -> valid_target sb inode ->
  exists kaddr', add_entry k sb (p_data p) (len (page_bytes ra)) (EXT2_DIR_REC_LEN (dr_name_len rc)) (dr_len rc) name inode
      = Ok kaddr' /\
    forall d', rewritten d (Z.of_nat n) kaddr' (page_offset k (Z.of_nat n) + len (page_bytes ra)) (dr_len rc) d' ->
      added d pss name inode d'.
Proof using G.
  intros Hd Hnm (Ep & Hc & Hp & Hle & Hor) Hroom Hn Ht.
  destruct Hor as [E|(_ & E & _)]; [|by destruct ra]. destruct (geo_sizes k sb) as (c & q & _ & _ & HB & _ & _ & HP & HS & HPS).
  destruct (last_byte_range k sb d pss n Hd (lookup_lt_Some _ _ _ E)) as [Hl Hm].
  destruct (page_at_rec k sb _ _ ra rc rb Hp Hm) as [Ha Hch]. destruct (mjoin_insert pss n _ (ra ++ place sb rc name inode ++ rb) E) as [E1 E2].
  assert (Hnc : named rc).
  { rewrite E2, !Forall_app, Forall_cons in Hnm. tauto. }
  assert (Hrc : rec_ok sb rc) by (destruct Ha as (?&?&?&?&?&?); done).
  destruct (place_ok k sb (len (page_bytes ra)) rc name inode) as (P1 & P2 & P3 & P4); auto with posix.
  destruct (page_replace k sb (p_data p) _ ra rc rb (place sb rc name inode) Hp P1 P2) as (pre & post & Ek & Hpre & Hp').
  exists (pre ++ page_bytes (place sb rc name inode) ++ post). split.
  { rewrite Ek, <- Hpre. destruct Ha as (_&_&_&_&_&?&?). by apply add_entry_place. }
  intros d' Hrw. assert (Hrw0 := Hrw). destruct Hrw0 as (Es & Epg & Hids).
  pose proof (update_page d pss n _ _ p _ Hd E Ep Hc Hp') as Hu.
  destruct (set_data_pages d _ p (pre ++ page_bytes (place sb rc name inode) ++ post) Ep) as [_ Es0].
  assert (Hmax : Z.max (i_size d) (page_offset k (Z.of_nat n) + len (page_bytes ra) + dr_len rc) = i_size d).
  { apply Z.max_l. unfold page_offset. rewrite Z.shiftl_mul_pow2, <- HPS by lia.
    destruct Hp as (_ & _ & Hlen & _). rewrite (last_byte_min k sb) in Hlen by (apply Hd || lia).
    rewrite page_bytes_app, len_app, len_page_bytes_cons in Hlen. pose proof (len_nonneg (page_bytes rb)). lia. }
  rewrite Hmax in Es.
  assert (Hd' : holds_dir k sb d' (<[n := ra ++ place sb rc name inode ++ rb]> pss))
    by (eapply holds_ext; [|exact Epg|exact Hu]; congruence).
  exists (<[n := ra ++ place sb rc name inode ++ rb]> pss). split; [done|]. split; [|split; [|split; [|split; [|split]]]].
  - rewrite E1. rewrite E2 in Hnm. rewrite !Forall_app in *. rewrite Forall_cons in Hnm. tauto.
  - rewrite E1, E2, !entries_app, P4. change (rc :: rb) with ([rc] ++ rb). rewrite entries_app.
    cbn [app]. rewrite <- (Permutation_middle (entries ra)). cbn [app]. by rewrite <- Permutation_middle.
  - split; [by eapply set_data_checked|]. intros m rs Em. destruct (decide (m = n)) as [->|Hne].
    + rewrite list_lookup_insert_eq by (by eapply lookup_lt_Some). eexists. split; [done|].
      replace rs with (ra ++ [rc] ++ rb) by (simpl; congruence). case_decide; (apply keeps_middle;
        [by rewrite page_bytes_one, len_drec_bytes|]); by apply keeps_weaken, place_keeps.
    + rewrite list_lookup_insert_ne by done. eauto using keeps_refl.
  - apply Hids. lia.
  - lia.
  - eapply rewritten_readable; [done|done|by left|apply Hp'].
Qed.

Lemma add_into_chunk d pss n rs p kaddr' name inode : holds_dir k sb d pss -> Forall named (mjoin pss) ->
  page_here d pss n rs p -> valid_name name -> valid_target sb inode -> i_size d + s_blocksize sb < 2 ^ 32 ->
  let limit := ext2_last_byte k d (Z.of_nat n) in
  limit <= PAGE_SIZE k - EXT2_DIR_REC_LEN (len name) ->
  (let* kaddr := de_set (p_data p) limit de_rec_len (s_blocksize sb) in de_set kaddr limit de_inode 0) = Ok kaddr' ->
  exists kaddr2, add_entry k sb kaddr' limit 0 (s_blocksize sb) name inode = Ok kaddr2 /\
    forall d', rewritten d (Z.of_nat n) kaddr2 (page_offset k (Z.of_nat n) + limit) (s_blocksize sb) d' ->
      added d pss name inode d'.
Proof using G.
  intros Hd Hnm (Ep & Hc & Hp & Hle & Hor) Hn Ht Hlt limit Hlim Hset.
  destruct (geo_sizes k sb) as (c & q & _ & _ & HB & Hq & Hq0 & HP & HS & HPS).
  assert (Hm : limit mod s_blocksize sb = 0) by (apply (last_byte_mod k sb); [apply Hd|lia|done]).
  unfold valid_name in Hn. pose proof (rec_len_min (len name) ltac:(lia)).
  assert (El : limit = i_size d - Z.of_nat n * PAGE_SIZE k).
  { unfold limit in *. rewrite (last_byte_min k sb) in * by (apply Hd || lia). lia. }
  assert (Hn1 : Z.of_nat n * PAGE_SIZE k <= i_size d < (Z.of_nat n + 1) * PAGE_SIZE k) by lia.
  destruct (end_page d pss (Z.of_nat n) Hd Hn1) as (E1 & E2 & E3).
  destruct (add_entry_chunk k sb (p_data p) kaddr' limit rs name inode Hn Ht Hp Hm ltac:(lia) Hset)
    as (kaddr2 & r & Ea & Hp2 & Hnr & Her).
  exists kaddr2. split; [done|]. intros d' Hrw. assert (Hrw0 := Hrw). destruct Hrw0 as (Es & Epg & Hids).
  destruct (set_data_pages d _ p kaddr2 Ep) as [Epg0 Es0].
  assert (Hrs : mjoin pss = mjoin (take n pss) ++ rs).
  { destruct Hor as [E|(-> & -> & _)]; [|by rewrite take_ge, app_nil_r by lia].
    destruct (mjoin_insert pss n rs rs E) as [_ ->]. rewrite (drop_ge pss (S n)); [by rewrite app_nil_r|].
    apply lookup_lt_Some in E. destruct (i_size d =? _); lia. }
  assert (Es' : i_size d' = i_size d + s_blocksize sb).
  { rewrite Es. unfold page_offset. rewrite Z.shiftl_mul_pow2, <- HPS by lia. lia. }
  assert (Hd' : holds_dir k sb d' (take n pss ++ [rs ++ [r]])).
  { apply (extend_page d _ pss n _ (Page kaddr2 (p_checked p) (p_error p))); auto. by rewrite Epg, Epg0. }
  exists (take n pss ++ [rs ++ [r]]). split; [done|]. split; [|split; [|split; [|split; [|split]]]].
  - rewrite join_app. rewrite Hrs in Hnm. simpl mjoin. rewrite app_nil_r, !Forall_app in *. rewrite Forall_singleton. tauto.
  - rewrite join_app, Hrs. simpl mjoin. rewrite app_nil_r, !entries_app, Her.
    rewrite app_assoc. apply Permutation_app_comm.
  - split; [by eapply set_data_checked|]. intros m rsm Em.
    assert (Hnl : (n <= length pss)%nat) by (destruct (i_size d =? _); lia). pose proof (lookup_lt_Some _ _ _ Em).
    destruct (decide (m = n)) as [->|Hne].
    + destruct Hor as [E|(-> & _)]; [|lia]. rewrite lookup_app_r, length_take_le, Nat.sub_diag by (rewrite ?length_take; lia).
      eexists. split; [done|]. replace rsm with rs by congruence.
      intros x rc y -> _ _. exists x, rc, (y ++ [r]). by rewrite <- app_assoc.
    + destruct (i_size d =? _); exists rsm; (split; [|apply keeps_refl]);
        rewrite lookup_app_l by (rewrite length_take; lia); by rewrite lookup_take_lt by lia.
  - apply Hids. right. unfold page_offset. rewrite Z.shiftl_mul_pow2, <- HPS by lia. lia.
  - lia.
  - eapply rewritten_readable; [done|done|by left|apply Hp2].
Qed.

(** Until the chunk is prepared, only bytes behind the directory's end change. *)
Lemma header_sets_keep kaddr kaddr' limit rs : page_holds k sb kaddr limit rs -> limit + 8 <= PAGE_SIZE k ->
  (let* kaddr := de_set kaddr limit de_rec_len (s_blocksize sb) in de_set kaddr limit de_inode 0) = Ok kaddr' ->
  page_holds k sb kaddr' limit rs.
Proof using.
  intros (Hk & Hok & Hlen & post & ->) Hle. rewrite <- Hlen. rewrite len_app in Hk.
  destruct (header_at post 0 ltac:(lia) ltac:(lia)) as (pre & v & rest & -> & Hpre & Hrest & _).
  destruct pre; [|unfold len in Hpre; simpl in Hpre; lia]. rewrite !app_nil_l in *.
  rewrite de_set_encode. cbn [rbind]. rewrite de_set_encode. intros <-%(inj Ok).
  split; [|split; [done|split; [done|by eexists]]]. rewrite !len_app, !len_encode in *. lia.
Qed.

Lemma keep_page d pss n rs p kaddr : holds_dir k sb d pss -> page_here d pss n rs p ->
  page_holds k sb kaddr (ext2_last_byte k d (Z.of_nat n)) rs -> holds_dir k sb (set_data (Z.of_nat n) kaddr d) pss.
Proof using.
  intros Hd (Ep & Hc & _ & _ & [E|(-> & _ & _)]) Hp.
  - rewrite <- (list_insert_id pss n rs E). by apply (update_page d pss n rs rs p).
  - destruct (set_data_pages d _ p kaddr Ep) as [Epg Es].
    split; [unfold size_ok; rewrite Es; apply Hd|rewrite Es; apply Hd|].
    intros m rsm Em. destruct (hd_page _ _ _ _ Hd m rsm Em) as (ka & Hr & Hpm). exists ka.
    unfold readable, ext2_last_byte in *. rewrite Epg, Es, lookup_insert_ne; [done|].
    apply lookup_lt_Some in Em. lia.
Qed.

(** The page after the last one, when that is full: any page passes the check there. *)
Lemma get_page_beyond d n kaddr quiet : size_ok sb d -> i_size d = Z.of_nat n * PAGE_SIZE k ->
  readable k d (Z.of_nat n) kaddr ->
  exists d' p, ext2_get_page k sb d (Z.of_nat n) quiet = Ok (inr kaddr, d') /\ view_le k d d' /\
    i_pages d' !! Z.of_nat n = Some p /\ p_data p = kaddr /\ p_checked p = true.
Proof using G.
  intros Hs Hsz Hr. apply get_page_readable; [|done].
  destruct (geo_sizes k sb) as (c & q & _ & _ & HB & Hq & Hq0 & HP & HS & HPS).
  assert (0 < PAGE_SIZE k) by nia.
  unfold check_data. rewrite Hsz, Z.shiftr_div_pow2, <- HPS, Z.div_mul, Z.eqb_refl by lia.
  replace (PAGE_SIZE k - 1) with (Z.ones (PAGE_SHIFT k)) by (rewrite Z.ones_equiv; lia).
  rewrite Z.land_ones, <- HPS, Z.mod_mul by lia. done.
Qed.

(** The entries are the same; a page behind the end may have changed. *)
Definition unchanged (d : dir) (pss : list (list drec)) (d' : dir) : Prop :=
  holds_dir k sb d' pss /\ same_ids d d' /\ i_size d' = i_size d /\ (all_readable d -> all_readable d') /\
  kept 0 (-1) d pss d' pss.

Inductive add_outcome (d : dir) (pss : list (list drec)) (name : list byte) (inode : target) : Z -> dir -> Prop :=
  | add_exists d' : Exists (fun r => is_match name r = true) (mjoin pss) -> unchanged d pss d' ->
      add_outcome d pss name inode (- EEXIST) d'
  | add_done d' : added d pss name inode d' -> add_outcome d pss name inode commit_err d'
  | add_failed d' size pos l : fst (block_write_begin k size pos l) <> 0 -> unchanged d pss d' ->
      add_outcome d pss name inode (fst (block_write_begin k size pos l)) d'.

Lemma view_ids d d' : view_le k d d' -> same_ids d d' /\ i_size d' = i_size d /\ (all_readable d -> all_readable d').
Proof using.
  intros [[ps ->] [Hr _]]. split; [by destruct d|]. split; [by destruct d|].
  intros Ha n Hn. destruct (Ha n Hn) as (kaddr & H1 & H2). eauto.
Qed.

Lemma kept_view d0 d pss d' pss' m o : view_le k d0 d -> kept m o d pss d' pss' -> kept m o d0 pss d' pss'.
Proof using. intros (_ & _ & Hv) [H1 H2]. split; [|done]. eauto. Qed.

Lemma kept_refl d pss m o : kept m o d pss d pss.
Proof using. split; eauto using keeps_refl. Qed.

Lemma unchanged_view d d' pss : view_le k d d' -> holds_dir k sb d pss -> unchanged d pss d'.
Proof using.
  intros Hv Hd. split; [by apply (holds_view k sb d)|]. destruct (view_ids d d' Hv) as (V1 & V2 & V3).
  split; [done|]. split; [done|]. split; [done|]. eapply kept_view; [done|apply kept_refl].
Qed.

Lemma same_ids_trans d1 d2 d3 : same_ids d1 d2 -> same_ids d2 d3 -> same_ids d1 d3.
Proof using. unfold same_ids. intuition congruence. Qed.

Lemma unchanged_after d0 d pss d' : view_le k d0 d -> unchanged d pss d' -> unchanged d0 pss d'.
Proof using.
  intros Hv (H4 & H5 & H6 & H7 & H8). destruct (view_ids d0 d Hv) as (H1 & H2 & H3). split; [done|].
  split; [by eapply same_ids_trans|]. split; [congruence|]. split; [auto|by eapply kept_view].
Qed.

Lemma added_view d0 d pss name inode d' : view_le k d0 d -> added d pss name inode d' ->
  added d0 pss name inode d'.
Proof using.
  intros Hv (pss' & H1 & H2 & H3 & H4 & H5 & H6 & H7). destruct (view_ids d0 d Hv) as (V1 & V2 & V3).
  exists pss'. split; [done|]. split; [done|]. split; [done|]. rewrite V2 in H6.
  split; [by eapply kept_view|]. split; [by eapply same_ids_trans|auto].
Qed.

Lemma outcome_view d0 d pss name inode err d' : view_le k d0 d -> add_outcome d pss name inode err d' ->
  add_outcome d0 pss name inode err d'.
Proof using. intros Hv []; constructor; eauto using unchanged_after, added_view. Qed.

Lemma rewritten_set d n k1 k2 pos l d' : rewritten (set_data n k1 d) n k2 pos l d' -> rewritten d n k2 pos l d'.
Proof using.
  intros (H1 & H2 & H3). destruct (set_data_ids n k1 d) as (I1 & I2 & I3 & I4 & I5). rewrite set_data_twice in H2.
  unfold rewritten, same_ids, blocks_ok in *. rewrite I1, I2, I3, I4, I5 in *. auto.
Qed.

(** The part after [got_it]. *)
Lemma got_it_spec d pss n rs p name inode de name_len rec_len kaddr' :
  holds_dir k sb d pss -> Forall named (mjoin pss) -> page_here d pss n rs p -> valid_name name ->
  valid_target sb inode -> i_size d + s_blocksize sb < 2 ^ 32 ->
  room_at k sb name (p_data p) (ext2_last_byte k d (Z.of_nat n)) rs (GotIt de name_len rec_len kaddr') ->
  exists err d',
    (let d := set_data (Z.of_nat n) kaddr' d in
     let pos := page_offset k (Z.of_nat n) + de in
     let '(err, d) := ext2_prepare_chunk k d pos rec_len in
     if negb (err =? 0) then Ok (err, d)
     else
       let* kaddr := add_entry k sb kaddr' de name_len rec_len name inode in
       let '(err, d) := ext2_commit_chunk k (set_data (Z.of_nat n) kaddr d) pos rec_len in
       Ok (err, clear_btree k (with_times (current_time k) d))) = Ok (err, d') /\
    add_outcome d pss name inode err d'.
Proof using G.
  intros Hd Hnm Hh Hn Ht Hlt Hroom. cbv zeta. set (pos := page_offset k (Z.of_nat n) + de).
  assert (Hkeep : page_holds k sb kaddr' (ext2_last_byte k d (Z.of_nat n)) rs).
  { pose proof Hh as (_ & _ & Hp & _). destruct Hroom as [(ra&rc&rb&->&_&->&_)|(_&_&_&Hl&Hset)]; [done|].
    eapply header_sets_keep; [done| |done]. pose proof (rec_len_bound (len name) (len_nonneg name)).
    pose proof (len_nonneg name). lia. }
  destruct (ext2_prepare_chunk k (set_data (Z.of_nat n) kaddr' d) pos rec_len) as [err d1] eqn:Epr.
  assert (Herr : err = fst (block_write_begin k (i_size d) pos rec_len) /\ (err <> 0 -> d1 = set_data (Z.of_nat n) kaddr' d)).
  { unfold ext2_prepare_chunk in Epr. destruct (set_data_ids (Z.of_nat n) kaddr' d) as (_ & _ & _ & _ & I5).
    rewrite I5 in Epr.
    destruct (block_write_begin k (i_size d) pos rec_len) as [e sec]. injection Epr as <- <-.
    split; [done|]. intros He. by rewrite (proj2 (Z.eqb_neq _ _)). }
  destruct Herr as [Herr Hd1]. destruct (Z.eqb_spec err 0) as [->|E0]; cbn [negb]; cycle 1.
  { eexists _, _. split; [done|]. rewrite (Hd1 E0). rewrite Herr in E0 |- *. apply add_failed; [done|].
    pose proof (keep_page d pss n rs p kaddr' Hd Hh Hkeep) as Hd'. split; [done|]. destruct Hh as (Ep & Hc & _).
    destruct (set_data_ids (Z.of_nat n) kaddr' d) as (I1 & I2 & I3 & I4 & I5).
    split; [unfold same_ids, blocks_ok; rewrite I1, I2, I3, I4, I5; auto|]. split; [done|].
    split; [|split; [by apply set_data_checked with (n := Z.of_nat n) (kaddr := kaddr')|];
      eauto using keeps_refl].
    intros Ha m Hm. unfold readable. destruct (set_data_pages d _ p kaddr' Ep) as [-> _].
    destruct (decide (m = Z.of_nat n)) as [->|]; [|rewrite lookup_insert_ne by done; by apply Ha].
    rewrite lookup_insert_eq. exists kaddr'. split; [simpl; auto|apply Hkeep]. }
  assert (Hadd : exists kaddr2, add_entry k sb kaddr' de name_len rec_len name inode = Ok kaddr2 /\
    forall d', rewritten d (Z.of_nat n) kaddr2 pos rec_len d' -> added d pss name inode d').
  { destruct Hroom as [(ra&rc&rb&->&->&->&->&->&Hr)|(->&->&->&Hl&Hset)];
      [by apply (add_into_record d pss n ra rc rb p)|by apply (add_into_chunk d pss n rs p kaddr' name inode)]. }
  destruct Hadd as (kaddr2 & -> & Hadd). cbn [rbind].
  destruct (ext2_commit_chunk k (set_data (Z.of_nat n) kaddr2 d1) pos rec_len) as [err d'] eqn:Ecm.
  destruct (write_chunk _ _ _ _ _ _ _ _ Epr Ecm) as [-> Hrw].
  apply (rewritten_stamp _ _ _ _ _ _ true) in Hrw. eexists _, _. split; [done|].
  apply add_done, Hadd. by eapply rewritten_set.
Qed.

(** A read past the end of the directory gives some page. *)
Definition page_beyond (d : dir) (pss : list (list drec)) : Prop :=
  exists kaddr, readable k d (Z.of_nat (length pss)) kaddr /\ len kaddr = PAGE_SIZE k.

Lemma meta_view d d' : view_le k d d' -> i_size d' = i_size d /\ forall n, ext2_last_byte k d' n = ext2_last_byte k d n.
Proof using. intros [[ps ->] _]. split; [by destruct d|]. intros n. apply last_byte_with_pages. Qed.

Lemma get_page_here d pss n : holds_dir k sb d pss -> page_beyond d pss -> (n <= length pss)%nat ->
  Z.of_nat n * PAGE_SIZE k <= i_size d ->
  exists kaddr d' p rs, ext2_get_page k sb d (Z.of_nat n) false = Ok (inr kaddr, d') /\ view_le k d d' /\
    p_data p = kaddr /\ page_here d' pss n rs p.
Proof using G.
  intros Hd (kb & Hrb & Hkb) Hn Hle. destruct (decide (n = length pss)) as [->|Hne].
  - assert (Hsz : i_size d = Z.of_nat (length pss) * PAGE_SIZE k).
    { pose proof (hd_pages _ _ _ _ Hd) as Hp. destruct (hd_size _ _ _ _ Hd) as [Hs _].
      destruct (geo_sizes k sb) as (c & q & _ & _ & HB & Hq & Hq0 & _).
      rewrite (geo_dir_pages (sb := sb)) in Hp by lia.
      pose proof (Z.div_mod (i_size d + PAGE_SIZE k - 1) (PAGE_SIZE k) ltac:(nia)).
      pose proof (Z.mod_pos_bound (i_size d + PAGE_SIZE k - 1) (PAGE_SIZE k) ltac:(nia)). nia. }
    destruct (get_page_beyond d (length pss) kb false (hd_size _ _ _ _ Hd) Hsz Hrb) as (d' & p & E & Hv & Ep & Epd & Epc).
    exists kb, d', p, []. destruct (meta_view d d' Hv) as [Es Hl]. split; [done|]. split; [done|]. split; [done|].
    unfold page_here. rewrite Hl, Es, (last_byte_min k sb), Epd by (apply Hd || lia).
    split; [done|]. split; [done|]. split; [|auto].
    destruct (geo_sizes k sb) as (c & q & _ & _ & HB & Hq & Hq0 & _).
    rewrite Hsz, Z.sub_diag, Z.min_r by nia. split; [done|]. split; [done|]. split; [done|]. by exists kb.
  - destruct (lookup_lt_is_Some_2 pss n) as [rs E]; [lia|].
    destruct (get_page_spec k sb d pss n rs false Hd E) as (kaddr & d' & p & Eg & Hv & Hp & Ep & Epd & Epc).
    exists kaddr, d', p, rs. destruct (meta_view d d' Hv) as [Es Hl]. split; [done|]. split; [done|]. split; [done|].
    unfold page_here. rewrite Hl, Es, Epd. auto 10.
Qed.

Lemma page_beyond_view d d' pss : view_le k d d' -> page_beyond d pss -> page_beyond d' pss.
Proof using. intros [_ [Hv _]] (kb & H1 & H2). exists kb. auto. Qed.

Lemma add_pages_spec d0 pss name inode : Forall named (mjoin pss) -> valid_name name -> valid_target sb inode ->
  forall fuel n d, holds_dir k sb d pss -> page_beyond d pss -> view_le k d0 d ->
  i_size d + s_blocksize sb < 2 ^ 32 -> Z.of_nat n * PAGE_SIZE k <= i_size d ->
  (length pss + 1 < n + fuel)%nat -> (n <= length pss)%nat ->
  exists err d', add_pages k sb fuel (Z.of_nat n) (Z.of_nat (length pss)) d name inode = Ok (err, d') /\
    add_outcome d0 pss name inode err d'.
Proof using G.
  intros Hnm Hn Ht. induction fuel as [|fuel IH]; intros n d Hd Hb Hv0 Hlt Hle Hf Hnl; [lia|].
  cbn [add_pages]. rewrite (proj2 (Z.leb_le _ _)) by lia. cbn [negb].
  destruct (get_page_here d pss n Hd Hb Hnl Hle) as (kaddr & d1 & p & rs & -> & Hv & Epd & Hh). cbn [rbind].
  assert (Hd1 : holds_dir k sb d1 pss) by by apply (holds_view k sb d).
  destruct (meta_view d d1 Hv) as [Es Hlb]. assert (Hh0 := Hh). destruct Hh0 as (Ep & Epc & Hp & _ & Hor).
  rewrite <- Es in Hle, Hlt. rewrite Epd in Hp.
  assert (Hm : ext2_last_byte k d1 (Z.of_nat n) mod s_blocksize sb = 0)
    by (apply (last_byte_mod k sb); [apply Hd1|lia|done]).
  assert (Hl : 0 <= ext2_last_byte k d1 (Z.of_nat n) <= PAGE_SIZE k).
  { destruct (geo_sizes k sb) as (c & q & _ & _ & HB & Hq & Hq0 & _).
    rewrite (last_byte_min k sb) by (apply Hd1 || lia). nia. }
  destruct (add_scan_spec k sb name kaddr _ rs Hn Hm Hl [] (page_fuel k) Hp) as (r & Er & Hr);
    [by eapply (page_fuel_enough k sb _ _ [])|].
  change (len (page_bytes [])) with 0 in Er. rewrite Er. cbn [rbind].
  destruct r as [de nl rl kaddr'|err zero|].
  - destruct (got_it_spec d1 pss n rs p name inode de nl rl kaddr') as (err & d' & Er' & Ho); auto; [by rewrite Epd|].
    exists err, d'. split; [exact Er'|]. apply (outcome_view d0 d1); [by eapply view_le_trans|done].
  - destruct Hr as (-> & -> & Hex). eexists _, _. split; [done|].
    apply add_exists; [|apply (unchanged_after d0 d); [done|by apply unchanged_view]].
    destruct Hor as [E|(_ & -> & _)]; [|by apply Exists_nil in Hex].
    destruct (mjoin_insert pss n rs rs E) as [_ ->]. rewrite !Exists_app. auto.
  - simpl in Hr. assert (E1 : (Z.of_nat n + 1) * PAGE_SIZE k <= i_size d1).
    { destruct (geo_sizes k sb) as (c & q & _ & _ & HB & Hq & Hq0 & _). unfold valid_name in Hn.
      pose proof (rec_len_bound (len name) ltac:(lia)). pose proof (page_size_mod k sb) as HPm.
      apply Z.mod_divide in Hm as [z Hz]; [|lia]. rewrite Hz, Hq in Hr, Hl. assert (z = q) by nia. subst z.
      rewrite (last_byte_min k sb) in Hz by (apply Hd1 || lia). nia. }
    assert (n < length pss)%nat.
    { destruct Hor as [E|(-> & _ & E)]; [by eapply lookup_lt_Some|].
      destruct (geo_sizes k sb) as (c & q & _ & _ & HB & Hq & Hq0 & _). nia. }
    replace (Z.of_nat n + 1) with (Z.of_nat (S n)) in * by lia.
    apply (IH (S n) d1); [done|by apply (page_beyond_view d)|by eapply view_le_trans|lia..].
Qed.

(** The name is there, or it is added, or the blocks for it cannot be had. *)
Lemma add_link_spec d pss name inode : holds_dir k sb d pss -> Forall named (mjoin pss) -> page_beyond d pss ->
  valid_name name -> valid_target sb inode -> i_size d + s_blocksize sb < 2 ^ 32 ->
  exists err d', ext2_add_link k sb d name inode = Ok (err, d') /\ add_outcome d pss name inode err d'.
Proof using G.
  intros Hd Hnm Hb Hn Ht Hlt. unfold ext2_add_link. rewrite <- (hd_pages _ _ _ _ Hd).
  apply (add_pages_spec d pss name inode Hnm Hn Ht _ 0 d); auto; [apply view_le_refl| |lia|lia].
  destruct (hd_size _ _ _ _ Hd). lia.
Qed.

(** ** [ext2_delete_entry] *)

(** The loop ends at the entry itself, with the one before it. *)
Lemma prev_loop_spec kaddr limit y : forall x z pde fuel,
  page_holds k sb kaddr limit (x ++ y ++ z) -> limit mod s_blocksize sb = 0 -> (length y < fuel)%nat ->
  prev_loop k fuel kaddr (len (page_bytes (x ++ y))) pde (len (page_bytes x)) =
  Ok (Some (match last y with
            | None => pde
            | Some r => Some (len (page_bytes (x ++ y)) - dr_len r)
            end)).
Proof using G.
  induction y as [|r y IH]; intros x z pde fuel Hp Hm Hf; (destruct fuel as [|fuel]; [simpl in Hf; lia|]);
    cbn [prev_loop].
  - by rewrite app_nil_r, Z.ltb_irrefl.
  - destruct (page_at_rec k sb kaddr limit x r (y ++ z) Hp Hm) as [Hr _]. pose proof (at_rec_len sb _ _ _ Hr).
    rewrite (proj2 (Z.ltb_lt _ _)); cycle 1.
    { rewrite page_bytes_app, len_app, len_page_bytes_cons. pose proof (len_nonneg (page_bytes y)). lia. }
    cbn [negb]. rewrite (at_rec_get sb _ _ r) by done. cbn [rbind drec_field].
    rewrite (proj2 (Z.eqb_neq _ _)) by lia. rewrite (at_rec_next k sb _ _ r) by done. cbn [rbind].
    rewrite <- page_bytes_snoc. rewrite (cons_middle r x y), (app_assoc x).
    rewrite (IH (x ++ [r]) z); [|by rewrite <- !app_assoc|done|simpl in Hf; lia]. do 2 f_equal.
    destruct (exists_last_or_nil y) as [->|(y' & r' & ->)]; simpl; [|by rewrite last_cons, last_snoc].
    rewrite app_nil_r, page_bytes_snoc. f_equal. lia.
Qed.

(** The record that takes the place of a deleted one and the one before it. *)
Definition merged (pd rc : drec) : drec :=
  Drec (dr_ino pd) (dr_name_len pd) (dr_type pd)
    (dr_body pd ++ drec_bytes (Drec 0 (dr_name_len rc) (dr_type rc) (dr_body rc))).

Definition erased (rc : drec) : drec := Drec 0 (dr_name_len rc) (dr_type rc) (dr_body rc).

Lemma merged_len pd rc : dr_len (merged pd rc) = dr_len pd + dr_len rc.
Proof using. unfold merged, dr_len. cbn [dr_body]. rewrite len_app, len_drec_bytes. unfold dr_len. cbn [dr_body]. lia. Qed.

Lemma set_inode_zero pre rc post : de_set (pre ++ drec_bytes rc ++ post) (len pre) de_inode 0
  = Ok (pre ++ drec_bytes (erased rc) ++ post).
Proof using.
  unfold drec_bytes. by rewrite <- !app_assoc, de_set_encode.
Qed.

Lemma set_len_merge pre pd rc post : dr_len pd + dr_len rc < 65536 ->
  (let* dlen := ext2_rec_len_to_disk k (dr_len pd + dr_len rc) in
   let* kaddr := de_set (pre ++ (drec_bytes pd ++ drec_bytes rc) ++ post) (len pre) de_rec_len dlen in
   de_set kaddr (len pre + dr_len pd) de_inode 0) = Ok (pre ++ drec_bytes (merged pd rc) ++ post).
Proof using.
  intros Hl. rewrite (to_disk_id k); cycle 1.
  { unfold dr_len. pose proof (len_nonneg (dr_body pd)). pose proof (len_nonneg (dr_body rc)). unfold dr_len in Hl. lia. }
  cbn [rbind]. unfold drec_bytes at 1. rewrite <- !app_assoc, de_set_encode. cbn [rbind].
  rewrite !(app_assoc pre), !(app_assoc (pre ++ _)). set (pre2 := (pre ++ _) ++ dr_body pd).
  replace (len pre + dr_len pd) with (len pre2)
    by (unfold pre2, dr_len; rewrite !len_app, len_encode; lia).
  rewrite set_inode_zero. unfold pre2.
  change (drec_bytes (merged pd rc)) with
    (encode ext2_dir_entry_2 (drec_field (merged pd rc)) ++ dr_body pd ++ drec_bytes (erased rc)).
  rewrite <- !app_assoc. do 3 f_equal.
  apply encode_ext. intros f. unfold upd. destruct f; repeat (case_decide; try congruence); simpl; try done.
  by rewrite merged_len.
Qed.

Lemma merged_name pd rc : rec_ok sb pd -> dr_name (merged pd rc) = dr_name pd.
Proof using.
  intros Hp. unfold dr_name, merged. cbn [dr_body dr_name_len].
  rewrite take_app_le; [done|]. pose proof (name_fits sb pd Hp). unfold len in *. lia.
Qed.

Lemma merged_ok offs pd rc : 0 <= offs -> rec_ok sb pd -> rec_ok sb rc -> in_chunk sb offs pd ->
  in_chunk sb (offs + dr_len pd) rc -> (offs + dr_len pd) / s_blocksize sb = offs / s_blocksize sb ->
  recs_ok sb offs [merged pd rc] /\ entries [merged pd rc] = entries [pd] /\ (named pd -> named (merged pd rc)).
Proof using G.
  intros Ho Hp Hr Hc1 Hc2 Hs. split; [|split; [|done]].
  - pose proof (name_fits sb pd Hp). destruct Hp as (?&?&?&?&?&?), Hr as (?&?&?&?&?&?).
    assert (Hm4 : dr_len (merged pd rc) mod 4 = 0)
      by (rewrite merged_len, Zplus_mod; replace (dr_len pd mod 4) with 0; replace (dr_len rc mod 4) with 0; done).
    split; [|split; [|done]].
    + unfold rec_ok. rewrite !merged_len in *. cbn [merged dr_ino dr_name_len dr_type]. repeat split; lia || done.
    + unfold in_chunk in *. rewrite merged_len. rewrite Z.add_assoc, Hc2. done.
  - unfold entries. destruct (decide (dr_ino pd = 0)) as [E|E].
    + rewrite !filter_cons_False by (simpl; tauto). done.
    + rewrite !filter_cons_True by done. simpl. by rewrite merged_name.
Qed.

Lemma erased_ok offs rc : rec_ok sb rc -> in_chunk sb offs rc ->
  recs_ok sb offs [erased rc] /\ entries [erased rc] = [] /\ named (erased rc).
Proof using.
  intros (?&?&?&?&?&?) Hc. split; [|split; [|by intros []]].
  - split; [|split; [exact Hc|done]]. unfold rec_ok, dr_len in *. cbn [erased dr_ino dr_name_len dr_type dr_body].
    repeat split; lia || done.
  - unfold entries. rewrite filter_cons_False; [done|]. simpl. tauto.
Qed.

Lemma rec_end d pss n ra rc rb p : holds_dir k sb d pss -> rec_here d pss n ra rc rb p ->
  page_offset k (Z.of_nat n) + len (page_bytes ra) + dr_len rc <= i_size d /\
  (len (page_bytes ra) + dr_len rc) <= PAGE_SIZE k /\
  page_offset k (Z.of_nat n) = Z.of_nat n * PAGE_SIZE k.
Proof using G.
  intros Hd (E & _ & _ & Hp). destruct (geo_sizes k sb) as (c & q & _ & _ & _ & _ & _ & _ & HS & HPS).
  destruct Hp as (_ & _ & Hlen & _). pose proof (page_below k sb d pss n Hd (lookup_lt_Some _ _ _ E)).
  rewrite (last_byte_min k sb) in Hlen by (apply Hd || lia). unfold page_offset. rewrite Z.shiftl_mul_pow2, <- HPS by lia.
  rewrite page_bytes_app, len_app, len_page_bytes_cons in Hlen. pose proof (len_nonneg (page_bytes rb)). lia.
Qed.

Lemma keeps_single ra rc mid rb : len (page_bytes mid) = dr_len rc ->
  keeps (len (page_bytes ra)) (ra ++ rc :: rb) (ra ++ mid ++ rb).
Proof using.
  intros Hl. apply (keeps_middle _ ra [rc] _ rb); [by rewrite page_bytes_one, len_drec_bytes|].
  intros x r y Ex _ Hx. exfalso. apply Hx. destruct x; [change (len (page_bytes [])) with 0; lia|by destruct x].
Qed.

Lemma merged_keeps ra pd rc rb : rec_ok sb pd ->
  keeps (len (page_bytes (ra ++ [pd]))) (ra ++ pd :: rc :: rb) (ra ++ [merged pd rc] ++ rb).
Proof using.
  intros Hp. apply (keeps_middle _ ra [pd; rc] _ rb).
  { rewrite page_bytes_one, len_drec_bytes, !len_page_bytes_cons, merged_len. change (len (page_bytes [])) with 0. lia. }
  rewrite page_bytes_snoc. intros [|r1 [|r2 x]] r y Ex Hi Hx; [|exfalso; apply Hx|by destruct x].
  - injection Ex as <- <-. exists [], (merged pd rc), []. by rewrite merged_name.
  - injection Ex as <- _ _. rewrite len_page_bytes_cons. change (len (page_bytes [])) with 0. lia.
Qed.

(** Within a page: the stores turn the entry, alone or with the one before it in its
    chunk, into one record. *)
Lemma delete_first kaddr limit ra rc rb : page_holds k sb kaddr limit (ra ++ rc :: rb) ->
  rec_ok sb rc -> in_chunk sb (len (page_bytes ra)) rc -> Forall named (ra ++ rc :: rb) -> dr_ino rc <> 0 ->
  exists kaddr' rs', de_set kaddr (len (page_bytes ra)) de_inode 0 = Ok kaddr' /\
    page_holds k sb kaddr' limit rs' /\ Forall named rs' /\ keeps (len (page_bytes ra)) (ra ++ rc :: rb) rs' /\
    entries (ra ++ rc :: rb) ≡ₚ (dr_name rc, dr_ino rc) :: entries rs'.
Proof using.
  intros Hp Hrc Hch Hnm Hi. destruct (erased_ok (len (page_bytes ra)) rc Hrc Hch) as (O1 & O2 & O3).
  destruct (page_replace k sb _ _ ra rc rb [erased rc] Hp O1) as (pre & post & -> & Hpre & Hp').
  { rewrite page_bytes_one, len_drec_bytes. done. }
  rewrite <- Hpre, set_inode_zero. eexists _, _. split; [done|]. rewrite page_bytes_one in Hp'. split; [exact Hp'|].
  pose proof (Forall_nil_2 named). rewrite !Forall_app, !Forall_cons in *. split; [tauto|].
  split; [rewrite ?Hpre; apply keeps_single; by rewrite page_bytes_one, len_drec_bytes|].
  change (rc :: rb) with ([rc] ++ rb). rewrite !entries_app, O2, entries_one by done. symmetry. apply Permutation_middle.
Qed.

Lemma delete_merge kaddr limit ra pd rc rb : page_holds k sb kaddr limit (ra ++ pd :: rc :: rb) ->
  limit mod s_blocksize sb = 0 -> len (page_bytes (ra ++ [pd])) / s_blocksize sb = len (page_bytes ra) / s_blocksize sb ->
  Forall named (ra ++ pd :: rc :: rb) -> dr_ino rc <> 0 ->
  exists kaddr' rs',
    (let* dlen := ext2_rec_len_to_disk k (dr_len pd + dr_len rc) in
     let* kaddr := de_set kaddr (len (page_bytes ra)) de_rec_len dlen in
     de_set kaddr (len (page_bytes (ra ++ [pd]))) de_inode 0) = Ok kaddr' /\
    page_holds k sb kaddr' limit rs' /\ Forall named rs' /\
    keeps (len (page_bytes (ra ++ [pd]))) (ra ++ pd :: rc :: rb) rs' /\
    entries (ra ++ pd :: rc :: rb) ≡ₚ (dr_name rc, dr_ino rc) :: entries rs'.
Proof using G.
  intros Hp Hm Hs Hnm Hi. destruct (page_at_rec k sb _ _ ra pd (rc :: rb) Hp Hm) as [Ha1 Hc1].
  assert (Hp2 := Hp). rewrite (cons_middle pd), app_assoc in Hp2.
  destruct (page_at_rec k sb _ _ (ra ++ [pd]) rc rb Hp2 Hm) as [Ha2 Hc2].
  rewrite page_bytes_snoc in *. pose proof (len_nonneg (page_bytes ra)).
  pose proof (at_rec_len sb _ _ _ Ha1). pose proof (at_rec_len sb _ _ _ Ha2).
  destruct Ha1 as (_&_&_&_&Hr1&_), Ha2 as (_&_&_&_&Hr2&_).
  destruct (merged_ok (len (page_bytes ra)) pd rc) as (O1 & O2 & O3); auto.
  destruct Hp as (Hk & Hok & Hlen & post & ->). apply recs_ok_app in Hok as [Hok1 (_&_&_&_&Hok2)].
  rewrite page_bytes_app, !page_bytes_cons, !len_app, !len_drec_bytes in Hlen.
  rewrite page_bytes_app, !page_bytes_cons, !len_app, !len_drec_bytes in Hk.
  assert (Hlm : dr_len pd + dr_len rc <= s_blocksize sb).
  { pose proof (len_nonneg (page_bytes rb)).
    apply (chunk_bound k sb (len (page_bytes ra)) _ limit); [lia|done|]. unfold in_chunk in Hc2. by rewrite Z.add_assoc, Hc2. }
  destruct (geo_sizes k sb) as (c & q & _ & _ & HB & _).
  rewrite page_bytes_app, !page_bytes_cons, <- !app_assoc, (app_assoc (drec_bytes pd)), set_len_merge by lia.
  eexists _, (ra ++ [merged pd rc] ++ rb). split; [done|].
  pose proof (Forall_nil_2 named). rewrite !Forall_app, !Forall_cons in *. split; [|split; [tauto|split; [rewrite <- page_bytes_snoc; by apply merged_keeps|]]].
  - split; [|split; [|split]].
    + rewrite !len_app, len_drec_bytes, merged_len. lia.
    + rewrite !recs_ok_app. split; [done|]. split; [done|]. rewrite page_bytes_one, len_drec_bytes, merged_len, !Z.add_assoc. done.
    + rewrite !page_bytes_app, page_bytes_one, !len_app, len_drec_bytes, merged_len. lia.
    + exists post. by rewrite !page_bytes_app, page_bytes_one, <- !app_assoc.
  - change (pd :: rc :: rb) with ([pd] ++ [rc] ++ rb). rewrite !entries_app, O2, (entries_one rc) by done.
    rewrite !(app_assoc (entries ra)). symmetry. apply Permutation_middle.
Qed.

(** Both cases of the deletion in a page. *)
Lemma delete_page kaddr limit ra rc rb : page_holds k sb kaddr limit (ra ++ rc :: rb) ->
  0 <= limit <= PAGE_SIZE k -> limit mod s_blocksize sb = 0 -> Forall named (ra ++ rc :: rb) -> dr_ino rc <> 0 ->
  let de := len (page_bytes ra) in let to := de + dr_len rc in
  exists pde kaddr' rs' from,
    prev_loop k (page_fuel k) kaddr de None (Z.land de (u32 (Z.lnot (s_blocksize sb - 1)))) = Ok (Some pde) /\
    from = match pde with Some p => p | None => Z.land de (u32 (Z.lnot (s_blocksize sb - 1))) end /\ from <= de /\
    (let* kaddr := (match pde with
       | Some p => let* dlen := ext2_rec_len_to_disk k (to - from) in de_set kaddr p de_rec_len dlen
       | None => Ok kaddr end) in de_set kaddr de de_inode 0) = Ok kaddr' /\
    page_holds k sb kaddr' limit rs' /\ Forall named rs' /\ keeps (len (page_bytes ra)) (ra ++ rc :: rb) rs' /\
    entries (ra ++ rc :: rb) ≡ₚ (dr_name rc, dr_ino rc) :: entries rs'.
Proof using G.
  intros Hp Hl Hm Hnm Hi de to. destruct (page_at_rec k sb _ _ ra rc rb Hp Hm) as [Ha Hch].
  destruct (chunk_start k sb _ ra (rc :: rb) _ Hp) as (ra1 & ra2 & E & Hst).
  destruct (geo_sizes k sb) as (c & q & HcB & Hc31 & HB & _ & _ & HP & _).
  assert (Hde : 0 <= de < 2 ^ 32).
  { pose proof (len_nonneg (page_bytes ra)). destruct Hp as (_ & _ & Hlen & _).
    rewrite page_bytes_app, len_app in Hlen. pose proof (len_nonneg (page_bytes (rc :: rb))). unfold de. lia. }
  rewrite HcB, land_chunk_mask, <- HcB by done. fold de in Hst. rewrite <- Hst. subst ra.
  rewrite (prev_loop_spec kaddr limit ra2 ra1 (rc :: rb) None); [|by rewrite app_assoc|done|]; cycle 1.
  { rewrite <- app_assoc in Hp. pose proof (page_fuel_enough k sb _ _ ra1 _ Hp) as Hf. rewrite length_app in Hf. lia. }
  destruct (exists_last_or_nil ra2) as [->|(ra3 & pd & ->)].
  - unfold de, to in *. rewrite !app_nil_r in *. exists None.
    destruct (delete_first kaddr limit ra1 rc rb) as (kaddr' & rs' & H1 & H2); [done|by destruct Ha as (?&?&?&?&?&?)|done..|].
    eexists kaddr', rs', _. split; [done|]. split; [done|]. split; [lia|]. done.
  - rewrite last_snoc. rewrite app_assoc in *. exists (Some (len (page_bytes (ra1 ++ ra3)))).
    destruct (delete_merge kaddr limit (ra1 ++ ra3) pd rc rb) as (kaddr' & rs' & H1 & H2);
      [by rewrite <- app_assoc in Hp|done| |by rewrite <- app_assoc in Hnm|done|].
    + replace (len (page_bytes ((ra1 ++ ra3) ++ [pd]))) with de by (unfold de; by rewrite ?app_assoc).
      assert (Hx : de / s_blocksize sb * s_blocksize sb <= len (page_bytes (ra1 ++ ra3)) <= de).
      { rewrite <- Hst. unfold de. rewrite ?app_assoc, page_bytes_snoc, page_bytes_app, len_app.
        pose proof (len_nonneg (page_bytes ra3)). pose proof (len_nonneg (dr_body pd)). unfold dr_len. lia. }
      pose proof (Z.div_le_mono _ _ (s_blocksize sb) ltac:(lia) (proj1 Hx)) as D1. rewrite Z.div_mul in D1 by lia.
      pose proof (Z.div_le_mono _ _ (s_blocksize sb) ltac:(lia) (proj2 Hx)). lia.
    + exists kaddr', rs', (len (page_bytes (ra1 ++ ra3))). unfold de, to. rewrite ?app_assoc, page_bytes_snoc in *.
      split; [do 3 f_equal; lia|]. split; [done|].
      assert (0 <= dr_len pd) by (unfold dr_len; pose proof (len_nonneg (dr_body pd)); lia). split; [lia|].
      replace (de + dr_len rc - _) with (dr_len pd + dr_len rc)
        by (unfold de; rewrite ?app_assoc, page_bytes_snoc; lia).
      split; [|by rewrite <- app_assoc]. revert H1. by destruct (ext2_rec_len_to_disk k _).
Qed.

(** The directory after some of its records have been exchanged for others. *)
Definition changed (d : dir) (d' : dir) (pss' : list (list drec)) : Prop :=
  holds_dir k sb d' pss' /\ Forall named (mjoin pss') /\ same_ids d d' /\ i_size d' = i_size d /\
  (all_readable d -> all_readable d').

Lemma exchange_recs d pss n rs rs' p kaddr pos l d' : holds_dir k sb d pss -> pss !! n = Some rs ->
  i_pages d !! Z.of_nat n = Some p -> p_checked p = true -> Forall named (mjoin pss) ->
  page_holds k sb kaddr (ext2_last_byte k d (Z.of_nat n)) rs' -> pos + l <= i_size d -> Forall named rs' ->
  rewritten d (Z.of_nat n) kaddr pos l d' ->
  let pss' := <[n := rs']> pss in
  changed d d' pss' /\ (forall o, keeps o rs rs' -> kept n o d pss d' pss') /\
  (forall e e', entries rs ++ e ≡ₚ entries rs' ++ e' -> entries (mjoin pss) ++ e ≡ₚ entries (mjoin pss') ++ e').
Proof using.
  intros Hd E Ep Hc Hnm Hp Hle Hn' Hrw pss'. assert (Hrw0 := Hrw). destruct Hrw0 as (Es & Epg & Hids).
  rewrite Z.max_l in Es by lia. pose proof (set_data_ids (Z.of_nat n) kaddr d) as (_ & _ & _ & _ & Es0).
  assert (Hd' : holds_dir k sb d' pss').
  { apply (holds_ext (set_data (Z.of_nat n) kaddr d)); [congruence|done|by apply (update_page d pss n rs rs' p)]. }
  destruct (mjoin_insert pss n rs rs' E) as [E1 E2]. fold pss' in E1. split; [|split].
  - split; [done|]. split; [rewrite E1; rewrite E2 in Hnm; rewrite !Forall_app in *; tauto|].
    split; [auto|]. split; [done|]. eapply rewritten_readable; [done|done|by left|apply Hp].
  - intros o Hk. split; [by eapply set_data_checked|]. intros m rsm Em. unfold pss'.
    destruct (decide (m = n)) as [->|Hne].
    + rewrite list_lookup_insert_eq by (by eapply lookup_lt_Some). exists rs'. split; [done|]. by replace rsm with rs by congruence.
    + rewrite list_lookup_insert_ne by done. eauto using keeps_refl.
  - intros e e' He. rewrite E1, E2, !entries_app.
    set (x := entries (mjoin (take n pss))). set (y := entries (mjoin (drop (S n) pss))).
    rewrite <- !app_assoc, (Permutation_app_comm y e), (Permutation_app_comm y e'), !(app_assoc (entries _)).
    by rewrite He.
Qed.

(** Blocks can always be had; and a chunk that is there can be written again, which the
    code relies on. *)
Definition writable : Prop := forall size pos l, fst (block_write_begin k size pos l) = 0.
Definition rewritable : Prop := forall size pos l, pos + l <= size -> fst (block_write_begin k size pos l) = 0.

Lemma prepare_ok d pos l : fst (block_write_begin k (i_size d) pos l) = 0 -> exists d1, ext2_prepare_chunk k d pos l = (0, d1).
Proof using.
  intros H. unfold ext2_prepare_chunk.
  destruct (block_write_begin k (i_size d) pos l) as [e sec]. simpl in H. subst e. eauto.
Qed.

Lemma named_page pss n rs : Forall named (mjoin pss) -> pss !! n = Some rs -> Forall named rs.
Proof using.
  intros Hnm E. destruct (mjoin_insert pss n rs [] E) as [_ E2]. rewrite E2, Forall_app, Forall_app in Hnm. tauto.
Qed.

Lemma delete_entry_spec d pss n ra rc rb p : holds_dir k sb d pss -> Forall named (mjoin pss) ->
  rec_here d pss n ra rc rb p -> dr_ino rc <> 0 -> rewritable ->
  exists d' pss', ext2_delete_entry k sb d (Z.of_nat n) (len (page_bytes ra)) = Ok (commit_err, d') /\
    changed d d' pss' /\ kept n (len (page_bytes ra)) d pss d' pss' /\
    entries (mjoin pss) ≡ₚ (dr_name rc, dr_ino rc) :: entries (mjoin pss').
Proof using G.
  intros Hd Hnm Hh Hi Hbw. assert (Hh0 := Hh). destruct Hh0 as (E & Ep & Hc & Hp).
  destruct (last_byte_range k sb d pss n Hd (lookup_lt_Some _ _ _ E)) as [Hl Hm].
  destruct (page_at_rec k sb _ _ ra rc rb Hp Hm) as [Ha _]. destruct (rec_end d pss n ra rc rb p Hd Hh) as (He1 & _ & _).
  destruct (delete_page (p_data p) _ ra rc rb Hp ltac:(lia) Hm (named_page pss n _ Hnm E) Hi)
    as (pde & kaddr' & rs' & from & P1 & P2 & P3 & P4 & P5 & P6 & Pk & P7).
  unfold ext2_delete_entry, page_address, ext2_chunk_size. rewrite Ep. cbn [rbind].
  rewrite (at_rec_get sb _ _ rc) by done. cbn [rbind drec_field].
  rewrite (from_disk_id k) by (destruct Ha as (_&_&_&_&_&_&?); done). rewrite P1. cbn [rbind]. rewrite <- P2.
  set (pos := page_offset k (Z.of_nat n) + from). set (l := len (page_bytes ra) + dr_len rc - from).
  destruct (prepare_ok d pos l (Hbw (i_size d) pos l ltac:(unfold pos, l; lia))) as (d1 & Epr). rewrite Epr. cbn [negb Z.eqb].
  apply rbind_Ok in P4 as (k1 & Ek1 & P4). fold l in Ek1. rewrite Ek1. cbn [rbind]. rewrite P4. cbn [rbind].
  destruct (ext2_commit_chunk k (set_data (Z.of_nat n) kaddr' d1) pos l) as [err d'] eqn:Ecm.
  destruct (write_chunk _ _ _ _ _ _ _ _ Epr Ecm) as [-> Hrw].
  apply (rewritten_stamp _ _ _ _ _ _ true) in Hrw.
  destruct (exchange_recs d pss n _ rs' p kaddr' pos l _ Hd E Ep Hc Hnm P5 ltac:(unfold pos, l; lia) P6 Hrw)
    as (Hch & Hk & He).
  eexists _, _. split; [done|]. split; [exact Hch|]. split; [by apply Hk|].
  specialize (He [] [(dr_name rc, dr_ino rc)]). rewrite !app_nil_r in He. rewrite He; [by rewrite Permutation_app_comm|].
  by rewrite P7, Permutation_app_comm.
Qed.

(** ** [ext2_set_link] *)

(** The entry with another inode. *)
Definition relinked (rc : drec) (inode : target) : drec :=
  Drec (t_ino inode) (dr_name_len rc) (de_type_of sb (t_mode inode)) (dr_body rc).

Lemma relinked_ok offs rc inode : rec_ok sb rc -> in_chunk sb offs rc -> valid_target sb inode ->
  recs_ok sb offs [relinked rc inode].
Proof using.
  intros (?&?&?&?&?&?) Hch Ht. pose proof (de_type_range sb (t_mode inode)). unfold valid_target in Ht.
  split; [|split; [exact Hch|done]]. unfold rec_ok, dr_len in *. cbn [relinked dr_ino dr_name_len dr_type dr_body].
  repeat split; lia || done.
Qed.

Lemma set_inode_type pre rc post inode :
  (let* kaddr := de_set (pre ++ drec_bytes rc ++ post) (len pre) de_inode (t_ino inode) in
   ext2_set_de_type sb kaddr (len pre) (t_mode inode)) = Ok (pre ++ drec_bytes (relinked rc inode) ++ post).
Proof using.
  unfold drec_bytes. rewrite <- !app_assoc, de_set_encode. cbn [rbind]. unfold ext2_set_de_type.
  by rewrite de_set_encode.
Qed.

Lemma set_link_spec d pss n ra rc rb p inode times : holds_dir k sb d pss -> Forall named (mjoin pss) ->
  rec_here d pss n ra rc rb p -> dr_ino rc <> 0 -> valid_target sb inode -> rewritable ->
  exists d' pss', ext2_set_link k sb d (Z.of_nat n) (len (page_bytes ra)) inode times = Ok d' /\
    changed d d' pss' /\ kept n (len (page_bytes ra)) d pss d' pss' /\
    (exists p', rec_here d' pss' n ra (relinked rc inode) rb p') /\
    (dr_name rc, t_ino inode) :: entries (mjoin pss) ≡ₚ (dr_name rc, dr_ino rc) :: entries (mjoin pss').
Proof using G.
  intros Hd Hnm Hh Hi Ht Hbw. assert (Hh0 := Hh). destruct Hh0 as (E & Ep & Hc & Hp).
  destruct (last_byte_range k sb d pss n Hd (lookup_lt_Some _ _ _ E)) as [Hl Hm].
  destruct (page_at_rec k sb _ _ ra rc rb Hp Hm) as [Ha Hch]. destruct (rec_end d pss n ra rc rb p Hd Hh) as (He1 & _ & _).
  assert (Hrc : rec_ok sb rc) by (destruct Ha as (?&?&?&?&?&?); done).
  destruct (page_replace k sb _ _ ra rc rb [relinked rc inode] Hp (relinked_ok _ _ _ Hrc Hch Ht)) as (pre & post & Ek & Hpre & Hp').
  { by rewrite page_bytes_one, len_drec_bytes. }
  pose proof (set_inode_type pre rc post inode) as Hst. rewrite <- Ek, Hpre in Hst.
  apply rbind_Ok in Hst as (k1 & Ek1 & Hst). rewrite page_bytes_one in Hp'.
  unfold ext2_set_link, page_address. rewrite Ep. cbn [rbind]. rewrite (at_rec_get sb _ _ rc) by done.
  cbn [rbind drec_field]. rewrite (from_disk_id k) by (destruct Ha as (_&_&_&_&_&_&?); done).
  set (pos := page_offset k (Z.of_nat n) + len (page_bytes ra)).
  destruct (prepare_ok d pos (dr_len rc) (Hbw (i_size d) pos (dr_len rc) ltac:(unfold pos; lia))) as (d1 & Epr). rewrite Epr. cbn [negb Z.eqb].
  rewrite Ek1. cbn [rbind]. rewrite Hst. cbn [rbind].
  destruct (ext2_commit_chunk k _ pos (dr_len rc)) as [err d'] eqn:Ecm.
  destruct (write_chunk _ _ _ _ _ _ _ _ Epr Ecm) as [-> Hrw].
  apply (rewritten_stamp _ _ _ _ _ _ times) in Hrw.
  assert (Hn' : Forall named (ra ++ [relinked rc inode] ++ rb)).
  { pose proof (named_page pss n _ Hnm E) as Hnr. rewrite !Forall_app, ?Forall_cons in *. assert (named rc) as Hnc by tauto.
    specialize (Hnc Hi). repeat split; try tauto; [|constructor]. intros _. done. }
  destruct (exchange_recs d pss n _ _ p _ pos (dr_len rc) _ Hd E Ep Hc Hnm Hp' ltac:(unfold pos; lia) Hn' Hrw)
    as (Hcg & Hk & He).
  eexists _, _. split; [done|]. split; [exact Hcg|]. split; [apply Hk, keeps_single; by rewrite page_bytes_one, len_drec_bytes|].
  split.
  { destruct Hrw as (_ & Epg & _). destruct (set_data_checked _ _ _ _ Epg _ _ Ep Hc) as (p' & Ep' & Hc').
    exists p'. apply checked_here; [apply Hcg|by rewrite list_lookup_insert_eq by (by eapply lookup_lt_Some)|done..]. }
  specialize (He [(dr_name rc, t_ino inode)] [(dr_name rc, dr_ino rc)]). rewrite !(Permutation_app_comm _ [_]) in He.
  apply He. change (rc :: rb) with ([rc] ++ rb). unfold valid_target in Ht.
  rewrite !entries_app, !entries_one by (simpl; lia || done).
  change (dr_name (relinked rc inode)) with (dr_name rc). cbn [relinked dr_ino app].
  rewrite <- !(Permutation_middle (entries ra)). by rewrite Permutation_swap.
Qed.

(** ** [ext2_make_empty] *)

Definition dot_rec (ino mode : Z) : drec := Drec ino 1 (de_type_of sb mode) [dot; NUL; NUL; NUL].
Definition dotdot_rec (parent mode : Z) : drec :=
  Drec parent 2 (de_type_of sb mode) ([dot; dot; NUL; NUL] ++ replicate (Z.to_nat (s_blocksize sb - 24)) NUL).

Lemma zero_chunk : replicate (Z.to_nat (s_blocksize sb)) NUL =
  encode ext2_dir_entry_2 (fun _ => 0) ++ replicate 4 NUL ++ encode ext2_dir_entry_2 (fun _ => 0) ++ replicate 4 NUL ++
  replicate (Z.to_nat (s_blocksize sb - 24)) NUL.
Proof using G.
  destruct (geo_sizes k sb) as (c & q & _ & _ & HB & _).
  change (encode ext2_dir_entry_2 (fun _ => 0)) with (replicate 8 NUL).
  rewrite <- !replicate_add. f_equal. lia.
Qed.

Lemma empty_chunk_spec kaddr ino mode parent : len kaddr = PAGE_SIZE k -> exists rest,
  empty_chunk k sb kaddr ino mode parent = Ok (page_bytes [dot_rec ino mode; dotdot_rec parent mode] ++ rest) /\
  len rest = PAGE_SIZE k - s_blocksize sb.
Proof using G.
  intros Hk. destruct (geo_sizes k sb) as (c & q & _ & _ & HB & Hq & Hq0 & _).
  assert (HPB : s_blocksize sb <= PAGE_SIZE k) by nia.
  exists (drop (Z.to_nat (s_blocksize sb)) kaddr). split; [|unfold len in *; rewrite length_drop; lia].
  unfold empty_chunk, ext2_chunk_size. rewrite <- (take_drop (Z.to_nat (s_blocksize sb)) kaddr) at 1.
  set (rest := drop _ kaddr). set (zs := replicate (Z.to_nat (s_blocksize sb - 24)) NUL).
  pose proof (write_at_app [] (take (Z.to_nat (s_blocksize sb)) kaddr) (replicate (Z.to_nat (s_blocksize sb)) NUL) rest) as Hw.
  rewrite !app_nil_l in Hw. change (len []) with 0 in Hw.
  rewrite Hw by (rewrite length_replicate, length_take; unfold len in Hk; lia). cbn [rbind].
  rewrite !(to_disk_id k) by (change (EXT2_DIR_REC_LEN 1) with 12; lia). change (EXT2_DIR_REC_LEN 1) with 12.
  rewrite zero_chunk, <- !app_assoc. fold zs.
  assert (S0 : forall v post f x, de_set (encode ext2_dir_entry_2 v ++ post) 0 f x
    = Ok (encode ext2_dir_entry_2 (upd v f x) ++ post)) by (intros; apply (de_set_encode [])).
  assert (W0 : forall v b b' post, length b = 4%nat -> length b' = 4%nat ->
    write_at (encode ext2_dir_entry_2 v ++ b ++ post) (Z.of_nat DIRENT_HEADER) b' = Ok (encode ext2_dir_entry_2 v ++ b' ++ post)).
  { intros v b b' post Hb Hb'. change (Z.of_nat DIRENT_HEADER) with 8. rewrite <- (len_encode v). apply write_at_app. lia. }
  rewrite !S0. cbn [rbind]. rewrite !S0. cbn [rbind]. rewrite W0 by done. cbn [rbind]. rewrite !S0. cbn [rbind].
  unfold ext2_set_de_type. rewrite !S0. cbn [rbind].
  set (e1 := encode ext2_dir_entry_2 _). assert (He1 : e1 ++ [dot; NUL; NUL; NUL] = drec_bytes (dot_rec ino mode)) by done.
  rewrite !(app_assoc e1), !He1.
  assert (L1 : len (drec_bytes (dot_rec ino mode)) = 12) by (by rewrite len_drec_bytes). rewrite <- L1.
  rewrite !de_set_encode. cbn [rbind]. rewrite !de_set_encode. cbn [rbind]. rewrite !de_set_encode. cbn [rbind].
  change (Z.of_nat DIRENT_HEADER) with 8.
  assert (W1 : forall v b b' post, length b = 4%nat -> length b' = 4%nat ->
    write_at (drec_bytes (dot_rec ino mode) ++ encode ext2_dir_entry_2 v ++ b ++ post) (len (drec_bytes (dot_rec ino mode)) + 8) b'
    = Ok (drec_bytes (dot_rec ino mode) ++ encode ext2_dir_entry_2 v ++ b' ++ post)).
  { intros v b b' post Hb Hb'. rewrite <- (len_encode v), <- len_app, !(app_assoc (drec_bytes _)). apply write_at_app. lia. }
  rewrite W1 by done. cbn [rbind]. rewrite !de_set_encode.
  rewrite page_bytes_cons, page_bytes_one, <- app_assoc. set (d1 := drec_bytes (dot_rec ino mode)) in *.
  do 2 f_equal. unfold drec_bytes. rewrite <- app_assoc. f_equal.
  apply encode_ext. intros f. unfold upd, drec_field, dr_len, dotdot_rec. cbn [dr_ino dr_name_len dr_type dr_body].
  destruct f; repeat (case_decide; try congruence).
  rewrite len_app. change (len [dot; dot; NUL; NUL]) with 4. unfold len at 2. rewrite length_replicate, L1. lia.
Qed.

(** A directory of one chunk. *)
Lemma fresh_dir d kaddr rs p : i_size d = s_blocksize sb -> p_error p = false ->
  i_pages d !! 0 = Some (Page kaddr (p_checked p) (p_error p)) -> page_holds k sb kaddr (s_blocksize sb) rs ->
  holds_dir k sb d [rs].
Proof using G.
  intros Es He Ep Hp. destruct (geo_sizes k sb) as (c & q & _ & _ & HB & Hq & Hq0 & _).
  assert (HPB : s_blocksize sb <= PAGE_SIZE k) by nia.
  assert (Hs : size_ok sb d) by (split; rewrite Es; [lia|apply Z.mod_same; lia]).
  split; [done|rewrite (geo_dir_pages (sb := sb)), Es by lia;
    apply (Z.div_unique _ _ _ (s_blocksize sb - 1)); simpl; lia|].
  intros [|n] rs' E; [|done]. injection E as <-. exists kaddr. change (Z.of_nat 0) with 0. unfold readable. rewrite Ep. cbn [p_data p_error p_checked]. split; [auto|].
  rewrite (last_byte_min k sb), Es, Z.min_r by (done || lia). by rewrite Z.mul_0_l, Z.sub_0_r.
Qed.

Lemma prepare_ids d pos l d1 err : ext2_prepare_chunk k d pos l = (err, d1) ->
  i_ino d1 = i_ino d /\ i_mode d1 = i_mode d.
Proof using.
  unfold ext2_prepare_chunk. destruct (block_write_begin k (i_size d) pos l) as [e sec].
  intros [= _ <-]. by destruct d, (e =? 0).
Qed.

Lemma grab_facts d fresh p d0 : grab_cache_page d fresh = Some (p, d0) -> len (p_data p) = PAGE_SIZE k ->
  p_error p = false -> i_ino d0 = i_ino d /\ i_mode d0 = i_mode d /\ i_pages d0 !! 0 = Some p /\
  (i_size d = i_size d0 /\ same_ids d d0) /\ (all_readable d -> all_readable d0).
Proof using.
  unfold grab_cache_page. intros Eg Hl He. destruct (i_pages d !! 0) eqn:E0.
  { injection Eg as -> <-. repeat split; auto. }
  destruct fresh as [data|]; [|done]. injection Eg as <- <-. unfold same_ids, blocks_ok.
  replace (i_pages (with_pages _ d)) with (<[0 := Page data false false]> (i_pages d)) by by destruct d.
  rewrite lookup_insert_eq. repeat split; try by destruct d.
  intros Ha n Hn. destruct (Ha n Hn) as (kaddr & Hr & Hk). unfold readable in *.
  replace (i_pages (with_pages _ d)) with (<[0 := Page data false false]> (i_pages d)) by by destruct d.
  destruct (decide (n = 0)) as [->|]; [rewrite lookup_insert_eq; exists data; simpl in *; auto|].
  rewrite lookup_insert_ne by done. eauto.
Qed.

Lemma make_empty_spec fresh d parent p : i_size d = 0 -> 0 < i_ino d <= sb_inodes_count sb ->
  0 < parent <= sb_inodes_count sb -> fst (block_write_begin k 0 0 (s_blocksize sb)) = 0 ->
  fst <$> grab_cache_page d fresh = Some p -> len (p_data p) = PAGE_SIZE k -> p_error p = false ->
  let pss' := [[dot_rec (i_ino d) (i_mode d); dotdot_rec parent (i_mode d)]] in
  exists d', ext2_make_empty k sb fresh d parent = Ok (commit_err, d') /\ holds_dir k sb d' pss' /\
    Forall named (mjoin pss') /\ entries (mjoin pss') = [([dot], i_ino d); ([dot; dot], parent)] /\
    same_ids d d' /\ i_size d' = s_blocksize sb /\ (all_readable d -> all_readable d').
Proof using G.
  intros Hsz Hi Hpar Hbw Hg Hl Hpe pss'. destruct (geo_sizes k sb) as (c & q & _ & _ & HB & Hq & Hq0 & _).
  unfold ext2_make_empty. destruct (grab_cache_page d fresh) as [[p0 d0]|] eqn:Eg; [|done].
  simpl in Hg. injection Hg as ->. destruct (grab_facts d fresh p d0 Eg Hl Hpe) as (Ei & Em & E4 & Hids & Hrd).
  assert (E1 : i_size d0 = 0) by (by destruct Hids as [<- _]).
  destruct (prepare_ok d0 0 (ext2_chunk_size sb)) as (d1 & Epr); [by rewrite E1|]. rewrite Epr. cbn [negb Z.eqb].
  destruct (prepare_ids _ _ _ _ _ Epr) as [-> ->]. rewrite Ei, Em.
  destruct (empty_chunk_spec (p_data p) (i_ino d) (i_mode d) parent Hl) as (rest & -> & Hrest). cbn [rbind].
  set (rs := [dot_rec (i_ino d) (i_mode d); dotdot_rec parent (i_mode d)]). unfold ext2_chunk_size in *.
  destruct (ext2_commit_chunk k (set_data 0 (page_bytes rs ++ rest) d1) 0 (s_blocksize sb)) as [err d'] eqn:Ecm.
  destruct (write_chunk _ _ _ _ _ _ _ _ Epr Ecm) as [-> Hrw]. assert (Hrw0 := Hrw). destruct Hrw0 as (Es & Epg & Hid').
  destruct (set_data_pages d0 _ p (page_bytes rs ++ rest) E4) as [Epg0 _]. rewrite Epg0 in Epg.
  rewrite E1, Z.max_r in Es by lia.
  exists d'. split; [done|].
  assert (Hlen2 : dr_len (dotdot_rec parent (i_mode d)) = s_blocksize sb - 12).
  { unfold dotdot_rec, dr_len. cbn [dr_body]. rewrite len_app. change (len [dot; dot; NUL; NUL]) with 4.
    unfold len. rewrite length_replicate. lia. }
  assert (Hrs : len (page_bytes rs) = s_blocksize sb).
  { unfold rs. rewrite !len_page_bytes_cons, Hlen2. change (len (page_bytes [])) with 0.
    change (dr_len (dot_rec _ _)) with 12. lia. }
  assert (HPB : s_blocksize sb <= PAGE_SIZE k) by nia.
  split; [|split; [|split; [|split; [|split; [lia|]]]]].
  - apply (fresh_dir d' (page_bytes rs ++ rest) rs p); [lia|done|by rewrite Epg, lookup_insert_eq|].
    split; [rewrite len_app; lia|]. split; [|split; [lia|by eexists]].
    pose proof (de_type_range sb (i_mode d)). split; [|split; [|split; [|split; [|done]]]].
    + unfold rec_ok. change (dr_len (dot_rec _ _)) with 12. cbn [dot_rec dr_ino dr_name_len dr_type].
      change (EXT2_DIR_REC_LEN 1) with 12. repeat split; lia || done.
    + unfold in_chunk. change (dr_len (dot_rec _ _)) with 12. rewrite !Z.div_small by lia. done.
    + unfold rec_ok. rewrite Hlen2. cbn [dotdot_rec dr_ino dr_name_len dr_type]. change (EXT2_DIR_REC_LEN 2) with 12.
      repeat split; try lia. destruct geo_chunk as (c' & -> & Hc' & _). replace c' with (2 + (c' - 2)) by lia.
      rewrite Z.pow_add_r by lia. change (2 ^ 2) with 4. rewrite Zminus_mod, Z.mul_comm, Z.mod_mul by lia. done.
    + unfold in_chunk. change (dr_len (dot_rec _ _)) with 12. rewrite Hlen2, !Z.div_small by lia. done.
  - simpl mjoin. repeat constructor; intros _; simpl; lia.
  - simpl mjoin. unfold rs, entries. rewrite !filter_cons_True by (simpl; lia). done.
  - destruct Hids as [_ Hids]. eapply same_ids_trans; [exact Hids|]. apply Hid'. lia.
  - intros Ha. apply Hrd in Ha. revert Ha.
    eapply rewritten_readable; [done|done|by right|rewrite len_app; lia].
Qed.
End Update.
