(* ===== verification/Ext2DirRep.v ===== *)
(** * ext2: a directory as a map from names to inodes

    [dir_rep k sb d m T] says that the bytes of the directory [d] are a well-formed table
    of the entries [m], with the entries of [T] at known places.  Each operation of
    [fs/ext2/dir.c] is described by what it does to the map and by which places stay
    valid.  The operations on inodes use only the lemmas of this file. *)

From S2P Require Import Prelude CString ByteMem Ext2Layout Ext2Dir Ext2DirPage Ext2DirRead Ext2DirFind Ext2DirWrite Ext2DirUpdate.

#[global] Instance byte_countable : Countable Byte.byte.
Proof.
  refine (inj_countable Byte.to_N (fun n => Byte.of_N n) _). intros b. apply Byte.of_to_N.
Defined.

Notation dirmap := (gmap (list byte) Z).

(** The place of an entry: its page and its offset, with its name and its inode.  The page
    is held by the caller after a search. *)
Record spot : Type := Spot { sp_page : Z; sp_off : Z; sp_name : list byte; sp_ino : Z; sp_held : bool }.

Section Rep.
Context (k : kernel) (sb : super) {G : Geometry k sb}.

(** The records of the directory, with what the operations need besides them. *)
Record dir_ok (d : dir) (pss : list (list drec)) : Prop := {
  ok_holds : holds_dir k sb d pss;
  ok_named : Forall named (mjoin pss);
  ok_readable : all_readable k d;
  ok_blocks : blocks_ok d;
  ok_lookup : 0 <= i_dir_start_lookup d;
}.

Definition spot_ok (d : dir) (pss : list (list drec)) (s : spot) : Prop :=
  (exists ra rc rb, pss !! Z.to_nat (sp_page s) = Some (ra ++ rc :: rb) /\
    sp_off s = len (page_bytes ra) /\ dr_name rc = sp_name s /\ dr_ino rc = sp_ino s /\ dr_ino rc <> 0) /\
  0 <= sp_page s /\
  (sp_held s = true -> exists p, i_pages d !! sp_page s = Some p /\ p_checked p = true).

(** The entries have the names and the inodes of the map, and those of [T] are in place. *)
Definition dir_rep (d : dir) (m : dirmap) (T : list spot) : Prop :=
  exists pss, dir_ok d pss /\ entries (mjoin pss) ≡ₚ map_to_list m /\ Forall (spot_ok d pss) T.

(** What no operation changes. *)
Definition same_inode (d d' : dir) : Prop := i_ino d' = i_ino d /\ i_mode d' = i_mode d.

Lemma rep_weaken d m T T' : T' ⊆ T -> dir_rep d m T -> dir_rep d m T'.
Proof using.
  intros HT (pss & H1 & H2 & H3). exists pss. split; [done|]. split; [done|].
  rewrite Forall_forall in *. intros s Hs. by apply H3, HT.
Qed.

Lemma spot_in_map d m T s : dir_rep d m (s :: T) -> m !! sp_name s = Some (sp_ino s).
Proof using G.
  intros (pss & _ & He & (Hs & _)%Forall_cons). destruct Hs as ((ra & rc & rb & E & _ & <- & <- & Hi) & _).
  apply elem_of_map_to_list. rewrite <- He. apply elem_of_entries. exists rc. split; [|done].
  apply list_elem_of_join. exists (ra ++ rc :: rb). split; [set_solver|by eapply list_elem_of_lookup_2].
Qed.

(** ** Finding an entry *)

Lemma blocks_cover_ok d pss : holds_dir k sb d pss -> blocks_ok d -> blocks_cover k d pss.
Proof using G.
  intros Hd Hb. unfold blocks_cover, blocks_ok in *. rewrite (hd_pages _ _ _ _ Hd).
  destruct (hd_size _ _ _ _ Hd) as [Hs _]. rewrite (geo_dir_pages (sb := sb)) by lia.
  destruct geo_chunk as (c & _ & Hc & Hc'). destruct (geo_sizes k sb) as (_ & _ & _ & _ & _ & _ & _ & _ & _ & HP).
  rewrite Z.shiftr_div_pow2, HP by lia. replace (PAGE_SHIFT k) with (9 + (PAGE_SHIFT k - 9)) at 1 2 by lia.
  rewrite Z.pow_add_r by lia. set (w := 2 ^ (PAGE_SHIFT k - 9)). change (2 ^ 9) with 512.
  assert (0 < w) by (apply Z.pow_pos_nonneg; lia).
  apply Z.lt_succ_r, Z.div_lt_upper_bound; [lia|]. pose proof (Z.div_mod (i_blocks d) w ltac:(lia)).
  pose proof (Z.mod_pos_bound (i_blocks d) w ltac:(lia)). nia.
Qed.

Lemma spot_view d d' pss s : view_le k d d' -> spot_ok d pss s -> spot_ok d' pss s.
Proof using.
  intros (_ & _ & Hv) (H1 & H2 & H3). split; [done|]. split; [done|]. intros (p & Ep & Hc)%H3. eauto.
Qed.

Lemma spot_lookup d pss s n : spot_ok d pss s -> spot_ok (with_lookup n d) pss s.
Proof using. by destruct d. Qed.

(** A held entry can be changed. *)
Lemma spot_rec d pss s : dir_ok d pss -> spot_ok d pss s -> sp_held s = true ->
  exists ra rc rb p, rec_here k sb d pss (Z.to_nat (sp_page s)) ra rc rb p /\ 0 <= sp_page s /\
    sp_off s = len (page_bytes ra) /\ dr_name rc = sp_name s /\ dr_ino rc = sp_ino s /\ dr_ino rc <> 0.
Proof using.
  intros Hd ((ra & rc & rb & E & Hr) & Hn & Hp) (p & Ep & Hc)%Hp. exists ra, rc, rb, p. split; [|done].
  apply checked_here; [apply Hd|done|by rewrite Z2Nat.id|done].
Qed.

Lemma spot_searched d d' pss s : searched k d d' -> spot_ok d pss s -> spot_ok d' pss s.
Proof using.
  intros (d1 & Hv & [->|(n & _ & ->)]) Hs; [|apply spot_lookup]; by apply (spot_view d).
Qed.

Lemma ok_view d d' pss : view_le k d d' -> dir_ok d pss -> dir_ok d' pss.
Proof using.
  intros Hv [H1 H2 H3 H4 H5]. destruct (view_ids k d d' Hv) as ((_ & _ & E & Hb) & _ & Hr).
  split; auto; [by apply (holds_view k sb d)|lia].
Qed.

Lemma ok_searched d d' pss : searched k d d' -> dir_ok d pss -> dir_ok d' pss.
Proof using.
  intros (d1 & Hv & [->|(n & Hn & ->)]) Hd; [by apply (ok_view d)|].
  destruct (ok_view d d1 pss Hv Hd) as [H1 H2 H3 H4 H5]. split; [by apply holds_lookup|done|by destruct d1|by destruct d1|by destruct d1].
Qed.

Lemma searched_same d d' : searched k d d' -> same_inode d d' /\ i_size d' = i_size d.
Proof using.
  intros (d1 & Hv & Hd'). destruct (view_ids k d d1 Hv) as ((E1 & E2 & _) & E3 & _).
  destruct Hd' as [->|(n & _ & ->)]; [done|]. by destruct d1.
Qed.

Lemma rep_find d m T name : dir_rep d m T -> valid_name name ->
  exists r d', ext2_find_entry k sb d name = Ok (r, d') /\ same_inode d d' /\ i_size d' = i_size d /\
    match r with
    | Some (n, de) => exists ino, dir_rep d' m (Spot n de name ino true :: T)
    | None => m !! name = None /\ dir_rep d' m T
    end.
Proof using G.
  intros (pss & Hok & He & HT) Hn. assert (Hok0 := Hok). destruct Hok0 as [H1 H2 H3 H4 H5].
  destruct (find_entry_spec k sb d pss name H1 (blocks_cover_ok d pss H1 H4) H5 Hn) as (r & d' & -> & Hs & Hr).
  destruct (searched_same d d' Hs) as [Hsi Hsz]. exists r, d'. split; [done|]. split; [done|]. split; [done|].
  pose proof (ok_searched d d' pss Hs Hok) as Hok'.
  assert (HT' : Forall (spot_ok d' pss) T) by (eapply Forall_impl; [exact HT|intros; by eapply spot_searched]).
  destruct r as [[n de]|].
  - destruct Hr as (rs1 & rc & rs2 & p & Hn0 & E & -> & Hm & Ep & Hc & Hp).
    apply (is_match_true sb) in Hm as [Hi Hnm]; cycle 1.
    { eapply dir_rec_ok; [exact H1|]. apply list_elem_of_join. exists (rs1 ++ rc :: rs2).
      split; [set_solver|by eapply list_elem_of_lookup_2]. }
    exists (dr_ino rc), pss. split; [done|]. split; [done|]. constructor; [|done].
    split; [by exists rs1, rc, rs2|]. split; [done|]. by exists p.
  - split; [|by exists pss]. apply eq_None_not_Some. intros [ino Hino]. apply elem_of_map_to_list in Hino.
    rewrite <- He in Hino. by apply (proj1 (no_match_entries k sb d pss name H1) Hr ino).
Qed.

(** The inode of an entry that is held. *)
Lemma rep_entry_inode d m T s : dir_rep d m (s :: T) -> sp_held s = true ->
  (let* kaddr := page_address d (sp_page s) in de_get kaddr (sp_off s) de_inode) = Ok (sp_ino s).
Proof using G.
  intros (pss & Hok & _ & (Hsp & _)%Forall_cons) Hh.
  destruct (spot_rec _ _ _ Hok Hsp Hh) as (ra & rc & rb & p & (E & Ep & Hc & Hp) & Hn0 & -> & _ & <- & _).
  destruct (last_byte_range k sb d pss _ (ok_holds _ _ Hok) (lookup_lt_Some _ _ _ E)) as [_ Hmod].
  destruct (page_at_rec k sb _ _ ra rc rb Hp Hmod) as [Ha _]. rewrite Z2Nat.id in * by done.
  unfold page_address. rewrite Ep. cbn [rbind]. by rewrite (at_rec_get sb _ _ rc).
Qed.

Lemma rep_inode_by_name d m T name : dir_rep d m T -> valid_name name ->
  exists d', ext2_inode_by_name k sb d name = Ok (default 0 (m !! name), d') /\ same_inode d d' /\
    i_size d' = i_size d /\ dir_rep d' m T.
Proof using G.
  intros Hd Hn. unfold ext2_inode_by_name.
  destruct (rep_find d m T name Hd Hn) as (r & d' & -> & Hs & Hz & Hr). cbn [rbind]. destruct r as [[n de]|].
  - destruct Hr as (ino & Hr). pose proof (spot_in_map _ _ _ _ Hr) as Hm. cbn [sp_name sp_ino] in Hm.
    pose proof (rep_entry_inode _ _ _ _ Hr eq_refl) as Hi. cbn [sp_page sp_off sp_ino] in Hi.
    apply rbind_Ok in Hi as (kaddr & -> & Hi). cbn [rbind]. rewrite Hi, Hm. cbn [rbind].
    exists d'. split; [done|]. split; [done|]. split; [done|]. eapply rep_weaken; [|done]. set_solver.
  - destruct Hr as [-> Hr]. by exists d'.
Qed.

(** ** Changing the entries *)

Lemma ok_changed d d' pss pss' : dir_ok d pss -> changed k sb d d' pss' -> dir_ok d' pss'.
Proof using.
  intros [H1 H2 H3 H4 H5] (C1 & C2 & (_ & _ & E & Hb) & _ & C5). split; auto. by rewrite E.
Qed.

Lemma spot_kept m o d pss d' pss' s : kept m o d pss d' pss' -> spot_ok d pss s ->
  (Z.to_nat (sp_page s) = m -> sp_off s <> o) -> spot_ok d' pss' s.
Proof using.
  intros [Hp Hk] ((ra & rc & rb & E & Ho & Hnm & Hi & Hi0) & Hn & Hh) Hne. split; [|split; [done|]].
  - destruct (Hk _ _ E) as (rs' & E' & Hk'). destruct (Hk' ra rc rb eq_refl Hi0) as (ra' & rc' & rb' & -> & Hl & E1 & E2).
    { case_decide; [rewrite <- Ho; auto|]. pose proof (len_nonneg (page_bytes ra)). lia. }
    exists ra', rc', rb'. by rewrite Hl, E1, E2.
  - intros (p & Ep & Hc)%Hh. eauto.
Qed.

(** Entries with different names are at different places. *)
Lemma page_prefix_eq (ra ra' : list drec) rc rc' rb rb' : ra ++ rc :: rb = ra' ++ rc' :: rb' ->
  len (page_bytes ra) = len (page_bytes ra') -> ra = ra' /\ rc = rc' /\ rb = rb'.
Proof using.
  revert ra'. induction ra as [|r ra IH]; intros [|r' ra'] E Hl.
  - by injection E as -> ->.
  - rewrite len_page_bytes_cons in Hl. change (len (page_bytes [])) with 0 in Hl. unfold dr_len in Hl.
    pose proof (len_nonneg (dr_body r')). pose proof (len_nonneg (page_bytes ra')). lia.
  - rewrite len_page_bytes_cons in Hl. change (len (page_bytes [])) with 0 in Hl. unfold dr_len in Hl.
    pose proof (len_nonneg (dr_body r)). pose proof (len_nonneg (page_bytes ra)). lia.
  - simpl in E. injection E as -> E. rewrite !len_page_bytes_cons in Hl.
    destruct (IH ra' E ltac:(lia)) as (-> & -> & ->). done.
Qed.

Lemma spots_differ d pss s t : spot_ok d pss s -> spot_ok d pss t -> sp_name t <> sp_name s ->
  Z.to_nat (sp_page t) = Z.to_nat (sp_page s) -> sp_off t <> sp_off s.
Proof using.
  intros ((ra & rc & rb & E & Ho & Hn & _) & _) ((ra' & rc' & rb' & E' & Ho' & Hn' & _) & _) Hne Hpg Heq.
  rewrite Hpg, E in E'. injection E' as E'. destruct (page_prefix_eq _ _ _ _ _ _ E') as (-> & -> & ->); [congruence|].
  congruence.
Qed.

Lemma spots_kept d pss d' pss' s T : kept (Z.to_nat (sp_page s)) (sp_off s) d pss d' pss' ->
  spot_ok d pss s -> Forall (fun t => sp_name t <> sp_name s) T -> Forall (spot_ok d pss) T -> Forall (spot_ok d' pss') T.
Proof using.
  intros Hk Hs Hne HT. rewrite Forall_forall in *. intros t Ht. eapply spot_kept; [done|by apply HT|].
  intros Hpg. eapply spots_differ; eauto.
Qed.

Lemma spots_all_kept d pss d' pss' T : kept 0 (-1) d pss d' pss' -> Forall (spot_ok d pss) T ->
  Forall (spot_ok d' pss') T.
Proof using.
  intros Hk HT. eapply Forall_impl; [exact HT|]. intros s Hs. eapply spot_kept; [done|done|].
  intros _. destruct Hs as ((ra & _ & _ & _ & -> & _) & _). pose proof (len_nonneg (page_bytes ra)). lia.
Qed.

Lemma rep_add d m T name inode : dir_rep d m T -> valid_name name -> valid_target sb inode ->
  i_size d + s_blocksize sb < 2 ^ 32 -> m !! name = None ->
  exists err d', ext2_add_link k sb d name inode = Ok (err, d') /\ same_inode d d' /\
    (err = commit_err k /\ dir_rep d' (<[name := t_ino inode]> m) T \/ err <> 0 /\ ~ writable k /\ dir_rep d' m T).
Proof using G.
  intros (pss & Hok & He & HT) Hn Ht Hlt Hm. assert (Hok0 := Hok). destruct Hok0 as [H1 H2 H3 H4 H5].
  destruct (add_link_spec k sb d pss name inode H1 H2) as (err & d' & E & Ho); [by apply H3; lia|done..|].
  exists err, d'. split; [done|].
  assert (Hun : forall d', unchanged k sb d pss d' -> same_inode d d' /\ dir_rep d' m T).
  { intros d0 (U1 & (I1 & I2 & I3 & I4) & U3 & U4 & U5). split; [done|]. exists pss.
    split; [split; auto; by rewrite I3|]. split; [done|by eapply spots_all_kept]. }
  destruct Ho as [d' Hex Hu|d' Ha|d' size pos l Hne Hu].
  - exfalso. apply Exists_exists in Hex as (r & Hr & Hmt).
    apply (is_match_true sb) in Hmt as [Hi Hnm]; [|by eapply dir_rec_ok].
    assert (Hin : (name, dr_ino r) ∈ map_to_list m) by (rewrite <- He; apply elem_of_entries; eauto).
    apply elem_of_map_to_list in Hin. congruence.
  - destruct Ha as (pss' & A1 & A2 & A3 & A4 & (I1 & I2 & I3 & I4) & A6 & A7). split; [done|]. left. split; [done|].
    exists pss'. split; [split; auto; by rewrite I3|]. split; [|by eapply spots_all_kept].
    by rewrite A3, map_to_list_insert, He.
  - destruct (Hun d' Hu). split; [done|]. right. split; [done|]. split; [intros Hw; by apply Hne, Hw|done].
Qed.

Lemma rep_delete d m T s : dir_rep d m (s :: T) -> Forall (fun t => sp_name t <> sp_name s) T -> sp_held s = true -> rewritable k ->
  exists d', ext2_delete_entry k sb d (sp_page s) (sp_off s) = Ok (commit_err k, d') /\ same_inode d d' /\
    i_size d' = i_size d /\ dir_rep d' (delete (sp_name s) m) T.
Proof using G.
  intros Hd Hne Hhd Hw. pose proof (spot_in_map _ _ _ _ Hd) as Hm. destruct Hd as (pss & Hok & He & (Hs & HT)%Forall_cons).
  destruct (spot_rec _ _ _ Hok Hs Hhd) as (ra & rc & rb & p & Hh & Hn & Ho & Hnm & Hi & Hi0).
  destruct (delete_entry_spec k sb d pss _ ra rc rb p (ok_holds _ _ Hok) (ok_named _ _ Hok) Hh Hi0 Hw)
    as (d' & pss' & E & Hch & Hk & Hen). rewrite Z2Nat.id, <- Ho in E by done.
  exists d'. split; [done|]. assert (Hch0 := Hch). destruct Hch0 as (_ & _ & (I1 & I2 & _) & Hsz & _). split; [done|]. split; [done|].
  exists pss'. split; [by eapply ok_changed|]. split; [|rewrite <- Ho in Hk; by eapply spots_kept].
  rewrite He, Hnm, Hi in Hen. rewrite <- (map_to_list_delete m _ _ Hm) in Hen. by apply Permutation_cons_inv in Hen.
Qed.

Lemma rep_set_link d m T s inode times : dir_rep d m (s :: T) -> Forall (fun t => sp_name t <> sp_name s) T ->
  sp_held s = true -> rewritable k -> valid_target sb inode ->
  exists d', ext2_set_link k sb d (sp_page s) (sp_off s) inode times = Ok d' /\ same_inode d d' /\
    i_size d' = i_size d /\
    dir_rep d' (<[sp_name s := t_ino inode]> m) (Spot (sp_page s) (sp_off s) (sp_name s) (t_ino inode) true :: T).
Proof using G.
  intros Hd Hne Hhd Hw Ht. pose proof (spot_in_map _ _ _ _ Hd) as Hm. destruct Hd as (pss & Hok & He & (Hs & HT)%Forall_cons).
  destruct (spot_rec _ _ _ Hok Hs Hhd) as (ra & rc & rb & p & Hh & Hn & Ho & Hnm & Hi & Hi0).
  destruct (set_link_spec k sb d pss _ ra rc rb p inode times (ok_holds _ _ Hok) (ok_named _ _ Hok) Hh Hi0 Ht Hw)
    as (d' & pss' & E & Hch & Hk & (p' & Hh') & Hen). rewrite Z2Nat.id, <- Ho in E by done.
  exists d'. split; [done|]. assert (Hch0 := Hch). destruct Hch0 as (_ & _ & (I1 & I2 & _) & Hsz & _). split; [done|]. split; [done|].
  exists pss'. split; [by eapply ok_changed|]. split.
  - rewrite He, Hnm, Hi, <- (map_to_list_delete m _ _ Hm) in Hen. rewrite Permutation_swap in Hen.
    apply Permutation_cons_inv in Hen. rewrite <- Hen, <- insert_delete_eq. symmetry.
    apply map_to_list_insert, lookup_delete_eq.
  - constructor; [|rewrite <- Ho in Hk; by eapply spots_kept].
    unfold valid_target in Ht. destruct Hh' as (E' & Ep' & Hc' & _). rewrite Z2Nat.id in Ep' by done.
    split; [|split; [done|by exists p']]. exists ra, (relinked sb rc inode), rb. split; [done|]. split; [done|].
    split; [exact Hnm|]. split; [done|]. simpl. lia.
Qed.

(** ** The entries [.] and [..] *)

Definition dots (ino parent : Z) : list spot := [Spot 0 0 [dot] ino false; Spot 0 12 [dot; dot] parent false].

Definition new_dir (ino parent : Z) : dirmap := {[ [dot] := ino; [dot; dot] := parent ]}.

Lemma rep_make_empty fresh d parent : i_size d = 0 -> 0 <= i_blocks d -> 0 <= i_dir_start_lookup d ->
  0 < i_ino d <= sb_inodes_count sb -> 0 < parent <= sb_inodes_count sb ->
  i_pages d !! 0 = None -> (forall data, fresh = Some data -> len data = PAGE_SIZE k) -> all_readable k d ->
  exists err d', ext2_make_empty k sb fresh d parent = Ok (err, d') /\ same_inode d d' /\
    (err = commit_err k /\ i_size d' = s_blocksize sb /\ dir_rep d' (new_dir (i_ino d) parent) (dots (i_ino d) parent) \/
     err <> 0 /\ (fresh = None \/ ~ writable k)).
Proof using G.
  intros Hsz Hb Hlk Hi Hp Hpg Hl Ha. destruct fresh as [data|].
  2: { exists (- ENOMEM), d. unfold ext2_make_empty, grab_cache_page. rewrite Hpg. split; [done|]. split; [done|]. right. split; [done|by left]. }
  destruct (decide (fst (block_write_begin k 0 0 (s_blocksize sb)) = 0)) as [Hw|Hw].
  2: { unfold ext2_make_empty, grab_cache_page. rewrite Hpg. unfold ext2_prepare_chunk, ext2_chunk_size.
    replace (i_size (with_pages _ d)) with 0 by (by destruct d).
    destruct (block_write_begin k 0 0 (s_blocksize sb)) as [e sec] eqn:E. simpl in Hw. rewrite (proj2 (Z.eqb_neq e 0) Hw).
    eexists e, _. split; [done|]. split; [by destruct d|]. right. split; [done|]. right. intros Hwr. apply Hw.
    specialize (Hwr 0 0 (s_blocksize sb)). by rewrite E in Hwr. }
  exists (commit_err k). specialize (Hl data eq_refl).
  destruct (make_empty_spec k sb (Some data) d parent (Page data false false) Hsz Hi Hp Hw)
    as (d' & E & H1 & H2 & H3 & (I1 & I2 & I3 & I4) & Hs & H5); [by unfold grab_cache_page; rewrite Hpg|done..|].
  exists d'. split; [done|]. split; [done|]. left. split; [done|]. split; [done|].
  eexists. split; [split; [exact H1|done|auto|apply I4; unfold blocks_ok; lia|lia]|].
  split; [rewrite H3; unfold new_dir; by rewrite map_to_list_insert, map_to_list_singleton|].
  assert (Hd : forall x y n i, x ++ y = [dot_rec sb (i_ino d) (i_mode d); dotdot_rec sb parent (i_mode d)] ->
    (exists rc rb, y = rc :: rb /\ dr_name rc = n /\ dr_ino rc = i /\ dr_ino rc <> 0) ->
    spot_ok d' [[dot_rec sb (i_ino d) (i_mode d); dotdot_rec sb parent (i_mode d)]] (Spot 0 (len (page_bytes x)) n i false)).
  { intros x y n i <- (rc & rb & -> & H). split; [|split; [simpl; lia|done]]. by exists x, rc, rb. }
  constructor; [apply (Hd [] _ _ _ eq_refl)|constructor; [|done]; apply (Hd [_] _ _ _ eq_refl)];
    eexists _, _; (split; [reflexivity|]); simpl; repeat split; lia.
Qed.

(** What [ext2_empty_dir] asks of the entries. *)
Lemma dot_entry_spec ino r : rec_ok sb r -> named r ->
  dot_entry ino r = true <-> (dr_ino r <> 0 -> dr_name r = [dot] /\ dr_ino r = ino \/ dr_name r = [dot; dot]).
Proof using.
  intros Hr Hnm. pose proof (name_fits sb r Hr) as Hf. unfold dot_entry, named, dr_name in *.
  destruct (Z.eqb_spec (dr_ino r) 0) as [E|E]; [simpl; tauto|]. specialize (Hnm E). cbn [orb].
  rewrite andb_true_iff, bool_decide_eq_true.
  assert (H12 : 12 <= dr_len r) by apply Hr. unfold dr_len in H12.
  destruct (dr_body r) as [|b0 [|b1 bs]]; [unfold len in H12; simpl in H12; lia..|]. cbn [take].
  destruct (Z.ltb_spec (dr_name_len r) 2) as [Hlt|Hge].
  { replace (dr_name_len r) with 1 by lia. cbn [Z.to_nat Pos.to_nat Pos.iter_op take]. rewrite Z.eqb_eq.
    split; [intros [[= ->] ?]; auto|]. intros H. by destruct (H E) as [[[= ->] ?]|?]. }
  rewrite andb_true_iff, Z.eqb_eq, bool_decide_eq_true. split.
  - intros (_ & -> & [= -> ->]) _. by right.
  - intros H. assert (Hl : length (take (Z.to_nat (dr_name_len r)) (b0 :: b1 :: bs)) = Z.to_nat (dr_name_len r)).
    { rewrite length_take. unfold len in Hf. simpl in *. lia. }
    destruct (H E) as [[Hn _]|Hn]; rewrite Hn in Hl; simpl in Hl; [lia|].
    assert (E2 : dr_name_len r = 2) by lia. rewrite E2 in Hn |- *. simpl in Hn. by injection Hn as -> ->.
Qed.

Definition only_dots (ino : Z) (m : dirmap) : Prop :=
  forall name i, m !! name = Some i -> name = [dot] /\ i = ino \/ name = [dot; dot].

Lemma rep_empty_dir d m T : dir_rep d m T -> 0 <= i_ino d < 2 ^ 32 ->
  exists b d', ext2_empty_dir k sb d = Ok (b, d') /\ same_inode d d' /\ i_size d' = i_size d /\ dir_rep d' m T /\
    (b = true <-> only_dots (i_ino d) m).
Proof using G.
  intros (pss & Hok & He & HT) Hi. destruct (empty_dir_spec k sb d pss (ok_holds _ _ Hok) Hi) as (d' & -> & Hv).
  eexists _, d'. split; [done|]. destruct (view_ids k d d' Hv) as ((I1 & I2 & _) & Hsz & _). split; [done|]. split; [done|].
  split; [exists pss; split; [by apply (ok_view d)|]; split; [done|]; eapply Forall_impl; [exact HT|intros; by eapply spot_view]|].
  rewrite forallb_forall. assert (Hall : forall r, r ∈ mjoin pss -> rec_ok sb r /\ named r).
  { intros r Hr. split; [eapply dir_rec_ok; [apply Hok|done]|]. pose proof (ok_named _ _ Hok) as Hn. rewrite Forall_forall in Hn. auto. }
  split.
  - intros H name i Hm. apply elem_of_map_to_list in Hm. rewrite <- He in Hm.
    apply elem_of_entries in Hm as (r & Hr & Hr0 & <- & <-). destruct (Hall r Hr).
    apply (dot_entry_spec (i_ino d) r); [done|done|apply H; by apply list_elem_of_In|done].
  - intros H r Hr%list_elem_of_In. destruct (Hall r Hr). apply dot_entry_spec; [done|done|]. intros Hr0.
    apply (H (dr_name r) (dr_ino r)). apply elem_of_map_to_list. rewrite <- He. apply elem_of_entries. eauto.
Qed.

(** The second record of the directory is the entry [..]. *)
Lemma rep_dotdot d m T ino parent : dir_rep d m (dots ino parent ++ T) ->
  exists d', ext2_dotdot k sb d = Ok (Some 12, d') /\ same_inode d d' /\ i_size d' = i_size d /\
    dir_rep d' m (Spot 0 12 [dot; dot] parent true :: Spot 0 0 [dot] ino false :: T).
Proof using G.
  intros (pss & Hok & He & HT). apply Forall_app in HT as [Hdots HT]. apply Forall_cons in Hdots as [Hd1 (Hd2 & _)%Forall_cons].
  assert (Hd1' := Hd1). destruct Hd1' as ((ra & r1 & rb & E & Ho & Hn1 & _) & _ & _).
  assert (Hd2' := Hd2). destruct Hd2' as ((ra2 & r2 & rb2 & E2 & Ho2 & Hn2 & Hi2 & Hi20) & _ & _). cbn [sp_page sp_off sp_name sp_ino] in *.
  change (Z.to_nat 0) with 0%nat in *. rewrite E in E2. injection E2 as E2.
  destruct ra as [|r ra]; [|rewrite len_page_bytes_cons in Ho; unfold dr_len in Ho; pose proof (len_nonneg (dr_body r));
    pose proof (len_nonneg (page_bytes ra)); lia].
  destruct (get_page_spec k sb d pss 0 _ false (ok_holds _ _ Hok) E) as (kaddr & d' & p & Eg & Hv & Hp & Epg & Epd & Hc).
  destruct (last_byte_range k sb d pss 0 (ok_holds _ _ Hok) (lookup_lt_Some _ _ _ E)) as [_ Hm].
  destruct (page_at_rec k sb _ _ [] r1 rb Hp Hm) as [Ha _].
  assert (Hl : dr_len r1 = 12).
  { assert (12 <= dr_len r1) by (destruct Ha as (_&_&_&_&(_&_&_&_&?&_)&_); done).
    destruct ra2 as [|r ra2]; [done|]. simpl in E2. injection E2 as <- _.
    rewrite len_page_bytes_cons in Ho2. pose proof (len_nonneg (page_bytes ra2)). lia. }
  unfold ext2_dotdot. change (Z.of_nat 0) with 0 in *. rewrite Eg. cbn [rbind].
  change 0 with (len (page_bytes [])) at 1. rewrite (at_rec_next k sb _ _ r1), Hl by done. cbn [rbind].
  exists d'. split; [done|]. destruct (view_ids k d d' Hv) as ((I1 & I2 & _) & Hsz & _). split; [done|]. split; [done|].
  exists pss. split; [by apply (ok_view d)|]. split; [done|]. constructor; [|constructor; [by eapply spot_view|]].
  - destruct Hd2 as (Hx & Hy & _). split; [exact Hx|]. split; [exact Hy|]. intros _. by exists p.
  - eapply Forall_impl; [exact HT|]. intros; by eapply spot_view.
Qed.
End Rep.
