(* ===== verification/Ext2DirTheorems.v ===== *)
(** * ext2: what the directory code guarantees

    The theorems on [fs/ext2/dir.c]: which pages are accepted, what [ext2_readdir]
    emits and where it resumes, and how the entries change.  [DemoDir] is a directory
    with blocks of 1024 bytes in pages of 4096. *)

From S2P Require Import Prelude CString ByteMem Ext2Layout Ext2Dir Ext2DirPage Ext2DirRead Ext2DirFind Ext2DirWrite Ext2DirUpdate Ext2DirRep.

Module DemoDir.
Definition zero_page : list byte := replicate 4096 NUL.

Definition demo_kernel : kernel :=
  Kernel 12 (fun size => (size + 4095) / 4096) 4096 (fun _ => inr zero_page)
    (fun _ _ l => (0, Z.max 0 ((l + 511) / 512))) None 1000.

Definition demo_super : super := Super 1024 64 2.

#[global] Instance demo_geometry : Geometry demo_kernel demo_super.
Proof.
  split; [exists 10; simpl; lia|simpl; lia| |].
  - intros n Hn. change (PAGE_SIZE demo_kernel) with 4096. simpl. f_equal. lia.
  - intros size pos l. simpl. pose proof (Z.div_mod (l + 511) 512 ltac:(lia)).
    pose proof (Z.mod_pos_bound (l + 511) 512 ltac:(lia)). lia.
Qed.

Lemma demo_writable : writable demo_kernel.
Proof. done. Qed.

(** A directory in use: [.], [..] and a file [a] after a free record. *)
Definition rec_a : drec := Drec 7 1 1 ([Byte.x61] ++ replicate 975 NUL).
Definition demo_recs : list drec :=
  [dot_rec demo_super 2 16877; Drec 2 2 2 [dot; dot; NUL; NUL]; Drec 0 3 1 [NUL; NUL; NUL; NUL; NUL; NUL; NUL; NUL]; rec_a].

Definition demo_data : list byte := page_bytes demo_recs ++ replicate 3072 NUL.

Definition demo_dir : dir :=
  Dir 2 16877 1024 8 0 0 0 0 0 false (<[0 := Page demo_data false false]> ∅) [].

Lemma demo_page_holds : page_holds demo_kernel demo_super demo_data 1024 demo_recs.
Proof.
  split; [vm_compute; reflexivity|]. split; [|split; [vm_compute; reflexivity|by eexists]].
  simpl recs_ok. unfold rec_ok, in_chunk. vm_compute. intuition discriminate.
Qed.

Lemma demo_holds : holds_dir demo_kernel demo_super demo_dir [demo_recs].
Proof.
  apply (fresh_dir demo_kernel demo_super demo_dir demo_data demo_recs (Page demo_data false false));
    [done|done|done|apply demo_page_holds].
Qed.

Lemma demo_named : Forall named (mjoin [demo_recs]).
Proof. repeat constructor; unfold named; simpl; lia. Qed.

Lemma demo_dir_readable ino mode blocks : all_readable demo_kernel
  (Dir ino mode 1024 blocks 0 0 0 0 0 false (<[0 := Page demo_data false false]> ∅) []).
Proof.
  intros n _. unfold readable. simpl i_pages. destruct (decide (n = 0)) as [->|]; [|rewrite lookup_insert_ne by done].
  - exists demo_data. rewrite lookup_insert_eq. split; [simpl; auto|vm_compute; reflexivity].
  - exists zero_page. split; vm_compute; reflexivity.
Qed.

(** A new directory inode, before [ext2_make_empty]. *)
Definition new_dir_inode : dir := Dir 12 16877 0 0 0 0 0 0 0 false ∅ [].

Lemma new_dir_readable : all_readable demo_kernel new_dir_inode.
Proof. intros n _. exists zero_page. split; vm_compute; reflexivity. Qed.

Definition demo_map : dirmap := {[ [dot] := 2; [dot; dot] := 2; [Byte.x61] := 7 ]}.

Lemma demo_rep : dir_rep demo_kernel demo_super demo_dir demo_map [].
Proof.
  exists [demo_recs]. split; [split|].
  - apply demo_holds.
  - apply demo_named.
  - apply demo_dir_readable.
  - vm_compute. discriminate.
  - done.
  - split; [|done]. unfold demo_map. rewrite !map_to_list_insert by by vm_compute. rewrite map_to_list_singleton. done.
Qed.
End DemoDir.

(** [ext2_check_page] accepts exactly the pages whose bytes up to the end of the
    directory are well-formed records: long enough for their names, aligned, within
    their chunk and with an inode in range.  It reads nothing outside the page whatever
    the page holds, and marks the page checked or bad. *)
Theorem check_page_accepts_records k sb `{!Geometry k sb} d n p quiet :
  size_ok sb d -> 0 <= n -> n * PAGE_SIZE k < i_size d -> len (p_data p) = PAGE_SIZE k ->
  exists good d', ext2_check_page k sb d n p quiet = Ok (good, d') /\
    (good = true <-> exists rs, page_holds k sb (p_data p) (ext2_last_byte k d n) rs) /\
    i_pages d' !! n = Some (Page (p_data p) (good || p_checked p) (negb good || p_error p)).
Proof.
  intros Hs Hn Hlt Hl. unfold ext2_check_page.
  destruct (check_data_spec k sb d n (p_data p) Hs Hn Hlt Hl) as (e & -> & He). cbn [rbind].
  destruct e as [r|]; eexists _, _; (split; [done|]); (split; [|destruct d, quiet; apply lookup_insert_eq]).
  - split; [done|]. intros Hx. by apply He in Hx.
  - split; [|done]. intros _. by apply He.
Qed.

Lemma check_page_accepts_records_witness :
  exists good d', ext2_check_page DemoDir.demo_kernel DemoDir.demo_super DemoDir.demo_dir 0
      (Page DemoDir.demo_data false false) false = Ok (good, d') /\
    (good = true <-> exists rs, page_holds DemoDir.demo_kernel DemoDir.demo_super DemoDir.demo_data
       (ext2_last_byte DemoDir.demo_kernel DemoDir.demo_dir 0) rs) /\
    i_pages d' !! 0 = Some (Page DemoDir.demo_data (good || false) (negb good || false)).
Proof.
  apply (check_page_accepts_records DemoDir.demo_kernel DemoDir.demo_super DemoDir.demo_dir 0
    (Page DemoDir.demo_data false false) false); [split; [simpl; lia|reflexivity]|lia|reflexivity|vm_compute; reflexivity].
Defined.

(** C35: from a position between two records, and whatever the actor of the context,
    [ext2_readdir] returns 0, hands over the live entries that follow in order until the
    actor refuses one, and leaves the position at that entry or at the end: the next call
    goes on there. *)
Theorem readdir_emits_and_resumes k sb `{!Geometry k sb} actor d pss before after f_version ctx :
  holds_dir k sb d pss -> mjoin pss = before ++ after -> ctx_pos ctx = len (page_bytes before) ->
  exists d' fv' ctx' seen left, ext2_readdir k sb actor d f_version ctx = Ok (0, d', fv', ctx') /\
    holds_dir k sb d' pss /\ after = seen ++ left /\ ctx_pos ctx' = len (page_bytes (before ++ seen)) /\
    ctx_out ctx' = ctx_out ctx ++ map (emit_of sb) (filter (fun r => dr_ino r <> 0) seen) /\
    (left = [] \/ exists r left', left = r :: left' /\ dr_ino r <> 0 /\ actor ctx' (emit_of sb r) = false).
Proof.
  intros Hd E Hpos. destruct (readdir_spec k sb actor d pss before after f_version ctx Hd E Hpos) as (d' & fv' & Hv & Er).
  destruct (emit_split sb actor after ctx) as (rs1 & rs2 & H1 & H2 & H3 & H4).
  eexists d', fv', _, rs1, rs2. split; [exact Er|]. split; [by eapply holds_view|]. split; [done|].
  rewrite page_bytes_app, len_app, <- Hpos. auto.
Qed.

Lemma readdir_emits_and_resumes_witness :
  exists d' fv' ctx' seen left, ext2_readdir DemoDir.demo_kernel DemoDir.demo_super (fun c _ => bool_decide (length (ctx_out c) < 2)%nat)
      DemoDir.demo_dir 0 (Ctx 0 []) = Ok (0, d', fv', ctx') /\
    holds_dir DemoDir.demo_kernel DemoDir.demo_super d' [DemoDir.demo_recs] /\
    mjoin [DemoDir.demo_recs] = seen ++ left /\ ctx_pos ctx' = len (page_bytes ([] ++ seen)) /\
    ctx_out ctx' = [] ++ map (emit_of DemoDir.demo_super) (filter (fun r => dr_ino r <> 0) seen) /\
    (left = [] \/ exists r left', left = r :: left' /\ dr_ino r <> 0 /\
       bool_decide (length (ctx_out ctx') < 2)%nat = false).
Proof.
  apply (readdir_emits_and_resumes DemoDir.demo_kernel DemoDir.demo_super (fun c _ => bool_decide (length (ctx_out c) < 2)%nat)
    DemoDir.demo_dir [DemoDir.demo_recs] [] (mjoin [DemoDir.demo_recs]) 0 (Ctx 0 [])); [apply DemoDir.demo_holds|reflexivity|reflexivity].
Defined.

(** [ext2_inode_by_name] looks a name up: it returns the inode of the entry with that
    name, or 0 when there is none, and the entries stay as they are. *)
Theorem inode_by_name_looks_up k sb `{!Geometry k sb} d m name :
  dir_rep k sb d m [] -> valid_name name ->
  exists d', ext2_inode_by_name k sb d name = Ok (default 0 (m !! name), d') /\ dir_rep k sb d' m [].
Proof.
  intros Hd Hn. destruct (rep_inode_by_name k sb d m [] name Hd Hn) as (d' & E & _ & _ & Hr). eauto.
Qed.

Lemma inode_by_name_looks_up_witness :
  exists d', ext2_inode_by_name DemoDir.demo_kernel DemoDir.demo_super DemoDir.demo_dir [Byte.x61] = Ok (7, d') /\
    dir_rep DemoDir.demo_kernel DemoDir.demo_super d' DemoDir.demo_map [].
Proof.
  apply (inode_by_name_looks_up DemoDir.demo_kernel DemoDir.demo_super DemoDir.demo_dir DemoDir.demo_map [Byte.x61]);
    [apply DemoDir.demo_rep|split; vm_compute; discriminate].
Defined.

(** C34: [ext2_add_link] of a new name adds exactly that entry, or fails and leaves the
    entries alone; it fails only when no blocks can be had.  The error of a synchronous
    write is returned although the entry has been added. *)
Theorem add_link_adds_or_fails k sb `{!Geometry k sb} d m name inode :
  dir_rep k sb d m [] -> valid_name name -> valid_target sb inode ->
  i_size d + s_blocksize sb < 2 ^ 32 -> m !! name = None ->
  exists err d', ext2_add_link k sb d name inode = Ok (err, d') /\
    (err = commit_err k /\ dir_rep k sb d' (<[name := t_ino inode]> m) [] \/
     err <> 0 /\ ~ writable k /\ dir_rep k sb d' m []).
Proof.
  intros Hd Hn Ht Hs Hm. destruct (rep_add k sb d m [] name inode Hd Hn Ht Hs Hm) as (err & d' & E & _ & Hr). eauto.
Qed.

Lemma add_link_adds_or_fails_witness :
  exists err d', ext2_add_link DemoDir.demo_kernel DemoDir.demo_super DemoDir.demo_dir [Byte.x62] (Target 9 33188) = Ok (err, d') /\
    (err = 0 /\ dir_rep DemoDir.demo_kernel DemoDir.demo_super d' (<[[Byte.x62] := 9]> DemoDir.demo_map) [] \/
     err <> 0 /\ ~ writable DemoDir.demo_kernel /\ dir_rep DemoDir.demo_kernel DemoDir.demo_super d' DemoDir.demo_map []).
Proof.
  apply (add_link_adds_or_fails DemoDir.demo_kernel DemoDir.demo_super DemoDir.demo_dir DemoDir.demo_map [Byte.x62] (Target 9 33188));
    [apply DemoDir.demo_rep|split; vm_compute; discriminate|split; simpl; lia|simpl; lia|vm_compute; reflexivity].
Defined.

(** C31: an entry that is added is found by its name, and deleting what was found gives a
    directory with the entries of before: no other entry is touched on the way. *)
Theorem add_find_delete_roundtrip k sb `{!Geometry k sb} d m name inode :
  dir_rep k sb d m [] -> valid_name name -> valid_target sb inode ->
  i_size d + s_blocksize sb < 2 ^ 32 -> m !! name = None -> writable k -> commit_err k = 0 ->
  exists d1 n de d2 d3, ext2_add_link k sb d name inode = Ok (0, d1) /\
    ext2_find_entry k sb d1 name = Ok (Some (n, de), d2) /\
    (let* kaddr := page_address d2 n in de_get kaddr de de_inode) = Ok (t_ino inode) /\
    ext2_delete_entry k sb d2 n de = Ok (0, d3) /\ dir_rep k sb d3 m [].
Proof.
  intros Hd Hn Ht Hs Hm Hw Hc.
  destruct (rep_add k sb d m [] name inode Hd Hn Ht Hs Hm) as (err & d1 & E1 & _ & [[-> H1]|(_ & Hnw & _)]); [|done].
  rewrite Hc in E1. destruct (rep_find k sb d1 _ [] name H1 Hn) as (r & d2 & E2 & _ & _ & H2).
  destruct r as [[n de]|]; [|destruct H2 as [H2 _]; by rewrite lookup_insert_eq in H2]. destruct H2 as (ino & H2).
  pose proof (spot_in_map _ _ _ _ _ _ H2) as Hi. simpl in Hi. rewrite lookup_insert_eq in Hi. injection Hi as <-.
  destruct (rep_delete k sb d2 _ [] _ H2) as (d3 & E3 & _ & _ & H3); [done..|intros ??? _; apply Hw|]. rewrite Hc in E3. simpl in E3, H3.
  rewrite delete_insert_id in H3 by done. exists d1, n, de, d2, d3. split; [done|]. split; [done|]. split; [|done].
  exact (rep_entry_inode k sb _ _ _ _ H2 eq_refl).
Qed.

Lemma add_find_delete_roundtrip_witness :
  exists d1 n de d2 d3, ext2_add_link DemoDir.demo_kernel DemoDir.demo_super DemoDir.demo_dir [Byte.x62] (Target 9 33188) = Ok (0, d1) /\
    ext2_find_entry DemoDir.demo_kernel DemoDir.demo_super d1 [Byte.x62] = Ok (Some (n, de), d2) /\
    (let* kaddr := page_address d2 n in de_get kaddr de de_inode) = Ok 9 /\
    ext2_delete_entry DemoDir.demo_kernel DemoDir.demo_super d2 n de = Ok (0, d3) /\
    dir_rep DemoDir.demo_kernel DemoDir.demo_super d3 DemoDir.demo_map [].
Proof.
  apply (add_find_delete_roundtrip DemoDir.demo_kernel DemoDir.demo_super DemoDir.demo_dir DemoDir.demo_map [Byte.x62] (Target 9 33188));
    [apply DemoDir.demo_rep|split; vm_compute; discriminate|split; simpl; lia|simpl; lia|vm_compute; reflexivity|
     apply DemoDir.demo_writable|reflexivity].
Defined.

(** [ext2_make_empty] on a new inode writes a directory with the entries [.] and [..]
    only, whatever was in the page it gets; [ext2_empty_dir] calls it empty, and after an
    entry has been added no longer. *)
Theorem make_empty_is_empty k sb `{!Geometry k sb} data d parent name inode :
  i_size d = 0 -> i_blocks d = 0 -> i_dir_start_lookup d = 0 -> i_pages d !! 0 = None -> all_readable k d ->
  0 < i_ino d <= sb_inodes_count sb -> 0 < parent <= sb_inodes_count sb -> writable k -> commit_err k = 0 ->
  len data = PAGE_SIZE k -> valid_name name -> valid_target sb inode -> name <> [dot] -> name <> [dot; dot] ->
  exists d1 d2 d3 d4, ext2_make_empty k sb (Some data) d parent = Ok (0, d1) /\
    ext2_empty_dir k sb d1 = Ok (true, d2) /\ dir_rep k sb d2 (new_dir (i_ino d) parent) [] /\
    ext2_add_link k sb d2 name inode = Ok (0, d3) /\ ext2_empty_dir k sb d3 = Ok (false, d4).
Proof.
  intros Hsz Hb Hlk Hpg Ha Hi Hp Hw Hc Hl Hn Ht Hd1 Hd2. pose proof (geo_inodes (sb := sb)) as HI.
  destruct (rep_make_empty k sb (Some data) d parent) as (err & d1 & E1 & (I1 & _) & [(-> & Hz1 & H1)|(_ & [?|?])]);
    try (done || lia || (intros ? [= <-]; done)). rewrite Hc in E1.
  destruct (rep_empty_dir k sb d1 _ _ H1) as (b & d2 & E2 & (I2 & _) & Hz2 & H2 & Hiff); [lia|].
  assert (b = true) as ->.
  { apply Hiff. rewrite I1. intros n i Hni. unfold new_dir in Hni. apply lookup_insert_Some in Hni as [[<- <-]|[_ Hni]]; [by left|].
    apply lookup_singleton_Some in Hni as [<- <-]. by right. }
  assert (Hnone : new_dir (i_ino d) parent !! name = None)
    by (unfold new_dir; by rewrite lookup_insert_ne, lookup_singleton_ne).
  destruct (rep_add k sb d2 _ _ name inode H2 Hn Ht) as (err & d3 & E3 & (I3 & _) & [[-> H3]|(_ & Hnw & _)]); [|done| |done].
  { destruct (geo_sizes k sb) as (_ & _ & _ & _ & HB & _). lia. }
  rewrite Hc in E3. destruct (rep_empty_dir k sb d3 _ _ H3) as (b & d4 & E4 & _ & _ & _ & Hiff2); [lia|].
  assert (b = false) as ->.
  { apply not_true_iff_false. intros Hx. apply Hiff2 in Hx.
    destruct (Hx name (t_ino inode)) as [[? _]|?]; [apply lookup_insert_eq|done..]. }
  exists d1, d2, d3, d4. split; [done|]. split; [done|]. split; [eapply rep_weaken; [|exact H2]; apply list_subseteq_nil|]. done.
Qed.

Lemma make_empty_is_empty_witness :
  exists d1 d2 d3 d4,
    ext2_make_empty DemoDir.demo_kernel DemoDir.demo_super (Some DemoDir.zero_page) DemoDir.new_dir_inode 2 = Ok (0, d1) /\
    ext2_empty_dir DemoDir.demo_kernel DemoDir.demo_super d1 = Ok (true, d2) /\
    dir_rep DemoDir.demo_kernel DemoDir.demo_super d2 (new_dir 12 2) [] /\
    ext2_add_link DemoDir.demo_kernel DemoDir.demo_super d2 [Byte.x61] (Target 13 33188) = Ok (0, d3) /\
    ext2_empty_dir DemoDir.demo_kernel DemoDir.demo_super d3 = Ok (false, d4).
Proof.
  apply (make_empty_is_empty DemoDir.demo_kernel DemoDir.demo_super DemoDir.zero_page DemoDir.new_dir_inode 2 [Byte.x61] (Target 13 33188));
    try reflexivity; try discriminate; try (split; vm_compute; discriminate);
    [apply DemoDir.new_dir_readable|split; simpl; lia..].
Defined.
