(* ===== verification/Ext2Super.v ===== *)
(** * ext2: block groups and bitmaps

    The part of the mounted file system that the allocators share: the fixed numbers of
    [struct ext2_sb_info], the group descriptors, the bitmap blocks in the buffer cache
    and the counters; [ext2_get_group_desc] and the functions of [fs/ext2/balloc.c] that
    say which groups hold a copy of the superblock.  A bitmap block is the sequence of
    its bits, byte by byte, the low bit first.  The allocators run one at a time: the
    locks of the groups are not part of the state. *)

From S2P Require Import Prelude.

Notation bitmap := (list bool).

(** The fields of [struct ext2_group_desc] in the host's byte order. *)
Record group_desc : Type := GroupDesc {
  gd_block_bitmap : Z; gd_inode_bitmap : Z; gd_inode_table : Z;
  gd_free_blocks_count : Z; gd_free_inodes_count : Z; gd_used_dirs_count : Z }.

(** What a mount fixes, and [sb_bread] of a bitmap that is not in the cache. *)
Record sb_info : Type := SbInfo {
  s_groups_count : Z; s_desc_per_block_bits : Z; EXT2_INODES_PER_GROUP : Z; EXT2_BLOCKS_PER_GROUP : Z;
  s_itb_per_group : Z; s_gdb_count : Z; EXT2_FIRST_INO : Z; es_inodes_count : Z; es_blocks_count : Z;
  es_r_blocks_count : Z; es_first_data_block : Z; s_sb_block : Z; sparse_super : bool;
  OLDALLOC : bool; GRPID : bool; NOBH : bool; RESERVATION : bool; DAX : bool;
  bread : Z -> option bitmap }.

(** The reports of [ext2_error] on the file system. *)
Inductive sb_error : Type :=
  | NoSuchGroup (g : Z) | GroupNotLoaded (g : Z) | NoBitmap (g : Z) | NoDescriptor (g : Z)
  | BadInode (ino : Z) | BitAlreadyCleared (n : Z) | BadNewInode (ino : Z) | InodeInUse (ino : Z)
  | InvalidBitmap (g : Z) | NotInDatazone (b : Z) | SystemZone (b : Z) | BadNewBlock (b : Z)
  | ReadFailure (ino b : Z) | NoInodeBlock (ino b : Z) | BadXattrBlock (b : Z) | BadInodeNumber (ino : Z)
  | XattrOutOfRange (ino b : Z) | DeletedInodeReferenced (ino : Z).

(** What changes while it is mounted. *)
Record sbi : Type := Sbi {
  s_group_desc : list (option (list group_desc)); s_buffers : gmap Z bitmap; s_debts : list Z;
  s_freeinodes_counter : Z; s_freeblocks_counter : Z; s_dirs_counter : Z; s_next_generation : Z;
  s_errors : list sb_error }.

Definition with_descs x s := let 'Sbi _ b c d e f g h := s in Sbi x b c d e f g h.
Definition with_buffers x s := let 'Sbi a _ c d e f g h := s in Sbi a x c d e f g h.
Definition with_debts x s := let 'Sbi a b _ d e f g h := s in Sbi a b x d e f g h.
Definition with_freeinodes x s := let 'Sbi a b c _ e f g h := s in Sbi a b c x e f g h.
Definition with_freeblocks x s := let 'Sbi a b c d _ f g h := s in Sbi a b c d x f g h.
Definition with_dirs x s := let 'Sbi a b c d e _ g h := s in Sbi a b c d e x g h.
Definition with_generation x s := let 'Sbi a b c d e f _ h := s in Sbi a b c d e f x h.
Definition sb_report q s := let 'Sbi a b c d e f g h := s in Sbi a b c d e f g (h ++ [q]).

(** ** Bits *)

Definition ext2_test_bit (nr : Z) (b : bitmap) : res bool :=
  if nr <? 0 then Undef OutOfBoundsRead
  else match b !! Z.to_nat nr with Some x => Ok x | None => Undef OutOfBoundsRead end.

(** The first zero bit from [start] on and below [size]; [size] if there is none.  Both
    numbers are converted to [unsigned long]. *)
Definition ext2_find_next_zero_bit (b : bitmap) (size start : Z) : res Z :=
  if u64 size <=? u64 start then Ok (u64 size)
  else
    match list_find (fun x => x = false) (take (Z.to_nat (u64 size - u64 start)) (drop (Z.to_nat (u64 start)) b)) with
    | Some (i, _) => Ok (u64 start + Z.of_nat i)
    | None => if Z.of_nat (length b) <? u64 size then Undef OutOfBoundsRead else Ok (u64 size)
    end.

(** The old value of the bit, and the bitmap with the new one. *)
Definition test_and_put (v : bool) (nr : Z) (b : bitmap) : res (bool * bitmap) :=
  let* old := ext2_test_bit nr b in Ok (old, <[Z.to_nat nr := v]> b).

Definition ext2_set_bit_atomic : Z -> bitmap -> res (bool * bitmap) := test_and_put true.
Definition ext2_clear_bit_atomic : Z -> bitmap -> res (bool * bitmap) := test_and_put false.

Section SuperC.
Context (sb : sb_info).

Definition EXT2_DESC_PER_BLOCK : Z := Z.shiftl 1 (s_desc_per_block_bits sb).

Definition ext2_group_first_block_no (group_no : Z) : Z :=
  group_no * EXT2_BLOCKS_PER_GROUP sb + es_first_data_block sb.

(** The descriptor of a group: the block that holds it and its place there. *)
Definition ext2_get_group_desc (s : sbi) (block_group : Z) : res (option group_desc * sbi) :=
  let block_group := u32 block_group in
  if s_groups_count sb <=? block_group then Ok (None, sb_report (NoSuchGroup block_group) s)
  else
    let group_desc := Z.shiftr block_group (s_desc_per_block_bits sb) in
    let offset := Z.land block_group (EXT2_DESC_PER_BLOCK - 1) in
    match s_group_desc s !! Z.to_nat group_desc with
    | None => Undef OutOfBoundsRead
    | Some None => Ok (None, sb_report (GroupNotLoaded block_group) s)
    | Some (Some descs) =>
        match descs !! Z.to_nat offset with
        | None => Undef OutOfBoundsRead
        | Some desc => Ok (Some desc, s)
        end
    end.

(** A store through the pointer that [ext2_get_group_desc] returned. *)
Definition set_group_desc (g : Z) (desc : group_desc) (s : sbi) : sbi :=
  let group_desc := Z.to_nat (Z.shiftr (u32 g) (s_desc_per_block_bits sb)) in
  let offset := Z.to_nat (Z.land (u32 g) (EXT2_DESC_PER_BLOCK - 1)) in
  with_descs (alter (fmap (fun descs => <[offset := desc]> descs)) group_desc (s_group_desc s)) s.

(** The bits of a block, read into the cache if they are not there. *)
Definition sb_bread (block : Z) (s : sbi) : option bitmap * sbi :=
  match s_buffers s !! block with
  | Some b => (Some b, s)
  | None =>
      match bread sb block with
      | Some b => (Some b, with_buffers (<[block := b]> (s_buffers s)) s)
      | None => (None, s)
      end
  end.

Definition set_buffer (block : Z) (b : bitmap) (s : sbi) : sbi := with_buffers (<[block := b]> (s_buffers s)) s.

(** ** Copies of the superblock *)

(** The loop of [test_root]: [num] is multiplied by [b] until it is not below [a]. *)
Fixpoint root_loop (fuel : nat) (a b num : Z) : res bool :=
  match fuel with
  | O => NoFuel
  | S fuel' =>
      if num <? a then
        if 2 ^ 31 <=? num * b then Undef SignedOverflow else root_loop fuel' a b (num * b)
      else Ok (num =? a)
  end.

Definition test_root (a b : Z) : res bool := root_loop 32 a b b.

Definition ext2_group_sparse (group : Z) : res bool :=
  if group <=? 1 then Ok true
  else
    let* r := test_root group 3 in
    if r then Ok true
    else
      let* r := test_root group 5 in
      if r then Ok true else test_root group 7.

Definition ext2_bg_has_super (group : Z) : res bool :=
  if sparse_super sb then ext2_group_sparse group else Ok true.

Definition ext2_bg_num_gdb (group : Z) : res Z :=
  let* r := ext2_bg_has_super group in Ok (if r then s_gdb_count sb else 0).
End SuperC.

(** ** Descriptors *)

(** The descriptor of the group, as the functions find it. *)
Definition desc_at (sb : sb_info) (s : sbi) (g : Z) : option group_desc :=
  match s_group_desc s !! Z.to_nat (Z.shiftr g (s_desc_per_block_bits sb)) with
  | Some (Some descs) => descs !! Z.to_nat (Z.land g (EXT2_DESC_PER_BLOCK sb - 1))
  | _ => None
  end.

(** Numbers that fit the types that the code gives them. *)
Class SbWf (sb : sb_info) : Prop := {
  wf_groups : 0 < s_groups_count sb < 2 ^ 30;
  wf_bits : 0 <= s_desc_per_block_bits sb;
  wf_inodes : 0 < EXT2_INODES_PER_GROUP sb < 2 ^ 16;
  wf_first : 1 <= EXT2_FIRST_INO sb <= s_groups_count sb * EXT2_INODES_PER_GROUP sb }.

Section SuperFacts.
Context (sb : sb_info) {W : SbWf sb}.

Lemma group_place g : 0 <= g ->
  Z.shiftr g (s_desc_per_block_bits sb) = g / 2 ^ s_desc_per_block_bits sb /\
  Z.land g (EXT2_DESC_PER_BLOCK sb - 1) = g mod 2 ^ s_desc_per_block_bits sb.
Proof using W.
  intros Hg. pose proof (wf_bits (sb := sb)). rewrite Z.shiftr_div_pow2 by done. split; [done|].
  unfold EXT2_DESC_PER_BLOCK. rewrite Z.shiftl_mul_pow2, Z.mul_1_l by done.
  rewrite <- Z.land_ones, Z.ones_equiv by done. f_equal.
Qed.

Lemma get_desc_ok s g d : 0 <= g < s_groups_count sb -> desc_at sb s g = Some d ->
  ext2_get_group_desc sb s g = Ok (Some d, s).
Proof using W.
  intros Hg Hd. pose proof (wf_groups (sb := sb)). unfold ext2_get_group_desc. rewrite u32_id by lia.
  rewrite (proj2 (Z.leb_gt _ _)) by lia. unfold desc_at in Hd.
  destruct (s_group_desc s !! _) as [[ds|]|]; [|done..]. by rewrite Hd.
Qed.

Lemma desc_at_set s g g' d d0 : 0 <= g < s_groups_count sb -> 0 <= g' -> desc_at sb s g = Some d0 ->
  desc_at sb (set_group_desc sb g d s) g' = if decide (g' = g) then Some d else desc_at sb s g'.
Proof using W.
  intros Hg Hg' Hd. pose proof (wf_groups (sb := sb)). pose proof (wf_bits (sb := sb)).
  destruct (group_place g) as [E1 E2]; [lia|]. destruct (group_place g') as [E1' E2']; [done|].
  assert (HD : 0 < 2 ^ s_desc_per_block_bits sb) by (apply Z.pow_pos_nonneg; lia).
  unfold desc_at, set_group_desc in *. rewrite u32_id by lia. rewrite E1, E2, E1', E2' in *.
  set (D := 2 ^ s_desc_per_block_bits sb) in *. destruct s as [ds b c e f h i j]. cbn [s_group_desc with_descs] in *.
  destruct (ds !! Z.to_nat (g / D)) as [[l|]|] eqn:E; [|done..].
  pose proof (Z.div_mod g D ltac:(lia)). pose proof (Z.div_mod g' D ltac:(lia)).
  pose proof (Z.mod_pos_bound g D ltac:(lia)). pose proof (Z.mod_pos_bound g' D ltac:(lia)).
  pose proof (Z.div_pos g D ltac:(lia) ltac:(lia)). pose proof (Z.div_pos g' D ltac:(lia) ltac:(lia)).
  destruct (decide (g' / D = g / D)) as [Eq|Ne].
  - rewrite Eq, list_lookup_alter_eq, E. simpl. case_decide as Hgg.
    + subst g'. apply list_lookup_insert_eq. by eapply lookup_lt_Some.
    + rewrite list_lookup_insert_ne; [done|]. intros HH. apply Hgg. apply Z2Nat.inj in HH; nia.
  - rewrite list_lookup_alter_ne by (intros HH; apply Ne; apply Z2Nat.inj in HH; lia).
    case_decide; [by subst g'|done].
Qed.

Lemma set_desc_buffers g d s : s_buffers (set_group_desc sb g d s) = s_buffers s.
Proof using. by destruct s. Qed.
End SuperFacts.

(** ** Bits *)

Lemma find_next_zero_spec b size start : 0 <= start < 2 ^ 64 -> 0 <= size < 2 ^ 64 -> size <= Z.of_nat (length b) ->
  exists r, ext2_find_next_zero_bit b size start = Ok r /\
    (start <= r < size /\ b !! Z.to_nat r = Some false \/ r = size) /\
    (forall i, start <= i < r -> b !! Z.to_nat i = Some true).
Proof.
  intros Hs Hz Hl. unfold ext2_find_next_zero_bit. rewrite !u64_id by lia.
  destruct (Z.leb_spec size start). { exists size. split; [done|]. split; [by right|]. intros; lia. }
  destruct (list_find _ _) as [[i x]|] eqn:E.
  - apply list_find_Some in E as (E & -> & Hb). assert (Hi : (i < Z.to_nat (size - start))%nat).
    { apply lookup_lt_Some in E. rewrite length_take in E. lia. }
    rewrite lookup_take_lt, lookup_drop in E by done. eexists. split; [done|]. split.
    + left. split; [lia|]. rewrite <- E. f_equal. lia.
    + intros j Hj. destruct (lookup_lt_is_Some_2 b (Z.to_nat j)) as [y Ey]; [lia|]. rewrite Ey. f_equal.
      destruct y; [done|]. exfalso. apply (Hb (Z.to_nat (j - start)) false); [|lia|done].
      rewrite lookup_take_lt, lookup_drop by lia. rewrite <- Ey. f_equal. lia.
  - rewrite (proj2 (Z.ltb_ge _ _)) by lia. eexists. split; [done|]. split; [by right|].
    intros j Hj. destruct (lookup_lt_is_Some_2 b (Z.to_nat j)) as [y Ey]; [lia|]. rewrite Ey. f_equal.
    destruct y; [done|]. exfalso. apply list_find_None in E. rewrite Forall_forall in E.
    apply (E false); [|done]. apply (list_elem_of_lookup_2 _ (Z.to_nat (j - start))).
    rewrite lookup_take_lt, lookup_drop by lia. rewrite <- Ey. f_equal. lia.
Qed.

(** The number of zero bits among the first [n]. *)
Definition zeros (n : Z) (b : bitmap) : Z := Z.of_nat (length (filter (fun x : bool => x = false) (take (Z.to_nat n) b))).

Lemma zeros_bounds n b : 0 <= n -> 0 <= zeros n b <= n.
Proof.
  intros Hn. unfold zeros. pose proof (length_filter (fun x : bool => x = false) (take (Z.to_nat n) b)).
  rewrite length_take in *. lia.
Qed.

Lemma filter_put (b : list bool) i (x y : bool) : b !! i = Some x ->
  (length (filter (fun z : bool => z = false) (<[i := y]> b)) + (if x then 0 else 1) =
   length (filter (fun z : bool => z = false) b) + (if y then 0 else 1))%nat.
Proof.
  intros E. rewrite <- (take_drop_middle b i x E) at 2. rewrite insert_take_drop by (by eapply lookup_lt_Some).
  rewrite !filter_app, !length_app, !filter_cons. destruct x, y; simpl; lia.
Qed.

Lemma zeros_put n b i (x y : bool) : b !! i = Some x -> Z.of_nat i < n ->
  zeros n (<[i := y]> b) + (if x then 0 else 1) = zeros n b + (if y then 0 else 1).
Proof.
  intros E Hi. unfold zeros. rewrite take_insert_lt by lia.
  pose proof (filter_put (take (Z.to_nat n) b) i x y) as H. rewrite lookup_take_lt in H by lia. specialize (H E).
  destruct x, y; lia.
Qed.

Lemma zeros_none n b : 0 <= n <= Z.of_nat (length b) ->
  zeros n b = 0 <-> forall i, 0 <= i < n -> b !! Z.to_nat i = Some true.
Proof.
  intros Hn. unfold zeros. split.
  - intros H i Hi. destruct (lookup_lt_is_Some_2 b (Z.to_nat i)) as [[|] E]; [lia|done|]. exfalso.
    assert (Hin : false ∈ filter (fun x : bool => x = false) (take (Z.to_nat n) b)).
    { apply list_elem_of_filter. split; [done|]. apply (list_elem_of_lookup_2 _ (Z.to_nat i)). by rewrite lookup_take_lt by lia. }
    destruct (filter _ _); [by apply not_elem_of_nil in Hin|done].
  - intros H. destruct (filter _ _) as [|x l] eqn:E; [done|]. exfalso.
    assert (Hx : x ∈ x :: l) by set_solver. rewrite <- E in Hx. apply list_elem_of_filter in Hx as [-> Hx].
    apply list_elem_of_lookup in Hx as [i Hi]. rewrite lookup_take_Some in Hi. destruct Hi as [Ei Hi].
    specialize (H (Z.of_nat i)). rewrite Nat2Z.id, Ei in H. injection H; [congruence|lia].
Qed.

Lemma test_and_put_ok v nr b x : 0 <= nr -> b !! Z.to_nat nr = Some x ->
  test_and_put v nr b = Ok (x, <[Z.to_nat nr := v]> b).
Proof. intros Hn E. unfold test_and_put, ext2_test_bit. rewrite (proj2 (Z.ltb_ge _ _)) by lia. by rewrite E. Qed.

(** ** Sparse superblocks *)

Lemma root_loop_spec a b : 2 <= b -> a * b < 2 ^ 31 -> forall fuel m, 1 <= m -> (Z.to_nat (31 - m) < fuel)%nat ->
  (forall j, 1 <= j < m -> b ^ j < a) ->
  exists r, root_loop fuel a b (b ^ m) = Ok r /\ (r = true <-> exists n, 1 <= n /\ a = b ^ n).
Proof.
  intros Hb Ha. induction fuel as [|fuel IH]; intros m Hm Hf Hj; [lia|]. cbn [root_loop].
  destruct (Z.ltb_spec (b ^ m) a) as [Hlt|Hge].
  - assert (Hp : 0 < b ^ m) by (apply Z.pow_pos_nonneg; lia).
    rewrite (proj2 (Z.leb_gt _ _)) by nia. rewrite Z.mul_comm, <- Z.pow_succ_r by lia. unfold Z.succ.
    assert (m < 31).
    { apply (Z.pow_lt_mono_r_iff 2); [lia..|]. pose proof (Z.pow_le_mono_l 2 b m ltac:(lia)). nia. }
    apply IH; [lia|lia|]. intros j Hjj. destruct (decide (j = m)) as [->|]; [done|apply Hj; lia].
  - eexists. split; [done|]. rewrite Z.eqb_eq. split.
    + intros E. exists m. split; [lia|done].
    + intros (n & Hn & ->). destruct (Z.lt_trichotomy n m) as [Hnm|[->|Hnm]]; [|done|].
      * specialize (Hj n ltac:(lia)). lia.
      * pose proof (Z.pow_lt_mono_r b m n ltac:(lia) ltac:(lia) ltac:(lia)). lia.
Qed.

Lemma test_root_spec a b : 2 <= b -> a * b < 2 ^ 31 ->
  exists r, test_root a b = Ok r /\ (r = true <-> exists n, 1 <= n /\ a = b ^ n).
Proof.
  intros Hb Ha. pose proof (root_loop_spec a b Hb Ha 32 1) as H. rewrite Z.pow_1_r in H. apply H; lia.
Qed.

(** The loop of [test_root] ends without overflow, and with sparse superblocks the
    groups with a copy of the superblock and of the descriptors are 0, 1 and the powers of
    3, 5 and 7. *)
Theorem sparse_groups_are_powers sb group : 0 <= group -> group * 7 < 2 ^ 31 ->
  exists r, ext2_bg_has_super sb group = Ok r /\ ext2_bg_num_gdb sb group = Ok (if r then s_gdb_count sb else 0) /\
    (r = true <-> sparse_super sb = false \/ group <= 1 \/ exists b n, b ∈ [3; 5; 7] /\ 1 <= n /\ group = b ^ n).
Proof.
  intros H0 Hg. unfold ext2_bg_num_gdb, ext2_bg_has_super. destruct (sparse_super sb); [|exists true; cbn [rbind]; tauto].
  unfold ext2_group_sparse. destruct (Z.leb_spec group 1); [exists true; cbn [rbind]; tauto|].
  destruct (test_root_spec group 3) as (r3 & -> & H3); [lia..|]. destruct (test_root_spec group 5) as (r5 & E5 & H5); [lia..|].
  destruct (test_root_spec group 7) as (r7 & E7 & H7); [lia..|].
  assert (Hall : (exists b n, b ∈ [3; 5; 7] /\ 1 <= n /\ group = b ^ n) <-> r3 = true \/ r5 = true \/ r7 = true).
  { rewrite H3, H5, H7. split.
    - intros (b & n & Hb & Hn & E). rewrite !elem_of_cons in Hb. destruct Hb as [-> |[-> |[-> |Hb]]]; [eauto..|by apply not_elem_of_nil in Hb].
    - intros [(n & Hn & E)|[(n & Hn & E)|(n & Hn & E)]]; eexists _, n; (split; [|split; [exact Hn|exact E]]); set_solver. }
  cbn [rbind]. exists (r3 || r5 || r7). rewrite Hall. destruct r3; cbn [rbind orb]; [intuition lia|]. rewrite E5. cbn [rbind].
  destruct r5; cbn [rbind orb]; [intuition lia|]. rewrite E7. cbn [rbind]. destruct r7; intuition (lia || done).
Qed.

Lemma sparse_groups_are_powers_witness :
  let sb := SbInfo 64 5 8 64 1 1 11 512 4096 5 0 0 true false false false true false (fun _ => None) in
  exists r, ext2_bg_has_super sb 49 = Ok r /\ ext2_bg_num_gdb sb 49 = Ok (if r then 1 else 0) /\
    (r = true <-> true = false \/ 49 <= 1 \/ exists b n, b ∈ [3; 5; 7] /\ 1 <= n /\ 49 = b ^ n).
Proof.
  apply (sparse_groups_are_powers (SbInfo 64 5 8 64 1 1 11 512 4096 5 0 0 true false false false true false (fun _ => None)) 49); lia.
Defined.
