(* ===== verification/Ext2Inode.v ===== *)
(** * ext2: inodes in memory

    [struct inode] with its ext2 part as the allocator ([Ext2Ialloc]) and the operations
    on names ([Ext2Namei]) use it, and the helpers of [fs/inode.c] on link and reference
    counts.  [i_fop] is left out: it follows from [i_op] and the type of the file.  The directory part is the record [dir] of [Ext2Dir]. *)

From S2P Require Import Prelude CString ByteMem Ext2Layout Ext2Dir.

(** The operation tables. *)
Inductive inode_operations : Type :=
  | no_inode_operations | bad_inode_ops | ext2_file_inode_operations | ext2_dir_inode_operations
  | ext2_special_inode_operations | ext2_symlink_inode_operations | ext2_fast_symlink_inode_operations.

Inductive address_space_operations : Type := no_aops | ext2_aops | ext2_nobh_aops.

#[export] Instance inode_operations_eq_dec : EqDecision inode_operations.
Proof. solve_decision. Defined.

(** [i_new] is the state bit [I_NEW]; [i_link] the target of a fast symbolic link; [i_sflags]
    the flags of the VFS, where [i_flags] of the directory part are those of ext2. *)
Record inode : Type := Inode {
  core : dir; i_nlink : Z; i_count : Z; i_new : bool; i_uid : Z; i_gid : Z;
  i_block_group : Z; i_generation : Z; i_op : inode_operations; i_aops : address_space_operations;
  i_link : option (list byte); i_rdev : Z; i_sflags : Z }.

Definition with_core x n := let 'Inode _ b c d e f g h i j k l o := n in Inode x b c d e f g h i j k l o.
Definition with_nlink x n := let 'Inode a _ c d e f g h i j k l o := n in Inode a x c d e f g h i j k l o.
Definition with_count x n := let 'Inode a b _ d e f g h i j k l o := n in Inode a b x d e f g h i j k l o.
Definition with_new x n := let 'Inode a b c _ e f g h i j k l o := n in Inode a b c x e f g h i j k l o.
Definition with_owner u gr n := let 'Inode a b c d _ _ g h i j k l o := n in Inode a b c d u gr g h i j k l o.
Definition with_op x n := let 'Inode a b c d e f g h _ j k l o := n in Inode a b c d e f g h x j k l o.
Definition with_aops x n := let 'Inode a b c d e f g h i _ k l o := n in Inode a b c d e f g h i x k l o.
Definition with_link x n := let 'Inode a b c d e f g h i j _ l o := n in Inode a b c d e f g h i j x l o.
Definition with_sflags x n := let 'Inode a b c d e f g h i j k l _ := n in Inode a b c d e f g h i j k l x.
Definition with_rdev x n := let 'Inode a b c d e f g h i j k _ o := n in Inode a b c d e f g h i j k x o.

(** Single fields of the directory part. *)
Definition with_mode x d := let 'Dir a _ c e f g h i j l m r := d in Dir a x c e f g h i j l m r.
Definition with_ctime x d := let 'Dir a b c e f g h _ j l m r := d in Dir a b c e f g h x j l m r.
Definition mark_dirty d := let 'Dir a b c e f g h i j _ m r := d in Dir a b c e f g h i j true m r.
(** A size that is stored without [mark_inode_dirty]. *)
Definition set_size x d := let 'Dir a b _ e f g h i j l m r := d in Dir a b x e f g h i j l m r.

Definition mark_inode_dirty (n : inode) : inode := with_core (mark_dirty (core n)) n.

(** ** Modes *)

Definition S_IFLNK : Z := 40960.
Definition S_IFREG : Z := 32768.
Definition S_IFDIR : Z := 16384.
Definition S_ISGID : Z := 1024.
Definition S_IRWXUGO : Z := 511.

Definition S_ISDIR (mode : Z) : bool := Z.land mode S_IFMT =? S_IFDIR.
Definition S_ISREG (mode : Z) : bool := Z.land mode S_IFMT =? S_IFREG.
Definition S_ISLNK (mode : Z) : bool := Z.land mode S_IFMT =? S_IFLNK.

(** ** Link and reference counts: [fs/inode.c]

    The counter [s_remove_count] of the superblock, which only remounting reads, is left out. *)

Definition drop_nlink (n : inode) : inode := with_nlink (u32 (i_nlink n - 1)) n.
Definition inc_nlink (n : inode) : inode := with_nlink (u32 (i_nlink n + 1)) n.
Definition clear_nlink (n : inode) : inode := if i_nlink n =? 0 then n else with_nlink 0 n.
Definition inode_inc_link_count (n : inode) : inode := mark_inode_dirty (inc_nlink n).
Definition inode_dec_link_count (n : inode) : inode := mark_inode_dirty (drop_nlink n).
Definition ihold (n : inode) : inode := with_count (i_count n + 1) n.
Definition unlock_new_inode (n : inode) : inode := with_new false n.

Definition is_bad_inode (n : inode) : bool := bool_decide (i_op n = bad_inode_ops).
Definition make_bad_inode (now : Z) (n : inode) : inode :=
  with_op bad_inode_ops (with_core (with_mode S_IFREG (with_times now (core n))) n).

(** The owner of a new inode, and its mode: the group of a directory with [S_ISGID] is
    inherited. *)
Definition inode_init_owner (fsuid fsgid : Z) (dir : inode) (mode : Z) (n : inode) : inode :=
  if negb (Z.land (i_mode (core dir)) S_ISGID =? 0) then
    let mode := if S_ISDIR mode then Z.lor mode S_ISGID else mode in
    with_core (with_mode mode (core n)) (with_owner fsuid (i_gid dir) n)
  else with_core (with_mode mode (core n)) (with_owner fsuid fsgid n).

(** ** Flags: [fs/ext2/ext2.h] *)

Definition EXT2_SECRM_FL : Z := 1.
Definition EXT2_UNRM_FL : Z := 2.
Definition EXT2_COMPR_FL : Z := 4.
Definition EXT2_SYNC_FL : Z := 8.
Definition EXT2_IMMUTABLE_FL : Z := 16.
Definition EXT2_APPEND_FL : Z := 32.
Definition EXT2_NODUMP_FL : Z := 64.
Definition EXT2_COMPRBLK_FL : Z := 512.
Definition EXT2_NOCOMP_FL : Z := 1024.
Definition EXT2_JOURNAL_DATA_FL : Z := 16384.
Definition EXT2_NOTAIL_FL : Z := 32768.
Definition EXT2_NOATIME_FL : Z := 128.
Definition EXT2_DIRSYNC_FL : Z := 65536.
Definition EXT2_TOPDIR_FL : Z := 131072.
Definition EXT2_FL_INHERITED : Z :=
  foldr Z.lor 0 [EXT2_SECRM_FL; EXT2_UNRM_FL; EXT2_COMPR_FL; EXT2_SYNC_FL; EXT2_NODUMP_FL; EXT2_NOATIME_FL;
    EXT2_COMPRBLK_FL; EXT2_NOCOMP_FL; EXT2_JOURNAL_DATA_FL; EXT2_NOTAIL_FL; EXT2_DIRSYNC_FL].
Definition EXT2_REG_FLMASK : Z := u32 (Z.lnot (Z.lor EXT2_DIRSYNC_FL EXT2_TOPDIR_FL)).
Definition EXT2_OTHER_FLMASK : Z := Z.lor EXT2_NODUMP_FL EXT2_NOATIME_FL.

Definition ext2_mask_flags (mode flags : Z) : Z :=
  if S_ISDIR mode then flags
  else if S_ISREG mode then Z.land flags EXT2_REG_FLMASK
  else Z.land flags EXT2_OTHER_FLMASK.

Definition S_SYNC : Z := 1.
Definition S_NOATIME : Z := 2.
Definition S_APPEND : Z := 4.
Definition S_IMMUTABLE : Z := 8.
Definition S_NOQUOTA : Z := 32.
Definition S_DIRSYNC : Z := 64.
Definition S_DAX : Z := 8192.

(** [ext2_set_inode_flags] of [fs/ext2/inode.c]; [dax] is the mount option. *)
Definition ext2_set_inode_flags (dax : bool) (n : inode) : inode :=
  let flags := i_flags (core n) in
  let put fl s f := if negb (Z.land flags fl =? 0) then Z.lor f s else f in
  let f := Z.land (i_sflags n)
    (u32 (Z.lnot (foldr Z.lor 0 [S_SYNC; S_APPEND; S_IMMUTABLE; S_NOATIME; S_DIRSYNC; S_DAX]))) in
  let f := put EXT2_SYNC_FL S_SYNC f in
  let f := put EXT2_APPEND_FL S_APPEND f in
  let f := put EXT2_IMMUTABLE_FL S_IMMUTABLE f in
  let f := put EXT2_NOATIME_FL S_NOATIME f in
  let f := put EXT2_DIRSYNC_FL S_DIRSYNC f in
  with_sflags (if dax && S_ISREG (i_mode (core n)) then Z.lor f S_DAX else f) n.
