(* ===== verification/Ext2Ialloc.v ===== *)
(** * ext2: allocation of inodes

    [fs/ext2/ialloc.c]: the choice of a block group, the search of its inode bitmap, and
    the release of an inode.  [vfs] stands for the code outside the file system that
    [ext2_new_inode] calls: memory, quota, access control lists, the security module, the
    random numbers and the credentials.  Freeing the blocks of an evicted inode
    ([fs/ext2/inode.c], [fs/ext2/xattr.c]) is a parameter, [release_blocks]. *)

From S2P Require Import Prelude CString ByteMem Ext2Layout Ext2Dir Ext2Super Ext2Inode.

Definition ENOSPC : Z := 28.

Record vfs : Type := Vfs {
  new_inode_ok : bool;              (* memory for an inode *)
  dquot_initialize : Z -> Z;        (* by inode number: 0 or an error *)
  dquot_alloc_inode : Z -> Z;
  ext2_init_acl : Z -> Z -> Z * Z;  (* inode and mode: an error, and the mode *)
  ext2_init_security : Z -> Z;
  prandom_u32 : Z;
  s_root : Z;                       (* the inode of the root directory *)
  current_fsuid : Z; current_fsgid : Z; vfs_time : Z }.

Section IallocC.
Context (sb : sb_info) (v : vfs) (release_blocks : inode -> sbi -> sbi).

Definition read_inode_bitmap (s : sbi) (block_group : Z) : res (option (Z * bitmap) * sbi) :=
  let* '(desc, s) := ext2_get_group_desc sb s block_group in
  match desc with
  | None => Ok (None, s)
  | Some desc =>
      let '(bh, s) := sb_bread sb (gd_inode_bitmap desc) s in
      match bh with
      | None => Ok (None, sb_report (NoBitmap block_group) s)
      | Some b => Ok (Some (gd_inode_bitmap desc, b), s)
      end
  end.

Definition with_free_inodes x d := let 'GroupDesc a b c e _ g := d in GroupDesc a b c e x g.
Definition with_used_dirs x d := let 'GroupDesc a b c e f _ := d in GroupDesc a b c e f x.

(** ** Freeing *)

Definition ext2_release_inode (s : sbi) (group : Z) (dir : bool) : res sbi :=
  let* '(desc, s) := ext2_get_group_desc sb s group in
  match desc with
  | None => Ok (sb_report (NoDescriptor group) s)
  | Some desc =>
      let desc := with_free_inodes (u16 (gd_free_inodes_count desc + 1)) desc in
      let desc := if dir then with_used_dirs (u16 (gd_used_dirs_count desc - 1)) desc else desc in
      let s := set_group_desc sb group desc s in
      Ok (if dir then with_dirs (s_dirs_counter s - 1) s else s)
  end.

Definition ext2_free_inode (s : sbi) (n : inode) : res sbi :=
  let ino := i_ino (core n) in
  let is_directory := S_ISDIR (i_mode (core n)) in
  if (ino <? EXT2_FIRST_INO sb) || (es_inodes_count sb <? ino) then Ok (sb_report (BadInode ino) s)
  else
    let block_group := (ino - 1) / EXT2_INODES_PER_GROUP sb in
    let bit := (ino - 1) mod EXT2_INODES_PER_GROUP sb in
    let* '(bitmap_bh, s) := read_inode_bitmap s block_group in
    match bitmap_bh with
    | None => Ok s
    | Some (blk, b) =>
        let* '(old, b) := ext2_clear_bit_atomic bit b in
        let s := set_buffer blk b s in
        if negb old then Ok (sb_report (BitAlreadyCleared ino) s)
        else ext2_release_inode s block_group is_directory
    end.

(** ** The choice of a group *)

(** The loops of [ext2_count_free_inodes] and [ext2_count_dirs] over the groups. *)
Fixpoint sum_groups (f : group_desc -> Z) (n : nat) (i count : Z) (s : sbi) : res (Z * sbi) :=
  match n with
  | O => Ok (count, s)
  | S n' =>
      let* '(desc, s) := ext2_get_group_desc sb s i in
      sum_groups f n' (i + 1) (match desc with Some d => count + f d | None => count end) s
  end.

Definition ext2_count_free_inodes (s : sbi) : res (Z * sbi) :=
  sum_groups gd_free_inodes_count (Z.to_nat (s_groups_count sb)) 0 0 s.

Definition ext2_count_dirs (s : sbi) : res (Z * sbi) :=
  sum_groups gd_used_dirs_count (Z.to_nat (s_groups_count sb)) 0 0 s.

(** The loop of [find_group_dir]: among the groups with at least the average of free
    inodes, the one with most free blocks. *)
Fixpoint dir_loop (n : nat) (group avefreei : Z) (best : option (Z * group_desc)) (s : sbi) : res (Z * sbi) :=
  match n with
  | O => Ok (match best with Some (g, _) => g | None => -1 end, s)
  | S n' =>
      let* '(desc, s) := ext2_get_group_desc sb s group in
      let best :=
        match desc with
        | None => best
        | Some desc =>
            if gd_free_inodes_count desc =? 0 then best
            else if gd_free_inodes_count desc <? avefreei then best
            else
              match best with
              | None => Some (group, desc)
              | Some (_, best_desc) =>
                  if gd_free_blocks_count best_desc <? gd_free_blocks_count desc then Some (group, desc) else best
              end
        end in
      dir_loop n' (group + 1) avefreei best s
  end.

Definition find_group_dir (s : sbi) (parent : inode) : res (Z * sbi) :=
  let ngroups := s_groups_count sb in
  let* '(free, s) := ext2_count_free_inodes s in
  let avefreei := i32 (free / ngroups) in
  dir_loop (Z.to_nat ngroups) 0 avefreei None s.

(** A loop over all groups from [parent_group] on that stops at the first one whose
    descriptor passes the test: [None] if there is none. *)
Fixpoint first_group (test : Z -> group_desc -> res bool) (n : nat) (i parent_group : Z) (s : sbi) : res (option Z * sbi) :=
  match n with
  | O => Ok (None, s)
  | S n' =>
      let group := (parent_group + i) mod s_groups_count sb in
      let* '(desc, s) := ext2_get_group_desc sb s group in
      match desc with
      | Some desc =>
          let* found := test group desc in
          if found then Ok (Some group, s) else first_group test n' (i + 1) parent_group s
      | None => first_group test n' (i + 1) parent_group s
      end
  end.

(** The loop of [find_group_orlov] for directories of the first level: the group with the
    fewest directories among those not worse than the average. *)
Fixpoint orlov_top (n : nat) (i parent_group avefreei avefreeb best_ndir best_group : Z) (s : sbi) : res (Z * sbi) :=
  match n with
  | O => Ok (best_group, s)
  | S n' =>
      let group := (parent_group + i) mod s_groups_count sb in
      let* '(desc, s) := ext2_get_group_desc sb s group in
      let next := orlov_top n' (i + 1) parent_group avefreei avefreeb in
      match desc with
      | None => next best_ndir best_group s
      | Some desc =>
          if gd_free_inodes_count desc =? 0 then next best_ndir best_group s
          else if best_ndir <=? gd_used_dirs_count desc then next best_ndir best_group s
          else if gd_free_inodes_count desc <? avefreei then next best_ndir best_group s
          else if gd_free_blocks_count desc <? avefreeb then next best_ndir best_group s
          else next (gd_used_dirs_count desc) group s
      end
  end.

(** The part after [fallback], with the jump back when the average was not reached. *)
Definition orlov_fallback (parent_group avefreei : Z) (s : sbi) : res (Z * sbi) :=
  let pass avefreei desc := Ok (negb (gd_free_inodes_count desc =? 0) && (avefreei <=? gd_free_inodes_count desc)) in
  let loop avefreei s := first_group (fun _ => pass avefreei) (Z.to_nat (s_groups_count sb)) 0 parent_group s in
  let* '(r, s) := loop avefreei s in
  match r with
  | Some group => Ok (group, s)
  | None =>
      if avefreei =? 0 then Ok (-1, s)
      else
        let* '(r, s) := loop 0 s in
        Ok (match r with Some group => group | None => -1 end, s)
  end.

Definition percpu_counter_read_positive (x : Z) : Z := Z.max x 0.

Definition INODE_COST : Z := 64.
Definition BLOCK_COST : Z := 256.

(** The bounds that a group must meet, from the averages: the most debt, the most
    directories, the fewest free inodes and the fewest free blocks. *)
Definition orlov_bounds (avefreei avefreeb free_blocks ndirs : Z) : Z * Z * Z * Z :=
  let ngroups := s_groups_count sb in
  let inodes_per_group := EXT2_INODES_PER_GROUP sb in
  let ndirs := if ndirs =? 0 then 1 else ndirs in
  let blocks_per_dir := i32 (u32 (es_blocks_count sb - free_blocks) / u32 ndirs) in
  let max_dirs := Z.quot ndirs ngroups + inodes_per_group / 16 in
  let min_inodes := avefreei - inodes_per_group / 4 in
  let min_blocks := i32 (avefreeb - EXT2_BLOCKS_PER_GROUP sb / 4) in
  let max_debt := i32 (EXT2_BLOCKS_PER_GROUP sb / Z.max blocks_per_dir BLOCK_COST) in
  let max_debt := if inodes_per_group <? max_debt * INODE_COST then inodes_per_group / INODE_COST else max_debt in
  let max_debt := if 255 <? max_debt then 255 else max_debt in
  let max_debt := if max_debt =? 0 then 1 else max_debt in
  (max_debt, max_dirs, min_inodes, min_blocks).

Definition group_debt (s : sbi) (group : Z) : res Z :=
  match s_debts s !! Z.to_nat group with Some x => Ok x | None => Undef OutOfBoundsRead end.

Definition find_group_orlov (s : sbi) (parent : inode) : res (Z * sbi) :=
  let parent_group := i_block_group parent in
  let ngroups := s_groups_count sb in
  let inodes_per_group := EXT2_INODES_PER_GROUP sb in
  let freei := i32 (percpu_counter_read_positive (s_freeinodes_counter s)) in
  let avefreei := Z.quot freei ngroups in
  let free_blocks := i32 (percpu_counter_read_positive (s_freeblocks_counter s)) in
  let avefreeb := Z.quot free_blocks ngroups in
  let ndirs := i32 (percpu_counter_read_positive (s_dirs_counter s)) in
  if (i_ino (core parent) =? s_root v) || negb (Z.land (i_flags (core parent)) EXT2_TOPDIR_FL =? 0) then
    let parent_group := u32 (prandom_u32 v) mod ngroups in
    let* '(best_group, s) :=
      orlov_top (Z.to_nat ngroups) 0 parent_group avefreei avefreeb inodes_per_group (-1) s in
    if 0 <=? best_group then Ok (best_group, s) else orlov_fallback parent_group avefreei s
  else
    let '(max_debt, max_dirs, min_inodes, min_blocks) := orlov_bounds avefreei avefreeb free_blocks ndirs in
    let test group desc :=
      if gd_free_inodes_count desc =? 0 then Ok false
      else
        let* debt := group_debt s group in
        Ok ((debt <? max_debt) && (gd_used_dirs_count desc <? max_dirs) &&
            (min_inodes <=? gd_free_inodes_count desc) && (min_blocks <=? gd_free_blocks_count desc)) in
    let* '(r, s) := first_group test (Z.to_nat ngroups) 0 parent_group s in
    match r with
    | Some group => Ok (group, s)
    | None => orlov_fallback parent_group avefreei s
    end.

(** The quadratic search of [find_group_other]: [i] doubles while it is below the number
    of groups. *)
Fixpoint other_hash (fuel : nat) (i group : Z) (s : sbi) : res (option Z * sbi) :=
  match fuel with
  | O => NoFuel
  | S fuel' =>
      if s_groups_count sb <=? i then Ok (None, s)
      else
        let group := group + i in
        let group := if s_groups_count sb <=? group then group - s_groups_count sb else group in
        let* '(desc, s) := ext2_get_group_desc sb s group in
        match desc with
        | Some desc =>
            if negb (gd_free_inodes_count desc =? 0) && negb (gd_free_blocks_count desc =? 0)
            then Ok (Some group, s) else other_hash fuel' (Z.shiftl i 1) group s
        | None => other_hash fuel' (Z.shiftl i 1) group s
        end
  end.

(** Its linear search, which ends at the parent's group. *)
Fixpoint other_linear (n : nat) (group : Z) (s : sbi) : res (Z * sbi) :=
  match n with
  | O => Ok (-1, s)
  | S n' =>
      let group := if s_groups_count sb <=? group + 1 then 0 else group + 1 in
      let* '(desc, s) := ext2_get_group_desc sb s group in
      match desc with
      | Some desc => if negb (gd_free_inodes_count desc =? 0) then Ok (group, s) else other_linear n' group s
      | None => other_linear n' group s
      end
  end.

Definition find_group_other (s : sbi) (parent : inode) : res (Z * sbi) :=
  let parent_group := i_block_group parent in
  let ngroups := s_groups_count sb in
  let* '(desc, s) := ext2_get_group_desc sb s parent_group in
  let found := match desc with
    | Some desc => negb (gd_free_inodes_count desc =? 0) && negb (gd_free_blocks_count desc =? 0)
    | None => false
    end in
  if found then Ok (parent_group, s)
  else
    let group := (parent_group + i_ino (core parent)) mod ngroups in
    let* '(r, s) := other_hash 33 1 group s in
    match r with
    | Some group => Ok (group, s)
    | None => other_linear (Z.to_nat ngroups) parent_group s
    end.

(** ** Eviction *)

(** [ext2_evict_inode] of [fs/ext2/inode.c]: the last reference is gone. *)
Definition ext2_evict_inode (s : sbi) (n : inode) : res sbi :=
  let want_delete := (i_nlink n =? 0) && negb (is_bad_inode n) in
  if want_delete then ext2_free_inode (release_blocks n s) n else Ok s.

(** [iput] of [fs/inode.c]: what is left of the inode.  A bad inode is not hashed. *)
Definition iput (s : sbi) (n : inode) : res (option inode * sbi) :=
  let n := with_count (i_count n - 1) n in
  if i_count n =? 0 then
    if (i_nlink n =? 0) || is_bad_inode n then
      let* s := ext2_evict_inode s n in Ok (None, s)
    else Ok (Some n, s)
  else Ok (Some n, s).

(** ** A new inode *)

(** The search of one bitmap, from [repeat_in_this_group] on: the bit that was set. *)
Fixpoint scan_group (fuel : nat) (b : bitmap) (ino : Z) : res (option (Z * bitmap)) :=
  match fuel with
  | O => NoFuel
  | S fuel' =>
      let* ino := ext2_find_next_zero_bit b (EXT2_INODES_PER_GROUP sb) ino in
      if EXT2_INODES_PER_GROUP sb <=? ino then Ok None
      else
        let* '(old, b) := ext2_set_bit_atomic ino b in
        if old then
          if EXT2_INODES_PER_GROUP sb <=? ino + 1 then Ok None else scan_group fuel' b (ino + 1)
        else Ok (Some (ino, b))
  end.

(** The loop over the groups: an error, or the group with its descriptor and the bit. *)
Fixpoint inode_loop (n : nat) (group : Z) (s : sbi) : res ((Z + Z * group_desc * Z) * sbi) :=
  match n with
  | O => Ok (inl (- ENOSPC), s)
  | S n' =>
      let next := if group + 1 =? s_groups_count sb then 0 else group + 1 in
      let* '(gdp, s) := ext2_get_group_desc sb s group in
      match gdp with
      | None => inode_loop n' next s
      | Some gdp =>
          let* '(bitmap_bh, s) := read_inode_bitmap s group in
          match bitmap_bh with
          | None => Ok (inl (- EIO), s)
          | Some (blk, b) =>
              let* r := scan_group (Z.to_nat (EXT2_INODES_PER_GROUP sb) + 1) b 0 in
              match r with
              | None => inode_loop n' next s
              | Some (ino, b) => Ok (inr (group, gdp, ino), set_buffer blk b s)
              end
          end
      end
  end.

(** The counters after an inode of the group has been taken. *)
Definition account_inode (s : sbi) (group : Z) (gdp : group_desc) (dir : bool) : res sbi :=
  let s := with_freeinodes (s_freeinodes_counter s - 1) s in
  let s := if dir then with_dirs (s_dirs_counter s + 1) s else s in
  let gdp := with_free_inodes (u16 (gd_free_inodes_count gdp - 1)) gdp in
  let* debt := group_debt s group in
  let debt' := if dir then (if debt <? 255 then debt + 1 else debt) else (if debt =? 0 then debt else debt - 1) in
  let gdp := if dir then with_used_dirs (u16 (gd_used_dirs_count gdp + 1)) gdp else gdp in
  Ok (set_group_desc sb group gdp (with_debts (<[Z.to_nat group := debt']> (s_debts s)) s)).

(** The fields of the new inode; [blank] is what [new_inode] returns. *)
Definition blank : inode :=
  Inode (Dir 0 0 0 0 0 0 0 0 0 false ∅ []) 1 1 false 0 0 0 0 no_inode_operations no_aops None 0 0.

Definition init_inode (dir : inode) (mode ino group generation : Z) : inode :=
  let n := if GRPID sb then with_core (with_mode mode (core blank)) (with_owner (current_fsuid v) (i_gid dir) blank)
    else inode_init_owner (current_fsuid v) (current_fsgid v) dir mode blank in
  let flags := ext2_mask_flags mode (Z.land (i_flags (core dir)) EXT2_FL_INHERITED) in
  let d := Dir ino (i_mode (core n)) 0 0 0 flags (vfs_time v) (vfs_time v) 0 false ∅ [] in
  ext2_set_inode_flags (DAX sb)
    (Inode d 1 1 false (i_uid n) (i_gid n) group generation no_inode_operations no_aops None 0 0).

(** The part after [fail_drop]. *)
Definition fail_drop (s : sbi) (n : inode) : res sbi :=
  let n := with_sflags (Z.lor (i_sflags n) S_NOQUOTA) n in
  let* '(_, s) := iput s (unlock_new_inode (clear_nlink n)) in Ok s.

Definition find_group (s : sbi) (dir : inode) (mode : Z) : res (Z * sbi) :=
  if S_ISDIR mode then if OLDALLOC sb then find_group_dir s dir else find_group_orlov s dir
  else find_group_other s dir.

(** [inodes] are the numbers of the inodes in memory. *)
Definition ext2_new_inode (inodes : gset Z) (s : sbi) (dir : inode) (mode : Z) : res ((Z + inode) * sbi) :=
  if negb (new_inode_ok v) then Ok (inl (- ENOMEM), s)
  else
    let fail err s n := let* '(_, s) := iput s (make_bad_inode (vfs_time v) n) in Ok (inl err, s) in
    let* '(group, s) := find_group s dir mode in
    if group =? -1 then fail (- ENOSPC) s blank
    else
      let* '(r, s) := inode_loop (Z.to_nat (s_groups_count sb)) group s in
      match r with
      | inl err => fail err s blank
      | inr (group, gdp, bit) =>
          let ino := bit + group * EXT2_INODES_PER_GROUP sb + 1 in
          if (ino <? EXT2_FIRST_INO sb) || (es_inodes_count sb <? ino)
          then fail (- EIO) (sb_report (BadNewInode ino) s) blank
          else
            let* s := account_inode s group gdp (S_ISDIR mode) in
            let n := init_inode dir mode ino group (s_next_generation s) in
            let s := with_generation (u32 (s_next_generation s + 1)) s in
            if bool_decide (ino ∈ inodes) then fail (- EIO) (sb_report (InodeInUse ino) s) n
            else
              let n := with_new true n in
              let drop err s n := let* s := fail_drop s n in Ok (inl err, s) in
              if negb (dquot_initialize v ino =? 0) then drop (dquot_initialize v ino) s n
              else if negb (dquot_alloc_inode v ino =? 0) then drop (dquot_alloc_inode v ino) s n
              else
                let '(err, mode) := ext2_init_acl v ino (i_mode (core n)) in
                let n := with_core (with_mode mode (core n)) n in
                if negb (err =? 0) then drop err s n
                else if negb (ext2_init_security v ino =? 0) then drop (ext2_init_security v ino) s n
                else Ok (inr (mark_inode_dirty n), s)
      end.
End IallocC.
