(* ===== verification/Ext2IallocFacts.v ===== *)
(** * ext2: what the inode allocator keeps

    The invariant of the allocator: the count of free inodes in each group descriptor is
    the number of zero bits in its bitmap.  Each search for a group finds one with a free
    inode whenever there is one; taking and freeing an inode change one bit. *)

From S2P Require Import Prelude CString ByteMem Ext2Layout Ext2Dir Ext2Super Ext2Inode Ext2Ialloc.

Section IallocFacts.
Context (sb : sb_info) {W : SbWf sb}.

Notation ngroups := (s_groups_count sb).
Notation ipg := (EXT2_INODES_PER_GROUP sb).

(** The inode bitmap of a group, in the cache or on the disk. *)
Definition block_bits (s : sbi) (blk : Z) : option bitmap :=
  match s_buffers s !! blk with Some b => Some b | None => bread sb blk end.

Definition ibits (s : sbi) (g : Z) : option bitmap :=
  desc ← desc_at sb s g; block_bits s (gd_inode_bitmap desc).

(** The inode is marked as in use. *)
Definition allocated (s : sbi) (ino : Z) : Prop :=
  exists b, ibits s ((ino - 1) / ipg) = Some b /\ b !! Z.to_nat ((ino - 1) mod ipg) = Some true.

Record group_ok (s : sbi) (g : Z) (d : group_desc) (b : bitmap) : Prop := {
  go_desc : desc_at sb s g = Some d;
  go_bits : block_bits s (gd_inode_bitmap d) = Some b;
  go_len : ipg <= Z.of_nat (length b);
  go_free : gd_free_inodes_count d = zeros ipg b;
  go_dirs : 0 <= gd_used_dirs_count d < 2 ^ 16 }.

Record ialloc_ok (s : sbi) : Prop := {
  io_group g : 0 <= g < ngroups -> exists d b, group_ok s g d b;
  io_inj g g' d d' : 0 <= g < ngroups -> 0 <= g' < ngroups -> desc_at sb s g = Some d -> desc_at sb s g' = Some d' ->
    gd_inode_bitmap d = gd_inode_bitmap d' -> g = g';
  io_reserved ino : 1 <= ino < EXT2_FIRST_INO sb -> allocated s ino;
  io_debts : Z.of_nat (length (s_debts s)) = ngroups;
  io_count : es_inodes_count sb = ngroups * ipg }.

(** The free inodes of a group. *)
Definition free_in (s : sbi) (g : Z) : Z := match ibits s g with Some b => zeros ipg b | None => 0 end.

Lemma group_free s g d b : group_ok s g d b -> free_in s g = gd_free_inodes_count d.
Proof using. intros [H1 H2 H3 H4 _]. unfold free_in, ibits. rewrite H1. simpl. by rewrite H2. Qed.

Lemma group_ibits s g d b : group_ok s g d b -> ibits s g = Some b.
Proof using. intros [H1 H2 H3 H4 _]. unfold ibits. rewrite H1. done. Qed.

Lemma group_get s g d b : group_ok s g d b -> 0 <= g < ngroups -> ext2_get_group_desc sb s g = Ok (Some d, s).
Proof using W. intros [H1 _ _ _ _] Hg. by apply get_desc_ok. Qed.

(** ** The choice of a group *)

(** A search returns a group with a free inode, or -1 when there is none. *)
Definition good_group (s : sbi) (g : Z) : Prop :=
  0 <= g < ngroups /\ 0 < free_in s g \/ g = -1 /\ forall g', 0 <= g' < ngroups -> free_in s g' = 0.

Lemma free_nonneg s g : 0 <= free_in s g.
Proof using W.
  unfold free_in. destruct (ibits s g) as [b|]; [|done]. pose proof (wf_inodes (sb := sb)). apply zeros_bounds. lia.
Qed.

Lemma first_group_spec s test n : ialloc_ok s -> forall i parent, 0 <= parent + i ->
  (forall g d b, 0 <= g < ngroups -> group_ok s g d b -> exists t, test g d = Ok t) ->
  exists r, first_group sb test n i parent s = Ok (r, s) /\
    match r with
    | Some g => 0 <= g < ngroups /\ exists d b, group_ok s g d b /\ test g d = Ok true
    | None => forall j d b, i <= j < i + Z.of_nat n -> group_ok s ((parent + j) mod ngroups) d b ->
        test ((parent + j) mod ngroups) d = Ok false
    end.
Proof using W.
  intros Hs. pose proof (wf_groups (sb := sb)) as HG. induction n as [|n IH]; intros i parent Hp Ht; cbn [first_group].
  { exists None. split; [done|]. intros; lia. }
  pose proof (Z.mod_pos_bound (parent + i) ngroups ltac:(lia)) as Hg. set (g := (parent + i) mod ngroups) in *.
  destruct (io_group s Hs g Hg) as (d & b & Hgo). rewrite (group_get s g d b) by done. cbn [rbind].
  destruct (Ht g d b Hg Hgo) as [t Et]. rewrite Et. cbn [rbind]. destruct t.
  - exists (Some g). split; [done|]. split; [done|]. by exists d, b.
  - destruct (IH (i + 1) parent ltac:(lia) Ht) as (r & Er & Hr). exists r. split; [done|]. destruct r as [g'|]; [done|].
    intros j d' b' Hj Hgo'. destruct (decide (j = i)) as [->|]; [|apply (Hr j d' b'); [lia|done]].
    fold g in Hgo' |- *. replace d' with d; [done|]. pose proof (go_desc _ _ _ _ Hgo). pose proof (go_desc _ _ _ _ Hgo'). congruence.
Qed.

(** Every group is visited. *)
Lemma group_reached parent g : 0 <= parent -> 0 <= g < ngroups ->
  exists j, 0 <= j < ngroups /\ (parent + j) mod ngroups = g.
Proof using W.
  intros Hp Hg. pose proof (wf_groups (sb := sb)) as HG. exists ((g - parent) mod ngroups).
  split; [apply Z.mod_pos_bound; lia|]. rewrite Z.add_mod_idemp_r by lia.
  replace (parent + (g - parent)) with g by lia. by apply Z.mod_small.
Qed.

Lemma fallback_good s parent ave : ialloc_ok s -> 0 <= parent ->
  exists g, orlov_fallback sb parent ave s = Ok (g, s) /\ good_group s g.
Proof using W.
  intros Hs Hp. pose proof (wf_groups (sb := sb)) as HG.
  assert (Hpass : forall a, exists r, first_group sb (fun _ desc => Ok (negb (gd_free_inodes_count desc =? 0) &&
      (a <=? gd_free_inodes_count desc))) (Z.to_nat ngroups) 0 parent s = Ok (r, s) /\
    match r with Some g => 0 <= g < ngroups /\ 0 < free_in s g
    | None => a <= 0 -> forall g, 0 <= g < ngroups -> free_in s g = 0 end).
  { intros a. destruct (first_group_spec s (fun _ desc => Ok (negb (gd_free_inodes_count desc =? 0) &&
      (a <=? gd_free_inodes_count desc))) (Z.to_nat ngroups) Hs 0 parent ltac:(lia)) as (r & Er & Hr); [eauto|].
    exists r. split; [done|]. destruct r as [g|].
    - destruct Hr as (Hg & d & b & Hgo & [= Ht]). split; [done|]. rewrite (group_free s g d b) by done.
      apply andb_true_iff in Ht as [Ht _]. apply negb_true_iff, Z.eqb_neq in Ht.
      pose proof (free_nonneg s g). rewrite (group_free s g d b) in * by done. lia.
    - intros Ha g Hg. destruct (group_reached parent g Hp Hg) as (j & Hj & <-).
      destruct (io_group s Hs _ Hg) as (d & b & Hgo). specialize (Hr j d b ltac:(lia) Hgo). injection Hr as Hr.
      rewrite (group_free s _ d b) by done. pose proof (free_nonneg s ((parent + j) mod ngroups)) as Hf.
      rewrite (group_free s _ d b) in Hf by done.
      apply andb_false_iff in Hr as [Hr|Hr]; [apply negb_false_iff, Z.eqb_eq in Hr; lia|apply Z.leb_gt in Hr; lia]. }
  unfold orlov_fallback. destruct (Hpass ave) as (r & -> & Hr). cbn [rbind]. destruct r as [g|].
  { exists g. split; [done|]. by left. }
  destruct (Z.eqb_spec ave 0) as [->|]. { exists (-1). split; [done|]. right. split; [done|]. by apply Hr. }
  destruct (Hpass 0) as (r & -> & Hr'). cbn [rbind]. destruct r as [g|]; eexists; (split; [done|]); [by left|].
  right. split; [done|]. by apply Hr'.
Qed.

Lemma orlov_top_spec s ai ab n : ialloc_ok s -> forall i parent bn bg, 0 <= parent + i ->
  exists g, orlov_top sb n i parent ai ab bn bg s = Ok (g, s) /\ (g = bg \/ 0 <= g < ngroups /\ 0 < free_in s g).
Proof using W.
  intros Hs. pose proof (wf_groups (sb := sb)) as HG. induction n as [|n IH]; intros i parent bn bg Hp; cbn [orlov_top].
  { exists bg. auto. }
  pose proof (Z.mod_pos_bound (parent + i) ngroups ltac:(lia)) as Hg. set (g := (parent + i) mod ngroups) in *.
  destruct (io_group s Hs g Hg) as (d & b & Hgo). rewrite (group_get s g d b) by done. cbn [rbind].
  pose proof (free_nonneg s g) as Hf. rewrite (group_free s g d b Hgo) in Hf.
  destruct (Z.eqb_spec (gd_free_inodes_count d) 0); [apply IH; lia|].
  destruct (_ <=? _); [apply IH; lia|]. destruct (_ <? ai); [apply IH; lia|]. destruct (_ <? ab); [apply IH; lia|].
  destruct (IH (i + 1) parent (gd_used_dirs_count d) g ltac:(lia)) as (r & -> & [->|Hr]); eexists; (split; [done|]); right; [|done].
  split; [done|]. rewrite (group_free s g d b Hgo). lia.
Qed.

(** The group of a directory that a new inode goes into. *)
Definition parent_ok (parent : inode) : Prop := 0 <= i_block_group parent < ngroups /\ 0 <= i_ino (core parent).

Lemma debt_ok s g : ialloc_ok s -> 0 <= g < ngroups -> exists x, group_debt s g = Ok x.
Proof using.
  intros Hs Hg. unfold group_debt. destruct (lookup_lt_is_Some_2 (s_debts s) (Z.to_nat g)) as [x ->]; [|eauto].
  pose proof (io_debts s Hs). lia.
Qed.

Lemma find_group_orlov_good v s parent : ialloc_ok s -> parent_ok parent ->
  exists g, find_group_orlov sb v s parent = Ok (g, s) /\ good_group s g.
Proof using W.
  intros Hs [Hp _]. pose proof (wf_groups (sb := sb)) as HG. unfold find_group_orlov.
  set (ai := Z.quot _ _). set (ab := Z.quot _ _). destruct (_ || _).
  - pose proof (Z.mod_pos_bound (u32 (prandom_u32 v)) ngroups ltac:(lia)) as Hr.
    destruct (orlov_top_spec s ai ab (Z.to_nat ngroups) Hs 0 (u32 (prandom_u32 v) mod ngroups) ipg (-1) ltac:(lia))
      as (g & -> & Hg). cbn [rbind]. destruct (Z.leb_spec 0 g).
    + exists g. split; [done|]. left. destruct Hg as [->|?]; [lia|done].
    + apply fallback_good; [done|lia].
  - destruct (orlov_bounds sb ai ab _ _) as [[[md mdi] mi] mb].
    set (test := fun group desc => _). destruct (first_group_spec s test (Z.to_nat ngroups) Hs 0 (i_block_group parent) ltac:(lia))
      as (r & Er & Hr).
    { intros g d b Hg _. unfold test. destruct (_ =? 0); [eauto|]. destruct (debt_ok s g Hs Hg) as [x ->]. simpl. eauto. }
    rewrite Er. cbn [rbind]. destruct r as [g|]; [|apply fallback_good; [done|lia]].
    destruct Hr as (Hg & d & b & Hgo & Ht). exists g. split; [done|]. left. split; [done|].
    pose proof (free_nonneg s g) as Hf. rewrite (group_free s g d b Hgo) in *. unfold test in Ht.
    destruct (Z.eqb_spec (gd_free_inodes_count d) 0); [done|lia].
Qed.

Lemma other_hash_spec s : ialloc_ok s -> forall fuel i group, 1 <= i -> 2 ^ 30 <= i * 2 ^ Z.of_nat (pred fuel) -> fuel <> O ->
  0 <= group < ngroups ->
  exists r, other_hash sb fuel i group s = Ok (r, s) /\
    match r with Some g => 0 <= g < ngroups /\ 0 < free_in s g | None => True end.
Proof using W.
  intros Hs. pose proof (wf_groups (sb := sb)) as HG. induction fuel as [|fuel IH]; intros i group Hi Hf Hne Hg; [done|].
  cbn [other_hash]. destruct (Z.leb_spec ngroups i) as [|Hlt]; [by exists None|].
  set (g := if ngroups <=? group + i then group + i - ngroups else group + i).
  assert (Hg' : 0 <= g < ngroups) by (unfold g; destruct (Z.leb_spec ngroups (group + i)); lia).
  destruct (io_group s Hs g Hg') as (d & b & Hgo). rewrite (group_get s g d b) by done. cbn [rbind].
  destruct (_ && _) eqn:Et.
  - exists (Some g). split; [done|]. split; [done|]. apply andb_true_iff in Et as [Et _]. apply negb_true_iff, Z.eqb_neq in Et.
    pose proof (free_nonneg s g) as Hfn. rewrite (group_free s g d b Hgo) in *. lia.
  - destruct fuel as [|fuel]; [simpl in Hf; lia|]. apply IH; [|rewrite Z.shiftl_mul_pow2 by lia|done|done].
    + rewrite Z.shiftl_mul_pow2; lia.
    + cbn [pred] in *. rewrite Nat2Z.inj_succ, Z.pow_succ_r in Hf by lia. change (2 ^ 1) with 2. nia.
Qed.

Lemma other_linear_spec s n : ialloc_ok s -> forall group, 0 <= group < ngroups ->
  exists g, other_linear sb n group s = Ok (g, s) /\
    (0 <= g < ngroups /\ 0 < free_in s g \/
     g = -1 /\ forall j, 1 <= j <= Z.of_nat n -> free_in s ((group + j) mod ngroups) = 0).
Proof using W.
  intros Hs. pose proof (wf_groups (sb := sb)) as HG. induction n as [|n IH]; intros group Hg; cbn [other_linear].
  { exists (-1). split; [done|]. right. split; [done|]. intros; lia. }
  set (g := if ngroups <=? group + 1 then 0 else group + 1).
  assert (Hg' : 0 <= g < ngroups /\ g = (group + 1) mod ngroups).
  { unfold g. destruct (Z.leb_spec ngroups (group + 1)); [|rewrite Z.mod_small; lia].
    replace (group + 1) with ngroups by lia. rewrite Z.mod_same by lia. lia. }
  destruct Hg' as [Hg' Eg]. destruct (io_group s Hs g Hg') as (d & b & Hgo). rewrite (group_get s g d b) by done. cbn [rbind].
  pose proof (free_nonneg s g) as Hf. rewrite (group_free s g d b Hgo) in Hf.
  destruct (Z.eqb_spec (gd_free_inodes_count d) 0) as [E|E]; cbn [negb].
  - destruct (IH g Hg') as (r & -> & Hr). exists r. split; [done|]. destruct Hr as [Hr|[-> Hr]]; [by left|].
    right. split; [done|]. intros j Hj. destruct (decide (j = 1)) as [->|].
    + rewrite <- Eg, (group_free s g d b Hgo). done.
    + specialize (Hr (j - 1) ltac:(lia)). rewrite Eg, Z.add_mod_idemp_l in Hr by lia.
      by replace (group + 1 + (j - 1)) with (group + j) in Hr by lia.
  - exists g. split; [done|]. left. split; [done|]. rewrite (group_free s g d b Hgo). lia.
Qed.

Lemma find_group_other_good s parent : ialloc_ok s -> parent_ok parent ->
  exists g, find_group_other sb s parent = Ok (g, s) /\ good_group s g.
Proof using W.
  intros Hs [Hp Hi]. pose proof (wf_groups (sb := sb)) as HG. unfold find_group_other.
  destruct (io_group s Hs _ Hp) as (d & b & Hgo). rewrite (group_get s _ d b) by done. cbn [rbind].
  destruct (_ && _) eqn:Et.
  { exists (i_block_group parent). split; [done|]. left. split; [done|]. apply andb_true_iff in Et as [Et _].
    apply negb_true_iff, Z.eqb_neq in Et. pose proof (free_nonneg s (i_block_group parent)) as Hf.
    rewrite (group_free s _ d b Hgo) in *. lia. }
  destruct (other_hash_spec s Hs 33 1 ((i_block_group parent + i_ino (core parent)) mod ngroups)) as (r & -> & Hr);
    [lia|done|done|apply Z.mod_pos_bound; lia|]. cbn [rbind].
  destruct r as [g|]; [exists g; split; [done|]; by left|].
  destruct (other_linear_spec s (Z.to_nat ngroups) Hs _ Hp) as (g & -> & Hg). exists g. split; [done|].
  destruct Hg as [Hg|[-> Hg]]; [by left|]. right. split; [done|]. intros g' Hg'.
  destruct (group_reached (i_block_group parent + 1) g' ltac:(lia) Hg') as (j & Hj & <-).
  specialize (Hg (j + 1) ltac:(lia)). by replace (i_block_group parent + (j + 1)) with (i_block_group parent + 1 + j) in Hg by lia.
Qed.

(** The average of the groups is reached by one of them. *)
Lemma sum_free s n : ialloc_ok s -> forall i c, 0 <= i -> i + Z.of_nat n <= ngroups ->
  exists t, sum_groups sb gd_free_inodes_count n i c s = Ok (c + t, s) /\ 0 <= t <= Z.of_nat n * ipg /\
    forall a, (forall g, i <= g < i + Z.of_nat n -> free_in s g <= a) -> t <= Z.of_nat n * a.
Proof using W.
  intros Hs. induction n as [|n IH]; intros i c Hi Hn; cbn [sum_groups].
  { exists 0. rewrite Z.add_0_r. split; [done|]. split; [lia|]. intros; lia. }
  destruct (io_group s Hs i ltac:(lia)) as (d & b & Hgo). rewrite (group_get s i d b) by (done || lia). cbn [rbind].
  destruct (IH (i + 1) (c + gd_free_inodes_count d) ltac:(lia) ltac:(lia)) as (t & -> & Ht & Ha).
  exists (gd_free_inodes_count d + t). split; [do 2 f_equal; lia|]. pose proof (wf_inodes (sb := sb)).
  assert (0 <= gd_free_inodes_count d <= ipg) by (rewrite (go_free _ _ _ _ Hgo); apply zeros_bounds; lia).
  split; [nia|]. intros a Hall. specialize (Ha a (fun g Hg => Hall g ltac:(lia))).
  pose proof (Hall i ltac:(lia)) as Hi0. rewrite (group_free s i d b Hgo) in Hi0. nia.
Qed.

Lemma dir_loop_spec s ave n : ialloc_ok s -> forall group best, 0 <= group -> group + Z.of_nat n <= ngroups ->
  match best with Some (g, _) => 0 <= g < ngroups /\ 0 < free_in s g | None => True end ->
  exists g, dir_loop sb n group ave best s = Ok (g, s) /\
    (0 <= g < ngroups /\ 0 < free_in s g \/
     g = -1 /\ best = None /\ forall g', group <= g' < group + Z.of_nat n -> free_in s g' = 0 \/ free_in s g' < ave).
Proof using W.
  intros Hs. induction n as [|n IH]; intros group best Hg Hn Hb; cbn [dir_loop].
  { destruct best as [[g bd]|]; eexists; (split; [done|]); [by left|]. right. split; [done|]. split; [done|]. intros; lia. }
  destruct (io_group s Hs group ltac:(lia)) as (d & b & Hgo). rewrite (group_get s group d b) by (done || lia). cbn [rbind].
  pose proof (free_nonneg s group) as Hf. rewrite (group_free s group d b Hgo) in Hf.
  set (best' := if _ =? 0 then _ else _).
  destruct (IH (group + 1) best') as (g & -> & Hr); [lia|lia| |].
  { unfold best'. destruct (Z.eqb_spec (gd_free_inodes_count d) 0); [done|]. destruct (_ <? ave); [done|].
    assert (0 <= group < ngroups /\ 0 < free_in s group) by (rewrite (group_free s group d b Hgo); lia).
    destruct best as [[g0 bd]|]; [|done]. by destruct (_ <? _). }
  exists g. split; [done|]. destruct Hr as [Hr|(-> & Hb' & Hr)]; [by left|]. right. split; [done|].
  assert (Hx : best = None /\ (free_in s group = 0 \/ free_in s group < ave)).
  { rewrite (group_free s group d b Hgo). unfold best' in Hb'. destruct (Z.eqb_spec (gd_free_inodes_count d) 0); [auto|].
    destruct (Z.ltb_spec (gd_free_inodes_count d) ave); [auto|]. destruct best as [[g0 bd]|]; [|done]. by destruct (_ <? _). }
  destruct Hx as [-> Hx]. split; [done|]. intros g' Hg'. destruct (decide (g' = group)) as [->|]; [done|apply Hr; lia].
Qed.

Lemma find_group_dir_good s parent : ialloc_ok s ->
  exists g, find_group_dir sb s parent = Ok (g, s) /\ good_group s g.
Proof using W.
  intros Hs. pose proof (wf_groups (sb := sb)) as HG. pose proof (wf_inodes (sb := sb)) as HI.
  unfold find_group_dir, ext2_count_free_inodes.
  destruct (sum_free s (Z.to_nat ngroups) Hs 0 0 ltac:(lia) ltac:(lia)) as (t & -> & Ht & Ha). cbn [rbind].
  rewrite Z.add_0_l, Z2Nat.id in * by lia.
  assert (Hq : 0 <= t / ngroups <= ipg) by (split; [apply Z.div_pos; lia|apply Z.div_le_upper_bound; lia]).
  rewrite i32_id by lia. set (ave := t / ngroups) in *.
  destruct (dir_loop_spec s ave (Z.to_nat ngroups) Hs 0 None) as (g & -> & Hg); [lia|lia|done|].
  exists g. split; [done|]. destruct Hg as [Hg|(-> & _ & Hg)]; [by left|]. right. split; [done|].
  rewrite Z2Nat.id in Hg by lia. destruct (decide (ave = 0)) as [E|E].
  - intros g' Hg'. pose proof (free_nonneg s g'). destruct (Hg g' ltac:(lia)); lia.
  - exfalso. assert (t <= ngroups * (ave - 1)).
    { apply Ha. intros g' Hg'. destruct (Hg g' ltac:(lia)); lia. }
    pose proof (Z.mul_div_le t ngroups ltac:(lia)). fold ave in H0. nia.
Qed.

(** Whatever the policy, a group with a free inode is found when there is one. *)
Lemma find_group_good v s parent mode : ialloc_ok s -> parent_ok parent ->
  exists g, find_group sb v s parent mode = Ok (g, s) /\ good_group s g.
Proof using W.
  intros Hs Hp. unfold find_group. destruct (S_ISDIR mode); [destruct (OLDALLOC sb)|];
    eauto using find_group_dir_good, find_group_orlov_good, find_group_other_good.
Qed.

(** ** Changing one bit *)

(** Nothing that the allocator looks at has changed. *)
Definition iview (s s' : sbi) : Prop :=
  (forall g, desc_at sb s' g = desc_at sb s g) /\ s_debts s' = s_debts s /\
  s_freeinodes_counter s' = s_freeinodes_counter s /\ s_dirs_counter s' = s_dirs_counter s /\
  forall blk, block_bits s' blk = block_bits s blk.

Lemma iview_refl s : iview s s.
Proof using. done. Qed.

Lemma iview_ibits s s' g : iview s s' -> ibits s' g = ibits s g.
Proof using. intros (H1 & _ & _ & _ & H2). unfold ibits. rewrite H1. destruct (desc_at sb s g); [|done]. apply H2. Qed.

Lemma iview_allocated s s' ino : iview s s' -> allocated s' ino <-> allocated s ino.
Proof using. intros H. unfold allocated. by rewrite (iview_ibits s s' _ H). Qed.

Lemma iview_group s s' g d b : iview s s' -> group_ok s g d b -> group_ok s' g d b.
Proof using. intros (H1 & _ & _ & _ & H2) [G1 G2 G3 G4 G5]. split; [by rewrite H1|by rewrite H2|done..]. Qed.

Lemma iview_ok s s' : iview s s' -> ialloc_ok s -> ialloc_ok s'.
Proof using.
  intros Hv [I1 I2 I3 I4 I5]. split; [|assert (Hv0 := Hv); destruct Hv0 as (H1 & _)| | |done].
  - intros g Hg. destruct (I1 g Hg) as (d & b & H). exists d, b. by eapply iview_group.
  - intros g g' d d' Hg Hg'. rewrite !H1. by apply I2.
  - intros ino Hi. by apply (iview_allocated s), I3.
  - destruct Hv as (_ & -> & _). done.
Qed.

Lemma read_bitmap_ok s g d b : group_ok s g d b -> 0 <= g < ngroups ->
  exists s', read_inode_bitmap sb s g = Ok (Some (gd_inode_bitmap d, b), s') /\ iview s s'.
Proof using W.
  intros Hgo Hg. unfold read_inode_bitmap. rewrite (group_get s g d b) by done. cbn [rbind].
  pose proof (go_bits _ _ _ _ Hgo) as Hb. unfold sb_bread, block_bits in *.
  destruct (s_buffers s !! gd_inode_bitmap d) as [b'|] eqn:E.
  { injection Hb as ->. exists s. split; [done|apply iview_refl]. }
  rewrite Hb. eexists. split; [done|]. split; [by destruct s|]. split; [by destruct s|]. split; [by destruct s|]. split; [by destruct s|].
  intros blk. unfold block_bits. replace (s_buffers (with_buffers _ s)) with (<[gd_inode_bitmap d := b]> (s_buffers s)) by by destruct s.
  destruct (decide (blk = gd_inode_bitmap d)) as [->|]; [by rewrite lookup_insert_eq, E, Hb|by rewrite lookup_insert_ne by done].
Qed.

(** The descriptor and the bitmap of one group change. *)
Record put_in (s s1 : sbi) (g : Z) (blk : Z) (d' : group_desc) (b' : bitmap) : Prop := {
  pi_desc g' : 0 <= g' -> desc_at sb s1 g' = if decide (g' = g) then Some d' else desc_at sb s g';
  pi_bits blk' : block_bits s1 blk' = if decide (blk' = blk) then Some b' else block_bits s blk';
  pi_debts : length (s_debts s1) = length (s_debts s) }.

Lemma put_ibits s s1 g d b d' b' : ialloc_ok s -> 0 <= g < ngroups -> group_ok s g d b ->
  put_in s s1 g (gd_inode_bitmap d) d' b' -> gd_inode_bitmap d' = gd_inode_bitmap d ->
  forall g', 0 <= g' < ngroups -> ibits s1 g' = if decide (g' = g) then Some b' else ibits s g'.
Proof using.
  intros Hs Hg Hgo [P1 P2 _] Ebm g' Hg'. unfold ibits. rewrite P1 by lia. case_decide as E.
  - simpl. rewrite Ebm, P2. by rewrite decide_True.
  - destruct (io_group s Hs g' Hg') as (d2 & b2 & Hgo2). rewrite (go_desc _ _ _ _ Hgo2). simpl.
    rewrite P2, decide_False; [done|]. intros E2. apply E. symmetry.
    apply (io_inj s Hs g g' d d2); [done|done|apply Hgo|apply Hgo2|done].
Qed.

Lemma put_ok s s1 g d b d' b' : ialloc_ok s -> 0 <= g < ngroups -> group_ok s g d b ->
  put_in s s1 g (gd_inode_bitmap d) d' b' -> gd_inode_bitmap d' = gd_inode_bitmap d ->
  length b' = length b -> gd_free_inodes_count d' = zeros ipg b' -> 0 <= gd_used_dirs_count d' < 2 ^ 16 ->
  (forall ino, 1 <= ino < EXT2_FIRST_INO sb -> allocated s1 ino) -> ialloc_ok s1.
Proof using.
  intros Hs Hg Hgo Hp Ebm Hl Hf Hd Hr. assert (Hp0 := Hp). destruct Hp0 as [P1 P2 P3].
  split; [| |done|rewrite P3; by apply io_debts|by apply (io_count s)].
  - intros g' Hg'. destruct (io_group s Hs g' Hg') as (d2 & b2 & Hgo2).
    pose proof (put_ibits s s1 g d b d' b' Hs Hg Hgo Hp Ebm g' Hg') as Hib. unfold ibits in Hib. rewrite P1 in Hib by lia.
    case_decide as E.
    + subst g'. exists d', b'. split; [rewrite P1, decide_True by (done || lia); done|done| |done|done].
      rewrite Hl. apply Hgo.
    + exists d2, b2. destruct Hgo2 as [G1 G2 G3 G4 G5]. split; [rewrite P1, decide_False by (done || lia); done| |done..].
      rewrite G1 in Hib. simpl in Hib. by rewrite Hib.
  - intros g1 g2 d1 d2 H1 H2. rewrite !P1 by lia. intros E1 E2 Eb.
    assert (Hx : forall g' d2, 0 <= g' < ngroups -> g' <> g -> desc_at sb s g' = Some d2 -> gd_inode_bitmap d2 <> gd_inode_bitmap d').
    { intros g' d3 Hg' Hne E3 Heq. apply Hne, (io_inj s Hs g' g d3 d); [done|done|done|apply Hgo|congruence]. }
    destruct (decide (g1 = g)) as [->|N1], (decide (g2 = g)) as [->|N2]; [done| | |].
    + exfalso. injection E1 as <-. by apply (Hx g2 d2).
    + exfalso. injection E2 as <-. by apply (Hx g1 d1).
    + by apply (io_inj s Hs g1 g2 d1 d2).
Qed.

Lemma ino_group ino : 1 <= ino <= ngroups * ipg -> 0 <= (ino - 1) / ipg < ngroups /\ 0 <= (ino - 1) mod ipg < ipg.
Proof using W.
  intros Hi. pose proof (wf_inodes (sb := sb)) as HI. split; [|apply Z.mod_pos_bound; lia].
  split; [apply Z.div_pos; lia|apply Z.div_lt_upper_bound; lia].
Qed.

Lemma ino_place g bit : 0 <= g -> 0 <= bit < ipg ->
  let ino := bit + g * ipg + 1 in (ino - 1) / ipg = g /\ (ino - 1) mod ipg = bit.
Proof using W.
  intros Hg Hb ino. unfold ino. pose proof (wf_inodes (sb := sb)) as HI.
  replace (bit + g * ipg + 1 - 1) with (bit + g * ipg) by lia.
  rewrite Z.div_add, Z.mod_add, Z.div_small, Z.mod_small by lia. lia.
Qed.

(** Only the one inode changes its state. *)
Lemma put_allocated s s1 g d b d' v bit ino : ialloc_ok s -> 0 <= g < ngroups -> group_ok s g d b ->
  0 <= bit < ipg -> put_in s s1 g (gd_inode_bitmap d) d' (<[Z.to_nat bit := v]> b) ->
  gd_inode_bitmap d' = gd_inode_bitmap d -> 1 <= ino <= ngroups * ipg ->
  allocated s1 ino <-> (if decide (ino = bit + g * ipg + 1) then v = true else allocated s ino).
Proof using W.
  intros Hs Hg Hgo Hb Hp Ebm Hi. destruct (ino_group ino Hi) as [Hig Him]. pose proof (go_len _ _ _ _ Hgo) as Hl.
  unfold allocated. rewrite (put_ibits s s1 g d b d' _ Hs Hg Hgo Hp Ebm _ Hig).
  case_decide as E; case_decide as E2.
  - destruct (ino_place g bit ltac:(lia) Hb) as [_ Em]. rewrite E2, Em. split.
    + intros (b2 & [= <-] & H). rewrite list_lookup_insert_eq in H by lia. congruence.
    + intros ->. eexists. split; [done|]. by rewrite list_lookup_insert_eq by lia.
  - rewrite E, (group_ibits s g d b Hgo). assert (Hne : (ino - 1) mod ipg <> bit).
    { intros Hx. apply E2. pose proof (Z.div_mod (ino - 1) ipg ltac:(lia)). rewrite E in H. lia. }
    split; intros (b2 & [= <-] & H); (eexists; split; [done|]).
    + by rewrite list_lookup_insert_ne in H by lia.
    + by rewrite list_lookup_insert_ne by lia.
  - exfalso. apply E. rewrite E2. by apply ino_place; [lia|].
  - done.
Qed.

(** ** Taking and freeing an inode *)

(** The directories of a group. *)
Definition used_in (s : sbi) (g : Z) : Z := match desc_at sb s g with Some d => gd_used_dirs_count d | None => 0 end.

(** One inode has become [v] (in use or free), and the counters of its group agree. *)
Record flipped (v : bool) (s s2 : sbi) (ino : Z) (dir : bool) : Prop := {
  fl_ok : ialloc_ok s2;
  fl_alloc i : 1 <= i <= ngroups * ipg -> allocated s2 i <-> (if decide (i = ino) then v = true else allocated s i);
  fl_free g : 0 <= g < ngroups -> free_in s2 g = free_in s g +
    (if decide (g = (ino - 1) / ipg) then (if v then -1 else 1) else 0);
  fl_dirs : s_dirs_counter s2 = s_dirs_counter s + (if dir then (if v then 1 else -1) else 0);
  fl_used g : 0 <= g < ngroups -> used_in s2 g =
    if decide (g = (ino - 1) / ipg) then u16 (used_in s g + (if dir then (if v then 1 else -1) else 0)) else used_in s g }.

Lemma scan_ok b fuel : ipg <= Z.of_nat (length b) -> 0 < zeros ipg b ->
  exists i, 0 <= i < ipg /\ b !! Z.to_nat i = Some false /\
    scan_group sb (S fuel) b 0 = Ok (Some (i, <[Z.to_nat i := true]> b)).
Proof using W.
  intros Hl Hz. pose proof (wf_inodes (sb := sb)) as HI. cbn [scan_group].
  destruct (find_next_zero_spec b ipg 0 ltac:(lia) ltac:(lia) Hl) as (r & -> & Hr & Hb). cbn [rbind].
  destruct Hr as [[Hr Hbit]| ->].
  - rewrite (proj2 (Z.leb_gt _ _)) by lia. unfold ext2_set_bit_atomic.
    rewrite (test_and_put_ok true r b false) by (done || lia). cbn [rbind]. exists r. split; [done|]. done.
  - exfalso. assert (zeros ipg b = 0) by (apply zeros_none; [lia|exact Hb]). lia.
Qed.

(** A change of the bit with the matching change of the descriptor. *)
Lemma flip_spec s s2 g d b bit (v : bool) (x : Z) (dir : bool) : ialloc_ok s -> 0 <= g < ngroups -> group_ok s g d b -> 0 <= bit < ipg ->
  b !! Z.to_nat bit = Some (negb v) -> EXT2_FIRST_INO sb <= bit + g * ipg + 1 ->
  put_in s s2 g (gd_inode_bitmap d)
    (GroupDesc (gd_block_bitmap d) (gd_inode_bitmap d) (gd_inode_table d) (gd_free_blocks_count d)
       (u16 (gd_free_inodes_count d + (if v then -1 else 1))) x) (<[Z.to_nat bit := v]> b) ->
  x = (if dir then u16 (gd_used_dirs_count d + (if v then 1 else -1)) else gd_used_dirs_count d) ->
  s_dirs_counter s2 = s_dirs_counter s + (if dir then (if v then 1 else -1) else 0) ->
  flipped v s s2 (bit + g * ipg + 1) dir.
Proof using W.
  intros Hs Hg Hgo Hbit Hb Hfirst Hp -> Hdirs. pose proof (wf_inodes (sb := sb)) as HI. set (ino := bit + g * ipg + 1) in *.
  pose proof (go_len _ _ _ _ Hgo) as Hl. pose proof (go_dirs _ _ _ _ Hgo) as Hu.
  assert (Hall : forall i, 1 <= i <= ngroups * ipg -> allocated s2 i <-> (if decide (i = ino) then v = true else allocated s i)).
  { intros i Hi. by apply (put_allocated s s2 g d b _ v bit i Hs Hg Hgo Hbit Hp). }
  pose proof (zeros_put ipg b (Z.to_nat bit) (negb v) v Hb ltac:(lia)) as Hz.
  destruct (ino_place g bit ltac:(lia) Hbit) as [Eg _]. fold ino in Eg.
  split; [|done| |done|].
  - eapply put_ok; [exact Hs|exact Hg|exact Hgo|exact Hp|done|by rewrite length_insert| | |].
    + cbn [gd_free_inodes_count]. rewrite (go_free _ _ _ _ Hgo).
      pose proof (zeros_bounds ipg (<[Z.to_nat bit := v]> b) ltac:(lia)).
      replace (zeros ipg b + _) with (zeros ipg (<[Z.to_nat bit := v]> b)) by (destruct v; simpl in Hz; lia).
      apply u16_id. lia.
    + cbn [gd_used_dirs_count]. destruct dir; [apply u16_range|done].
    + intros i Hi. assert (1 <= ino <= ngroups * ipg) by (unfold ino; nia).
      apply Hall; [lia|]. rewrite decide_False by lia. by apply (io_reserved s Hs).
  - intros g' Hg'. rewrite Eg. unfold free_in. rewrite (put_ibits s s2 g d b _ _ Hs Hg Hgo Hp eq_refl g' Hg').
    case_decide as E; [subst g'|lia]. rewrite (group_ibits s g d b Hgo). destruct v; simpl in Hz; lia.
  - intros g' Hg'. rewrite Eg. unfold used_in.
    rewrite (pi_desc _ _ _ _ _ _ Hp) by lia. case_decide as E; [|done]. subst g'. rewrite (go_desc _ _ _ _ Hgo).
    cbn [gd_used_dirs_count]. destruct dir; [done|]. rewrite Z.add_0_r, u16_id; [done|exact Hu].
Qed.

Lemma set_buffer_bits blk b s blk' :
  block_bits (set_buffer blk b s) blk' = if decide (blk' = blk) then Some b else block_bits s blk'.
Proof using.
  unfold block_bits, set_buffer. replace (s_buffers (with_buffers _ s)) with (<[blk := b]> (s_buffers s)) by by destruct s.
  case_decide; [subst; by rewrite lookup_insert_eq|by rewrite lookup_insert_ne].
Qed.

(** The desc of a group is set and bits are put: [put_in]. *)
Lemma put_in_intro s s0 s1 g blk d d' b' : 0 <= g < ngroups -> desc_at sb s g = Some d -> iview s s0 ->
  (forall g, desc_at sb s1 g = desc_at sb (set_buffer blk b' s0) g) ->
  (forall blk', block_bits s1 blk' = block_bits (set_buffer blk b' s0) blk') ->
  length (s_debts s1) = length (s_debts s) ->
  put_in s (set_group_desc sb g d' s1) g blk d' b'.
Proof using W.
  intros Hg Hd (V1 & _ & _ & _ & V5) H1 H2 H3. assert (Hsd : forall g, desc_at sb s1 g = desc_at sb s g).
  { intros g'. rewrite H1. unfold desc_at, set_buffer. destruct s0; simpl. exact (V1 g'). }
  split.
  - intros g' Hg'. rewrite (desc_at_set sb s1 g g' d' d) by (done || by rewrite Hsd). by rewrite Hsd.
  - intros blk'. unfold block_bits at 1. rewrite set_desc_buffers. fold (block_bits s1 blk').
    rewrite H2, set_buffer_bits, V5. done.
  - unfold set_group_desc. by destruct s1.
Qed.

Lemma put_in_dirs s s1 g blk d' b' x : put_in s s1 g blk d' b' -> put_in s (with_dirs x s1) g blk d' b'.
Proof using. destruct s1. intros [P1 P2 P3]. by split. Qed.

Lemma take_spec s g dir n : ialloc_ok s -> 0 <= g < ngroups -> 0 < free_in s g -> n <> O ->
  exists d bit s1 s2, inode_loop sb n g s = Ok (inr (g, d, bit), s1) /\ account_inode sb s1 g d dir = Ok s2 /\
    let ino := bit + g * ipg + 1 in EXT2_FIRST_INO sb <= ino <= ngroups * ipg /\ ~ allocated s ino /\
    flipped true s s2 ino dir /\ s_freeinodes_counter s2 = s_freeinodes_counter s - 1.
Proof using W.
  intros Hs Hg Hf Hn. destruct n as [|n]; [done|]. destruct (io_group s Hs g Hg) as (d & b & Hgo).
  cbn [inode_loop]. rewrite (group_get s g d b) by done. cbn [rbind].
  destruct (read_bitmap_ok s g d b Hgo Hg) as (s0 & -> & Hv). cbn [rbind].
  rewrite (group_free s g d b Hgo), (go_free _ _ _ _ Hgo) in Hf.
  rewrite Nat.add_1_r. destruct (scan_ok b (Z.to_nat ipg) (go_len _ _ _ _ Hgo) Hf) as (bit & Hbit & Hb & ->). cbn [rbind].
  set (s1 := set_buffer _ _ s0). set (ino := bit + g * ipg + 1).
  assert (Hdb : s_debts s1 = s_debts s) by (destruct Hv as (_ & <- & _); by destruct s0).
  destruct (debt_ok s g Hs Hg) as [x Hx]. unfold group_debt in Hx.
  destruct (s_debts s !! Z.to_nat g) as [y|] eqn:Ey; [clear x Hx|done].
  assert (Hino : 1 <= ino <= ngroups * ipg) by (unfold ino; nia).
  assert (Hna : ~ allocated s ino).
  { destruct (ino_place g bit ltac:(lia) Hbit) as [E1 E2]. fold ino in E1, E2. unfold allocated.
    rewrite E1, E2, (group_ibits s g d b Hgo). intros (b2 & [= <-] & H2). congruence. }
  assert (Hfirst : EXT2_FIRST_INO sb <= ino).
  { apply Z.nlt_ge. intros Hlt. apply Hna, (io_reserved s Hs). lia. }
  eexists d, bit, s1, _. split; [done|]. split.
  { unfold account_inode, group_debt. replace (s_debts (if dir then _ else _)) with (s_debts s) by (rewrite <- Hdb; destruct s1, dir; done).
    rewrite Ey. cbn [rbind]. reflexivity. }
  cbv zeta. split; [lia|]. split; [done|]. split.
  - eapply (flip_spec s _ g d b bit true _ dir Hs Hg Hgo Hbit Hb Hfirst); [|reflexivity|].
    + eassert (Hd' : GroupDesc _ _ _ _ _ _ = _); [|rewrite Hd']; cycle 1.
      * eapply put_in_intro; [done|apply Hgo|exact Hv|..]; [intros g'|intros blk'|]; destruct s0, dir; simpl; try done;
          rewrite length_insert; by rewrite <- Hdb.
      * destruct d, dir; reflexivity.
    + destruct Hv as (_ & _ & _ & <- & _). destruct s0, dir; simpl; lia.
  - destruct Hv as (_ & _ & <- & _). by destruct s0, dir.
Qed.

Lemma free_put s n : let ino := i_ino (core n) in let dir := S_ISDIR (i_mode (core n)) in
  ialloc_ok s -> EXT2_FIRST_INO sb <= ino -> 1 <= ino <= ngroups * ipg -> allocated s ino ->
  exists s2 g d b bit x, ext2_free_inode sb s n = Ok s2 /\ ino = bit + g * ipg + 1 /\ 0 <= g < ngroups /\ 0 <= bit < ipg /\ group_ok s g d b /\
    b !! Z.to_nat bit = Some true /\
    put_in s s2 g (gd_inode_bitmap d)
      (GroupDesc (gd_block_bitmap d) (gd_inode_bitmap d) (gd_inode_table d) (gd_free_blocks_count d) (u16 (gd_free_inodes_count d + 1)) x)
      (<[Z.to_nat bit := false]> b) /\
    x = (if dir then u16 (gd_used_dirs_count d + -1) else gd_used_dirs_count d) /\
    s_dirs_counter s2 = s_dirs_counter s + (if dir then -1 else 0) /\ s_freeinodes_counter s2 = s_freeinodes_counter s.
Proof using W.
  intros ino dir Hs Hf Hi (b & Hb & Hbit). destruct (ino_group ino Hi) as [Hg Hm]. unfold ext2_free_inode. fold ino.
  rewrite (proj2 (Z.ltb_ge ino _)), (io_count s Hs), (proj2 (Z.ltb_ge _ _)) by lia. cbn [orb].
  set (g := (ino - 1) / ipg) in *. set (bit := (ino - 1) mod ipg) in *. fold dir.
  destruct (io_group s Hs g Hg) as (d & b0 & Hgo). rewrite (group_ibits s g d b0 Hgo) in Hb. injection Hb as ->.
  destruct (read_bitmap_ok s g d b Hgo Hg) as (s0 & -> & Hv). cbn [rbind].
  unfold ext2_clear_bit_atomic. rewrite (test_and_put_ok false bit b true) by (done || lia). cbn [rbind negb].
  set (s1 := set_buffer _ _ s0). unfold ext2_release_inode.
  assert (Hd1 : desc_at sb s1 g = Some d).
  { rewrite <- (go_desc _ _ _ _ Hgo). destruct Hv as (<- & _). unfold s1, set_buffer. by destruct s0. }
  rewrite (get_desc_ok sb s1 g d) by done. cbn [rbind].
  eexists _, g, d, b, bit, _. split; [reflexivity|]. split.
  { pose proof (Z.div_mod (ino - 1) ipg ltac:(pose proof (wf_inodes (sb := sb)); lia)). unfold bit, g. lia. }
  refine (conj Hg (conj Hm (conj Hgo (conj Hbit (conj _ (conj eq_refl (conj _ _))))))).
  - assert (Hp : forall d', put_in s (set_group_desc sb g d' s1) g (gd_inode_bitmap d) d' (<[Z.to_nat bit := false]> b)).
    { intros d'. eapply put_in_intro; [done|apply Hgo|exact Hv|done|done|]. destruct Hv as (_ & <- & _). by destruct s0. }
    destruct dir, d; [apply put_in_dirs|]; exact (Hp _).
  - destruct Hv as (_ & _ & _ & <- & _). destruct s0, dir; simpl; lia.
  - destruct Hv as (_ & _ & <- & _). by destruct s0, dir.
Qed.

Lemma free_spec s n : let ino := i_ino (core n) in ialloc_ok s -> EXT2_FIRST_INO sb <= ino -> 1 <= ino <= ngroups * ipg ->
  allocated s ino ->
  exists s2, ext2_free_inode sb s n = Ok s2 /\ flipped false s s2 ino (S_ISDIR (i_mode (core n))) /\
    s_freeinodes_counter s2 = s_freeinodes_counter s.
Proof using W.
  intros ino Hs Hf Hi Ha. destruct (free_put s n Hs Hf Hi Ha) as (s2 & g & d & b & bit & x & E & Eino & Hg & Hm & Hgo & Hbit & Hp & Hx & Hd & Hc).
  exists s2. fold ino in Eino. split; [done|]. rewrite Eino. split; [|done]. by eapply (flip_spec s s2 g d b bit false x _ Hs Hg Hgo Hm Hbit); [lia|..].
Qed.

(** The block allocator does not touch the inodes. *)
Definition inode_part (d : group_desc) : Z * Z * Z := (gd_inode_bitmap d, gd_free_inodes_count d, gd_used_dirs_count d).

Record inodes_same (s s' : sbi) : Prop := {
  is_desc g : inode_part <$> desc_at sb s' g = inode_part <$> desc_at sb s g;
  is_bits g : 0 <= g < ngroups -> ibits s' g = ibits s g;
  is_debts : s_debts s' = s_debts s;
  is_freeinodes : s_freeinodes_counter s' = s_freeinodes_counter s;
  is_dirs : s_dirs_counter s' = s_dirs_counter s }.

Lemma inodes_same_desc s s' g d' : inodes_same s s' -> desc_at sb s' g = Some d' ->
  exists d, desc_at sb s g = Some d /\ inode_part d' = inode_part d.
Proof using.
  intros H E. pose proof (is_desc _ _ H g) as Hd. rewrite E in Hd. destruct (desc_at sb s g) as [d|]; [|done].
  exists d. split; [done|]. by apply (inj Some) in Hd.
Qed.

Lemma inodes_same_group s s' g d b : inodes_same s s' -> 0 <= g < ngroups -> group_ok s g d b ->
  exists d', group_ok s' g d' b /\ inode_part d' = inode_part d.
Proof using.
  intros H Hg Hgo. assert (Hgo0 := Hgo). destruct Hgo0 as [G1 G2 G3 G4 G5]. pose proof (is_desc _ _ H g) as Hd.
  rewrite G1 in Hd. destruct (desc_at sb s' g) as [d'|] eqn:E; [|done]. injection Hd as E1 E2 E3. exists d'.
  split; [|unfold inode_part; congruence]. split; [done| |done|congruence|congruence].
  pose proof (is_bits _ _ H g Hg) as Hb. rewrite (group_ibits s g d b Hgo) in Hb. unfold ibits in Hb. by rewrite E in Hb.
Qed.

Lemma inodes_same_allocated s s' ino : inodes_same s s' -> 1 <= ino <= ngroups * ipg -> allocated s' ino <-> allocated s ino.
Proof using W. intros H Hi. unfold allocated. by rewrite (is_bits _ _ H _ (proj1 (ino_group ino Hi))). Qed.

Lemma inodes_same_ok s s' : inodes_same s s' -> ialloc_ok s -> ialloc_ok s'.
Proof using W.
  intros H [I1 I2 I3 I4 I5]. pose proof (wf_first (sb := sb)). split; [| | |by rewrite (is_debts _ _ H)|done].
  - intros g Hg. destruct (I1 g Hg) as (d & b & Hgo). destruct (inodes_same_group s s' g d b H Hg Hgo) as (d' & ? & _). eauto.
  - intros g g' d d' Hg Hg' E E' Eb. destruct (inodes_same_desc s s' g d H E) as (d1 & E1 & [= P1 _ _]).
    destruct (inodes_same_desc s s' g' d' H E') as (d2 & E2 & [= P2 _ _]). apply (I2 g g' d1 d2); congruence.
  - intros ino Hi. apply (inodes_same_allocated s s'); [done|lia|]. by apply I3.
Qed.

Lemma inodes_same_free s s' g : inodes_same s s' -> 0 <= g < ngroups -> free_in s' g = free_in s g.
Proof using. intros H Hg. unfold free_in. by rewrite (is_bits _ _ H g Hg). Qed.

Lemma inodes_same_used s s' g : inodes_same s s' -> used_in s' g = used_in s g.
Proof using.
  intros H. unfold used_in. pose proof (is_desc _ _ H g) as Hd.
  destruct (desc_at sb s' g), (desc_at sb s g); [|done..]. apply (inj Some) in Hd. by injection Hd.
Qed.
End IallocFacts.
