(* ===== verification/Ext2IallocTheorems.v ===== *)
(** * ext2: what [ext2_new_inode] and [ext2_free_inode] guarantee

    A new inode is one that was free; an inode is found whenever one is free; after an
    error nothing has been taken; taking and freeing restores the bitmap and the group
    descriptors, but not the counter of free inodes. *)

From S2P Require Import Prelude CString ByteMem Ext2Layout Ext2Dir Ext2Super Ext2Inode Ext2Ialloc Ext2IallocFacts.

(** What the code outside ext2 keeps: the type of a mode. *)
Definition keeps_type (v : vfs) : Prop := forall ino mode, S_ISDIR (snd (ext2_init_acl v ino mode)) = S_ISDIR mode.

(** It lets every inode be made. *)
Definition hooks_succeed (v : vfs) : Prop := new_inode_ok v = true /\ forall ino,
  dquot_initialize v ino = 0 /\ dquot_alloc_inode v ino = 0 /\ ext2_init_security v ino = 0 /\
  forall mode, fst (ext2_init_acl v ino mode) = 0.

Section NewInode.
Context (sb : sb_info) {W : SbWf sb} (v : vfs) (release_blocks : inode -> sbi -> sbi).
Hypothesis Hacl : keeps_type v.
Hypothesis Hrel : forall n s, inodes_same sb s (release_blocks n s).

Notation ngroups := (s_groups_count sb).
Notation ipg := (EXT2_INODES_PER_GROUP sb).

Lemma isgid_type mode : S_ISDIR (Z.lor mode S_ISGID) = S_ISDIR mode.
Proof using.
  unfold S_ISDIR. rewrite Z.land_lor_distr_l. change (Z.land S_ISGID S_IFMT) with 0. by rewrite Z.lor_0_r.
Qed.

(** The new inode: a link, a reference, no data, the type of [mode]. *)
Definition fresh_inode (n : inode) (mode : Z) : Prop :=
  i_nlink n = 1 /\ i_count n = 1 /\ i_new n = true /\ i_op n = no_inode_operations /\
  i_size (core n) = 0 /\ i_blocks (core n) = 0 /\ i_pages (core n) = ∅ /\ i_dir_start_lookup (core n) = 0 /\
  S_ISDIR (i_mode (core n)) = S_ISDIR mode.

Lemma set_flags_same dax n : let n' := ext2_set_inode_flags dax n in
  core n' = core n /\ i_nlink n' = i_nlink n /\ i_count n' = i_count n /\ i_op n' = i_op n /\
  i_block_group n' = i_block_group n.
Proof using. by destruct n. Qed.

Lemma init_inode_fresh dir mode ino g gen : let n := init_inode sb v dir mode ino g gen in
  i_ino (core n) = ino /\ i_block_group n = g /\ fresh_inode (with_new true n) mode.
Proof using.
  unfold init_inode, fresh_inode.
  set (n0 := Inode (Dir ino _ _ _ _ _ _ _ _ _ _ _) _ _ _ _ _ _ _ _ _ _ _ _).
  destruct (set_flags_same (DAX sb) n0) as (E1 & E2 & E3 & E4 & E5).
  destruct (ext2_set_inode_flags (DAX sb) n0) as [c nl ct nw u gi bg ge op ao li rd fl]. simpl in *. subst. simpl.
  split; [done|]. split; [done|]. repeat split; [].
  destruct (GRPID sb); [done|]. unfold inode_init_owner. destruct (negb _); [|done]. simpl.
  destruct (S_ISDIR mode) eqn:E; [|done]. by rewrite isgid_type.
Qed.

(** The inodes in use are the same. *)
Definition same_allocated (s s' : sbi) : Prop := forall i, 1 <= i <= ngroups * ipg -> allocated sb s' i <-> allocated sb s i.

Lemma generation_same x s : inodes_same sb s (with_generation x s).
Proof using. by destruct s. Qed.

Lemma inodes_same_trans s1 s2 s3 : inodes_same sb s1 s2 -> inodes_same sb s2 s3 -> inodes_same sb s1 s3.
Proof using. intros [A1 A2 A3 A4 A5] [B1 B2 B3 B4 B5]. split; intros; rewrite ?B1, ?B2, ?B3, ?B4, ?B5; auto. Qed.

(** Undoing the allocation. *)
Lemma fail_drop_spec s n ino mode dir : ialloc_ok sb s -> i_ino (core n) = ino -> EXT2_FIRST_INO sb <= ino ->
  1 <= ino <= ngroups * ipg -> allocated sb s ino -> fresh_inode n mode -> S_ISDIR mode = dir ->
  exists s1 s2, fail_drop sb release_blocks s n = Ok s2 /\ inodes_same sb s s1 /\ flipped sb false s1 s2 ino dir.
Proof using W Hrel.
  intros Hs Ei Hf Hi Ha (F1 & F2 & F3 & F4 & F5 & F6 & F7 & F8 & F9) <-. unfold fail_drop, iput.
  set (n1 := with_count _ _). assert (H1 : i_count n1 = 0 /\ i_nlink n1 = 0 /\ is_bad_inode n1 = false /\ core n1 = core n).
  { unfold n1, clear_nlink, is_bad_inode. destruct n; simpl in *. subst. simpl. repeat split. }
  destruct H1 as (Hc & Hn & Hbad & Ec). clearbody n1. unfold ext2_evict_inode. rewrite Hc, Hn, Hbad. cbn [Z.eqb orb andb negb].
  pose proof (Hrel n1 s) as Hsame. destruct (free_spec sb (release_blocks n1 s) n1) as (s2 & E & Hfl & _);
    [by eapply inodes_same_ok|rewrite Ec; lia|rewrite Ec; lia|rewrite Ec, Ei; by apply (inodes_same_allocated sb s)|].
  rewrite E. cbn [rbind]. exists (release_blocks n1 s), s2. split; [done|]. split; [done|].
  by rewrite Ec, Ei, F9 in Hfl.
Qed.

(** Without a free inode in any group, all are in use. *)
Lemma full_allocated s i : ialloc_ok sb s -> (forall g, 0 <= g < ngroups -> free_in sb s g = 0) ->
  1 <= i <= ngroups * ipg -> allocated sb s i.
Proof using W.
  intros Hs Hfull Hi. destruct (ino_group sb i Hi) as [Hg Hm]. destruct (io_group sb s Hs _ Hg) as (d & b & Hgo).
  specialize (Hfull _ Hg). unfold free_in in Hfull. rewrite (group_ibits sb s _ d b Hgo) in Hfull.
  exists b. split; [by apply (group_ibits sb s _ d)|]. pose proof (go_len _ _ _ _ _ Hgo).
  apply (proj1 (zeros_none ipg b ltac:(lia)) Hfull). done.
Qed.

Lemma iput_bad s n : i_count n = 1 -> iput sb release_blocks s (make_bad_inode (vfs_time v) n) = Ok (None, s).
Proof using.
  intros Hc. unfold iput, ext2_evict_inode, is_bad_inode, make_bad_inode. destruct n; simpl in *. rewrite Hc. simpl.
  by rewrite orb_true_r, andb_false_r.
Qed.

Lemma flipped_back s s1 s2 s3 ino dir : ialloc_ok sb s -> ~ allocated sb s ino -> flipped sb true s s1 ino dir ->
  inodes_same sb s1 s2 -> flipped sb false s2 s3 ino dir -> ialloc_ok sb s3 /\ same_allocated s s3.
Proof using W.
  intros Hs Hna F1 Hsame F2. split; [apply F2|]. intros i Hi. rewrite (fl_alloc _ _ _ _ _ _ F2 i Hi). case_decide; [by subst|].
  rewrite (inodes_same_allocated sb s1 s2 i Hsame Hi), (fl_alloc _ _ _ _ _ _ F1 i Hi). by rewrite decide_False.
Qed.

Lemma undo_spec s s2 s3 n ino mode : ialloc_ok sb s -> ~ allocated sb s ino -> flipped sb true s s2 ino (S_ISDIR mode) ->
  inodes_same sb s2 s3 -> i_ino (core n) = ino -> EXT2_FIRST_INO sb <= ino <= ngroups * ipg -> fresh_inode n mode ->
  exists s4, fail_drop sb release_blocks s3 n = Ok s4 /\ ialloc_ok sb s4 /\ same_allocated s s4.
Proof using W Hrel.
  intros Hs Hna Hfl Hsame Ei Hino Hfr. pose proof (wf_first (sb := sb)) as Hfi.
  assert (Ha3 : allocated sb s3 ino).
  { apply (inodes_same_allocated sb s2 s3); [done|lia|]. apply (fl_alloc _ _ _ _ _ _ Hfl); [lia|]. by rewrite decide_True. }
  destruct (fail_drop_spec s3 n ino mode (S_ISDIR mode)) as (s1 & s4 & E & H1 & H2);
    [apply (inodes_same_ok sb s2); [done|apply Hfl]|done|lia|lia|done|done|done|].
  exists s4. split; [done|]. eapply flipped_back; [done|exact Hna|exact Hfl| |exact H2]. by eapply inodes_same_trans.
Qed.

(** What [ext2_new_inode] leaves behind. *)
Definition new_outcome (s : sbi) (mode : Z) (r : Z + inode) (s' : sbi) : Prop :=
  match r with
  | inl err => err <> 0 /\ same_allocated s s' /\
      (err = - ENOSPC /\ (forall g, 0 <= g < ngroups -> free_in sb s g = 0) \/ ~ hooks_succeed v)
  | inr n => let ino := i_ino (core n) in EXT2_FIRST_INO sb <= ino <= ngroups * ipg /\ ~ allocated sb s ino /\
      fresh_inode n mode /\ 0 <= i_block_group n < ngroups /\
      s_freeinodes_counter s' = s_freeinodes_counter s - 1 /\
      exists s1, flipped sb true s s1 ino (S_ISDIR mode) /\ inodes_same sb s1 s'
  end.

Lemma new_inode_spec inodes s parent mode : ialloc_ok sb s -> parent_ok sb parent ->
  (forall i, i ∈ inodes -> allocated sb s i) ->
  exists r s', ext2_new_inode sb v release_blocks inodes s parent mode = Ok (r, s') /\ ialloc_ok sb s' /\
    new_outcome s mode r s'.
Proof using W Hacl Hrel.
  intros Hs Hp Hin. pose proof (wf_first (sb := sb)) as Hfi. unfold ext2_new_inode.
  destruct (new_inode_ok v) eqn:Enew; cbn [negb]; [|exists (inl (- ENOMEM)), s; split; [done|]; split; [done|];
    split; [done|]; split; [by intros i|]; right; intros [? _]; congruence].
  destruct (find_group_good sb v s parent mode Hs Hp) as (g & -> & Hg). cbn [rbind].
  destruct Hg as [[Hg Hf]|[-> Hfull]].
  2:{ cbn [Z.eqb]. rewrite iput_bad by done. cbn [rbind]. exists (inl (- ENOSPC)), s. split; [done|]. split; [done|].
      split; [done|]. split; [by intros i|]. by left. }
  rewrite (proj2 (Z.eqb_neq g (-1))) by lia.
  destruct (take_spec sb s g (S_ISDIR mode) (Z.to_nat ngroups) Hs Hg Hf) as (d & bit & s1 & s2 & -> & Eac & Hino & Hna & Hfl & Hfc);
    [lia|]. cbn [rbind]. set (ino := bit + g * ipg + 1) in *.
  rewrite (proj2 (Z.ltb_ge ino _)), (io_count sb s Hs), (proj2 (Z.ltb_ge _ ino)) by lia. cbn [orb]. rewrite Eac. cbn [rbind].
  rewrite bool_decide_false by (intros ?%Hin; done).
  destruct (init_inode_fresh parent mode ino g (s_next_generation s2)) as (Ei & Eg & Hfresh).
  set (n := init_inode sb v parent mode ino g (s_next_generation s2)) in *.
  pose proof (generation_same (u32 (s_next_generation s2 + 1)) s2) as Hsame.
  set (s3 := with_generation (u32 (s_next_generation s2 + 1)) s2) in *.
  assert (Hundo : forall n' err, i_ino (core n') = ino -> fresh_inode n' mode -> err <> 0 -> ~ hooks_succeed v ->
    exists r s', (let* s := fail_drop sb release_blocks s3 n' in Ok (inl err, s)) = Ok (r, s') /\ ialloc_ok sb s' /\
      new_outcome s mode r s').
  { intros n' err E' F' He Hh. destruct (undo_spec s s2 s3 n' ino mode) as (s4 & -> & H1 & H2); [done..|].
    cbn [rbind]. exists (inl err), s4. split; [done|]. split; [done|]. split; [done|]. split; auto. }
  clearbody n. assert (En : i_ino (core (with_new true n)) = ino) by by destruct n.
  assert (Ebg : 0 <= i_block_group (with_new true n) < ngroups) by (destruct n; simpl in *; lia).
  set (n1 := with_new true n) in *. clearbody n1.
  destruct (Z.eqb_spec (dquot_initialize v ino) 0) as [E1|E1]; cbn [negb];
    [|apply Hundo; [done..|]; intros [_ Hh]; by destruct (Hh ino)].
  destruct (Z.eqb_spec (dquot_alloc_inode v ino) 0) as [E2|E2]; cbn [negb];
    [|apply Hundo; [done..|]; intros [_ Hh]; by destruct (Hh ino) as (_ & ? & _)].
  destruct (ext2_init_acl v ino (i_mode (core n1))) as [err mode'] eqn:Eacl.
  set (n2 := with_core (with_mode mode' (core n1)) n1).
  assert (Hn2 : i_ino (core n2) = ino /\ fresh_inode n2 mode /\ i_block_group n2 = i_block_group n1).
  { pose proof (Hacl ino (i_mode (core n1))) as Ht. rewrite Eacl in Ht. simpl in Ht. unfold n2, fresh_inode in *.
    destruct n1 as [c]; destruct c; simpl in *. rewrite Ht. done. }
  destruct Hn2 as (Ei2 & Hf2 & Eg2). clearbody n2.
  destruct (Z.eqb_spec err 0) as [E3|E3]; cbn [negb];
    [|apply Hundo; [done..|]; intros [_ Hh]; destruct (Hh ino) as (_ & _ & _ & Ha); specialize (Ha (i_mode (core n1))); by rewrite Eacl in Ha].
  destruct (Z.eqb_spec (ext2_init_security v ino) 0) as [E4|E4]; cbn [negb];
    [|apply Hundo; [done..|]; intros [_ Hh]; by destruct (Hh ino) as (_ & _ & ? & _)].
  exists (inr (mark_inode_dirty n2)), s3. split; [done|]. split; [apply (inodes_same_ok sb s2); [done|apply Hfl]|].
  unfold new_outcome. assert (Hm : i_ino (core (mark_inode_dirty n2)) = ino /\ fresh_inode (mark_inode_dirty n2) mode /\
    i_block_group (mark_inode_dirty n2) = i_block_group n2) by (unfold fresh_inode in *; destruct n2 as [c]; destruct c; done).
  destruct Hm as (-> & Hfm & ->). rewrite Eg2. split; [lia|]. split; [done|]. split; [done|]. split; [done|].
  split; [rewrite <- Hfc; by destruct s2|]. eauto.
Qed.
End NewInode.

(** A file system of two groups with eight inodes each; of the second group, the inodes 9
    and 10 are in use. *)
Module DemoSb.
Definition demo_sb : sb_info :=
  SbInfo 2 5 8 64 1 1 11 16 128 5 0 0 true false false false true false (fun _ => None).

#[global] Instance demo_wf : SbWf demo_sb.
Proof. split; simpl; lia. Qed.

Definition demo_vfs : vfs := Vfs true (fun _ => 0) (fun _ => 0) (fun _ m => (0, m)) (fun _ => 0) 5 2 100 100 77.

Definition demo_sbi : sbi :=
  Sbi [Some [GroupDesc 3 4 5 40 0 1; GroupDesc 67 68 69 50 6 0]]
    {[ 4 := replicate 16 true; 68 := [true; true] ++ replicate 14 false ]} [0; 0] 6 90 1 1000 [].

Definition demo_parent : inode :=
  Inode (Dir 2 16877 1024 2 0 0 0 0 0 false ∅ []) 2 1 false 0 0 0 0 ext2_dir_inode_operations ext2_aops None 0 0.

Lemma demo_ok : ialloc_ok demo_sb demo_sbi.
Proof.
  split.
  - intros g Hg. change (s_groups_count demo_sb) with 2 in Hg. assert (g = 0 \/ g = 1) as [-> | ->] by lia;
      eexists _, _; split; try reflexivity; vm_compute; try discriminate; split; discriminate || reflexivity.
  - intros g g' d d' Hg Hg'. change (s_groups_count demo_sb) with 2 in *.
    assert (g = 0 \/ g = 1) as [-> | ->] by lia; assert (g' = 0 \/ g' = 1) as [-> | ->] by lia; try done;
      intros E1 E2 Eb; vm_compute in E1, E2; injection E1 as <-; injection E2 as <-; discriminate.
  - intros ino Hi. change (EXT2_FIRST_INO demo_sb) with 11 in Hi. unfold allocated.
    assert (ino = 1 \/ ino = 2 \/ ino = 3 \/ ino = 4 \/ ino = 5 \/ ino = 6 \/ ino = 7 \/ ino = 8 \/ ino = 9 \/ ino = 10)
      as Hx by lia. repeat destruct Hx as [-> |Hx]; try subst ino; eexists; (split; [reflexivity|reflexivity]).
  - reflexivity.
  - reflexivity.
Qed.

Lemma demo_parent_ok : parent_ok demo_sb demo_parent.
Proof. split; simpl; lia. Qed.

Lemma same_refl s : inodes_same demo_sb s s.
Proof. by split. Qed.
End DemoSb.

(** C33: whatever the policy that picks the group, [ext2_new_inode] returns an inode that
    was free and in range and marks it, and no other, as used; when it fails nothing has
    been taken.  Unless memory, quota or security refuse, it fails only with ENOSPC, and
    only when no group has a free inode.  The counts of free inodes in the descriptors
    stay those of the bitmaps. *)
Theorem new_inode_takes_free_inode sb `{!SbWf sb} v release inodes s parent mode :
  keeps_type v -> (forall n s, inodes_same sb s (release n s)) -> ialloc_ok sb s -> parent_ok sb parent ->
  (forall i, i ∈ inodes -> allocated sb s i) ->
  exists r s', ext2_new_inode sb v release inodes s parent mode = Ok (r, s') /\ ialloc_ok sb s' /\
    match r with
    | inr n => EXT2_FIRST_INO sb <= i_ino (core n) <= es_inodes_count sb /\ ~ allocated sb s (i_ino (core n)) /\
        fresh_inode n mode /\
        forall i, 1 <= i <= es_inodes_count sb -> allocated sb s' i <-> i = i_ino (core n) \/ allocated sb s i
    | inl err => (forall i, 1 <= i <= es_inodes_count sb -> allocated sb s' i <-> allocated sb s i) /\
        (hooks_succeed v -> err = - ENOSPC /\ forall i, 1 <= i <= es_inodes_count sb -> allocated sb s i)
    end.
Proof.
  intros Hk Hrel Hs Hp Hin. destruct (new_inode_spec sb v release Hk Hrel inodes s parent mode Hs Hp Hin) as (r & s' & E & Hs' & Ho).
  exists r, s'. split; [done|]. split; [done|]. rewrite (io_count sb s Hs). destruct r as [err|n].
  - destruct Ho as (_ & Hsame & Herr). split; [done|]. intros Hh. destruct Herr as [[-> Hfull]|?]; [|done]. split; [done|].
    intros i Hi. by apply full_allocated.
  - destruct Ho as (Hr & Hna & Hfr & _ & _ & s1 & Hfl & Hsame). split; [done|]. split; [done|]. split; [done|]. intros i Hi.
    rewrite (inodes_same_allocated sb s1 s' i Hsame Hi), (fl_alloc _ _ _ _ _ _ Hfl i Hi).
    case_decide as E'; [subst; tauto|]. tauto.
Qed.

Lemma new_inode_takes_free_inode_witness :
  exists r s', ext2_new_inode DemoSb.demo_sb DemoSb.demo_vfs (fun _ s => s) {[2]} DemoSb.demo_sbi DemoSb.demo_parent 16877 = Ok (r, s') /\
    ialloc_ok DemoSb.demo_sb s' /\
    match r with
    | inr n => 11 <= i_ino (core n) <= 16 /\ ~ allocated DemoSb.demo_sb DemoSb.demo_sbi (i_ino (core n)) /\
        fresh_inode n 16877 /\
        forall i, 1 <= i <= 16 -> allocated DemoSb.demo_sb s' i <-> i = i_ino (core n) \/ allocated DemoSb.demo_sb DemoSb.demo_sbi i
    | inl err => (forall i, 1 <= i <= 16 -> allocated DemoSb.demo_sb s' i <-> allocated DemoSb.demo_sb DemoSb.demo_sbi i) /\
        (hooks_succeed DemoSb.demo_vfs -> err = - ENOSPC /\ forall i, 1 <= i <= 16 -> allocated DemoSb.demo_sb DemoSb.demo_sbi i)
    end.
Proof.
  apply (new_inode_takes_free_inode DemoSb.demo_sb DemoSb.demo_vfs (fun _ s => s) {[2]} DemoSb.demo_sbi DemoSb.demo_parent 16877);
    [done|intros n s; apply DemoSb.same_refl|apply DemoSb.demo_ok|apply DemoSb.demo_parent_ok|].
  intros i ->%elem_of_singleton. by eexists.
Defined.

(** An inode that is allocated and then freed leaves the bitmaps, the descriptors'
    counts of free inodes and of directories, and the counter of directories as before.
    The counter of free inodes, which [ext2_new_inode] decrements, stays one too low:
    [ext2_release_inode] never increments it. *)
Theorem new_free_roundtrip sb `{!SbWf sb} v release inodes s parent mode :
  keeps_type v -> (forall n s, inodes_same sb s (release n s)) -> hooks_succeed v -> ialloc_ok sb s -> parent_ok sb parent ->
  (forall i, i ∈ inodes -> allocated sb s i) -> (exists i, 1 <= i <= es_inodes_count sb /\ ~ allocated sb s i) ->
  exists n s1 s2, ext2_new_inode sb v release inodes s parent mode = Ok (inr n, s1) /\
    ext2_free_inode sb s1 n = Ok s2 /\ ialloc_ok sb s2 /\
    (forall i, 1 <= i <= es_inodes_count sb -> allocated sb s2 i <-> allocated sb s i) /\
    (forall g, 0 <= g < s_groups_count sb -> free_in sb s2 g = free_in sb s g /\ used_in sb s2 g = used_in sb s g) /\
    s_dirs_counter s2 = s_dirs_counter s /\ s_freeinodes_counter s2 = s_freeinodes_counter s - 1.
Proof.
  intros Hk Hrel Hh Hs Hp Hin (i0 & Hi0 & Hna0). pose proof (wf_first (sb := sb)) as Hfi. rewrite (io_count sb s Hs) in *.
  destruct (new_inode_spec sb v release Hk Hrel inodes s parent mode Hs Hp Hin) as (r & s1 & E & Hs1 & Ho).
  destruct r as [err|n].
  { destruct Ho as (_ & _ & [[_ Hfull]|?]); [|done]. exfalso. by apply Hna0, full_allocated. }
  destruct Ho as (Hr & Hna & Hfr & _ & Hfc & s0 & Hfl & Hsame). set (ino := i_ino (core n)) in *.
  assert (Ha1 : allocated sb s1 ino).
  { apply (inodes_same_allocated sb s0 s1); [done|lia|]. apply (fl_alloc _ _ _ _ _ _ Hfl); [lia|]. by rewrite decide_True. }
  destruct (free_spec sb s1 n Hs1) as (s2 & E2 & Hfl2 & Hfc2); [fold ino; lia|fold ino; lia|done|].
  fold ino in Hfl2. destruct Hfr as (_ & _ & _ & _ & _ & _ & _ & _ & Hty). rewrite Hty in Hfl2.
  exists n, s1, s2. split; [done|]. split; [done|].
  destruct (flipped_back sb s s0 s1 s2 ino (S_ISDIR mode) Hs Hna Hfl Hsame Hfl2) as [Hs2 Hsa]. split; [done|]. split; [done|].
  split; [|split; [rewrite (fl_dirs _ _ _ _ _ _ Hfl2), (is_dirs _ _ _ Hsame), (fl_dirs _ _ _ _ _ _ Hfl); destruct (S_ISDIR mode); lia|lia]].
  intros g Hg. rewrite (fl_free _ _ _ _ _ _ Hfl2 g Hg), (fl_used _ _ _ _ _ _ Hfl2 g Hg).
  rewrite (inodes_same_free sb s0 s1 g Hsame Hg), (inodes_same_used sb s0 s1 g Hsame).
  rewrite (fl_free _ _ _ _ _ _ Hfl g Hg), (fl_used _ _ _ _ _ _ Hfl g Hg). case_decide; [|split; lia].
  split; [lia|]. assert (Hu : 0 <= used_in sb s g < 2 ^ 16).
  { destruct (io_group sb s Hs g Hg) as (d & b & Hgo). unfold used_in. rewrite (go_desc _ _ _ _ _ Hgo). apply (go_dirs _ _ _ _ _ Hgo). }
  destruct (S_ISDIR mode); [|by rewrite !Z.add_0_r, !u16_id by (rewrite ?u16_id; lia)].
  unfold u16. rewrite Zplus_mod_idemp_l. replace (used_in sb s g + 1 + -1) with (used_in sb s g) by lia. by apply Z.mod_small.
Qed.

Lemma new_free_roundtrip_witness :
  exists n s1 s2, ext2_new_inode DemoSb.demo_sb DemoSb.demo_vfs (fun _ s => s) {[2]} DemoSb.demo_sbi DemoSb.demo_parent 16877 = Ok (inr n, s1) /\
    ext2_free_inode DemoSb.demo_sb s1 n = Ok s2 /\ ialloc_ok DemoSb.demo_sb s2 /\
    (forall i, 1 <= i <= 16 -> allocated DemoSb.demo_sb s2 i <-> allocated DemoSb.demo_sb DemoSb.demo_sbi i) /\
    (forall g, 0 <= g < 2 -> free_in DemoSb.demo_sb s2 g = free_in DemoSb.demo_sb DemoSb.demo_sbi g /\
       used_in DemoSb.demo_sb s2 g = used_in DemoSb.demo_sb DemoSb.demo_sbi g) /\
    s_dirs_counter s2 = 1 /\ s_freeinodes_counter s2 = 6 - 1.
Proof.
  apply (new_free_roundtrip DemoSb.demo_sb DemoSb.demo_vfs (fun _ s => s) {[2]} DemoSb.demo_sbi DemoSb.demo_parent 16877);
    [done|intros n s; apply DemoSb.same_refl|split; [done|]; intros ino; done|apply DemoSb.demo_ok|apply DemoSb.demo_parent_ok| |].
  - intros i ->%elem_of_singleton. by eexists.
  - exists 11. split; [simpl; lia|]. intros (b & E & Hb). vm_compute in E. injection E as <-. discriminate.
Defined.
