(* ===== verification/Ext2Balloc.v ===== *)
(** * ext2: allocation of blocks

    [fs/ext2/balloc.c]: the block bitmaps, the reservation windows of the open files in
    their red-black tree, the search for free blocks and their release.  A window node is
    known by the number of the inode that owns it; 0 is the dummy head of the file system.
    The functions of [<linux/rbtree.h>] and [lib/rbtree.c] are parameters ([rb_lib]), as
    are the quota, the credentials of the caller, [kmalloc] and [spin_trylock]
    ([block_env]).  The allocators run one at a time: the locks are not part of the
    state. *)

From S2P Require Import Prelude CString ByteMem Ext2Layout Ext2Dir Ext2Super Ext2Inode Ext2Ialloc.

(** ** Reservation windows *)

(** [struct ext2_reserve_window_node] without its links; an empty window ends at 0. *)
Record rsv_node : Type := Rsv { rsv_start : Z; rsv_end : Z; rsv_goal_size : Z; rsv_alloc_hit : Z }.

Definition with_window a e n := let 'Rsv _ _ g h := n in Rsv a e g h.
Definition with_goal_size g n := let 'Rsv a e _ h := n in Rsv a e g h.
Definition with_alloc_hit h n := let 'Rsv a e g _ := n in Rsv a e g h.

Definition EXT2_RESERVE_WINDOW_NOT_ALLOCATED : Z := 0.
Definition EXT2_DEFAULT_RESERVE_BLOCKS : Z := 8.
Definition EXT2_MAX_RESERVE_BLOCKS : Z := 1027.

(** A red-black tree: the color, the node and the two subtrees. *)
Inductive rbtree : Type :=
  | RbLeaf
  | RbNode (red : bool) (l : rbtree) (n : Z) (r : rbtree).

Fixpoint inorder (t : rbtree) : list Z :=
  match t with RbLeaf => [] | RbNode _ l n r => inorder l ++ n :: inorder r end.

(** The library of red-black trees. *)
Record rb_lib : Type := RbLib {
  rb_insert_color : Z -> rbtree -> rbtree;
  rb_erase : Z -> rbtree -> rbtree;
  rb_first : rbtree -> option Z;
  rb_next : rbtree -> Z -> option Z;
  rb_prev : rbtree -> Z -> option Z }.

(** The nodes in memory, the root of the tree, and the logical and physical number of the
    block last allocated for an inode.  The inode has a [struct ext2_block_alloc_info]
    exactly when it has a node. *)
Record rsv_state : Type := RsvState {
  rsv_nodes : gmap Z rsv_node; s_rsv_window_root : rbtree; last_alloc : gmap Z (Z * Z) }.

Definition put_node (p : Z) (n : rsv_node) (w : rsv_state) : rsv_state :=
  RsvState (<[p := n]> (rsv_nodes w)) (s_rsv_window_root w) (last_alloc w).
Definition with_root (t : rbtree) (w : rsv_state) : rsv_state := RsvState (rsv_nodes w) t (last_alloc w).
Definition get_node (w : rsv_state) (p : Z) : res rsv_node := deref (rsv_nodes w !! p).

(** What the rest of the kernel answers. *)
Record block_env : Type := BlockEnv {
  dquot_alloc_block : Z -> Z -> Z;       (* inode and blocks: 0 or an error *)
  capable_sys_resource : bool;
  s_resuid : Z; s_resgid : Z; fsuid : Z; in_group_p : Z -> bool;
  spin_trylock : rsv_state -> bool;
  kmalloc_ok : bool }.

(** The file system, the windows, and the blocks charged to each inode. *)
Record bstate : Type := BState { b_sbi : sbi; b_rsv : rsv_state; b_charged : gmap Z Z }.

Definition in_range (b first len : Z) : bool := (first <=? b) && (b <=? u64 (first + len - 1)).

(** The reports of [__rsv_window_dump]. *)
Inductive dump_line : Type :=
  | DumpWindow (p start end_ : Z) | DumpBadSize (p : Z) | DumpBadPrev (p : Z) | DumpRestart | DumpComplete.

Section Windows.
Context (rb : rb_lib).

(** The loop of [__rsv_window_dump]: its output and [bad]; it stops at a bad window when it
    is not verbose. *)
Fixpoint dump_loop (fuel : nat) (w : rsv_state) (n prev : option Z) (verbose bad : bool) (out : list dump_line) :
    res (bool * list dump_line) :=
  match fuel with
  | O => NoFuel
  | S fuel' =>
      match n with
      | None => Ok (bad, out)
      | Some p =>
          let* rsv := get_node w p in
          let out := if verbose then out ++ [DumpWindow p (rsv_start rsv) (rsv_end rsv)] else out in
          let bad_size := negb (rsv_start rsv =? 0) && (rsv_end rsv <=? rsv_start rsv) in
          let out := if bad_size then out ++ [DumpBadSize p] else out in
          let* bad_prev :=
            match prev with
            | None => Ok false
            | Some q => let* prev := get_node w q in Ok (rsv_start rsv <=? rsv_end prev)
            end in
          let out := if bad_prev then out ++ [DumpBadPrev p] else out in
          let bad := bad || bad_size || bad_prev in
          if bad && negb verbose then Ok (true, out)
          else dump_loop fuel' w (rb_next rb (s_rsv_window_root w) p) (Some p) verbose bad out
      end
  end.

(** The whole function: what it has printed, unless [BUG_ON] stops it. *)
Definition rsv_window_dump (w : rsv_state) (verbose : bool) : res (list dump_line) :=
  let fuel := S (size (rsv_nodes w)) in
  let first := rb_first rb (s_rsv_window_root w) in
  let* '(bad, out) := dump_loop fuel w first None verbose false [] in
  let* '(bad, out) :=
    if bad && negb verbose then dump_loop fuel w first None true false (out ++ [DumpRestart]) else Ok (bad, out) in
  if bad then Undef KernelBug else Ok (out ++ [DumpComplete]).

(** The walk down the tree: the window that includes the goal, or the last one visited. *)
Fixpoint search_tree (w : rsv_state) (goal : Z) (t : rbtree) : res (option Z) :=
  match t with
  | RbLeaf => Ok None
  | RbNode _ l p r =>
      let* rsv := get_node w p in
      if goal <? rsv_start rsv then let* x := search_tree w goal l in Ok (Some (default p x))
      else if rsv_end rsv <? goal then let* x := search_tree w goal r in Ok (Some (default p x))
      else Ok (Some p)
  end.

Definition search_reserve_window (w : rsv_state) (goal : Z) : res (option Z) :=
  let* last := search_tree w goal (s_rsv_window_root w) in
  match last with
  | None => Ok None
  | Some p =>
      let* rsv := get_node w p in
      Ok (if goal <? rsv_start rsv then rb_prev rb (s_rsv_window_root w) p else Some p)
  end.

(** The walk of [ext2_rsv_window_add] and [rb_link_node]; a window that starts inside
    another one is a bug. *)
Fixpoint link_window (w : rsv_state) (node start : Z) (t : rbtree) : res rbtree :=
  match t with
  | RbLeaf => Ok (RbNode true RbLeaf node RbLeaf)
  | RbNode c l p r =>
      let* this := get_node w p in
      if start <? rsv_start this then let* l := link_window w node start l in Ok (RbNode c l p r)
      else if rsv_end this <? start then let* r := link_window w node start r in Ok (RbNode c l p r)
      else let* _ := rsv_window_dump w true in Undef KernelBug
  end.

Definition ext2_rsv_window_add (w : rsv_state) (p : Z) : res rsv_state :=
  let* rsv := get_node w p in
  let* t := link_window w p (rsv_start rsv) (s_rsv_window_root w) in
  Ok (with_root (rb_insert_color rb p t) w).

Definition rsv_window_remove (w : rsv_state) (p : Z) : res rsv_state :=
  let* rsv := get_node w p in
  let rsv := with_alloc_hit 0 (with_window EXT2_RESERVE_WINDOW_NOT_ALLOCATED EXT2_RESERVE_WINDOW_NOT_ALLOCATED rsv) in
  let w := put_node p rsv w in
  Ok (with_root (rb_erase rb p (s_rsv_window_root w)) w).

Definition rsv_is_empty (rsv : rsv_node) : bool := rsv_end rsv =? EXT2_RESERVE_WINDOW_NOT_ALLOCATED.

(** The windows of a new mount: the dummy head alone (in [ext2_fill_super]). *)
Definition init_windows : res rsv_state :=
  let head := Rsv EXT2_RESERVE_WINDOW_NOT_ALLOCATED EXT2_RESERVE_WINDOW_NOT_ALLOCATED 0 0 in
  ext2_rsv_window_add (RsvState {[0 := head]} RbLeaf ∅) 0.

Definition ext2_init_block_alloc_info (sb : sb_info) (env : block_env) (ino : Z) (w : rsv_state) : rsv_state :=
  if kmalloc_ok env then
    let goal_size := if RESERVATION sb then EXT2_DEFAULT_RESERVE_BLOCKS else 0 in
    let rsv := Rsv EXT2_RESERVE_WINDOW_NOT_ALLOCATED EXT2_RESERVE_WINDOW_NOT_ALLOCATED goal_size 0 in
    RsvState (<[ino := rsv]> (rsv_nodes w)) (s_rsv_window_root w) (<[ino := (0, 0)]> (last_alloc w))
  else RsvState (delete ino (rsv_nodes w)) (s_rsv_window_root w) (delete ino (last_alloc w)).

Definition ext2_discard_reservation (ino : Z) (w : rsv_state) : res rsv_state :=
  match rsv_nodes w !! ino with
  | None => Ok w
  | Some rsv => if rsv_is_empty rsv then Ok w else rsv_window_remove w ino
  end.

(** [EXT2_IOC_GETRSVSZ] and [EXT2_IOC_SETRSVSZ] of [ext2_ioctl]: the window size that a
    program asks for.  [isreg] and [owner] are what the inode says, [user] is the value
    read from the program and [want_write] the answer of [mnt_want_write_file]. *)
Definition ENOTTY : Z := 25.
Definition EACCES : Z := 13.
Definition EFAULT : Z := 14.

Definition ioc_getrsvsz (sb : sb_info) (isreg : bool) (ino : Z) (w : rsv_state) : Z + Z :=
  match rsv_nodes w !! ino with
  | Some rsv => if RESERVATION sb && isreg then inr (u16 (rsv_goal_size rsv)) else inl (- ENOTTY)
  | None => inl (- ENOTTY)
  end.

Definition ioc_setrsvsz (sb : sb_info) (env : block_env) (isreg owner : bool) (user : option Z) (want_write ino : Z)
    (w : rsv_state) : Z * rsv_state :=
  if negb (RESERVATION sb) || negb isreg then (- ENOTTY, w)
  else if negb owner then (- EACCES, w)
  else
    match user with
    | None => (- EFAULT, w)
    | Some arg =>
        let rsv_window_size := u16 arg in
        if negb (want_write =? 0) then (want_write, w)
        else
          let rsv_window_size := if EXT2_MAX_RESERVE_BLOCKS <? rsv_window_size then EXT2_MAX_RESERVE_BLOCKS else rsv_window_size in
          let w := match rsv_nodes w !! ino with Some _ => w | None => ext2_init_block_alloc_info sb env ino w end in
          match rsv_nodes w !! ino with
          | Some rsv => (0, put_node ino (with_goal_size rsv_window_size rsv) w)
          | None => (0, w)
          end
    end.

(** The loop of [find_next_reservable_window]: the window after which there is room, and
    where the room starts. *)
Fixpoint window_loop (fuel : nat) (w : rsv_state) (p cur size last_block : Z) : res (option (Z * Z)) :=
  match fuel with
  | O => NoFuel
  | S fuel' =>
      let* rsv := get_node w p in
      let cur := if cur <=? rsv_end rsv then u64 (rsv_end rsv + 1) else cur in
      if last_block <? cur then Ok None
      else
        match rb_next rb (s_rsv_window_root w) p with
        | None => Ok (Some (p, cur))
        | Some next =>
            let* n := get_node w next in
            if u64 (cur + size) <=? rsv_start n then Ok (Some (p, cur)) else window_loop fuel' w next cur size last_block
        end
  end.

Definition find_next_reservable_window (w : rsv_state) (search_head : option Z) (my_rsv start_block last_block : Z) :
    res (Z * rsv_state) :=
  let* my := get_node w my_rsv in
  let sz := i32 (rsv_goal_size my) in
  match search_head with
  | None => Ok (-1, w)
  | Some head =>
      let* r := window_loop (S (size (rsv_nodes w))) w head start_block sz last_block in
      match r with
      | None => Ok (-1, w)
      | Some (prev, cur) =>
          let* w := if negb (prev =? my_rsv) && negb (rsv_is_empty my) then rsv_window_remove w my_rsv else Ok w in
          let* my := get_node w my_rsv in
          let w := put_node my_rsv (with_alloc_hit 0 (with_window cur (u64 (cur + sz - 1)) my)) w in
          let* w := if negb (prev =? my_rsv) then ext2_rsv_window_add w my_rsv else Ok w in
          Ok (0, w)
      end
  end.

Definition try_to_extend_reservation (env : block_env) (w : rsv_state) (my_rsv size : Z) : res rsv_state :=
  if negb (spin_trylock env w) then Ok w
  else
    let* my := get_node w my_rsv in
    match rb_next rb (s_rsv_window_root w) my_rsv with
    | None => Ok (put_node my_rsv (with_window (rsv_start my) (u64 (rsv_end my + size)) my) w)
    | Some next =>
        let* next_rsv := get_node w next in
        let e := if u64 size <=? u64 (rsv_start next_rsv - rsv_end my - 1) then u64 (rsv_end my + size)
          else u64 (rsv_start next_rsv - 1) in
        Ok (put_node my_rsv (with_window (rsv_start my) e my) w)
    end.
End Windows.

(** ** Bitmaps *)

Definition with_free_blocks x d := let 'GroupDesc a b c _ f g := d in GroupDesc a b c x f g.

(** [memscan (p, 0, n)] from byte [k] on: the first byte that is zero, or the end. *)
Fixpoint scan_bytes (n : nat) (b : bitmap) (k : Z) : res Z :=
  match n with
  | O => Ok k
  | S n' =>
      let bits := take 8 (drop (Z.to_nat (8 * k)) b) in
      if (length bits <? 8)%nat then Undef OutOfBoundsRead
      else if forallb negb bits then Ok k else scan_bytes n' b (k + 1)
  end.

Definition memscan (b : bitmap) (k n : Z) : res Z :=
  scan_bytes (Z.to_nat (Z.min (u64 n) (Z.of_nat (length b) / 8 + 1))) b k.

Definition bitmap_search_next_usable_block (start : Z) (b : bitmap) (maxblocks : Z) : res Z :=
  let* next := ext2_find_next_zero_bit b maxblocks start in
  Ok (if maxblocks <=? i32 next then -1 else i32 next).

(** The search for a free block up to the next multiple of 64. *)
Definition search_near (start : Z) (b : bitmap) (maxblocks : Z) : res (option Z) :=
  if 0 <? start then
    let end_goal := Z.land (start + 63) (Z.lnot 63) in
    let end_goal := if maxblocks <? end_goal then maxblocks else end_goal in
    let* here := ext2_find_next_zero_bit b end_goal start in
    Ok (if i32 here <? end_goal then Some (i32 here) else None)
  else Ok None.

Definition find_next_usable_block (start : Z) (b : bitmap) (maxblocks : Z) : res Z :=
  let* near := search_near start b maxblocks in
  match near with
  | Some here => Ok here
  | None =>
      let here := if start <? 0 then 0 else start in
      let* r := memscan b (Z.shiftr here 3) (Z.shiftr (maxblocks + 7) 3 - Z.shiftr here 3) in
      let next := i32 (Z.shiftl r 3) in
      if (next <? maxblocks) && (here <=? next) then Ok next
      else bitmap_search_next_usable_block here b maxblocks
  end.

(** The loop that moves the goal back over at most [n] free blocks. *)
Fixpoint back_up (n : nat) (b : bitmap) (grp_goal start : Z) : res Z :=
  match n with
  | O => Ok grp_goal
  | S n' =>
      if start <? grp_goal then
        let* x := ext2_test_bit (grp_goal - 1) b in
        if x then Ok grp_goal else back_up n' b (grp_goal - 1) start
      else Ok grp_goal
  end.

(** From [repeat] on: the first block claimed, if any. *)
Fixpoint claim_first (fuel : nat) (b : bitmap) (grp_goal start end_ : Z) (rsv : bool) : res (option Z * bitmap) :=
  match fuel with
  | O => NoFuel
  | S fuel' =>
      let* grp_goal :=
        if grp_goal <? 0 then
          let* g := find_next_usable_block start b end_ in
          if (g <? 0) || rsv then Ok g else back_up 7 b g start
        else Ok grp_goal in
      if grp_goal <? 0 then Ok (None, b)
      else
        let* '(old, b) := ext2_set_bit_atomic grp_goal b in
        if old then
          if end_ <=? grp_goal + 1 then Ok (None, b)
          else claim_first fuel' b (grp_goal + 1) (grp_goal + 1) end_ rsv
        else Ok (Some grp_goal, b)
  end.

(** The loop that claims the blocks after it. *)
Fixpoint claim_more (fuel : nat) (b : bitmap) (num count grp_goal end_ : Z) : res (Z * bitmap) :=
  match fuel with
  | O => NoFuel
  | S fuel' =>
      if (num <? count) && (grp_goal <? end_) then
        let* '(old, b) := ext2_set_bit_atomic grp_goal b in
        if old then Ok (num, b) else claim_more fuel' b (num + 1) count (grp_goal + 1) end_
      else Ok (num, b)
  end.

Definition has_rsv {A} (my_rsv : option A) : bool := match my_rsv with Some _ => true | None => false end.

Section BallocC.
Context (rb : rb_lib) (sb : sb_info) (env : block_env).

Notation gfb := (ext2_group_first_block_no sb).

Definition ext2_valid_block_bitmap (s : sbi) (desc : group_desc) (block_group : Z) (b : bitmap) : res (bool * sbi) :=
  let group_first_block := gfb block_group in
  let bad := (false, sb_report (InvalidBitmap block_group) s) in
  let* x := ext2_test_bit (i32 (gd_block_bitmap desc - group_first_block)) b in
  if negb x then Ok bad
  else
    let* x := ext2_test_bit (i32 (gd_inode_bitmap desc - group_first_block)) b in
    if negb x then Ok bad
    else
      let offset := i32 (gd_inode_table desc - group_first_block) in
      let* next_zero_bit := ext2_find_next_zero_bit b (u64 (offset + s_itb_per_group sb)) offset in
      if u64 (offset + s_itb_per_group sb) <=? u64 (i32 next_zero_bit) then Ok (true, s) else Ok bad.

(** The bitmap of a group with the block that holds it; one that is not in the cache is
    checked when it is read. *)
Definition read_block_bitmap (s : sbi) (block_group : Z) : res (option (Z * bitmap) * sbi) :=
  let* '(desc, s) := ext2_get_group_desc sb s block_group in
  match desc with
  | None => Ok (None, s)
  | Some desc =>
      let bitmap_blk := gd_block_bitmap desc in
      match s_buffers s !! bitmap_blk with
      | Some b => Ok (Some (bitmap_blk, b), s)
      | None =>
          match bread sb bitmap_blk with
          | None => Ok (None, sb_report (NoBitmap block_group) s)
          | Some b =>
              let* '(_, s) := ext2_valid_block_bitmap (set_buffer bitmap_blk b s) desc block_group b in
              Ok (Some (bitmap_blk, b), s)
          end
      end
  end.

Definition group_adjust_blocks (s : sbi) (group_no : Z) (desc : group_desc) (count : Z) : sbi :=
  if count =? 0 then s
  else set_group_desc sb group_no (with_free_blocks (u16 (gd_free_blocks_count desc + count)) desc) s.

(** ** Allocation in a group *)

Definition goal_in_my_reservation (rsv : rsv_node) (grp_goal group : Z) : bool :=
  let group_first_block := gfb group in
  let group_last_block := group_first_block + EXT2_BLOCKS_PER_GROUP sb - 1 in
  if (group_last_block <? rsv_start rsv) || (rsv_end rsv <? group_first_block) then false
  else if (0 <=? grp_goal) &&
    ((u64 (grp_goal + group_first_block) <? rsv_start rsv) || (rsv_end rsv <? u64 (grp_goal + group_first_block)))
  then false
  else true.

(** The range of the search and the goal. *)
Definition allocation_range (group grp_goal : Z) (my_rsv : option rsv_node) : Z * Z * Z :=
  match my_rsv with
  | Some rsv =>
      let group_first_block := gfb group in
      let start := if group_first_block <=? rsv_start rsv then i32 (rsv_start rsv - group_first_block) else 0 in
      let end_ := i32 (rsv_end rsv - group_first_block + 1) in
      let end_ := if EXT2_BLOCKS_PER_GROUP sb <? u64 end_ then EXT2_BLOCKS_PER_GROUP sb else end_ in
      if (start <=? grp_goal) && (grp_goal <? end_) then (grp_goal, end_, grp_goal) else (start, end_, -1)
  | None => (if 0 <? grp_goal then grp_goal else 0, EXT2_BLOCKS_PER_GROUP sb, grp_goal)
  end.

(** The first block and the number of blocks; -1 and 0 if there is none. *)
Definition ext2_try_to_allocate (group : Z) (b : bitmap) (grp_goal count : Z) (my_rsv : option rsv_node) :
    res (Z * Z * bitmap) :=
  let '(start, end_, grp_goal) := allocation_range group grp_goal my_rsv in
  if EXT2_BLOCKS_PER_GROUP sb <? u64 start then Undef KernelBug
  else
    let fuel := S (Z.to_nat (EXT2_BLOCKS_PER_GROUP sb)) in
    let* '(first, b) := claim_first fuel b grp_goal start end_ (has_rsv my_rsv) in
    match first with
    | None => Ok (-1, 0, b)
    | Some grp_goal =>
        let* '(num, b) := claim_more fuel b 1 count (grp_goal + 1) end_ in
        Ok (grp_goal, num, b)
    end.

(** From [retry] on: a window with a free block in it. *)
Fixpoint new_rsv_loop (fuel : nat) (w : rsv_state) (b : bitmap) (my_rsv group : Z) (search_head : option Z) (start_block : Z) :
    res (Z * rsv_state) :=
  match fuel with
  | O => NoFuel
  | S fuel' =>
      let group_first_block := gfb group in
      let group_end_block := group_first_block + (EXT2_BLOCKS_PER_GROUP sb - 1) in
      let* '(ret, w) := find_next_reservable_window rb w search_head my_rsv start_block group_end_block in
      let* my := get_node w my_rsv in
      let fail := let* w := if rsv_is_empty my then Ok w else rsv_window_remove rb w my_rsv in Ok (-1, w) in
      if ret =? -1 then fail
      else
        let* first_free_block := bitmap_search_next_usable_block (i32 (rsv_start my - group_first_block)) b
          (i32 (group_end_block - group_first_block + 1)) in
        if first_free_block <? 0 then fail
        else
          let start_block := u64 (first_free_block + group_first_block) in
          if (rsv_start my <=? start_block) && (start_block <=? rsv_end my) then Ok (0, w)
          else new_rsv_loop fuel' w b my_rsv group (Some my_rsv) start_block
  end.

(** The size of the next window doubles when more than half of the old one was used. *)
Definition grow_goal_size (w : rsv_state) (my_rsv : Z) (my : rsv_node) : rsv_state :=
  if negb (rsv_is_empty my) && (u64 (rsv_end my - rsv_start my + 1) / 2 <? rsv_alloc_hit my) then
    let size := u64 (rsv_goal_size my * 2) in
    let size := if EXT2_MAX_RESERVE_BLOCKS <? size then EXT2_MAX_RESERVE_BLOCKS else size in
    put_node my_rsv (with_goal_size (u32 size) my) w
  else w.

Definition alloc_new_reservation (w : rsv_state) (b : bitmap) (my_rsv grp_goal group : Z) : res (Z * rsv_state) :=
  let group_first_block := gfb group in
  let group_end_block := group_first_block + (EXT2_BLOCKS_PER_GROUP sb - 1) in
  let start_block := if grp_goal <? 0 then group_first_block else u64 (grp_goal + group_first_block) in
  let* my := get_node w my_rsv in
  if negb (rsv_is_empty my) && (rsv_start my <=? group_end_block) && (group_end_block <? rsv_end my) &&
    (rsv_start my <=? start_block)
  then Ok (-1, w)
  else
    let w := grow_goal_size w my_rsv my in
    let* search_head := search_reserve_window rb w start_block in
    new_rsv_loop (S (Z.to_nat (EXT2_BLOCKS_PER_GROUP sb))) w b my_rsv group search_head start_block.

(** The window for the next attempt of [ext2_try_to_allocate_with_rsv], [ret] being the
    result of the last one: a result below 0 means that there is none.  The goal is given
    up when the window does not have it. *)
Definition pick_window (w : rsv_state) (b : bitmap) (my_rsv grp_goal group count ret : Z) : res (Z * Z * rsv_state) :=
  let* my := get_node w my_rsv in
  if rsv_is_empty my || (ret <? 0) || negb (goal_in_my_reservation my grp_goal group) then
    let w := if rsv_goal_size my <? count then put_node my_rsv (with_goal_size (u32 count) my) w else w in
    let* '(ret, w) := alloc_new_reservation w b my_rsv grp_goal group in
    if ret <? 0 then Ok (ret, grp_goal, w)
    else
      let* my := get_node w my_rsv in
      Ok (ret, if goal_in_my_reservation my grp_goal group then grp_goal else -1, w)
  else if 0 <=? grp_goal then
    let curr := i32 (rsv_end my - (grp_goal + gfb group) + 1) in
    if u64 curr <? count then
      let* w := try_to_extend_reservation rb env w my_rsv (i32 (count - curr)) in Ok (ret, grp_goal, w)
    else Ok (ret, grp_goal, w)
  else Ok (ret, grp_goal, w).

Fixpoint rsv_loop (fuel : nat) (w : rsv_state) (b : bitmap) (my_rsv grp_goal group count ret : Z) :
    res (Z * Z * rsv_state * bitmap) :=
  match fuel with
  | O => NoFuel
  | S fuel' =>
      let group_first_block := gfb group in
      let group_last_block := group_first_block + (EXT2_BLOCKS_PER_GROUP sb - 1) in
      let* '(ret, grp_goal, w) := pick_window w b my_rsv grp_goal group count ret in
      if ret <? 0 then Ok (ret, count, w, b)
      else
        let* my := get_node w my_rsv in
        if (group_last_block <? rsv_start my) || (rsv_end my <? group_first_block)
        then let* _ := rsv_window_dump rb w true in Undef KernelBug
        else
          let* '(ret, num, b) := ext2_try_to_allocate group b grp_goal count (Some my) in
          if 0 <=? ret then
            Ok (ret, num, put_node my_rsv (with_alloc_hit (u32 (rsv_alloc_hit my + num)) my) w, b)
          else rsv_loop fuel' w b my_rsv grp_goal group count ret
  end.

(** A loop that finds a window with a free block allocates there: three rounds are enough. *)
Definition ext2_try_to_allocate_with_rsv (w : rsv_state) (b : bitmap) (group grp_goal : Z) (my_rsv : option Z) (count : Z) :
    res (Z * Z * rsv_state * bitmap) :=
  match my_rsv with
  | None => let* '(ret, num, b) := ext2_try_to_allocate group b grp_goal count None in Ok (ret, num, w, b)
  | Some p => rsv_loop 3 w b p grp_goal group count 0
  end.

(** ** Allocation *)

Definition ext2_has_free_blocks (s : sbi) : bool :=
  let free_blocks := percpu_counter_read_positive (s_freeblocks_counter s) in
  let root_blocks := es_r_blocks_count sb in
  negb ((free_blocks <? root_blocks + 1) && negb (capable_sys_resource env) && negb (s_resuid env =? fsuid env) &&
        ((s_resgid env =? 0) || negb (in_group_p env (s_resgid env)))).

Definition ext2_data_block_valid (start_blk count : Z) : bool :=
  if (start_blk <=? es_first_data_block sb) || (u64 (start_blk + count) <? start_blk) || (es_blocks_count sb <? start_blk)
  then false
  else negb ((start_blk <=? s_sb_block sb) && (s_sb_block sb <=? u64 (start_blk + count))).

(** A region that has part of the bitmaps or of the inode table of the group in it. *)
Definition system_zone (desc : group_desc) (block count : Z) : bool :=
  in_range (gd_block_bitmap desc) block count || in_range (gd_inode_bitmap desc) block count ||
  in_range block (gd_inode_table desc) (s_itb_per_group sb) ||
  in_range (u64 (block + count - 1)) (gd_inode_table desc) (s_itb_per_group sb).

(** What a search of one or of all groups ends with; [num] is what is left of the count. *)
Inductive attempt : Type :=
  | Allocated (group_no : Z) (gdp : group_desc) (grp_alloc_blk num : Z)
  | IoError
  | NotFound (num : Z).

(** The bitmap of the group is read and searched. *)
Definition try_group (st : bstate) (group_no : Z) (gdp : group_desc) (grp_goal : Z) (my_rsv : option Z) (num : Z) :
    res (attempt * bstate) :=
  let* '(bitmap_bh, s) := read_block_bitmap (b_sbi st) group_no in
  match bitmap_bh with
  | None => Ok (IoError, BState s (b_rsv st) (b_charged st))
  | Some (blk, b) =>
      let* '(ret, num, w, b) := ext2_try_to_allocate_with_rsv (b_rsv st) b group_no grp_goal my_rsv num in
      let st := BState (set_buffer blk b s) w (b_charged st) in
      Ok (if 0 <=? ret then Allocated group_no gdp ret num else NotFound num, st)
  end.

(** The search of the rest of the groups. *)
Fixpoint group_loop (n : nat) (st : bstate) (group_no : Z) (my_rsv : option Z) (windowsz num : Z) : res (attempt * bstate) :=
  match n with
  | O => Ok (NotFound num, st)
  | S n' =>
      let group_no := if s_groups_count sb <=? group_no + 1 then 0 else group_no + 1 in
      let* '(gdp, s) := ext2_get_group_desc sb (b_sbi st) group_no in
      let st := BState s (b_rsv st) (b_charged st) in
      match gdp with
      | None => Ok (IoError, st)
      | Some gdp =>
          let free_blocks := gd_free_blocks_count gdp in
          if free_blocks =? 0 then group_loop n' st group_no my_rsv windowsz num
          else if has_rsv my_rsv && (free_blocks <=? windowsz / 2)
          then group_loop n' st group_no my_rsv windowsz num
          else
            let* '(a, st) := try_group st group_no gdp (-1) my_rsv num in
            match a with
            | NotFound num => group_loop n' st group_no my_rsv windowsz num
            | _ => Ok (a, st)
            end
      end
  end.

Definition charge (ino n : Z) (st : bstate) : bstate :=
  BState (b_sbi st) (b_rsv st) (<[ino := default 0 (b_charged st !! ino) + n]> (b_charged st)).

(** The part after [allocated], when the blocks are in no system zone: the error, the
    count and the first block. *)
Definition account_blocks (st : bstate) (ino count group_no : Z) (gdp : group_desc) (ret_block num : Z) :
    Z * Z * Z * bstate :=
  if es_blocks_count sb <=? u64 (ret_block + num - 1) then
    (- ENOSPC, count, 0, BState (sb_report (BadNewBlock ret_block) (b_sbi st)) (b_rsv st) (b_charged st))
  else
    let s := group_adjust_blocks (b_sbi st) group_no gdp (- num) in
    let s := with_freeblocks (s_freeblocks_counter s - num) s in
    let st := BState s (b_rsv st) (b_charged st) in
    if num <? count then (0, num, ret_block, charge ino (- (count - num)) st) else (0, count, ret_block, st).

(** The reservation is not used when the group has too few free blocks for a new window. *)
Definition keep_rsv (w : rsv_state) (my_rsv : option Z) (free_blocks windowsz : Z) : res (option Z) :=
  match my_rsv with
  | None => Ok None
  | Some p =>
      let* rsv := get_node w p in
      Ok (if (free_blocks <? windowsz) && (0 <? free_blocks) && rsv_is_empty rsv then None else Some p)
  end.

(** The group of the goal, and then all groups. *)
Definition search_groups (st : bstate) (group_no : Z) (gdp : group_desc) (goal : Z) (my_rsv : option Z) (windowsz num : Z) :
    res (attempt * bstate) :=
  let* '(a, st) :=
    if 0 <? gd_free_blocks_count gdp then
      let grp_target_blk := i32 ((goal - es_first_data_block sb) mod EXT2_BLOCKS_PER_GROUP sb) in
      try_group st group_no gdp grp_target_blk my_rsv num
    else Ok (NotFound num, st) in
  match a with
  | NotFound num => group_loop (Z.to_nat (s_groups_count sb)) st group_no my_rsv windowsz num
  | _ => Ok (a, st)
  end.

(** From [retry_alloc] on, with the jumps back to it: without the reservation when every
    group has been searched in vain, and from the group of a block in a system zone. *)
Fixpoint retry_alloc (fuel : nat) (st : bstate) (ino goal goal_group group_no : Z) (my_rsv : option Z) (windowsz count num : Z) :
    res (Z * Z * Z * bstate) :=
  match fuel with
  | O => NoFuel
  | S fuel' =>
      let out err st := Ok (err, count, 0, charge ino (- count) st) in
      let* '(gdp, s) := ext2_get_group_desc sb (b_sbi st) group_no in
      let st := BState s (b_rsv st) (b_charged st) in
      match gdp with
      | None => out (- EIO) st
      | Some gdp =>
          let* my_rsv := keep_rsv (b_rsv st) my_rsv (gd_free_blocks_count gdp) windowsz in
          let* '(a, st) := search_groups st group_no gdp goal my_rsv windowsz num in
          match a with
          | IoError => out (- EIO) st
          | NotFound num =>
              match my_rsv with
              | Some _ => retry_alloc fuel' st ino goal goal_group goal_group None 0 count num
              | None => out (- ENOSPC) st
              end
          | Allocated group_no gdp grp_alloc_blk num =>
              let ret_block := u64 (grp_alloc_blk + gfb group_no) in
              if system_zone gdp ret_block num then
                let st := BState (sb_report (SystemZone ret_block) (b_sbi st)) (b_rsv st) (b_charged st) in
                retry_alloc fuel' st ino goal goal_group group_no my_rsv windowsz count num
              else Ok (account_blocks st ino count group_no gdp ret_block num)
          end
      end
  end.

(** The result is the error, the number of blocks and the first block.  Each round of
    [retry_alloc] marks a block or gives up the reservation. *)
Definition ext2_new_blocks (st : bstate) (ino goal count : Z) : res (Z * Z * Z * bstate) :=
  let ret := dquot_alloc_block env ino count in
  if negb (ret =? 0) then Ok (ret, count, 0, st)
  else
    let st := charge ino count st in
    let rsv := rsv_nodes (b_rsv st) !! ino in
    let windowsz := match rsv with Some rsv => u16 (rsv_goal_size rsv) | None => 0 end in
    let my_rsv := if 0 <? windowsz then Some ino else None in
    if negb (ext2_has_free_blocks (b_sbi st)) then Ok (- ENOSPC, count, 0, charge ino (- count) st)
    else
      let goal := if (goal <? es_first_data_block sb) || (es_blocks_count sb <=? goal) then es_first_data_block sb else goal in
      let group_no := i32 ((goal - es_first_data_block sb) / EXT2_BLOCKS_PER_GROUP sb) in
      let fuel := (2 + Z.to_nat (s_groups_count sb * EXT2_BLOCKS_PER_GROUP sb))%nat in
      retry_alloc fuel st ino goal group_no group_no my_rsv windowsz count count.

Definition ext2_new_block (st : bstate) (ino goal : Z) : res (Z * Z * bstate) :=
  let* '(err, _, ret_block, st) := ext2_new_blocks st ino goal 1 in Ok (err, ret_block, st).

(** ** Release *)

(** The loop over the bits of one group; a bit that is clear is reported. *)
Fixpoint clear_bits (n : nat) (s : sbi) (b : bitmap) (bit block group_freed : Z) : res (Z * bitmap * sbi) :=
  match n with
  | O => Ok (group_freed, b, s)
  | S n' =>
      let* '(old, b) := ext2_clear_bit_atomic bit b in
      if old then clear_bits n' s b (bit + 1) (block + 1) (group_freed + 1)
      else clear_bits n' (sb_report (BitAlreadyCleared block) s) b (bit + 1) (block + 1) group_freed
  end.

(** From [do_more] on: one group in each round. *)
Fixpoint free_groups (fuel : nat) (s : sbi) (block count freed : Z) : res (Z * sbi) :=
  match fuel with
  | O => NoFuel
  | S fuel' =>
      let block_group := (block - es_first_data_block sb) / EXT2_BLOCKS_PER_GROUP sb in
      let bit := (block - es_first_data_block sb) mod EXT2_BLOCKS_PER_GROUP sb in
      let overflow := if EXT2_BLOCKS_PER_GROUP sb <? bit + count then bit + count - EXT2_BLOCKS_PER_GROUP sb else 0 in
      let count := count - overflow in
      let* '(bitmap_bh, s) := read_block_bitmap s block_group in
      match bitmap_bh with
      | None => Ok (freed, s)
      | Some (blk, b) =>
          let* '(desc, s) := ext2_get_group_desc sb s block_group in
          match desc with
          | None => Ok (freed, s)
          | Some desc =>
              if system_zone desc block count then Ok (freed, sb_report (SystemZone block) s)
              else
                let* '(group_freed, b, s) := clear_bits (Z.to_nat count) s b bit block 0 in
                let s := group_adjust_blocks (set_buffer blk b s) block_group desc group_freed in
                let freed := u32 (freed + group_freed) in
                if overflow =? 0 then Ok (freed, s) else free_groups fuel' s (block + count) overflow freed
          end
      end
  end.

Definition ext2_free_blocks (st : bstate) (ino block count : Z) : res bstate :=
  if (block <? es_first_data_block sb) || (u64 (block + count) <? block) || (es_blocks_count sb <? u64 (block + count))
  then Ok (BState (sb_report (NotInDatazone block) (b_sbi st)) (b_rsv st) (b_charged st))
  else
    let fuel := S (Z.to_nat (s_groups_count sb)) in
    let* '(freed, s) := free_groups fuel (b_sbi st) block count 0 in
    let st := BState s (b_rsv st) (b_charged st) in
    if freed =? 0 then Ok st
    else Ok (charge ino (- freed) (BState (with_freeblocks (s_freeblocks_counter s + freed) s) (b_rsv st) (b_charged st))).

(** ** Counting *)

Definition ext2_count_free_blocks (s : sbi) : res (Z * sbi) :=
  sum_groups sb gd_free_blocks_count (Z.to_nat (s_groups_count sb)) 0 0 s.
End BallocC.
