(* ===== verification/Ext2BallocBits.v ===== *)
(** * ext2: searching and claiming bits of a block bitmap

    The functions of [fs/ext2/balloc.c] that work on one bitmap: every search returns a
    free block of its range, or finds that there is none, and [ext2_try_to_allocate]
    claims a run of free blocks. *)

From S2P Require Import Prelude CString ByteMem Ext2Layout Ext2Dir Ext2Super Ext2Inode Ext2Ialloc Ext2Balloc.

(** All bits of the range have this value. *)
Definition all_bits (v : bool) (b : bitmap) (from to : Z) : Prop := forall i, from <= i < to -> b !! Z.to_nat i = Some v.

(** The bits from [i] on, [n] of them, are given a value. *)
Fixpoint put_range (v : bool) (n : nat) (i : Z) (b : bitmap) : bitmap :=
  match n with O => b | S n' => put_range v n' (i + 1) (<[Z.to_nat i := v]> b) end.

Lemma put_range_length v n i b : length (put_range v n i b) = length b.
Proof. revert i b. induction n as [|n IH]; intros i b; [done|]. cbn [put_range]. by rewrite IH, length_insert. Qed.

Lemma put_range_lookup v n : forall i b j, 0 <= i -> 0 <= j -> i + Z.of_nat n <= Z.of_nat (length b) ->
  put_range v n i b !! Z.to_nat j = if decide (i <= j < i + Z.of_nat n) then Some v else b !! Z.to_nat j.
Proof.
  induction n as [|n IH]; intros i b j Hi Hj Hl; cbn [put_range]. { rewrite decide_False by lia. done. }
  rewrite IH by (rewrite ?length_insert; lia). destruct (decide (j = i)) as [->|Hne].
  - rewrite decide_False, decide_True, list_lookup_insert_eq by lia. done.
  - rewrite list_lookup_insert_ne by lia. repeat case_decide; (done || lia).
Qed.

Lemma put_range_zeros v n : forall m i b, 0 <= i -> i + Z.of_nat n <= m -> all_bits (negb v) b i (i + Z.of_nat n) ->
  zeros m (put_range v n i b) = zeros m b + (if v then - Z.of_nat n else Z.of_nat n).
Proof.
  induction n as [|n IH]; intros m i b Hi Hm Hb; cbn [put_range]. { destruct v; lia. }
  rewrite IH; [|lia..|].
  - pose proof (zeros_put m b (Z.to_nat i) (negb v) v (Hb i ltac:(lia)) ltac:(lia)). destruct v; simpl in *; lia.
  - intros j Hj. rewrite list_lookup_insert_ne by lia. apply Hb. lia.
Qed.

(** Setting and clearing a run gives the bitmap back. *)
Lemma put_range_back n : forall i b, 0 <= i -> all_bits false b i (i + Z.of_nat n) -> i + Z.of_nat n <= Z.of_nat (length b) ->
  put_range false n i (put_range true n i b) = b.
Proof.
  intros i b Hi Hb Hl. apply list_eq. intros j. rewrite <- (Nat2Z.id j).
  rewrite !put_range_lookup by (rewrite ?put_range_length; lia). case_decide; [|done]. by rewrite Hb.
Qed.

(** ** Searches *)

(** A search of the range found this bit free, or returned -1 and no bit is free. *)
Definition searched (b : bitmap) (from to r : Z) : Prop :=
  r = -1 /\ all_bits true b from to \/ from <= r < to /\ b !! Z.to_nat r = Some false.

Lemma scan_bytes_spec b n : forall k, 0 <= k -> 8 * (k + Z.of_nat n) <= Z.of_nat (length b) ->
  exists r, scan_bytes n b k = Ok r /\ k <= r <= k + Z.of_nat n /\
    (r < k + Z.of_nat n -> b !! Z.to_nat (8 * r) = Some false).
Proof.
  induction n as [|n IH]; intros k Hk Hl; cbn [scan_bytes]. { exists k. split; [done|]. lia. }
  assert (Hlen : length (take 8 (drop (Z.to_nat (8 * k)) b)) = 8%nat) by (rewrite length_take, length_drop; lia).
  rewrite (proj2 (Nat.ltb_ge _ _)) by lia. destruct (forallb negb _) eqn:E.
  - exists k. split; [done|]. split; [lia|]. intros _. rewrite forallb_forall in E.
    destruct (lookup_lt_is_Some_2 b (Z.to_nat (8 * k))) as [x Hx]; [lia|]. rewrite Hx. f_equal.
    apply negb_true_iff, E. apply list_elem_of_In, (list_elem_of_lookup_2 _ 0%nat).
    rewrite lookup_take_lt, lookup_drop by lia. by rewrite Nat.add_0_r.
  - destruct (IH (k + 1) ltac:(lia) ltac:(lia)) as (r & -> & Hr & Hb). exists r. split; [done|]. split; [lia|].
    intros. apply Hb. lia.
Qed.

Lemma usable_spec b start max : 0 <= start -> 0 <= max < 2 ^ 31 -> start < 2 ^ 31 -> max <= Z.of_nat (length b) ->
  exists r, bitmap_search_next_usable_block start b max = Ok r /\ searched b start max r /\
    (0 <= r -> all_bits true b start r).
Proof.
  intros Hs Hm Hs' Hl. unfold bitmap_search_next_usable_block.
  destruct (find_next_zero_spec b max start ltac:(lia) ltac:(lia) Hl) as (r & -> & Hr & Hb). cbn [rbind].
  eexists. split; [done|]. destruct Hr as [[Hr Hbit]| ->].
  - rewrite !i32_id by lia. rewrite (proj2 (Z.leb_gt _ _)) by lia. split; [by right|]. done.
  - rewrite !i32_id by lia. rewrite Z.leb_refl. split; [by left|]. lia.
Qed.

Lemma search_near_spec b start max : 0 <= start <= max -> max < 2 ^ 28 -> max <= Z.of_nat (length b) ->
  exists o, search_near start b max = Ok o /\
    match o with Some r => start <= r < max /\ b !! Z.to_nat r = Some false | None => True end.
Proof.
  intros Hs Hm Hl. unfold search_near. destruct (Z.ltb_spec 0 start); [|by exists None]. cbv zeta.
  set (e0 := Z.land (start + 63) (Z.lnot 63)). assert (He0 : 0 <= e0) by (apply Z.land_nonneg; lia).
  set (e := if max <? e0 then max else e0). assert (He : 0 <= e <= max) by (unfold e; destruct (Z.ltb_spec max e0); lia).
  destruct (find_next_zero_spec b e start ltac:(lia) ltac:(lia) ltac:(lia)) as (r & -> & Hr & _). cbn [rbind].
  eexists. split; [done|]. destruct Hr as [[Hr Hbit]| ->]; rewrite i32_id by lia.
  - rewrite (proj2 (Z.ltb_lt _ _)) by lia. split; [lia|done].
  - by rewrite Z.ltb_irrefl.
Qed.

Lemma find_next_usable_spec b start max : 0 <= start <= max -> max < 2 ^ 28 -> max <= Z.of_nat (length b) ->
  (8 | Z.of_nat (length b)) -> exists r, find_next_usable_block start b max = Ok r /\ searched b start max r.
Proof.
  intros Hs Hm Hl [q Hq]. unfold find_next_usable_block.
  destruct (search_near_spec b start max) as (o & -> & Ho); [lia..|]. cbn [rbind]. destruct o as [r|]; [exists r; split; [done|]; by right|]. clear Ho.
  rewrite (proj2 (Z.ltb_ge _ _)) by lia. unfold memscan. rewrite !Z.shiftr_div_pow2 by lia. change (2 ^ 3) with 8.
  assert (Hd : start / 8 <= (max + 7) / 8 <= q).
  { split; [apply Z.div_le_mono; lia|]. apply Z.lt_succ_r, Z.div_lt_upper_bound; lia. }
  pose proof (Z.div_pos start 8 ltac:(lia) ltac:(lia)).
  assert (Hd' : (max + 7) / 8 < 2 ^ 27) by (apply Z.div_lt_upper_bound; lia).
  rewrite u64_id, Z.min_l by (rewrite ?Hq, ?Z.div_mul; lia).
  destruct (scan_bytes_spec b (Z.to_nat ((max + 7) / 8 - start / 8)) (start / 8)) as (r & -> & Hr & Hb); [lia..|]. cbn [rbind].
  rewrite Z.shiftl_mul_pow2 by lia. change (2 ^ 3) with 8.
  rewrite i32_id by lia. destruct (Z.ltb_spec (r * 8) max); cbn [andb].
  2:{ destruct (usable_spec b start max) as (x & -> & Hx & _); [lia..|]. eauto. }
  destruct (Z.leb_spec start (r * 8)).
  2:{ destruct (usable_spec b start max) as (x & -> & Hx & _); [lia..|]. eauto. }
  eexists. split; [done|]. right. split; [lia|]. rewrite (Z.mul_comm r). apply Hb.
  assert (r < (max + 7) / 8); [|lia].
  apply Z.lt_le_trans with (r + 1); [lia|]. apply Z.div_le_lower_bound; lia.
Qed.

Lemma back_up_spec b n : forall g start, 0 <= start <= g -> b !! Z.to_nat g = Some false ->
  exists r, back_up n b g start = Ok r /\ start <= r <= g /\ b !! Z.to_nat r = Some false.
Proof.
  induction n as [|n IH]; intros g start Hs Hg; cbn [back_up]. { exists g. split; [done|]. split; [lia|done]. }
  destruct (Z.ltb_spec start g); [|exists g; split; [done|]; split; [lia|done]].
  unfold ext2_test_bit. rewrite (proj2 (Z.ltb_ge _ _)) by lia.
  destruct (lookup_lt_is_Some_2 b (Z.to_nat (g - 1))) as [x Hx]; [apply lookup_lt_Some in Hg; lia|]. rewrite Hx. cbn [rbind].
  destruct x; [exists g; split; [done|]; split; [lia|done]|].
  destruct (IH (g - 1) start ltac:(lia) Hx) as (r & -> & Hr & Hb). exists r. split; [done|]. split; [lia|done].
Qed.

(** ** Claiming *)

Lemma claim_first_spec b end_ (rsv : bool) : end_ < 2 ^ 28 -> end_ <= Z.of_nat (length b) -> (8 | Z.of_nat (length b)) ->
  forall fuel goal start, 0 <= start <= end_ -> goal < 0 \/ goal = start /\ start < end_ ->
  (Z.to_nat (end_ - start) < fuel)%nat ->
  exists r, claim_first fuel b goal start end_ rsv = Ok r /\
    (r = (None, b) /\ all_bits true b start end_ \/
     exists i, r = (Some i, <[Z.to_nat i := true]> b) /\ start <= i < end_ /\ b !! Z.to_nat i = Some false).
Proof.
  intros He Hl H8. induction fuel as [|fuel IH]; intros goal start Hs Hg Hf; [lia|]. cbn [claim_first].
  destruct Hg as [Hg|[-> Hg]].
  - rewrite (proj2 (Z.ltb_lt _ _)) by lia.
    destruct (find_next_usable_spec b start end_ Hs He Hl H8) as (g & -> & [[-> Hall]|[Hr Hbit]]); cbn [rbind].
    { exists (None, b). split; [done|]. by left. }
    rewrite (proj2 (Z.ltb_ge g 0)) by lia. cbn [orb].
    assert (Hback : exists g', (if rsv then Ok g else back_up 7 b g start) = Ok g' /\ start <= g' < end_ /\
        b !! Z.to_nat g' = Some false).
    { destruct rsv; [by exists g|]. destruct (back_up_spec b 7 g start ltac:(lia) Hbit) as (r & -> & Hr' & Hb).
      exists r. split; [done|]. split; [lia|done]. }
    destruct Hback as (g' & -> & Hg' & Hb'). cbn [rbind]. rewrite (proj2 (Z.ltb_ge _ _)) by lia. unfold ext2_set_bit_atomic.
    rewrite (test_and_put_ok true g' b false) by (done || lia). cbn [rbind]. eexists. split; [done|]. right. by exists g'.
  - rewrite (proj2 (Z.ltb_ge start 0)) by lia. cbn [rbind]. rewrite (proj2 (Z.ltb_ge start 0)) by lia. unfold ext2_set_bit_atomic.
    destruct (lookup_lt_is_Some_2 b (Z.to_nat start)) as [x Hx]; [lia|].
    rewrite (test_and_put_ok true start b x) by (done || lia). cbn [rbind]. destruct x.
    2:{ eexists. split; [done|]. right. exists start. split; [done|]. split; [lia|done]. }
    rewrite list_insert_id by done. destruct (Z.leb_spec end_ (start + 1)).
    { eexists. split; [done|]. left. split; [done|]. intros i Hi. by replace i with start by lia. }
    destruct (IH (start + 1) (start + 1)) as (r & -> & Hr); [lia|lia|lia|]. exists r. split; [done|].
    destruct Hr as [[-> Hall]|(i & -> & Hi & Hb)]; [left|right; exists i; split; [done|]; split; [lia|done]].
    split; [done|]. intros i Hi. destruct (decide (i = start)) as [->|]; [done|apply Hall; lia].
Qed.

Lemma claim_more_spec end_ count : forall fuel b num goal, 0 <= goal -> end_ <= Z.of_nat (length b) ->
  (Z.to_nat (end_ - goal) < fuel)%nat ->
  exists k, claim_more fuel b num count goal end_ = Ok (num + Z.of_nat k, put_range true k goal b) /\
    (k = O \/ num + Z.of_nat k <= count /\ goal + Z.of_nat k <= end_) /\ all_bits false b goal (goal + Z.of_nat k).
Proof.
  induction fuel as [|fuel IH]; intros b num goal Hg Hl Hf; [lia|]. cbn [claim_more].
  assert (Hstop : all_bits false b goal (goal + 0)) by (intros i Hi; lia).
  destruct (Z.ltb_spec num count), (Z.ltb_spec goal end_); cbn [andb];
    [|exists O; rewrite Z.add_0_r; auto..].
  unfold ext2_set_bit_atomic. destruct (lookup_lt_is_Some_2 b (Z.to_nat goal)) as [x Hx]; [lia|].
  rewrite (test_and_put_ok true goal b x) by (done || lia). cbn [rbind]. destruct x.
  { exists O. rewrite list_insert_id, Z.add_0_r by done. auto. }
  destruct (IH (<[Z.to_nat goal := true]> b) (num + 1) (goal + 1)) as (k & -> & Hk & Hb); [lia|by rewrite length_insert|lia|].
  exists (S k). split; [cbn [put_range]; do 2 f_equal; lia|]. split; [right; lia|].
  intros i Hi. destruct (decide (i = goal)) as [->|]; [done|]. rewrite <- (Hb i) by lia. symmetry.
  apply list_lookup_insert_ne. lia.
Qed.

(** ** Allocation of a run *)

Section TryToAllocate.
Context (sb : sb_info) (bpg_bounds : 0 < EXT2_BLOCKS_PER_GROUP sb < 2 ^ 16).

Notation bpg := (EXT2_BLOCKS_PER_GROUP sb).
Notation gfb := (ext2_group_first_block_no sb).

(** A run of free blocks of the range has been claimed, or no block of it is free. *)
Definition claimed (b : bitmap) (from to count : Z) (r : Z * Z * bitmap) : Prop :=
  r = (-1, 0, b) /\ all_bits true b from to \/
  exists i n, r = (i, Z.of_nat n, put_range true n i b) /\ from <= i /\ i + Z.of_nat n <= to /\
    1 <= Z.of_nat n <= Z.max 1 count /\ all_bits false b i (i + Z.of_nat n).

Lemma claims_run b (rsv : option rsv_node) fuel goal start end_ count : end_ <= bpg -> bpg <= Z.of_nat (length b) ->
  (8 | Z.of_nat (length b)) -> 0 <= start <= end_ -> goal < 0 \/ goal = start /\ start < end_ ->
  (Z.to_nat bpg < fuel)%nat ->
  exists r, (let* '(first, b) := claim_first fuel b goal start end_ (has_rsv rsv) in
    match first with
    | None => Ok (-1, 0, b)
    | Some g => let* '(num, b) := claim_more fuel b 1 count (g + 1) end_ in Ok (g, num, b)
    end) = Ok r /\ claimed b start end_ count r.
Proof using bpg_bounds.
  intros He Hl H8 Hs Hg Hf.
  destruct (claim_first_spec b end_ (has_rsv rsv) ltac:(lia) ltac:(lia) H8 fuel goal start Hs Hg ltac:(lia))
    as (r & -> & [[-> Hall]|(i & -> & Hi & Hb)]); cbn [rbind]. { eexists. split; [done|]. by left. }
  destruct (claim_more_spec end_ count fuel (<[Z.to_nat i := true]> b) 1 (i + 1)) as (k & -> & Hk & Hbk);
    [lia|rewrite length_insert; lia|lia|]. cbn [rbind].
  eexists. split; [done|]. right. exists i, (S k). split; [cbn [put_range]; do 2 f_equal; lia|].
  split; [lia|]. split; [lia|]. split; [lia|]. intros j Hj. destruct (decide (j = i)) as [->|]; [done|].
  rewrite <- (Hbk j) by lia. symmetry. apply list_lookup_insert_ne. lia.
Qed.

(** Without a window: the blocks from the goal to the end of the group. *)
Lemma try_to_allocate_plain b group goal count : -1 <= goal < bpg -> bpg <= Z.of_nat (length b) -> (8 | Z.of_nat (length b)) ->
  exists r, ext2_try_to_allocate sb group b goal count None = Ok r /\ claimed b (Z.max goal 0) bpg count r.
Proof using bpg_bounds.
  intros Hg Hl H8. unfold ext2_try_to_allocate, allocation_range.
  replace (if 0 <? goal then goal else 0) with (Z.max goal 0) by (destruct (Z.ltb_spec 0 goal); lia).
  rewrite u64_id, (proj2 (Z.ltb_ge _ _)) by lia. apply (claims_run b None); [lia|done|done|lia|lia|lia].
Qed.

(** With a window: its blocks in the group, from the goal on if it is one of them. *)
Lemma try_to_allocate_window b group goal count rsv : 0 <= gfb group -> rsv_end rsv < 2 ^ 31 - 1 ->
  0 <= rsv_start rsv <= rsv_end rsv -> rsv_start rsv <= gfb group + bpg - 1 -> gfb group <= rsv_end rsv ->
  bpg <= Z.of_nat (length b) -> (8 | Z.of_nat (length b)) ->
  let from := Z.max 0 (rsv_start rsv - gfb group) in
  let to := Z.min bpg (rsv_end rsv - gfb group + 1) in
  exists r, ext2_try_to_allocate sb group b goal count (Some rsv) = Ok r /\
    claimed b (if decide (from <= goal < to) then goal else from) to count r.
Proof using bpg_bounds.
  intros Hgfb Hend Hw Hs He Hl H8 from to. unfold ext2_try_to_allocate, allocation_range.
  rewrite (i32_id (rsv_end rsv - gfb group + 1)), (u64_id (rsv_end rsv - gfb group + 1)) by lia.
  replace (if bpg <? rsv_end rsv - gfb group + 1 then bpg else rsv_end rsv - gfb group + 1) with to
    by (unfold to; destruct (Z.ltb_spec bpg (rsv_end rsv - gfb group + 1)); lia).
  replace (if gfb group <=? rsv_start rsv then i32 (rsv_start rsv - gfb group) else 0) with from
    by (unfold from; destruct (Z.leb_spec (gfb group) (rsv_start rsv)); rewrite ?i32_id by lia; lia).
  assert (Hft : 0 <= from < to) by (unfold from, to; lia). assert (Hto : to <= bpg) by (unfold to; lia).
  destruct (Z.leb_spec from goal), (Z.ltb_spec goal to); cbn [andb]; [rewrite decide_True by lia|rewrite decide_False by lia..];
    rewrite u64_id, (proj2 (Z.ltb_ge _ _)) by lia; apply (claims_run b (Some rsv)); (done || lia).
Qed.
End TryToAllocate.
