(* ===== verification/Ext2BallocRsv.v ===== *)
(** * ext2: the reservation windows

    The invariant of the tree of reservation windows ([win_ok]): the windows are disjoint
    and in order, the dummy head comes first, and a node is in the tree exactly when its
    window is not empty.  Every function of [fs/ext2/balloc.c] that changes a window keeps
    it, so that the checks that would call [BUG] never fire. *)

From S2P Require Import Prelude CString ByteMem Ext2Layout Ext2Dir Ext2Super Ext2Inode Ext2Ialloc Ext2Balloc Ext2BallocBits.

Lemma StronglySorted_weaken {A} (R R' : A -> A -> Prop) l : (forall x y, x ∈ l -> y ∈ l -> R x y -> R' x y) ->
  StronglySorted R l -> StronglySorted R' l.
Proof.
  induction l as [|a l IH]; intros H Hs; [constructor|]. apply StronglySorted_inv in Hs as [Hs Ha]. constructor.
  - apply IH; [|done]. intros x y Hx Hy. apply H; by right.
  - rewrite Forall_forall in *. intros y Hy. apply H; [left|by right|by apply Ha].
Qed.

(** ** The library of red-black trees *)

(** [t'] is [t] with a red leaf for the node, as [rb_link_node] leaves it. *)
Inductive linked (p : Z) : rbtree -> rbtree -> Prop :=
  | linked_leaf : linked p RbLeaf (RbNode true RbLeaf p RbLeaf)
  | linked_left c l l' q r : linked p l l' -> linked p (RbNode c l q r) (RbNode c l' q r)
  | linked_right c l r r' q : linked p r r' -> linked p (RbNode c l q r) (RbNode c l q r').

(** What [Documentation/rbtree.txt] promises: rebalancing keeps the order, erasing removes
    the node, and the iterators follow the order. *)
Class RbLaws (rb : rb_lib) : Type := {
  rb_ok : rbtree -> Prop;
  rb_ok_leaf : rb_ok RbLeaf;
  rb_insert_law p t t' : rb_ok t -> p ∉ inorder t -> linked p t t' ->
    rb_ok (rb_insert_color rb p t') /\ inorder (rb_insert_color rb p t') = inorder t';
  rb_erase_law p t l1 l2 : rb_ok t -> NoDup (inorder t) -> inorder t = l1 ++ p :: l2 ->
    rb_ok (rb_erase rb p t) /\ inorder (rb_erase rb p t) = l1 ++ l2;
  rb_first_law t : rb_ok t -> rb_first rb t = head (inorder t);
  rb_next_law p t l1 l2 : rb_ok t -> NoDup (inorder t) -> inorder t = l1 ++ p :: l2 -> rb_next rb t p = head l2;
  rb_prev_law p t l1 l2 : rb_ok t -> NoDup (inorder t) -> inorder t = l1 ++ p :: l2 -> rb_prev rb t p = last l1 }.

Section WindowFacts.
Context (rb : rb_lib) {L : RbLaws rb}.

(** ** The invariant *)

Definition wstart (w : rsv_state) (p : Z) : Z := match rsv_nodes w !! p with Some n => rsv_start n | None => 0 end.
Definition wend (w : rsv_state) (p : Z) : Z := match rsv_nodes w !! p with Some n => rsv_end n | None => 0 end.
Definition before (w : rsv_state) (p q : Z) : Prop := wend w p < wstart w q.
Notation tree w := (inorder (s_rsv_window_root w)).

Record node_ok (w : rsv_state) (p : Z) (n : rsv_node) : Prop := {
  no_end : rsv_end n < 2 ^ 31 - 1;
  no_goal : 0 <= rsv_goal_size n < 2 ^ 30;
  no_empty : p = 0 \/ p ∉ tree w -> rsv_start n = 0 /\ rsv_end n = 0;
  no_window : p <> 0 -> p ∈ tree w -> 0 < rsv_start n <= rsv_end n }.

Record win_ok (w : rsv_state) : Prop := {
  wo_rb : rb_ok (s_rsv_window_root w);
  wo_head : head (tree w) = Some 0;
  wo_nodup : NoDup (tree w);
  wo_sorted : StronglySorted (before w) (tree w);
  wo_mem p : p ∈ tree w -> is_Some (rsv_nodes w !! p);
  wo_node p n : rsv_nodes w !! p = Some n -> node_ok w p n }.

Lemma get_node_ok w p n : rsv_nodes w !! p = Some n -> get_node w p = Ok n.
Proof using. intros E. unfold get_node. by rewrite E. Qed.

Lemma wstart_eq w p n : rsv_nodes w !! p = Some n -> wstart w p = rsv_start n.
Proof using. intros E. unfold wstart. by rewrite E. Qed.
Lemma wend_eq w p n : rsv_nodes w !! p = Some n -> wend w p = rsv_end n.
Proof using. intros E. unfold wend. by rewrite E. Qed.

Lemma w_put w p n q : wstart (put_node p n w) q = (if decide (q = p) then rsv_start n else wstart w q) /\
  wend (put_node p n w) q = (if decide (q = p) then rsv_end n else wend w q).
Proof using.
  unfold wstart, wend, put_node. cbn [rsv_nodes]. case_decide as H; [subst; by rewrite lookup_insert_eq|].
  by rewrite lookup_insert_ne.
Qed.

Lemma in_tree w p : win_ok w -> p ∈ tree w -> 0 <= wstart w p <= wend w p /\ wend w p < 2 ^ 31 - 1.
Proof using.
  intros Hw Hp. destruct (wo_mem w Hw p Hp) as [n Hn]. rewrite (wstart_eq w p n), (wend_eq w p n) by done.
  destruct (wo_node w Hw p n Hn) as [H1 _ H3 H4]. destruct (decide (p = 0)) as [->|].
  - destruct H3 as [-> ->]; [by left|]. lia.
  - specialize (H4 ltac:(done) Hp). lia.
Qed.

Lemma zero_in_tree w : win_ok w -> 0 ∈ tree w.
Proof using. intros Hw. pose proof (wo_head w Hw) as H. destruct (tree w); [done|]. injection H as ->. left. Qed.

Lemma nonempty_in_tree w p n : win_ok w -> rsv_nodes w !! p = Some n -> rsv_end n <> 0 -> p ∈ tree w /\ p <> 0.
Proof using.
  intros Hw Hn He. destruct (wo_node w Hw p n Hn) as [_ _ H3 _]. split.
  - destruct (decide (p ∈ tree w)) as [|H]; [done|]. destruct H3 as [_ ?]; [by right|done].
  - intros ->. destruct H3 as [_ ?]; [by left|done].
Qed.

Lemma empty_not_in_tree w p n : win_ok w -> rsv_nodes w !! p = Some n -> p <> 0 -> rsv_end n = 0 -> p ∉ tree w.
Proof using. intros Hw Hn H0 He Hp. destruct (wo_node w Hw p n Hn) as [_ _ _ H4]. specialize (H4 H0 Hp). lia. Qed.

(** The tree is not larger than the memory that holds its nodes. *)
Lemma tree_size w : win_ok w -> (length (tree w) <= size (rsv_nodes w))%nat.
Proof using.
  intros Hw. rewrite <- (size_list_to_set (C := gset Z)) by apply (wo_nodup w Hw). rewrite <- (size_dom (D := gset Z)).
  apply subseteq_size. intros p Hp. apply elem_of_list_to_set in Hp. apply elem_of_dom. by apply (wo_mem w Hw).
Qed.

(** ** Searching the tree *)

Lemma search_tree_spec w goal t : StronglySorted (before w) (inorder t) -> (forall p, p ∈ inorder t -> is_Some (rsv_nodes w !! p)) ->
  (forall p, p ∈ inorder t -> wstart w p <= wend w p) ->
  exists o, search_tree w goal t = Ok o /\
    match o with
    | None => t = RbLeaf
    | Some p => exists l1 l2, inorder t = l1 ++ p :: l2 /\ (forall q, q ∈ l1 -> wend w q < goal) /\
        (forall q, q ∈ l2 -> goal < wstart w q)
    end.
Proof using.
  induction t as [|c l IHl p r IHr]; intros Hs Hm Hw; cbn [search_tree]. { by exists None. }
  cbn [inorder] in *. apply StronglySorted_app in Hs as (Hlr & Hl & Hr). apply StronglySorted_cons in Hr as [Hpr Hr].
  rewrite Forall_forall in Hpr. destruct (Hm p) as [n Hn]; [set_solver|]. rewrite (get_node_ok w p n) by done. cbn [rbind].
  rewrite <- (wstart_eq w p n), <- (wend_eq w p n) by done.
  assert (Hpp : wstart w p <= wend w p) by (apply Hw; set_solver). unfold before in *.
  assert (Hlp : forall q, q ∈ inorder l -> wend w q < wstart w p) by (intros q Hq; apply Hlr; set_solver).
  destruct (Z.ltb_spec goal (wstart w p)) as [Hgs|Hgs]; [|destruct (Z.ltb_spec (wend w p) goal) as [Hge|Hge]].
  - destruct (IHl Hl ltac:(set_solver) ltac:(set_solver)) as (o & -> & Ho). cbn [rbind]. eexists. split; [done|].
    destruct o as [q|]; cbn [default].
    + destruct Ho as (l1 & l2 & E & H1 & H2). exists l1, (l2 ++ p :: inorder r). split; [by rewrite E, <- app_assoc|].
      split; [done|]. intros x. rewrite elem_of_app, elem_of_cons. intros [Hx|[-> |Hx]]; [by apply H2|done|].
      specialize (Hpr x Hx). lia.
    + rewrite Ho. exists [], (inorder r). split; [done|]. split; [by intros ? ?%not_elem_of_nil|]. intros x Hx. specialize (Hpr x Hx). lia.
  - destruct (IHr Hr ltac:(set_solver) ltac:(set_solver)) as (o & -> & Ho). cbn [rbind]. eexists. split; [done|].
    destruct o as [q|]; cbn [default].
    + destruct Ho as (l1 & l2 & E & H1 & H2). exists (inorder l ++ p :: l1), l2. split; [by rewrite E, <- app_assoc|].
      split; [|done]. intros x. rewrite elem_of_app, elem_of_cons. intros [Hx|[-> |Hx]]; [|done|by apply H1].
      specialize (Hlp x Hx). lia.
    + rewrite Ho. exists (inorder l), []. split; [done|]. split; [|by intros ? ?%not_elem_of_nil].
      intros x Hx. specialize (Hlp x Hx). lia.
  - eexists. split; [done|]. exists (inorder l), (inorder r). split; [done|]. split.
    + intros x Hx. specialize (Hlp x Hx). lia.
    + intros x Hx. specialize (Hpr x Hx). lia.
Qed.

(** The window that includes the goal, or the one before it. *)
Lemma search_spec w goal : win_ok w -> 0 <= goal ->
  exists p l1 l2, search_reserve_window rb w goal = Ok (Some p) /\ tree w = l1 ++ p :: l2 /\
    wstart w p <= goal /\ forall q, q ∈ l2 -> goal < wstart w q.
Proof using L.
  intros Hw Hg. unfold search_reserve_window.
  destruct (search_tree_spec w goal (s_rsv_window_root w)) as (o & -> & Ho);
    [apply (wo_sorted w Hw)|apply (wo_mem w Hw)|intros p Hp; apply (in_tree w p Hw) in Hp; lia|]. cbn [rbind].
  pose proof (wo_head w Hw) as H0. destruct o as [p|]; [|by rewrite Ho in H0].
  destruct Ho as (l1 & l2 & E & H1 & H2). assert (Hp : p ∈ tree w) by (rewrite E; set_solver).
  destruct (wo_mem w Hw p Hp) as [n Hn]. rewrite (get_node_ok w p n) by done. cbn [rbind]. rewrite <- (wstart_eq w p n) by done.
  destruct (Z.ltb_spec goal (wstart w p)) as [Hlt|Hge]; [|by exists p, l1, l2].
  rewrite (rb_prev_law p _ l1 l2) by (apply Hw || done). destruct l1 as [|q l1] using rev_ind.
  - rewrite E in H0. injection H0 as ->. destruct (wo_node w Hw 0 n Hn) as [_ _ [Hs _] _]; [by left|].
    rewrite (wstart_eq w 0 n) in Hlt by done. lia.
  - rewrite last_snoc. exists q, l1, (p :: l2). rewrite E, <- app_assoc. split; [done|]. split; [done|].
    assert (Hq : q ∈ tree w) by (rewrite E; set_solver). pose proof (in_tree w q Hw Hq). specialize (H1 q ltac:(set_solver)).
    split; [lia|]. intros x. rewrite elem_of_cons. intros [-> |Hx]; [done|by apply H2].
Qed.

(** ** Changing a window *)

(** The memory of the nodes is the same but for this node, and the other data are kept. *)
Definition only_node (w w' : rsv_state) (p : Z) (n : rsv_node) : Prop :=
  rsv_nodes w' = <[p := n]> (rsv_nodes w) /\ last_alloc w' = last_alloc w.

Lemma sorted_put w p n l1 l2 : NoDup (l1 ++ p :: l2) -> StronglySorted (before w) (l1 ++ l2) ->
  (forall q, q ∈ l1 -> wend w q < rsv_start n) -> (forall q, q ∈ l2 -> rsv_end n < wstart w q) ->
  StronglySorted (before (put_node p n w)) (l1 ++ p :: l2).
Proof using.
  intros Hd Hs H1 H2. apply NoDup_app in Hd as (_ & Hd1 & Hd2). apply NoDup_cons in Hd2 as [Hp2 _].
  assert (Hp1 : p ∉ l1) by (intros Hp; apply (Hd1 p Hp); left).
  apply StronglySorted_app in Hs as (H12 & Hs1 & Hs2).
  assert (Hout : forall q, q <> p -> wstart (put_node p n w) q = wstart w q /\ wend (put_node p n w) q = wend w q).
  { intros q Hq. destruct (w_put w p n q) as [-> ->]. by rewrite !decide_False. }
  assert (Hin : wstart (put_node p n w) p = rsv_start n /\ wend (put_node p n w) p = rsv_end n).
  { destruct (w_put w p n p) as [-> ->]. by rewrite !decide_True. }
  assert (Hkeep : forall l, p ∉ l -> StronglySorted (before w) l -> StronglySorted (before (put_node p n w)) l).
  { intros l Hl. apply StronglySorted_weaken. intros x y Hx Hy. unfold before.
    destruct (Hout x) as [_ ->]; [set_solver|]. by destruct (Hout y) as [-> _]; [set_solver|]. }
  apply StronglySorted_app. split; [|split; [by apply Hkeep|apply StronglySorted_cons; split; [|by apply Hkeep]]].
  - intros x y Hx. unfold before. destruct (Hout x) as [_ ->]; [set_solver|]. rewrite elem_of_cons. intros [-> |Hy].
    + destruct Hin as [-> _]. by apply H1.
    + destruct (Hout y) as [-> _]; [set_solver|]. by apply H12.
  - apply Forall_forall. intros y Hy. unfold before. destruct Hin as [_ ->]. destruct (Hout y) as [-> _]; [set_solver|]. by apply H2.
Qed.

Lemma win_put w p n n0 : win_ok w -> rsv_nodes w !! p = Some n0 -> node_ok w p n ->
  StronglySorted (before (put_node p n w)) (tree w) -> win_ok (put_node p n w).
Proof using.
  intros [H1 H2 H3 H4 H5 H6] Hp Hn Hs. constructor; [exact H1|exact H2|exact H3|exact Hs| |].
  - intros q Hq. unfold put_node. cbn [rsv_nodes]. apply lookup_insert_is_Some'. right. by apply H5.
  - intros q m. unfold put_node. cbn [rsv_nodes]. rewrite lookup_insert_Some. intros [[<- <-]|[_ Hm]].
    + destruct Hn as [A B C D]. by constructor.
    + destruct (H6 q m Hm) as [A B C D]. by constructor.
Qed.

(** The goal size and the hits are not part of the window. *)
Lemma win_attr w p n n' : win_ok w -> rsv_nodes w !! p = Some n -> rsv_start n' = rsv_start n -> rsv_end n' = rsv_end n ->
  0 <= rsv_goal_size n' < 2 ^ 30 -> win_ok (put_node p n' w).
Proof using.
  intros Hw Hn Es Ee Hg. apply (win_put w p n' n Hw Hn).
  - destruct (wo_node w Hw p n Hn) as [A B C D]. constructor; rewrite ?Es, ?Ee; done.
  - apply StronglySorted_weaken with (R := before w); [|apply Hw]. intros x y _ _. unfold before.
    destruct (w_put w p n' x) as [_ ->], (w_put w p n' y) as [-> _]. rewrite Es, Ee.
    rewrite <- (wstart_eq w p n), <- (wend_eq w p n) by done. repeat case_decide; subst; done.
Qed.

(** A window moves or grows between its neighbours. *)
Lemma win_update w p n' l1 l2 : win_ok w -> tree w = l1 ++ p :: l2 -> p <> 0 -> 0 <= rsv_goal_size n' < 2 ^ 30 ->
  0 < rsv_start n' <= rsv_end n' -> rsv_end n' < 2 ^ 31 - 1 -> wstart w p <= rsv_start n' ->
  (forall q, q ∈ l2 -> rsv_end n' < wstart w q) -> win_ok (put_node p n' w).
Proof using.
  intros Hw E Hp Hg Hb He Hs H2. pose proof (wo_nodup w Hw) as Hd. pose proof (wo_sorted w Hw) as HS. rewrite E in Hd, HS.
  assert (Hin : p ∈ tree w) by (rewrite E; set_solver). destruct (wo_mem w Hw p Hin) as [n Hn].
  apply StronglySorted_app in HS as (H12 & HS1 & HS2). apply StronglySorted_cons in HS2 as [Hp2 HS2].
  apply (win_put w p n' n Hw Hn). { constructor; [done|done|by intros [?|?]|done]. }
  rewrite E. apply sorted_put; [done| | |done].
  - apply StronglySorted_app. split; [|done]. intros x y Hx Hy. apply H12; set_solver.
  - intros q Hq. specialize (H12 q p Hq ltac:(set_solver)). unfold before in H12. lia.
Qed.

Lemma win_remove w p : win_ok w -> p ∈ tree w -> p <> 0 ->
  exists n w', rsv_nodes w !! p = Some n /\ rsv_window_remove rb w p = Ok w' /\ win_ok w' /\
    only_node w w' p (Rsv 0 0 (rsv_goal_size n) 0) /\ (forall q, q ∈ tree w' <-> q ∈ tree w /\ q <> p).
Proof using L.
  intros Hw Hin Hp. destruct (wo_mem w Hw p Hin) as [n Hn]. exists n. unfold rsv_window_remove.
  rewrite (get_node_ok w p n) by done. cbn [rbind]. set (n' := with_alloc_hit 0 _).
  assert (En : n' = Rsv 0 0 (rsv_goal_size n) 0) by (by destruct n). rewrite En. clear n' En. set (n' := Rsv 0 0 _ 0).
  destruct (list_elem_of_split _ _ Hin) as (l1 & l2 & E). pose proof (wo_nodup w Hw) as Hd. rewrite E in Hd.
  destruct (rb_erase_law p (s_rsv_window_root w) l1 l2) as [Hok Ein]; [apply Hw|apply Hw|done|].
  eexists. split; [done|]. split; [done|]. cbn [s_rsv_window_root with_root put_node]. rewrite Ein.
  assert (Hmem : forall q, q ∈ l1 ++ l2 <-> q ∈ tree w /\ q <> p).
  { intros q. rewrite E, NoDup_app_cons_comm, NoDup_cons in *. destruct Hd as [Hd _]. split.
    - intros Hq. split; [set_solver|]. intros ->. done.
    - rewrite !elem_of_app, elem_of_cons. naive_solver. }
  split; [|by split]. constructor; cbn [rsv_nodes s_rsv_window_root with_root put_node]; try rewrite Ein.
  - done.
  - pose proof (wo_head w Hw) as H0. rewrite E in H0. destruct l1; [|done]. injection H0 as ->. done.
  - apply NoDup_app_cons_comm, NoDup_cons in Hd. apply Hd.
  - pose proof (wo_sorted w Hw) as HS. rewrite E in HS.
    assert (Hpl : p ∉ l1 ++ l2) by (intros Hpp; by apply Hmem in Hpp as [_ ?]).
    apply StronglySorted_weaken with (R := before w).
    + intros x y Hx Hy. change (before w x y -> before (put_node p n' w) x y). unfold before.
      destruct (w_put w p n' x) as [_ ->], (w_put w p n' y) as [-> _]. by rewrite !decide_False by (intros ->; done).
    + apply StronglySorted_app in HS as (H12 & HS1 & HS2). apply StronglySorted_cons in HS2 as [_ HS2].
      apply StronglySorted_app. split; [|done]. intros x y Hx Hy. apply H12; set_solver.
  - intros q Hq. apply lookup_insert_is_Some'. right. apply (wo_mem w Hw). by apply Hmem.
  - intros q m. rewrite lookup_insert_Some. intros [[<- <-]|[Hne Hm]].
    + destruct (wo_node w Hw p n Hn) as [A B C D]. constructor; cbn; [lia|done|done|]. rewrite Ein. intros _ Hq. by apply Hmem in Hq as [_ ?].
    + destruct (wo_node w Hw q m Hm) as [A B C D]. constructor; cbn; [done|done|..]; rewrite Ein, Hmem; naive_solver.
Qed.

Lemma link_spec w p start t : StronglySorted (before w) (inorder t) -> (forall q, q ∈ inorder t -> is_Some (rsv_nodes w !! q)) ->
  (forall q, q ∈ inorder t -> wstart w q <= wend w q /\ (wend w q < start \/ start < wstart w q)) ->
  exists t' l1 l2, link_window rb w p start t = Ok t' /\ linked p t t' /\ inorder t = l1 ++ l2 /\ inorder t' = l1 ++ p :: l2 /\
    (forall q, q ∈ l1 -> wend w q < start) /\ (forall q, q ∈ l2 -> start < wstart w q).
Proof using.
  induction t as [|c l IHl q r IHr]; intros Hs Hm Hw; cbn [link_window].
  { eexists _, [], []. split; [done|]. split; [constructor|]. split; [done|]. split; [done|]. split; by intros ? ?%not_elem_of_nil. }
  cbn [inorder] in *. apply StronglySorted_app in Hs as (Hlr & Hl & Hr). apply StronglySorted_cons in Hr as [Hqr Hr].
  rewrite Forall_forall in Hqr. destruct (Hm q) as [n Hn]; [set_solver|]. rewrite (get_node_ok w q n) by done. cbn [rbind].
  rewrite <- (wstart_eq w q n), <- (wend_eq w q n) by done.
  destruct (Hw q) as [Hqq Hgap]; [set_solver|]. unfold before in *.
  destruct (Z.ltb_spec start (wstart w q)) as [Hgs|Hgs]; [|rewrite (proj2 (Z.ltb_lt _ _)) by lia].
  - destruct (IHl Hl ltac:(set_solver) ltac:(set_solver)) as (t' & l1 & l2 & -> & Hk & E & E' & H1 & H2). cbn [rbind].
    eexists _, l1, (l2 ++ q :: inorder r). split; [done|]. split; [by constructor|]. rewrite E. cbn [inorder]. rewrite E'.
    split; [by rewrite <- app_assoc|]. split; [by rewrite <- app_assoc|]. split; [done|].
    intros x. rewrite elem_of_app, elem_of_cons. intros [Hx|[-> |Hx]]; [by apply H2|done|]. specialize (Hqr x Hx). lia.
  - destruct (IHr Hr ltac:(set_solver) ltac:(set_solver)) as (t' & l1 & l2 & -> & Hk & E & E' & H1 & H2). cbn [rbind].
    eexists _, (inorder l ++ q :: l1), l2. split; [done|]. split; [by constructor|]. rewrite E. cbn [inorder]. rewrite E'.
    split; [by rewrite <- app_assoc|]. split; [by rewrite <- app_assoc|]. split; [|done].
    intros x. rewrite elem_of_app, elem_of_cons. intros [Hx|[-> |Hx]]; [|lia|by apply H1].
    specialize (Hlr x q Hx ltac:(set_solver)). lia.
Qed.

(** An empty node gets a window in a gap of the others. *)
Lemma win_add w p n n' : win_ok w -> rsv_nodes w !! p = Some n -> p <> 0 -> p ∉ tree w -> 0 <= rsv_goal_size n' < 2 ^ 30 ->
  0 < rsv_start n' <= rsv_end n' -> rsv_end n' < 2 ^ 31 - 1 ->
  (forall q, q ∈ tree w -> wend w q < rsv_start n' \/ rsv_end n' < wstart w q) ->
  exists w', ext2_rsv_window_add rb (put_node p n' w) p = Ok w' /\ win_ok w' /\ only_node w w' p n' /\ p ∈ tree w'.
Proof using L.
  intros Hw Hn Hp Hin Hg Hb He Hgap. unfold ext2_rsv_window_add.
  rewrite (get_node_ok _ p n') by (unfold put_node; cbn [rsv_nodes]; by rewrite lookup_insert_eq). cbn [rbind].
  assert (Hout : forall q, q ∈ tree w -> wstart (put_node p n' w) q = wstart w q /\ wend (put_node p n' w) q = wend w q).
  { intros q Hq. destruct (w_put w p n' q) as [-> ->]. by rewrite !decide_False by (intros ->; done). }
  destruct (link_spec (put_node p n' w) p (rsv_start n') (s_rsv_window_root w)) as (t' & l1 & l2 & E & Hk & Et & Et' & H1 & H2).
  - apply StronglySorted_weaken with (R := before w); [|apply Hw]. intros x y Hx Hy. unfold before.
    destruct (Hout x Hx) as [_ ->]. by destruct (Hout y Hy) as [-> _].
  - intros q Hq. unfold put_node. cbn [rsv_nodes]. apply lookup_insert_is_Some'. right. by apply (wo_mem w Hw).
  - intros q Hq. destruct (Hout q Hq) as [-> ->]. pose proof (in_tree w q Hw Hq). specialize (Hgap q Hq). lia.
  - change (s_rsv_window_root (put_node p n' w)) with (s_rsv_window_root w). rewrite E. cbn [rbind]. eexists. split; [done|].
    destruct (rb_insert_law p (s_rsv_window_root w) t') as [Hok Ein]; [apply Hw|done|done|]. rewrite Et' in Ein.
    assert (Hd : NoDup (l1 ++ p :: l2)).
    { apply NoDup_app_cons_comm, NoDup_cons. rewrite <- Et. split; [done|apply Hw]. }
    assert (Hmem : forall q, q ∈ l1 ++ p :: l2 <-> q = p \/ q ∈ tree w) by (intros q; rewrite Et; set_solver).
    split; [|split; [by split|cbn [s_rsv_window_root with_root]; rewrite Ein; set_solver]].
    constructor; cbn [rsv_nodes s_rsv_window_root with_root put_node]; try rewrite Ein.
    + done.
    + pose proof (wo_head w Hw) as H0. rewrite Et in H0. destruct l1 as [|x l1]; [|done]. exfalso. destruct l2 as [|x l2]; [done|].
      injection H0 as ->. destruct (Hout 0) as [Hz _]; [apply (zero_in_tree w Hw)|]. specialize (H2 0 ltac:(left)). rewrite Hz in H2.
      destruct (wo_mem w Hw 0 (zero_in_tree w Hw)) as [m Hm]. destruct (wo_node w Hw 0 m Hm) as [_ _ [C _] _]; [by left|].
      rewrite (wstart_eq w 0 m Hm) in H2. lia.
    + done.
    + change (StronglySorted (before (put_node p n' w)) (l1 ++ p :: l2)). apply sorted_put; [done|rewrite <- Et; apply Hw| |].
      * intros q Hq. assert (Hq' : q ∈ tree w) by (rewrite Et; set_solver). specialize (H1 q Hq). by destruct (Hout q Hq') as [_ <-].
      * intros q Hq. assert (Hq' : q ∈ tree w) by (rewrite Et; set_solver). specialize (H2 q Hq). destruct (Hout q Hq') as [Hz _].
        rewrite Hz in H2. pose proof (in_tree w q Hw Hq'). destruct (Hgap q Hq'); [lia|done].
    + intros q Hq. apply lookup_insert_is_Some'. apply Hmem in Hq as [-> |Hq]; [by left|right]. by apply (wo_mem w Hw).
    + intros q m. rewrite lookup_insert_Some. intros [[<- <-]|[Hne Hm]].
      * constructor; cbn; [done|done| |done]. rewrite Ein. intros [?|Hq]; [done|]. exfalso. apply Hq, Hmem. by left.
      * destruct (wo_node w Hw q m Hm) as [A B C D]. constructor; cbn; [done|done|..]; rewrite Ein, Hmem; naive_solver.
Qed.

(** ** A new window *)

Lemma window_loop_spec w size last_block : win_ok w -> 1 <= size < 2 ^ 30 -> last_block < 2 ^ 30 ->
  forall fuel l1 p l2 cur, tree w = l1 ++ p :: l2 -> (length l2 < fuel)%nat -> 0 <= cur ->
  exists r, window_loop rb fuel w p cur size last_block = Ok r /\
    match r with
    | None => True
    | Some (q, c) => exists k1 k2, tree w = k1 ++ q :: k2 /\ wend w q < c /\ cur <= c <= last_block /\
        forall x, x ∈ k2 -> c + size <= wstart w x
    end.
Proof using L.
  intros Hw Hsz Hlast. induction fuel as [|fuel IH]; intros l1 p l2 cur E Hf Hc; [lia|]. cbn [window_loop].
  assert (Hp : p ∈ tree w) by (rewrite E; set_solver). destruct (wo_mem w Hw p Hp) as [n Hn].
  rewrite (get_node_ok w p n) by done. cbn [rbind]. rewrite <- (wend_eq w p n) by done. pose proof (in_tree w p Hw Hp) as Hpw.
  set (c := if cur <=? wend w p then u64 (wend w p + 1) else cur).
  assert (Hcc : wend w p < c /\ cur <= c).
  { unfold c. destruct (Z.leb_spec cur (wend w p)); rewrite ?u64_id; lia. }
  destruct (Z.ltb_spec last_block c); [by exists None|].
  rewrite (rb_next_law p _ l1 l2) by (apply Hw || done). pose proof (wo_sorted w Hw) as HS. rewrite E in HS.
  apply StronglySorted_app in HS as (_ & _ & HS). apply StronglySorted_cons in HS as [Hp2 HS].
  destruct l2 as [|q l2]; cbn [head].
  { eexists. split; [done|]. exists l1, []. split; [done|]. split; [lia|]. split; [lia|]. by intros ? ?%not_elem_of_nil. }
  assert (Hq : q ∈ tree w) by (rewrite E; set_solver). destruct (wo_mem w Hw q Hq) as [m Hm].
  rewrite (get_node_ok w q m) by done. cbn [rbind]. rewrite <- (wstart_eq w q m) by done. rewrite u64_id by lia.
  destruct (Z.leb_spec (c + size) (wstart w q)).
  - eexists. split; [done|]. exists l1, (q :: l2). split; [done|]. split; [lia|]. split; [lia|].
    intros x. rewrite elem_of_cons. intros [-> |Hx]; [done|]. apply StronglySorted_cons in HS as [Hq2 _]. rewrite Forall_forall in Hq2.
    specialize (Hq2 x Hx). unfold before in Hq2. pose proof (in_tree w q Hw Hq). lia.
  - destruct (IH (l1 ++ [p]) q l2 c) as (r & -> & Hr); [by rewrite <- app_assoc|simpl in Hf; lia|lia|].
    exists r. split; [done|]. destruct r as [[x c']|]; [|done]. destruct Hr as (k1 & k2 & Ek & H1 & H2 & H3).
    exists k1, k2. split; [done|]. split; [done|]. split; [lia|done].
Qed.

(** A window of the node's goal size in the range, away from all others; or nothing is
    changed. *)
Lemma find_next_spec w head my m start_block last_block : win_ok w -> rsv_nodes w !! my = Some m -> my <> 0 ->
  1 <= rsv_goal_size m -> head ∈ tree w -> 0 <= start_block -> last_block < 2 ^ 30 ->
  exists r, find_next_reservable_window rb w (Some head) my start_block last_block = Ok r /\
    (r = (-1, w) \/
     exists c w', r = (0, w') /\ start_block <= c <= last_block /\ win_ok w' /\ my ∈ tree w' /\
       only_node w w' my (Rsv c (c + rsv_goal_size m - 1) (rsv_goal_size m) 0)).
Proof using L.
  intros Hw Hm H0 Hsz Hh Hs Hl. unfold find_next_reservable_window. rewrite (get_node_ok w my m) by done. cbn [rbind].
  destruct (wo_node w Hw my m Hm) as [_ Hg _ _]. rewrite i32_id by lia.
  destruct (list_elem_of_split _ _ Hh) as (l1 & l2 & E).
  destruct (window_loop_spec w (rsv_goal_size m) last_block Hw ltac:(lia) Hl (S (size (rsv_nodes w))) l1 head l2 start_block E)
    as (r & -> & Hr); [pose proof (tree_size w Hw) as Hts; rewrite E, length_app in Hts; simpl in Hts; lia|done|]. cbn [rbind].
  destruct r as [[prev c]|]; [|eexists; split; [done|]; by left].
  destruct Hr as (k1 & k2 & Ek & Hc & Hcr & Hk2). assert (Hprev : prev ∈ tree w) by (rewrite Ek; set_solver).
  pose proof (in_tree w prev Hw Hprev) as Hpw. set (n' := Rsv c (c + rsv_goal_size m - 1) (rsv_goal_size m) 0).
  assert (Hk1 : forall q, q ∈ k1 -> wend w q < c).
  { intros q Hq. pose proof (wo_sorted w Hw) as HS. rewrite Ek in HS. apply StronglySorted_app in HS as (H12 & _ & _).
    specialize (H12 q prev Hq ltac:(set_solver)). unfold before in H12. lia. }
  assert (Hput : forall v, rsv_goal_size v = rsv_goal_size m -> with_alloc_hit 0 (with_window c (u64 (c + rsv_goal_size m - 1)) v) = n').
  { intros [a e g h] Ev. simpl in Ev. subst g. rewrite u64_id by lia. done. }
  destruct (Z.eqb_spec prev my) as [->|Hne]; cbn [negb andb].
  - cbn [rbind]. rewrite (get_node_ok w my m) by done. cbn [rbind]. rewrite Hput by done.
    eexists. split; [done|]. right. exists c, (put_node my n' w). split; [done|]. split; [done|].
    split; [|by split]. apply (win_update w my n' k1 k2); cbn; [done|done|done|lia|lia|lia|lia|].
    intros q Hq. specialize (Hk2 q Hq). lia.
  - assert (Hmid : exists w1 m1, (if negb (rsv_is_empty m) then rsv_window_remove rb w my else Ok w) = Ok w1 /\ win_ok w1 /\
        only_node w w1 my m1 /\ rsv_goal_size m1 = rsv_goal_size m /\ (my ∉ tree w1) /\ (forall q, q ∈ tree w1 -> q ∈ tree w /\ q <> my)).
    { unfold rsv_is_empty, EXT2_RESERVE_WINDOW_NOT_ALLOCATED. destruct (Z.eqb_spec (rsv_end m) 0) as [Ez|Ez]; cbn [negb].
      - exists w, m. pose proof (empty_not_in_tree w my m Hw Hm H0 Ez) as Hnin. split; [done|]. split; [done|].
        split; [split; [by rewrite insert_id|done]|]. split; [done|]. split; [done|]. intros q Hq. split; [done|]. by intros ->.
      - destruct (nonempty_in_tree w my m Hw Hm Ez) as [Hin _].
        destruct (win_remove w my Hw Hin H0) as (n1 & w1 & Hn1 & E1 & Hw1 & Ho1 & Hmem). rewrite Hm in Hn1. injection Hn1 as <-.
        exists w1, (Rsv 0 0 (rsv_goal_size m) 0). split; [done|]. split; [done|]. split; [done|]. split; [done|].
        split; [rewrite Hmem; naive_solver|]. intros q. by rewrite Hmem. }
    destruct Hmid as (w1 & m1 & -> & Hw1 & [Ho1 Hla] & Hgm & Hnin & Hmem). cbn [rbind].
    assert (Hm1 : rsv_nodes w1 !! my = Some m1) by (rewrite Ho1; apply lookup_insert_eq).
    rewrite (get_node_ok w1 my m1) by done. cbn [rbind]. rewrite Hput by done.
    destruct (win_add w1 my m1 n' Hw1 Hm1 H0 Hnin) as (w2 & -> & Hw2 & [Ho2 Hla2] & Hin2); [cbn; lia..| |].
    + intros q Hq. destruct (Hmem q Hq) as [Hqt Hqm]. cbn [rsv_start rsv_end n'].
      assert (Hsame : wstart w1 q = wstart w q /\ wend w1 q = wend w q).
      { unfold wstart, wend. rewrite Ho1, lookup_insert_ne by done. done. }
      destruct Hsame as [-> ->]. rewrite Ek, elem_of_app, elem_of_cons in Hqt.
      destruct Hqt as [Hqt|[-> |Hqt]]; [left; by apply Hk1|by left|right]. specialize (Hk2 q Hqt). lia.
    + cbn [rbind]. eexists. split; [done|]. right. exists c, w2. split; [done|]. split; [done|]. split; [done|]. split; [done|].
      split; [by rewrite Ho2, Ho1, insert_insert_eq|by rewrite Hla2].
Qed.

(** Extending a window stops at the next one. *)
Lemma extend_spec env w my m size : win_ok w -> rsv_nodes w !! my = Some m -> my <> 0 -> my ∈ tree w -> 0 <= size ->
  rsv_end m + size < 2 ^ 31 - 1 ->
  exists e w', try_to_extend_reservation rb env w my size = Ok w' /\ win_ok w' /\ rsv_end m <= e /\ my ∈ tree w' /\
    only_node w w' my (with_window (rsv_start m) e m).
Proof using L.
  intros Hw Hm H0 Hin Hsz Hb. unfold try_to_extend_reservation. destruct (wo_node w Hw my m Hm) as [_ Hg _ Hwin]. specialize (Hwin H0 Hin).
  destruct (spin_trylock env w); cbn [negb].
  2:{ exists (rsv_end m), w. split; [done|]. split; [done|]. split; [done|]. split; [done|]. split; [|done].
      rewrite insert_id; [done|]. rewrite Hm. by destruct m. }
  rewrite (get_node_ok w my m) by done. cbn [rbind]. destruct (list_elem_of_split _ _ Hin) as (l1 & l2 & E).
  rewrite (rb_next_law my _ l1 l2) by (apply Hw || done).
  assert (Hdo : forall e, rsv_end m <= e -> e < 2 ^ 31 - 1 -> (forall q, q ∈ l2 -> e < wstart w q) ->
    exists e' w', Ok (put_node my (with_window (rsv_start m) e m) w) = Ok w' /\ win_ok w' /\ rsv_end m <= e' /\ my ∈ tree w' /\
      only_node w w' my (with_window (rsv_start m) e' m)).
  { intros e He Hel H2. eexists e, _. split; [done|]. split; [|by split].
    apply (win_update w my _ l1 l2); try (destruct m; cbn in *; done || lia). rewrite (wstart_eq w my m Hm). by destruct m. }
  destruct l2 as [|q l2]; cbn [head]. { rewrite u64_id by lia. apply Hdo; [lia|lia|]. by intros ? ?%not_elem_of_nil. }
  assert (Hq : q ∈ tree w) by (rewrite E; set_solver). destruct (wo_mem w Hw q Hq) as [n Hn].
  rewrite (get_node_ok w q n) by done. cbn [rbind]. rewrite <- (wstart_eq w q n) by done.
  pose proof (wo_sorted w Hw) as HS. rewrite E in HS. apply StronglySorted_app in HS as (_ & _ & HS).
  apply StronglySorted_cons in HS as [Hpq HS]. apply StronglySorted_cons in HS as [Hq2 _]. rewrite Forall_forall in Hpq, Hq2.
  pose proof (in_tree w q Hw Hq) as Hqw. specialize (Hpq q ltac:(left)) as Hpq'. unfold before in *. rewrite (wend_eq w my m Hm) in Hpq'.
  assert (Hlater : forall e x, e < wstart w q -> x ∈ q :: l2 -> e < wstart w x).
  { intros e x He. rewrite elem_of_cons. intros [-> |Hx]; [done|]. specialize (Hq2 x Hx). lia. }
  rewrite !u64_id by lia. destruct (Z.leb_spec size (wstart w q - rsv_end m - 1)).
  - apply Hdo; [lia|lia|]. intros x. apply Hlater. lia.
  - apply Hdo; [lia|lia|]. intros x. apply Hlater. lia.
Qed.
End WindowFacts.
