(* ===== verification/Ext2BallocGroup.v ===== *)
(** * ext2: allocation in one group, with a reservation window

    [alloc_new_reservation] finds a window with a free block in it or gives up, and
    [ext2_try_to_allocate_with_rsv] claims a run of free blocks of the group or none;
    both keep the windows disjoint. *)

From S2P Require Import Prelude CString ByteMem Ext2Layout Ext2Dir Ext2Super Ext2Inode Ext2Ialloc Ext2Balloc Ext2BallocBits Ext2BallocRsv.

(** The numbers of a file system of at most 2^30 blocks. *)
Class BlkWf (sb : sb_info) : Prop := {
  bw_bpg : 0 < EXT2_BLOCKS_PER_GROUP sb < 2 ^ 16;
  bw_groups : 0 < s_groups_count sb < 2 ^ 30;
  bw_first : 0 <= es_first_data_block sb;
  bw_end : ext2_group_first_block_no sb (s_groups_count sb) <= 2 ^ 30;
  bw_count : ext2_group_first_block_no sb (s_groups_count sb - 1) < es_blocks_count sb <=
    ext2_group_first_block_no sb (s_groups_count sb);
  bw_itb : 0 < s_itb_per_group sb < 2 ^ 16 }.

Section GroupFacts.
Context (rb : rb_lib) {L : RbLaws rb} (sb : sb_info) {B : BlkWf sb} (env : block_env).

Notation bpg := (EXT2_BLOCKS_PER_GROUP sb).
Notation gfb := (ext2_group_first_block_no sb).
Notation tree w := (inorder (s_rsv_window_root w)).

Lemma gfb_bounds g : 0 <= g < s_groups_count sb -> 0 <= gfb g /\ gfb g + bpg <= 2 ^ 30.
Proof using B.
  intros Hg. pose proof (bw_end (sb := sb)). pose proof (bw_bpg (sb := sb)). pose proof (bw_first (sb := sb)).
  unfold ext2_group_first_block_no in *. nia.
Qed.

(** A bitmap block covers the group and is a whole number of bytes. *)
Definition bits_ok (b : bitmap) : Prop := bpg <= Z.of_nat (length b) /\ (8 | Z.of_nat (length b)).

Lemma only_node_trans w w1 w2 p n1 n2 : only_node w w1 p n1 -> only_node w1 w2 p n2 -> only_node w w2 p n2.
Proof using. intros [E1 F1] [E2 F2]. split; [by rewrite E2, E1, insert_insert_eq|congruence]. Qed.

Lemma only_node_lookup w w' p n : only_node w w' p n -> rsv_nodes w' !! p = Some n.
Proof using. intros [E _]. rewrite E. apply lookup_insert_eq. Qed.

Lemma only_node_refl w p n : rsv_nodes w !! p = Some n -> only_node w w p n.
Proof using. intros E. split; [by rewrite insert_id|done]. Qed.

Lemma only_node_put w p n : only_node w (put_node p n w) p n.
Proof using. done. Qed.

(** The windows afterwards, when only the window of [my] may have changed. *)
Definition moved (w w' : rsv_state) (my : Z) (n : rsv_node) : Prop :=
  win_ok rb w' /\ only_node w w' my n /\ 1 <= rsv_goal_size n.

(** The window has a free block of the group in it. *)
Definition roomy (b : bitmap) (g : Z) (n : rsv_node) : Prop :=
  exists f, rsv_start n <= f <= rsv_end n /\ gfb g <= f < gfb g + bpg /\ b !! Z.to_nat (f - gfb g) = Some false.

Lemma drop_window w my m : win_ok rb w -> rsv_nodes w !! my = Some m -> my <> 0 -> 1 <= rsv_goal_size m ->
  exists w' n, (let* w := if rsv_is_empty m then Ok w else rsv_window_remove rb w my in Ok (-1, w)) = Ok (-1, w') /\ moved w w' my n.
Proof using L.
  intros Hw Hm H0 Hg. unfold rsv_is_empty, EXT2_RESERVE_WINDOW_NOT_ALLOCATED. destruct (Z.eqb_spec (rsv_end m) 0) as [Ez|Ez].
  - exists w, m. split; [done|]. split; [done|]. split; [by apply only_node_refl|done].
  - destruct (nonempty_in_tree rb w my m Hw Hm Ez) as [Hin _].
    destruct (win_remove rb w my Hw Hin H0) as (n & w' & Hn & -> & Hw' & Ho & _). rewrite Hm in Hn. injection Hn as <-.
    eexists w', _. split; [done|]. split; [done|]. by split.
Qed.

Lemma new_rsv_loop_spec b my g : bits_ok b -> my <> 0 -> 0 <= g < s_groups_count sb ->
  forall fuel w m h start_block, win_ok rb w -> rsv_nodes w !! my = Some m -> 1 <= rsv_goal_size m -> h ∈ tree w ->
  gfb g <= start_block -> (Z.to_nat (gfb g + bpg - start_block) < fuel)%nat ->
  exists ret w' n, new_rsv_loop rb sb fuel w b my g (Some h) start_block = Ok (ret, w') /\ moved w w' my n /\
    (ret = -1 \/ ret = 0 /\ my ∈ tree w' /\ start_block <= rsv_start n < gfb g + bpg /\ roomy b g n).
Proof using L B.
  intros [Hlen H8] H0 Hg. pose proof (gfb_bounds g Hg) as HG. pose proof (bw_bpg (sb := sb)) as HB.
  induction fuel as [|fuel IH]; intros w m h start Hw Hm Hgs Hh Hs Hf; [lia|]. cbn [new_rsv_loop].
  destruct (find_next_spec rb w h my m start (gfb g + (bpg - 1)) Hw Hm H0 Hgs Hh ltac:(lia) ltac:(lia)) as (r & -> & Hr).
  cbn [rbind]. destruct Hr as [-> |(c & w1 & -> & Hc & Hw1 & Hin & Ho)].
  { rewrite (get_node_ok w my m) by done. cbn [rbind]. change (-1 =? -1) with true. cbn match.
    destruct (drop_window w my m Hw Hm H0 Hgs) as (w' & n & -> & Hmv). exists (-1), w', n. auto. }
  pose proof (only_node_lookup _ _ _ _ Ho) as Hm1. set (n1 := Rsv c _ _ 0) in *.
  rewrite (get_node_ok w1 my n1) by done. cbn [rbind]. change (0 =? -1) with false. cbn match.
  change (rsv_start n1) with c. change (rsv_end n1) with (c + rsv_goal_size m - 1).
  rewrite !i32_id by lia. replace (gfb g + (bpg - 1) - gfb g + 1) with bpg by lia.
  destruct (usable_spec b (c - gfb g) bpg) as (f & -> & Hsr & _); [lia..|]. cbn [rbind].
  destruct Hsr as [[-> _]|[Hfr Hbit]].
  { change (-1 <? 0) with true. cbn match. destruct (drop_window w1 my n1 Hw1 Hm1 H0) as (w' & n & -> & Hw' & Ho' & Hg'); [cbn; lia|].
    exists (-1), w', n. split; [done|]. split; [|by left]. split; [done|]. split; [|done]. by eapply only_node_trans. }
  rewrite (proj2 (Z.ltb_ge _ _)) by lia. rewrite u64_id by lia.
  destruct (Z.leb_spec c (f + gfb g)); [|lia]. destruct (Z.leb_spec (f + gfb g) (c + rsv_goal_size m - 1)); cbn [andb].
  - exists 0, w1, n1. split; [done|]. split; [split; [done|split; [done|cbn; lia]]|]. right. split; [done|]. split; [done|].
    split; [cbn; lia|]. exists (f + gfb g). split; [cbn; lia|]. split; [lia|]. by replace (f + gfb g - gfb g) with f by lia.
  - destruct (IH w1 n1 my (f + gfb g) Hw1 Hm1 ltac:(cbn; lia) Hin ltac:(lia) ltac:(lia)) as (ret & w' & n & -> & (Hw' & Ho' & Hg') & Hres).
    exists ret, w', n. split; [done|]. split; [split; [done|split; [by eapply only_node_trans|done]]|].
    destruct Hres as [?|(? & ? & ? & ?)]; [by left|right]. split; [done|]. split; [done|]. split; [lia|done].
Qed.

(** The block from which a window is searched. *)
Definition start_of (g goal : Z) : Z := if goal <? 0 then gfb g else gfb g + goal.

Lemma grow_spec w my m : win_ok rb w -> rsv_nodes w !! my = Some m -> 1 <= rsv_goal_size m ->
  exists m1, moved w (grow_goal_size w my m) my m1.
Proof using.
  intros Hw Hm Hg. destruct (wo_node rb w Hw my m Hm) as [_ Hgb _ _]. unfold grow_goal_size. destruct (negb (rsv_is_empty m) && _).
  2:{ exists m. split; [done|]. split; [by apply only_node_refl|done]. }
  set (size := if EXT2_MAX_RESERVE_BLOCKS <? _ then _ else _). assert (Hs : 1 <= size < 2 ^ 30).
  { unfold size, EXT2_MAX_RESERVE_BLOCKS. rewrite u64_id by lia. destruct (Z.ltb_spec 1027 (rsv_goal_size m * 2)); lia. }
  clearbody size. rewrite u32_id by lia. exists (with_goal_size size m). split; [|split; [done|destruct m; cbn; lia]].
  apply (win_attr rb w my m); [done|done|by destruct m..|]. destruct m. cbn. lia.
Qed.

Lemma alloc_new_spec w b my m g goal : bits_ok b -> win_ok rb w -> rsv_nodes w !! my = Some m -> my <> 0 ->
  1 <= rsv_goal_size m -> 0 <= g < s_groups_count sb -> -1 <= goal < bpg ->
  exists ret w' n, alloc_new_reservation rb sb w b my goal g = Ok (ret, w') /\ moved w w' my n /\
    (ret = -1 \/ ret = 0 /\ my ∈ tree w' /\ start_of g goal <= rsv_start n < gfb g + bpg /\ roomy b g n).
Proof using L B.
  intros Hb Hw Hm H0 Hgs Hg Hgoal. pose proof (gfb_bounds g Hg) as HG. pose proof (bw_bpg (sb := sb)) as HB.
  unfold alloc_new_reservation. rewrite (get_node_ok w my m) by done. cbn [rbind].
  replace (if goal <? 0 then gfb g else u64 (goal + gfb g)) with (start_of g goal)
    by (unfold start_of; destruct (Z.ltb_spec goal 0); rewrite ?u64_id; lia).
  assert (Hst : gfb g <= start_of g goal) by (unfold start_of; destruct (Z.ltb_spec goal 0); lia).
  destruct (negb (rsv_is_empty m) && (rsv_start m <=? gfb g + (bpg - 1)) && _ && _).
  { exists (-1), w, m. split; [done|]. split; [|by left]. split; [done|]. split; [by apply only_node_refl|done]. }
  destruct (grow_spec w my m Hw Hm Hgs) as (m1 & Hw1 & Ho1 & Hg1). set (w1 := grow_goal_size w my m) in *.
pose proof (only_node_lookup _ _ _ _ Ho1) as Hm1.
  destruct (search_spec rb w1 (start_of g goal) Hw1 ltac:(lia)) as (h & l1 & l2 & -> & E & _ & _). cbn [rbind].
  destruct (new_rsv_loop_spec b my g Hb H0 Hg (S (Z.to_nat bpg)) w1 m1 h (start_of g goal) Hw1 Hm1 Hg1) as (ret & w' & n & -> & (Hw' & Ho' & Hg') & Hres);
    [rewrite E; set_solver|done|lia|].
  exists ret, w', n. split; [done|]. split; [|done]. split; [done|]. split; [by eapply only_node_trans|done].
Qed.

(** ** Allocation with a window *)

Lemma goal_in_spec n goal g : 0 <= g < s_groups_count sb -> -1 <= goal < bpg ->
  goal_in_my_reservation sb n goal g = true <->
  rsv_start n <= gfb g + bpg - 1 /\ gfb g <= rsv_end n /\ (0 <= goal -> rsv_start n <= gfb g + goal <= rsv_end n).
Proof using B.
  intros Hg Hgoal. pose proof (gfb_bounds g Hg). pose proof (bw_bpg (sb := sb)). unfold goal_in_my_reservation.
  destruct (Z.ltb_spec (gfb g + bpg - 1) (rsv_start n)), (Z.ltb_spec (rsv_end n) (gfb g)); cbn [orb]; try (split; [done|lia]).
  destruct (Z.leb_spec 0 goal); cbn [andb]; [|split; [lia|done]]. rewrite u64_id by lia.
  destruct (Z.ltb_spec (goal + gfb g) (rsv_start n)), (Z.ltb_spec (rsv_end n) (goal + gfb g)); cbn [orb]; (split; [done || lia|done || lia]).
Qed.

(** The window has blocks of the group. *)
Definition meets (g : Z) (n : rsv_node) : Prop := rsv_start n < gfb g + bpg /\ gfb g <= rsv_end n.

(** A new window, if there is one, has a free block that the next attempt will find. *)
Lemma pick_new_spec w b my m g goal count ret : bits_ok b -> win_ok rb w -> rsv_nodes w !! my = Some m -> my <> 0 ->
  1 <= rsv_goal_size m -> 0 <= g < s_groups_count sb -> -1 <= goal < bpg -> count < 2 ^ 30 ->
  rsv_is_empty m || (ret <? 0) || negb (goal_in_my_reservation sb m goal g) = true ->
  exists ret' goal' w' n, pick_window rb sb env w b my goal g count ret = Ok (ret', goal', w') /\ moved w w' my n /\
    (ret' = -1 \/ ret' = 0 /\ my ∈ tree w' /\ meets g n /\ roomy b g n /\ (goal' = -1 \/ gfb g + goal' = rsv_start n)).
Proof using L B.
  intros Hb Hw Hm H0 Hgs Hg Hgoal Hc Hcond. unfold pick_window. rewrite (get_node_ok w my m) by done. cbn [rbind]. rewrite Hcond.
  set (w0 := if rsv_goal_size m <? count then put_node my (with_goal_size (u32 count) m) w else w).
  assert (Hw0 : exists m0, moved w w0 my m0).
  { unfold w0. destruct (Z.ltb_spec (rsv_goal_size m) count).
    - rewrite u32_id by lia. exists (with_goal_size count m). split; [|split; [done|destruct m; cbn in *; lia]].
      apply (win_attr rb w my m); [done|done|by destruct m..|]. destruct m. cbn in *. lia.
    - exists m. split; [done|]. split; [by apply only_node_refl|done]. }
  clearbody w0. destruct Hw0 as (m0 & Hw0 & Ho0 & Hg0). pose proof (only_node_lookup _ _ _ _ Ho0) as Hm0.
  destruct (alloc_new_spec w0 b my m0 g goal Hb Hw0 Hm0 H0 Hg0 Hg Hgoal) as (r & w' & n & -> & (Hw' & Ho' & Hg') & Hres).
  cbn [rbind]. assert (Hmv : moved w w' my n) by (split; [done|]; split; [by eapply only_node_trans|done]).
  destruct Hres as [-> |(-> & Hin & Hst & Hroom)].
  { change (-1 <? 0) with true. cbn match. exists (-1), goal, w', n. auto. }
  change (0 <? 0) with false. cbn match. pose proof (only_node_lookup _ _ _ _ Ho') as Hn.
  rewrite (get_node_ok w' my n) by done. cbn [rbind]. eexists 0, _, w', n. split; [done|]. split; [done|]. right.
  pose proof (gfb_bounds g Hg) as HG. pose proof (bw_bpg (sb := sb)) as HB.
  destruct (wo_node rb w' Hw' my n Hn) as [_ _ _ Hwin]. specialize (Hwin H0 Hin). unfold start_of in Hst.
  assert (gfb g <= rsv_start n) by (destruct (Z.ltb_spec goal 0); lia).
  split; [done|]. split; [done|]. split; [split; lia|]. split; [done|].
  destruct (goal_in_my_reservation sb n goal g) eqn:E; [|by left]. apply goal_in_spec in E as (_ & _ & E); [|done..].
  destruct (Z.ltb_spec goal 0); [left|right]; lia.
Qed.

(** The window that the node has already is kept, perhaps extended. *)
Lemma pick_old_spec w b my m g goal count : win_ok rb w -> rsv_nodes w !! my = Some m -> my <> 0 ->
  1 <= rsv_goal_size m -> 0 <= g < s_groups_count sb -> -1 <= goal < bpg -> count < 2 ^ 30 ->
  rsv_is_empty m || (0 <? 0) || negb (goal_in_my_reservation sb m goal g) = false ->
  exists w' n, pick_window rb sb env w b my goal g count 0 = Ok (0, goal, w') /\ moved w w' my n /\ my ∈ tree w' /\ meets g n.
Proof using L B.
  intros Hw Hm H0 Hgs Hg Hgoal Hc Hcond. unfold pick_window. rewrite (get_node_ok w my m) by done. cbn [rbind]. rewrite Hcond.
  apply orb_false_iff in Hcond as [Hcond Hin]. apply orb_false_iff in Hcond as [Hne _]. apply Z.eqb_neq in Hne.
  apply negb_false_iff in Hin. apply goal_in_spec in Hin as (H1 & H2 & H3); [|done..].
  destruct (nonempty_in_tree rb w my m Hw Hm Hne) as [Htree _]. pose proof (gfb_bounds g Hg) as HG.
  assert (Hkeep : exists w' n, Ok (0, goal, w) = Ok (0, goal, w') /\ moved w w' my n /\ my ∈ tree w' /\ meets g n).
  { exists w, m. split; [done|]. split; [split; [done|split; [by apply only_node_refl|done]]|]. split; [done|]. split; lia. }
  destruct (Z.leb_spec 0 goal) as [Hgoal0|]; [|exact Hkeep]. specialize (H3 Hgoal0).
  destruct (wo_node rb w Hw my m Hm) as [He Hgb _ _]. rewrite (i32_id (rsv_end m - (goal + gfb g) + 1)) by lia. rewrite u64_id by lia.
  destruct (Z.ltb_spec (rsv_end m - (goal + gfb g) + 1) count); [|exact Hkeep]. rewrite i32_id by lia.
  destruct (extend_spec rb env w my m (count - (rsv_end m - (goal + gfb g) + 1)) Hw Hm H0 Htree ltac:(lia) ltac:(lia))
    as (e & w' & -> & Hw' & Hee & Hin' & Ho'). cbn [rbind].
  exists w', (with_window (rsv_start m) e m). split; [done|]. split; [split; [done|split; [done|by destruct m]]|].
  split; [done|]. destruct m; cbn in *. split; cbn; lia.
Qed.

(** What an attempt in a group does: a run of its free blocks is claimed, or nothing. *)
Definition group_claim (b : bitmap) (count ret num : Z) (b' : bitmap) : Prop :=
  ret = -1 /\ b' = b \/
  exists n, num = Z.of_nat n /\ b' = put_range true n ret b /\ 0 <= ret /\ ret + Z.of_nat n <= bpg /\
    1 <= Z.of_nat n <= Z.max 1 count /\ all_bits false b ret (ret + Z.of_nat n).

Lemma claimed_group b from to count r : 0 <= from -> to <= bpg -> claimed b from to count r ->
  group_claim b count (fst (fst r)) (snd (fst r)) (snd r).
Proof using.
  intros Hf Ht [[-> _]|(i & n & -> & H1 & H2 & H3 & H4)]; [by left|]. right. exists n. cbn. split; [done|]. split; [done|].
  split; [lia|]. split; [lia|done].
Qed.

(** One attempt in a window that meets the group. *)
Lemma window_attempt w b my n g goal count : bits_ok b -> win_ok rb w -> rsv_nodes w !! my = Some n -> my <> 0 -> my ∈ tree w ->
  meets g n -> 0 <= g < s_groups_count sb ->
  (gfb g + (bpg - 1) <? rsv_start n) || (rsv_end n <? gfb g) = false /\
  exists r, ext2_try_to_allocate sb g b goal count (Some n) = Ok r /\ group_claim b count (fst (fst r)) (snd (fst r)) (snd r) /\
    (roomy b g n -> goal = -1 \/ gfb g + goal = rsv_start n -> 0 <= fst (fst r)) /\
    (fst (fst r) < 0 -> r = (-1, 0, b)).
Proof using L B.
  intros [Hlen H8] Hw Hn H0 Hin [Hm1 Hm2] Hg. pose proof (gfb_bounds g Hg) as HG. pose proof (bw_bpg (sb := sb)) as HB.
  destruct (wo_node rb w Hw my n Hn) as [He _ _ Hwin]. specialize (Hwin H0 Hin).
  split; [apply orb_false_iff; split; apply Z.ltb_ge; lia|].
  destruct (try_to_allocate_window sb HB b g goal count n) as (r & Er & Hr); [lia..|done|done|].
  exists r. split; [done|]. set (from := Z.max 0 _) in *. set (to := Z.min bpg _) in *.
  assert (Hft : 0 <= from < to /\ to <= bpg) by (unfold from, to; lia).
  split; [eapply claimed_group; [|apply Hft|exact Hr]; destruct (decide (from <= goal < to)); lia|]. split.
  - intros (f & Hf1 & Hf2 & Hbit) Hgoal. destruct Hr as [[-> Hall]|(i & k & -> & Hi & _)]; cbn.
    + exfalso. rewrite (Hall (f - gfb g)) in Hbit; [done|]. unfold from, to. destruct (decide _); lia.
    + destruct (decide (from <= goal < to)); lia.
  - destruct Hr as [[-> _]|(i & k & -> & Hi & _)]; [done|]. cbn. destruct (decide (from <= goal < to)); lia.
Qed.

Lemma rsv_loop_spec w b my m g goal count : bits_ok b -> win_ok rb w -> rsv_nodes w !! my = Some m -> my <> 0 ->
  1 <= rsv_goal_size m -> 0 <= g < s_groups_count sb -> -1 <= goal < bpg -> count < 2 ^ 30 ->
  exists ret num w' b' n, rsv_loop rb sb env 3 w b my goal g count 0 = Ok (ret, num, w', b') /\ moved w w' my n /\
    group_claim b count ret num b' /\ (ret = -1 -> num = count).
Proof using L B.
  intros Hb Hw Hm H0 Hgs Hg Hgoal Hc.
  (* a new window *)
  assert (Hnew : forall fuel w1 m1 ret, moved w w1 my m1 ->
    rsv_is_empty m1 || (ret <? 0) || negb (goal_in_my_reservation sb m1 goal g) = true ->
    exists ret' num w' b' n, rsv_loop rb sb env (S fuel) w1 b my goal g count ret = Ok (ret', num, w', b') /\ moved w w' my n /\
      group_claim b count ret' num b' /\ (ret' = -1 -> num = count)).
  { intros fuel w1 m1 ret (Hw1 & Ho1 & Hg1) Hcond. pose proof (only_node_lookup _ _ _ _ Ho1) as Hm1. cbn [rsv_loop].
    destruct (pick_new_spec w1 b my m1 g goal count ret Hb Hw1 Hm1 H0 Hg1 Hg Hgoal Hc Hcond)
      as (r & goal' & w2 & n & -> & (Hw2 & Ho2 & Hg2) & Hr). cbn [rbind].
    destruct Hr as [-> |(-> & Hin & Hmeet & Hroom & Hgoal')].
    { exists (-1), count, w2, b, n. split; [done|]. split; [split; [done|split; [by eapply only_node_trans|done]]|]. split; [by left|done]. }
    change (0 <? 0) with false. cbn match. pose proof (only_node_lookup _ _ _ _ Ho2) as Hn.
    rewrite (get_node_ok w2 my n) by done. cbn [rbind].
    destruct (window_attempt w2 b my n g goal' count Hb Hw2 Hn H0 Hin Hmeet Hg) as (-> & [[ret' num] b'] & -> & Hcl & Hok & _).
    cbn [rbind]. specialize (Hok Hroom Hgoal'). cbn [fst snd] in *. rewrite (proj2 (Z.leb_le _ _)) by done.
    set (n' := with_alloc_hit _ n). eexists ret', num, _, b', n'. split; [done|]. split; [|split; [done|lia]].
    split; [|split; [eapply only_node_trans; [exact Ho1|]; by eapply only_node_trans|by destruct n]].
    apply (win_attr rb w2 my n); [done|done|by destruct n..|]. destruct (wo_node rb w2 Hw2 my n Hn) as [_ Hgb _ _]. by destruct n. }
  assert (Hself : moved w w my m) by (split; [done|split; [by apply only_node_refl|done]]).
  destruct (rsv_is_empty m || (0 <? 0) || negb (goal_in_my_reservation sb m goal g)) eqn:Hcond; [by apply (Hnew 2%nat w m 0)|].
  cbn [rsv_loop]. destruct (pick_old_spec w b my m g goal count Hw Hm H0 Hgs Hg Hgoal Hc Hcond) as (w1 & n & -> & Hmv & Hin & Hmeet).
  cbn [rbind]. change (0 <? 0) with false. cbn match. destruct Hmv as (Hw1 & Ho1 & Hg1). pose proof (only_node_lookup _ _ _ _ Ho1) as Hn.
  rewrite (get_node_ok w1 my n) by done. cbn [rbind].
  destruct (window_attempt w1 b my n g goal count Hb Hw1 Hn H0 Hin Hmeet Hg) as (-> & [[ret num] b'] & -> & Hcl & _ & Hfail).
  cbn [rbind fst snd] in *. destruct (Z.leb_spec 0 ret) as [Hr|Hr].
  - set (n' := with_alloc_hit _ n). eexists ret, num, _, b', n'. split; [done|]. split; [|split; [done|lia]].
    split; [|split; [by eapply only_node_trans|by destruct n]].
    apply (win_attr rb w1 my n); [done|done|by destruct n..|]. destruct (wo_node rb w1 Hw1 my n Hn) as [_ Hgb _ _]. by destruct n.
  - specialize (Hfail Hr). injection Hfail as -> -> ->. apply (Hnew 1%nat w1 n (-1)); [done|]. apply orb_true_iff. left. apply orb_true_r.
Qed.

(** Without a window a failure leaves no count, with one it leaves the count as it was. *)
Lemma with_rsv_spec w b (my_rsv : option Z) g goal count : bits_ok b -> win_ok rb w -> 0 <= g < s_groups_count sb ->
  -1 <= goal < bpg -> 0 <= count < 2 ^ 30 ->
  match my_rsv with Some p => p <> 0 /\ exists m, rsv_nodes w !! p = Some m /\ 1 <= rsv_goal_size m | None => True end ->
  exists ret num w' b', ext2_try_to_allocate_with_rsv rb sb env w b g goal my_rsv count = Ok (ret, num, w', b') /\ win_ok rb w' /\
    match my_rsv with Some p => exists n, only_node w w' p n /\ 1 <= rsv_goal_size n | None => w' = w end /\
    group_claim b count ret num b' /\ (ret = -1 -> 0 <= num <= count) /\
    (ret = -1 -> my_rsv = None -> goal <= 0 -> all_bits true b 0 bpg).
Proof using L B.
  intros Hb Hw Hg Hgoal Hc Hmy. unfold ext2_try_to_allocate_with_rsv. destruct my_rsv as [p|].
  - destruct Hmy as (H0 & m & Hm & Hgs).
    destruct (rsv_loop_spec w b p m g goal count Hb Hw Hm H0 Hgs Hg Hgoal ltac:(lia)) as (ret & num & w' & b' & n & -> & (Hw' & Ho & Hgn) & Hcl & Hn).
    exists ret, num, w', b'. split; [done|]. split; [done|]. split; [by exists n|]. split; [done|]. split; [|done].
    intros Hr. specialize (Hn Hr). lia.
  - pose proof (bw_bpg (sb := sb)) as HB. destruct Hb as [Hlen H8].
    destruct (try_to_allocate_plain sb HB b g goal count Hgoal Hlen H8) as ([[ret num] b'] & -> & Hr). cbn [rbind].
    exists ret, num, w, b'. split; [done|]. split; [done|]. split; [done|].
    split; [apply (claimed_group b (Z.max goal 0) bpg count (ret, num, b')); [lia|lia|done]|].
    destruct Hr as [[[= -> -> ->] Hall]|(i & k & [= -> -> ->] & Hi & _)]; (split; [lia|]); intros Hneg; [|lia].
    intros _ Hgo. by replace (Z.max goal 0) with 0 in Hall by lia.
Qed.
End GroupFacts.
