(* ===== verification/Ext2BallocFacts.v ===== *)
(** * ext2: what the block allocator keeps

    The invariant of the block bitmaps ([balloc_ok]): the count of free blocks in each
    group descriptor is the number of zero bits of its bitmap, the counter of the file
    system is their sum, and the blocks that hold the bitmaps, the inode table or nothing
    at all are marked as in use.  The search of a group, of all groups, and the release of
    a run are proved against the bits of the blocks. *)

From S2P Require Import Prelude CString ByteMem Ext2Layout Ext2Dir Ext2Super Ext2Inode Ext2Ialloc Ext2IallocFacts.
From S2P Require Import Ext2Balloc Ext2BallocBits Ext2BallocRsv Ext2BallocGroup.

(** Sums over the groups below [n]. *)
Fixpoint sumz (f : Z -> Z) (n : nat) : Z := match n with O => 0 | S n' => sumz f n' + f (Z.of_nat n') end.

Lemma sumz_ext f f' n : (forall i, 0 <= i < Z.of_nat n -> f' i = f i) -> sumz f' n = sumz f n.
Proof. induction n as [|n IH]; intros H; [done|]. cbn [sumz]. rewrite IH, H by (intros; try apply H; lia). done. Qed.

Lemma sumz_change f f' n g : 0 <= g < Z.of_nat n -> (forall i, 0 <= i < Z.of_nat n -> i <> g -> f' i = f i) ->
  sumz f' n = sumz f n + (f' g - f g).
Proof.
  induction n as [|n IH]; intros Hg H; [lia|]. cbn [sumz]. destruct (decide (g = Z.of_nat n)) as [->|Hne].
  - rewrite (sumz_ext f f') by (intros i Hi; apply H; lia). lia.
  - rewrite IH by (lia || intros; apply H; lia). rewrite (H (Z.of_nat n)) by lia. lia.
Qed.

Section BallocFacts.
Context (rb : rb_lib) {L : RbLaws rb} (sb : sb_info) {W : SbWf sb} {B : BlkWf sb} (env : block_env).

Notation ngroups := (s_groups_count sb).
Notation bpg := (EXT2_BLOCKS_PER_GROUP sb).
Notation gfb := (ext2_group_first_block_no sb).
Notation first := (es_first_data_block sb).
Notation block_bits := (block_bits sb).

(** ** The invariant *)

(** The block holds a bitmap or part of the inode table of the group. *)
Definition system_block (d : group_desc) (x : Z) : Prop :=
  x = gd_block_bitmap d \/ x = gd_inode_bitmap d \/ gd_inode_table d <= x < gd_inode_table d + s_itb_per_group sb.

Record bgroup_ok (s : sbi) (g : Z) (d : group_desc) (b : bitmap) : Prop := {
  bg_desc : desc_at sb s g = Some d;
  bg_bits : block_bits s (gd_block_bitmap d) = Some b;
  bg_len : bits_ok sb b;
  bg_free : gd_free_blocks_count d = zeros bpg b;
  bg_system x : system_block d x -> gfb g <= x < gfb g + bpg /\ b !! Z.to_nat (x - gfb g) = Some true;
  bg_tail i : 0 <= i < bpg -> es_blocks_count sb <= gfb g + i -> b !! Z.to_nat i = Some true;
  bg_distinct : gd_block_bitmap d <> gd_inode_bitmap d }.

Definition free_blocks_of (s : sbi) (g : Z) : Z := match desc_at sb s g with Some d => gd_free_blocks_count d | None => 0 end.

Definition total_free (s : sbi) : Z := sumz (free_blocks_of s) (Z.to_nat ngroups).

Definition groups_ok (s : sbi) : Prop := forall g, 0 <= g < ngroups -> exists d b, bgroup_ok s g d b.

Record balloc_ok (s : sbi) : Prop := { ba_groups : groups_ok s; ba_counter : s_freeblocks_counter s = total_free s }.

(** The bit of a block: [true] for a block in use. *)
Definition group_of (x : Z) : Z := (x - first) / bpg.
Definition bit_of (x : Z) : Z := (x - first) mod bpg.
Definition bbit (s : sbi) (x : Z) : option bool :=
  d ← desc_at sb s (group_of x); b ← block_bits s (gd_block_bitmap d); b !! Z.to_nat (bit_of x).

Lemma place g i : 0 <= i < bpg -> group_of (gfb g + i) = g /\ bit_of (gfb g + i) = i.
Proof using B.
  intros Hi. unfold group_of, bit_of, ext2_group_first_block_no. replace (g * bpg + first + i - first) with (i + g * bpg) by lia.
  rewrite Z.div_add, Z.mod_add by lia. rewrite Z.div_small, Z.mod_small by lia. lia.
Qed.

Lemma placed x : 0 <= bit_of x < bpg /\ x = gfb (group_of x) + bit_of x.
Proof using B.
  pose proof (bw_bpg (sb := sb)) as HB. unfold group_of, bit_of, ext2_group_first_block_no.
  pose proof (Z.mod_pos_bound (x - first) bpg ltac:(lia)). pose proof (Z.div_mod (x - first) bpg ltac:(lia)). lia.
Qed.

Lemma group_in_range x : first <= x < es_blocks_count sb -> 0 <= group_of x < ngroups.
Proof using B.
  intros Hx. pose proof (bw_bpg (sb := sb)) as HB. pose proof (bw_count (sb := sb)) as HC. unfold group_of, ext2_group_first_block_no in *.
  split; [apply Z.div_pos; lia|]. apply Z.div_lt_upper_bound; lia.
Qed.

Lemma group_bbit s g d b i : bgroup_ok s g d b -> 0 <= i < bpg -> bbit s (gfb g + i) = b !! Z.to_nat i.
Proof using B.
  intros Hgo Hi. unfold bbit. destruct (place g i Hi) as [-> ->]. rewrite (bg_desc _ _ _ _ Hgo). simpl.
  by rewrite (bg_bits _ _ _ _ Hgo).
Qed.

(** The bitmaps of different groups are different blocks, and no inode bitmap is one. *)
Lemma bitmaps_inj s g g' d d' b b' : bgroup_ok s g d b -> bgroup_ok s g' d' b' ->
  gd_block_bitmap d = gd_block_bitmap d' \/ gd_block_bitmap d = gd_inode_bitmap d' -> g = g' /\ gd_block_bitmap d = gd_block_bitmap d'.
Proof using B.
  intros H H' Heq. destruct (bg_system _ _ _ _ H (gd_block_bitmap d)) as [H1 _]; [by left|].
  assert (Hg : g = g').
  { pose proof (bw_bpg (sb := sb)). assert (H2 : gfb g' <= gd_block_bitmap d < gfb g' + bpg).
    { destruct Heq as [-> | ->]; apply (bg_system _ _ _ _ H'); [by left|right; by left]. }
    unfold ext2_group_first_block_no in *. nia. }
  subst g'. pose proof (bg_desc _ _ _ _ H). pose proof (bg_desc _ _ _ _ H'). assert (d = d') as <- by congruence.
  destruct Heq as [?|?]; [done|]. by destruct (bg_distinct _ _ _ _ H).
Qed.

(** ** The buffer cache *)

(** Only the cache differs, and there only the contents of one block. *)
Definition rewritten (s s' : sbi) (blk : Z) (b' : bitmap) : Prop :=
  exists m, s' = with_buffers m s /\ forall k, block_bits s' k = if decide (k = blk) then Some b' else block_bits s k.

(** Only the cache differs, with the same contents. *)
Definition cached (s s' : sbi) : Prop := exists m, s' = with_buffers m s /\ forall k, block_bits s' k = block_bits s k.

Lemma cached_refl s : cached s s.
Proof using. exists (s_buffers s). split; [by destruct s|done]. Qed.

Lemma cached_trans s s1 s2 : cached s s1 -> cached s1 s2 -> cached s s2.
Proof using. intros (m1 & -> & H1) (m2 & -> & H2). exists m2. split; [by destruct s|]. intros k. by rewrite H2, H1. Qed.

Lemma cached_rewritten s s1 s2 blk b : cached s s1 -> rewritten s1 s2 blk b -> rewritten s s2 blk b.
Proof using. intros (m1 & -> & H1) (m2 & -> & H2). exists m2. split; [by destruct s|]. intros k. rewrite H2, H1. done. Qed.

Lemma rewritten_same s s' blk b : block_bits s blk = Some b -> rewritten s s' blk b -> cached s s'.
Proof using. intros Hb (m & -> & H). exists m. split; [done|]. intros k. rewrite H. case_decide; [by subst k|done]. Qed.

Lemma buffer_set s blk b : rewritten s (set_buffer blk b s) blk b.
Proof using.
  exists (<[blk := b]> (s_buffers s)). split; [done|]. intros k. unfold Ext2IallocFacts.block_bits, set_buffer.
  replace (s_buffers (with_buffers _ s)) with (<[blk := b]> (s_buffers s)) by by destruct s.
  case_decide as Hk; [subst k; by rewrite lookup_insert_eq|by rewrite lookup_insert_ne by done].
Qed.

Lemma desc_with_buffers m s g : desc_at sb (with_buffers m s) g = desc_at sb s g.
Proof using. by destruct s. Qed.

Lemma cached_group s s' g d b : cached s s' -> bgroup_ok s g d b -> bgroup_ok s' g d b.
Proof using.
  intros (m & -> & H) [H1 H2 H3 H4 H5 H6 H7]. constructor; try done. { by rewrite desc_with_buffers. } by rewrite H.
Qed.

Lemma cached_groups s s' : cached s s' -> groups_ok s -> groups_ok s'.
Proof using. intros Hc H g Hg. destruct (H g Hg) as (d & b & Hgo). exists d, b. by eapply cached_group. Qed.

Lemma cached_total s s' : cached s s' -> total_free s' = total_free s /\ s_freeblocks_counter s' = s_freeblocks_counter s.
Proof using.
  intros (m & -> & _). split; [|by destruct s]. apply sumz_ext. intros i _. unfold free_blocks_of. by rewrite desc_with_buffers.
Qed.

Lemma cached_bbit s s' x : cached s s' -> bbit s' x = bbit s x.
Proof using.
  intros (m & -> & H). unfold bbit. rewrite desc_with_buffers. destruct (desc_at sb s (group_of x)) as [d|]; [|done].
  simpl. by rewrite H.
Qed.

Lemma bgroup_get s g d b : bgroup_ok s g d b -> 0 <= g < ngroups -> ext2_get_group_desc sb s g = Ok (Some d, s).
Proof using W. intros H Hg. exact (get_desc_ok sb s g d Hg (bg_desc _ _ _ _ H)). Qed.

(** The bitmap of a group in order passes the check. *)
Lemma valid_bitmap_ok s s' g d b : bgroup_ok s g d b -> 0 <= g < ngroups ->
  ext2_valid_block_bitmap sb s' d g b = Ok (true, s').
Proof using B.
  intros Hgo Hg. pose proof (gfb_bounds sb g Hg) as HG. pose proof (bw_bpg (sb := sb)) as HB. pose proof (bw_itb (sb := sb)) as HI.
  destruct (bg_len _ _ _ _ Hgo) as [Hlen _].
  assert (Hbit : forall x, system_block d x -> ext2_test_bit (i32 (x - gfb g)) b = Ok true /\ 0 <= x - gfb g < bpg).
  { intros x Hx. destruct (bg_system _ _ _ _ Hgo x Hx) as [Hr Hb]. rewrite i32_id by lia. split; [|lia].
    unfold ext2_test_bit. rewrite (proj2 (Z.ltb_ge _ _)) by lia. by rewrite Hb. }
  unfold ext2_valid_block_bitmap. destruct (Hbit (gd_block_bitmap d)) as [-> _]; [by left|]. cbn [rbind negb].
  destruct (Hbit (gd_inode_bitmap d)) as [-> _]; [right; by left|]. cbn [rbind negb].
  set (t := gd_inode_table d). set (itb := s_itb_per_group sb) in *.
  assert (Ht : forall x, t <= x < t + itb -> gfb g <= x < gfb g + bpg /\ b !! Z.to_nat (x - gfb g) = Some true).
  { intros x Hx. apply (bg_system _ _ _ _ Hgo). right. by right. }
  pose proof (proj1 (Ht t ltac:(lia))). pose proof (proj1 (Ht (t + itb - 1) ltac:(lia))).
  rewrite !(i32_id (t - gfb g)) by lia. rewrite !(u64_id (t - gfb g + itb)) by lia.
  destruct (find_next_zero_spec b (t - gfb g + itb) (t - gfb g)) as (r & -> & Hr & _); [lia..|]. cbn [rbind].
  destruct Hr as [[Hr Hbad]| ->].
  - exfalso. destruct (Ht (r + gfb g) ltac:(lia)) as [_ Hok]. replace (r + gfb g - gfb g) with r in Hok by lia. congruence.
  - rewrite i32_id, u64_id, Z.leb_refl by lia. done.
Qed.

Lemma read_block_ok s g d b : bgroup_ok s g d b -> 0 <= g < ngroups ->
  exists s', read_block_bitmap sb s g = Ok (Some (gd_block_bitmap d, b), s') /\ cached s s'.
Proof using W B.
  intros Hgo Hg. unfold read_block_bitmap. rewrite (bgroup_get s g d b) by done. cbn [rbind].
  pose proof (bg_bits _ _ _ _ Hgo) as Hb. unfold Ext2IallocFacts.block_bits in Hb.
  destruct (s_buffers s !! gd_block_bitmap d) as [b'|] eqn:E.
  { injection Hb as ->. exists s. split; [done|apply cached_refl]. }
  rewrite Hb. rewrite (valid_bitmap_ok s _ g d b) by done. cbn [rbind]. eexists. split; [done|].
  eapply rewritten_same; [apply Hgo|apply buffer_set].
Qed.

(** ** Changing the bitmap of a group *)

(** The inode allocator's part of the file system is the same. *)
Definition inode_side (s s' : sbi) : Prop :=
  (forall g, 0 <= g < ngroups -> ibits sb s' g = ibits sb s g /\
     exists d x, desc_at sb s g = Some d /\ desc_at sb s' g = Some (with_free_blocks x d)) /\
  s_debts s' = s_debts s.

Lemma inode_side_trans s s1 s2 : inode_side s s1 -> inode_side s1 s2 -> inode_side s s2.
Proof using.
  intros [H1 D1] [H2 D2]. split; [|congruence]. intros g Hg. destruct (H1 g Hg) as (I1 & d & x & E1 & F1).
  destruct (H2 g Hg) as (I2 & d2 & y & E2 & F2). split; [congruence|]. exists d, y. split; [done|]. rewrite F2.
  rewrite F1 in E2. injection E2 as <-. by destruct d.
Qed.

Lemma cached_inode_side s s' : groups_ok s -> cached s s' -> inode_side s s'.
Proof using.
  intros Hs (m & -> & H). split; [|by destruct s]. intros g Hg. destruct (Hs g Hg) as (d & b & Hgo). split.
  - unfold ibits. rewrite desc_with_buffers. destruct (desc_at sb s g); [|done]. simpl. apply H.
  - exists d, (gd_free_blocks_count d). rewrite desc_with_buffers, (bg_desc _ _ _ _ Hgo). split; [done|]. by destruct d.
Qed.

Lemma inode_side_refl s : groups_ok s -> inode_side s s.
Proof using. intros Hg. apply cached_inode_side; [done|apply cached_refl]. Qed.

Lemma inode_side_ok s s' : inode_side s s' -> ialloc_ok sb s -> ialloc_ok sb s'.
Proof using W.
  intros [H D] [H1 H2 H3 H4 H5]. constructor; [| | |by rewrite D|done].
  - intros g Hg. destruct (H g Hg) as (I & d & x & E & F). destruct (H1 g Hg) as (d0 & b & [G1 G2 G3 G4 G5]).
    assert (d0 = d) as -> by congruence. exists (with_free_blocks x d), b. constructor; [done| |done|by destruct d..].
    unfold ibits in I. rewrite F, E in I. simpl in I. rewrite <- G2, <- I. by destruct d.
  - intros g g' d d' Hg Hg' E E' Heq. destruct (H g Hg) as (_ & d0 & x & F0 & F). destruct (H g' Hg') as (_ & d0' & x' & F0' & F').
    apply (H2 g g' d0 d0'); [done..|]. rewrite F in E. rewrite F' in E'. injection E as <-. injection E' as <-. by destruct d0, d0'.
  - intros ino Hino. destruct (H3 ino Hino) as (b & Hb & Hbit). exists b. split; [|done].
    destruct (H ((ino - 1) / EXT2_INODES_PER_GROUP sb)) as [-> _]; [|done].
    pose proof (wf_first (sb := sb)). pose proof (wf_inodes (sb := sb)). split; [apply Z.div_pos; lia|apply Z.div_lt_upper_bound; lia].
Qed.

(** The descriptor that goes with the new bitmap. *)
Lemma adjust_desc s1 g d k g' b b' : 0 <= g < ngroups -> 0 <= g' -> desc_at sb s1 g = Some d ->
  gd_free_blocks_count d = zeros bpg b -> zeros bpg b' = zeros bpg b + k ->
  desc_at sb (group_adjust_blocks sb s1 g d k) g' =
    if decide (g' = g) then Some (with_free_blocks (zeros bpg b') d) else desc_at sb s1 g'.
Proof using W B.
  intros Hg Hg' Hd Hf Hz. pose proof (bw_bpg (sb := sb)). pose proof (zeros_bounds bpg b' ltac:(lia)). unfold group_adjust_blocks.
  destruct (Z.eqb_spec k 0) as [->|].
  - case_decide; [subst g'|done]. rewrite Hd. rewrite Hz, Z.add_0_r, <- Hf. by destruct d.
  - rewrite (desc_at_set sb s1 g g' _ d) by done. case_decide; [|done]. rewrite Hf, <- Hz, u16_id by lia. done.
Qed.

Lemma adjust_frame s g d k : block_bits (group_adjust_blocks sb s g d k) = block_bits s /\
  s_freeblocks_counter (group_adjust_blocks sb s g d k) = s_freeblocks_counter s /\
  s_debts (group_adjust_blocks sb s g d k) = s_debts s.
Proof using. unfold group_adjust_blocks. destruct (k =? 0); [done|]. by destruct s. Qed.

Lemma group_change s s1 g d b b' k : groups_ok s -> 0 <= g < ngroups -> bgroup_ok s g d b ->
  rewritten s s1 (gd_block_bitmap d) b' -> zeros bpg b' = zeros bpg b + k -> length b' = length b ->
  (forall i, 0 <= i < bpg -> system_block d (gfb g + i) \/ es_blocks_count sb <= gfb g + i -> b' !! Z.to_nat i = Some true) ->
  let s' := group_adjust_blocks sb s1 g d k in
  groups_ok s' /\ total_free s' = total_free s + k /\ s_freeblocks_counter s' = s_freeblocks_counter s /\ inode_side s s' /\
  (forall y, 0 <= group_of y < ngroups -> bbit s' y = if decide (group_of y = g) then b' !! Z.to_nat (bit_of y) else bbit s y).
Proof using W B.
  intros Hs Hg Hgo (m & -> & Hbits) Hz Hl Hkeep s'. destruct (adjust_frame (with_buffers m s) g d k) as (Eb & Ec & Ed). fold s' in Eb, Ec, Ed.
  assert (Hdesc : forall g', 0 <= g' -> desc_at sb s' g' =
    if decide (g' = g) then Some (with_free_blocks (zeros bpg b') d) else desc_at sb s g').
  { intros g' Hg'. unfold s'. rewrite (adjust_desc _ g d k g' b b'); rewrite ?desc_with_buffers; try done; [apply Hgo|].
    by rewrite (bg_free _ _ _ _ Hgo). }
  assert (Hother : forall g' d' c, bgroup_ok s g' d' c -> g' <> g -> block_bits s' (gd_block_bitmap d') = Some c).
  { intros g' d' c Hgo' Hne. rewrite Eb, Hbits, decide_False; [apply Hgo'|]. intros Heq.
    destruct (bitmaps_inj s g' g d' d c b Hgo' Hgo); [by left|done]. }
  split; [|split; [|split; [rewrite Ec; by destruct s|split]]].
  - intros g' Hg'. destruct (Hs g' Hg') as (d' & c & Hgo'). destruct (decide (g' = g)) as [->|Hne].
    + exists (with_free_blocks (zeros bpg b') d), b'. destruct Hgo as [G1 G2 G3 G4 G5 G6 G7]. constructor.
      * by rewrite Hdesc, decide_True by lia.
      * rewrite Eb, Hbits, decide_True by (by destruct d). done.
      * unfold bits_ok in *. by rewrite Hl.
      * by destruct d.
      * intros x Hx. assert (Hx' : system_block d x) by (by destruct d). destruct (G5 x Hx') as [Hr _]. split; [done|].
        apply Hkeep; [lia|]. left. by replace (gfb g + (x - gfb g)) with x by lia.
      * intros i Hi Ht. apply Hkeep; [done|by right].
      * by destruct d.
    + exists d', c. pose proof (Hother g' d' c Hgo' Hne) as Hb'. destruct Hgo' as [G1 G2 G3 G4 G5 G6 G7]. constructor; try done.
      by rewrite Hdesc, decide_False by lia.
  - unfold total_free. rewrite (sumz_change (free_blocks_of s) (free_blocks_of s') _ g); [|lia|].
    + unfold free_blocks_of. rewrite Hdesc, decide_True, (bg_desc _ _ _ _ Hgo) by lia. rewrite (bg_free _ _ _ _ Hgo).
      destruct d; cbn. lia.
    + intros i Hi Hne. unfold free_blocks_of. by rewrite Hdesc, decide_False by lia.
  - split; [|rewrite Ed; by destruct s]. intros g' Hg'. destruct (Hs g' Hg') as (d' & c & Hgo'). split.
    + unfold ibits. rewrite Hdesc by lia. pose proof (bg_desc _ _ _ _ Hgo') as E'. destruct (decide (g' = g)) as [->|].
      * rewrite E'. assert (d' = d) as -> by (rewrite (bg_desc _ _ _ _ Hgo) in E'; congruence). simpl.
        replace (gd_inode_bitmap (with_free_blocks _ d)) with (gd_inode_bitmap d) by by destruct d.
        rewrite Eb, Hbits, decide_False; [done|]. intros Heq. by destruct (bg_distinct _ _ _ _ Hgo).
      * rewrite E'. simpl. rewrite Eb, Hbits, decide_False; [done|]. intros Heq.
        destruct (bitmaps_inj s g g' d d' b c Hgo Hgo'); [by right|done].
    + rewrite Hdesc by lia. pose proof (bg_desc _ _ _ _ Hgo') as E'. destruct (decide (g' = g)) as [->|].
      * exists d, (zeros bpg b'). split; [apply Hgo|done].
      * exists d', (gd_free_blocks_count d'). split; [done|]. rewrite E'. by destruct d'.
  - intros y Hy. unfold bbit at 1. rewrite Hdesc by lia. case_decide as Hyg.
    + simpl. replace (gd_block_bitmap (with_free_blocks _ d)) with (gd_block_bitmap d) by by destruct d.
      by rewrite Eb, Hbits, decide_True.
    + destruct (Hs (group_of y) Hy) as (d' & c & Hgo'). unfold bbit. rewrite (bg_desc _ _ _ _ Hgo'). simpl.
      by rewrite (Hother _ _ _ Hgo' Hyg), (bg_bits _ _ _ _ Hgo').
Qed.
End BallocFacts.
