(* ===== verification/Ext2BallocAlloc.v ===== *)
(** * ext2: ext2_new_blocks

    The search of the groups and the accounting of [ext2_new_blocks] of
    [fs/ext2/balloc.c]: with or without a reservation it takes a run of free blocks, and it
    gives up only when no group has a free block. *)

From S2P Require Import Prelude CString ByteMem Ext2Layout Ext2Dir Ext2Super Ext2Inode Ext2Ialloc Ext2IallocFacts.
From S2P Require Import Ext2Balloc Ext2BallocBits Ext2BallocRsv Ext2BallocGroup Ext2BallocFacts.

Section AllocFacts.
Context (rb : rb_lib) {L : RbLaws rb} (sb : sb_info) {W : SbWf sb} {B : BlkWf sb} (env : block_env).

Notation ngroups := (s_groups_count sb).
Notation bpg := (EXT2_BLOCKS_PER_GROUP sb).
Notation gfb := (ext2_group_first_block_no sb).

(** ** Windows *)

(** At most the window of this inode has changed. *)
Definition win_kept (w w' : rsv_state) (ino : Z) : Prop :=
  win_ok rb w' /\ (w' = w \/ exists n, only_node w w' ino n /\ 1 <= rsv_goal_size n).

Lemma win_kept_refl w ino : win_ok rb w -> win_kept w w ino.
Proof using. intros H. split; [done|by left]. Qed.

Lemma win_kept_trans w w1 w2 ino : win_kept w w1 ino -> win_kept w1 w2 ino -> win_kept w w2 ino.
Proof using.
  intros [_ H1] [H2 H3]. split; [done|]. destruct H3 as [-> |(n & Ho & Hn)]; [done|]. right. exists n. split; [|done].
  destruct H1 as [-> |(n1 & Ho1 & _)]; [done|by eapply only_node_trans].
Qed.

(** A reservation that is used is that of the inode, with a window size. *)
Definition my_ok (w : rsv_state) (ino : Z) (my_rsv : option Z) : Prop :=
  my_rsv = None \/ my_rsv = Some ino /\ ino <> 0 /\ exists m, rsv_nodes w !! ino = Some m /\ 1 <= rsv_goal_size m.

Lemma win_kept_my w w' ino my_rsv : win_kept w w' ino -> my_ok w ino my_rsv -> my_ok w' ino my_rsv.
Proof using.
  intros [_ Hk] [-> |(-> & H0 & m & Hm & Hg)]; [by left|right]. split; [done|]. split; [done|].
  destruct Hk as [-> |(n & Ho & Hn)]; [by exists m|]. exists n. split; [by eapply only_node_lookup|done].
Qed.

(** ** One group *)

(** A search has claimed a run of free blocks of a group. *)
Record found (s s' : sbi) (num : Z) (g : Z) (d : group_desc) (b : bitmap) (i : Z) (n : nat) : Prop := {
  fd_range : 0 <= g < ngroups;
  fd_group : bgroup_ok sb s g d b;
  fd_bits : rewritten sb s s' (gd_block_bitmap d) (put_range true n i b);
  fd_run : 0 <= i /\ i + Z.of_nat n <= bpg /\ 1 <= Z.of_nat n <= Z.max 1 num;
  fd_free : all_bits false b i (i + Z.of_nat n) }.

Lemma cached_group_back s s' g d b : cached sb s s' -> bgroup_ok sb s' g d b -> bgroup_ok sb s g d b.
Proof using.
  intros (m & -> & H) [H1 H2 H3 H4 H5 H6 H7]. constructor; try done. { by rewrite desc_with_buffers in H1. } by rewrite <- H.
Qed.

Lemma found_cached s s1 s' num num' g d b i n : cached sb s s1 -> num <= num' -> found s1 s' num g d b i n -> found s s' num' g d b i n.
Proof using.
  intros Hc Hn [H1 H2 H3 H4 H5]. constructor; [done|by eapply cached_group_back|by eapply cached_rewritten|lia|done].
Qed.

(** What a search ends with; [P] is what it has learnt when it found nothing. *)
Definition outcome (s : sbi) (num : Z) (P : Prop) (a : attempt) (s' : sbi) : Prop :=
  (exists num', a = NotFound num' /\ 0 <= num' <= num /\ cached sb s s' /\ P) \/
  (exists g d b i n, a = Allocated g d i (Z.of_nat n) /\ found s s' num g d b i n).

Lemma try_group_spec s w c ino my_rsv g d b goal num : win_ok rb w -> my_ok w ino my_rsv -> bgroup_ok sb s g d b ->
  0 <= g < ngroups -> -1 <= goal < bpg -> 0 <= num < 2 ^ 30 ->
  exists a s' w', try_group rb sb env (BState s w c) g d goal my_rsv num = Ok (a, BState s' w' c) /\ win_kept w w' ino /\
    outcome s num (my_rsv = None -> goal <= 0 -> zeros bpg b = 0) a s'.
Proof using L W B.
  intros Hw Hmy Hgo Hg Hgoal Hnum. unfold try_group. cbn [b_sbi b_rsv b_charged].
  destruct (read_block_ok sb s g d b Hgo Hg) as (s1 & -> & Hc). cbn [rbind].
  destruct (with_rsv_spec rb sb env w b my_rsv g goal num (bg_len _ _ _ _ _ Hgo) Hw Hg Hgoal Hnum) as (ret & n & w' & b' & -> & Hw' & Hk & Hcl & Hn & Hz).
  { destruct Hmy as [-> |(-> & Hmy)]; [done|exact Hmy]. }
  cbn [rbind]. eexists _, _, w'. split; [done|]. split.
  { split; [done|]. destruct Hmy as [-> |(-> & _)]; [by left|right]. done. }
  pose proof (buffer_set sb s1 (gd_block_bitmap d) b') as Hrw.
  destruct Hcl as [[-> ->]|(k & -> & -> & Hr & Hrk & Hk' & Hfree)].
  - left. exists n. specialize (Hn eq_refl). split; [done|]. split; [lia|]. split.
    + eapply cached_trans; [exact Hc|]. eapply rewritten_same; [|exact Hrw]. apply (cached_group sb s s1 g d b Hc Hgo).
    + intros E Hgo0. destruct (bg_len _ _ _ _ _ Hgo) as [Hlen _]. pose proof (bw_bpg (sb := sb)).
      apply zeros_none; [lia|]. by apply Hz.
  - right. exists g, d, b, ret, k. rewrite (proj2 (Z.leb_le _ _)) by done. split; [done|]. constructor; try done.
    by eapply cached_rewritten.
Qed.

(** ** All groups *)

Lemma next_group g : 0 <= g < ngroups -> (if ngroups <=? g + 1 then 0 else g + 1) = (g + 1) mod ngroups.
Proof using.
  intros Hg. destruct (Z.leb_spec ngroups (g + 1)); [|rewrite Z.mod_small; lia].
  replace (g + 1) with ngroups by lia. rewrite Z.mod_same; lia.
Qed.

Lemma group_loop_spec ino my_rsv wsz c n : forall s w group num, groups_ok sb s -> win_ok rb w -> my_ok w ino my_rsv ->
  0 <= group < ngroups -> 0 <= num < 2 ^ 30 ->
  exists a s' w', group_loop rb sb env n (BState s w c) group my_rsv wsz num = Ok (a, BState s' w' c) /\ win_kept w w' ino /\
    outcome s num (my_rsv = None -> forall j, 1 <= j <= Z.of_nat n -> free_blocks_of sb s ((group + j) mod ngroups) = 0) a s'.
Proof using L W B.
  pose proof (bw_groups (sb := sb)) as HN. pose proof (bw_bpg (sb := sb)) as HB.
  induction n as [|n IH]; intros s w group num Hs Hw Hmy Hg Hnum; cbn [group_loop].
  { eexists _, s, w. split; [done|]. split; [by apply win_kept_refl|]. left. exists num. split; [done|]. split; [lia|].
    split; [apply cached_refl|]. intros; lia. }
  rewrite (next_group group Hg). pose proof (Z.mod_pos_bound (group + 1) ngroups ltac:(lia)) as Hg1. set (g := (group + 1) mod ngroups) in *.
  cbn [b_sbi b_rsv b_charged]. destruct (Hs g Hg1) as (d & b & Hgo). rewrite (bgroup_get sb s g d b) by done. cbn [rbind].
  assert (Hnext : forall s1 w1 num1, cached sb s s1 -> win_kept w w1 ino -> 0 <= num1 <= num -> (my_rsv = None -> free_blocks_of sb s g = 0) ->
    exists a s' w', group_loop rb sb env n (BState s1 w1 c) g my_rsv wsz num1 = Ok (a, BState s' w' c) /\ win_kept w w' ino /\
      outcome s num (my_rsv = None -> forall j, 1 <= j <= Z.of_nat (S n) -> free_blocks_of sb s ((group + j) mod ngroups) = 0) a s').
  { intros s1 w1 num1 Hc Hk Hn1 Hzero.
    destruct (IH s1 w1 g num1) as (a & s' & w' & E & Hk' & Ho); [by eapply cached_groups|apply Hk|by eapply win_kept_my|done|lia|].
    exists a, s', w'. split; [done|]. split; [by eapply win_kept_trans|].
    destruct Ho as [(num' & -> & Hn' & Hc' & Hz)|(g' & d' & b' & i & k & -> & Hf)].
    - left. exists num'. split; [done|]. split; [lia|]. split; [by eapply cached_trans|]. intros Em j Hj.
      destruct (decide (j = 1)) as [->|]; [by apply Hzero|]. specialize (Hz Em (j - 1) ltac:(lia)). unfold g in Hz.
      rewrite Zplus_mod_idemp_l in Hz. replace (group + 1 + (j - 1)) with (group + j) in Hz by lia. rewrite <- Hz.
      destruct Hc as (m & -> & _). unfold free_blocks_of. by rewrite desc_with_buffers.
    - right. exists g', d', b', i, k. split; [done|]. eapply found_cached; [done| |exact Hf]. lia. }
  assert (Hfree : free_blocks_of sb s g = zeros bpg b).
  { unfold free_blocks_of. rewrite (bg_desc _ _ _ _ _ Hgo). apply Hgo. }
  destruct (Z.eqb_spec (gd_free_blocks_count d) 0) as [E0|E0].
  { apply Hnext; [apply cached_refl|by apply win_kept_refl|lia|]. intros _. rewrite Hfree, <- E0. symmetry. apply Hgo. }
  destruct (has_rsv my_rsv && _) eqn:Eskip.
  { apply Hnext; [apply cached_refl|by apply win_kept_refl|lia|]. intros ->. done. }
  destruct (try_group_spec s w c ino my_rsv g d b (-1) num Hw Hmy Hgo Hg1 ltac:(lia) Hnum) as (a & s1 & w1 & -> & Hk & Ho). cbn [rbind].
  destruct Ho as [(num1 & -> & Hn1 & Hc & Hz)|(g' & d' & b' & i & k & -> & Hf)].
  - apply Hnext; [done|done|done|]. intros Em. rewrite Hfree. apply Hz; [done|lia].
  - eexists _, s1, w1. split; [done|]. split; [done|]. right. by exists g', d', b', i, k.
Qed.

(** ** Accounting *)

(** The block is one that the group needs for itself. *)
Definition is_system (s : sbi) (y : Z) : Prop := exists d, desc_at sb s (group_of sb y) = Some d /\ system_block sb d y.

(** The bits of a run of blocks have become [v], and the counts of free blocks say so. *)
Record flipped (s s' : sbi) (v : bool) (x n : Z) : Prop := {
  fl_groups : groups_ok sb s';
  fl_total : total_free sb s' = total_free sb s + (if v then - n else n);
  fl_inodes : inode_side sb s s';
  fl_bits y : 0 <= group_of sb y < ngroups -> bbit sb s' y = if decide (x <= y < x + n) then Some v else bbit sb s y }.

(** They were free blocks of the data zone. *)
Definition free_run (s : sbi) (x n : Z) : Prop :=
  es_first_data_block sb <= x /\ x + n <= es_blocks_count sb /\
  forall y, x <= y < x + n -> bbit sb s y = Some false /\ ~ is_system s y.

Lemma freeblocks_frame c s : desc_at sb (with_freeblocks c s) = desc_at sb s /\
  block_bits sb (with_freeblocks c s) = block_bits sb s /\ s_debts (with_freeblocks c s) = s_debts s /\
  s_freeblocks_counter (with_freeblocks c s) = c.
Proof using. by destruct s. Qed.

(** The counter is not part of the groups. *)
Lemma flipped_counter s s' v x n c : flipped s s' v x n -> flipped s (with_freeblocks c s') v x n.
Proof using.
  destruct s' as [a b e f h i j k]. intros [H1 H2 H3 H4]. constructor; [|exact H2|exact H3|exact H4].
  intros g Hg. destruct (H1 g Hg) as (d & bm & [G1 G2 G3 G4 G5 G6 G7]). exists d, bm. by constructor.
Qed.

Lemma run_bits g i n b y : 0 <= i -> i + Z.of_nat n <= bpg -> bits_ok sb b -> group_of sb y = g -> forall v,
  put_range v n i b !! Z.to_nat (bit_of sb y) =
  if decide (gfb g + i <= y < gfb g + i + Z.of_nat n) then Some v else b !! Z.to_nat (bit_of sb y).
Proof using B.
  intros Hi Hn [Hl _] Hg v. destruct (placed sb y) as [Hb Hy]. rewrite Hg in Hy.
  rewrite put_range_lookup by lia. repeat case_decide; (done || lia).
Qed.

(** A run lies in one group. *)
Lemma run_group g i n y : 0 <= i -> i + Z.of_nat n <= bpg -> gfb g + i <= y < gfb g + i + Z.of_nat n -> group_of sb y = g.
Proof using B.
  intros Hi Hn Hy. replace y with (gfb g + (y - gfb g)) by lia. apply (place sb g (y - gfb g)). lia.
Qed.

(** A run without system blocks passes the check. *)
Lemma run_outside_zone s g d b i n : bgroup_ok sb s g d b -> 0 <= g < ngroups -> 0 <= i -> i + Z.of_nat n <= bpg -> 1 <= Z.of_nat n ->
  (forall y, gfb g + i <= y < gfb g + i + Z.of_nat n -> ~ system_block sb d y) ->
  system_zone sb d (gfb g + i) (Z.of_nat n) = false.
Proof using B.
  intros Hgo Hg Hi Hin Hn Hsys. pose proof (gfb_bounds sb g Hg) as HG. pose proof (bw_bpg (sb := sb)) as HB.
  pose proof (bw_itb (sb := sb)). unfold system_zone, in_range. rewrite (u64_id (gfb g + i + Z.of_nat n - 1)) by lia.
  assert (Hbm : forall x, system_block sb d x -> (gfb g + i <=? x) && (x <=? gfb g + i + Z.of_nat n - 1) = false).
  { intros x Hx. apply andb_false_iff. destruct (Z.leb_spec (gfb g + i) x); [right|by left]. apply Z.leb_gt.
    destruct (Z.le_gt_cases x (gfb g + i + Z.of_nat n - 1)); [|lia]. exfalso. apply (Hsys x); [lia|done]. }
  assert (Htab : forall x, gfb g + i <= x < gfb g + i + Z.of_nat n ->
    (gd_inode_table d <=? x) && (x <=? u64 (gd_inode_table d + s_itb_per_group sb - 1)) = false).
  { intros x Hx. destruct (bg_system _ _ _ _ _ Hgo (gd_inode_table d)) as [Hr _]; [right; right; lia|]. rewrite u64_id by lia.
    apply andb_false_iff. destruct (Z.leb_spec (gd_inode_table d) x); [right|by left]. apply Z.leb_gt.
    destruct (Z.le_gt_cases x (gd_inode_table d + s_itb_per_group sb - 1)); [|lia]. exfalso. apply (Hsys x Hx). right. right. lia. }
  rewrite (Hbm (gd_block_bitmap d)), (Hbm (gd_inode_bitmap d)) by (unfold system_block; auto). rewrite !Htab by lia. done.
Qed.

Lemma found_free s s' num g d b i n : groups_ok sb s -> found s s' num g d b i n ->
  free_run s (gfb g + i) (Z.of_nat n) /\ system_zone sb d (gfb g + i) (Z.of_nat n) = false.
Proof using B.
  intros Hs [Hg Hgo Hbits (Hi & Hin & Hn) Hfree]. pose proof (gfb_bounds sb g Hg) as HG. pose proof (bw_bpg (sb := sb)) as HB.
  assert (Hsys : forall y, gfb g + i <= y < gfb g + i + Z.of_nat n -> ~ system_block sb d y).
  { intros y Hy Hsy. destruct (bg_system _ _ _ _ _ Hgo y Hsy) as [_ Ht]. rewrite (Hfree (y - gfb g)) in Ht by lia. done. }
  split; [split; [|split]|].
  - pose proof (bw_first (sb := sb)). unfold ext2_group_first_block_no in *. nia.
  - destruct (Z.le_gt_cases (gfb g + i + Z.of_nat n) (es_blocks_count sb)); [done|]. exfalso.
    assert (Ht : b !! Z.to_nat (i + Z.of_nat n - 1) = Some true) by (apply (bg_tail _ _ _ _ _ Hgo); lia).
    rewrite (Hfree (i + Z.of_nat n - 1)) in Ht by lia. done.
  - intros y Hy. pose proof (run_group g i n y Hi Hin Hy) as Eg. split.
    + replace y with (gfb g + (y - gfb g)) by lia. rewrite (group_bbit sb s g d b) by (done || lia). apply Hfree. lia.
    + intros (d' & Hd' & Hsy). rewrite Eg, (bg_desc _ _ _ _ _ Hgo) in Hd'. injection Hd' as <-. by apply (Hsys y).
  - apply (run_outside_zone s g d b); (done || lia).
Qed.

Lemma found_flipped s s1 num g d b i n : groups_ok sb s -> found s s1 num g d b i n ->
  flipped s (group_adjust_blocks sb s1 g d (- Z.of_nat n)) true (gfb g + i) (Z.of_nat n) /\
  s_freeblocks_counter (group_adjust_blocks sb s1 g d (- Z.of_nat n)) = s_freeblocks_counter s.
Proof using W B.
  intros Hs [Hg Hgo Hbits (Hi & Hin & Hn) Hfree]. pose proof (bg_len _ _ _ _ _ Hgo) as Hlen.
  destruct (group_change sb s s1 g d b (put_range true n i b) (- Z.of_nat n) Hs Hg Hgo Hbits) as (G1 & G2 & G3 & G4 & G5).
  - rewrite put_range_zeros by (done || lia). lia.
  - apply put_range_length.
  - intros j Hj Hkeep. destruct Hlen as [Hl _]. rewrite put_range_lookup by lia. case_decide; [done|].
    destruct Hkeep as [Hsy|Ht]; [|by apply (bg_tail _ _ _ _ _ Hgo)].
    destruct (bg_system _ _ _ _ _ Hgo _ Hsy) as [_ Hb]. by replace (gfb g + j - gfb g) with j in Hb by lia.
  - split; [|exact G3]. constructor; [exact G1|exact G2|exact G4|]. intros y Hy. rewrite G5 by done. case_decide as Hyg.
    + rewrite run_bits with (g := g) by (done || lia). case_decide; [done|].
      replace y with (gfb g + bit_of sb y) at 2 by (destruct (placed sb y) as [_ E]; rewrite Hyg in E; lia).
      symmetry. apply (group_bbit sb s g d b); [done|]. apply (placed sb y).
    + rewrite decide_False; [done|]. intros Hr. apply Hyg. by eapply run_group.
Qed.

(** ** The whole search *)

Lemma keep_rsv_spec w ino my_rsv free wsz : my_ok w ino my_rsv ->
  exists my', keep_rsv w my_rsv free wsz = Ok my' /\ my_ok w ino my' /\ (my_rsv = None -> my' = None).
Proof using.
  unfold keep_rsv. intros [-> |(-> & H0 & m & Hm & Hg)]; [exists None; split; [done|]; split; [by left|done]|].
  rewrite (get_node_ok w ino m) by done. cbn [rbind]. destruct (_ && _).
  - exists None. split; [done|]. split; [by left|done].
  - exists (Some ino). split; [done|]. split; [|done]. right. split; [done|]. split; [done|]. by exists m.
Qed.

Lemma search_groups_spec s w c ino my_rsv wsz g d b goal num : groups_ok sb s -> win_ok rb w -> my_ok w ino my_rsv ->
  bgroup_ok sb s g d b -> 0 <= g < ngroups -> 0 <= num < 2 ^ 30 ->
  exists a s' w', search_groups rb sb env (BState s w c) g d goal my_rsv wsz num = Ok (a, BState s' w' c) /\ win_kept w w' ino /\
    outcome s num (my_rsv = None -> forall g, 0 <= g < ngroups -> free_blocks_of sb s g = 0) a s'.
Proof using L W B.
  intros Hs Hw Hmy Hgo Hg Hnum. pose proof (bw_bpg (sb := sb)) as HB. pose proof (bw_groups (sb := sb)) as HN. unfold search_groups.
  assert (Hloop : forall s1 w1 num1, cached sb s s1 -> win_kept w w1 ino -> 0 <= num1 <= num ->
    exists a s' w', group_loop rb sb env (Z.to_nat ngroups) (BState s1 w1 c) g my_rsv wsz num1 = Ok (a, BState s' w' c) /\ win_kept w w' ino /\
      outcome s num (my_rsv = None -> forall g, 0 <= g < ngroups -> free_blocks_of sb s g = 0) a s').
  { intros s1 w1 num1 Hc Hk Hn1.
    destruct (group_loop_spec ino my_rsv wsz c (Z.to_nat ngroups) s1 w1 g num1) as (a & s' & w' & E & Hk' & Ho);
      [by eapply cached_groups|apply Hk|by eapply win_kept_my|done|lia|].
    exists a, s', w'. split; [done|]. split; [by eapply win_kept_trans|].
    destruct Ho as [(num' & -> & Hn' & Hc' & Hz)|(g' & d' & b' & i & k & -> & Hf)].
    - left. exists num'. split; [done|]. split; [lia|]. split; [by eapply cached_trans|]. intros Em g' Hg'.
      destruct (group_reached sb (g + 1) g' ltac:(lia) Hg') as (j & Hj & <-). specialize (Hz Em (1 + j) ltac:(lia)).
      rewrite Z.add_assoc in Hz. rewrite <- Hz. destruct Hc as (m & -> & _). unfold free_blocks_of. by rewrite desc_with_buffers.
    - right. exists g', d', b', i, k. split; [done|]. eapply found_cached; [done| |exact Hf]. lia. }
  destruct (Z.ltb_spec 0 (gd_free_blocks_count d)); cbn [rbind].
  - pose proof (Z.mod_pos_bound (goal - es_first_data_block sb) bpg ltac:(lia)). rewrite i32_id by lia.
    destruct (try_group_spec s w c ino my_rsv g d b ((goal - es_first_data_block sb) mod bpg) num Hw Hmy Hgo Hg ltac:(lia) Hnum)
      as (a & s1 & w1 & -> & Hk & Ho). cbn [rbind].
    destruct Ho as [(num1 & -> & Hn1 & Hc & _)|(g' & d' & b' & i & k & -> & Hf)]; [by apply Hloop|].
    eexists _, s1, w1. split; [done|]. split; [done|]. right. by exists g', d', b', i, k.
  - apply Hloop; [apply cached_refl|by apply win_kept_refl|lia].
Qed.

(** The blocks charged to an inode. *)
Definition blocks_charged (st : bstate) (y : Z) : Z := default 0 (b_charged st !! y).

Lemma charge_spec ino n st y : blocks_charged (charge ino n st) y = blocks_charged st y + (if decide (y = ino) then n else 0).
Proof using.
  unfold blocks_charged, charge. cbn [b_charged]. case_decide as E; [subst; by rewrite lookup_insert_eq|].
  rewrite lookup_insert_ne by done. lia.
Qed.

(** How [retry_alloc] ends, from a state in which [count] blocks are charged. *)
Definition retried (st : bstate) (ino count err n x : Z) (st' : bstate) : Prop :=
  win_kept (b_rsv st) (b_rsv st') ino /\
  (err = 0 /\ 1 <= n <= count /\ free_run (b_sbi st) x n /\ flipped (b_sbi st) (b_sbi st') true x n /\
   s_freeblocks_counter (b_sbi st') = s_freeblocks_counter (b_sbi st) - n /\
   (forall y, blocks_charged st' y = blocks_charged st y - (if decide (y = ino) then count - n else 0)) \/
   err = - ENOSPC /\ n = count /\ x = 0 /\ cached sb (b_sbi st) (b_sbi st') /\
   (forall g, 0 <= g < ngroups -> free_blocks_of sb (b_sbi st) g = 0) /\
   (forall y, blocks_charged st' y = blocks_charged st y - (if decide (y = ino) then count else 0))).

Lemma account_spec s s1 w w' c ino count num g d b i n : groups_ok sb s -> found s s1 num g d b i n -> win_kept w w' ino ->
  num <= count -> 1 <= count ->
  exists x k st', account_blocks sb (BState s1 w' c) ino count g d (gfb g + i) (Z.of_nat n) = (0, k, x, st') /\
    retried (BState s w c) ino count 0 k x st'.
Proof using L W B.
  intros Hs Hf Hk Hnum Hcount. destruct (found_free s s1 num g d b i n Hs Hf) as [Hfree _].
  destruct (found_flipped s s1 num g d b i n Hs Hf) as [Hfl Hcnt]. pose proof (fd_run _ _ _ _ _ _ _ _ Hf) as (Hi & Hin & Hn).
  pose proof (gfb_bounds sb g (fd_range _ _ _ _ _ _ _ _ Hf)). pose proof (bw_bpg (sb := sb)). destruct Hfree as (H1 & H2 & H3).
  unfold account_blocks. cbn [b_sbi b_rsv b_charged]. rewrite u64_id, (proj2 (Z.leb_gt _ _)) by lia.
  set (s2 := group_adjust_blocks sb s1 g d (- Z.of_nat n)) in *. eapply flipped_counter in Hfl as Hfl'.
  destruct (freeblocks_frame (s_freeblocks_counter s2 - Z.of_nat n) s2) as (_ & _ & _ & Hc2).
  assert (Hends : forall st', b_rsv st' = w' -> b_sbi st' = with_freeblocks (s_freeblocks_counter s2 - Z.of_nat n) s2 ->
    (forall y, blocks_charged st' y = blocks_charged (BState s w c) y - (if decide (y = ino) then count - Z.of_nat n else 0)) ->
    retried (BState s w c) ino count 0 (Z.of_nat n) (gfb g + i) st').
  { intros st' Ew Es Ec. unfold retried. rewrite Ew, Es. split; [done|]. left. split; [done|]. split; [lia|]. split; [done|].
    split; [exact Hfl'|]. split; [rewrite Hc2, Hcnt; done|done]. }
  destruct (Z.ltb_spec (Z.of_nat n) count).
  - eexists _, _, _. split; [reflexivity|]. apply Hends; [done|done|]. intros y. rewrite charge_spec.
    unfold blocks_charged. cbn [b_charged]. case_decide; lia.
  - assert (count = Z.of_nat n) as -> by lia. eexists _, _, _. split; [reflexivity|]. apply Hends; [done|done|].
    intros y. unfold blocks_charged. cbn [b_charged]. case_decide; lia.
Qed.

(** A retry that starts from a cached state and the windows that a search has left. *)
Lemma retried_from s s1 w w1 c ino count err n x st' : groups_ok sb s -> cached sb s s1 -> win_kept w w1 ino ->
  retried (BState s1 w1 c) ino count err n x st' -> retried (BState s w c) ino count err n x st'.
Proof using.
  intros Hs Hc Hk [Hk' Ho]. cbn [b_sbi b_rsv] in *. split; [by eapply win_kept_trans|]. cbn [b_sbi].
  destruct (cached_total sb s s1 Hc) as [Ht Hcn].
  destruct Ho as [(-> & Hn & (F1 & F2 & F3) & [G1 G2 G3 G4] & Hcnt & Hch)|(-> & -> & -> & Hc' & Hz & Hch)]; [left|right].
  - split; [done|]. split; [done|]. split; [|split; [|split; [by rewrite Hcnt, Hcn|done]]].
    + split; [done|]. split; [done|]. intros y Hy. destruct (F3 y Hy) as [Hb Hsys]. rewrite (cached_bbit sb s s1) in Hb by done.
      split; [done|]. intros (d & Hd & Hsy). apply Hsys. exists d. split; [|done]. destruct Hc as (m & -> & _). by rewrite desc_with_buffers.
    + constructor; [done|by rewrite G2, Ht|eapply inode_side_trans; [by apply cached_inode_side|done]|].
      intros y Hy. rewrite G4 by done. case_decide; [done|]. by apply cached_bbit.
  - split; [done|]. split; [done|]. split; [done|]. split; [by eapply cached_trans|]. split; [|done].
    intros g Hg. rewrite <- (Hz g Hg). destruct Hc as (m & -> & _). unfold free_blocks_of. by rewrite desc_with_buffers.
Qed.

(** Two rounds are enough: one with the reservation and one without. *)
Lemma retry_spec ino goal count : 1 <= count < 2 ^ 30 -> forall fuel s w c goal_group group my_rsv wsz num, groups_ok sb s -> win_ok rb w ->
  my_ok w ino my_rsv -> 0 <= goal_group < ngroups -> 0 <= group < ngroups -> 0 <= num <= count ->
  (match my_rsv with Some _ => 2 | None => 1 end <= fuel)%nat ->
  exists err n x st', retry_alloc rb sb env fuel (BState s w c) ino goal goal_group group my_rsv wsz count num = Ok (err, n, x, st') /\
    retried (BState s w c) ino count err n x st'.
Proof using L W B.
  intros Hcount. induction fuel as [|fuel IH]; intros s w c goal_group group my_rsv wsz num Hs Hw Hmy Hgg Hg Hnum Hf.
  { destruct my_rsv; lia. }
  cbn [retry_alloc b_sbi b_rsv b_charged]. destruct (Hs group Hg) as (d & b & Hgo). rewrite (bgroup_get sb s group d b) by done. cbn [rbind].
  destruct (keep_rsv_spec w ino my_rsv (gd_free_blocks_count d) wsz Hmy) as (my' & -> & Hmy' & Hnone). cbn [rbind].
  destruct (search_groups_spec s w c ino my' wsz group d b goal num Hs Hw Hmy' Hgo Hg ltac:(lia)) as (a & s1 & w1 & -> & Hk & Ho).
  cbn [rbind]. destruct Ho as [(num' & -> & Hn' & Hc & Hz)|(g & d' & b' & i & k & -> & Hfd)].
  - destruct my' as [p|].
    + destruct (IH s1 w1 c goal_group goal_group None 0 num') as (err & n & x & st' & -> & Hr);
        [by eapply cached_groups|apply Hk|by left|done|done|lia|destruct my_rsv; [lia|by discriminate Hnone]|].
      exists err, n, x, st'. split; [done|]. by eapply retried_from.
    + eexists _, _, _, _. split; [reflexivity|]. split; [exact Hk|]. right. split; [done|]. split; [done|]. split; [done|].
      split; [exact Hc|]. split; [by apply Hz|]. intros y. rewrite charge_spec. unfold blocks_charged. cbn [b_charged]. case_decide; lia.
  - pose proof (fd_run _ _ _ _ _ _ _ _ Hfd) as (Hi & Hin & Hk1). pose proof (gfb_bounds sb g (fd_range _ _ _ _ _ _ _ _ Hfd)).
    pose proof (bw_bpg (sb := sb)). rewrite u64_id by lia. rewrite (Z.add_comm i).
    destruct (found_free s s1 num g d' b' i k Hs Hfd) as [_ ->].
    destruct (account_spec s s1 w w1 c ino count num g d' b' i k Hs Hfd Hk ltac:(lia) ltac:(lia)) as (x & n & st' & -> & Hr).
    exists 0, n, x, st'. done.
Qed.

(** ** ext2_new_blocks *)

(** No block of the data zone is free. *)
Definition disk_full (s : sbi) : Prop := forall y, es_first_data_block sb <= y < es_blocks_count sb -> bbit sb s y = Some true.

Lemma no_free_full s : groups_ok sb s -> (forall g, 0 <= g < ngroups -> free_blocks_of sb s g = 0) -> disk_full s.
Proof using B.
  intros Hs Hz y Hy. pose proof (group_in_range sb y Hy) as Hg. destruct (placed sb y) as [Hb Ey].
  destruct (Hs _ Hg) as (d & b & Hgo). specialize (Hz _ Hg). unfold free_blocks_of in Hz.
  rewrite (bg_desc _ _ _ _ _ Hgo), (bg_free _ _ _ _ _ Hgo) in Hz. destruct (bg_len _ _ _ _ _ Hgo) as [Hl _].
  pose proof (bw_bpg (sb := sb)). rewrite Ey, (group_bbit sb s _ d b) by done. by apply (proj1 (zeros_none bpg b ltac:(lia)) Hz).
Qed.

(** What [ext2_new_blocks] promises: a run of free blocks, or an error and nothing taken. *)
Definition new_blocks_done (st : bstate) (ino count err n x : Z) (st' : bstate) : Prop :=
  balloc_ok sb (b_sbi st') /\ inode_side sb (b_sbi st) (b_sbi st') /\ win_kept (b_rsv st) (b_rsv st') ino /\
  (err = 0 /\ 1 <= n <= count /\ free_run (b_sbi st) x n /\ flipped (b_sbi st) (b_sbi st') true x n /\
   (forall y, blocks_charged st' y = blocks_charged st y + (if decide (y = ino) then n else 0)) \/
   err <> 0 /\ n = count /\ x = 0 /\ cached sb (b_sbi st) (b_sbi st') /\
   (forall y, blocks_charged st' y = blocks_charged st y) /\
   (err = dquot_alloc_block env ino count \/
    err = - ENOSPC /\ (ext2_has_free_blocks sb env (b_sbi st) = false \/ disk_full (b_sbi st)))).

Lemma new_blocks_spec st ino goal count : balloc_ok sb (b_sbi st) -> win_ok rb (b_rsv st) -> ino <> 0 -> 1 <= count < 2 ^ 30 ->
  exists err n x st', ext2_new_blocks rb sb env st ino goal count = Ok (err, n, x, st') /\ new_blocks_done st ino count err n x st'.
Proof using L W B.
  intros [Hs Hcn] Hw H0 Hcount. unfold ext2_new_blocks. pose proof (cached_inode_side sb (b_sbi st) (b_sbi st) Hs (cached_refl sb _)) as Hself.
  destruct (Z.eqb_spec (dquot_alloc_block env ino count) 0) as [Eq|Eq]; cbn [negb].
  2:{ eexists _, _, _, _. split; [reflexivity|]. split; [done|]. split; [done|]. split; [by apply win_kept_refl|]. right.
      split; [done|]. split; [done|]. split; [done|]. split; [apply cached_refl|]. split; [done|by left]. }
  cbn [b_rsv charge b_sbi]. destruct (ext2_has_free_blocks sb env (b_sbi st)) eqn:Ehas; cbn [negb].
  2:{ eexists _, _, _, _. split; [reflexivity|]. split; [done|]. split; [done|]. split; [by apply win_kept_refl|]. right.
      split; [done|]. split; [done|]. split; [done|]. split; [apply cached_refl|]. split; [|by right; split; [done|left]].
      intros y. rewrite !charge_spec. case_decide; lia. }
  set (goal' := if (_ : bool) then es_first_data_block sb else goal).
  assert (Hgoal : es_first_data_block sb <= goal' < es_blocks_count sb).
  { pose proof (bw_count (sb := sb)). pose proof (bw_groups (sb := sb)). pose proof (bw_bpg (sb := sb)). unfold ext2_group_first_block_no in *.
    unfold goal'. destruct (Z.ltb_spec goal (es_first_data_block sb)), (Z.leb_spec (es_blocks_count sb) goal); cbn [orb]; nia. }
  pose proof (group_in_range sb goal' Hgoal) as Hgr. unfold group_of in Hgr. pose proof (bw_groups (sb := sb)).
  rewrite i32_id by lia. set (wsz := match rsv_nodes (b_rsv st) !! ino with Some rsv => u16 (rsv_goal_size rsv) | None => 0 end). set (my := if 0 <? wsz then Some ino else None).
  assert (Hmy : my_ok (b_rsv st) ino my).
  { unfold my, wsz. destruct (rsv_nodes (b_rsv st) !! ino) as [m|] eqn:Em; [|by left].
    destruct (Z.ltb_spec 0 (u16 (rsv_goal_size m))); [|by left]. right. split; [done|]. split; [done|]. exists m. split; [done|].
    destruct (wo_node rb _ Hw ino m Em) as [_ Hgs _ _]. destruct (decide (rsv_goal_size m = 0)) as [E|]; [rewrite E in *; done|lia]. }
  set (st1 := charge ino count st). destruct (retry_spec ino goal' count Hcount (2 + Z.to_nat (ngroups * bpg))%nat (b_sbi st) (b_rsv st)
    (b_charged st1) ((goal' - es_first_data_block sb) / bpg) ((goal' - es_first_data_block sb) / bpg) my wsz count Hs Hw Hmy Hgr Hgr
    ltac:(lia) ltac:(destruct my; lia)) as (err & n & x & st' & E & Hk & Ho).
  exists err, n, x, st'. split; [exact E|]. clear E. cbn [b_sbi b_rsv] in *. change (BState _ _ (b_charged st1)) with st1 in Ho.
  destruct Ho as [(-> & Hn & Hf & Hfl & Hcnt & Hch)|(-> & -> & -> & Hc & Hz & Hch)].
  - split; [constructor; [apply Hfl|rewrite Hcnt, Hcn, (fl_total _ _ _ _ _ Hfl); done]|]. split; [apply Hfl|]. split; [done|]. left.
    split; [done|]. split; [done|]. split; [done|]. split; [done|]. intros y. rewrite Hch. unfold st1. rewrite charge_spec. case_decide; lia.
  - destruct (cached_total sb _ _ Hc) as [Ht Hcc]. split; [constructor; [by eapply cached_groups|by rewrite Hcc, Hcn, Ht]|].
    split; [by apply cached_inode_side|]. split; [done|]. right. split; [done|]. split; [done|]. split; [done|]. split; [done|].
    split; [|right; split; [done|right; by apply no_free_full]].
    intros y. rewrite Hch. unfold st1. rewrite charge_spec. case_decide; lia.
Qed.
End AllocFacts.
