(* ===== verification/Ext2BallocFree.v ===== *)
(** * ext2: ext2_free_blocks

    Freeing the blocks of a file clears their bits, group after group, and nothing else;
    the counts of free blocks and the quota follow. *)

From S2P Require Import Prelude CString ByteMem Ext2Layout Ext2Dir Ext2Super Ext2Inode Ext2Ialloc Ext2IallocFacts.
From S2P Require Import Ext2Balloc Ext2BallocBits Ext2BallocRsv Ext2BallocGroup Ext2BallocFacts Ext2BallocAlloc.

Section FreeFacts.
Context (sb : sb_info) {W : SbWf sb} {B : BlkWf sb}.

Notation ngroups := (s_groups_count sb).
Notation bpg := (EXT2_BLOCKS_PER_GROUP sb).
Notation gfb := (ext2_group_first_block_no sb).

Lemma clear_bits_spec s n : forall b bit block k, 0 <= bit -> all_bits true b bit (bit + Z.of_nat n) ->
  clear_bits n s b bit block k = Ok (k + Z.of_nat n, put_range false n bit b, s).
Proof using.
  induction n as [|n IH]; intros b bit block k Hb Hall; cbn [clear_bits put_range]. { by rewrite Z.add_0_r. }
  unfold ext2_clear_bit_atomic. rewrite (test_and_put_ok false bit b true) by (lia || apply Hall; lia). cbn [rbind].
  rewrite IH; [do 3 f_equal; lia|lia|]. intros i Hi. rewrite list_lookup_insert_ne by lia. apply Hall. lia.
Qed.

(** A run of blocks in use that a file may own. *)
Definition used_run (s : sbi) (x n : Z) : Prop :=
  es_first_data_block sb <= x /\ x + n <= es_blocks_count sb /\
  forall y, x <= y < x + n -> bbit sb s y = Some true /\ ~ is_system sb s y.

Lemma is_system_side s s' y : inode_side sb s s' -> 0 <= group_of sb y < ngroups -> is_system sb s' y -> is_system sb s y.
Proof using.
  intros [H _] Hg (d' & Hd' & Hsy). destruct (H _ Hg) as (_ & d & x & Hd & Hx). exists d. split; [done|].
  rewrite Hx in Hd'. injection Hd' as <-. by destruct d.
Qed.

Lemma flipped_trans s s1 s2 v x n m : 0 <= n -> 0 <= m -> flipped sb s s1 v x n -> flipped sb s1 s2 v (x + n) m ->
  flipped sb s s2 v x (n + m).
Proof using.
  intros Hn Hm [G1 G2 G3 G4] [H1 H2 H3 H4]. constructor; [done|rewrite H2, G2; destruct v; lia|by eapply inode_side_trans|].
  intros y Hy. rewrite H4, G4 by done. repeat case_decide; (done || lia).
Qed.

Lemma free_step s s0 g d b i n : groups_ok sb s -> 0 <= g < ngroups -> bgroup_ok sb s g d b -> cached sb s s0 ->
  0 <= i -> i + Z.of_nat n <= bpg -> used_run s (gfb g + i) (Z.of_nat n) ->
  let s1 := group_adjust_blocks sb (set_buffer (gd_block_bitmap d) (put_range false n i b) s0) g d (Z.of_nat n) in
  flipped sb s s1 false (gfb g + i) (Z.of_nat n) /\ s_freeblocks_counter s1 = s_freeblocks_counter s.
Proof using W B.
  intros Hs Hg Hgo Hc Hi Hin (U1 & U2 & U3) s1. pose proof (bg_len _ _ _ _ _ Hgo) as Hlen.
  assert (Hset : all_bits true b i (i + Z.of_nat n)).
  { intros j Hj. destruct (U3 (gfb g + j) ltac:(lia)) as [Hb _]. by rewrite (group_bbit sb s g d b) in Hb by (done || lia). }
  assert (Hrw : rewritten sb s (set_buffer (gd_block_bitmap d) (put_range false n i b) s0) (gd_block_bitmap d) (put_range false n i b)).
  { eapply cached_rewritten; [exact Hc|apply buffer_set]. }
  destruct (group_change sb s _ g d b (put_range false n i b) (Z.of_nat n) Hs Hg Hgo Hrw) as (G1 & G2 & G3 & G4 & G5).
  - rewrite put_range_zeros by (done || lia). lia.
  - apply put_range_length.
  - intros j Hj Hkeep. destruct Hlen as [Hl _]. rewrite put_range_lookup by lia. rewrite decide_False.
    + destruct Hkeep as [Hsy|Ht]; [|by apply (bg_tail _ _ _ _ _ Hgo)].
      destruct (bg_system _ _ _ _ _ Hgo _ Hsy) as [_ Hb]. by replace (gfb g + j - gfb g) with j in Hb by lia.
    + intros Hj'. destruct Hkeep as [Hsy|Ht]; [|lia]. destruct (U3 (gfb g + j) ltac:(lia)) as [_ Hns]. apply Hns.
      exists d. split; [|done]. destruct (place sb g j Hj) as [-> _]. apply Hgo.
  - split; [|exact G3]. constructor; [exact G1|exact G2|exact G4|]. intros y Hy. unfold s1. rewrite G5 by done. case_decide as Hyg.
    + rewrite (run_bits sb g i n b y) by (done || lia). case_decide; [done|].
      replace y with (gfb g + bit_of sb y) at 2 by (destruct (placed sb y) as [_ E]; rewrite Hyg in E; lia).
      symmetry. apply (group_bbit sb s g d b); [done|]. apply (placed sb y).
    + rewrite decide_False; [done|]. intros Hr. apply Hyg. by eapply (run_group sb g i n).
Qed.

Lemma free_groups_spec fuel : forall s block count freed, groups_ok sb s -> 1 <= count -> used_run s block count ->
  0 <= freed -> freed + count < 2 ^ 32 -> (Z.to_nat (ngroups - group_of sb block) < fuel)%nat ->
  exists s', free_groups sb fuel s block count freed = Ok (freed + count, s') /\ flipped sb s s' false block count /\
    s_freeblocks_counter s' = s_freeblocks_counter s.
Proof using W B.
  pose proof (bw_bpg (sb := sb)) as HB.
  induction fuel as [|fuel IH]; intros s block count freed Hs Hc Hu Hf1 Hf2 Hfuel; [lia|]. cbn [free_groups].
  pose proof Hu as (U1 & U2 & U3). pose proof (group_in_range sb block ltac:(lia)) as Hg. destruct (placed sb block) as [Hbit Eb].
  fold (group_of sb block). fold (bit_of sb block). set (g := group_of sb block) in *. set (i := bit_of sb block) in *.
  set (over := if bpg <? i + count then i + count - bpg else 0).
  assert (Hov : 0 <= over /\ 1 <= count - over /\ i + (count - over) <= bpg /\ (over = 0 \/ i + (count - over) = bpg)).
  { unfold over. destruct (Z.ltb_spec bpg (i + count)); lia. }
  clearbody over. destruct Hov as (Ho1 & Ho2 & Ho3 & Ho4). destruct (Hs g Hg) as (d & b & Hgo).
  destruct (read_block_ok sb s g d b Hgo Hg) as (s0 & -> & Hca). cbn [rbind].
  rewrite (bgroup_get sb s0 g d b) by (done || by eapply cached_group). cbn [rbind].
  set (n := Z.to_nat (count - over)). assert (En : Z.of_nat n = count - over) by lia.
  assert (Hu0 : used_run s (gfb g + i) (Z.of_nat n)).
  { rewrite <- Eb. split; [done|]. split; [lia|]. intros y Hy. apply U3. lia. }
  replace (system_zone sb d block (count - over)) with false.
  2:{ symmetry. rewrite Eb, <- En. apply (run_outside_zone sb s g d b); [done|done|lia|lia|lia|]. intros y Hy Hsy.
      destruct Hu0 as (_ & _ & H3). destruct (H3 y Hy) as [_ Hns]. apply Hns. exists d. split; [|done].
      rewrite (run_group sb g i n y) by (done || lia). apply Hgo. }
  assert (Hset : all_bits true b i (i + Z.of_nat n)).
  { intros j Hj. destruct (U3 (gfb g + j) ltac:(lia)) as [Hb _]. by rewrite (group_bbit sb s g d b) in Hb by (done || lia). }
  rewrite (clear_bits_spec s0 n b i block 0) by (done || lia). cbn [rbind]. rewrite Z.add_0_l.
  destruct (free_step s s0 g d b i n Hs Hg Hgo Hca ltac:(lia) ltac:(lia) Hu0) as [Hfl Hcnt].
  set (s1 := group_adjust_blocks _ _ _ _ _) in *. rewrite <- Eb in Hfl. rewrite En in Hfl |- *. rewrite u32_id by lia.
  destruct (Z.eqb_spec over 0) as [->|Hne].
  { exists s1. split; [do 2 f_equal; lia|]. replace (count - 0) with count in Hfl by lia. done. }
  assert (Hnext : gfb (g + 1) = block + (count - over)) by (rewrite Eb; unfold ext2_group_first_block_no in *; lia).
  assert (Hg1 : group_of sb (block + (count - over)) = g + 1).
  { rewrite <- Hnext, <- (Z.add_0_r (gfb (g + 1))). apply (place sb (g + 1) 0). lia. }
  destruct (IH s1 (block + (count - over)) over (freed + (count - over))) as (s2 & -> & Hfl2 & Hcnt2).
  - apply Hfl.
  - lia.
  - split; [lia|]. split; [lia|]. intros y Hy. destruct (U3 y ltac:(lia)) as [Hb Hns].
    pose proof (group_in_range sb y ltac:(lia)) as Hgy. rewrite (fl_bits _ _ _ _ _ _ Hfl) by done. rewrite decide_False by lia.
    split; [done|]. intros Hsy. apply Hns. eapply is_system_side; [apply Hfl|done|done].
  - lia.
  - lia.
  - rewrite Hg1. lia.
  - exists s2. split; [do 2 f_equal; lia|]. split; [|by rewrite Hcnt2].
    replace count with ((count - over) + over) by lia. eapply flipped_trans; [lia|lia|exact Hfl|exact Hfl2].
Qed.

(** What [ext2_free_blocks] does to the blocks of a file. *)
Definition free_blocks_done (st : bstate) (ino block count : Z) (st' : bstate) : Prop :=
  balloc_ok sb (b_sbi st') /\ b_rsv st' = b_rsv st /\ flipped sb (b_sbi st) (b_sbi st') false block count /\
  (forall y, blocks_charged st' y = blocks_charged st y - (if decide (y = ino) then count else 0)).

Lemma free_blocks_spec st ino block count : balloc_ok sb (b_sbi st) -> 1 <= count -> used_run (b_sbi st) block count ->
  exists st', ext2_free_blocks sb st ino block count = Ok st' /\ free_blocks_done st ino block count st'.
Proof using W B.
  intros [Hs Hcn] Hc Hu. unfold ext2_free_blocks. pose proof Hu as (U1 & U2 & U3). pose proof (bw_first (sb := sb)).
  pose proof (bw_count (sb := sb)). pose proof (bw_end (sb := sb)). rewrite u64_id by lia.
  rewrite !(proj2 (Z.ltb_ge _ _)) by lia. cbn [orb]. pose proof (group_in_range sb block ltac:(lia)).
  destruct (free_groups_spec (S (Z.to_nat ngroups)) (b_sbi st) block count 0) as (s' & -> & Hfl & Hcnt); [done|done|done|lia|lia|lia|].
  cbn [rbind]. rewrite Z.add_0_l, (proj2 (Z.eqb_neq _ _)) by lia. eexists. split; [reflexivity|].
  apply (flipped_counter sb _ _ _ _ _ (s_freeblocks_counter s' + count)) in Hfl. cbn [b_sbi b_rsv charge].
  split; [|split; [done|split; [exact Hfl|]]].
  - constructor; [apply Hfl|]. unfold charge. cbn [b_sbi]. destruct (freeblocks_frame sb (s_freeblocks_counter s' + count) s') as (_ & _ & _ & ->).
    rewrite (fl_total _ _ _ _ _ _ Hfl), Hcnt, Hcn. done.
  - intros y. rewrite charge_spec. unfold blocks_charged. cbn [b_charged]. case_decide; lia.
Qed.

(** Blocks outside the data zone are reported and left alone. *)
Lemma free_blocks_outside st ino block count : 0 <= block < 2 ^ 64 -> 0 <= count < 2 ^ 64 -> 
  block < es_first_data_block sb \/ es_blocks_count sb < block + count ->
  ext2_free_blocks sb st ino block count = Ok (BState (sb_report (NotInDatazone block) (b_sbi st)) (b_rsv st) (b_charged st)).
Proof using B.
  intros Hb Hc Hout. unfold ext2_free_blocks. pose proof (bw_count (sb := sb)). pose proof (bw_end (sb := sb)). unfold u64.
  destruct (Z.ltb_spec block (es_first_data_block sb)); cbn [orb]; [done|].
  destruct (decide (block + count < 2 ^ 64)).
  - rewrite (Z.mod_small (block + count)) by lia. destruct (_ <? block); cbn [orb]; [done|]. by rewrite (proj2 (Z.ltb_lt _ _)) by lia.
  - replace ((block + count) mod 2 ^ 64) with (block + count - 2 ^ 64).
    + rewrite (proj2 (Z.ltb_lt (block + count - 2 ^ 64) block)) by lia. done.
    + apply (Z.mod_unique _ _ 1); lia.
Qed.
End FreeFacts.
