(* ===== verification/Ext2BallocTheorems.v ===== *)
(** * ext2: the theorems about the block allocator

    [ext2_new_blocks] takes free blocks or reports that there are none, [ext2_free_blocks]
    gives them back, and under any sequence of calls the bitmaps, the counts and the
    reservation windows stay consistent, with the inode allocator's data left alone. *)

From S2P Require Import Prelude CString ByteMem Ext2Layout Ext2Dir Ext2Super Ext2Inode Ext2Ialloc Ext2IallocFacts.
From S2P Require Import Ext2Balloc Ext2BallocBits Ext2BallocRsv Ext2BallocGroup Ext2BallocFacts Ext2BallocAlloc Ext2BallocFree.

(** ** The windows of the inodes *)

Section WindowOps.
Context (rb : rb_lib) {L : RbLaws rb} (sb : sb_info) (env : block_env).

Lemma init_windows_ok : exists w, init_windows rb = Ok w /\ win_ok rb w.
Proof using L.
  unfold init_windows, ext2_rsv_window_add. rewrite (get_node_ok _ 0 (Rsv 0 0 0 0)) by reflexivity.
  cbn [rbind link_window s_rsv_window_root]. eexists. split; [reflexivity|].
  destruct (rb_insert_law 0 RbLeaf (RbNode true RbLeaf 0 RbLeaf)) as [Hok E]; [apply rb_ok_leaf|by apply not_elem_of_nil|constructor|].
  cbn [inorder app] in E. constructor; cbn [s_rsv_window_root with_root rsv_nodes]; try rewrite E.
  - done.
  - done.
  - apply NoDup_singleton.
  - repeat constructor.
  - intros p ->%list_elem_of_singleton. eexists. apply lookup_insert_eq.
  - intros p n [<- <-]%lookup_singleton_Some. constructor; [done|by split|done|done].
Qed.

Lemma init_info_ok w ino : win_ok rb w -> rsv_nodes w !! ino = None -> ino <> 0 -> win_ok rb (ext2_init_block_alloc_info sb env ino w).
Proof using.
  intros Hw Hn H0. unfold ext2_init_block_alloc_info. destruct (kmalloc_ok env).
  2:{ rewrite (delete_id (rsv_nodes w)) by done. destruct Hw as [H1 H2 H3 H4 H5 H6]. constructor; try done.
      intros p n Hp. destruct (H6 p n Hp) as [A B C D]. by constructor. }
  set (m := Rsv _ _ _ 0). assert (Hnt : ino ∉ inorder (s_rsv_window_root w)).
  { intros Hin. destruct (wo_mem rb w Hw ino Hin). congruence. }
  destruct Hw as [H1 H2 H3 H4 H5 H6]. constructor; cbn [s_rsv_window_root rsv_nodes]; try done.
  - apply StronglySorted_weaken with (R := before w); [|done]. intros x y Hx Hy. unfold before, wstart, wend. cbn [rsv_nodes].
    by rewrite !lookup_insert_ne by (intros ->; done).
  - intros p Hp. apply lookup_insert_is_Some'. right. by apply H5.
  - intros p n. rewrite lookup_insert_Some. intros [[<- <-]|[Hne Hp]].
    + constructor; [done|destruct (RESERVATION sb); by split|done|by intros _ ?].
    + destruct (H6 p n Hp) as [A B C D]. by constructor.
Qed.

Lemma discard_ok w ino : win_ok rb w -> exists w', ext2_discard_reservation rb ino w = Ok w' /\ win_ok rb w' /\
  (forall n, rsv_nodes w' !! ino = Some n -> rsv_end n = 0) /\ (forall p, p <> ino -> rsv_nodes w' !! p = rsv_nodes w !! p).
Proof using L.
  intros Hw. unfold ext2_discard_reservation. destruct (rsv_nodes w !! ino) as [n|] eqn:E; [|exists w; split; [done|]; split; [done|]; split; [congruence|done]].
  unfold rsv_is_empty, EXT2_RESERVE_WINDOW_NOT_ALLOCATED. destruct (Z.eqb_spec (rsv_end n) 0) as [Ez|Ez].
  { exists w. split; [done|]. split; [done|]. split; [|done]. intros n' Hn'. congruence. }
  destruct (nonempty_in_tree rb w ino n Hw E Ez) as [Hin H0].
  destruct (win_remove rb w ino Hw Hin H0) as (m & w' & Hm & -> & Hw' & [Ho _] & _). exists w'. split; [done|]. split; [done|]. rewrite Ho. split.
  - intros n'. rewrite lookup_insert_eq. by intros [= <-].
  - intros p Hp. by rewrite lookup_insert_ne.
Qed.

Lemma setrsvsz_ok isreg owner user want_write ino w : win_ok rb w -> ino <> 0 ->
  win_ok rb (snd (ioc_setrsvsz sb env isreg owner user want_write ino w)).
Proof using.
  intros Hw H0. unfold ioc_setrsvsz. destruct (_ || _); [done|]. destruct owner; [|done]. cbn [negb].
  destruct user as [arg|]; [|done]. destruct (negb _); [done|]. set (sz := if (_ : bool) then EXT2_MAX_RESERVE_BLOCKS else u16 arg).
  assert (Hsz : 0 <= sz < 2 ^ 30).
  { unfold sz, EXT2_MAX_RESERVE_BLOCKS. pose proof (u16_range arg). destruct (_ <? _); lia. }
  clearbody sz. assert (Hset : forall w, win_ok rb w -> win_ok rb (snd (match rsv_nodes w !! ino with
    | Some rsv => (0, put_node ino (with_goal_size sz rsv) w) | None => (0, w) end))).
  { intros v Hv. destruct (rsv_nodes v !! ino) as [m|] eqn:E; [|done]. cbn [snd]. apply (win_attr rb v ino m); [done|done|by destruct m..|by destruct m]. }
  destruct (rsv_nodes w !! ino) as [m|] eqn:E; [exact (Hset w Hw)|]. apply Hset. by apply init_info_ok.
Qed.
End WindowOps.

(** Two windows that are not empty have no block in common. *)
Lemma windows_apart rb `{!RbLaws rb} w p q n m : win_ok rb w -> rsv_nodes w !! p = Some n -> rsv_nodes w !! q = Some m -> p <> q ->
  rsv_end n <> 0 -> rsv_end m <> 0 -> rsv_end n < rsv_start m \/ rsv_end m < rsv_start n.
Proof.
  intros Hw Hn Hm Hpq En Em. destruct (nonempty_in_tree rb w p n Hw Hn En) as [Hp _].
  destruct (nonempty_in_tree rb w q m Hw Hm Em) as [Hq _]. pose proof (wo_sorted rb w Hw) as HS.
  rewrite <- (wend_eq w p n Hn), <- (wend_eq w q m Hm), <- (wstart_eq w p n Hn), <- (wstart_eq w q m Hm).
  destruct (list_elem_of_split _ _ Hp) as (l1 & l2 & E). rewrite E in HS, Hq.
  apply StronglySorted_app in HS as (H12 & _ & HS). apply StronglySorted_cons in HS as [H2 _]. rewrite Forall_forall in H2.
  rewrite elem_of_app, elem_of_cons in Hq. destruct Hq as [Hq|[-> |Hq]]; [right|done|left; by apply H2].
  apply (H12 q p Hq). left.
Qed.

(** [ext2_count_free_blocks] counts what the counter says. *)
Lemma count_free_blocks_spec sb `{!SbWf sb, !BlkWf sb} s : groups_ok sb s -> ext2_count_free_blocks sb s = Ok (total_free sb s, s).
Proof.
  intros Hs. unfold ext2_count_free_blocks, total_free. pose proof (bw_groups (sb := sb)).
  assert (Hsum : forall n i c, 0 <= i -> i + Z.of_nat n = s_groups_count sb ->
    sum_groups sb gd_free_blocks_count n i c s = Ok (c + (sumz (free_blocks_of sb s) (Z.to_nat (s_groups_count sb)) -
      sumz (free_blocks_of sb s) (Z.to_nat i)), s)).
  { induction n as [|n IH]; intros i c Hi Hn; cbn [sum_groups]. { do 2 f_equal. replace (Z.to_nat i) with (Z.to_nat (s_groups_count sb)) by lia. lia. }
    destruct (Hs i ltac:(lia)) as (d & b & Hgo). rewrite (bgroup_get sb s i d b) by (done || lia). cbn [rbind].
    rewrite IH by lia. do 2 f_equal. replace (Z.to_nat (i + 1)) with (S (Z.to_nat i)) by lia. cbn [sumz].
    rewrite Z2Nat.id by lia. replace (free_blocks_of sb s i) with (gd_free_blocks_count d); [lia|].
    unfold free_blocks_of. by rewrite (bg_desc _ _ _ _ _ Hgo). }
  rewrite Hsum by lia. change (sumz (free_blocks_of sb s) (Z.to_nat 0)) with 0. do 2 f_equal. lia.
Qed.

(** ** Sequences of calls *)

Section Sequences.
Context (rb : rb_lib) {L : RbLaws rb} (sb : sb_info) {W : SbWf sb} {B : BlkWf sb}.

(** A call that changes the blocks or the windows, with what the kernel answers to it. *)
Inductive block_op : Type :=
  | NewBlocks (ino goal count : Z)
  | FreeBlocks (ino block count : Z)
  | InitWindow (ino : Z)
  | DiscardWindow (ino : Z)
  | SetWindowSize (isreg owner : bool) (user : option Z) (want_write ino : Z).

Definition exec_block (env : block_env) (op : block_op) (st : bstate) : res bstate :=
  match op with
  | NewBlocks ino goal count => let* '(_, _, _, st) := ext2_new_blocks rb sb env st ino goal count in Ok st
  | FreeBlocks ino block count => ext2_free_blocks sb st ino block count
  | InitWindow ino => Ok (BState (b_sbi st) (ext2_init_block_alloc_info sb env ino (b_rsv st)) (b_charged st))
  | DiscardWindow ino => let* w := ext2_discard_reservation rb ino (b_rsv st) in Ok (BState (b_sbi st) w (b_charged st))
  | SetWindowSize isreg owner user want_write ino =>
      Ok (BState (b_sbi st) (snd (ioc_setrsvsz sb env isreg owner user want_write ino (b_rsv st))) (b_charged st))
  end.

(** The callers allocate for inodes, free the blocks of a file, and make an
    [ext2_block_alloc_info] only for an inode that has none. *)
Definition block_allowed (op : block_op) (st : bstate) : Prop :=
  match op with
  | NewBlocks ino _ count => ino <> 0 /\ 1 <= count < 2 ^ 30
  | FreeBlocks _ block count => 1 <= count /\ used_run sb (b_sbi st) block count
  | InitWindow ino => ino <> 0 /\ rsv_nodes (b_rsv st) !! ino = None
  | DiscardWindow _ => True
  | SetWindowSize _ _ _ _ ino => ino <> 0
  end.

Record block_sane (st : bstate) : Prop := {
  bs_blocks : balloc_ok sb (b_sbi st); bs_windows : win_ok rb (b_rsv st); bs_inodes : ialloc_ok sb (b_sbi st) }.

Lemma block_step env op st : block_sane st -> block_allowed op st ->
  exists st', exec_block env op st = Ok st' /\ block_sane st' /\ inode_side sb (b_sbi st) (b_sbi st').
Proof using L W B.
  intros [Hb Hw Hi] Ha. pose proof (inode_side_refl sb _ (ba_groups _ _ Hb)) as Hself. destruct op as [ino goal count|ino block count|ino|ino|isreg owner user ww ino]; cbn [exec_block block_allowed] in *.
  - destruct Ha as [H0 Hc]. destruct (new_blocks_spec rb sb env st ino goal count Hb Hw H0 Hc) as (err & n & x & st' & -> & Hd).
    exists st'. split; [done|]. destruct Hd as (H1 & H2 & H3 & _). split; [|done]. constructor; [done|apply H3|exact (inode_side_ok sb _ _ H2 Hi)].
  - destruct Ha as [Hc Hu]. destruct (free_blocks_spec sb st ino block count Hb Hc Hu) as (st' & -> & Hd).
    exists st'. split; [done|]. destruct Hd as (H1 & H2 & H3 & _). split; [|apply H3]. constructor; [done|by rewrite H2|]. exact (inode_side_ok sb _ _ (fl_inodes _ _ _ _ _ _ H3) Hi).
  - destruct Ha as [H0 Hn]. eexists. split; [done|]. split; [|done]. constructor; [done|by apply init_info_ok|done].
  - destruct (discard_ok rb (b_rsv st) ino Hw) as (w & -> & Hw' & _). eexists. split; [done|]. split; [|done]. by constructor.
  - eexists. split; [done|]. split; [|done]. constructor; [done|by apply setrsvsz_ok|done].
Qed.

Definition block_steps : bstate -> bstate -> Prop :=
  rtc (fun st st' => exists env op, block_allowed op st /\ exec_block env op st = Ok st').

Lemma block_steps_sane st st' : block_sane st -> block_steps st st' -> block_sane st' /\ inode_side sb (b_sbi st) (b_sbi st').
Proof using L W B.
  intros Hs Hst. induction Hst as [st|st st1 st' (env & op & Hop & E) _ IH]; [split; [done|]; apply inode_side_refl, Hs|].
  destruct (block_step env op st Hs Hop) as (b & E' & Hb & Hi). rewrite E in E'. injection E' as <-. destruct (IH Hb) as [Hs' Hi'].
  split; [done|]. by eapply inode_side_trans.
Qed.
End Sequences.

(** ** A concrete file system *)

Module DemoBlocks.
(** A library of trees that keeps them as lists. *)
Fixpoint of_list (l : list Z) : rbtree := match l with [] => RbLeaf | x :: l => RbNode false RbLeaf x (of_list l) end.

Fixpoint next_in (l : list Z) (p : Z) : option Z :=
  match l with [] => None | x :: l => if x =? p then head l else next_in l p end.

Definition demo_rb : rb_lib :=
  RbLib (fun _ t => t) (fun p t => of_list (filter (fun x => x <> p) (inorder t))) (fun t => head (inorder t))
    (fun t => next_in (inorder t)) (fun t => next_in (reverse (inorder t))).

Lemma inorder_of_list l : inorder (of_list l) = l.
Proof. induction l as [|x l IH]; [done|]. simpl. by rewrite IH. Qed.

Lemma next_in_spec l1 p l2 : p ∉ l1 -> next_in (l1 ++ p :: l2) p = head l2.
Proof.
  induction l1 as [|x l1 IH]; intros Hp; simpl; [by rewrite Z.eqb_refl|].
  rewrite (proj2 (Z.eqb_neq _ _)) by set_solver. apply IH. set_solver.
Qed.

#[global] Instance demo_laws : RbLaws demo_rb.
Proof.
  refine {| rb_ok := fun _ => True |}; cbn [rb_insert_color rb_erase rb_first rb_next rb_prev demo_rb]; [done|done|..].
  - intros p t l1 l2 _ Hd E. rewrite inorder_of_list, E. rewrite E in Hd. split; [done|].
    apply NoDup_app_cons_comm, NoDup_cons in Hd as [Hp _]. rewrite filter_app, filter_cons_False by naive_solver.
    f_equal; apply filter_all; intros x Hx ->; set_solver.
  - done.
  - intros p t l1 l2 _ Hd E. rewrite E in *. apply next_in_spec. apply NoDup_app_cons_comm, NoDup_cons in Hd as [Hp _]. set_solver.
  - intros p t l1 l2 _ Hd E. rewrite E in *. rewrite reverse_app, reverse_cons, <- app_assoc. cbn [app].
    rewrite next_in_spec; [by rewrite head_reverse|]. rewrite elem_of_reverse.
    apply NoDup_app_cons_comm, NoDup_cons in Hd as [Hp _]. set_solver.
Defined.

(** Two groups of 16 blocks from block 1 on; each has its bitmaps and one block of inodes. *)
Definition demo_sb : sb_info :=
  SbInfo 2 5 8 16 1 1 11 16 33 2 1 1 true false false false true false
    (fun blk => if blk =? 2 then Some (replicate 4 true ++ replicate 12 false)
      else if blk =? 17 then Some (replicate 3 true ++ replicate 13 false)
      else if blk =? 3 then Some (replicate 16 true)
      else if blk =? 18 then Some (replicate 2 true ++ replicate 14 false) else None).

Definition demo_sbi : sbi :=
  Sbi [Some [GroupDesc 2 3 4 12 0 1; GroupDesc 17 18 19 13 6 0]] ∅ [0; 0] 6 25 1 1000 [].

Definition demo_env : block_env := BlockEnv (fun _ _ => 0) false 0 0 100 (fun _ => false) (fun _ => true) true.

(** Inode 12 has a reservation of eight blocks to come, inode 13 has one. *)
Definition demo_windows : rsv_state :=
  RsvState {[ 0 := Rsv 0 0 0 0; 12 := Rsv 0 0 8 0; 13 := Rsv 5 12 8 1 ]} (of_list [0; 13]) {[ 12 := (0, 0); 13 := (0, 5) ]}.

Definition demo_state : bstate := BState demo_sbi demo_windows {[ 13 := 1 ]}.

#[global] Instance demo_wf : SbWf demo_sb.
Proof. split; simpl; lia. Qed.
#[global] Instance demo_blk_wf : BlkWf demo_sb.
Proof. split; vm_compute; intuition discriminate. Qed.

Lemma demo_two g : 0 <= g < s_groups_count demo_sb -> g = 0 \/ g = 1.
Proof. change (s_groups_count demo_sb) with 2. lia. Qed.

Lemma demo_blocks_ok : balloc_ok demo_sb demo_sbi.
Proof.
  split; [|reflexivity]. intros g [-> | ->]%demo_two; eexists _, _; (split; [reflexivity|reflexivity| |reflexivity| | |discriminate]).
  1, 4: split; [discriminate|by exists 2].
  1, 3: intros x Hx; unfold system_block in Hx; cbn in Hx.
  1: assert (x = 2 \/ x = 3 \/ x = 4) as [-> |[-> | ->]] by lia; by split.
  1: assert (x = 17 \/ x = 18 \/ x = 19) as [-> |[-> | ->]] by lia; by split.
  all: intros i Hi Ht; exfalso; revert Hi Ht; unfold ext2_group_first_block_no; cbn; lia.
Qed.

Lemma demo_inodes_ok : ialloc_ok demo_sb demo_sbi.
Proof.
  split; [| | |reflexivity|reflexivity].
  - intros g [-> | ->]%demo_two; eexists _, _; (split; [reflexivity|reflexivity|discriminate|reflexivity|by split]).
  - intros g g' d d' [-> | ->]%demo_two [-> | ->]%demo_two; try done;
      intros E1 E2 Eb; vm_compute in E1, E2; injection E1 as <-; injection E2 as <-; discriminate.
  - intros ino Hi. change (EXT2_FIRST_INO demo_sb) with 11 in Hi. unfold allocated.
    assert (ino = 1 \/ ino = 2 \/ ino = 3 \/ ino = 4 \/ ino = 5 \/ ino = 6 \/ ino = 7 \/ ino = 8 \/ ino = 9 \/ ino = 10)
      as Hx by lia. repeat destruct Hx as [-> |Hx]; try subst ino; eexists; (split; [reflexivity|reflexivity]).
Qed.

Lemma demo_windows_ok : win_ok demo_rb demo_windows.
Proof.
  constructor; [done|done| | | |].
  - apply (bool_decide_unpack _). vm_compute. done.
  - repeat constructor.
  - intros p Hp. cbn in Hp. rewrite !elem_of_cons in Hp. destruct Hp as [-> |[-> |Hp]]; [by eexists..|by apply not_elem_of_nil in Hp].
  - intros p n. unfold demo_windows. cbn [rsv_nodes]. rewrite !lookup_insert_Some, lookup_singleton_Some.
    intros [[<- <-]|(_ & [[<- <-]|(_ & <- & <-)])]; (constructor; cbn; [done|by split| |]).
    + done.
    + done.
    + done.
    + intros _ Hin. rewrite !elem_of_cons in Hin. destruct Hin as [?|[?|Hin]]; [done..|by apply not_elem_of_nil in Hin].
    + intros [?|Hin]; [done|]. exfalso. apply Hin. set_solver.
    + lia.
Qed.

Lemma demo_sane : block_sane demo_rb demo_sb demo_state.
Proof. constructor; [apply demo_blocks_ok|apply demo_windows_ok|apply demo_inodes_ok]. Qed.
End DemoBlocks.

(** ** The theorems *)

(** C6: [ext2_new_blocks] always returns.  On success it has taken a run of at most the
    wanted number of blocks: all of them were free blocks of the data zone, outside the
    bitmaps and the inode tables; exactly they are marked as used, and exactly their
    number is charged to the inode and gone from the counts of free blocks.  Otherwise it
    has taken and charged nothing, and the error is that of the quota or ENOSPC; ENOSPC
    means that the caller may not use the reserved blocks or that no block is free,
    whatever the reservations say. *)
Theorem new_blocks_takes_free_blocks rb `{!RbLaws rb} sb `{!SbWf sb, !BlkWf sb} env st ino goal count :
  balloc_ok sb (b_sbi st) -> win_ok rb (b_rsv st) -> ino <> 0 -> 1 <= count < 2 ^ 30 ->
  exists err n x st', ext2_new_blocks rb sb env st ino goal count = Ok (err, n, x, st') /\ balloc_ok sb (b_sbi st') /\
    (err = 0 /\ 1 <= n <= count /\ es_first_data_block sb <= x /\ x + n <= es_blocks_count sb /\
     (forall y, x <= y < x + n -> bbit sb (b_sbi st) y = Some false /\ ~ is_system sb (b_sbi st) y) /\
     (forall y, es_first_data_block sb <= y < es_blocks_count sb ->
        bbit sb (b_sbi st') y = if decide (x <= y < x + n) then Some true else bbit sb (b_sbi st) y) /\
     s_freeblocks_counter (b_sbi st') = s_freeblocks_counter (b_sbi st) - n /\
     (forall y, blocks_charged st' y = blocks_charged st y + (if decide (y = ino) then n else 0)) \/
     err <> 0 /\ (forall y, bbit sb (b_sbi st') y = bbit sb (b_sbi st) y) /\
     (forall y, blocks_charged st' y = blocks_charged st y) /\
     (err = dquot_alloc_block env ino count \/
      err = - ENOSPC /\ (ext2_has_free_blocks sb env (b_sbi st) = false \/ disk_full sb (b_sbi st)))).
Proof.
  intros Hb Hw H0 Hc. destruct (new_blocks_spec rb sb env st ino goal count Hb Hw H0 Hc) as (err & n & x & st' & E & Hb' & _ & _ & Ho).
  exists err, n, x, st'. split; [done|]. split; [done|].
  destruct Ho as [(-> & Hn & (F1 & F2 & F3) & Hfl & Hch)|(He & -> & -> & Hca & Hch & Herr)]; [left|right].
  - split; [done|]. split; [done|]. split; [done|]. split; [done|]. split; [done|]. split.
    + intros y Hy. apply (fl_bits _ _ _ _ _ _ Hfl). by apply group_in_range.
    + split; [|done]. rewrite (ba_counter _ _ Hb'), (ba_counter _ _ Hb), (fl_total _ _ _ _ _ _ Hfl). lia.
  - split; [done|]. split; [|done]. intros y. by apply cached_bbit.
Qed.

Lemma new_blocks_takes_free_blocks_witness :
  exists err n x st', ext2_new_blocks DemoBlocks.demo_rb DemoBlocks.demo_sb DemoBlocks.demo_env DemoBlocks.demo_state 12 6 3 = Ok (err, n, x, st') /\
    balloc_ok DemoBlocks.demo_sb (b_sbi st') /\ err = 0 /\ 1 <= n <= 3 /\
    forall y, x <= y < x + n -> bbit DemoBlocks.demo_sb DemoBlocks.demo_sbi y = Some false.
Proof.
  destruct (new_blocks_takes_free_blocks DemoBlocks.demo_rb DemoBlocks.demo_sb DemoBlocks.demo_env DemoBlocks.demo_state 12 6 3)
    as (err & n & x & st' & E & Hb & Ho); [apply DemoBlocks.demo_blocks_ok|apply DemoBlocks.demo_windows_ok|done|lia|].
  exists err, n, x, st'. split; [exact E|]. split; [exact Hb|]. destruct Ho as [(-> & Hn & _ & _ & Hf & _)|(He & _)].
  - split; [reflexivity|]. split; [exact Hn|]. intros y Hy. apply (Hf y Hy).
  - exfalso. apply He. vm_compute in E. injection E as <- _ _ _. reflexivity.
Defined.

(** C5: from a consistent file system, after any sequence of calls of [ext2_new_blocks],
    [ext2_free_blocks] (of blocks in use that are not the groups' own),
    [ext2_init_block_alloc_info], [ext2_discard_reservation] and [EXT2_IOC_SETRSVSZ], the
    next such call returns: no check calls [BUG], no loop runs on.  The count of free
    blocks of every group is that of its bitmap, [ext2_count_free_blocks] returns the
    counter of free blocks, and the reservation windows of different inodes have no block in
    common.  The inode bitmaps are as they were before the first call, and so is every
    field of the group descriptors but the count of free blocks. *)
Theorem block_allocator_invariant rb `{!RbLaws rb} sb `{!SbWf sb, !BlkWf sb} st st' :
  block_sane rb sb st -> block_steps rb sb st st' ->
  (forall g, 0 <= g < s_groups_count sb -> exists d b, bgroup_ok sb (b_sbi st') g d b) /\
  ext2_count_free_blocks sb (b_sbi st') = Ok (s_freeblocks_counter (b_sbi st'), b_sbi st') /\
  (forall p q n m, rsv_nodes (b_rsv st') !! p = Some n -> rsv_nodes (b_rsv st') !! q = Some m -> p <> q ->
     rsv_end n <> 0 -> rsv_end m <> 0 -> rsv_end n < rsv_start m \/ rsv_end m < rsv_start n) /\
  (forall g, 0 <= g < s_groups_count sb -> ibits sb (b_sbi st') g = ibits sb (b_sbi st) g /\
     exists d x, desc_at sb (b_sbi st) g = Some d /\ desc_at sb (b_sbi st') g = Some (with_free_blocks x d)) /\
  ialloc_ok sb (b_sbi st') /\
  (forall env op, block_allowed sb op st' -> exists st'', exec_block rb sb env op st' = Ok st'').
Proof.
  intros Hs Hst. apply (block_steps_sane rb sb st st') in Hst as [[Hb Hw Hi] [Hside _]]; [|done]. split; [apply Hb|]. split.
  { rewrite (ba_counter _ _ Hb). exact (count_free_blocks_spec sb _ (ba_groups _ _ Hb)). }
  split; [intros p q n m; by apply (windows_apart rb)|]. split; [done|]. split; [done|]. intros env op Hop.
  destruct (block_step rb sb env op st') as (st'' & E & _); [by constructor|done|]. by exists st''.
Qed.

Lemma block_allocator_invariant_witness : exists st',
  exec_block DemoBlocks.demo_rb DemoBlocks.demo_sb DemoBlocks.demo_env (NewBlocks 12 6 3) DemoBlocks.demo_state = Ok st' /\
  ext2_count_free_blocks DemoBlocks.demo_sb (b_sbi st') = Ok (s_freeblocks_counter (b_sbi st'), b_sbi st').
Proof.
  eexists. split; [vm_compute; reflexivity|].
  eapply (block_allocator_invariant DemoBlocks.demo_rb DemoBlocks.demo_sb DemoBlocks.demo_state); [apply DemoBlocks.demo_sane|].
  eapply rtc_once. exists DemoBlocks.demo_env, (NewBlocks 12 6 3). split; [cbn; lia|vm_compute; reflexivity].
Defined.

(** Blocks that [ext2_new_blocks] has given to an inode can be freed at once with
    [ext2_free_blocks], and then every block is as free or used as before, the counts of
    free blocks of all groups and of the file system and the blocks charged to the inode
    are the same. *)
Theorem blocks_new_free_roundtrip rb `{!RbLaws rb} sb `{!SbWf sb, !BlkWf sb} env st ino goal count n x st1 :
  balloc_ok sb (b_sbi st) -> win_ok rb (b_rsv st) -> ino <> 0 -> 1 <= count < 2 ^ 30 ->
  ext2_new_blocks rb sb env st ino goal count = Ok (0, n, x, st1) ->
  exists st2, ext2_free_blocks sb st1 ino x n = Ok st2 /\ balloc_ok sb (b_sbi st2) /\
    (forall y, es_first_data_block sb <= y < es_blocks_count sb -> bbit sb (b_sbi st2) y = bbit sb (b_sbi st) y) /\
    s_freeblocks_counter (b_sbi st2) = s_freeblocks_counter (b_sbi st) /\
    ext2_count_free_blocks sb (b_sbi st2) = Ok (s_freeblocks_counter (b_sbi st), b_sbi st2) /\
    (forall y, blocks_charged st2 y = blocks_charged st y).
Proof.
  intros Hb Hw H0 Hc E. destruct (new_blocks_spec rb sb env st ino goal count Hb Hw H0 Hc) as (err & n' & x' & st' & E' & Hb' & _ & _ & Ho).
  rewrite E in E'. injection E' as <- <- <- <-. destruct Ho as [(_ & Hn & (F1 & F2 & F3) & Hfl & Hch)|(He & _)]; [|done].
  destruct (free_blocks_spec sb st1 ino x n Hb' ltac:(lia)) as (st2 & E2 & Hb2 & _ & Hfl2 & Hch2).
  { split; [done|]. split; [done|]. intros y Hy. pose proof (group_in_range sb y ltac:(lia)) as Hg. split.
    - rewrite (fl_bits _ _ _ _ _ _ Hfl) by done. by rewrite decide_True.
    - intros Hsy. apply (F3 y Hy). eapply is_system_side; [apply Hfl|done|done]. }
  assert (Hcnt : s_freeblocks_counter (b_sbi st2) = s_freeblocks_counter (b_sbi st)).
  { rewrite (ba_counter _ _ Hb2), (ba_counter _ _ Hb), (fl_total _ _ _ _ _ _ Hfl2), (fl_total _ _ _ _ _ _ Hfl). lia. }
  exists st2. split; [done|]. split; [done|]. split; [|split; [done|split]].
  - intros y Hy. pose proof (group_in_range sb y Hy) as Hg. rewrite (fl_bits _ _ _ _ _ _ Hfl2), (fl_bits _ _ _ _ _ _ Hfl) by done.
    case_decide as Hr; [|done]. symmetry. by apply F3.
  - rewrite <- Hcnt, (ba_counter _ _ Hb2). exact (count_free_blocks_spec sb _ (ba_groups _ _ Hb2)).
  - intros y. rewrite Hch2, Hch. case_decide; lia.
Qed.

Lemma blocks_new_free_roundtrip_witness : exists n x st1 st2,
  ext2_new_blocks DemoBlocks.demo_rb DemoBlocks.demo_sb DemoBlocks.demo_env DemoBlocks.demo_state 12 6 3 = Ok (0, n, x, st1) /\
  ext2_free_blocks DemoBlocks.demo_sb st1 12 x n = Ok st2 /\ s_freeblocks_counter (b_sbi st2) = 25.
Proof.
  eexists _, _, _.
  eassert (E : ext2_new_blocks DemoBlocks.demo_rb DemoBlocks.demo_sb DemoBlocks.demo_env DemoBlocks.demo_state 12 6 3 = Ok (0, _, _, _))
    by (vm_compute; reflexivity).
  destruct (blocks_new_free_roundtrip DemoBlocks.demo_rb DemoBlocks.demo_sb DemoBlocks.demo_env DemoBlocks.demo_state 12 6 3 _ _ _
    DemoBlocks.demo_blocks_ok DemoBlocks.demo_windows_ok ltac:(done) ltac:(lia) E) as (st2 & E2 & _ & _ & Hc & _).
  exists st2. split; [exact E|]. split; [exact E2|exact Hc].
Defined.

(** [ext2_data_block_valid] accepts a region that starts at the number of blocks or
    runs past it: the end of the file system is compared with the first block of the
    region only, and with the wrong relation. *)
Theorem data_block_valid_past_end sb count : es_first_data_block sb < es_blocks_count sb -> s_sb_block sb < es_blocks_count sb ->
  0 <= count -> es_blocks_count sb + count < 2 ^ 64 -> 0 <= es_first_data_block sb ->
  ext2_data_block_valid sb (es_blocks_count sb) count = true.
Proof.
  intros H1 H2 H3 H4 H5. unfold ext2_data_block_valid. rewrite u64_id by lia.
  rewrite (proj2 (Z.leb_gt _ _)), !(proj2 (Z.ltb_ge _ _)) by lia. cbn [orb]. by rewrite (proj2 (Z.leb_gt _ _)) by lia.
Qed.

Lemma data_block_valid_past_end_witness : ext2_data_block_valid DemoBlocks.demo_sb 33 7 = true.
Proof. apply (data_block_valid_past_end DemoBlocks.demo_sb 7); vm_compute; reflexivity || discriminate. Defined.
