(* ===== verification/Ext2BlockMap.v ===== *)
(** * ext2: the blocks of a file

    The part of [fs/ext2/inode.c] that maps the blocks of a file to blocks of the disk:
    [ext2_get_blocks] with the functions that look branches up, allocate and splice them,
    and its callers.  The pointers of a file are the fifteen words [i_data] of the inode and
    the words of the indirect blocks in the buffer cache; a block that is not cached is read
    from the disk, a parameter.  A pointer to a word is the array that holds it and an index,
    so that two pointers into one buffer are aliases.  One operation runs at a time; the
    checks for a branch that has changed meanwhile are there.  Words are in the host's byte
    order; what the quota code adds to [i_blocks] is [b_charged] of the allocator. *)

From S2P Require Import Prelude CString ByteMem Ext2Layout Ext2Dir Ext2Super Ext2Inode Ext2Ialloc Ext2Balloc.

Definition EPERM : Z := 1.
Definition EAGAIN : Z := 11.

Definition EXT2_IND_BLOCK : Z := 12.
Definition EXT2_DIND_BLOCK : Z := 13.
Definition EXT2_TIND_BLOCK : Z := 14.

(** What the rest of the kernel answers. *)
Record map_env : Type := MapEnv {
  me_blocks : block_env;
  me_disk : Z -> option (list Z);      (* the words of a block on the disk *)
  sb_getblk_ok : Z -> bool;            (* a buffer for the block can be had *)
  current_pid : Z;
  sb_issue_zeroout : Z -> Z -> Z;      (* first block and number: 0 or an error *)
  IS_SYNC : inode -> bool;             (* the inode or the file system is synchronous *)
  IS_DIRSYNC : inode -> bool;          (* so are its directories *)
  map_time : Z }.

(** The fields of [struct ext2_inode_info] that [inode] does not have, with the time of the
    last access; [ei_new] is the bit [EXT2_STATE_NEW]. *)
Record inode_info : Type := InodeInfo {
  i_file_acl : Z; i_dir_acl : Z; i_dtime : Z; i_faddr : Z; i_frag_no : Z; i_frag_size : Z; ei_new : bool; i_atime : Z }.

(** The inode, its block pointers, the cached indirect blocks, those of them that are on a
    list of dirty buffers, the variable [nr] of [__ext2_truncate_blocks], whose
    address is passed on, and the allocator. *)
Record mstate : Type := MState {
  m_inode : inode; m_info : inode_info; i_data : list Z; m_bufs : gmap Z (list Z); m_assoc : gset Z; m_nr : Z;
  m_blk : bstate }.

Definition set_inode x s := let 'MState _ i b c d e f := s in MState x i b c d e f.
Definition set_info x s := let 'MState a _ b c d e f := s in MState a x b c d e f.
Definition set_idata x s := let 'MState a i _ c d e f := s in MState a i x c d e f.
Definition set_bufs x s := let 'MState a i b _ d e f := s in MState a i b x d e f.
Definition set_assoc x s := let 'MState a i b c _ e f := s in MState a i b c x e f.
Definition set_nr x s := let 'MState a i b c d _ f := s in MState a i b c d x f.
Definition set_blk x s := let 'MState a i b c d e _ := s in MState a i b c d e x.

Definition ino_of (s : mstate) : Z := i_ino (core (m_inode s)).
Definition dirty_inode (s : mstate) : mstate := set_inode (mark_inode_dirty (m_inode s)) s.
Definition mark_buffer_dirty_inode (b : Z) (s : mstate) : mstate := set_assoc ({[b]} ∪ m_assoc s) s.

(** The array that a pointer points into. *)
Inductive base : Type := InInode | InBlock (b : Z) | InNr.

#[export] Instance base_eq_dec : EqDecision base.
Proof. solve_decision. Defined.

(** [Indirect]: the array is also the field [bh], which is null for the inode's own. *)
Record Indirect : Type := Ind { ind_base : base; ind_off : Z; ind_key : Z }.

Section MapC.
Context (rb : rb_lib) (sb : sb_info) (blkbits : Z) (env : map_env).

Definition EXT2_BLOCK_SIZE : Z := Z.shiftl 1 blkbits.
Definition EXT2_ADDR_PER_BLOCK : Z := EXT2_BLOCK_SIZE / 4.
Definition EXT2_ADDR_PER_BLOCK_BITS : Z := Z.log2 EXT2_ADDR_PER_BLOCK.

(** ** Words *)

(** The contents of a block: from the cache or, if it is not there, from the disk. *)
Definition buf (s : mstate) (b : Z) : option (list Z) :=
  match m_bufs s !! b with Some c => Some c | None => me_disk env b end.

Definition load (s : mstate) (p : base) (off : Z) : res Z :=
  let* a := match p with InInode => Ok (i_data s) | InBlock b => deref (buf s b) | InNr => Ok [m_nr s] end in
  if off <? 0 then Undef OutOfBoundsRead
  else match a !! Z.to_nat off with Some x => Ok x | None => Undef OutOfBoundsRead end.

Definition store (p : base) (off v : Z) (s : mstate) : res mstate :=
  let put a := if (0 <=? off) && (off <? Z.of_nat (length a)) then Ok (<[Z.to_nat off := v]> a) else Undef BufferOverflow in
  match p with
  | InInode => let* a := put (i_data s) in Ok (set_idata a s)
  | InBlock b => let* c := deref (buf s b) in let* c := put c in Ok (set_bufs (<[b := c]> (m_bufs s)) s)
  | InNr => let* _ := put [m_nr s] in Ok (set_nr v s)
  end.

Definition bforget (b : Z) (s : mstate) : mstate :=
  set_bufs (delete b (m_bufs s)) (set_assoc (m_assoc s ∖ {[b]}) s).

(** ** Paths *)

(** The offsets of the pointers that lead to the block, and the number of blocks after it
    up to the end of its array. *)
Definition ext2_block_to_path (i_block : Z) : list Z * Z :=
  let ptrs := EXT2_ADDR_PER_BLOCK in
  let ptrs_bits := EXT2_ADDR_PER_BLOCK_BITS in
  let direct_blocks := Z.of_nat EXT2_NDIR_BLOCKS in
  let indirect_blocks := ptrs in
  let double_blocks := Z.shiftl 1 (ptrs_bits * 2) in
  let low b := Z.land b (ptrs - 1) in
  if i_block <? 0 then ([], 0 - 1 - low i_block)
  else if i_block <? direct_blocks then ([i_block], direct_blocks - 1 - low i_block)
  else
    let i_block := i_block - direct_blocks in
    if i_block <? indirect_blocks then ([EXT2_IND_BLOCK; i_block], ptrs - 1 - low i_block)
    else
      let i_block := i_block - indirect_blocks in
      if i_block <? double_blocks
      then ([EXT2_DIND_BLOCK; Z.shiftr i_block ptrs_bits; low i_block], ptrs - 1 - low i_block)
      else
        let i_block := i_block - double_blocks in
        if Z.shiftr i_block (ptrs_bits * 2) <? ptrs
        then ([EXT2_TIND_BLOCK; Z.shiftr i_block (ptrs_bits * 2); low (Z.shiftr i_block ptrs_bits); low i_block],
              ptrs - 1 - low i_block)
        else ([], 0 - 1 - low i_block).

(** ** Looking a branch up *)

Definition add_chain (s : mstate) (p : base) (off : Z) : res Indirect :=
  let* key := load s p off in Ok (Ind p off key).

Fixpoint verify_chain (s : mstate) (chain : list Indirect) : res bool :=
  match chain with
  | [] => Ok true
  | from :: chain =>
      let* x := load s (ind_base from) (ind_off from) in
      if ind_key from =? x then verify_chain s chain else Ok false
  end.

(** The loop of [ext2_get_branch]: [chain] is filled up to [p].  The error, whether the
    whole branch was found, and the chain. *)
Fixpoint branch_loop (s : mstate) (offsets : list Z) (chain : list Indirect) (p : Indirect) :
    res (Z * bool * list Indirect) :=
  match offsets with
  | [] => Ok (0, true, chain)
  | off :: offsets =>
      match buf s (ind_key p) with
      | None => Ok (- EIO, false, chain)
      | Some _ =>
          let* same := verify_chain s chain in
          if negb same then Ok (- EAGAIN, false, chain)
          else
            let* q := add_chain s (InBlock (ind_key p)) off in
            let chain := chain ++ [q] in
            if ind_key q =? 0 then Ok (0, false, chain) else branch_loop s offsets chain q
      end
  end.

Definition ext2_get_branch (s : mstate) (offsets : list Z) : res (Z * bool * list Indirect) :=
  match offsets with
  | [] => Undef OutOfBoundsRead
  | off :: offsets =>
      let* p := add_chain s InInode off in
      if ind_key p =? 0 then Ok (0, false, [p]) else branch_loop s offsets [p] p
  end.

(** ** Where to allocate *)

(** The loop of [ext2_find_near]: the last word before index [n] that is not zero. *)
Fixpoint near_loop (s : mstate) (p : base) (n : nat) : res Z :=
  match n with
  | O => Ok 0
  | S n' => let* x := load s p (Z.of_nat n') in if x =? 0 then near_loop s p n' else Ok x
  end.

Definition ext2_find_near (s : mstate) (ind : Indirect) : res Z :=
  let* x := near_loop s (ind_base ind) (Z.to_nat (ind_off ind)) in
  if negb (x =? 0) then Ok x
  else
    match ind_base ind with
    | InBlock b => Ok b
    | _ =>
        let bg_start := ext2_group_first_block_no sb (i_block_group (m_inode s)) in
        let colour := Z.rem (current_pid env) 16 * (EXT2_BLOCKS_PER_GROUP sb / 16) in
        Ok (u64 (bg_start + colour))
    end.

Definition ext2_find_goal (s : mstate) (block : Z) (partial : Indirect) : res Z :=
  match rsv_nodes (b_rsv (m_blk s)) !! ino_of s, last_alloc (b_rsv (m_blk s)) !! ino_of s with
  | Some _, Some (logical, physical) =>
      if (block =? u32 (logical + 1)) && negb (physical =? 0) then Ok (u64 (physical + 1)) else ext2_find_near s partial
  | _, _ => ext2_find_near s partial
  end.

(** The loop of [ext2_blks_to_allocate] over the words that are zero. *)
Fixpoint count_free (fuel : nat) (s : mstate) (branch : Indirect) (count blks blocks_to_boundary : Z) : res Z :=
  if (count <? blks) && (count <=? blocks_to_boundary) then
    match fuel with
    | O => NoFuel
    | S fuel' =>
        let* x := load s (ind_base branch) (ind_off branch + count) in
        if x =? 0 then count_free fuel' s branch (count + 1) blks blocks_to_boundary else Ok count
    end
  else Ok count.

Definition ext2_blks_to_allocate (s : mstate) (branch : Indirect) (k blks blocks_to_boundary : Z) : res Z :=
  if 0 <? k then Ok (if blks <? blocks_to_boundary + 1 then blks else blocks_to_boundary + 1)
  else count_free (Z.to_nat blocks_to_boundary) s branch 1 blks blocks_to_boundary.

(** ** Allocation *)

Definition free_blocks (s : mstate) (block count : Z) : res mstate :=
  let* b := ext2_free_blocks sb (m_blk s) (ino_of s) block count in Ok (set_blk b s).

Fixpoint free_each (s : mstate) (blocks : list Z) : res mstate :=
  match blocks with
  | [] => Ok s
  | x :: blocks => let* s := free_blocks s x 1 in free_each s blocks
  end.

(** The inner loop of [ext2_alloc_blocks]: [n] indirect blocks are still to be had. *)
Fixpoint fill_blocks (n : nat) (current_block count : Z) (new_blocks : list Z) : Z * Z * list Z :=
  match n with
  | O => (current_block, count, new_blocks)
  | S n' =>
      if count =? 0 then (current_block, count, new_blocks)
      else fill_blocks n' (current_block + 1) (count - 1) (new_blocks ++ [current_block])
  end.

(** The error, the number of direct blocks, and the new blocks: the indirect ones and the
    first direct one.  Every round allocates a block at least. *)
Fixpoint alloc_loop (fuel : nat) (s : mstate) (goal : Z) (indirect_blks : nat) (target : Z) (new_blocks : list Z) :
    res (Z * Z * list Z * mstate) :=
  match fuel with
  | O => NoFuel
  | S fuel' =>
      let* '(err, count, current_block, b) := ext2_new_blocks rb sb (me_blocks env) (m_blk s) (ino_of s) goal target in
      let s := set_blk b s in
      if negb (err =? 0) then
        let* s := free_each s new_blocks in
        Ok (err, 0, new_blocks, match new_blocks with [] => s | _ => dirty_inode s end)
      else
        let target := target - count in
        let '(current_block, count, new_blocks) :=
          fill_blocks (indirect_blks - length new_blocks) current_block count new_blocks in
        if 0 <? count then Ok (0, count, new_blocks ++ [current_block], s)
        else alloc_loop fuel' s goal indirect_blks target new_blocks
  end.

Definition ext2_alloc_blocks (s : mstate) (goal : Z) (indirect_blks : nat) (blks : Z) : res (Z * Z * list Z * mstate) :=
  alloc_loop (S indirect_blks) s goal indirect_blks (blks + Z.of_nat indirect_blks) [].

(** Consecutive numbers stored into consecutive words. *)
Fixpoint store_run (n : nat) (p : base) (off x : Z) (s : mstate) : res mstate :=
  match n with
  | O => Ok s
  | S n' => let* s := store p off (u32 x) s in store_run n' p (off + 1) (x + 1) s
  end.

(** The loop of [ext2_alloc_branch]: an indirect block for each offset, linked to the next
    of the new blocks; the last one points to the [num] direct blocks. *)
Fixpoint init_branch (s : mstate) (offsets new_blocks : list Z) (num : Z) (branch : list Indirect) :
    res (Z * list Indirect * mstate) :=
  match offsets, new_blocks with
  | [], _ => Ok (0, branch, s)
  | off :: offsets, parent :: ((child :: _) as new_blocks) =>
      if negb (sb_getblk_ok env parent) then Ok (- ENOMEM, branch, s)
      else
        let zeroed := replicate (Z.to_nat EXT2_ADDR_PER_BLOCK) 0 in
        let s := set_bufs (<[parent := zeroed]> (m_bufs s)) s in
        let* s := store (InBlock parent) off (u32 child) s in
        let* s := match offsets with
                  | [] => store_run (Z.to_nat (num - 1)) (InBlock parent) (off + 1) (child + 1) s
                  | _ => Ok s
                  end in
        init_branch (mark_buffer_dirty_inode parent s) offsets new_blocks num
          (branch ++ [Ind (InBlock parent) off (u32 child)])
  | _, _ => Undef OutOfBoundsRead
  end.

Definition forget_ind (s : mstate) (q : Indirect) : mstate :=
  match ind_base q with InBlock b => bforget b s | _ => s end.

(** The error, the number of direct blocks and the branch from [partial] on. *)
Definition ext2_alloc_branch (s : mstate) (indirect_blks : nat) (blks goal : Z) (offsets : list Z) (partial : Indirect) :
    res (Z * Z * list Indirect * mstate) :=
  let* '(err, num, new_blocks, s) := ext2_alloc_blocks s goal indirect_blks blks in
  if negb (err =? 0) then Ok (err, blks, [partial], s)
  else
    let* key := deref (head new_blocks) in
    let branch := Ind (ind_base partial) (ind_off partial) (u32 key) in
    let* '(err, more, s) := init_branch s (tail offsets) new_blocks num [] in
    if negb (err =? 0) then
      let s := fold_left forget_ind more s in
      let* s := free_each s (take indirect_blks new_blocks) in
      let* data := deref (new_blocks !! indirect_blks) in
      let* s := free_blocks s data num in Ok (err, blks, branch :: more, s)
    else Ok (0, num, branch :: more, s).

Definition set_last_alloc (s : mstate) (logical physical : Z) : mstate :=
  let w := b_rsv (m_blk s) in
  let w := match rsv_nodes w !! ino_of s with
           | Some _ => RsvState (rsv_nodes w) (s_rsv_window_root w) (<[ino_of s := (u32 logical, u64 physical)]> (last_alloc w))
           | None => w
           end in
  set_blk (BState (b_sbi (m_blk s)) w (b_charged (m_blk s))) s.

(** [where] is the missing link, [last] the last element of the branch. *)
Definition ext2_splice_branch (s : mstate) (block : Z) (where_ last : Indirect) (num : nat) (blks : Z) : res mstate :=
  let* s := store (ind_base where_) (ind_off where_) (ind_key where_) s in
  let* s := if (num =? 0)%nat && (1 <? blks)
            then store_run (Z.to_nat (blks - 1)) (ind_base where_) (ind_off where_ + 1) (ind_key where_ + 1) s
            else Ok s in
  let s := set_last_alloc s (block + blks - 1) (ind_key last + blks - 1) in
  let s := match ind_base where_ with InBlock b => mark_buffer_dirty_inode b s | _ => s end in
  let n := m_inode s in
  Ok (dirty_inode (set_inode (with_core (with_ctime (map_time env) (core n)) n) s)).

(** ** ext2_get_blocks *)

(** The number of blocks or an error, the first block, and the two flags. *)
Record got : Type := Got { g_ret : Z; g_bno : option Z; g_new : bool; g_boundary : bool }.

(** The loop that maps more blocks of a branch that was found. *)
Fixpoint map_more (fuel : nat) (s : mstate) (chain : list Indirect) (p : Indirect) (count maxblocks blocks_to_boundary : Z) :
    res (Z * Z) :=
  if (count <? maxblocks) && (count <=? blocks_to_boundary) then
    match fuel with
    | O => NoFuel
    | S fuel' =>
        let* same := verify_chain s chain in
        if negb same then Ok (- EAGAIN, 0)
        else
          let* blk := load s (ind_base p) (ind_off p + count) in
          if blk =? u64 (ind_key p + count) then map_more fuel' s chain p (count + 1) maxblocks blocks_to_boundary
          else Ok (0, count)
    end
  else Ok (0, count).

(** The rest of [ext2_get_blocks], when the last element of [chain] is the missing link. *)
Definition alloc_and_splice (s : mstate) (iblock maxblocks blocks_to_boundary : Z) (offsets : list Z)
    (chain : list Indirect) : res (got * mstate) :=
  let* partial := deref (last chain) in
  let s := if S_ISREG (i_mode (core (m_inode s))) && negb (bool_decide (is_Some (rsv_nodes (b_rsv (m_blk s)) !! ino_of s)))
    then set_blk (BState (b_sbi (m_blk s)) (ext2_init_block_alloc_info sb (me_blocks env) (ino_of s) (b_rsv (m_blk s)))
                    (b_charged (m_blk s))) s
    else s in
  let* goal := ext2_find_goal s iblock partial in
  let indirect_blks := (length offsets - length chain)%nat in
  let* count := ext2_blks_to_allocate s partial (Z.of_nat indirect_blks) maxblocks blocks_to_boundary in
  let* '(err, count, branch, s) :=
    ext2_alloc_branch s indirect_blks count goal (drop (length chain - 1) offsets) partial in
  if negb (err =? 0) then Ok (Got err None false false, s)
  else
    let* where_ := deref (head branch) in
    let* q := deref (last branch) in
    let err := if negb (Z.land (i_sflags (m_inode s)) S_DAX =? 0) then sb_issue_zeroout env (ind_key q) count else 0 in
    if negb (err =? 0) then Ok (Got err None false false, s)
    else
      let* s := ext2_splice_branch s iblock where_ q indirect_blks count in
      Ok (Got count (Some (ind_key q)) true (blocks_to_boundary <? count), s).

Definition ext2_get_blocks (s : mstate) (iblock maxblocks : Z) (create : bool) : res (got * mstate) :=
  if maxblocks =? 0 then Undef KernelBug
  else
    let '(offsets, blocks_to_boundary) := ext2_block_to_path iblock in
    if (length offsets =? 0)%nat then Ok (Got (- EIO) None false false, s)
    else
      let found count chain :=
        let* q := deref (last chain) in
        Ok (Got count (Some (ind_key q)) false (blocks_to_boundary <? count), s) in
      let* '(err, full, chain) := ext2_get_branch s offsets in
      let* '(err, count) :=
        if full : bool then
          let* q := deref (last chain) in
          map_more (Z.to_nat blocks_to_boundary) s chain q 1 maxblocks blocks_to_boundary
        else Ok (err, 0) in
      if full && negb (err =? - EAGAIN) then found count chain
      else if negb create || (err =? - EIO) then Ok (Got err None false false, s)
      else
        let* same := if err =? - EAGAIN then Ok false else verify_chain s chain in
        let* '(err, full, chain) := if same then Ok (err, false, chain) else ext2_get_branch s offsets in
        if full then found (count + 1) chain
        else alloc_and_splice s iblock maxblocks blocks_to_boundary offsets chain.

(** ** The callers of ext2_get_blocks *)

(** A buffer head as [ext2_get_block] fills it in. *)
Record buffer_head : Type := BufferHead { b_blocknr : Z; b_size : Z; b_new : bool; b_boundary : bool }.

(** [size] is the field [b_size] of the buffer at the call; a buffer that is not mapped
    stays as it is. *)
Definition ext2_get_block (s : mstate) (iblock size : Z) (create : bool) : res (Z * option buffer_head * mstate) :=
  let max_blocks := u32 (Z.shiftr size blkbits) in
  let* '(g, s) := ext2_get_blocks s iblock max_blocks create in
  if g_ret g <=? 0 then Ok (g_ret g, None, s)
  else
    let* bno := deref (g_bno g) in
    Ok (0, Some (BufferHead bno (Z.shiftl (g_ret g) blkbits) (g_new g) (g_boundary g)), s).

(** An extent of [fs/iomap.c]: a hole has no block.  The device is not part of it. *)
Record iomap : Type := Iomap { im_offset : Z; im_blkno : option Z; im_length : Z; im_merged : bool; im_new : bool }.

Definition ext2_iomap_begin (s : mstate) (offset length : Z) (write : bool) : res (Z * option iomap * mstate) :=
  let first_block := Z.shiftr offset blkbits in
  let max_blocks := Z.shiftr (length + Z.shiftl 1 blkbits - 1) blkbits in
  let* '(g, s) := ext2_get_blocks s first_block max_blocks write in
  if g_ret g <? 0 then Ok (g_ret g, None, s)
  else
    let off := Z.shiftl first_block blkbits in
    if g_ret g =? 0 then Ok (0, Some (Iomap off None (Z.shiftl 1 blkbits) false (g_new g)), s)
    else
      let* bno := deref (g_bno g) in
      Ok (0, Some (Iomap off (Some (Z.shiftl bno (blkbits - 9))) (Z.shiftl (g_ret g) blkbits) true (g_new g)), s).

(** ** Releasing branches *)

(** The words from [off] on are all zero. *)
Fixpoint all_zeroes (s : mstate) (p : base) (off : Z) (n : nat) : res bool :=
  match n with
  | O => Ok true
  | S n' => let* x := load s p off in if negb (x =? 0) then Ok false else all_zeroes s p (off + 1) n'
  end.

(** The first loop of [ext2_find_shared]: trailing zero offsets are dropped. *)
Fixpoint shared_depth (offsets : list Z) (k : nat) : nat :=
  match k with
  | S ((S _) as k') => if default 0 (offsets !! k') =? 0 then shared_depth offsets k' else k
  | _ => k
  end.

(** The loop up the chain: past the blocks with nothing before the path. *)
Fixpoint shared_loop (s : mstate) (chain : list Indirect) (i : nat) : res nat :=
  match i with
  | O => Ok O
  | S i' =>
      let* p := deref (chain !! i) in
      let* z := all_zeroes s (ind_base p) 0 (Z.to_nat (ind_off p)) in
      if z : bool then shared_loop s chain i' else Ok i
  end.

(** The chain up to [partial]; the top of the branch is left in the variable [nr]. *)
Definition ext2_find_shared (s : mstate) (offsets : list Z) : res (list Indirect * mstate) :=
  let s := set_nr 0 s in
  let k := shared_depth offsets (length offsets) in
  let* '(_, _, chain) := ext2_get_branch s (take k offsets) in
  let* partial := deref (last chain) in
  let* now := load s (ind_base partial) (ind_off partial) in
  if (ind_key partial =? 0) && negb (now =? 0) then Ok (chain, s)
  else
    let* i := shared_loop s chain (length chain - 1) in
    let* p := deref (chain !! i) in
    if (i =? k - 1)%nat && (0 <? i)%nat
    then Ok (take i chain ++ [Ind (ind_base p) (ind_off p - 1) (ind_key p)], s)
    else
      let* top := load s (ind_base p) (ind_off p) in
      let* s := store (ind_base p) (ind_off p) 0 s in
      Ok (take (S i) chain, set_nr top s).

(** The loop of [ext2_free_data] and the call after it. *)
Fixpoint free_data_loop (n : nat) (p : base) (off block_to_free count : Z) (s : mstate) : res mstate :=
  match n with
  | O => if 0 <? count then let* s := free_blocks s block_to_free count in Ok (dirty_inode s) else Ok s
  | S n' =>
      let* nr := load s p off in
      if nr =? 0 then free_data_loop n' p (off + 1) block_to_free count s
      else
        let* s := store p off 0 s in
        if count =? 0 then free_data_loop n' p (off + 1) nr 1 s
        else if block_to_free =? u64 (nr - count) then free_data_loop n' p (off + 1) block_to_free (count + 1) s
        else
          let* s := free_blocks s block_to_free count in
          free_data_loop n' p (off + 1) nr 1 (dirty_inode s)
  end.

Definition ext2_free_data (p : base) (off : Z) (n : nat) (s : mstate) : res mstate := free_data_loop n p off 0 0 s.

(** The loop of [ext2_free_branches]; [free_below] is the call for the next level. *)
Fixpoint branches_loop (free_below : base -> Z -> nat -> mstate -> res mstate) (n : nat) (p : base) (off : Z) (s : mstate) :
    res mstate :=
  match n with
  | O => Ok s
  | S n' =>
      let* nr := load s p off in
      if nr =? 0 then branches_loop free_below n' p (off + 1) s
      else
        let* s := store p off 0 s in
        match buf s nr with
        | None =>
            let b := m_blk s in
            branches_loop free_below n' p (off + 1)
              (set_blk (BState (sb_report (ReadFailure (ino_of s) nr) (b_sbi b)) (b_rsv b) (b_charged b)) s)
        | Some _ =>
            let* s := free_below (InBlock nr) 0 (Z.to_nat EXT2_ADDR_PER_BLOCK) s in
            let* s := free_blocks (bforget nr s) nr 1 in
            branches_loop free_below n' p (off + 1) (dirty_inode s)
        end
  end.

(** The branches that start at [n] words from [off] on. *)
Fixpoint ext2_free_branches (depth : nat) (p : base) (off : Z) (n : nat) (s : mstate) : res mstate :=
  match depth with
  | O => ext2_free_data p off n s
  | S depth => branches_loop (ext2_free_branches depth) n p off s
  end.

(** ** Truncation *)

(** The loop that clears the ends of the indirect blocks of the shared branch; [chain] goes
    up to [partial], [n] is the length of the path. *)
Fixpoint clear_ends (n : nat) (chain : list Indirect) (i : nat) (s : mstate) : res mstate :=
  match i with
  | O => Ok s
  | S i' =>
      let* q := deref (chain !! i) in
      match ind_base q with
      | InBlock b =>
          let* s := ext2_free_branches (n - 1 - i) (InBlock b) (ind_off q + 1)
                      (Z.to_nat (EXT2_ADDR_PER_BLOCK - (ind_off q + 1))) s in
          clear_ends n chain i' (mark_buffer_dirty_inode b s)
      | _ => Undef NullDeref
      end
  end.

(** A whole subtree of the inode. *)
Definition kill_tree (k : Z) (depth : nat) (s : mstate) : res mstate :=
  let* nr := load s InInode k in
  let s := set_nr nr s in
  if nr =? 0 then Ok s
  else
    let* s := store InInode k 0 s in ext2_free_branches depth InNr 0 1 (dirty_inode s).

(** From [do_indirects] on: the cases fall through. *)
Definition do_indirects (first : Z) (s : mstate) : res mstate :=
  let* s := if first <? EXT2_IND_BLOCK then kill_tree EXT2_IND_BLOCK 1 s else Ok s in
  let* s := if first <? EXT2_DIND_BLOCK then kill_tree EXT2_DIND_BLOCK 2 s else Ok s in
  let* s := if first <? EXT2_TIND_BLOCK then kill_tree EXT2_TIND_BLOCK 3 s else Ok s in
  let* w := ext2_discard_reservation rb (ino_of s) (b_rsv (m_blk s)) in
  Ok (set_blk (BState (b_sbi (m_blk s)) w (b_charged (m_blk s))) s).

(** The branch that leads to the first block to go. *)
Definition cut_branch (offsets : list Z) (s : mstate) : res mstate :=
  let n := length offsets in
  let* '(chain, s) := ext2_find_shared s offsets in
  let i := (length chain - 1)%nat in
  let* s :=
    if m_nr s =? 0 then Ok s
    else
      let s := match last chain with
               | Some (Ind (InBlock b) _ _) => mark_buffer_dirty_inode b s
               | _ => dirty_inode s
               end in
      ext2_free_branches (n - 1 - i) InNr 0 1 s in
  clear_ends n chain i s.

Definition __ext2_truncate_blocks (offset : Z) (s : mstate) : res mstate :=
  let iblock := Z.shiftr (offset + EXT2_BLOCK_SIZE - 1) blkbits in
  let s := set_nr 0 s in
  match ext2_block_to_path iblock with
  | ([], _) => Ok s
  | ((first :: more) as offsets, _) =>
      let* s := match more with
                | [] => ext2_free_data InInode first (Z.to_nat (Z.of_nat EXT2_NDIR_BLOCKS - first)) s
                | _ => cut_branch offsets s
                end in
      do_indirects first s
  end.

(** ** Truncation of an inode *)

(** [i_blocks], in sectors: what the inode had when it was read, and what the quota code has
    added and taken away since. *)
Definition inode_blocks (s : mstate) : Z :=
  i_blocks (core (m_inode s)) + default 0 (b_charged (m_blk s) !! ino_of s) * Z.shiftr EXT2_BLOCK_SIZE 9.

Definition ext2_inode_is_fast_symlink (s : mstate) : bool :=
  let ea_blocks := if i_file_acl (m_info s) =? 0 then 0 else Z.shiftr EXT2_BLOCK_SIZE 9 in
  S_ISLNK (i_mode (core (m_inode s))) && (inode_blocks s - ea_blocks =? 0).

Definition has_blocks (mode : Z) : bool := S_ISREG mode || S_ISDIR mode || S_ISLNK mode.

Definition append_or_immutable (n : inode) : bool :=
  negb (Z.land (i_sflags n) S_APPEND =? 0) || negb (Z.land (i_sflags n) S_IMMUTABLE =? 0).

Definition ext2_truncate_blocks (offset : Z) (s : mstate) : res mstate :=
  if negb (has_blocks (i_mode (core (m_inode s)))) then Ok s
  else if ext2_inode_is_fast_symlink s then Ok s
  else if append_or_immutable (m_inode s) then Ok s
  else __ext2_truncate_blocks offset s.

(** [inode_needs_sync] of [fs/inode.c]. *)
Definition inode_needs_sync (n : inode) : bool := IS_SYNC env n || S_ISDIR (i_mode (core n)) && IS_DIRSYNC env n.

(** [truncate_page] is the result of the function that clears the rest of the last page.
    Writing a synchronous inode out changes nothing here. *)
Definition ext2_setsize (truncate_page : Z -> Z) (newsize : Z) (s : mstate) : res (Z * mstate) :=
  if negb (has_blocks (i_mode (core (m_inode s)))) then Ok (- EINVAL, s)
  else if ext2_inode_is_fast_symlink s then Ok (- EINVAL, s)
  else if append_or_immutable (m_inode s) then Ok (- EPERM, s)
  else
    let error := truncate_page newsize in
    if negb (error =? 0) then Ok (error, s)
    else
      let n := m_inode s in
      let* s := __ext2_truncate_blocks newsize (set_inode (with_core (set_size newsize (core n)) n) s) in
      let n := m_inode s in
      let s := set_inode (with_core (with_times (map_time env) (core n)) n) s in
      Ok (0, if inode_needs_sync (m_inode s) then s else dirty_inode s).

(** ** Writing *)

(** Blocks that a failed write has allocated past the end of the file are released. *)
Definition ext2_write_failed (to : Z) (s : mstate) : res mstate :=
  let size := i_size (core (m_inode s)) in
  if size <? to then ext2_truncate_blocks size s else Ok s.

(** [begin] is [block_write_begin] or [nobh_write_begin], which call [ext2_get_block]. *)
Definition ext2_write_begin (begin : mstate -> res (Z * mstate)) (pos len : Z) (s : mstate) : res (Z * mstate) :=
  let* '(ret, s) := begin s in
  if ret <? 0 then let* s := ext2_write_failed (pos + len) s in Ok (ret, s) else Ok (ret, s).

(** [end_] is [generic_write_end]; [ret < len] compares as [unsigned]. *)
Definition ext2_write_end (end_ : mstate -> res (Z * mstate)) (pos len : Z) (s : mstate) : res (Z * mstate) :=
  let* '(ret, s) := end_ s in
  if u32 ret <? len then let* s := ext2_write_failed (pos + len) s in Ok (ret, s) else Ok (ret, s).

(** [dio] is [blockdev_direct_IO]. *)
Definition ext2_direct_IO (dio : mstate -> res (Z * mstate)) (write : bool) (offset count : Z) (s : mstate) : res (Z * mstate) :=
  if negb (Z.land (i_sflags (m_inode s)) S_DAX =? 0) then Ok (- EIO, s)
  else
    let* '(ret, s) := dio s in
    if (ret <? 0) && write then let* s := ext2_write_failed (offset + count) s in Ok (ret, s) else Ok (ret, s).

Definition ext2_iomap_end (map : iomap) (offset length written : Z) (write : bool) (s : mstate) : res (Z * mstate) :=
  if bool_decide (is_Some (im_blkno map)) && (written <? length) && write
  then let* s := ext2_write_failed (offset + length) s in Ok (0, s) else Ok (0, s).
End MapC.
