(* ===== verification/Ext2BlockTree.v ===== *)
(** * ext2: trees of block pointers

    The abstract view of the pointers of a file.  [B] gives the words of the blocks; a word
    at depth [d] is zero or the number of a block below which there are [d] levels of
    pointers.  [owned] lists the blocks of such a tree, [follow] walks down a path, and the
    lemmas say how both change when the words of one block of the tree change. *)

From S2P Require Import Prelude.

Notation contents := (Z -> option (list Z)).

Fixpoint owned (B : contents) (d : nat) (nr : Z) : list Z :=
  if nr =? 0 then []
  else nr :: match d with
             | O => []
             | S d' => match B nr with Some c => concat (imap (fun _ w => owned B d' w) c) | None => [] end
             end.

(** The blocks below the words of an array; [lv] is the depth of each slot. *)
Definition arr (B : contents) (lv : nat -> nat) (c : list Z) : list Z := concat (imap (fun k w => owned B (lv k) w) c).

Fixpoint follow (B : contents) (nr : Z) (q : list nat) : Z :=
  match q with
  | [] => nr
  | o :: q =>
      if nr =? 0 then 0
      else match B nr with Some c => follow B (default 0 (c !! o)) q | None => 0 end
  end.

(** The path that starts at a word of the array. *)
Definition look (B : contents) (c : list Z) (q : list nat) : Z :=
  match q with [] => 0 | k :: q => follow B (default 0 (c !! k)) q end.

(** Every block of pointers can be read and has [ptrs] words. *)
Fixpoint shaped (ptrs : nat) (B : contents) (d : nat) (nr : Z) : Prop :=
  nr = 0 \/
  match d with
  | O => True
  | S d' => exists c, B nr = Some c /\ length c = ptrs /\ forall k w, c !! k = Some w -> shaped ptrs B d' w
  end.

(** [q] is a proper prefix of [r]. *)
Definition below (q r : list nat) : Prop := exists o r', r = q ++ o :: r'.

(** ** Elements *)

Lemma owned_0 B d : owned B d 0 = [].
Proof. by destruct d. Qed.

Lemma owned_S B d nr : nr <> 0 ->
  owned B (S d) nr = nr :: match B nr with Some c => arr B (fun _ => d) c | None => [] end.
Proof. intros Hnr. simpl. by rewrite (proj2 (Z.eqb_neq nr 0) Hnr). Qed.

Lemma owned_leaf B nr : nr <> 0 -> owned B 0 nr = [nr].
Proof. intros Hnr. simpl. by rewrite (proj2 (Z.eqb_neq nr 0) Hnr). Qed.

Lemma owned_self B d nr : nr <> 0 -> nr ∈ owned B d nr.
Proof. intros Hnr. destruct d; [rewrite owned_leaf|rewrite owned_S]; (done || left). Qed.

Lemma elem_of_arr B lv c x : x ∈ arr B lv c <-> exists k w, c !! k = Some w /\ x ∈ owned B (lv k) w.
Proof.
  unfold arr. rewrite list_elem_of_In, in_concat. split.
  - intros (l & Hl & Hin). apply list_elem_of_In, elem_of_lookup_imap in Hl as (k & w & -> & Hk).
    exists k, w. split; [done|]. by apply list_elem_of_In.
  - intros (k & w & Hk & Hin). exists (owned B (lv k) w). rewrite <- !list_elem_of_In. split; [|done].
    apply elem_of_lookup_imap. eauto.
Qed.

Lemma owned_nonzero B d : forall nr, 0 ∉ owned B d nr.
Proof.
  induction d as [|d IH]; intros nr; destruct (decide (nr = 0)) as [->|Hnr]; rewrite ?owned_0; try apply not_elem_of_nil.
  - rewrite owned_leaf by done. set_solver.
  - rewrite owned_S by done. apply not_elem_of_cons. split; [done|]. destruct (B nr) as [c|]; [|apply not_elem_of_nil].
    rewrite elem_of_arr. intros (k & w & _ & Hin). by apply (IH w).
Qed.

Lemma follow_0 B q : follow B 0 q = 0.
Proof. by destruct q. Qed.

Lemma follow_app B q : forall nr r, follow B nr (q ++ r) = follow B (follow B nr q) r.
Proof.
  induction q as [|o q IH]; intros nr r; [done|]. simpl. destruct (nr =? 0); [by rewrite follow_0|].
  destruct (B nr); [apply IH|by rewrite follow_0].
Qed.

Lemma look_app B c q r : q <> [] -> look B c (q ++ r) = follow B (look B c q) r.
Proof. destruct q as [|k q]; [done|]. intros _. simpl. apply follow_app. Qed.

(** ** Slots *)

(** A slot apart from the others. *)
Lemma arr_slot B lv c k w : c !! k = Some w -> arr B lv c ≡ₚ owned B (lv k) w ++ arr B lv (<[k := 0]> c).
Proof.
  intros Hk. unfold arr. rewrite <- (take_drop_middle c k w Hk) at 1.
  assert (Hl : (k < length c)%nat) by by apply lookup_lt_Some in Hk.
  rewrite insert_take_drop by done. rewrite !imap_app, !concat_app. cbn [imap concat].
  rewrite length_take_le, Nat.add_0_r, owned_0 by lia. solve_Permutation.
Qed.

Lemma arr_put B lv c k v : (k < length c)%nat -> arr B lv (<[k := v]> c) ≡ₚ owned B (lv k) v ++ arr B lv (<[k := 0]> c).
Proof.
  intros Hk. rewrite (arr_slot B lv (<[k := v]> c) k v) by by apply list_lookup_insert_eq. by rewrite list_insert_insert_eq.
Qed.

Lemma arr_ext B B' lv lv' c : (forall k w, c !! k = Some w -> owned B' (lv' k) w = owned B (lv k) w) -> arr B' lv' c = arr B lv c.
Proof. intros H. unfold arr. f_equal. apply imap_ext. intros k w Hk. by apply H. Qed.

(** ** Frames *)

Lemma owned_ext B B' d : forall nr, (forall x, x ∈ owned B d nr -> B' x = B x) -> owned B' d nr = owned B d nr.
Proof.
  induction d as [|d IH]; intros nr H; destruct (decide (nr = 0)) as [->|Hnr]; rewrite ?owned_0; try done.
  rewrite owned_S in H by done. rewrite !owned_S by done. rewrite (H nr) by left. destruct (B nr) as [c|] eqn:Ec; [|done].
  f_equal. apply arr_ext. intros k w Hk. apply IH. intros x Hx. apply H. right. apply elem_of_arr. eauto.
Qed.

Lemma follow_ext B B' d : forall nr r, (forall x, x ∈ owned B d nr -> B' x = B x) -> (length r <= d)%nat ->
  follow B' nr r = follow B nr r.
Proof.
  induction d as [|d IH]; intros nr r H Hr; destruct r as [|o r]; try done; simpl in Hr; [lia|].
  simpl. destruct (Z.eqb_spec nr 0) as [->|Hnr]; [done|]. rewrite owned_S in H by done. rewrite (H nr) by left.
  destruct (B nr) as [c|] eqn:Ec; [|done]. destruct (c !! o) as [w|] eqn:Ew; simpl; [|by rewrite !follow_0].
  apply IH; [|lia]. intros x Hx. apply H. right. apply elem_of_arr. eauto.
Qed.

Lemma shaped_0 ptrs B d : shaped ptrs B d 0.
Proof. destruct d; by left. Qed.

Lemma shaped_ext ptrs B B' d : forall nr, (forall x, x ∈ owned B d nr -> B' x = B x) -> shaped ptrs B d nr -> shaped ptrs B' d nr.
Proof.
  induction d as [|d IH]; intros nr H [->|Hs]; try (by left).
  - by right.
  - destruct (decide (nr = 0)) as [->|Hnr]; [by left|]. rewrite owned_S in H by done. destruct Hs as (c & Hc & Hl & Hk).
    right. exists c. split; [rewrite H by left; done|]. split; [done|]. intros k w Hw.
    apply IH; [|by eapply Hk]. intros x Hx. apply H. rewrite Hc. right. apply elem_of_arr. eauto.
Qed.

Lemma follow_owned B d : forall nr q, (length q <= d)%nat -> follow B nr q <> 0 -> follow B nr q ∈ owned B d nr.
Proof.
  induction d as [|d IH]; intros nr q Hq H0; (destruct q as [|o q]; [by apply owned_self|]); simpl in Hq; [lia|].
  simpl in H0 |- *. destruct (Z.eqb_spec nr 0) as [->|Hnr]; [done|]. right. destruct (B nr) as [c|]; [|done].
  destruct (c !! o) as [w|] eqn:Ew; simpl in H0 |- *; [|by rewrite follow_0 in H0].
  apply elem_of_arr. exists o, w. split; [done|]. apply IH; [lia|done].
Qed.

(** The blocks below different slots are different. *)
Lemma arr_disjoint B lv c k k' w w' x : NoDup (arr B lv c) -> c !! k = Some w -> c !! k' = Some w' -> k <> k' ->
  x ∈ owned B (lv k) w -> x ∉ owned B (lv k') w'.
Proof.
  intros Hnd Hk Hk' Hne Hx Hx'. rewrite (arr_slot _ _ _ k w Hk) in Hnd. apply NoDup_app in Hnd as (_ & Hd & _).
  apply (Hd x Hx). apply elem_of_arr. exists k', w'. split; [|done]. by rewrite list_lookup_insert_ne.
Qed.

Lemma arr_NoDup_slot B lv c k w : NoDup (arr B lv c) -> c !! k = Some w -> NoDup (owned B (lv k) w).
Proof. intros Hnd Hk. rewrite (arr_slot _ _ _ k w Hk) in Hnd. by apply NoDup_app in Hnd as [? _]. Qed.

(** A block of the tree is the root of a part of it. *)
Lemma owned_sub B e : forall q d nr b, follow B nr q = b -> b <> 0 -> d = (length q + e)%nat ->
  forall x, x ∈ owned B e b -> x ∈ owned B d nr.
Proof.
  induction q as [|o q IH]; intros d nr b Hq Hb -> x Hx; simpl in Hq; [by subst|].
  destruct (Z.eqb_spec nr 0) as [->|Hnr]; [congruence|]. cbn [length Nat.add]. rewrite owned_S by done. right.
  destruct (B nr) as [a|] eqn:Ea; [|congruence].
  destruct (a !! o) as [w|] eqn:Ew; simpl in Hq; [|rewrite follow_0 in Hq; congruence].
  apply elem_of_arr. exists o, w. split; [done|]. by eapply (IH _ w b).
Qed.

Lemma owned_sub_NoDup B e : forall q d nr b, follow B nr q = b -> b <> 0 -> d = (length q + e)%nat ->
  NoDup (owned B d nr) -> NoDup (owned B e b).
Proof.
  induction q as [|o q IH]; intros d nr b Hq Hb -> Hnd; simpl in Hq; [by subst|].
  destruct (Z.eqb_spec nr 0) as [->|Hnr]; [congruence|]. cbn [length Nat.add] in Hnd. rewrite owned_S in Hnd by done.
  apply NoDup_cons in Hnd as [_ Hnd]. destruct (B nr) as [a|] eqn:Ea; [|congruence].
  destruct (a !! o) as [w|] eqn:Ew; simpl in Hq; [|rewrite follow_0 in Hq; congruence].
  eapply (IH _ w b); [done..|]. by eapply (arr_NoDup_slot _ (fun _ => _)).
Qed.

(** ** A change in one block *)

(** The words of the block [b] become [c'], and those of no block outside its tree change;
    [M] goes from the tree and [N] comes into it. *)
Section Update.
Context (ptrs : nat) (B B' : contents) (b : Z) (c c' : list Z) (M N : list Z) (e : nat).
Hypothesis b_nonzero : b <> 0.
Hypothesis B_b : B b = Some c.
Hypothesis B'_b : B' b = Some c'.
Hypothesis change : arr B' (fun _ => e) c' ++ M ≡ₚ arr B (fun _ => e) c ++ N.
Hypothesis len' : length c' = ptrs.
Hypothesis shaped' : forall k w, c' !! k = Some w -> shaped ptrs B' e w.

(** What the change does to a tree in which [q] leads to the block. *)
Definition updated (d : nat) (nr : Z) (q : list nat) : Prop :=
  owned B' d nr ++ M ≡ₚ owned B d nr ++ N /\
  (forall r, (length r <= d)%nat -> ~ below q r -> follow B' nr r = follow B nr r) /\
  (shaped ptrs B d nr -> shaped ptrs B' d nr).

(** The slot on the path changes as its tree does, the others not at all. *)
Lemma update_slot lv a k w q : NoDup (arr B lv a) -> a !! k = Some w -> (forall x, x ∈ owned B (S e) b -> x ∈ owned B (lv k) w) ->
  (forall x, x ∈ arr B lv a -> x ∉ owned B (S e) b -> B' x = B x) -> updated (lv k) w q ->
  arr B' lv a ++ M ≡ₚ arr B lv a ++ N /\
  (forall k' w', a !! k' = Some w' -> k' <> k -> forall x, x ∈ owned B (lv k') w' -> B' x = B x).
Proof.
  intros Hnd Hk Hb Hf (Hp & _ & _).
  assert (Ho : forall k' w', a !! k' = Some w' -> k' <> k -> forall x, x ∈ owned B (lv k') w' -> B' x = B x).
  { intros k' w' Hk' Hne x Hx. apply Hf; [apply elem_of_arr; eauto|]. intros Hxb.
    eapply (arr_disjoint B lv a k' k w' w x); eauto. }
  split; [|done]. rewrite (arr_slot B' _ _ k w Hk), (arr_slot B _ _ k w Hk).
  assert (E : arr B' lv (<[k := 0]> a) = arr B lv (<[k := 0]> a)).
  { apply arr_ext. intros k' w' Hk'. destruct (decide (k' = k)) as [->|Hne].
    - rewrite list_lookup_insert_eq in Hk' by by eapply lookup_lt_Some. injection Hk' as <-. by rewrite !owned_0.
    - rewrite list_lookup_insert_ne in Hk' by done. apply owned_ext. by apply Ho. }
  rewrite E. rewrite <- !app_assoc, (Permutation_app_comm _ M), (Permutation_app_comm _ N), !app_assoc. by rewrite Hp.
Qed.

Lemma update_tree q : forall d nr, follow B nr q = b -> d = (length q + S e)%nat -> NoDup (owned B d nr) ->
  (forall x, x ∈ owned B d nr -> x ∉ owned B (S e) b -> B' x = B x) -> updated d nr q.
Proof using All.
  induction q as [|o q IH]; intros d nr Hq Hd Hnd Hf; subst d; simpl in Hq.
  - subst nr. unfold updated. cbn [length Nat.add]. rewrite !owned_S, B_b, B'_b by done. split; [|split].
    + rewrite <- !app_comm_cons. by constructor.
    + intros [|o r] _ Hr; [done|]. destruct Hr. by exists o, r.
    + intros _. right. eauto.
  - destruct (decide (nr = 0)) as [E0|Hnr]; [by rewrite E0 in Hq|].
    rewrite (proj2 (Z.eqb_neq nr 0) Hnr) in Hq. cbn [length Nat.add] in *. rewrite owned_S in Hnd, Hf by done.
    destruct (B nr) as [a|] eqn:Ea; [|done]. destruct (a !! o) as [w|] eqn:Ew; simpl in Hq; [|by rewrite follow_0 in Hq].
    apply NoDup_cons in Hnd as [Hnin Hnd].
    assert (Hb : forall x, x ∈ owned B (S e) b -> x ∈ owned B (length q + S e) w) by (intros x; by eapply owned_sub).
    assert (Hbn : nr ∉ owned B (S e) b). { intros Hx. apply Hnin, elem_of_arr. eauto. }
    assert (EB : B' nr = Some a) by (rewrite <- Ea; apply Hf; [left|done]).
    destruct (IH (length q + S e)%nat w) as (Hp & Hfo & Hsh); [done..|by eapply (arr_NoDup_slot _ (fun _ => _))|
      intros x Hx; apply Hf; right; apply elem_of_arr; eauto|].
    destruct (update_slot (fun _ => (length q + S e)%nat) a o w q) as [Hpa Ho]; [done..|intros x Hx; apply Hf; by right|by split_and!|].
    split; [|split].
    + rewrite !owned_S, EB, Ea by done. rewrite <- !app_comm_cons. by constructor.
    + intros [|o' r] Hr Hnb; [done|]. simpl in Hr |- *. rewrite (proj2 (Z.eqb_neq nr 0) Hnr), EB, Ea.
      destruct (decide (o' = o)) as [->|Hne].
      * rewrite Ew. apply Hfo; [lia|]. intros (o' & r' & ->). apply Hnb. by exists o', r'.
      * destruct (a !! o') as [w'|] eqn:Ew'; simpl; [|by rewrite !follow_0].
        eapply follow_ext; [|exact (le_S_n _ _ Hr)]. by apply (Ho o').
    + intros [->|(a' & Ha' & Hl & Hs)]; [done|]. rewrite Ea in Ha'. injection Ha' as <-. right. exists a. split_and!; [done..|].
      intros k' w' Hk'. destruct (decide (k' = o)) as [->|Hne].
      * rewrite Hk' in Ew. injection Ew as ->. by apply Hsh, (Hs o).
      * apply (shaped_ext ptrs B); [by apply (Ho k')|by apply (Hs k')].
Qed.

(** The same for the array of pointers in the inode. *)
Lemma update_array lv a k q : look B a (k :: q) = b -> lv k = (length q + S e)%nat -> NoDup (arr B lv a) ->
  (forall x, x ∈ arr B lv a -> x ∉ owned B (S e) b -> B' x = B x) ->
  arr B' lv a ++ M ≡ₚ arr B lv a ++ N /\
  (forall k' r, (length r <= lv k')%nat -> ~ below (k :: q) (k' :: r) -> look B' a (k' :: r) = look B a (k' :: r)) /\
  ((forall k' w, a !! k' = Some w -> shaped ptrs B (lv k') w) -> forall k' w, a !! k' = Some w -> shaped ptrs B' (lv k') w).
Proof using All.
  intros Hq Hlv Hnd Hf. simpl in Hq. destruct (a !! k) as [w|] eqn:Ew; simpl in Hq; [|by rewrite follow_0 in Hq].
  assert (Hb : forall x, x ∈ owned B (S e) b -> x ∈ owned B (lv k) w) by (intros x; by eapply owned_sub).
  destruct (update_tree q (lv k) w) as (Hp & Hfo & Hsh); [done..|by eapply arr_NoDup_slot|
    intros x Hx; apply Hf; apply elem_of_arr; eauto|].
  destruct (update_slot lv a k w q) as [Hpa Ho]; [done..|].
  split; [done|]. split.
  - intros k' r Hr Hnb. simpl. destruct (decide (k' = k)) as [->|Hne].
    + rewrite Ew. apply Hfo; [done|]. intros (o' & r' & ->). apply Hnb. by exists o', r'.
    + destruct (a !! k') as [w'|] eqn:Ew'; simpl; [|by rewrite !follow_0]. by apply (follow_ext B B' (lv k')); [apply Ho|].
  - intros Hs k' w' Hk'. destruct (decide (k' = k)) as [->|Hne].
    + rewrite Hk' in Ew. injection Ew as ->. by apply Hsh, Hs.
    + apply (shaped_ext ptrs B); [by apply (Ho k')|by apply Hs].
Qed.
End Update.
