(* ===== verification/Ext2BlockPath.v ===== *)
(** * ext2: block numbers and paths

    [ext2_block_to_path] of [fs/ext2/inode.c] against its inverse: the paths of the pointers
    of a file, in the order of their offsets, are the numbers of its blocks in order, up to
    the largest block that the three levels of indirect blocks can hold. *)

From S2P Require Import Prelude CString ByteMem Ext2Layout Ext2Dir Ext2Super Ext2Inode Ext2Ialloc Ext2Balloc Ext2BlockMap.

(** Blocks of 1024 to 65536 bytes. *)
Class MapWf (blkbits : Z) : Prop := { blkbits_range : 10 <= blkbits <= 16 }.

(** The levels of pointers below a slot of the inode. *)
Definition dep (k : nat) : nat := (k - 11)%nat.

(** The lexicographic order. *)
Fixpoint lexlt (q r : list nat) : Prop :=
  match q, r with
  | a :: q, b :: r => (a < b)%nat \/ a = b /\ lexlt q r
  | _, _ => False
  end.

Lemma lexlt_irrefl q : ~ lexlt q q.
Proof. induction q as [|a q IH]; simpl; [tauto|]. intros [?|[_ ?]]; [lia|done]. Qed.

Lemma lexlt_total q : forall r, length q = length r -> lexlt q r \/ q = r \/ lexlt r q.
Proof.
  induction q as [|a q IH]; intros [|b r] Hl; simpl in *; [tauto|lia|lia|].
  destruct (lt_eq_lt_dec a b) as [[?| ->]|?]; [tauto| |tauto].
  destruct (IH r) as [?|[->|?]]; [lia|tauto..].
Qed.

(** The first difference. *)
Lemma lexlt_diff q : forall r, lexlt q r -> exists j, (j < length q)%nat /\ (j < length r)%nat /\ take j q = take j r /\
  (nth j q 0 < nth j r 0)%nat.
Proof.
  induction q as [|a q IH]; intros [|b r] H; try done. destruct H as [H|[-> H]].
  - exists 0%nat. simpl. split_and!; (lia || done).
  - destruct (IH r H) as (j & H1 & H2 & H3 & H4). exists (S j). simpl. split_and!; try lia. by rewrite H3.
Qed.

Lemma split_at (q : list nat) j : (j < length q)%nat -> q = take j q ++ nth j q 0%nat :: drop (S j) q.
Proof.
  intros Hj. symmetry. apply take_drop_middle. destruct (nth_lookup_or_length q j 0%nat); [done|lia].
Qed.

Section Paths.
Context (blkbits : Z) {G : MapWf blkbits}.

Notation p := (EXT2_ADDR_PER_BLOCK blkbits).
Definition ptrs : nat := Z.to_nat p.

Lemma addr_per_block : p = 2 ^ (blkbits - 2) /\ EXT2_ADDR_PER_BLOCK_BITS blkbits = blkbits - 2 /\ 256 <= p <= 16384.
Proof.
  destruct G as [Hb]. unfold EXT2_ADDR_PER_BLOCK_BITS, EXT2_ADDR_PER_BLOCK, EXT2_BLOCK_SIZE.
  assert (E : Z.shiftl 1 blkbits / 4 = 2 ^ (blkbits - 2)).
  { rewrite Z.shiftl_mul_pow2, Z.mul_1_l by lia. change 4 with (2 ^ 2). by rewrite <- Z.pow_sub_r by lia. }
  rewrite E. split; [done|]. split; [by rewrite Z.log2_pow2 by lia|].
  split; [change 256 with (2 ^ 8)|change 16384 with (2 ^ 14)]; apply Z.pow_le_mono_r; lia.
Qed.

Lemma ptrs_pos : Z.of_nat ptrs = p /\ 256 <= p <= 16384.
Proof. destruct addr_per_block as (_ & _ & H). unfold ptrs. lia. Qed.

(** ** Numbers of paths *)

Definition valid_path (q : list nat) : Prop :=
  match q with
  | [] => False
  | k :: r => (k < 15)%nat /\ length r = dep k /\ Forall (fun o => (o < ptrs)%nat) r
  end.

Fixpoint num (acc : Z) (r : list nat) : Z :=
  match r with [] => acc | o :: r => num (acc * p + Z.of_nat o) r end.

(** The first block below a slot of the inode. *)
Definition first_of (k : nat) : Z :=
  if (k <=? 12)%nat then Z.of_nat k else if (k =? 13)%nat then 12 + p else 12 + p + p * p.

Definition block_of (q : list nat) : Z :=
  match q with [] => 0 | k :: r => first_of k + num 0 r end.

Definition max_block : Z := 12 + p + p * p + p * p * p.

Lemma num_acc r : forall acc, num acc r = acc * p ^ Z.of_nat (length r) + num 0 r.
Proof.
  induction r as [|o r IH]; intros acc; cbn [num length]; [lia|]. rewrite IH, (IH (0 * p + Z.of_nat o)).
  rewrite Nat2Z.inj_succ, Z.pow_succ_r by lia. lia.
Qed.

Lemma num_range r : Forall (fun o => (o < ptrs)%nat) r -> 0 <= num 0 r < p ^ Z.of_nat (length r).
Proof.
  destruct ptrs_pos as [Ep Hp]. induction 1 as [|o r Ho _ IH]; cbn [num length]; [lia|].
  rewrite num_acc, Nat2Z.inj_succ, Z.pow_succ_r by lia. nia.
Qed.

Lemma num_lt q : forall r, length q = length r -> Forall (fun o => (o < ptrs)%nat) q -> Forall (fun o => (o < ptrs)%nat) r ->
  lexlt q r -> num 0 q < num 0 r.
Proof.
  induction q as [|a q IH]; intros [|b r] Hl Hq Hr Hlt; simpl in Hl, Hlt; try done.
  inversion_clear Hq as [|?? Ha Hq']. inversion_clear Hr as [|?? Hb Hr']. cbn [num].
  rewrite (num_acc q), (num_acc r). replace (length r) with (length q) by lia.
  pose proof (num_range q Hq'). pose proof (num_range r Hr') as Hnr. replace (length r) with (length q) in Hnr by lia.
  destruct Hlt as [Hlt|[-> Hlt]]; [nia|]. specialize (IH r ltac:(lia) Hq' Hr' Hlt). lia.
Qed.

(** The slots of the inode cover consecutive blocks. *)
Lemma first_of_next k k' : (k < k' < 15)%nat -> first_of k + p ^ Z.of_nat (dep k) <= first_of k'.
Proof.
  destruct ptrs_pos as [_ Hp]. intros Hk. unfold first_of, dep.
  destruct (Nat.leb_spec k' 12) as [H'|H'].
  { replace (k <=? 12)%nat with true by (symmetry; apply Nat.leb_le; lia). replace (k - 11)%nat with 0%nat by lia. lia. }
  assert (Hc : k' = 13%nat \/ k' = 14%nat) by lia. destruct (Nat.leb_spec k 12) as [H|H].
  - assert (Hk1 : (k - 11 = 0 \/ k = 12)%nat) by lia. destruct Hk1 as [Hk1| ->]; [rewrite Hk1|]; destruct Hc as [-> | ->]; cbn; nia.
  - assert (k = 13%nat) as -> by lia. assert (k' = 14%nat) as -> by lia. cbn. nia.
Qed.

Lemma valid_range q : valid_path q -> 0 <= block_of q < max_block.
Proof.
  destruct ptrs_pos as [_ Hp]. destruct q as [|k r]; [done|]. intros (Hk & Hl & Hr). cbn [block_of].
  pose proof (num_range r Hr) as Hn. rewrite Hl in Hn.
  assert (H0 : 0 <= first_of k) by (unfold first_of; repeat case_match; nia).
  split; [lia|]. destruct (decide (k = 14%nat)) as [->|Hne].
  - unfold first_of, max_block in *. cbn in *. nia.
  - pose proof (first_of_next k 14 ltac:(lia)). unfold max_block. change (first_of 14) with (12 + p + p * p) in *. nia.
Qed.

(** The order of the paths is that of the blocks. *)
Lemma block_of_lt q r : valid_path q -> valid_path r -> lexlt q r -> block_of q < block_of r.
Proof.
  destruct q as [|k q], r as [|k' r]; try done. intros (Hk & Hl & Hq) (Hk' & Hl' & Hr) [Hlt|[-> Hlt]]; cbn [block_of].
  - pose proof (first_of_next k k' ltac:(lia)). pose proof (num_range q Hq) as Hn. rewrite Hl in Hn.
    pose proof (num_range r Hr). lia.
  - pose proof (num_lt q r ltac:(congruence) Hq Hr Hlt). lia.
Qed.

Lemma valid_total q r : valid_path q -> valid_path r -> lexlt q r \/ q = r \/ lexlt r q.
Proof.
  destruct q as [|k q], r as [|k' r]; try done. intros (Hk & Hl & Hq) (Hk' & Hl' & Hr). simpl.
  destruct (lt_eq_lt_dec k k') as [[?| ->]|?]; [tauto| |tauto].
  destruct (lexlt_total q r) as [?|[->|?]]; [congruence|tauto..].
Qed.

Lemma block_of_inj q r : valid_path q -> valid_path r -> block_of q = block_of r -> q = r.
Proof.
  intros Hq Hr E. destruct (valid_total q r Hq Hr) as [H|[H|H]]; [|done|];
    apply block_of_lt in H; (done || lia).
Qed.

Lemma lexlt_block q r : valid_path q -> valid_path r -> block_of q < block_of r -> lexlt q r.
Proof.
  intros Hq Hr E. destruct (valid_total q r Hq Hr) as [H|[->|H]]; [done|lia|]. apply block_of_lt in H; (done || lia).
Qed.

(** ** ext2_block_to_path *)

Lemma low_bits b : Z.land b (p - 1) = b mod p.
Proof.
  destruct addr_per_block as (E & _ & _), G as [Hb]. rewrite E. replace (2 ^ (blkbits - 2) - 1) with (Z.ones (blkbits - 2)).
  - apply Z.land_ones. lia.
  - rewrite Z.ones_equiv. lia.
Qed.

Lemma high_bits b : Z.shiftr b (EXT2_ADDR_PER_BLOCK_BITS blkbits) = b / p /\
  Z.shiftr b (EXT2_ADDR_PER_BLOCK_BITS blkbits * 2) = b / (p * p) /\ Z.shiftl 1 (EXT2_ADDR_PER_BLOCK_BITS blkbits * 2) = p * p.
Proof.
  destruct addr_per_block as (E & -> & _), G as [Hb]. rewrite !E, !Z.shiftr_div_pow2, Z.shiftl_mul_pow2 by lia.
  replace (2 ^ ((blkbits - 2) * 2)) with (2 ^ (blkbits - 2) * 2 ^ (blkbits - 2)); [lia|].
  rewrite <- Z.pow_add_r by lia. f_equal. lia.
Qed.

(** The words of the array that ends a path. *)
Definition last_size (q : list nat) : Z := if (length q =? 1)%nat then 12 else p.

(** The path of a block, and the blocks that follow it in its array. *)
Definition is_path (i : Z) (q : list nat) : Prop :=
  valid_path q /\ block_of q = i /\
  ext2_block_to_path blkbits i = (map Z.of_nat q, last_size q - 1 - Z.of_nat (default 0%nat (last q))).

Lemma block_to_path_spec i : 0 <= i < max_block -> exists q, is_path i q.
Proof.
  destruct ptrs_pos as [Ep Hp]. unfold max_block. intros Hi. unfold is_path, ext2_block_to_path, EXT2_NDIR_BLOCKS.
  change (Z.of_nat 12) with 12. rewrite (proj2 (Z.ltb_ge i 0)) by lia.
  destruct (Z.ltb_spec i 12) as [H1|H1].
  { exists [Z.to_nat i]. rewrite low_bits, Z.mod_small by lia. unfold valid_path, block_of, first_of, dep, last_size. cbn [length map num].
    rewrite (proj2 (Nat.leb_le _ _)) by lia. split_and!; try lia; [constructor|]. cbn. by rewrite Z2Nat.id by lia. }
  destruct (Z.ltb_spec (i - 12) p) as [H2|H2].
  { exists [12%nat; Z.to_nat (i - 12)]. rewrite low_bits, Z.mod_small by lia. unfold valid_path, block_of, last_size. cbn [length map num].
    change (first_of 12) with 12. split_and!; try lia; [done|repeat constructor; lia|]. cbn. by rewrite Z2Nat.id by lia. }
  destruct (high_bits 0) as (_ & _ & Esq). rewrite Esq. set (j := i - 12 - p) in *.
  destruct (high_bits j) as (-> & _). rewrite !low_bits.
  pose proof (Z.div_mod j p ltac:(lia)) as Ed. pose proof (Z.mod_pos_bound j p ltac:(lia)) as Hm.
  destruct (Z.ltb_spec j (p * p)) as [H3|H3].
  { assert (Hd : 0 <= j / p < p) by (split; [apply Z.div_pos; lia|apply Z.div_lt_upper_bound; lia]).
    exists [13%nat; Z.to_nat (j / p); Z.to_nat (j mod p)]. unfold valid_path, block_of, last_size. cbn [length map num].
    change (first_of 13) with (12 + p). split_and!; try lia; [done|repeat constructor; lia|]. cbn. by rewrite !Z2Nat.id by lia. }
  set (l := j - p * p) in *. destruct (high_bits l) as (-> & -> & _). clear Ed Hm.
  pose proof (Z.div_mod l p ltac:(lia)) as Ed. pose proof (Z.mod_pos_bound l p ltac:(lia)) as Hm.
  pose proof (Z.div_mod (l / p) p ltac:(lia)) as Ed'. pose proof (Z.mod_pos_bound (l / p) p ltac:(lia)) as Hm'.
  assert (Ell : l / (p * p) = l / p / p) by (rewrite Z.div_div by lia; done). rewrite Ell.
  assert (Hd : 0 <= l / p / p < p).
  { split; [repeat apply Z.div_pos; lia|]. do 2 (apply Z.div_lt_upper_bound; [lia|]). lia. }
  rewrite (proj2 (Z.ltb_lt _ _)) by lia.
  exists [14%nat; Z.to_nat (l / p / p); Z.to_nat (l / p mod p); Z.to_nat (l mod p)].
  unfold valid_path, block_of, last_size. cbn [length map num].
  change (first_of 14) with (12 + p + p * p). split_and!; try nia; [done|repeat constructor; lia|]. cbn. by rewrite !Z2Nat.id by lia.
Qed.

Lemma block_to_path_outside i : ~ 0 <= i < max_block -> fst (ext2_block_to_path blkbits i) = [].
Proof.
  destruct ptrs_pos as [Ep Hp]. unfold max_block. intros Hi. unfold ext2_block_to_path, EXT2_NDIR_BLOCKS.
  change (Z.of_nat 12) with 12. destruct (Z.ltb_spec i 0) as [|H0]; [done|].
  rewrite (proj2 (Z.ltb_ge i 12)), (proj2 (Z.ltb_ge (i - 12) p)) by nia.
  destruct (high_bits 0) as (_ & _ & ->). rewrite (proj2 (Z.ltb_ge (i - 12 - p) (p * p))) by nia.
  destruct (high_bits (i - 12 - p - p * p)) as (_ & -> & _). rewrite (proj2 (Z.ltb_ge _ _)); [done|].
  apply Z.div_le_lower_bound; nia.
Qed.

Lemma is_path_unique i q r : is_path i q -> valid_path r -> block_of r = i -> r = q.
Proof. intros (Hq & Eq & _) Hr Er. apply block_of_inj; [done..|congruence]. Qed.

(** The blocks up to the boundary are in the same array. *)
Lemma path_step q r o j : is_path j q -> q = r ++ [o] -> forall i, 0 <= i <= last_size q - 1 - Z.of_nat o ->
  is_path (j + i) (r ++ [(o + Z.to_nat i)%nat]).
Proof.
  destruct ptrs_pos as [Ep Hp]. intros (Hv & Hb & Hpa) -> i Hi.
  assert (Hv' : valid_path (r ++ [(o + Z.to_nat i)%nat]) /\ block_of (r ++ [(o + Z.to_nat i)%nat]) = j + i).
  { unfold last_size in Hi. rewrite length_app in Hi. destruct r as [|k r].
    - cbn [app length Nat.add Nat.eqb valid_path block_of num] in Hv, Hb, Hi |- *. destruct Hv as (Hk & Hl & _). split_and!; [lia|unfold dep in *; lia|constructor|].
      unfold first_of, dep in *. destruct (Nat.leb_spec (o + Z.to_nat i) 12), (Nat.leb_spec o 12); lia.
    - cbn [app length] in Hi. replace (S (length r) + 1 =? 1)%nat with false in Hi by (symmetry; apply Nat.eqb_neq; lia).
      destruct Hv as (Hk & Hl & Hf). rewrite length_app in Hl. cbn [app valid_path block_of] in *.
      apply Forall_app in Hf as [Hf Ho]. apply Forall_singleton in Ho. rewrite length_app. split_and!; try done.
      + apply Forall_app. split; [done|]. apply Forall_singleton. lia.
      + assert (E : forall acc r x, num acc (r ++ [x]) = num acc r * p + Z.of_nat x).
        { intros acc r' x. revert acc. induction r' as [|y r' IH]; intros acc; cbn; [done|]. apply IH. }
        rewrite E in *. lia. }
  destruct Hv' as [Hv' Hb']. destruct (block_to_path_spec (j + i)) as (q & Hq); [rewrite <- Hb'; by apply valid_range|].
  by rewrite (is_path_unique _ _ _ Hq Hv' Hb').
Qed.
End Paths.
