(* ===== verification/Ext2BlockFacts.v ===== *)
(** * ext2: releasing the blocks of a file

    What the functions of [fs/ext2/inode.c] on block pointers change: the words of one
    array, the bits of a list of blocks in the bitmaps, and the blocks charged to the inode.
    [ext2_free_branches] clears words and frees exactly the blocks below them. *)

From S2P Require Import Prelude CString ByteMem Ext2Layout Ext2Dir Ext2Super Ext2Inode Ext2Ialloc Ext2IallocFacts.
From S2P Require Import Ext2Balloc Ext2BallocBits Ext2BallocRsv Ext2BallocGroup Ext2BallocFacts Ext2BallocAlloc Ext2BallocFree.
From S2P Require Import Ext2BlockMap Ext2BlockTree Ext2BlockPath.

Section BlockFacts.
Context (sb : sb_info) {W : SbWf sb} {B : BlkWf sb} (blkbits : Z) {G : MapWf blkbits} (env : map_env).

Notation bbit s := (bbit sb s).
Notation buf := (buf env).
Notation ptrs := (ptrs blkbits).

Definition in_zone (x : Z) : Prop := es_first_data_block sb <= x < es_blocks_count sb.

(** ** Bits *)

(** The bits of the blocks [L] have become [v], and they are charged to the inode or not
    any more. *)
Record turned (v : bool) (st st' : bstate) (ino : Z) (L : list Z) : Prop := {
  tu_ok : balloc_ok sb (b_sbi st');
  tu_side : inode_side sb (b_sbi st) (b_sbi st');
  tu_nodup : NoDup L;
  tu_old x : x ∈ L -> in_zone x /\ bbit (b_sbi st) x = Some (negb v) /\ ~ is_system sb (b_sbi st) x;
  tu_bits y : in_zone y -> bbit (b_sbi st') y = if decide (y ∈ L) then Some v else bbit (b_sbi st) y;
  tu_charged y : blocks_charged st' y =
    blocks_charged st y + (if decide (y = ino) then if v then Z.of_nat (length L) else - Z.of_nat (length L) else 0) }.

Lemma zone_group x : in_zone x -> 0 <= group_of sb x < s_groups_count sb.
Proof. apply (group_in_range sb). Qed.

Lemma system_side s s' y : inode_side sb s s' -> in_zone y -> is_system sb s y <-> is_system sb s' y.
Proof.
  intros [Hs _] Hz. destruct (Hs (group_of sb y) (zone_group _ Hz)) as [_ (d & x & Ed & Ed')].
  unfold is_system. rewrite Ed, Ed'. split; intros (d' & [= <-] & Hsys); eexists; (split; [done|]); by destruct d.
Qed.

Lemma turned_nil v st ino : balloc_ok sb (b_sbi st) -> turned v st st ino [].
Proof.
  intros Hok. split; try done.
  - apply inode_side_refl, Hok.
  - constructor.
  - by intros x ?%not_elem_of_nil.
  - intros y. case_decide; destruct v; simpl; lia.
Qed.

Lemma turned_perm v st st' ino L L' : L ≡ₚ L' -> turned v st st' ino L -> turned v st st' ino L'.
Proof.
  intros HL [Hok Hs Hn Ho Hb Hc]. split; try done.
  - by rewrite <- HL.
  - intros x. rewrite <- HL. apply Ho.
  - intros y Hy. rewrite (Hb y Hy). apply decide_ext. by rewrite HL.
  - intros y. by rewrite Hc, (Permutation_length HL).
Qed.

Lemma turned_trans v st st1 st2 ino L1 L2 : turned v st st1 ino L1 -> turned v st1 st2 ino L2 -> turned v st st2 ino (L1 ++ L2).
Proof.
  intros [Hok Hs Hn Ho Hb Hc] [Hok' Hs' Hn' Ho' Hb' Hc'].
  assert (Hd : forall x, x ∈ L2 -> x ∉ L1).
  { intros x Hx Hx1. destruct (Ho' x Hx) as (Hz & Hx' & _). rewrite Hb, decide_True in Hx' by done. by destruct v. }
  split.
  - done.
  - by eapply (inode_side_trans sb).
  - apply NoDup_app. split_and!; [done| |done]. intros x Hx Hx'. by apply (Hd x).
  - intros x [Hx|Hx]%elem_of_app; [by apply Ho|]. destruct (Ho' x Hx) as (Hz & Hx' & Hsy). split; [done|].
    rewrite Hb, decide_False in Hx' by auto. split; [done|]. by rewrite (system_side _ _ x Hs Hz).
  - intros y Hy. rewrite Hb', Hb by done. destruct (decide (y ∈ L2)).
    + by rewrite decide_True by set_solver.
    + apply decide_ext. set_solver.
  - intros y. rewrite Hc', Hc, length_app. destruct (decide (y = ino)), v; lia.
Qed.

(** Blocks that are taken and given back are as before. *)
Lemma turned_undo st st1 st2 ino L : turned true st st1 ino L -> turned false st1 st2 ino L ->
  (forall y, in_zone y -> bbit (b_sbi st2) y = bbit (b_sbi st) y) /\ (forall y, blocks_charged st2 y = blocks_charged st y).
Proof.
  intros H1 H2. split.
  - intros y Hy. rewrite (tu_bits _ _ _ _ _ H2 y Hy), (tu_bits _ _ _ _ _ H1 y Hy). case_decide as Hin; [|done].
    by destruct (tu_old _ _ _ _ _ H1 y Hin) as (_ & -> & _).
  - intros y. rewrite (tu_charged _ _ _ _ _ H2 y), (tu_charged _ _ _ _ _ H1 y). case_decide; lia.
Qed.

(** A block that a file may own. *)
Definition used (st : bstate) (x : Z) : Prop := in_zone x /\ bbit (b_sbi st) x = Some true /\ ~ is_system sb (b_sbi st) x.

Lemma turned_used v st st' ino L x : turned v st st' ino L -> x ∉ L -> used st x -> used st' x.
Proof.
  intros Ht Hx (Hz & Hb & Hs). split; [done|]. rewrite (tu_bits _ _ _ _ _ Ht x Hz), decide_False by done. split; [done|].
  by rewrite <- (system_side _ _ x (tu_side _ _ _ _ _ Ht) Hz).
Qed.

Lemma turned_taken st st' ino L x : turned true st st' ino L -> x ∈ L -> used st' x.
Proof.
  intros Ht Hx. destruct (tu_old _ _ _ _ _ Ht x Hx) as (Hz & _ & Hs). split; [done|].
  rewrite (tu_bits _ _ _ _ _ Ht x Hz), decide_True by done. split; [done|].
  by rewrite <- (system_side _ _ x (tu_side _ _ _ _ _ Ht) Hz).
Qed.

Lemma zone_bound x : in_zone x -> 0 <= x < 2 ^ 30.
Proof. destruct B. unfold in_zone. lia. Qed.

Lemma run_turned v st st' ino x n : 0 <= n -> balloc_ok sb (b_sbi st') -> flipped sb (b_sbi st) (b_sbi st') v x n ->
  (forall y, x <= y < x + n -> in_zone y /\ bbit (b_sbi st) y = Some (negb v) /\ ~ is_system sb (b_sbi st) y) ->
  (forall y, blocks_charged st' y = blocks_charged st y + (if decide (y = ino) then if v then n else - n else 0)) ->
  turned v st st' ino (seqZ x n).
Proof.
  intros Hn Hok Hf Ho Hc. split.
  - done.
  - apply Hf.
  - apply NoDup_seqZ.
  - intros y Hy%elem_of_seqZ. apply Ho. lia.
  - intros y Hy. rewrite (fl_bits _ _ _ _ _ _ Hf y (zone_group _ Hy)). apply decide_ext. by rewrite elem_of_seqZ.
  - intros y. by rewrite Hc, length_seqZ, Z2Nat.id.
Qed.

Lemma free_blocks_turned s x n : balloc_ok sb (b_sbi (m_blk s)) -> 1 <= n -> (forall y, x <= y < x + n -> used (m_blk s) y) ->
  exists b, free_blocks sb s x n = Ok (set_blk b s) /\ turned false (m_blk s) b (ino_of s) (seqZ x n) /\ b_rsv b = b_rsv (m_blk s).
Proof.
  intros Hok Hn Hu. unfold free_blocks.
  assert (Hz : in_zone x /\ in_zone (x + n - 1)) by (split; apply Hu; lia). unfold in_zone in Hz.
  destruct (free_blocks_spec sb (m_blk s) (ino_of s) x n Hok Hn) as (b & -> & Hok' & Hr & Hf & Hc).
  { split_and!; [lia..|]. intros y Hy. apply (Hu y Hy). }
  exists b. split; [done|]. split; [|done]. apply run_turned; [lia|done..|].
  intros y. rewrite Hc. case_decide; lia.
Qed.

(** ** Words *)

Definition words (s : mstate) (a : base) : option (list Z) :=
  match a with InInode => Some (i_data s) | InBlock b => buf s b | InNr => Some [m_nr s] end.

Definition put_words (a : base) (c : list Z) (s : mstate) : mstate :=
  match a with
  | InInode => set_idata c s
  | InBlock b => set_bufs (<[b := c]> (m_bufs s)) s
  | InNr => set_nr (default 0 (head c)) s
  end.

Lemma load_ok s a c k w : words s a = Some c -> c !! k = Some w -> load env s a (Z.of_nat k) = Ok w.
Proof.
  intros Hc Hk. unfold load. rewrite (proj2 (Z.ltb_ge (Z.of_nat k) 0)), Nat2Z.id by lia.
  destruct a; simpl in Hc; rewrite ?Hc; cbn [rbind deref]; [by injection Hc as ->; rewrite Hk|by rewrite Hk|].
  injection Hc as <-. by rewrite Hk.
Qed.

Lemma store_ok s a c k w v : words s a = Some c -> c !! k = Some w ->
  store env a (Z.of_nat k) v s = Ok (put_words a (<[k := v]> c) s).
Proof.
  intros Hc Hk. apply lookup_lt_Some in Hk. unfold store.
  assert (E : ((0 <=? Z.of_nat k) && (Z.of_nat k <? Z.of_nat (length c))) = true).
  { apply andb_true_iff. split; [apply Z.leb_le|apply Z.ltb_lt]; lia. }
  destruct a; simpl in Hc.
  - injection Hc as <-. by rewrite E, Nat2Z.id.
  - rewrite Hc. cbn [rbind deref]. by rewrite E, Nat2Z.id.
  - injection Hc as <-. rewrite E. cbn [rbind put_words]. destruct k; [done|simpl in Hk; lia].
Qed.

Lemma words_put a c s : length c = length (default [] (words s a)) -> words (put_words a c s) a = Some c.
Proof.
  intros Hl. destruct a; simpl; [by destruct s|destruct s; unfold buf; simpl; by rewrite lookup_insert_eq|].
  destruct s, c as [|x [|]]; simpl in Hl |- *; (done || lia).
Qed.

Lemma words_put_ne a a' c s : a <> a' -> words (put_words a c s) a' = words s a'.
Proof.
  intros Hne. destruct s, a, a'; try done; simpl. unfold buf. simpl. by rewrite lookup_insert_ne by congruence.
Qed.

(** The words of a block are those of the disk, or the block is on the list of the dirty
    buffers of the inode. *)
Definition clean (s : mstate) (b : Z) : Prop := b ∈ m_assoc s \/ buf s b = me_disk env b.

(** The words of the array [a] have become [c], the blocks [L] are free, and the rest is as
    it was. *)
Record freed (s s' : mstate) (a : base) (c : list Z) (L : list Z) : Prop := {
  fr_turned : turned false (m_blk s) (m_blk s') (ino_of s) L;
  fr_rsv : b_rsv (m_blk s') = b_rsv (m_blk s);
  fr_words : words s' a = Some c;
  fr_others a' : a' <> a -> (forall b, a' = InBlock b -> b ∉ L) -> words s' a' = words s a';
  fr_clean b : InBlock b <> a -> clean s b -> clean s' b;
  fr_assoc b : b ∉ L -> b ∈ m_assoc s' <-> b ∈ m_assoc s;
  fr_inode : mark_inode_dirty (m_inode s') = mark_inode_dirty (m_inode s);
  fr_info : m_info s' = m_info s }.

Lemma same_ino n n' : mark_inode_dirty n = mark_inode_dirty n' -> i_ino (core n) = i_ino (core n').
Proof. intros H. apply (f_equal (fun n => i_ino (core n))) in H. destruct n as [[]], n' as [[]]. exact H. Qed.

Lemma freed_ino s s' a c L : freed s s' a c L -> ino_of s' = ino_of s.
Proof. intros H. apply same_ino, H. Qed.

Lemma freed_trans s s1 s2 a c1 c2 L1 L2 : freed s s1 a c1 L1 -> freed s1 s2 a c2 L2 -> freed s s2 a c2 (L1 ++ L2).
Proof.
  intros H1 H2. pose proof (freed_ino _ _ _ _ _ H1) as Ei. destruct H1 as [Ht Hr Hw Ho Hc Ha Hi Hf], H2 as [Ht' Hr' Hw' Ho' Hc' Ha' Hi' Hf'].
  rewrite Ei in Ht'. split.
  - by eapply turned_trans.
  - congruence.
  - done.
  - intros a' Hne Hb. rewrite Ho', Ho; [done|done| |done|]; intros b ->; specialize (Hb b eq_refl); set_solver.
  - intros b Hne Hb. by apply Hc', Hc.
  - intros b Hb. rewrite Ha', Ha; [done|set_solver..].
  - congruence.
  - congruence.
Qed.

Lemma freed_perm s s' a c L L' : L ≡ₚ L' -> freed s s' a c L -> freed s s' a c L'.
Proof.
  intros HL [Ht Hr Hw Ho Hc Ha Hi Hf]. split; try done.
  - by eapply turned_perm.
  - intros a' Hne Hb. apply Ho; [done|]. intros b Hab. rewrite HL. by apply Hb.
  - intros b Hb. apply Ha. by rewrite HL.
Qed.

Lemma freed_store s a c : balloc_ok sb (b_sbi (m_blk s)) -> length c = length (default [] (words s a)) ->
  freed s (put_words a c s) a c [].
Proof.
  intros Hok Hl. assert (E : m_blk (put_words a c s) = m_blk s /\ m_assoc (put_words a c s) = m_assoc s /\
    m_inode (put_words a c s) = m_inode s /\ m_info (put_words a c s) = m_info s) by by destruct s, a.
  destruct E as (Eb & Ea & Ei & Ef). split; rewrite ?Eb, ?Ea, ?Ei, ?Ef; try done.
  - by apply turned_nil.
  - by apply words_put.
  - intros a' Hne _. by apply words_put_ne.
  - intros b Hne. unfold clean. rewrite Ea. change (buf (put_words a c s) b) with (words (put_words a c s) (InBlock b)).
    by rewrite words_put_ne by done.
Qed.

(** Freeing blocks leaves the words alone. *)
Lemma freed_blocks s a c x n : balloc_ok sb (b_sbi (m_blk s)) -> words s a = Some c -> 1 <= n ->
  (forall y, x <= y < x + n -> used (m_blk s) y) ->
  exists s', free_blocks sb s x n = Ok s' /\ freed s (dirty_inode s') a c (seqZ x n) /\ freed s s' a c (seqZ x n).
Proof.
  intros Hok Hc Hn Hu. destruct (free_blocks_turned s x n Hok Hn Hu) as (b & -> & Ht & Hr).
  exists (set_blk b s). split; [done|]. destruct s as [n0 i d bu as_ nr bl]. split; (split; try done).
  by destruct n0 as [[]].
Qed.

(** ** Clearing words *)

Fixpoint zap (off n : nat) (c : list Z) : list Z :=
  match n with O => c | S n' => zap (S off) n' (<[off := 0]> c) end.

Lemma length_zap n : forall off c, length (zap off n c) = length c.
Proof. induction n as [|n IH]; intros off c; simpl; [done|]. by rewrite IH, length_insert. Qed.

Lemma lookup_zap n : forall off c k, (off + n <= length c)%nat ->
  zap off n c !! k = if decide (off <= k < off + n)%nat then Some 0 else c !! k.
Proof.
  induction n as [|n IH]; intros off c k Hl; simpl; [by rewrite decide_False by lia|].
  rewrite IH by (rewrite length_insert; lia). destruct (decide (k = off)) as [->|Hne].
  - rewrite decide_False, list_lookup_insert_eq, decide_True by lia. done.
  - rewrite list_lookup_insert_ne by done. apply decide_ext. lia.
Qed.

Definition slice (off n : nat) (c : list Z) : list Z := take n (drop off c).

Lemma slice_S off n c w : c !! off = Some w -> slice off (S n) c = w :: slice (S off) n c.
Proof. intros Hw. unfold slice. by rewrite (drop_S _ _ _ Hw). Qed.

Lemma slice_insert off n c v : slice (S off) n (<[off := v]> c) = slice (S off) n c.
Proof. unfold slice. by rewrite drop_insert_lt by lia. Qed.

Lemma lookup_slice off n c k w : slice off n c !! k = Some w -> (k < n)%nat /\ c !! (off + k)%nat = Some w.
Proof. unfold slice. intros [H Hk]%lookup_take_Some. by rewrite lookup_drop in H. Qed.

Lemma arr_cons Bf d w l : arr Bf (fun _ => d) (w :: l) = owned Bf d w ++ arr Bf (fun _ => d) l.
Proof. done. Qed.

Lemma arr_leaf_ext Bf Bf' l : arr Bf (fun _ => 0%nat) l = arr Bf' (fun _ => 0%nat) l.
Proof. by apply arr_ext. Qed.

(** The blocks that a loop is to free, while the state changes. *)
Definition to_free (s : mstate) (L : list Z) : Prop := NoDup L /\ forall x, x ∈ L -> used (m_blk s) x.

Lemma to_free_app s L1 L2 : to_free s (L1 ++ L2) -> to_free s L1 /\ to_free s L2 /\ forall x, x ∈ L1 -> x ∉ L2.
Proof.
  intros [Hn Hu]. apply NoDup_app in Hn as (H1 & Hd & H2). split_and!; try done; (split; [done|]); intros x Hx; apply Hu; set_solver.
Qed.

Lemma to_free_perm s L L' : L ≡ₚ L' -> to_free s L -> to_free s L'.
Proof. intros HL [Hn Hu]. split; [by rewrite <- HL|]. intros x. rewrite <- HL. apply Hu. Qed.

Lemma to_free_after s s' a c L1 L2 : freed s s' a c L1 -> to_free s (L1 ++ L2) -> to_free s' L2.
Proof.
  intros Hf H. destruct (to_free_app _ _ _ H) as (_ & [Hn Hu] & Hd). split; [done|]. intros x Hx.
  eapply turned_used; [apply Hf| |by apply Hu]. intros Hx'. by apply (Hd x).
Qed.

Lemma to_free_run s x n : 1 <= n -> to_free s (seqZ x n) -> forall y, x <= y < x + n -> used (m_blk s) y.
Proof. intros Hn [_ Hu] y Hy. apply Hu, elem_of_seqZ. lia. Qed.

Lemma free_data_spec a n : forall off x count s c, balloc_ok sb (b_sbi (m_blk s)) -> words s a = Some c ->
  (off + n <= length c)%nat -> 0 <= count -> to_free s (seqZ x count ++ arr (buf s) (fun _ => 0%nat) (slice off n c)) ->
  exists s', free_data_loop sb env n a (Z.of_nat off) x count s = Ok s' /\
    freed s s' a (zap off n c) (seqZ x count ++ arr (buf s) (fun _ => 0%nat) (slice off n c)).
Proof.
  induction n as [|n IH]; intros off x count s c Hok Hc Hl Hn Hf; cbn [free_data_loop zap].
  { assert (E : arr (buf s) (fun _ => 0%nat) (slice off 0 c) = []) by done. rewrite E, app_nil_r in Hf |- *.
    destruct (Z.ltb_spec 0 count) as [Hn'|Hn'].
    - destruct (freed_blocks s a c x count Hok Hc) as (s' & -> & Hfr & _); [lia|apply to_free_run; [lia|done]|]. by exists (dirty_inode s').
    - replace count with 0 in * by lia. exists s. split; [done|]. split; try done. by apply turned_nil. }
  destruct (lookup_lt_is_Some_2 c off ltac:(lia)) as [w Hw]. rewrite (slice_S _ _ _ _ Hw), arr_cons in Hf |- *.
  rewrite (load_ok s a c off w Hc Hw). cbn [rbind]. replace (Z.of_nat off + 1) with (Z.of_nat (S off)) by lia.
  assert (Hs : freed s (put_words a (<[off := 0]> c) s) a (<[off := 0]> c) []).
  { apply freed_store; [done|]. by rewrite Hc, length_insert. }
  destruct (Z.eqb_spec w 0) as [->|Hw0].
  { assert (E : <[off := 0]> c = c) by by apply list_insert_id. rewrite owned_0, E in *. apply IH; [done|done|lia|done|done]. }
  rewrite (store_ok s a c off w 0 Hc Hw). cbn [rbind]. set (s1 := put_words a _ s) in *.
  rewrite owned_leaf in Hf |- * by done.
  assert (Hgo : forall x' k, 0 <= k -> seqZ x' k ≡ₚ seqZ x count ++ [w] ->
    exists s', free_data_loop sb env n a (Z.of_nat (S off)) x' k s1 = Ok s' /\
      freed s s' a (zap (S off) n (<[off := 0]> c)) (seqZ x count ++ [w] ++ arr (buf s) (fun _ => 0%nat) (slice (S off) n c))).
  { intros x' k Hk HL. destruct (IH (S off) x' k s1 (<[off := 0]> c)) as (s' & E & Hfr);
      rewrite ?slice_insert, ?(arr_leaf_ext (buf s1) (buf s)).
    - apply (tu_ok _ _ _ _ _ (fr_turned _ _ _ _ _ Hs)).
    - apply Hs.
    - rewrite length_insert. lia.
    - done.
    - apply (to_free_after s s1 a _ [] _ Hs). eapply to_free_perm; [|exact Hf]. cbn [app]. by rewrite HL, <- app_assoc.
    - exists s'. split; [done|]. rewrite slice_insert, (arr_leaf_ext (buf s1) (buf s)) in Hfr.
      eapply freed_perm; [|exact (freed_trans _ _ _ _ _ _ _ _ Hs Hfr)]. cbn [app]. by rewrite HL, <- app_assoc. }
  destruct (Z.eqb_spec count 0) as [->|Hcount]; [apply Hgo; [lia|done]|].
  destruct (Z.eqb_spec x (u64 (w - count))) as [Ex|Ex].
  { assert (Hz : in_zone w) by (apply Hf; set_solver). apply zone_bound in Hz.
    assert (Hx : in_zone x) by (apply Hf, elem_of_app; left; apply elem_of_seqZ; lia). apply zone_bound in Hx.
    assert (Hx' : in_zone (x + count - 1)) by (apply Hf, elem_of_app; left; apply elem_of_seqZ; lia). apply zone_bound in Hx'.
    assert (w = x + count) as ->.
    { unfold u64 in Ex. change (2 ^ 64) with 18446744073709551616 in Ex. Z.div_mod_to_equations. lia. }
    apply Hgo; [lia|]. rewrite seqZ_app by lia. done. }
  destruct (to_free_app _ _ _ Hf) as (Hrun & _ & _).
  destruct (freed_blocks s1 a (<[off := 0]> c) x count) as (s2 & -> & Hfr & _).
  { apply (tu_ok _ _ _ _ _ (fr_turned _ _ _ _ _ Hs)). }
  { apply Hs. }
  { lia. }
  { apply to_free_run; [lia|]. by apply (to_free_after s s1 a _ [] _ Hs). }
  cbn [rbind]. pose proof (freed_trans _ _ _ _ _ _ _ _ Hs Hfr) as Hfr'. cbn [app] in Hfr'.
  destruct (IH (S off) w 1 (dirty_inode s2) (<[off := 0]> c)) as (s' & -> & Hfr2);
    rewrite ?slice_insert, ?(arr_leaf_ext (buf (dirty_inode s2)) (buf s)).
  - apply (tu_ok _ _ _ _ _ (fr_turned _ _ _ _ _ Hfr)).
  - apply Hfr.
  - rewrite length_insert. lia.
  - lia.
  - by apply (to_free_after s _ a _ _ _ Hfr').
  - exists s'. split; [done|]. rewrite slice_insert, (arr_leaf_ext (buf (dirty_inode s2)) (buf s)) in Hfr2.
    exact (freed_trans _ _ _ _ _ _ _ _ Hfr' Hfr2).
Qed.

(** ** Branches *)

(** What a function that frees [n] words of an array from [off] on, of depth [d], does. *)
Definition frees (d : nat) (f : base -> Z -> nat -> mstate -> res mstate) : Prop :=
  forall a off n s c, balloc_ok sb (b_sbi (m_blk s)) -> words s a = Some c -> (off + n <= length c)%nat ->
  to_free s (arr (buf s) (fun _ => d) (slice off n c)) ->
  (forall b, a = InBlock b -> b ∉ arr (buf s) (fun _ => d) (slice off n c)) ->
  (forall k w, slice off n c !! k = Some w -> shaped ptrs (buf s) d w) ->
  exists s', f a (Z.of_nat off) n s = Ok s' /\ freed s s' a (zap off n c) (arr (buf s) (fun _ => d) (slice off n c)).

Lemma frees_data : frees 0 (ext2_free_data sb env).
Proof. intros a off n s c Hok Hc Hl Hf _ _. by apply (free_data_spec a n off 0 0 s c). Qed.

Lemma buf_forget s nr b : buf (bforget nr s) b = if decide (b = nr) then me_disk env nr else buf s b.
Proof.
  unfold buf, bforget. destruct s. simpl. case_decide as E; [subst; by rewrite lookup_delete_eq|by rewrite lookup_delete_ne].
Qed.

(** One block of pointers with everything below it. *)
Lemma frees_block d f s a c nr : frees d f -> balloc_ok sb (b_sbi (m_blk s)) -> words s a = Some c -> nr <> 0 ->
  shaped ptrs (buf s) (S d) nr -> to_free s (owned (buf s) (S d) nr) -> (forall b, a = InBlock b -> b ∉ owned (buf s) (S d) nr) ->
  is_Some (buf s nr) /\ exists s1 s2, f (InBlock nr) 0 ptrs s = Ok s1 /\ free_blocks sb (bforget nr s1) nr 1 = Ok s2 /\
    freed s (dirty_inode s2) a c (owned (buf s) (S d) nr).
Proof.
  intros Hfr Hok Hc Hnr [->|(c0 & Hc0 & Hl & Hsh)] Hf Ha; [done|]. split; [by eexists|].
  rewrite owned_S, Hc0 in Hf, Ha |- * by done. set (L0 := arr (buf s) (fun _ => d) c0) in *.
  assert (Es : slice 0 ptrs c0 = c0) by (unfold slice; rewrite drop_0; apply firstn_all2; lia).
  destruct (to_free_app s [nr] L0 Hf) as ([_ Hu] & Hf0 & Hd).
  destruct (Hfr (InBlock nr) 0%nat ptrs s c0) as (s1 & E1 & F1); rewrite ?Es; try done; try lia.
  { intros b [= <-]. apply (Hd nr). by left. }
  rewrite Es in F1. fold L0 in F1. exists s1.
  assert (Hane : a <> InBlock nr). { intros ->. apply (Ha nr eq_refl). left. }
  assert (Ew : words (bforget nr s1) a = Some c).
  { destruct a as [|b|]; [rewrite <- Hc, <- (fr_others _ _ _ _ _ F1 InInode) by done; by destruct s1| |
      rewrite <- Hc, <- (fr_others _ _ _ _ _ F1 InNr) by done; by destruct s1].
    cbn [words]. rewrite buf_forget, decide_False by congruence. rewrite <- Hc. apply (fr_others _ _ _ _ _ F1 (InBlock b)); [congruence|].
    intros b' [= <-]. specialize (Ha b eq_refl). set_solver. }
  destruct (freed_blocks (bforget nr s1) a c nr 1) as (s2 & E2 & F2 & _); [|done|lia| |].
  { destruct s1. apply (tu_ok _ _ _ _ _ (fr_turned _ _ _ _ _ F1)). }
  { intros y Hy. assert (y = nr) as -> by lia. replace (m_blk (bforget nr s1)) with (m_blk s1) by by destruct s1.
    eapply turned_used; [apply F1| |apply Hu; by left]. apply (Hd nr). by left. }
  exists s2. split; [done|]. split; [done|]. change (seqZ nr 1) with [nr] in F2.
  destruct F1 as [T1 R1 W1 O1 C1 A1 I1 Z1], F2 as [T2 R2 W2 O2 C2 A2 I2 Z2].
  assert (Ef : m_blk (bforget nr s1) = m_blk s1 /\ m_assoc (bforget nr s1) = m_assoc s1 ∖ {[nr]} /\
    m_inode (bforget nr s1) = m_inode s1 /\ m_info (bforget nr s1) = m_info s1 /\ ino_of (bforget nr s1) = ino_of s1) by by destruct s1.
  destruct Ef as (Eb & Ea & Ei & Ez & En). rewrite Eb, En in *. rewrite (same_ino _ _ I1 : ino_of s1 = ino_of s) in T2. split.
  - apply (turned_perm _ _ _ _ (L0 ++ [nr])); [by rewrite Permutation_app_comm|]. by eapply turned_trans.
  - congruence.
  - done.
  - intros a' Hne Hb. assert (Hne' : a' <> InBlock nr). { intros ->. apply (Hb nr eq_refl). left. }
    rewrite O2 by (try done; intros b ->; specialize (Hb b eq_refl); set_solver).
    rewrite <- O1 by (try done; intros b ->; specialize (Hb b eq_refl); set_solver).
    destruct a' as [|b|]; [by destruct s1| |by destruct s1]. cbn [words]. by rewrite buf_forget, decide_False by congruence.
  - intros b Hne Hb. apply C2; [done|]. destruct (decide (b = nr)) as [->|Hbn].
    + right. by rewrite buf_forget, decide_True.
    + destruct (C1 b) as [H|H]; [congruence|done|left; rewrite Ea; set_solver|]. right. by rewrite buf_forget, decide_False.
  - intros b Hb. rewrite A2, Ea, <- A1 by set_solver. set_solver.
  - congruence.
  - congruence.
Qed.

Lemma frees_branches d f : frees d f -> frees (S d) (fun a off n => branches_loop sb blkbits env f n a off).
Proof.
  intros Hf a off n. revert off. induction n as [|n IH]; intros off s c Hok Hc Hl Hfr Ha Hsh; cbn [branches_loop zap].
  { exists s. split; [done|]. split; try done. by apply turned_nil. }
  destruct (lookup_lt_is_Some_2 c off ltac:(lia)) as [w Hw]. rewrite (slice_S _ _ _ _ Hw) in Hfr, Ha, Hsh |- *.
  rewrite arr_cons in Hfr, Ha |- *. rewrite (load_ok s a c off w Hc Hw). cbn [rbind].
  replace (Z.of_nat off + 1) with (Z.of_nat (S off)) by lia.
  destruct (to_free_app _ _ _ Hfr) as (Hfw & Hfl & Hd).
  destruct (Z.eqb_spec w 0) as [->|Hw0].
  { rewrite owned_0 in *. rewrite (list_insert_id c off 0 Hw). apply IH; [done|done|lia|done|done|]. intros k w. apply (Hsh (S k)). }
  rewrite (store_ok s a c off w 0 Hc Hw). cbn [rbind]. set (s1 := put_words a _ s).
  assert (F0 : freed s s1 a (<[off := 0]> c) []).
  { apply freed_store; [done|]. by rewrite Hc, length_insert. }
  assert (Eb : forall b, InBlock b <> a -> buf s1 b = buf s b) by (intros b Hb; apply (words_put_ne a (InBlock b)); congruence).
  assert (Eo : owned (buf s1) (S d) w = owned (buf s) (S d) w).
  { apply owned_ext. intros x Hx. apply Eb. intros <-. apply (Ha x eq_refl), elem_of_app. by left. }
  destruct (frees_block d f s1 a (<[off := 0]> c) w) as ([cw Ecw] & s2 & s3 & E2 & E3 & F3); rewrite ?Eo; try done.
  { apply (tu_ok _ _ _ _ _ (fr_turned _ _ _ _ _ F0)). }
  { apply F0. }
  { apply (shaped_ext _ (buf s)); [|by apply (Hsh 0%nat)]. intros x Hx. apply Eb. intros <-. apply (Ha x eq_refl), elem_of_app. by left. }
  { by apply (to_free_after s s1 a _ [] _ F0). }
  { intros b Hb Hb'. apply (Ha b Hb), elem_of_app. by left. }
  rewrite Ecw. unfold Ext2BlockPath.ptrs in E2. rewrite E2. cbn [rbind]. rewrite E3. cbn [rbind]. rewrite Eo in F3.
  pose proof (freed_trans _ _ _ _ _ _ _ _ F0 F3) as F. cbn [app] in F.
  assert (Eb' : forall x, x ∈ arr (buf s) (fun _ => S d) (slice (S off) n c) -> buf (dirty_inode s3) x = buf s x).
  { intros x Hx. apply (fr_others _ _ _ _ _ F (InBlock x)).
    - intros <-. apply (Ha x eq_refl), elem_of_app. by right.
    - intros b [= <-] Hb. by apply (Hd x). }
  assert (El : arr (buf (dirty_inode s3)) (fun _ => S d) (slice (S off) n c) = arr (buf s) (fun _ => S d) (slice (S off) n c)).
  { apply arr_ext. intros k w' Hk. apply owned_ext. intros x Hx. apply Eb', elem_of_arr. eauto. }
  destruct (IH (S off) (dirty_inode s3) (<[off := 0]> c)) as (s' & -> & F'); rewrite ?slice_insert, ?El.
  - apply (tu_ok _ _ _ _ _ (fr_turned _ _ _ _ _ F)).
  - apply F.
  - rewrite length_insert. lia.
  - by apply (to_free_after s _ a _ _ _ F).
  - intros b Hb Hb'. apply (Ha b Hb), elem_of_app. by right.
  - intros k w' Hk. apply (shaped_ext _ (buf s)); [|by apply (Hsh (S k))]. intros x Hx. apply Eb', elem_of_arr. eauto.
  - exists s'. split; [done|]. rewrite slice_insert, El in F'. exact (freed_trans _ _ _ _ _ _ _ _ F F').
Qed.

(** [ext2_free_branches] frees exactly the blocks below the words that it clears. *)
Lemma free_branches_spec d : frees d (ext2_free_branches sb blkbits env d).
Proof. induction d as [|d IH]; [apply frees_data|]. by apply (frees_branches d). Qed.
End BlockFacts.
