(* ===== verification/Ext2BlockFile.v ===== *)
(** * ext2: the block map of a file

    The invariant of the pointers of a file ([file_ok]): all blocks that can be reached are
    different, in use and none of the file system's own, and the indirect blocks can be
    read.  One array of pointers may change; the lemmas say what this does to the blocks
    and to the map from paths to blocks. *)

From S2P Require Import Prelude CString ByteMem Ext2Layout Ext2Dir Ext2Super Ext2Inode Ext2Ialloc Ext2IallocFacts.
From S2P Require Import Ext2Balloc Ext2BallocBits Ext2BallocRsv Ext2BallocGroup Ext2BallocFacts Ext2BallocAlloc Ext2BallocFree.
From S2P Require Import Ext2BlockMap Ext2BlockTree Ext2BlockPath Ext2BlockFacts.

Section BlockFile.
Context (rb : rb_lib) {RL : RbLaws rb} (sb : sb_info) {W : SbWf sb} {B : BlkWf sb} (blkbits : Z) {G : MapWf blkbits} (env : map_env).

Notation buf := (buf env).
Notation words := (words env).
Notation ptrs := (ptrs blkbits).
Notation to_free := (to_free sb).
Notation turned := (turned sb).
Notation freed := (freed sb env).
Notation clean := (clean env).

(** All blocks of the file, those with pointers included. *)
Definition file_blocks (s : mstate) : list Z := arr (buf s) dep (i_data s).

(** The block that a path leads to, or 0. *)
Definition at_path (s : mstate) (q : list nat) : Z := look (buf s) (i_data s) q.

Record file_ok (s : mstate) : Prop := {
  fo_blocks : balloc_ok sb (b_sbi (m_blk s));
  fo_windows : win_ok rb (b_rsv (m_blk s));
  fo_ino : ino_of s <> 0;
  fo_len : length (i_data s) = 15%nat;
  fo_shaped k w : i_data s !! k = Some w -> shaped ptrs (buf s) (dep k) w;
  fo_owned : to_free s (file_blocks s);
  fo_clean b : clean s b;
  fo_zero : 0 < es_first_data_block sb \/ bbit sb (b_sbi (m_blk s)) 0 = Some true }.

(** The place of an array of pointers: the path to it and the depths of its slots. *)
Inductive located (s : mstate) : base -> list nat -> (nat -> nat) -> Prop :=
  | loc_inode : located s InInode [] dep
  | loc_block b k q e : at_path s (k :: q) = b -> b <> 0 -> dep k = (length q + S e)%nat ->
      located s (InBlock b) (k :: q) (fun _ => e).

Lemma at_path_words s q b k o e r : at_path s q = b -> b <> 0 -> q = k :: r -> dep k = (length r + S e)%nat -> file_ok s ->
  exists c, buf s b = Some c /\ length c = ptrs /\ (forall j w, c !! j = Some w -> shaped ptrs (buf s) e w) /\
    at_path s (q ++ [o]) = default 0 (c !! o).
Proof.
  intros Hq Hb -> Hd Hf. assert (Hs : shaped ptrs (buf s) (S e) b).
  { unfold at_path in Hq. simpl in Hq. destruct (i_data s !! k) as [w|] eqn:Ew; simpl in Hq; [|rewrite follow_0 in Hq; congruence].
    pose proof (fo_shaped s Hf k w Ew) as Hsh. rewrite Hd in Hsh. clear Hd Ew. revert w Hq Hsh.
    induction r as [|o' r IH]; intros w Hq Hsh; simpl in Hq; [by subst|]. destruct (decide (w = 0)) as [E0|Hw]; [rewrite E0 in Hq; simpl in Hq; congruence|].
    rewrite (proj2 (Z.eqb_neq w 0) Hw) in Hq.
    destruct Hsh as [->|(c & Hc & _ & Hk)]; [done|]. rewrite Hc in Hq.
    destruct (c !! o') as [w'|] eqn:Ew'; simpl in Hq; [|rewrite follow_0 in Hq; congruence]. eapply IH; [done|]. by eapply Hk. }
  destruct Hs as [->|(c & Hc & Hl & Hk)]; [done|]. exists c. split_and!; [done..|].
  unfold at_path. rewrite look_app by done. fold (at_path s (k :: r)). rewrite Hq. simpl.
  by rewrite (proj2 (Z.eqb_neq b 0) Hb), Hc.
Qed.

(** ** Changing one array *)

Section Change.
Context (s s' : mstate) (a : base) (q : list nat) (lv : nat -> nat) (c c' M N : list Z).
Hypothesis Hf : file_ok s.
Hypothesis Hloc : located s a q lv.
Hypothesis Hc : words s a = Some c.
Hypothesis Hc' : words s' a = Some c'.
Hypothesis Hlen : length c' = length c.
Hypothesis Hdata : a <> InInode -> i_data s' = i_data s.
Hypothesis Hframe : forall b, a = InBlock b -> forall x, x ∈ file_blocks s -> x ∉ owned (buf s) (S (lv 0%nat)) b -> buf s' x = buf s x.
Hypothesis Hperm : arr (buf s') lv c' ++ M ≡ₚ arr (buf s) lv c ++ N.
Hypothesis Hsh : forall k w, c' !! k = Some w -> shaped ptrs (buf s') (lv k) w.

Lemma array_change :
  file_blocks s' ++ M ≡ₚ file_blocks s ++ N /\
  (forall k w, i_data s' !! k = Some w -> shaped ptrs (buf s') (dep k) w) /\
  length (i_data s') = 15%nat /\
  (forall k r, (length r <= dep k)%nat -> ~ below q (k :: r) -> at_path s' (k :: r) = at_path s (k :: r)) /\
  (forall o r, at_path s' (q ++ o :: r) = follow (buf s') (default 0 (c' !! o)) r).
Proof using All.
  destruct Hloc as [|b k q' e Hb Hb0 Hd].
  - simpl in Hc, Hc'. injection Hc as <-. injection Hc' as <-. unfold file_blocks, at_path. split_and!; try done.
    + rewrite Hlen. apply Hf.
    + intros k r _ Hnb. destruct Hnb. by exists k, r.
  - assert (HD : i_data s' = i_data s) by by apply Hdata. simpl in Hc, Hc'.
    destruct (at_path_words s (k :: q') b k 0%nat e q') as (c0 & Hc0 & Hl0 & _); [done..|]. rewrite Hc in Hc0. injection Hc0 as <-.
    destruct (update_array ptrs (buf s) (buf s') b c c' M N e Hb0 Hc Hc' Hperm ltac:(lia) Hsh dep (i_data s) k q' Hb Hd) as (Hp & Hlk & Hs).
    { apply (fo_owned s Hf). }
    { by apply (Hframe b). }
    unfold file_blocks, at_path. rewrite HD. split_and!; [done|by apply Hs, Hf|apply Hf|done|].
    intros o r. rewrite look_app, Hlk; [|lia| |done].
    + unfold at_path in Hb. rewrite Hb. simpl. by rewrite (proj2 (Z.eqb_neq b 0) Hb0), Hc'.
    + intros (o' & r' & E). apply (f_equal length) in E. rewrite length_app in E. simpl in E. lia.
Qed.
End Change.

(** What is below an array. *)
Lemma located_below s a q lv c : file_ok s -> located s a q lv -> words s a = Some c ->
  NoDup (arr (buf s) lv c) /\ (forall x, x ∈ arr (buf s) lv c -> x ∈ file_blocks s) /\
  (forall b, a = InBlock b -> (b ∉ arr (buf s) lv c) /\ owned (buf s) (S (lv 0%nat)) b = b :: arr (buf s) lv c /\ b ∈ file_blocks s).
Proof.
  intros Hf [|b k q' e Hb Hb0 Hd] Hc; simpl in Hc.
  - injection Hc as <-. split_and!; [apply (fo_owned s Hf)|done|done].
  - unfold at_path in Hb. simpl in Hb. destruct (i_data s !! k) as [w|] eqn:Ew; simpl in Hb; [|rewrite follow_0 in Hb; congruence].
    pose proof (arr_NoDup_slot _ _ _ k w (proj1 (fo_owned s Hf)) Ew) as Hnd.
    apply (owned_sub_NoDup (buf s) (S e) q' _ w b Hb Hb0 Hd) in Hnd.
    pose proof (owned_sub (buf s) (S e) q' (dep k) w b Hb Hb0 Hd) as Hsub.
    rewrite owned_S, Hc in Hnd, Hsub by done. apply NoDup_cons in Hnd as [Hnin Hnd]. split_and!; [done| |].
    + intros x Hx. apply elem_of_arr. exists k, w. split; [done|]. apply Hsub. by right.
    + intros b' [= <-]. split_and!; [done|by rewrite owned_S, Hc|]. apply elem_of_arr. exists k, w. split; [done|]. apply Hsub. left.
Qed.

(** ** Cutting branches off *)

Lemma arr_zap Bf lv d n : forall off c, (off + n <= length c)%nat -> (forall k, (off <= k < off + n)%nat -> lv k = d) ->
  arr Bf lv c ≡ₚ arr Bf lv (zap off n c) ++ arr Bf (fun _ => d) (slice off n c).
Proof.
  induction n as [|n IH]; intros off c Hl Hd; [simpl; change (slice off 0 c) with (@nil Z); by rewrite app_nil_r|].
  destruct (lookup_lt_is_Some_2 c off ltac:(lia)) as [w Hw]. cbn [zap].
  rewrite (slice_S _ _ _ _ Hw), arr_cons, (arr_slot Bf lv c off w Hw), (Hd off) by lia.
  rewrite (IH (S off)) by (rewrite ?length_insert; intros; try apply Hd; lia). rewrite slice_insert. solve_Permutation.
Qed.

(** Words of the array [a] are cleared and the blocks below them are free; the variable [nr]
    may have any value. *)
Record cut (s s' : mstate) (a : base) (c' L : list Z) : Prop := {
  ct_turned : turned false (m_blk s) (m_blk s') (ino_of s) L;
  ct_rsv : b_rsv (m_blk s') = b_rsv (m_blk s);
  ct_words : words s' a = Some c';
  ct_others a' : a' <> a -> a' <> InNr -> (forall b, a' = InBlock b -> b ∉ L) -> words s' a' = words s a';
  ct_clean b : clean s b -> clean s' b;
  ct_inode : mark_inode_dirty (m_inode s') = mark_inode_dirty (m_inode s);
  ct_info : m_info s' = m_info s }.

Lemma zero_kept s st' ino L : file_ok s -> turned false (m_blk s) st' ino L -> 0 ∉ L ->
  0 < es_first_data_block sb \/ bbit sb (b_sbi st') 0 = Some true.
Proof.
  intros Hf Ht H0. destruct (fo_zero s Hf) as [|Hz]; [by left|]. destruct (decide (0 < es_first_data_block sb)); [by left|].
  right. rewrite (tu_bits _ _ _ _ _ _ Ht), decide_False; [done..|]. destruct B as [? ? ? ? Hn ?]. unfold in_zone.
  unfold ext2_group_first_block_no in Hn. nia.
Qed.

Lemma cut_file s s' a q lv off n c d : file_ok s -> located s a q lv -> words s a = Some c -> (off + n <= length c)%nat ->
  (forall k, (off <= k < off + n)%nat -> lv k = d) -> cut s s' a (zap off n c) (arr (buf s) (fun _ => d) (slice off n c)) ->
  file_ok s' /\ file_blocks s ≡ₚ arr (buf s) (fun _ => d) (slice off n c) ++ file_blocks s' /\
  (forall k r, (length r <= dep k)%nat -> ~ below q (k :: r) -> at_path s' (k :: r) = at_path s (k :: r)) /\
  (forall o r, (length r <= lv o)%nat -> at_path s' (q ++ o :: r) = if decide (off <= o < off + n)%nat then 0 else at_path s (q ++ o :: r)).
Proof.
  intros Hf Hloc Hc Hl Hd Hcut. set (L1 := arr (buf s) (fun _ => d) (slice off n c)) in *.
  destruct (located_below s a q lv c Hf Hloc Hc) as (Hnd & Hsub & Hown). pose proof (arr_zap (buf s) lv d n off c Hl Hd) as Hz. fold L1 in Hz.
  assert (HL : forall x, x ∈ L1 -> x ∈ arr (buf s) lv c) by (intros x Hx; rewrite Hz; set_solver).
  assert (Hout : forall x, InBlock x <> a -> x ∉ L1 -> buf s' x = buf s x).
  { intros x Hx HxL. apply (ct_others _ _ _ _ _ Hcut (InBlock x)); [done..|]. by intros b [= <-]. }
  assert (Hkeep : forall k w, zap off n c !! k = Some w -> forall x, x ∈ owned (buf s) (lv k) w -> buf s' x = buf s x).
  { intros k w Hk x Hx. assert (Hx' : x ∈ arr (buf s) lv (zap off n c)) by (apply elem_of_arr; eauto).
    rewrite Hz in Hnd. apply NoDup_app in Hnd as (_ & Hdis & _). apply Hout; [|by apply Hdis].
    intros <-. destruct (Hown x eq_refl) as (Hn & _). apply Hn. rewrite Hz. set_solver. }
  assert (Harr : arr (buf s') lv (zap off n c) = arr (buf s) lv (zap off n c)).
  { apply arr_ext. intros k w Hk. by apply owned_ext, (Hkeep k). }
  destruct (array_change s s' a q lv c (zap off n c) L1 [] Hf Hloc Hc) as (Hp & Hsh & Hlen & Hlk & Hlk').
  { apply Hcut. }
  { apply length_zap. }
  { intros Hne. pose proof (ct_others _ _ _ _ _ Hcut InInode) as E. simpl in E. by injection E. }
  { intros b -> x _ Hxb. destruct (Hown b eq_refl) as (_ & E & _). rewrite E in Hxb. apply Hout; [|set_solver]. intros [= ->]. set_solver. }
  { rewrite Harr, app_nil_r. by rewrite Hz. }
  { intros k w Hk. apply (shaped_ext _ (buf s)); [by apply (Hkeep k)|]. rewrite lookup_zap in Hk by done. case_decide as Hdk.
    - injection Hk as <-. apply shaped_0.
    - destruct Hloc as [|b k' q' e Hb Hb0 Hde]; [simpl in Hc; injection Hc as <-; by apply Hf|].
      destruct (at_path_words s (k' :: q') b k' 0%nat e q') as (c0 & Hc0 & _ & Hk0 & _); [done..|].
      simpl in Hc. rewrite Hc in Hc0. injection Hc0 as <-. by apply (Hk0 k). }
  rewrite app_nil_r in Hp. split_and!; [split| | |].
  - apply (tu_ok _ _ _ _ _ _ (ct_turned _ _ _ _ _ Hcut)).
  - rewrite (ct_rsv _ _ _ _ _ Hcut). apply Hf.
  - rewrite (same_ino _ _ (ct_inode _ _ _ _ _ Hcut) : ino_of s' = ino_of s). apply Hf.
  - done.
  - done.
  - destruct (fo_owned s Hf) as [Hn Hu]. rewrite <- Hp, NoDup_app in Hn. destruct Hn as (Hn & Hdis & _). split; [done|].
    intros x Hx. eapply (turned_used sb); [exact (ct_turned _ _ _ _ _ Hcut)|by apply Hdis|]. apply Hu. rewrite <- Hp. set_solver.
  - intros b. apply Hcut, Hf.
  - eapply zero_kept; [done|exact (ct_turned _ _ _ _ _ Hcut)|]. unfold L1. rewrite elem_of_arr. intros (k & w & _ & H0). by apply owned_nonzero in H0.
  - by rewrite <- Hp, Permutation_app_comm.
  - done.
  - intros o r Hr. rewrite Hlk', lookup_zap by done. case_decide as Ho; [by rewrite follow_0|].
    assert (Hkr : follow (buf s') (default 0 (c !! o)) r = follow (buf s) (default 0 (c !! o)) r).
    { destruct (c !! o) as [w|] eqn:Ew; simpl; [|by rewrite !follow_0]. apply (follow_ext _ _ (lv o)); [|done].
      apply (Hkeep o). by rewrite lookup_zap, decide_False. }
    rewrite Hkr. destruct Hloc as [|b k' q' e Hb Hb0 Hde]; [simpl in Hc; by injection Hc as <-|].
    unfold at_path in Hb |- *. rewrite look_app, Hb by done. simpl. simpl in Hc. by rewrite (proj2 (Z.eqb_neq b 0) Hb0), Hc.
Qed.

(** ** Branches that are looked up *)

(** A path that may end before the data. *)
Definition partial_path (p : list nat) : Prop :=
  match p with
  | [] => False
  | k :: r => (k < 15)%nat /\ (length r <= dep k)%nat /\ Forall (fun o => (o < ptrs)%nat) r
  end.

Lemma valid_partial p : valid_path blkbits p -> partial_path p.
Proof. destruct p as [|k r]; [done|]. intros (? & ? & ?). simpl. split_and!; [done|lia|done]. Qed.

Lemma partial_take p j : partial_path p -> (0 < j)%nat -> partial_path (take j p).
Proof.
  destruct p as [|k r]; [done|]. destruct j as [|j]; [lia|]. intros (? & ? & ?) _. simpl. rewrite length_take.
  split_and!; [done|lia|by apply Forall_take].
Qed.

(** The elements of the chain for a path. *)
Definition base_at (s : mstate) (p : list nat) (j : nat) : base :=
  match j with O => InInode | S _ => InBlock (at_path s (take j p)) end.

Definition chain_at (s : mstate) (p : list nat) (j : nat) : Indirect :=
  Ind (base_at s p j) (Z.of_nat (nth j p 0%nat)) (at_path s (take (S j) p)).

Definition lv_at (p : list nat) (j : nat) : nat -> nat :=
  match j with O => dep | S _ => fun _ => (dep (nth 0 p 0%nat) - j)%nat end.

Lemma take_snoc (p : list nat) j : (j < length p)%nat -> take (S j) p = take j p ++ [nth j p 0%nat].
Proof. intros Hj. apply take_S_r. destruct (nth_lookup_or_length p j 0%nat); [done|lia]. Qed.

Lemma chain_step s p j : file_ok s -> partial_path p -> (j < length p)%nat -> j = 0%nat \/ at_path s (take j p) <> 0 ->
  located s (base_at s p j) (take j p) (lv_at p j) /\
  exists c, words s (base_at s p j) = Some c /\ c !! nth j p 0%nat = Some (at_path s (take (S j) p)) /\
    length c = match j with O => 15%nat | S _ => ptrs end.
Proof.
  intros Hf Hp Hj H0. destruct p as [|k r]; [done|]. destruct Hp as (Hk & Hl & Hr). destruct j as [|j].
  - split; [apply loc_inode|]. exists (i_data s). simpl. split_and!; [done| |apply Hf].
    unfold at_path. simpl. destruct (lookup_lt_is_Some_2 (i_data s) k) as [w ->]; [rewrite (fo_len s Hf); lia|done].
  - destruct H0 as [|H0]; [lia|]. simpl in Hj. cbn [base_at lv_at nth]. rewrite (take_snoc (k :: r) (S j)) by (simpl; lia).
    cbn [take] in *. assert (Hd : dep k = (length (take j r) + S (dep k - S j))%nat) by (rewrite length_take; lia).
    split; [by apply loc_block|]. cbn [words nth].
    destruct (at_path_words s (k :: take j r) _ k (nth j r 0%nat) _ (take j r) eq_refl H0 eq_refl Hd Hf) as (c & Hc & Hlc & _ & ->).
    exists c. split_and!; [done| |done]. assert (Hn : (nth j r 0 < ptrs)%nat).
    { rewrite Forall_forall in Hr. apply Hr, list_elem_of_In, nth_In. lia. }
    destruct (lookup_lt_is_Some_2 c (nth j r 0%nat)) as [w ->]; [lia|done].
Qed.

Lemma chain_load s p j : file_ok s -> partial_path p -> (j < length p)%nat -> j = 0%nat \/ at_path s (take j p) <> 0 ->
  load env s (base_at s p j) (Z.of_nat (nth j p 0%nat)) = Ok (at_path s (take (S j) p)).
Proof. intros Hf Hp Hj H0. destruct (chain_step s p j Hf Hp Hj H0) as (_ & c & Hc & Hk & _). by eapply load_ok. Qed.

(** The chain that [ext2_get_branch] fills in: [m] is the index of its last element. *)
Definition branch_found (s : mstate) (p : list nat) (full : bool) (m : nat) : Prop :=
  (m < length p)%nat /\ (forall j, (j < m)%nat -> at_path s (take (S j) p) <> 0) /\
  if full then S m = length p /\ at_path s p <> 0 else at_path s (take (S m) p) = 0.

Lemma verify_ok s p : file_ok s -> partial_path p -> forall n i, (i + n <= length p)%nat ->
  (forall j, (S j < i + n)%nat -> at_path s (take (S j) p) <> 0) -> verify_chain env s (map (chain_at s p) (seq i n)) = Ok true.
Proof.
  intros Hf Hp n. induction n as [|n IH]; intros i Hi Hnz; simpl; [done|].
  rewrite chain_load; [|done|done|lia|destruct i; [by left|right; apply Hnz; lia]]. cbn [rbind]. rewrite Z.eqb_refl. apply IH; [lia|].
  intros j Hj. apply Hnz. lia.
Qed.

Lemma get_branch_spec s p : file_ok s -> partial_path p ->
  exists full m, ext2_get_branch env s (map Z.of_nat p) = Ok (0, full, map (chain_at s p) (seq 0 (S m))) /\ branch_found s p full m.
Proof.
  intros Hf Hp.
  assert (Hloop : forall n m, length p = (S m + n)%nat -> (forall j, (j <= m)%nat -> at_path s (take (S j) p) <> 0) ->
    exists full m', branch_loop env s (map Z.of_nat (drop (S m) p)) (map (chain_at s p) (seq 0 (S m))) (chain_at s p m) =
      Ok (0, full, map (chain_at s p) (seq 0 (S m'))) /\ branch_found s p full m').
  { induction n as [|n IH]; intros m Hm Hnz.
    - rewrite (drop_ge p) by lia. exists true, m. split; [done|]. split_and!; [lia|intros j Hj; apply Hnz; lia|lia|].
      rewrite <- (take_ge p (S m)) by lia. by apply Hnz.
    - destruct (lookup_lt_is_Some_2 p (S m)) as [o Ho]; [lia|]. rewrite (drop_S _ _ _ Ho). cbn [map branch_loop].
      destruct (chain_step s p (S m) Hf Hp ltac:(lia) ltac:(right; by apply Hnz)) as (_ & c & Hc & Hk & _). simpl in Hc.
      cbn [chain_at ind_key]. rewrite Hc, verify_ok; [|done|done|lia|intros j Hj; apply Hnz; lia]. cbn [rbind negb].
      unfold add_chain. pose proof (chain_load s p (S m) Hf Hp ltac:(lia) ltac:(right; by apply Hnz)) as El.
      rewrite (nth_lookup_Some _ _ _ _ Ho) in El. cbn [base_at] in El. rewrite El. cbn [rbind ind_key].
      assert (Echain : map (chain_at s p) (seq 0 (S m)) ++ [Ind (InBlock (at_path s (take (S m) p))) (Z.of_nat o) (at_path s (take (S (S m)) p))] =
        map (chain_at s p) (seq 0 (S (S m)))).
      { rewrite (seq_S (S m)), map_app. cbn [map Nat.add]. unfold chain_at at 3. by rewrite (nth_lookup_Some _ _ _ _ Ho). }
      rewrite Echain. destruct (Z.eqb_spec (at_path s (take (S (S m)) p)) 0) as [E0|E0].
      + exists false, (S m). split; [done|]. split_and!; [lia|intros j Hj; apply Hnz; lia|done].
      + assert (Eq : Ind (InBlock (at_path s (take (S m) p))) (Z.of_nat o) (at_path s (take (S (S m)) p)) = chain_at s p (S m)).
        { unfold chain_at. by rewrite (nth_lookup_Some _ _ _ _ Ho). }
        rewrite Eq. apply IH; [lia|]. intros j Hj. destruct (decide (j = S m)) as [->|]; [done|]. apply Hnz. lia. }
  destruct p as [|k r] eqn:Ep; [done|]. rewrite <- Ep in *. assert (Hl : length p = (1 + length r)%nat) by by rewrite Ep.
  pose proof (chain_load s p 0 Hf Hp ltac:(lia) ltac:(by left)) as El.
  assert (Eg : ext2_get_branch env s (map Z.of_nat p) = let* q := add_chain env s InInode (Z.of_nat (nth 0 p 0%nat)) in
    if ind_key q =? 0 then Ok (0, false, [q]) else branch_loop env s (map Z.of_nat (drop 1 p)) [q] q) by by rewrite Ep.
  rewrite Eg. unfold add_chain. cbn [base_at] in El. rewrite El. cbn [rbind ind_key].
  change (Ind InInode (Z.of_nat (nth 0 p 0%nat)) (at_path s (take 1 p))) with (chain_at s p 0).
  destruct (Z.eqb_spec (at_path s (take 1 p)) 0) as [E0|E0].
  - exists false, 0%nat. split; [done|]. split_and!; [lia|intros j Hj; lia|done].
  - apply (Hloop (length r) 0%nat); [lia|]. intros j Hj. by assert (j = 0)%nat as -> by lia.
Qed.
End BlockFile.
