(* ===== verification/Ext2BlockTrunc.v ===== *)
(** * ext2: truncation

    [__ext2_truncate_blocks] of [fs/ext2/inode.c]: the blocks of the file from the new end on
    are freed, with the indirect blocks that only lead to them, and no others. *)

From S2P Require Import Prelude CString ByteMem Ext2Layout Ext2Dir Ext2Super Ext2Inode Ext2Ialloc Ext2IallocFacts.
From S2P Require Import Ext2Balloc Ext2BallocBits Ext2BallocRsv Ext2BallocGroup Ext2BallocFacts Ext2BallocAlloc Ext2BallocFree Ext2BallocTheorems.
From S2P Require Import Ext2BlockMap Ext2BlockTree Ext2BlockPath Ext2BlockFacts Ext2BlockFile.

Section Truncate.
Context (rb : rb_lib) {RL : RbLaws rb} (sb : sb_info) {W : SbWf sb} {B : BlkWf sb} (blkbits : Z) {G : MapWf blkbits} (env : map_env).

Notation buf := (buf env).
Notation words := (words env).
Notation ptrs := (ptrs blkbits).
Notation turned := (turned sb).
Notation freed := (freed sb env).
Notation clean := (clean env).
Notation file_ok := (file_ok rb sb blkbits env).
Notation file_blocks := (file_blocks env).
Notation at_path := (at_path env).
Notation located := (located env).
Notation cut := (cut sb env).
Notation partial_path := (partial_path blkbits).
Notation chain_at := (chain_at env).
Notation base_at := (base_at env).

(** ** Steps of a truncation *)

(** The blocks [L] of the file are free; the paths in [P] lead nowhere now, the others
    where they led before. *)
Record trim (s s' : mstate) (L : list Z) (P : list nat -> Prop) : Prop := {
  tr_ok : file_ok s';
  tr_turned : turned false (m_blk s) (m_blk s') (ino_of s) L;
  tr_blocks : file_blocks s ≡ₚ L ++ file_blocks s';
  tr_other b : b ∉ file_blocks s -> buf s' b = buf s b;
  tr_rsv : b_rsv (m_blk s') = b_rsv (m_blk s);
  tr_inode : mark_inode_dirty (m_inode s') = mark_inode_dirty (m_inode s);
  tr_info : m_info s' = m_info s;
  tr_in r : partial_path r -> P r -> at_path s' r = 0;
  tr_out r : partial_path r -> ~ P r -> at_path s' r = at_path s r;
  tr_any r : partial_path r -> at_path s' r = 0 \/ at_path s' r = at_path s r }.

Lemma trim_refl s : file_ok s -> trim s s [] (fun _ => False).
Proof. intros Hf. split; try done; [|by right]. apply (turned_nil sb), Hf. Qed.

Lemma trim_trans s s1 s2 L1 L2 P1 P2 : trim s s1 L1 P1 -> trim s1 s2 L2 P2 -> trim s s2 (L1 ++ L2) (fun r => P1 r \/ P2 r).
Proof.
  intros [K1 T1 B1 O1 R1 I1 F1 Z1 N1 A1] [K2 T2 B2 O2 R2 I2 F2 Z2 N2 A2].
  rewrite (same_ino _ _ I1 : ino_of s1 = ino_of s) in T2. split.
  - done.
  - by eapply (turned_trans sb).
  - by rewrite B1, B2, app_assoc.
  - intros b Hb. rewrite O2, O1; [done|done|]. intros Hb'. apply Hb. rewrite B1. set_solver.
  - congruence.
  - congruence.
  - congruence.
  - intros r Hr [H|H]; [|by apply Z2]. destruct (A2 r Hr) as [->| ->]; [done|]. by apply Z1.
  - intros r Hr H. rewrite N2, N1 by tauto. done.
  - intros r Hr. destruct (A2 r Hr) as [->| ->]; [by left|]. by apply A1.
Qed.

Lemma trim_weaken s s' L P P' : trim s s' L P -> (forall r, partial_path r -> P r <-> P' r) -> trim s s' L P'.
Proof.
  intros [K T Bl O R I F Zr N A] H. split; try done.
  - intros r Hr HP. apply Zr; [done|]. by apply H.
  - intros r Hr HP. apply N; [done|]. by rewrite H.
Qed.

(** The words of an array from [off] on are cut off. *)
Definition slots (q : list nat) (off n : nat) (r : list nat) : Prop := exists o r', r = q ++ o :: r' /\ (off <= o < off + n)%nat.

Lemma cut_trim s s' a q lv off n c d : file_ok s -> located s a q lv -> words s a = Some c -> (off + n <= length c)%nat ->
  (forall k, (off <= k < off + n)%nat -> lv k = d) -> cut s s' a (zap off n c) (arr (buf s) (fun _ => d) (slice off n c)) ->
  trim s s' (arr (buf s) (fun _ => d) (slice off n c)) (slots q off n).
Proof.
  intros Hf Hloc Hc Hl Hd Hcut.
  destruct (cut_file rb sb blkbits env s s' a q lv off n c d Hf Hloc Hc Hl Hd Hcut) as (Hok & Hp & Hout & Hin).
  destruct (located_below rb sb blkbits env s a q lv c Hf Hloc Hc) as (_ & Hsub & Hown).
  assert (Hlen : forall o r, partial_path (q ++ o :: r) -> (length r <= lv o)%nat).
  { intros o r. destruct Hloc as [|b k q' e Hb Hb0 Hde]; simpl; intros (_ & Hr & _); [lia|]. rewrite length_app in Hr. simpl in Hr. lia. }
  assert (Hb : forall r, below q r \/ ~ below q r).
  { intros r. destruct (decide (q `prefix_of` r)) as [[[|o r'] ->]|Hn].
    - right. intros (o & r' & E). rewrite app_nil_r in E. apply (f_equal length) in E. rewrite length_app in E. simpl in E. lia.
    - left. by exists o, r'.
    - right. intros (o & r' & ->). apply Hn. by eexists. }
  assert (Hpart : forall r, partial_path r -> ~ below q r -> at_path s' r = at_path s r).
  { intros [|k r]; [done|]. intros (? & ? & ?) Hnb. by apply Hout. }
  split; try apply Hcut; try done.
  - intros b Hnb. apply (ct_others _ _ _ _ _ _ _ Hcut (InBlock b)); [|done|].
    + intros <-. destruct (Hown b eq_refl) as (_ & _ & Hin'). done.
    + intros b' [= <-] HL. apply Hnb. rewrite Hp. set_solver.
  - intros r Hr (o & r' & -> & Ho). rewrite Hin by by apply Hlen. by rewrite decide_True.
  - intros r Hr Hns. destruct (Hb r) as [(o & r' & ->)|Hnb]; [|by apply Hpart]. rewrite Hin by by apply Hlen.
    rewrite decide_False; [done|]. intros Ho. apply Hns. by exists o, r'.
  - intros r Hr. destruct (Hb r) as [(o & r' & ->)|Hnb]; [|right; by apply Hpart]. rewrite Hin by by apply Hlen.
    case_decide; [by left|by right].
Qed.

(** ** What the functions cut *)

(** The inode's own words, or words of a block that is marked as dirty. *)
Lemma freed_cut s s' a c L : freed s s' a c L -> a <> InNr ->
  cut s (match a with InBlock b => mark_buffer_dirty_inode b s' | _ => s' end) a c L.
Proof.
  intros [T R Wd O C A I F] Ha. destruct a as [|b|]; [|destruct s'|done]; (split; try done).
  - intros a' H1 _ H2. by apply O.
  - intros b Hb. by apply C.
  - intros a' H1 _ H2. by apply O.
  - intros b' Hb'. destruct (decide (b' = b)) as [->|Hne]; [left; simpl; set_solver|].
    destruct (C b') as [H|H]; [congruence|done|left; simpl in *; set_solver|by right].
Qed.

(** A word is moved to the variable [nr] and cleared. *)
Definition unlink (a : base) (c : list Z) (o : nat) (w : Z) (s : mstate) : mstate :=
  let s1 := set_nr w (put_words a (<[o := 0]> c) s) in
  if w =? 0 then s1 else match a with InBlock b => mark_buffer_dirty_inode b s1 | _ => dirty_inode s1 end.

Lemma dirty_twice n : mark_inode_dirty (mark_inode_dirty n) = mark_inode_dirty n.
Proof. by destruct n as [[]]. Qed.

Lemma unlink_frame s a c o w : let s1 := put_words a (<[o := 0]> c) s in let s2 := unlink a c o w s in
  (forall a', a' <> InNr -> words s2 a' = words s1 a') /\ m_nr s2 = w /\ m_blk s2 = m_blk s1 /\
  mark_inode_dirty (m_inode s2) = mark_inode_dirty (m_inode s1) /\ m_info s2 = m_info s1 /\
  (forall b, b ∈ m_assoc s2 <-> b ∈ m_assoc s1 \/ w <> 0 /\ a = InBlock b).
Proof.
  intros s1 s2. subst s2. unfold unlink. fold s1. clearbody s1. destruct s1 as [n i D bf as_ nr bl]. destruct (Z.eqb_spec w 0) as [->|Hw].
  - split_and!; try done; [by intros []|]. intros b. simpl. tauto.
  - destruct a as [|b0|]; split_and!; try done; try (by intros []); try apply dirty_twice; intros b; simpl; set_solver.
Qed.

Lemma unlink_cut s a c o w : file_ok s -> words s a = Some c -> a <> InNr -> c !! o = Some w ->
  cut s (unlink a c o w s) a (<[o := 0]> c) [] /\ m_nr (unlink a c o w s) = w.
Proof.
  intros Hf Hc Ha Ho. assert (Hl : length (<[o := 0]> c) = length (default [] (words s a))) by by rewrite Hc, length_insert.
  destruct (freed_store sb env s a (<[o := 0]> c)) as [T R Wd O C A I F]; [apply Hf|done|].
  destruct (unlink_frame s a c o w) as (Ew & En & Eb & Ei & Ez & Ea). split; [|done]. split.
  - by rewrite Eb.
  - by rewrite Eb.
  - by rewrite Ew.
  - intros a' H1 H2 H3. rewrite Ew by done. by apply O.
  - intros b Hb. unfold clean. rewrite Ea. pose proof (Ew (InBlock b) ltac:(done)) as E. simpl in E. rewrite E.
    destruct (decide (a = InBlock b)) as [->|Hne].
    + destruct (decide (w = 0)) as [->|Hw]; [|left; by right]. rewrite (list_insert_id c o 0 Ho) in *.
      destruct Hb as [Hb|Hb]; [left; left; destruct s; done|right]. rewrite <- Hb. simpl in Hc. rewrite Hc. by apply (words_put env (InBlock b)).
    + destruct (C b) as [H|H]; [congruence|done|left; by left|by right].
  - by rewrite Ei.
  - by rewrite Ez.
Qed.

Lemma zap_one o (c : list Z) : zap o 1 c = <[o := 0]> c.
Proof. done. Qed.

(** What was below the word is freed. *)
Lemma detach_cut s a c o w d : file_ok s -> words s a = Some c -> a <> InNr -> c !! o = Some w ->
  to_free sb s (owned (buf s) d w) -> (forall b, a = InBlock b -> b ∉ owned (buf s) d w) -> shaped ptrs (buf s) d w ->
  exists s', (if w =? 0 then Ok (unlink a c o w s) else ext2_free_branches sb blkbits env d InNr 0 1 (unlink a c o w s)) = Ok s' /\
    cut s s' a (zap o 1 c) (arr (buf s) (fun _ => d) (slice o 1 c)).
Proof.
  intros Hf Hc Ha Ho [Hn Hu] Hown Hsh. destruct (unlink_cut s a c o w Hf Hc Ha Ho) as [Hcut Hnr]. set (s1 := unlink a c o w s) in *.
  rewrite zap_one, (slice_S o 0 c w Ho), arr_cons. change (arr (buf s) (fun _ => d) (slice (S o) 0 c)) with (@nil Z). rewrite app_nil_r.
  destruct (Z.eqb_spec w 0) as [->|Hw]; [exists s1; by rewrite owned_0|].
  assert (Eb : forall x, x ∈ owned (buf s) d w -> buf s1 x = buf s x).
  { intros x Hx. apply (ct_others _ _ _ _ _ _ _ Hcut (InBlock x)); [|done|by intros b _ Hb%not_elem_of_nil || set_solver].
    intros <-. by apply (Hown x). }
  destruct (free_branches_spec sb blkbits env d InNr 0%nat 1%nat s1 [w]) as (s' & E' & Fr).
  { apply (tu_ok _ _ _ _ _ _ (ct_turned _ _ _ _ _ _ _ Hcut)). }
  { simpl. by rewrite Hnr. }
  { simpl. lia. }
  { change (slice 0 1 [w]) with [w]. rewrite arr_cons. change (arr (buf s1) (fun _ => d) []) with (@nil Z).
    rewrite app_nil_r, (owned_ext _ _ d w Eb). split; [done|]. intros x Hx.
    eapply (turned_used sb); [exact (ct_turned _ _ _ _ _ _ _ Hcut)|apply not_elem_of_nil|by apply Hu]. }
  { done. }
  { intros k w' Hk. destruct k; [|done]. injection Hk as <-. by apply (shaped_ext _ (buf s)). }
  change (slice 0 1 [w]) with [w] in Fr. rewrite arr_cons in Fr. change (arr (buf s1) (fun _ => d) []) with (@nil Z) in Fr.
  rewrite app_nil_r, (owned_ext _ _ d w Eb) in Fr. exists s'. split; [exact E'|].
  destruct Fr as [T R Wd O C A I F], Hcut as [T1 R1 W1 O1 C1 I1 F1]. rewrite (same_ino _ _ I1 : ino_of s1 = ino_of s) in T. split.
  - change (owned (buf s) d w) with ([] ++ owned (buf s) d w). by eapply (turned_trans sb).
  - congruence.
  - rewrite <- W1. by apply O.
  - intros a' H1 H2 H3. rewrite O, O1; try done. set_solver.
  - intros b Hb. by apply C, C1.
  - congruence.
  - congruence.
Qed.

(** The blocks below part of an array can be freed. *)
Lemma slots_free s a q lv off n c d : file_ok s -> located s a q lv -> words s a = Some c -> (off + n <= length c)%nat ->
  (forall k, (off <= k < off + n)%nat -> lv k = d) ->
  to_free sb s (arr (buf s) (fun _ => d) (slice off n c)) /\
  (forall b, a = InBlock b -> b ∉ arr (buf s) (fun _ => d) (slice off n c)) /\
  (forall k w, slice off n c !! k = Some w -> shaped ptrs (buf s) d w).
Proof.
  intros Hf Hloc Hc Hl Hd. destruct (located_below rb sb blkbits env s a q lv c Hf Hloc Hc) as (Hnd & Hsub & Hown).
  pose proof (arr_zap (buf s) lv d n off c Hl Hd) as Hz. split_and!.
  - split; [rewrite Hz, NoDup_app in Hnd; by destruct Hnd as (_ & _ & ?)|]. intros x Hx. apply (fo_owned _ _ _ _ s Hf), Hsub. rewrite Hz. set_solver.
  - intros b Hb Hx. destruct (Hown b Hb) as (Hn & _). apply Hn. rewrite Hz. set_solver.
  - intros k w [Hk Hw]%lookup_slice. rewrite <- (Hd (off + k)%nat) by lia.
    destruct Hloc as [|b k' q' e Hb Hb0 Hde]; [simpl in Hc; injection Hc as <-; by apply Hf|].
    destruct (at_path_words rb sb blkbits env s (k' :: q') b k' 0%nat e q') as (c0 & Hc0 & _ & Hk0 & _); [done..|].
    simpl in Hc. rewrite Hc in Hc0. injection Hc0 as <-. by eapply Hk0.
Qed.

Lemma free_slots s a q lv off n c d : file_ok s -> located s a q lv -> words s a = Some c -> (off + n <= length c)%nat ->
  (forall k, (off <= k < off + n)%nat -> lv k = d) ->
  exists s' L, ext2_free_branches sb blkbits env d a (Z.of_nat off) n s = Ok s' /\
    trim s (match a with InBlock b => mark_buffer_dirty_inode b s' | _ => s' end) L (slots q off n).
Proof.
  intros Hf Hloc Hc Hl Hd. destruct (slots_free s a q lv off n c d Hf Hloc Hc Hl Hd) as (Hfr & Hown & Hsh).
  destruct (free_branches_spec sb blkbits env d a off n s c) as (s' & E & F); try done; [apply Hf|].
  eexists s', _. split; [done|]. eapply cut_trim; [done..|]. apply freed_cut; [done|]. by destruct Hloc.
Qed.

(** The same for one word, by way of the variable [nr]. *)
Lemma detach_slot s a q lv c o w d : file_ok s -> located s a q lv -> words s a = Some c -> c !! o = Some w -> lv o = d ->
  exists s' L, (if w =? 0 then Ok (unlink a c o w s) else ext2_free_branches sb blkbits env d InNr 0 1 (unlink a c o w s)) = Ok s' /\
    trim s s' L (slots q o 1).
Proof.
  intros Hf Hloc Hc Ho Hd. assert (Hl : (o + 1 <= length c)%nat) by (apply lookup_lt_Some in Ho; lia).
  assert (Hd' : forall k, (o <= k < o + 1)%nat -> lv k = d) by (intros k Hk; by assert (k = o) as -> by lia).
  destruct (slots_free s a q lv o 1 c d Hf Hloc Hc Hl Hd') as (Hfr & Hown & Hsh).
  assert (Es : slice o 1 c = [w]) by (by rewrite (slice_S o 0 c w Ho)). rewrite Es in Hfr, Hown, Hsh.
  rewrite arr_cons in Hfr, Hown. change (arr (buf s) (fun _ => d) []) with (@nil Z) in *. rewrite app_nil_r in Hfr, Hown.
  destruct (detach_cut s a c o w d Hf Hc) as (s' & E & Hcut); [by destruct Hloc|done|done|done|by apply (Hsh 0%nat)|].
  eexists s', _. split; [done|]. by eapply cut_trim.
Qed.

(** ** The ends of the indirect blocks *)

Lemma clear_ends_spec p : valid_path blkbits p -> forall i s chain (z : nat -> Z), file_ok s -> (i < length p)%nat ->
  (forall j, (1 <= j <= i)%nat -> -1 <= z j < Z.of_nat ptrs /\ at_path s (take j p) <> 0 /\
     exists key, chain !! j = Some (Ind (InBlock (at_path s (take j p))) (z j) key)) ->
  exists s' L, clear_ends sb blkbits env (length p) chain i s = Ok s' /\
    trim s s' L (fun r => exists j, (1 <= j <= i)%nat /\ slots (take j p) (Z.to_nat (z j + 1)) (ptrs - Z.to_nat (z j + 1)) r).
Proof.
  intros Hp i. induction i as [|i IH]; intros s chain z Hf Hi Hch.
  { exists s, []. split; [done|]. apply (trim_weaken s s [] (fun _ => False)); [by apply trim_refl|].
    intros r _. split; [done|]. intros (j & Hj & _). lia. }
  destruct (Hch (S i)) as (Hz & H0 & key & Ec); [lia|]. cbn [clear_ends]. rewrite Ec. cbn [deref rbind ind_base ind_off].
  pose proof (valid_partial blkbits p Hp) as Hpp.
  destruct (chain_step rb sb blkbits env s p (S i) Hf Hpp Hi ltac:(by right)) as (Hloc & c & Hc & _ & Hlc). cbn [base_at] in Hloc, Hc.
  set (b := at_path s (take (S i) p)) in *. set (off := Z.to_nat (z (S i) + 1)).
  destruct (free_slots s (InBlock b) (take (S i) p) _ off (ptrs - off) c (length p - 1 - S i) Hf Hloc Hc) as (s1 & L1 & E1 & T1).
  { subst off. lia. }
  { intros k _. destruct p as [|k0 r0]; [done|]. destruct Hp as (_ & Hl0 & _). simpl. lia. }
  destruct (ptrs_pos blkbits) as [Ep Hpp'].
  replace (z (S i) + 1) with (Z.of_nat off) by (subst off; lia). replace (Z.to_nat (EXT2_ADDR_PER_BLOCK blkbits - Z.of_nat off)) with (ptrs - off)%nat by lia.
  rewrite E1. cbn [rbind].
  assert (Hsame : forall j, (1 <= j <= i)%nat -> at_path (mark_buffer_dirty_inode b s1) (take j p) = at_path s (take j p)).
  { intros j Hj. apply (tr_out _ _ _ _ T1); [apply partial_take; [done|lia]|]. intros (o & r' & E & _).
    apply (f_equal length) in E. rewrite length_app, !length_take in E. cbn [length] in E. lia. }
  destruct (IH (mark_buffer_dirty_inode b s1) chain z) as (s2 & L2 & E2 & T2); [apply T1|lia| |].
  { intros j Hj. rewrite Hsame by done. apply Hch. lia. }
  exists s2, (L1 ++ L2). split; [done|]. eapply trim_weaken; [by eapply trim_trans|]. intros r _. split.
  - intros [Hr|(j & Hj & Hr)]; [exists (S i)|exists j]; (split; [lia|done]).
  - intros (j & Hj & Hr). destruct (decide (j = S i)) as [->|]; [by left|]. right. exists j. split; [lia|done].
Qed.

(** ** Whole subtrees of the inode *)

Lemma kill_tree_spec s k d : file_ok s -> (k < 15)%nat -> dep k = d ->
  exists s' L, kill_tree sb blkbits env (Z.of_nat k) d s = Ok s' /\ trim s s' L (slots [] k 1).
Proof.
  intros Hf Hk Hd. destruct (lookup_lt_is_Some_2 (i_data s) k) as [w Hw]; [rewrite (fo_len _ _ _ _ s Hf); lia|].
  destruct (detach_slot s InInode [] dep (i_data s) k w d Hf (loc_inode env s) eq_refl Hw Hd) as (s' & L & E & T).
  exists s', L. split; [|done]. unfold kill_tree. rewrite (load_ok env s InInode (i_data s) k w eq_refl Hw). cbn [rbind].
  unfold unlink in E. destruct (Z.eqb_spec w 0) as [->|Hw0].
  - rewrite (list_insert_id (i_data s) k 0 Hw) in E. rewrite <- E. by destruct s.
  - rewrite (store_ok env (set_nr w s) InInode (i_data s) k w 0) by (by destruct s). cbn [rbind]. rewrite <- E. by destruct s.
Qed.

(** ** The shared branch *)

Lemma shared_depth_SS (l : list Z) n :
  shared_depth l (S (S n)) = if default 0 (l !! S n) =? 0 then shared_depth l (S n) else S (S n).
Proof. done. Qed.

Lemma shared_depth_spec (p : list nat) n : (n <= length p)%nat -> (1 <= n)%nat ->
  let k := shared_depth (map Z.of_nat p) n in
  (1 <= k <= n)%nat /\ (forall j, (k <= j < n)%nat -> nth j p 0%nat = 0%nat) /\ ((1 < k)%nat -> nth (k - 1) p 0%nat <> 0%nat).
Proof.
  induction n as [|n IH]; intros Hl Hn; [lia|]. destruct n as [|n]; cbn zeta; [simpl; split_and!; intros; lia|]. rewrite shared_depth_SS.
  assert (Ho : p !! S n = Some (nth (S n) p 0%nat)) by (destruct (nth_lookup_or_length p (S n) 0%nat); [done|lia]).
  rewrite list_lookup_fmap, Ho. cbn [fmap option_fmap option_map default id]. destruct (Z.eqb_spec (Z.of_nat (nth (S n) p 0%nat)) 0) as [E|E].
  - destruct (IH ltac:(lia) ltac:(lia)) as (H1 & H2 & H3). split_and!; [lia|lia| |done].
    intros j Hj. destruct (decide (j = S n)) as [->|]; [lia|]. apply H2. lia.
  - split_and!; [lia|lia|intros j Hj; lia|]. intros _. replace (S (S n) - 1)%nat with (S n) by lia. lia.
Qed.

Lemma all_zeroes_spec s a c n : forall off, words s a = Some c -> (off + n <= length c)%nat ->
  exists z, all_zeroes env s a (Z.of_nat off) n = Ok z /\ (z = true -> forall k, (off <= k < off + n)%nat -> c !! k = Some 0).
Proof.
  induction n as [|n IH]; intros off Hc Hl; cbn [all_zeroes]; [exists true; split; [done|intros _ k Hk; lia]|].
  destruct (lookup_lt_is_Some_2 c off ltac:(lia)) as [w Hw]. rewrite (load_ok env s a c off w Hc Hw). cbn [rbind].
  destruct (Z.eqb_spec w 0) as [->|Hw0]; cbn [negb]; [|by exists false].
  replace (Z.of_nat off + 1) with (Z.of_nat (S off)) by lia. destruct (IH (S off) Hc ltac:(lia)) as (z & -> & Hz).
  exists z. split; [done|]. intros -> k Hk. destruct (decide (k = off)) as [->|]; [done|]. apply Hz; [done|lia].
Qed.

Lemma map_seq_lookup {A} (f : nat -> A) n j : (j < n)%nat -> map f (seq 0 n) !! j = Some (f j).
Proof. intros Hj. rewrite list_lookup_fmap, lookup_seq_lt by lia. done. Qed.

(** Nothing but zeroes before the path, below the block where the loop stops. *)
Lemma shared_loop_spec s p m : file_ok s -> partial_path p -> (m < length p)%nat -> (forall j, (j < m)%nat -> at_path s (take (S j) p) <> 0) ->
  forall i, (i <= m)%nat -> exists i', shared_loop env s (map (chain_at s p) (seq 0 (S m))) i = Ok i' /\ (i' <= i)%nat /\
    forall j, (i' < j <= i)%nat -> forall o, (o < nth j p 0)%nat -> at_path s (take j p ++ [o]) = 0.
Proof.
  intros Hf Hp Hm Hnz i. induction i as [|i IH]; intros Hi; cbn [shared_loop]; [exists 0%nat; split_and!; [done|lia|intros j Hj; lia]|].
  rewrite map_seq_lookup by lia. cbn [deref rbind chain_at ind_base ind_off].
  destruct (chain_step rb sb blkbits env s p (S i) Hf Hp ltac:(lia) ltac:(right; apply Hnz; lia)) as (Hloc & c & Hc & Ho & Hl).
  rewrite Nat2Z.id. destruct (all_zeroes_spec s _ c (nth (S i) p 0%nat) 0%nat Hc) as (z & Ez & Hz); [apply lookup_lt_Some in Ho; lia|].
  change 0 with (Z.of_nat 0) at 1. rewrite Ez. cbn [rbind]. destruct z; [|exists (S i); split_and!; [done|lia|intros j Hj; lia]].
  destruct (IH ltac:(lia)) as (i' & E & Hi' & Hz'). exists i'. split_and!; [done|lia|]. intros j Hj o Hoj.
  destruct (decide (j = S i)) as [->|]; [|apply Hz'; lia]. specialize (Hz eq_refl o ltac:(lia)).
  inversion Hloc as [|b k q e Hb Hb0 Hd Ea Eq Elv]. rewrite <- Eq in *.
  destruct (at_path_words rb sb blkbits env s (k :: q) _ k o e q eq_refl Hb0 eq_refl Hd Hf) as (c0 & Hc0 & _ & _ & ->).
  cbn [Ext2BlockFile.base_at] in Hc. rewrite <- Eq in Hc. cbn [Ext2BlockFacts.words] in Hc. rewrite Hc in Hc0. injection Hc0 as <-. by rewrite Hz.
Qed.

(** A path that leaves the shared branch to the left below [i] leads nowhere. *)
Definition left_empty (s : mstate) (p : list nat) (i : nat) : Prop :=
  forall r j, partial_path r -> (i < j)%nat -> (j < length r)%nat -> (j < length p)%nat -> take j r = take j p ->
    (nth j r 0 < nth j p 0)%nat -> at_path s r = 0.

Lemma at_path_below s q r : at_path s q = 0 -> q <> [] -> at_path s (q ++ r) = 0.
Proof. intros H Hq. unfold Ext2BlockFile.at_path in *. by rewrite look_app, H, follow_0. Qed.

Lemma chain_at_take s p k j : (j < k)%nat -> (k <= length p)%nat -> chain_at s (take k p) j = chain_at s p j.
Proof.
  intros Hj Hk. unfold Ext2BlockFile.chain_at, Ext2BlockFile.base_at. rewrite !take_take, !Nat.min_l by lia. f_equal.
  rewrite <- (take_drop k p) at 2. rewrite app_nth1; [done|]. rewrite length_take. lia.
Qed.

Lemma last_map_seq {A} (f : nat -> A) m : last (map f (seq 0 (S m))) = Some (f m).
Proof. rewrite seq_S, map_app. apply last_snoc. Qed.

Lemma take_map_seq {A} (f : nat -> A) i n : (i <= n)%nat -> take i (map f (seq 0 n)) = map f (seq 0 i).
Proof. intros Hi. rewrite firstn_map, take_seq. do 2 f_equal. lia. Qed.

Lemma set_nr_same s : m_nr s = 0 -> set_nr 0 s = s.
Proof. destruct s. simpl. by intros ->. Qed.

(** What [ext2_find_shared] returns: the last block that survives is at index [i] of the
    branch, and the word there goes too, by decrementing the pointer or by [nr]. *)
Lemma find_shared_spec s p : file_ok s -> m_nr s = 0 -> valid_path blkbits p ->
  exists i, (i < length p)%nat /\ (forall j, (1 <= j <= i)%nat -> at_path s (take j p) <> 0) /\ left_empty s p i /\
    ((1 <= i)%nat /\ (forall j, (i < j < length p)%nat -> nth j p 0%nat = 0%nat) /\ nth i p 0%nat <> 0%nat /\
     ext2_find_shared env s (map Z.of_nat p) =
       Ok (map (chain_at s p) (seq 0 i) ++ [Ind (base_at s p i) (Z.of_nat (nth i p 0%nat) - 1) (at_path s (take (S i) p))], s) \/
     exists c, words s (base_at s p i) = Some c /\ c !! nth i p 0%nat = Some (at_path s (take (S i) p)) /\
       ext2_find_shared env s (map Z.of_nat p) = Ok (map (chain_at s p) (seq 0 (S i)),
         set_nr (at_path s (take (S i) p)) (put_words (base_at s p i) (<[nth i p 0%nat := 0]> c) s))).
Proof.
  intros Hf Hnr Hp. pose proof (valid_partial blkbits p Hp) as Hpp. assert (Hlp : (1 <= length p)%nat) by (destruct p; [done|simpl; lia]).
  unfold ext2_find_shared. rewrite (set_nr_same s Hnr), length_map. set (k := shared_depth (map Z.of_nat p) (length p)).
  destruct (shared_depth_spec p (length p) ltac:(lia) Hlp) as (Hk & Hzero & Hkn). fold k in Hk, Hzero, Hkn.
  rewrite firstn_map. assert (Hpk : partial_path (take k p)) by (apply partial_take; [done|lia]).
  assert (Hlk : length (take k p) = k) by (rewrite length_take; lia).
  destruct (get_branch_spec rb sb blkbits env s (take k p) Hf Hpk) as (full & m & -> & Hm & Hnz & Hend). rewrite Hlk in Hm, Hend.
  assert (Echain : forall n, (n <= k)%nat -> map (chain_at s (take k p)) (seq 0 n) = map (chain_at s p) (seq 0 n)).
  { intros n Hn. apply map_ext_in. intros j [_ Hj]%in_seq. apply chain_at_take; lia. }
  assert (Etake : forall j, (j <= k)%nat -> take j (take k p) = take j p) by (intros j Hj; rewrite take_take; f_equal; lia).
  assert (Enth : forall j, (j < k)%nat -> nth j (take k p) 0%nat = nth j p 0%nat).
  { intros j Hj. rewrite <- (take_drop k p) at 2. rewrite app_nth1; [done|lia]. }
  destruct (shared_loop_spec s (take k p) m Hf Hpk ltac:(lia) Hnz m ltac:(lia)) as (i & Ei & Him & Hleft).
  assert (Hnz' : forall j, (1 <= j <= m)%nat -> at_path s (take j p) <> 0).
  { intros j Hj. rewrite <- (Etake j) by lia. specialize (Hnz (j - 1)%nat ltac:(lia)). by replace (S (j - 1)) with j in Hnz by lia. }
  assert (Hempty : left_empty s p i).
  { intros r j Hr Hij Hjr Hjp Et Hlt. rewrite (split_at r j Hjr), Et. destruct (decide (j <= m)%nat) as [Hjm|Hjm].
    - rewrite cons_middle, app_assoc. apply at_path_below; [|by destruct (take j p)]. rewrite <- (Etake j) by lia.
      apply Hleft; [lia|]. rewrite Enth by lia. done.
    - destruct full; [destruct Hend as [Hend _]; rewrite (Hzero j) in Hlt by lia; lia|]. rewrite (Etake (S m)) in Hend by lia.
      rewrite <- (take_drop (S m) (take j p)), take_take, Nat.min_l, <- app_assoc by lia. apply at_path_below; [done|]. by destruct p. }
  cbn [rbind]. rewrite Echain in Ei |- * by lia. rewrite last_map_seq. cbn [deref rbind].
  assert (Hload : forall j, (j <= m)%nat -> load env s (base_at s p j) (Z.of_nat (nth j p 0%nat)) = Ok (at_path s (take (S j) p))).
  { intros j Hj. apply (chain_load rb sb blkbits); [done|done|lia|]. destruct j; [by left|right; apply Hnz'; lia]. }
  cbn [Ext2BlockFile.chain_at ind_base ind_off ind_key]. rewrite Hload by lia. cbn [rbind]. rewrite andb_negb_r.
  rewrite length_map, length_seq. replace (S m - 1)%nat with m by lia. rewrite Ei. cbn [rbind]. rewrite map_seq_lookup by lia. cbn [deref rbind].
  cbn [Ext2BlockFile.chain_at ind_base ind_off ind_key]. exists i. split_and!; [lia|intros j Hj; apply Hnz'; lia|done|].
  destruct ((i =? k - 1)%nat && (0 <? i)%nat) eqn:Edec.
  - apply andb_true_iff in Edec as [E1%Nat.eqb_eq E2%Nat.ltb_lt]. left. split_and!; [lia|intros j Hj; apply Hzero; lia| |].
    + rewrite E1. apply Hkn. lia.
    + by rewrite take_map_seq by lia.
  - right. destruct (chain_step rb sb blkbits env s p i Hf Hpp ltac:(lia)) as (_ & c & Hc & Hw & _).
    { destruct i; [by left|right; apply Hnz'; lia]. }
    exists c. split_and!; [done..|]. rewrite Hload by lia. cbn [rbind]. rewrite (store_ok env s _ c _ _ 0 Hc Hw). cbn [rbind].
    by rewrite take_map_seq by lia.
Qed.

(** ** Paths to the left and to the right *)

Lemma slot_left p j o r : (j < length p)%nat -> lexlt (take j p ++ o :: r) p ->
  (o < nth j p 0)%nat \/ o = nth j p 0%nat /\ exists j0, (j < j0)%nat /\ (j0 < length (take j p ++ o :: r))%nat /\ (j0 < length p)%nat /\
    take j0 (take j p ++ o :: r) = take j0 p /\ (nth j0 (take j p ++ o :: r) 0 < nth j0 p 0)%nat.
Proof.
  intros Hj Hlt. destruct (lexlt_diff _ _ Hlt) as (j0 & H1 & H2 & H3 & H4). assert (Ht : length (take j p) = j) by (rewrite length_take; lia).
  destruct (lt_eq_lt_dec j0 j) as [[Hlt0|Heq]|Hgt].
  - rewrite app_nth1 in H4 by lia. rewrite <- (take_drop j p) in H4 at 2. rewrite app_nth1 in H4 by lia. lia.
  - subst j0. left. rewrite app_nth2 in H4 by lia. by rewrite Ht, Nat.sub_diag in H4.
  - right. split; [|eauto 10]. apply (f_equal (fun l => nth j l 0%nat)) in H3.
    rewrite <- (take_drop j0 p) at 1. rewrite (app_nth1 (take j0 p)) by (rewrite length_take; lia). rewrite <- H3.
    rewrite take_app_ge by lia. rewrite app_nth2, Ht, Nat.sub_diag by lia. by destruct (j0 - j)%nat eqn:E; [lia|].
Qed.

Lemma right_slot p r : partial_path r -> head r = head p -> lexlt p r ->
  exists j, (1 <= j)%nat /\ (j < length p)%nat /\ (nth j p 0 < nth j r 0 < ptrs)%nat /\ r = take j p ++ nth j r 0%nat :: drop (S j) r.
Proof.
  intros Hr Hh Hlt. destruct (lexlt_diff _ _ Hlt) as (j & H1 & H2 & H3 & H4). exists j.
  assert (Hj : (1 <= j)%nat). { destruct j; [|lia]. destruct p, r; try done. simpl in *. injection Hh as ->. lia. }
  split_and!; [done..| |]; [|rewrite H3; by apply split_at]. destruct r as [|k r]; [done|]. destruct Hr as (_ & _ & Hr).
  destruct j as [|j]; [lia|]. simpl in H2 |- *. rewrite Forall_forall in Hr. apply Hr, list_elem_of_In, nth_In. lia.
Qed.

Lemma nth_path_lt p j : partial_path p -> (1 <= j < length p)%nat -> (nth j p 0 < ptrs)%nat.
Proof.
  destruct p as [|k r]; [done|]. intros (_ & _ & Hr) Hj. destruct j as [|j]; [lia|]. simpl in Hj |- *.
  rewrite Forall_forall in Hr. apply Hr, list_elem_of_In, nth_In. lia.
Qed.

Lemma head_slot (p : list nat) j o r : (1 <= j <= length p)%nat -> head (take j p ++ o :: r) = head p.
Proof. destruct p, j; simpl; (done || lia). Qed.

(** ** The branch to the first block to go *)

(** All paths from [p] on below the same slot of the inode are cut, and no path before it
    that leads anywhere. *)
Definition branch_cut (s : mstate) (p : list nat) (P : list nat -> Prop) : Prop :=
  (forall r, P r -> head r = head p) /\
  (forall r, partial_path r -> head r = head p -> lexlt p r \/ r = p -> P r) /\
  (forall r, partial_path r -> P r -> lexlt r p -> at_path s r = 0).

(** The slots that [clear_ends] clears. *)
Definition ends (p : list nat) (i : nat) (z : nat -> Z) (r : list nat) : Prop :=
  exists j, (1 <= j <= i)%nat /\ slots (take j p) (Z.to_nat (z j + 1)) (ptrs - Z.to_nat (z j + 1)) r.

Lemma ends_left p i z r : (i < length p)%nat -> (forall j, (1 <= j <= i)%nat -> z j = Z.of_nat (nth j p 0%nat)) -> ends p i z r -> ~ lexlt r p.
Proof.
  intros Hi Hz (j & Hj & o & r' & -> & Ho) Hlt. rewrite (Hz j Hj) in Ho. apply slot_left in Hlt as [H|[-> _]]; lia.
Qed.

Lemma ends_right p i z r : partial_path r -> head r = head p -> lexlt p r -> (forall j, (1 <= j <= i)%nat -> z j <= Z.of_nat (nth j p 0%nat)) ->
  ends p i z r \/ exists j o r', (i < j < length p)%nat /\ r = take j p ++ o :: r'.
Proof.
  intros Hr Hh Hlt Hz. destruct (right_slot p r Hr Hh Hlt) as (j & H1 & H2 & H3 & H4). destruct (decide (j <= i)%nat) as [Hj|Hj].
  - left. exists j. split; [lia|]. eexists _, _. split; [done|]. specialize (Hz j ltac:(lia)). lia.
  - right. exists j, (nth j r 0%nat), (drop (S j) r). split; [lia|done].
Qed.

Lemma take_below (p : list nat) i j l : (i < j <= length p)%nat -> exists r', take j p ++ l = take i p ++ nth i p 0%nat :: r'.
Proof.
  intros Hij. exists (drop (S i) (take j p) ++ l). rewrite app_comm_cons, app_assoc. f_equal.
  replace (take i p) with (take i (take j p)) by (rewrite take_take; f_equal; lia).
  replace (nth i p 0%nat) with (nth i (take j p) 0%nat); [apply split_at; rewrite length_take; lia|].
  rewrite <- (take_drop j p) at 2. rewrite app_nth1; [done|rewrite length_take; lia].
Qed.

Lemma cut_branch_spec s p : file_ok s -> m_nr s = 0 -> valid_path blkbits p ->
  exists s' L P, cut_branch sb blkbits env (map Z.of_nat p) s = Ok s' /\ trim s s' L P /\ branch_cut s p P.
Proof.
  intros Hf Hnr Hp. pose proof (valid_partial blkbits p Hp) as Hpp.
  destruct (find_shared_spec s p Hf Hnr Hp) as (i & Hi & Hnz & Hempty & [(Hi1 & Hzero & Hpi & E)|(c & Hc & Hw & E)]);
    unfold cut_branch; rewrite E, length_map; cbn [rbind].
  - rewrite length_app, length_map, length_seq. cbn [length]. replace (i + 1 - 1)%nat with i by lia. rewrite Hnr. cbn [Z.eqb rbind].
    set (z := fun j => if decide (j = i) then Z.of_nat (nth i p 0%nat) - 1 else Z.of_nat (nth j p 0%nat)).
    assert (Hz : forall j, (1 <= j <= i)%nat -> z j <= Z.of_nat (nth j p 0%nat)) by (intros j Hj; subst z; simpl; case_decide; [subst|]; lia).
    destruct (clear_ends_spec p Hp i s (map (chain_at s p) (seq 0 i) ++ [Ind (base_at s p i) (Z.of_nat (nth i p 0%nat) - 1) (at_path s (take (S i) p))]) z)
      as (s' & L & E' & T); [done|done| |].
    { intros j Hj. pose proof (nth_path_lt p j Hpp ltac:(lia)). split; [subst z; simpl; case_decide; [subst|]; lia|].
      split; [by apply Hnz|]. subst z. simpl. case_decide as Hji.
      - subst j. exists (at_path s (take (S i) p)). rewrite lookup_app_r by (rewrite length_map, length_seq; lia).
        rewrite length_map, length_seq, Nat.sub_diag. simpl. by destruct i; [lia|].
      - exists (at_path s (take (S j) p)). rewrite lookup_app_l by (rewrite length_map, length_seq; lia). rewrite map_seq_lookup by lia.
        by destruct j; [lia|]. }
    exists s', L, (ends p i z). split_and!; [done|done|]. split_and!.
    + intros r (j & Hj & o & r' & -> & _). apply head_slot. lia.
    + assert (Hat : forall r r', r = take i p ++ nth i p 0%nat :: r' -> ends p i z r).
      { intros r r' Er. exists i. split; [lia|]. exists (nth i p 0%nat), r'. split; [done|]. pose proof (nth_path_lt p i Hpp ltac:(lia)).
        unfold z. rewrite decide_True by done. lia. }
      intros r Hr Hh [Hlt| ->]; [|by eapply Hat, split_at].
      destruct (ends_right p i z r Hr Hh Hlt Hz) as [|(j & o & r' & Hj & ->)]; [done|].
      destruct (take_below p i j (o :: r') ltac:(lia)) as (r'' & Er). by eapply Hat.
    + intros r Hr (j & Hj & o & r' & -> & Ho) Hlt. unfold z in Ho. apply slot_left in Hlt as [H|(-> & j0 & H1 & H2 & H3 & H4 & H5)]; [| |lia].
      * case_decide; [subst j|]; lia.
      * case_decide; [subst j|lia]. rewrite (Hzero j0) in H5 by lia. lia.
  - set (w := at_path s (take (S i) p)) in *. rewrite length_map, length_seq. replace (S i - 1)%nat with i by lia.
    destruct (chain_step rb sb blkbits env s p i Hf Hpp Hi) as (Hloc & _); [destruct i; [by left|right; apply Hnz; lia]|].
    assert (Hlv : lv_at p i (nth i p 0%nat) = (length p - 1 - i)%nat).
    { destruct p as [|k r]; [done|]. destruct Hp as (_ & Hl & _). destruct i; simpl; lia. }
    destruct (detach_slot s _ _ _ c (nth i p 0%nat) w _ Hf Hloc Hc Hw Hlv) as (s1 & L1 & E1 & T1).
    assert (E1' : (if m_nr (set_nr w (put_words (base_at s p i) (<[nth i p 0%nat := 0]> c) s)) =? 0
        then Ok (set_nr w (put_words (base_at s p i) (<[nth i p 0%nat := 0]> c) s))
        else ext2_free_branches sb blkbits env (length p - 1 - i) InNr 0 1
          (match last (map (chain_at s p) (seq 0 (S i))) with
           | Some (Ind (InBlock b) _ _) => mark_buffer_dirty_inode b (set_nr w (put_words (base_at s p i) (<[nth i p 0%nat := 0]> c) s))
           | _ => dirty_inode (set_nr w (put_words (base_at s p i) (<[nth i p 0%nat := 0]> c) s)) end)) = Ok s1).
    { rewrite last_map_seq. unfold unlink in E1. cbn [Ext2BlockFile.chain_at]. destruct s as [n0 i0 D bf as_ nr bl].
      replace (m_nr (set_nr w (put_words _ _ _))) with w by (by destruct i). destruct (w =? 0); [done|]. by destruct i. }
    rewrite E1'. cbn [rbind].
    assert (Hsame : forall j, (1 <= j <= i)%nat -> at_path s1 (take j p) = at_path s (take j p)).
    { intros j Hj. apply (tr_out _ _ _ _ T1); [apply partial_take; [done|lia]|]. intros (o & r' & Ex & _).
      apply (f_equal length) in Ex. rewrite length_app, !length_take in Ex. cbn [length] in Ex. lia. }
    set (z := fun j => Z.of_nat (nth j p 0%nat)).
    destruct (clear_ends_spec p Hp i s1 (map (chain_at s p) (seq 0 (S i))) z) as (s' & L & E' & T); [apply T1|done| |].
    { intros j Hj. pose proof (nth_path_lt p j Hpp ltac:(lia)). rewrite Hsame by done. split; [unfold z; lia|]. split; [by apply Hnz|].
      exists (at_path s (take (S j) p)). rewrite map_seq_lookup by lia. by destruct j; [lia|]. }
    exists s', (L1 ++ L), (fun r => slots (take i p) (nth i p 0%nat) 1 r \/ ends p i z r).
    split_and!; [done|by eapply trim_trans|]. split_and!.
    + intros r [(o & r' & -> & Ho)|(j & Hj & o & r' & -> & _)]; [|apply head_slot; lia].
      assert (o = nth i p 0%nat) as -> by lia. destruct i; [simpl; by destruct p|apply head_slot; lia].
    + intros r Hr Hh [Hlt| ->].
      * destruct (ends_right p i z r Hr Hh Hlt ltac:(intros; unfold z; lia)) as [|(j & o & r' & Hj & ->)]; [by right|left].
        destruct (take_below p i j (o :: r') ltac:(lia)) as (r'' & Er). rewrite Er. eexists _, _. split; [done|lia].
      * left. eexists _, _. split; [apply (split_at p i Hi)|lia].
    + intros r Hr [(o & r' & -> & Ho)|He] Hlt; [|by destruct (ends_left p i z r Hi ltac:(done) He)].
      pose proof Hlt as [H|(-> & j0 & H1 & H2 & H3 & H4 & H5)]%slot_left; [lia| |done]. by eapply (Hempty _ j0).
Qed.

(** ** The whole truncation *)

Lemma kill_step s k d (first : nat) : file_ok s -> (k < 15)%nat -> dep k = d ->
  exists s' L, (if Z.of_nat first <? Z.of_nat k then kill_tree sb blkbits env (Z.of_nat k) d s else Ok s) = Ok s' /\
    trim s s' L (fun r => head r = Some k /\ (first < k)%nat).
Proof.
  intros Hf Hk Hd. destruct (Z.ltb_spec (Z.of_nat first) (Z.of_nat k)) as [Hlt|Hge].
  - destruct (kill_tree_spec s k d Hf Hk Hd) as (s' & L & E & T). exists s', L. split; [done|]. eapply trim_weaken; [done|].
    intros r Hr. split.
    + intros (o & r' & -> & Ho). simpl. split; [f_equal|]; lia.
    + intros [Hh _]. destruct r as [|o r]; [done|]. injection Hh as ->. exists k, r. split; [done|lia].
  - exists s, []. split; [done|]. eapply trim_weaken; [by apply trim_refl|]. intros r _. split; [done|]. intros [_ H]. lia.
Qed.

(** The reservation of the inode is gone. *)
Definition discarded (s s' : mstate) : Prop :=
  (forall n, rsv_nodes (b_rsv (m_blk s')) !! ino_of s = Some n -> rsv_end n = 0) /\
  (forall i, i <> ino_of s -> rsv_nodes (b_rsv (m_blk s')) !! i = rsv_nodes (b_rsv (m_blk s)) !! i).

(** As [trim], with the reservation discarded. *)
Record released (s s' : mstate) (L : list Z) : Prop := {
  re_ok : file_ok s';
  re_turned : turned false (m_blk s) (m_blk s') (ino_of s) L;
  re_blocks : file_blocks s ≡ₚ L ++ file_blocks s';
  re_other b : b ∉ file_blocks s -> buf s' b = buf s b;
  re_inode : mark_inode_dirty (m_inode s') = mark_inode_dirty (m_inode s);
  re_info : m_info s' = m_info s }.

Lemma at_path_rsv s w q : at_path (set_blk w s) q = at_path s q.
Proof. by destruct s. Qed.

Lemma do_indirects_spec s (first : nat) : file_ok s ->
  exists s' L, do_indirects rb sb blkbits env (Z.of_nat first) s = Ok s' /\ released s s' L /\ discarded s s' /\
    (forall r, partial_path r -> at_path s' r = at_path s r \/ at_path s' r = 0) /\
    (forall r k, partial_path r -> head r = Some k -> (first < k)%nat -> (12 <= k)%nat -> at_path s' r = 0) /\
    (forall r k, partial_path r -> head r = Some k -> (k <= first)%nat \/ (k < 12)%nat -> at_path s' r = at_path s r).
Proof.
  intros Hf. unfold do_indirects, EXT2_IND_BLOCK, EXT2_DIND_BLOCK, EXT2_TIND_BLOCK.
  destruct (kill_step s 12 1 first Hf ltac:(lia) eq_refl) as (s1 & L1 & E1 & T1). change (Z.of_nat 12) with 12 in E1. rewrite E1. cbn [rbind].
  destruct (kill_step s1 13 2 first (tr_ok _ _ _ _ T1) ltac:(lia) eq_refl) as (s2 & L2 & E2 & T2). change (Z.of_nat 13) with 13 in E2. rewrite E2. cbn [rbind].
  destruct (kill_step s2 14 3 first (tr_ok _ _ _ _ T2) ltac:(lia) eq_refl) as (s3 & L3 & E3 & T3). change (Z.of_nat 14) with 14 in E3. rewrite E3. cbn [rbind].
  pose proof (trim_trans _ _ _ _ _ _ _ (trim_trans _ _ _ _ _ _ _ T1 T2) T3) as T. clear T1 T2 T3 E1 E2 E3.
  destruct T as [K T Bl O R I F Zr N A]. pose proof (same_ino _ _ I : ino_of s3 = ino_of s) as Ei.
  destruct (discard_ok rb (b_rsv (m_blk s3)) (ino_of s3)) as (w & -> & Hw & Hd1 & Hd2); [apply K|]. cbn [rbind].
  eexists _, ((L1 ++ L2) ++ L3). split; [done|]. split_and!.
  - destruct K as [K1 K2 K3 K4 K5 K6 K7 K8]. destruct T as [T1 T2 T3 T4 T5 T6], s3. split; try done; split; done.
  - rewrite Ei, R in Hd2. destruct s3. split; [by rewrite <- Ei|]. intros i Hi. simpl. by apply Hd2.
  - intros r Hr. rewrite at_path_rsv. destruct (A r Hr); tauto.
  - intros r k Hr Hh Hk H12. rewrite at_path_rsv. apply Zr; [done|]. destruct r as [|k' r]; [done|]. injection Hh as ->. destruct Hr as (Hk15 & _).
    simpl. assert (Hc : k = 12%nat \/ k = 13%nat \/ k = 14%nat) by lia. destruct Hc as [->|[->| ->]]; tauto.
  - intros r k Hr Hh Hk. rewrite at_path_rsv. apply N; [done|]. rewrite Hh. intros [[[[= ->] ?]|[[= ->] ?]]|[[= ->] ?]]; lia.
Qed.

(** The blocks of a file by their numbers. *)
Definition bmap (s : mstate) (i : Z) : Z := at_path s (map Z.to_nat (fst (ext2_block_to_path blkbits i))).

Lemma bmap_path s i q : is_path blkbits i q -> bmap s i = at_path s q.
Proof.
  intros (_ & _ & E). unfold bmap. rewrite E. cbn [fst]. rewrite map_map. f_equal. rewrite <- (map_id q) at 2. apply map_ext.
  intros o. apply Nat2Z.id.
Qed.

Lemma bmap_outside s i : ~ 0 <= i < max_block blkbits -> bmap s i = 0.
Proof. intros H. unfold bmap. by rewrite block_to_path_outside. Qed.

(** The paths from [p] on lead nowhere, those before it where they led. *)
Definition cut_at (s s' : mstate) (p : list nat) : Prop :=
  (forall r, partial_path r -> lexlt r p -> at_path s' r = at_path s r) /\
  (forall r, partial_path r -> lexlt p r \/ r = p -> at_path s' r = 0).

Lemma trim_released s s1 s2 L1 L2 P : trim s s1 L1 P -> released s1 s2 L2 -> discarded s1 s2 -> released s s2 (L1 ++ L2) /\ discarded s s2.
Proof.
  intros [K1 T1 B1 O1 R1 I1 F1 _ _ _] [K2 T2 B2 O2 I2 F2] [D1 D2]. pose proof (same_ino _ _ I1 : ino_of s1 = ino_of s) as Ei. rewrite Ei in T2. split; [split|].
  - done.
  - by eapply (turned_trans sb).
  - by rewrite B1, B2, app_assoc.
  - intros b Hb. rewrite O2, O1; [done|done|]. intros Hb'. apply Hb. rewrite B1. set_solver.
  - congruence.
  - congruence.
  - rewrite Ei, R1 in *. by split.
Qed.

Lemma file_ok_nr s v : file_ok s -> file_ok (set_nr v s).
Proof. intros [K1 K2 K3 K4 K5 K6 K7 K8]. destruct s. by split. Qed.

Lemma trim_nr s v : file_ok s -> trim s (set_nr v s) [] (fun _ => False).
Proof. intros Hf. pose proof (trim_refl s Hf) as [K T Bl O R I F Zr N A]. pose proof (file_ok_nr s v Hf). destruct s. by split. Qed.

(** The part of the truncation before [do_indirects]. *)
Lemma first_part s p : file_ok s -> m_nr s = 0 -> valid_path blkbits p ->
  exists s' L P, match map Z.of_nat p with
    | [] => Undef OutOfBoundsRead
    | [first] => ext2_free_data sb env InInode first (Z.to_nat (Z.of_nat EXT2_NDIR_BLOCKS - first)) s
    | offsets => cut_branch sb blkbits env offsets s
    end = Ok s' /\ trim s s' L P /\
    (forall r k, partial_path r -> P r -> head r = Some k -> head p = Some k \/ (nth 0 p 0 < k < 12)%nat) /\
    (forall r, partial_path r -> head r = head p -> lexlt p r \/ r = p -> P r) /\
    (forall r, partial_path r -> P r -> lexlt r p -> at_path s r = 0) /\
    (forall r k, partial_path r -> head r = Some k -> (nth 0 p 0 < k < 12)%nat -> P r).
Proof.
  intros Hf Hnr Hp. destruct p as [|k0 r0]; [done|]. destruct r0 as [|o r0].
  - destruct Hp as (Hk & Hd & _). unfold dep in Hd. simpl in Hd. cbn [map]. unfold EXT2_NDIR_BLOCKS.
    replace (Z.to_nat (Z.of_nat 12 - Z.of_nat k0)) with (12 - k0)%nat by lia.
    destruct (free_slots s InInode [] dep k0 (12 - k0) (i_data s) 0 Hf (loc_inode env s) eq_refl) as (s' & L & E & T).
    { rewrite (fo_len _ _ _ _ s Hf). lia. }
    { intros k Hk'. unfold dep. lia. }
    exists s', L, (slots [] k0 (12 - k0)). split_and!; [done|done|..].
    + intros r k _ (o & r' & -> & Ho) [= <-]. simpl. destruct (decide (o = k0)) as [->|]; [by left|right; lia].
    + intros r Hr Hh _. destruct r as [|k r]; [done|]. injection Hh as ->. exists k0, r. split; [done|lia].
    + intros r _ (o & r' & -> & Ho) [H|[_ H]]; [lia|]. by destruct r'.
    + intros r k Hr Hh Hk'. destruct r as [|k' r]; [done|]. injection Hh as ->. simpl in Hk'. exists k, r. split; [done|lia].
  - destruct (cut_branch_spec s (k0 :: o :: r0) Hf Hnr Hp) as (s' & L & P & E & T & H1 & H2 & H3).
    exists s', L, P. split_and!; [done|done| |done|done|].
    + intros r k Hr HP Hh. left. by rewrite <- Hh, (H1 r HP).
    + intros r k Hr Hh Hk'. destruct Hp as (_ & Hd & _). unfold dep in Hd. simpl in Hd, Hk'. lia.
Qed.

Lemma truncate_path s p i : file_ok s -> is_path blkbits i p -> forall offset, Z.shiftr (offset + EXT2_BLOCK_SIZE blkbits - 1) blkbits = i ->
  exists s' L, __ext2_truncate_blocks rb sb blkbits env offset s = Ok s' /\ released s s' L /\ discarded s s' /\ cut_at s s' p.
Proof.
  intros Hf (Hv & Hb & Ep) offset Ei. unfold __ext2_truncate_blocks. rewrite Ei, Ep.
  pose proof (trim_nr s 0 Hf) as T0. destruct (first_part (set_nr 0 s) p) as (s1 & L1 & P & E1 & T1 & H1 & H2 & H3 & H4); [apply T0|by destruct s|done|].
  destruct p as [|k0 r0]; [done|]. destruct (do_indirects_spec s1 k0 (tr_ok _ _ _ _ T1)) as (s2 & L2 & E2 & R2 & D2 & A2 & Z2 & N2).
  pose proof (trim_trans _ _ _ _ _ _ _ T0 T1) as T. destruct (trim_released _ _ _ _ _ _ T R2 D2) as [HR HD].
  exists s2. eexists. split; [|split; [exact HR|split; [exact HD|]]].
  { cbn [map]. destruct r0 as [|o r0]; cbn [map] in E1 |- *; rewrite E1; cbn [rbind]; exact E2. }
  assert (Hat : forall r, at_path (set_nr 0 s) r = at_path s r) by (by destruct s).
  split.
  - intros r Hr Hlt. assert (Hh : exists k, head r = Some k /\ (k <= k0)%nat).
    { destruct r as [|k r]; [done|]. exists k. split; [done|]. destruct Hlt as [|[-> _]]; lia. }
    destruct Hh as (k & Hh & Hk). rewrite (N2 r k Hr Hh) by tauto. destruct (decide (at_path s r = 0)) as [E0|E0].
    + destruct (tr_any _ _ _ _ T1 r Hr) as [->| ->]; by rewrite ?Hat, ?E0.
    + rewrite <- Hat. apply (tr_out _ _ _ _ T1); [done|]. intros HP. apply E0. rewrite <- Hat. by apply H3.
  - intros r Hr Hge. assert (HP : P r -> at_path s2 r = 0).
    { intros HP. destruct (A2 r Hr) as [->| ->]; [|done]. by apply (tr_in _ _ _ _ T1). }
    destruct r as [|k r]; [done|]. destruct (lt_eq_lt_dec k k0) as [[Hlt|Heq]|Hgt].
    + destruct Hge as [[H|[H _]]|[= H _]]; lia.
    + subst k. by apply HP, H2.
    + destruct (decide (12 <= k)%nat) as [H12|H12]; [by apply (Z2 _ k); [done|done|lia|]|].
      apply HP, (H4 _ k); [done|done|simpl; lia].
Qed.

Definition first_gone (offset : Z) : Z := Z.shiftr (offset + EXT2_BLOCK_SIZE blkbits - 1) blkbits.

Lemma first_gone_bounds offset : 0 <= offset -> (first_gone offset - 1) * 2 ^ blkbits < offset <= first_gone offset * 2 ^ blkbits.
Proof.
  destruct G as [Hb]. intros Ho. unfold first_gone, EXT2_BLOCK_SIZE. rewrite Z.shiftl_mul_pow2, Z.shiftr_div_pow2 by lia.
  assert (0 < 2 ^ blkbits) by (apply Z.pow_pos_nonneg; lia). pose proof (Z.div_mod (offset + 1 * 2 ^ blkbits - 1) (2 ^ blkbits) ltac:(lia)).
  pose proof (Z.mod_pos_bound (offset + 1 * 2 ^ blkbits - 1) (2 ^ blkbits) ltac:(lia)). nia.
Qed.

Lemma truncate_spec s offset : file_ok s -> 0 <= offset ->
  exists s' L, __ext2_truncate_blocks rb sb blkbits env offset s = Ok s' /\ released s s' L /\
    (first_gone offset < max_block blkbits -> discarded s s') /\
    (forall i, bmap s' i = if i <? first_gone offset then bmap s i else 0) /\ (offset = 0 -> file_blocks s' = []).
Proof.
  intros Hf Ho. pose proof (first_gone_bounds offset Ho) as Hg. pose proof blkbits_range as Hbits.
  assert (Hpos : 0 < 2 ^ blkbits) by (apply Z.pow_pos_nonneg; lia).
  assert (Hi : 0 <= first_gone offset) by nia. destruct (decide (first_gone offset < max_block blkbits)) as [Hlt|Hge].
  - destruct (block_to_path_spec blkbits (first_gone offset) ltac:(lia)) as (p & Hp). pose proof Hp as (Hv & Hb & _).
    destruct (truncate_path s p (first_gone offset) Hf Hp offset eq_refl) as (s' & L & E & HR & HD & Hleft & Hright).
    exists s', L. split_and!; [done|done|done| |].
    + intros i. destruct (decide (0 <= i < max_block blkbits)) as [Hr|Hr].
      * destruct (block_to_path_spec blkbits i Hr) as (q & Hq). pose proof Hq as (Hqv & Hqb & _). rewrite !(bmap_path _ i q Hq).
        pose proof (valid_partial blkbits q Hqv) as Hqp. destruct (Z.ltb_spec i (first_gone offset)) as [Hlt'|Hge'].
        -- apply Hleft; [done|]. apply (lexlt_block blkbits); [done..|lia].
        -- apply Hright; [done|]. destruct (decide (i = first_gone offset)) as [->|Hne]; [right; by eapply is_path_unique|left].
           apply (lexlt_block blkbits); [done..|lia].
      * rewrite !bmap_outside by done. by destruct (i <? _).
    + intros ->. assert (E0 : first_gone 0 = 0) by nia. rewrite E0 in *.
      assert (p = [0%nat]) as ->.
      { symmetry. eapply (is_path_unique blkbits); [done| |done]. simpl. split_and!; [lia|done|constructor]. }
      apply elem_of_nil_inv. intros x (k & w & Hk & Hx)%elem_of_arr.
      assert (Hk15 : (k < 15)%nat) by (rewrite <- (fo_len _ _ _ _ _ (re_ok _ _ _ HR)); by eapply lookup_lt_Some).
      assert (Hw : at_path s' [k] = w) by (unfold Ext2BlockFile.at_path; simpl; by rewrite Hk).
      rewrite Hright in Hw; [|simpl; split_and!; [lia|lia|constructor]|].
      * subst w. rewrite owned_0 in Hx. by apply not_elem_of_nil in Hx.
      * simpl. destruct k; [by right|left; left; lia].
  - pose proof (block_to_path_outside blkbits (first_gone offset) ltac:(lia)) as Ep. exists (set_nr 0 s), []. split_and!.
    + unfold __ext2_truncate_blocks. fold (first_gone offset). destruct (ext2_block_to_path blkbits (first_gone offset)) as [l x]. simpl in Ep. by subst l.
    + pose proof (trim_nr s 0 Hf) as [K T Bl O R I F _ _ _]. by split.
    + lia.
    + intros i. destruct (Z.ltb_spec i (first_gone offset)); [by destruct s|]. apply bmap_outside. lia.
    + intros ->. exfalso. assert (first_gone 0 = 0) by nia. destruct (ptrs_pos blkbits) as [_ Hp']. unfold max_block in Hge. nia.
Qed.
End Truncate.
