(* ===== verification/Ext2BlockAlloc.v ===== *)
(** * ext2: allocating the blocks of a file

    [ext2_alloc_branch] and [ext2_splice_branch] of [fs/ext2/inode.c]: the missing part of a
    branch is built from free blocks and then linked in with one store; when a step fails,
    everything that was taken is given back. *)

From S2P Require Import Prelude CString ByteMem Ext2Layout Ext2Dir Ext2Super Ext2Inode Ext2Ialloc Ext2IallocFacts.
From S2P Require Import Ext2Balloc Ext2BallocBits Ext2BallocRsv Ext2BallocGroup Ext2BallocFacts Ext2BallocAlloc Ext2BallocFree Ext2BallocTheorems.
From S2P Require Import Ext2BlockMap Ext2BlockTree Ext2BlockPath Ext2BlockFacts Ext2BlockFile Ext2BlockTrunc.

(** The functions of the kernel return zero or the negative number of an error. *)
Class EnvWf (env : map_env) : Prop := {
  ew_quota ino n : dquot_alloc_block (me_blocks env) ino n <= 0;
  ew_zeroout x n : sb_issue_zeroout env x n <= 0 }.

Section Allocate.
Context (rb : rb_lib) {RL : RbLaws rb} (sb : sb_info) {W : SbWf sb} {B : BlkWf sb} (blkbits : Z) {G : MapWf blkbits} (env : map_env) {EW : EnvWf env}.

Notation buf := (buf env).
Notation words := (words env).
Notation ptrs := (ptrs blkbits).
Notation turned := (turned sb).
Notation clean := (clean env).
Notation file_ok := (file_ok rb sb blkbits env).
Notation file_blocks := (file_blocks env).
Notation at_path := (at_path env).
Notation located := (located env).
Notation partial_path := (partial_path blkbits).
Notation used := (used sb).

(** ** Blocks *)

(** The allocator is in order. *)
Record blocks_ok (st : bstate) : Prop := { bo_blocks : balloc_ok sb (b_sbi st); bo_windows : win_ok rb (b_rsv st) }.

(** Nothing has been taken or given back. *)
Record unchanged (st st' : bstate) : Prop := {
  uc_ok : blocks_ok st';
  uc_side : inode_side sb (b_sbi st) (b_sbi st');
  uc_bits y : in_zone sb y -> bbit sb (b_sbi st') y = bbit sb (b_sbi st) y;
  uc_charged y : blocks_charged st' y = blocks_charged st y }.

(** The blocks [N] have been taken. *)
Definition took (st st' : bstate) (ino : Z) (N : list Z) : Prop := turned true st st' ino N /\ blocks_ok st'.

Lemma took_nil st ino : blocks_ok st -> took st st ino [].
Proof. intros H. split; [apply (turned_nil sb), H|done]. Qed.

Lemma took_trans st st1 st2 ino N1 N2 : took st st1 ino N1 -> took st1 st2 ino N2 -> took st st2 ino (N1 ++ N2).
Proof. intros [T1 _] [T2 H2]. split; [by eapply (turned_trans sb)|done]. Qed.

Lemma took_back st st1 st2 ino N : took st st1 ino N -> turned false st1 st2 ino N -> b_rsv st2 = b_rsv st1 -> unchanged st st2.
Proof.
  intros [T1 H1] T2 Hr. destruct (turned_undo sb st st1 st2 ino N T1 T2) as [Hb Hc]. split; [split|..]; try done.
  - apply T2.
  - rewrite Hr. apply H1.
  - eapply (inode_side_trans sb); [apply T1|apply T2].
Qed.

(** [ext2_new_blocks] takes a run of blocks or nothing. *)
Lemma new_blocks_took st ino goal count : blocks_ok st -> ino <> 0 -> 1 <= count < 2 ^ 30 ->
  exists err n x st', ext2_new_blocks rb sb (me_blocks env) st ino goal count = Ok (err, n, x, st') /\
    (err = 0 /\ 1 <= n <= count /\ took st st' ino (seqZ x n) \/ err < 0 /\ took st st' ino []).
Proof.
  intros [Hb Hw] Hi Hc. destruct (new_blocks_spec rb sb (me_blocks env) st ino goal count Hb Hw Hi Hc) as (err & n & x & st' & E & Hok & Hs & [Hw' _] & H).
  exists err, n, x, st'. split; [done|]. destruct H as [(-> & Hn & (Hz1 & Hz2 & Hfree) & Hf & Hch)|(He & -> & -> & Hca & Hch & Hq)].
  - left. split; [done|]. split; [done|]. split; [|done]. apply (run_turned sb); [lia|done|done| |done].
    intros y Hy. unfold in_zone. split; [lia|]. by apply Hfree.
  - right. split; [destruct Hq as [->|[-> _]]; [pose proof (ew_quota (env := env) ino count); lia|done]|]. split; [|done]. split; try done.
    + constructor.
    + by intros y ?%not_elem_of_nil.
    + intros y _. rewrite decide_False by apply not_elem_of_nil. by apply (cached_bbit sb).
    + intros y. rewrite Hch. case_decide; simpl; lia.
Qed.

Lemma free_each_spec l : forall s, balloc_ok sb (b_sbi (m_blk s)) -> NoDup l -> (forall x, x ∈ l -> used (m_blk s) x) ->
  exists b, free_each sb s l = Ok (set_blk b s) /\ turned false (m_blk s) b (ino_of s) l /\ b_rsv b = b_rsv (m_blk s).
Proof.
  induction l as [|x l IH]; intros s Hok Hnd Hu; cbn [free_each].
  { exists (m_blk s). split; [by destruct s|]. split; [by apply (turned_nil sb)|done]. }
  apply NoDup_cons in Hnd as [Hx Hnd]. destruct (free_blocks_turned sb s x 1) as (b1 & -> & T1 & R1); [done|lia| |].
  { intros y Hy. assert (y = x) as -> by lia. apply Hu. left. }
  change (seqZ x 1) with [x] in T1. cbn [rbind]. assert (Eb : m_blk (set_blk b1 s) = b1) by by destruct s.
  destruct (IH (set_blk b1 s)) as (b2 & -> & T2 & R2); rewrite ?Eb; [apply T1|done| |].
  { intros y Hy. eapply (turned_used sb); [exact T1|set_solver|]. apply Hu. by right. }
  assert (Ei : ino_of (set_blk b1 s) = ino_of s) by by destruct s. rewrite Eb, Ei in *. exists b2. split; [by destruct s|].
  split; [|congruence]. change (x :: l) with ([x] ++ l). by eapply (turned_trans sb).
Qed.

(** ** Blocks for a branch *)

Lemma fill_blocks_spec n : forall x count l, 0 <= count ->
  fill_blocks n x count l = let k := Z.min (Z.of_nat n) count in (x + k, count - k, l ++ seqZ x k).
Proof.
  induction n as [|n IH]; intros x count l Hc; cbn [fill_blocks].
  { rewrite Z.min_l by lia. simpl. by rewrite Z.add_0_r, Z.sub_0_r, app_nil_r. }
  destruct (Z.eqb_spec count 0) as [->|Hne].
  { rewrite Z.min_r by lia. simpl. by rewrite Z.add_0_r, app_nil_r. }
  rewrite IH by lia. cbn zeta. replace (Z.min (Z.of_nat (S n)) count) with (Z.min (Z.of_nat n) (count - 1) + 1) by lia.
  rewrite (seqZ_cons x) by lia. rewrite <- app_assoc. cbn [app]. f_equal; [f_equal; lia|]. f_equal. f_equal. f_equal; lia.
Qed.

(** The number of blocks wanted is enough for what is still missing. *)
Lemma alloc_loop_spec st0 s0 ind goal fuel : forall s nb target,
  s = set_blk (m_blk s) s0 -> took st0 (m_blk s) (ino_of s0) nb -> ino_of s0 <> 0 -> (length nb <= ind)%nat ->
  1 + Z.of_nat (ind - length nb) <= target < 2 ^ 30 -> (ind - length nb < fuel)%nat ->
  exists err num nbs s', alloc_loop rb sb env fuel s goal ind target nb = Ok (err, num, nbs, s') /\
    (err = 0 /\ (exists N x b, nbs = N ++ [x] /\ length N = ind /\ 1 <= num <= target - Z.of_nat (ind - length nb) /\
       s' = set_blk b s0 /\ took st0 b (ino_of s0) (N ++ seqZ x num)) \/
     err < 0 /\ exists b, (s' = set_blk b s0 \/ s' = dirty_inode (set_blk b s0)) /\ unchanged st0 b).
Proof.
  induction fuel as [|fuel IH]; intros s nb target Es Ht Hi Hl Htg Hfu; [lia|]. cbn [alloc_loop].
  assert (Ei : ino_of s = ino_of s0) by (rewrite Es; by destruct s0). rewrite Ei.
  destruct (new_blocks_took (m_blk s) (ino_of s0) goal target) as (err & n & x & b & -> & H); [apply Ht|done|lia|]. cbn [rbind].
  assert (Es1 : set_blk b s = set_blk b s0) by (rewrite Es; by destruct s0). rewrite Es1.
  destruct H as [(-> & Hn & Hx)|[He Hx]].
  - cbn [Z.eqb negb]. rewrite fill_blocks_spec by lia. cbn zeta beta iota. set (k := Z.min (Z.of_nat (ind - length nb)) n).
    assert (Ht' : took st0 b (ino_of s0) ((nb ++ seqZ x k) ++ seqZ (x + k) (n - k))).
    { rewrite <- app_assoc, <- seqZ_app by lia. replace (k + (n - k)) with n by lia. by eapply took_trans. }
    destruct (Z.ltb_spec 0 (n - k)) as [Hpos|Hpos].
    + exists 0, (n - k), ((nb ++ seqZ x k) ++ [x + k]), (set_blk b s0). split; [done|]. left. split; [done|].
      exists (nb ++ seqZ x k), (x + k), b. rewrite length_app, length_seqZ. split_and!; try done; lia.
    + assert (Hk : n - k = 0) by lia. rewrite Hk in Ht'. change (seqZ (x + k) 0) with (@nil Z) in Ht'. rewrite app_nil_r in Ht'.
      destruct (IH (set_blk b s0) (nb ++ seqZ x k) (target - n)) as (err & num & nbs & s' & E & H);
        [by destruct s0|by destruct s0|done|rewrite length_app, length_seqZ; lia..|].
      exists err, num, nbs, s'. split; [exact E|]. destruct H as [(-> & N & x' & b' & H1 & H2 & H3 & H4 & H5)|H]; [left|by right].
      split; [done|]. exists N, x', b'. rewrite length_app, length_seqZ in H3. split_and!; try done; lia.
  - rewrite (proj2 (Z.eqb_neq err 0)) by lia. cbn [negb]. pose proof (took_trans _ _ _ _ _ _ Ht Hx) as Ht'. rewrite app_nil_r in Ht'.
    assert (Eb : m_blk (set_blk b s0) = b) by by destruct s0. assert (Ei0 : ino_of (set_blk b s0) = ino_of s0) by by destruct s0.
    destruct (free_each_spec nb (set_blk b s0)) as (b' & E & Tf & Rf); rewrite ?Eb.
    { apply Hx. }
    { apply Ht. }
    { intros y Hy. eapply (turned_taken sb); [apply Ht'|done]. }
    rewrite Eb, Ei0 in *. rewrite E. cbn [rbind]. eexists err, 0, nb, _. split; [done|]. right. split; [done|]. exists b'. split.
    + destruct nb; [left|right]; by destruct s0.
    + by eapply took_back.
Qed.

Lemma alloc_blocks_spec s goal ind blks : blocks_ok (m_blk s) -> ino_of s <> 0 -> 1 <= blks -> blks + Z.of_nat ind < 2 ^ 30 ->
  exists err num nbs s', ext2_alloc_blocks rb sb env s goal ind blks = Ok (err, num, nbs, s') /\
    (err = 0 /\ (exists N x b, nbs = N ++ [x] /\ length N = ind /\ 1 <= num <= blks /\
       s' = set_blk b s /\ took (m_blk s) b (ino_of s) (N ++ seqZ x num)) \/
     err < 0 /\ exists b, (s' = set_blk b s \/ s' = dirty_inode (set_blk b s)) /\ unchanged (m_blk s) b).
Proof.
  intros Hok Hi Hb Hlt. destruct (alloc_loop_spec (m_blk s) s ind goal (S ind) s [] (blks + Z.of_nat ind)) as (err & num & nbs & s' & E & H);
    try done; [by destruct s|by apply took_nil|simpl; lia..|].
  exists err, num, nbs, s'. split; [done|]. destruct H as [(-> & N & x & b & H1 & H2 & H3 & H4 & H5)|H]; [left|by right].
  split; [done|]. exists N, x, b. simpl in H3. split_and!; (done || lia).
Qed.

(** ** Runs of words *)

Fixpoint put_run (n off : nat) (x : Z) (c : list Z) : list Z :=
  match n with O => c | S n' => put_run n' (S off) (x + 1) (<[off := x]> c) end.

Lemma length_put_run n : forall off x c, length (put_run n off x c) = length c.
Proof. induction n as [|n IH]; intros off x c; simpl; [done|]. by rewrite IH, length_insert. Qed.

Lemma lookup_put_run n : forall off x c k, (off + n <= length c)%nat ->
  put_run n off x c !! k = if decide (off <= k < off + n)%nat then Some (x + Z.of_nat (k - off)) else c !! k.
Proof.
  induction n as [|n IH]; intros off x c k Hl; simpl; [by rewrite decide_False by lia|].
  rewrite IH by (rewrite length_insert; lia). destruct (decide (k = off)) as [->|Hne].
  - rewrite decide_False, list_lookup_insert_eq, decide_True by lia. f_equal. lia.
  - rewrite list_lookup_insert_ne by done. destruct (decide (S off <= k < S off + n)%nat); [rewrite decide_True by lia; f_equal; lia|].
    by rewrite decide_False by lia.
Qed.

Lemma arr_put_run Bf lv n : forall off x c, (off + n <= length c)%nat -> (forall k, (off <= k < off + n)%nat -> lv k = 0%nat /\ c !! k = Some 0) ->
  (forall y, x <= y < x + Z.of_nat n -> y <> 0) -> arr Bf lv (put_run n off x c) ≡ₚ arr Bf lv c ++ seqZ x (Z.of_nat n).
Proof.
  induction n as [|n IH]; intros off x c Hl Hz Hx; [simpl; by rewrite app_nil_r|]. cbn [put_run].
  destruct (Hz off ltac:(lia)) as [Hlv H0]. rewrite IH.
  - rewrite arr_put, Hlv, owned_leaf, (list_insert_id c off 0 H0) by (apply Hx || lia; lia).
    rewrite (seqZ_cons x (Z.of_nat (S n))) by lia. replace (Z.pred (Z.of_nat (S n))) with (Z.of_nat n) by lia.
    replace (Z.succ x) with (x + 1) by lia. solve_Permutation.
  - rewrite length_insert. lia.
  - intros k Hk. rewrite list_lookup_insert_ne by lia. apply Hz. lia.
  - intros y Hy. apply Hx. lia.
Qed.

(** The words of one array have changed and nothing else. *)
Record rewrote (s s' : mstate) (a : base) (c : list Z) : Prop := {
  rw_words : words s' a = Some c;
  rw_others a' : a' <> a -> words s' a' = words s a';
  rw_rest : m_blk s' = m_blk s /\ m_inode s' = m_inode s /\ m_info s' = m_info s /\ m_assoc s' = m_assoc s }.

Lemma rewrote_trans s s1 s2 a c1 c2 : rewrote s s1 a c1 -> rewrote s1 s2 a c2 -> rewrote s s2 a c2.
Proof.
  intros [W1 O1 (B1 & I1 & F1 & A1)] [W2 O2 (B2 & I2 & F2 & A2)]. split; [done| |split_and!; congruence].
  intros a' Ha. by rewrite O2, O1.
Qed.

Lemma put_words_rewrote s a c : length c = length (default [] (words s a)) -> rewrote s (put_words a c s) a c.
Proof.
  intros Hl. split; [by apply words_put|intros a' Ha; by apply words_put_ne|]. by destruct s, a.
Qed.

Lemma store_rewrote s a c k v : words s a = Some c -> (k < length c)%nat ->
  exists s', store env a (Z.of_nat k) v s = Ok s' /\ rewrote s s' a (<[k := v]> c).
Proof.
  intros Hc Hk. destruct (lookup_lt_is_Some_2 c k Hk) as [w Hw]. rewrite (store_ok env s a c k w v Hc Hw). eexists. split; [done|].
  apply put_words_rewrote. by rewrite Hc, length_insert.
Qed.

Lemma store_run_rewrote a n : forall off x s c, words s a = Some c -> (off + n <= length c)%nat -> (forall y, x <= y < x + Z.of_nat n -> 0 <= y < 2 ^ 32) ->
  exists s', store_run env n a (Z.of_nat off) x s = Ok s' /\ rewrote s s' a (put_run n off x c).
Proof.
  induction n as [|n IH]; intros off x s c Hc Hl Hx; cbn [store_run put_run]; [exists s; split; [done|by split]|].
  rewrite u32_id by (apply Hx; lia). destruct (store_rewrote s a c off x Hc ltac:(lia)) as (s1 & -> & R1). cbn [rbind].
  replace (Z.of_nat off + 1) with (Z.of_nat (S off)) by lia.
  destruct (IH (S off) (x + 1) s1 (<[off := x]> c)) as (s2 & -> & R2); [apply R1|rewrite length_insert; lia|intros y Hy; apply Hx; lia|].
  exists s2. split; [done|]. by eapply rewrote_trans.
Qed.

(** ** New indirect blocks *)

(** The contents of the buffers of the blocks [N] have changed, and they are on the list of
    dirty buffers. *)
Record built (s s' : mstate) (N : list Z) : Prop := {
  bu_others a : (forall b, b ∈ N -> a <> InBlock b) -> words s' a = words s a;
  bu_assoc b : b ∈ m_assoc s' <-> b ∈ m_assoc s \/ b ∈ N;
  bu_rest : m_blk s' = m_blk s /\ m_inode s' = m_inode s /\ m_info s' = m_info s }.

Lemma built_trans s s1 s2 N1 N2 : built s s1 N1 -> built s1 s2 N2 -> built s s2 (N1 ++ N2).
Proof.
  intros [O1 A1 (B1 & I1 & F1)] [O2 A2 (B2 & I2 & F2)]. split.
  - intros a Ha. rewrite O2, O1; [done|intros b Hb; apply Ha; set_solver..].
  - intros b. rewrite A2, A1. set_solver.
  - split_and!; congruence.
Qed.

(** The word of the data run at the end of a path of offsets: [offs] leads to its first
    block. *)
Fixpoint in_run (offs : list nat) (num x : Z) (r : list nat) : Z :=
  match offs, r with
  | [o], [o'] => if decide (Z.of_nat o <= Z.of_nat o' < Z.of_nat o + num) then x + (Z.of_nat o' - Z.of_nat o) else 0
  | o :: offs, o' :: r => if decide (o' = o) then in_run offs num x r else 0
  | _, _ => 0
  end.

(** The words of the new block whose slot [o] leads on. *)
Definition branch_words (o : nat) (offs : list nat) (num child : Z) : list Z :=
  match offs with
  | [] => put_run (Z.to_nat num) o child (replicate ptrs 0)
  | _ => <[o := child]> (replicate ptrs 0)
  end.

(** A block number that can be stored. *)
Definition block_number (x : Z) : Prop := 0 < x < 2 ^ 32.

Lemma init_one s parent o offs num child : block_number child -> (o < ptrs)%nat -> 1 <= num ->
  (offs = [] -> Z.of_nat o + num <= Z.of_nat ptrs /\ forall y, child <= y < child + num -> block_number y) ->
  exists s', (let* s := store env (InBlock parent) (Z.of_nat o) (u32 child)
                          (set_bufs (<[parent := replicate (Z.to_nat (EXT2_ADDR_PER_BLOCK blkbits)) 0]> (m_bufs s)) s) in
     match map Z.of_nat offs with
     | [] => store_run env (Z.to_nat (num - 1)) (InBlock parent) (Z.of_nat o + 1) (child + 1) s
     | _ => Ok s
     end) = Ok s' /\
    built s (mark_buffer_dirty_inode parent s') [parent] /\
    buf (mark_buffer_dirty_inode parent s') parent = Some (branch_words o offs num child).
Proof.
  intros Hch Ho Hn Hrun. fold (ptrs). set (s0 := set_bufs _ s). unfold block_number in *.
  assert (W0 : words s0 (InBlock parent) = Some (replicate ptrs 0)) by (destruct s; simpl; unfold buf; simpl; by rewrite lookup_insert_eq).
  assert (O0 : forall a, a <> InBlock parent -> words s0 a = words s a).
  { intros a Ha. destruct s, a; try done. simpl. unfold buf. simpl. by rewrite lookup_insert_ne by congruence. }
  rewrite u32_id by lia. destruct (store_rewrote s0 (InBlock parent) _ o child W0) as (s1 & -> & R1); [rewrite length_replicate; lia|]. cbn [rbind].
  assert (Hfin : forall s2 c, rewrote s0 s2 (InBlock parent) c ->
    built s (mark_buffer_dirty_inode parent s2) [parent] /\ buf (mark_buffer_dirty_inode parent s2) parent = Some c).
  { intros s2 c [W2 O2 (B2 & I2 & F2 & A2)]. split; [split|].
    - intros a Ha. assert (Hne : a <> InBlock parent) by (apply Ha; left). rewrite <- O0, <- O2 by done. by destruct s2, a.
    - intros b. destruct s2, s. simpl in *. subst. set_solver.
    - by destruct s2, s.
    - rewrite <- W2. by destruct s2. }
  destruct offs as [|o' offs]; cbn [map branch_words].
  - destruct (Hrun eq_refl) as [Hfit Hnum]. replace (Z.of_nat o + 1) with (Z.of_nat (S o)) by lia.
    destruct (store_run_rewrote (InBlock parent) (Z.to_nat (num - 1)) (S o) (child + 1) s1 (<[o := child]> (replicate ptrs 0))) as (s2 & -> & R2).
    { apply R1. }
    { rewrite length_insert, length_replicate. lia. }
    { intros y Hy. specialize (Hnum y ltac:(lia)). lia. }
    exists s2. split; [done|]. replace (Z.to_nat num) with (S (Z.to_nat (num - 1))) by lia. cbn [put_run]. apply Hfin. by eapply rewrote_trans.
  - exists s1. split; [done|]. by apply Hfin.
Qed.

(** What [init_branch] builds for the offsets [offs] from the blocks [N]. *)
Record branch_built (s' : mstate) (offs : list nat) (N : list Z) (x num : Z) (more : list Indirect) : Prop := {
  bb_owned : owned (buf s') (length offs) (default x (head N)) ≡ₚ N ++ match offs with [] => [x] | _ => seqZ x num end;
  bb_shaped : shaped ptrs (buf s') (length offs) (default x (head N));
  bb_follow r : length r = length offs -> follow (buf s') (default x (head N)) r = match offs with [] => x | _ => in_run offs num x r end;
  bb_last : match offs with [] => more = [] | _ => exists q, last more = Some q /\ ind_key q = x end }.

Lemma arr_zeroes Bf lv n : arr Bf lv (replicate n 0) = [].
Proof. apply elem_of_nil_inv. intros x (k & w & [-> _]%lookup_replicate & Hx)%elem_of_arr. by rewrite owned_0 in Hx; apply not_elem_of_nil in Hx. Qed.

Lemma branch_step s' o offs n0 N x num q more : block_number n0 -> (o < ptrs)%nat -> 1 <= num -> length N = length offs ->
  (offs = [] -> Z.of_nat o + num <= Z.of_nat ptrs) -> (forall y, x <= y < x + num -> block_number y) ->
  buf s' n0 = Some (branch_words o offs num (default x (head N))) -> (offs = [] -> more = [] /\ ind_key q = x) ->
  branch_built s' offs N x num more -> branch_built s' (o :: offs) (n0 :: N) x num (q :: more).
Proof.
  intros Hn0 Ho Hn Hl Hfit Hx Hb Hq [Bo Bs Bf Bl]. unfold block_number in *. destruct offs as [|o1 offs].
  - destruct N; [|done]. simpl in Hb. specialize (Hfit eq_refl). split; cbn [head default length id].
    + rewrite owned_S, Hb by lia. simpl. rewrite arr_put_run, arr_zeroes; [|rewrite length_replicate; lia| |].
      * by rewrite Z2Nat.id by lia.
      * intros k Hk. split; [done|]. apply lookup_replicate. lia.
      * intros y Hy. specialize (Hx y ltac:(lia)). lia.
    + right. eexists. split; [exact Hb|]. split; [by rewrite length_put_run, length_replicate|]. intros k w _. by right.
    + intros [|o' [|]] Hr; try done. simpl. rewrite (proj2 (Z.eqb_neq n0 0)) by lia. cbn [head default] in Hb.
      simpl in Hb. rewrite Hb, lookup_put_run by (rewrite length_replicate; lia). destruct (decide (o <= o' < o + Z.to_nat num)%nat).
      * rewrite decide_True by lia. simpl. lia.
      * rewrite decide_False by lia. destruct (replicate ptrs 0 !! o') as [w|] eqn:E; [apply lookup_replicate in E as [-> _]|]; done.
    + destruct (Hq eq_refl) as [-> Ek]. by exists q.
  - set (child := default x (head N)) in *. simpl in Hb. set (d := length (o1 :: offs)) in *. split; cbn [head default id]; change (length (o :: o1 :: offs)) with (S d).
    + rewrite owned_S, Hb by lia. rewrite arr_put by (rewrite length_replicate; lia). rewrite Bo.
      rewrite (list_insert_id (replicate ptrs 0) o 0) by (apply lookup_replicate; lia). by rewrite arr_zeroes, app_nil_r.
    + right. eexists. split; [exact Hb|]. split; [by rewrite length_insert, length_replicate|]. intros k w Hk.
      destruct (decide (k = o)) as [->|Hne].
      * rewrite list_lookup_insert_eq in Hk by (rewrite length_replicate; lia). by injection Hk as <-.
      * rewrite list_lookup_insert_ne in Hk by done. apply lookup_replicate in Hk as [-> _]. apply shaped_0.
    + intros [|o' r] Hr; [done|]. injection Hr as Hr. cbn [follow]. rewrite (proj2 (Z.eqb_neq n0 0)), Hb by lia.
      change (in_run (o :: o1 :: offs) num x (o' :: r)) with (if decide (o' = o) then in_run (o1 :: offs) num x r else 0).
      destruct (decide (o' = o)) as [->|Hne].
      * rewrite list_lookup_insert_eq by (rewrite length_replicate; lia). by apply Bf.
      * rewrite list_lookup_insert_ne by done. destruct (replicate ptrs 0 !! o') as [w|] eqn:E; [apply lookup_replicate in E as [-> _]|];
          apply follow_0.
    + destruct Bl as (q' & E & Ek). exists q'. split; [|done]. by destruct more.
Qed.

Lemma branch_built_frame s s' offs N x num more : branch_built s offs N x num more ->
  (forall y, y ∈ N ++ match offs with [] => [x] | _ => seqZ x num end -> buf s' y = buf s y) -> branch_built s' offs N x num more.
Proof.
  intros [Bo Bs Bf Bl] H. assert (H' : forall y, y ∈ owned (buf s) (length offs) (default x (head N)) -> buf s' y = buf s y).
  { intros y Hy. apply H. by rewrite <- Bo. }
  split; [by rewrite (owned_ext _ _ _ _ H')|by apply (shaped_ext _ (buf s))| |done].
  intros r Hr. rewrite <- Bf by done. by apply (follow_ext _ _ (length offs)); [|lia].
Qed.

Lemma init_branch_spec offs : forall s N x num br, length N = length offs -> NoDup N -> (forall y, y ∈ N -> block_number y) ->
  Forall (fun o => (o < ptrs)%nat) offs -> 1 <= num -> (forall y, x <= y < x + num -> block_number y) ->
  (forall o, last offs = Some o -> Z.of_nat o + num <= Z.of_nat ptrs) ->
  exists err more s', init_branch blkbits env s (map Z.of_nat offs) (N ++ [x]) num br = Ok (err, br ++ more, s') /\
    (err = - ENOMEM \/ err = 0) /\
    exists N', N' `sublist_of` N /\ built s s' N' /\ map ind_base more = map InBlock N' /\ (err = 0 -> N' = N /\ branch_built s' offs N x num more).
Proof.
  induction offs as [|o offs IH]; intros s N x num br Hl Hnd HN Ho Hn Hx Hlast.
  { destruct N; [|done]. exists 0, [], s. split; [simpl; by rewrite app_nil_r|]. split; [by right|]. exists []. split_and!; [done| |done|].
    - split; try done. intros b. set_solver.
    - intros _. split; [done|]. specialize (Hx x ltac:(lia)). unfold block_number in Hx. split; try done.
      + simpl. by rewrite (proj2 (Z.eqb_neq x 0)) by lia.
      + by right.
      + by intros []. }
  destruct N as [|n0 N]; [done|]. injection Hl as Hl. apply NoDup_cons in Hnd as [Hn0 Hnd]. apply Forall_cons in Ho as [Ho Hos].
  assert (Hrest : exists rest, N ++ [x] = default x (head N) :: rest) by (destruct N as [|n1 N]; simpl; by eexists). destruct Hrest as (rest & Er).
  cbn [map app init_branch]. rewrite Er. destruct (sb_getblk_ok env n0); cbn [negb].
  2:{ exists (- ENOMEM), [], s. split; [by rewrite app_nil_r|]. split; [by left|]. exists []. split_and!; [apply sublist_nil_l| |done|done].
      split; try done. intros b. set_solver. }
  assert (Hch : block_number (default x (head N))) by (destruct N; simpl; [apply Hx; lia|apply HN; right; left]).
  destruct (init_one s n0 o offs num (default x (head N)) Hch Ho Hn) as (s1 & E1 & B1 & W1).
  { intros ->. destruct N; [|done]. split; [by apply Hlast|done]. }
  revert E1. set (first := store _ _ _ _ _). destruct first as [s1'| | |] eqn:Ef; try done. cbn [rbind]. intros E1. rewrite E1. cbn [rbind].
  rewrite <- Er. set (q := Ind (InBlock n0) (Z.of_nat o) (u32 (default x (head N)))).
  destruct (IH (mark_buffer_dirty_inode n0 s1) N x num (br ++ [q]) Hl Hnd) as (err & more & s' & E2 & Herr & N' & Hsub & B2 & Hm & H0); [set_solver|done|done|done| |].
  { intros o' Ho'. apply Hlast. by rewrite last_cons, Ho'. }
  exists err, (q :: more), s'. split; [by rewrite E2, <- app_assoc|]. split; [done|]. exists (n0 :: N'). split_and!.
  - by apply sublist_skip.
  - exact (built_trans _ _ _ [n0] N' B1 B2).
  - simpl. by rewrite Hm.
  - intros ->. destruct (H0 eq_refl) as [-> Hbb]. split; [done|]. apply branch_step; try done.
    + apply HN. left.
    + intros ->. by apply Hlast.
    + rewrite <- W1. apply (bu_others _ _ _ B2 (InBlock n0)). intros b Hb. set_solver.
    + intros ->. destruct N; [|done]. destruct more; [|done]. split; [done|]. unfold q. simpl. apply u32_id. specialize (Hx x ltac:(lia)). unfold block_number in Hx. lia.
Qed.

(** ** ext2_alloc_branch *)

(** Nothing that is in use has changed. *)
Record given_back (s s' : mstate) : Prop := {
  gb_blk : unchanged (m_blk s) (m_blk s');
  gb_words a : a <> InNr -> (forall b, a = InBlock b -> used (m_blk s) b) -> words s' a = words s a;
  gb_clean b : clean s b -> clean s' b;
  gb_inode : mark_inode_dirty (m_inode s') = mark_inode_dirty (m_inode s);
  gb_info : m_info s' = m_info s }.

Lemma took_number s st' N y : file_ok s -> took (m_blk s) st' (ino_of s) N -> y ∈ N -> block_number y.
Proof.
  intros Hf [Ht _] Hy. destruct (tu_old _ _ _ _ _ _ Ht y Hy) as (Hz & Hb & _). pose proof (zone_bound sb y Hz).
  unfold block_number. enough (y <> 0) by lia. intros ->. destruct (fo_zero _ _ _ _ s Hf) as [H0|H0]; [unfold in_zone in Hz; lia|]. by rewrite H0 in Hb.
Qed.

Lemma took_unused s st' N y : took (m_blk s) st' (ino_of s) N -> y ∈ N -> ~ used (m_blk s) y.
Proof. intros [Ht _] Hy (_ & Hb & _). destruct (tu_old _ _ _ _ _ _ Ht y Hy) as (_ & Hb' & _). by rewrite Hb in Hb'. Qed.

Lemma forget_spec N : forall more s, map ind_base more = map InBlock N ->
  let s' := fold_left forget_ind more s in
  (forall a, a <> InNr -> (forall b, b ∈ N -> a <> InBlock b) -> words s' a = words s a) /\
  (forall b, b ∈ N -> buf s' b = me_disk env b) /\ (forall b, b ∈ m_assoc s' <-> b ∈ m_assoc s /\ b ∉ N) /\
  m_blk s' = m_blk s /\ m_inode s' = m_inode s /\ m_info s' = m_info s.
Proof.
  induction N as [|n N IH]; intros [|q more] s Hm; try done; cbn [fold_left].
  - split_and!; try done; set_solver.
  - injection Hm as Hq Hm. assert (Ef : forget_ind s q = bforget n s) by (unfold forget_ind; by rewrite Hq). rewrite Ef. destruct (IH more (bforget n s) Hm) as (H1 & H2 & H3 & H4 & H5 & H6).
    cbn zeta in *. split_and!.
    + intros a Ha Hb. rewrite H1 by (try done; intros b Hb'; apply Hb; by right). assert (Hne : a <> InBlock n) by (apply Hb; left).
      destruct a as [|b|]; [by destruct s| |done]. cbn [Ext2BlockFacts.words]. by rewrite buf_forget, decide_False by congruence.
    + intros b Hb. destruct (decide (b ∈ N)) as [|HbN]; [by apply H2|]. assert (b = n) as -> by set_solver.
      pose proof (H1 (InBlock n) ltac:(done) ltac:(intros b' Hb' [= ->]; done)) as E. cbn [Ext2BlockFacts.words] in E.
      by rewrite E, buf_forget, decide_True.
    + intros b. rewrite H3. destruct s. simpl. set_solver.
    + rewrite H4. by destruct s.
    + rewrite H5. by destruct s.
    + rewrite H6. by destruct s.
Qed.

(** After a failure the new blocks are forgotten and freed. *)
Lemma give_back s b s2 more N N' x num : file_ok s -> took (m_blk s) b (ino_of s) (N ++ seqZ x num) -> 1 <= num ->
  built (set_blk b s) s2 N' -> N' `sublist_of` N -> map ind_base more = map InBlock N' ->
  exists s', (let* s := free_each sb (fold_left forget_ind more s2) N in free_blocks sb s x num) = Ok s' /\ given_back s s'.
Proof.
  intros Hf Ht Hn [O2 A2 (B2 & I2 & F2)] Hsub Hm. destruct (forget_spec N' more s2 Hm) as (O3 & D3 & A3 & B3 & I3 & F3). set (s3 := fold_left forget_ind more s2) in *.
  assert (Eb : m_blk s3 = b) by (rewrite B3, B2; by destruct s). assert (Ei : ino_of s3 = ino_of s) by (unfold ino_of; rewrite I3, I2; by destruct s).
  pose proof (tu_nodup _ _ _ _ _ _ (proj1 Ht)) as Hnd. apply NoDup_app in Hnd as (HndN & Hdis & _).
  assert (Hused : forall y, y ∈ N ++ seqZ x num -> used b y) by (intros y Hy; by eapply (turned_taken sb); [apply Ht|]).
  destruct (free_each_spec N s3) as (b4 & -> & T4 & R4); rewrite ?Eb; [apply Ht|done|intros y Hy; apply Hused; set_solver|].
  rewrite Eb, Ei in *. cbn [rbind]. assert (Eb4 : m_blk (set_blk b4 s3) = b4) by by destruct s3.
  destruct (free_blocks_turned sb (set_blk b4 s3) x num) as (b5 & -> & T5 & R5); rewrite ?Eb4; [apply T4|done| |].
  { intros y Hy. assert (Hy' : y ∈ seqZ x num) by (apply elem_of_seqZ; lia). eapply (turned_used sb); [exact T4| |apply Hused; set_solver].
    intros HyN. by apply (Hdis y). }
  rewrite Eb4 in *. replace (ino_of (set_blk b4 s3)) with (ino_of s) in T5 by (rewrite <- Ei; by destruct s3).
  eexists. split; [done|]. replace (set_blk b5 (set_blk b4 s3)) with (set_blk b5 s3) by (by destruct s3).
  assert (Hunused : forall y, y ∈ N' -> ~ used (m_blk s) y).
  { intros y Hy. eapply took_unused; [exact Ht|]. apply elem_of_app. left. by eapply elem_of_sublist. }
  split.
  - replace (m_blk (set_blk b5 s3)) with b5 by (by destruct s3). apply (took_back _ b _ (ino_of s) (N ++ seqZ x num)); [done| |congruence].
    by eapply (turned_trans sb).
  - intros a Ha Hb. transitivity (words s3 a); [by destruct s3, a|]. rewrite O3, O2; [by destruct s, a| |done|].
    + intros y Hy ->. by apply (Hunused y Hy), Hb.
    + intros y Hy ->. by apply (Hunused y Hy), Hb.
  - intros y Hy. assert (Ea : m_assoc (set_blk b5 s3) = m_assoc s3 /\ buf (set_blk b5 s3) y = buf s3 y) by (by destruct s3). unfold clean.
    destruct Ea as [-> ->]. destruct (decide (y ∈ N')) as [HyN|HyN]; [right; by apply D3|].
    pose proof (O3 (InBlock y) ltac:(done) ltac:(intros y' Hy' [= ->]; done)) as E3. pose proof (O2 (InBlock y) ltac:(intros y' Hy' [= ->]; done)) as E2.
    cbn [Ext2BlockFacts.words] in E2, E3. rewrite E3, E2, A3, A2. destruct s, Hy; [left|right]; simpl in *; (tauto || done).
  - replace (m_inode (set_blk b5 s3)) with (m_inode s3) by (by destruct s3). rewrite I3, I2. by destruct s.
  - replace (m_info (set_blk b5 s3)) with (m_info s3) by (by destruct s3). rewrite F3, F2. by destruct s.
Qed.

Lemma set_blk_given_back s b : unchanged (m_blk s) b -> given_back s (set_blk b s) /\ given_back s (dirty_inode (set_blk b s)).
Proof. intros Hu. destruct s as [n i D bf as_ nr bl]. split; (split; try done); try (by intros []). apply dirty_twice. Qed.

(** A branch has been built from free blocks and is not yet linked in. *)
Record grown (s s' : mstate) (offs : list nat) (N : list Z) (x num : Z) (more : list Indirect) : Prop := {
  gr_took : took (m_blk s) (m_blk s') (ino_of s) (N ++ seqZ x num);
  gr_length : length N = length offs;
  gr_words a : (forall b, b ∈ N -> a <> InBlock b) -> words s' a = words s a;
  gr_assoc b : b ∈ m_assoc s' <-> b ∈ m_assoc s \/ b ∈ N;
  gr_inode : m_inode s' = m_inode s;
  gr_info : m_info s' = m_info s;
  gr_branch : branch_built s' offs N x num more }.

Lemma alloc_branch_spec s goal blks o offs partial : file_ok s -> Forall (fun o => (o < ptrs)%nat) offs -> 1 <= blks < 2 ^ 29 ->
  (length offs <= 3)%nat -> (forall o, last offs = Some o -> Z.of_nat o + blks <= Z.of_nat ptrs) ->
  exists err num branch s', ext2_alloc_branch rb sb blkbits env s (length offs) blks goal (map Z.of_nat (o :: offs)) partial = Ok (err, num, branch, s') /\
    (err < 0 /\ given_back s s' \/
     err = 0 /\ 1 <= num <= blks /\ exists N x more, grown s s' offs N x num more /\
       branch = Ind (ind_base partial) (ind_off partial) (default x (head N)) :: more).
Proof.
  intros Hf Ho Hb Hl Hlast. unfold ext2_alloc_branch.
  destruct (alloc_blocks_spec s goal (length offs) blks) as (err & num & nbs & s1 & -> & H); [split; apply Hf|apply Hf|lia|lia|]. cbn [rbind].
  destruct H as [(-> & N & x & b & -> & HlN & Hnum & -> & Ht)|(He & b & Hs1 & Hu)].
  2:{ rewrite (proj2 (Z.eqb_neq err 0)) by lia. cbn [negb]. exists err, blks, [partial], s1. split; [done|]. left. split; [done|].
      destruct (set_blk_given_back s b Hu) as [H1 H2]. by destruct Hs1 as [-> | ->]. }
  cbn [Z.eqb negb map tail]. assert (HN : forall y, y ∈ N ++ seqZ x num -> block_number y) by (intros y Hy; by eapply took_number).
  assert (Hh : head (N ++ [x]) = Some (default x (head N))) by by destruct N. rewrite Hh. cbn [deref rbind].
  assert (Hhn : block_number (default x (head N))).
  { destruct N; simpl; apply HN; [apply elem_of_seqZ; lia|left]. }
  rewrite u32_id by (unfold block_number in Hhn; lia).
  destruct (init_branch_spec offs (set_blk b s) N x num []) as (err & more & s2 & -> & Herr & N' & Hsub & Hbu & Hm & H0).
  { done. }
  { pose proof (tu_nodup _ _ _ _ _ _ (proj1 Ht)) as Hnd. by apply NoDup_app in Hnd as [? _]. }
  { intros y Hy. apply HN. set_solver. }
  { done. }
  { lia. }
  { intros y Hy. apply HN, elem_of_app. right. apply elem_of_seqZ. lia. }
  { intros o' Ho'. specialize (Hlast o' Ho'). lia. }
  cbn [rbind app]. destruct (Z.eqb_spec err 0) as [->|He]; cbn [negb].
  - destruct (H0 eq_refl) as [-> Hbb]. eexists 0, num, _, s2. split; [done|]. right. split; [done|]. split; [lia|]. exists N, x, more. split; [|done].
    destruct Hbu as [O2 A2 (B2 & I2 & F2)]. destruct s as [n i D bf as_ nr bl]. simpl in B2, I2, F2. split; try done.
    by rewrite B2.
  - rewrite take_app_length' by done. rewrite list_lookup_middle by done. cbn [deref rbind].
    destruct (give_back s b s2 more N N' x num Hf Ht) as (s' & E & Hg); [lia|done..|].
    destruct (free_each sb (fold_left forget_ind more s2) N) as [s3| | |]; try done. cbn [rbind] in E |- *. rewrite E. cbn [rbind].
    eexists err, blks, _, s'. split; [done|]. left. split; [|done]. by destruct Herr as [-> | ->].
Qed.
End Allocate.
