(* ===== verification/Ext2BlockGet.v ===== *)
(** * ext2: ext2_get_blocks

    What [ext2_get_blocks] of [fs/ext2/inode.c] does to the map of a file: it finds the run of
    blocks at a place of the file or, when asked to, adds a run of free blocks there and
    leaves all other places alone. *)

From S2P Require Import Prelude CString ByteMem Ext2Layout Ext2Dir Ext2Super Ext2Inode Ext2Ialloc Ext2IallocFacts.
From S2P Require Import Ext2Balloc Ext2BallocBits Ext2BallocRsv Ext2BallocGroup Ext2BallocFacts Ext2BallocAlloc Ext2BallocFree Ext2BallocTheorems.
From S2P Require Import Ext2BlockMap Ext2BlockTree Ext2BlockPath Ext2BlockFacts Ext2BlockFile Ext2BlockTrunc Ext2BlockAlloc.

Section Get.
Context (rb : rb_lib) {RL : RbLaws rb} (sb : sb_info) {W : SbWf sb} {B : BlkWf sb} (blkbits : Z) {G : MapWf blkbits} (env : map_env) {EW : EnvWf env}.

Notation buf := (buf env).
Notation words := (words env).
Notation ptrs := (ptrs blkbits).
Notation turned := (turned sb).
Notation clean := (clean env).
Notation file_ok := (file_ok rb sb blkbits env).
Notation file_blocks := (file_blocks env).
Notation at_path := (at_path env).
Notation located := (located env).
Notation partial_path := (partial_path blkbits).
Notation used := (used sb).
Notation bmap := (bmap blkbits env).
Notation took := (took rb sb).
Notation unchanged := (unchanged rb sb).
Notation given_back := (given_back rb sb env).
Notation grown := (grown rb sb blkbits env).

(** ** When nothing has been taken *)

Lemma file_used s x : file_ok s -> x ∈ file_blocks s -> used (m_blk s) x.
Proof. intros Hf. apply (fo_owned _ _ _ _ s Hf). Qed.

Lemma zero_bit_kept s st' : file_ok s -> (forall y, in_zone sb y -> y <> 0 \/ bbit sb (b_sbi st') y = bbit sb (b_sbi (m_blk s)) y) ->
  0 < es_first_data_block sb \/ bbit sb (b_sbi st') 0 = Some true.
Proof.
  intros Hf Hb. destruct (fo_zero _ _ _ _ s Hf) as [|Hz]; [by left|]. destruct (decide (0 < es_first_data_block sb)); [by left|].
  right. destruct (Hb 0) as [|E]; [|done|by rewrite E]. destruct B as [? ? ? ? Hn ?]. unfold in_zone.
  unfold ext2_group_first_block_no in Hn. nia.
Qed.

Lemma file_same s s' : file_ok s -> i_data s' = i_data s -> (forall x, x ∈ file_blocks s -> buf s' x = buf s x) ->
  file_blocks s' = file_blocks s /\ (forall r, partial_path r -> at_path s' r = at_path s r) /\
  (forall k w, i_data s' !! k = Some w -> shaped ptrs (buf s') (dep k) w).
Proof.
  intros Hf Hd Hb. assert (Hx : forall k w x, i_data s !! k = Some w -> x ∈ owned (buf s) (dep k) w -> buf s' x = buf s x).
  { intros k w x Hk Hx. apply Hb, elem_of_arr. eauto. }
  unfold Ext2BlockFile.file_blocks, Ext2BlockFile.at_path. rewrite Hd. split_and!.
  - apply arr_ext. intros k w Hk. apply owned_ext. intros x. by apply Hx.
  - intros [|k r] Hr; [done|]. destruct Hr as (_ & Hl & _). simpl. destruct (i_data s !! k) as [w|] eqn:Ek; simpl; [|by rewrite !follow_0].
    apply (follow_ext _ _ (dep k)); [|done]. intros x. by apply Hx.
  - intros k w Hk. apply (shaped_ext _ (buf s)); [intros x; by apply Hx|]. by apply Hf.
Qed.

Lemma given_back_file s s' : file_ok s -> given_back s s' ->
  file_ok s' /\ file_blocks s' = file_blocks s /\ (forall i, bmap s' i = bmap s i).
Proof.
  intros Hf [[[Hb Hw] Hs Hbi Hch] Hwo Hcl Hi Hin].
  assert (Hd : i_data s' = i_data s) by (pose proof (Hwo InInode ltac:(done) ltac:(done)) as E; by injection E).
  assert (Hx : forall x, x ∈ file_blocks s -> buf s' x = buf s x).
  { intros x Hx. apply (Hwo (InBlock x)); [done|]. intros b [= <-]. by apply file_used. }
  destruct (file_same s s' Hf Hd Hx) as (E1 & E2 & E3). split_and!; [split|done|].
  - done.
  - done.
  - rewrite (same_ino _ _ Hi : ino_of s' = ino_of s). apply Hf.
  - rewrite Hd. apply Hf.
  - done.
  - rewrite E1. split; [apply (fo_owned _ _ _ _ s Hf)|]. intros x Hxf. destruct (file_used s x Hf Hxf) as (Hz & Hb1 & Hsy).
    split; [done|]. rewrite Hbi by done. split; [done|]. by rewrite <- (system_side sb _ _ x Hs Hz).
  - intros b. apply Hcl, Hf.
  - apply (zero_bit_kept s); [done|]. intros y Hy. right. by apply Hbi.
  - intros i. destruct (decide (0 <= i < max_block blkbits)) as [Hr|Hr]; [|by rewrite !bmap_outside].
    destruct (block_to_path_spec blkbits i Hr) as (q & Hq). rewrite !(bmap_path blkbits env _ i q Hq). apply E2, valid_partial, Hq.
Qed.

Lemma unchanged_trans st st1 st2 : unchanged st st1 -> unchanged st1 st2 -> unchanged st st2.
Proof.
  intros [O1 S1 B1 C1] [O2 S2 B2 C2]. split; [done|by eapply (inode_side_trans sb)| |].
  - intros y Hy. by rewrite B2, B1.
  - intros y. by rewrite C2, C1.
Qed.

(** ** Linking a branch in *)

(** The words of the array in which a branch is linked in. *)
Definition linked (o : nat) (offs : list nat) (num x : Z) (N : list Z) (c : list Z) : list Z :=
  match offs with [] => put_run (Z.to_nat num) o x c | _ => <[o := default x (head N)]> c end.

(** The map of the file after a branch for [o :: offs] has been linked in below [q]. *)
Definition extends (s s' : mstate) (q : list nat) (lv : nat -> nat) (o : nat) (offs : list nat) (num x : Z) : Prop :=
  (forall k r, (length r <= dep k)%nat -> ~ below q (k :: r) -> at_path s' (k :: r) = at_path s (k :: r)) /\
  (forall o' r, length r = lv o' -> at_path s' (q ++ o' :: r) =
     let v := in_run (o :: offs) num x (o' :: r) in if v =? 0 then at_path s (q ++ o' :: r) else v).

Lemma located_path s a q lv c o r : located s a q lv -> words s a = Some c ->
  at_path s (q ++ o :: r) = follow (buf s) (default 0 (c !! o)) r.
Proof.
  intros [|b k q' e Hb Hb0 Hde] Hc; simpl in Hc; [by injection Hc as <-|]. unfold Ext2BlockFile.at_path in *. rewrite look_app, Hb by done.
  simpl. by rewrite (proj2 (Z.eqb_neq b 0) Hb0), Hc.
Qed.

Lemma in_run_cons o offs num x o' r : offs <> [] ->
  in_run (o :: offs) num x (o' :: r) = if decide (o' = o) then in_run offs num x r else 0.
Proof. by destruct offs. Qed.

Lemma in_run_one o num x o' r : in_run [o] num x (o' :: r) =
  match r with [] => if decide (Z.of_nat o <= Z.of_nat o' < Z.of_nat o + num) then x + (Z.of_nat o' - Z.of_nat o) else 0 | _ => 0 end.
Proof. destruct r; [done|]. simpl. by destruct (decide (o' = o)). Qed.

Section Link.
Context (s s1 s' : mstate) (a : base) (q : list nat) (lv : nat -> nat) (c : list Z) (o : nat) (offs : list nat) (N : list Z) (x num : Z) (more : list Indirect).
Hypothesis Hf : file_ok s.
Hypothesis Hloc : located s a q lv.
Hypothesis Hc : words s a = Some c.
Hypothesis Ho : (o < length c)%nat.
Hypothesis Hnum : 1 <= num.
Hypothesis Hdirect : offs = [] -> Z.of_nat o + num <= Z.of_nat (length c) /\
  forall k, Z.of_nat o <= Z.of_nat k < Z.of_nat o + num -> lv k = 0%nat /\ c !! k = Some 0.
Hypothesis Hindirect : c !! o = Some 0 /\ lv o = length offs.
Hypothesis Hg : grown s s1 offs N x num more.
Hypothesis Hw : words s' a = Some (linked o offs num x N c).
Hypothesis Hothers : forall a', a' <> a -> words s' a' = words s1 a'.
Hypothesis Hblk : took (m_blk s) (m_blk s') (ino_of s) (N ++ seqZ x num).
Hypothesis Hino : ino_of s' = ino_of s.
Hypothesis Hassoc : forall b, b ∈ m_assoc s1 \/ a = InBlock b -> b ∈ m_assoc s'.

Lemma link_fresh y : y ∈ N ++ seqZ x num -> y ∉ file_blocks s.
Proof using All. intros Hy Hfile. by eapply (took_unused rb sb); [apply Hg|exact Hy|apply file_used]. Qed.

Lemma link_number y : y ∈ N ++ seqZ x num -> block_number y.
Proof using All. intros Hy. by eapply (took_number rb sb blkbits env); [|apply Hg|]. Qed.

Lemma link_kept y : y ∈ file_blocks s -> InBlock y <> a -> buf s' y = buf s y.
Proof using All.
  intros Hy Hne. pose proof (Hothers (InBlock y) Hne) as E. cbn [Ext2BlockFacts.words] in E. rewrite E.
  apply (gr_words _ _ _ _ _ _ _ _ _ _ _ Hg (InBlock y)). intros b Hb [= ->]. apply (link_fresh b); [set_solver|done].
Qed.

Lemma link_base b : a = InBlock b -> b ∈ file_blocks s /\ (b ∉ arr (buf s) lv c).
Proof using All. intros Ha. destruct (located_below rb sb blkbits env s a q lv c Hf Hloc Hc) as (_ & _ & H). by destruct (H b Ha) as (? & _ & ?). Qed.

(** The trees that were there are as before. *)
Lemma link_old k w y : c !! k = Some w -> y ∈ owned (buf s) (lv k) w -> buf s' y = buf s y.
Proof using All.
  intros Hk Hy. assert (Hin : y ∈ arr (buf s) lv c) by (apply elem_of_arr; eauto).
  destruct (located_below rb sb blkbits env s a q lv c Hf Hloc Hc) as (_ & Hsub & _). apply link_kept; [by apply Hsub|].
  intros Ha. destruct (link_base y (eq_sym Ha)) as [_ Hn]. done.
Qed.

Lemma link_arr : arr (buf s') lv c = arr (buf s) lv c.
Proof using All. apply arr_ext. intros k w Hk. apply owned_ext. intros y. by apply link_old. Qed.

Lemma link_direct : offs = [] -> N = [] /\ linked o offs num x N c = put_run (Z.to_nat num) o x c.
Proof using All. intros E. split; [|by rewrite E]. apply length_zero_iff_nil. by rewrite (gr_length _ _ _ _ _ _ _ _ _ _ _ Hg), E. Qed.

Lemma link_indirect : offs <> [] -> linked o offs num x N c = <[o := default x (head N)]> c /\
  match offs with [] => [x] | _ => seqZ x num end = seqZ x num.
Proof using All. by destruct offs. Qed.

Lemma link_branch : branch_built blkbits env s' offs N x num more.
Proof using All.
  apply (branch_built_frame blkbits env s1); [apply Hg|]. intros y Hy. apply (Hothers (InBlock y)). intros Ha.
  destruct (link_base y (eq_sym Ha)) as [Hin _]. apply (link_fresh y); [|done].
  apply elem_of_app in Hy as [Hy|Hy]; apply elem_of_app; [by left|right]. destruct (decide (offs = [])) as [E|E].
  - rewrite E in Hy. apply list_elem_of_singleton in Hy as ->. apply elem_of_seqZ. lia.
  - by rewrite (proj2 (link_indirect E)) in Hy.
Qed.

Lemma link_perm : arr (buf s') lv (linked o offs num x N c) ≡ₚ arr (buf s) lv c ++ N ++ seqZ x num.
Proof using All.
  pose proof link_branch as Hb. rewrite <- link_arr. destruct (decide (offs = [])) as [E|E].
  - destruct (link_direct E) as [EN El]. destruct (Hdirect E) as [Hfit Hz]. rewrite El, EN.
    rewrite arr_put_run; [by rewrite Z2Nat.id by lia|lia|intros k Hk; apply Hz; lia|].
    intros y Hy. assert (Hn : block_number y) by (apply link_number; apply elem_of_app; right; apply elem_of_seqZ; lia). unfold block_number in Hn. lia.
  - destruct Hindirect as [H0 Hlv]. destruct (link_indirect E) as [El Er]. rewrite El, arr_put by done.
    rewrite (list_insert_id c o 0 H0), Hlv, (bb_owned _ _ _ _ _ _ _ _ Hb), Er. solve_Permutation.
Qed.

Lemma link_shaped_old k w : c !! k = Some w -> shaped ptrs (buf s') (lv k) w.
Proof using All.
  intros Hk. apply (shaped_ext _ (buf s)); [intros y; by apply link_old|]. destruct Hloc as [|b k' q' e Hb Hb0 Hde].
  - simpl in Hc. injection Hc as <-. by apply Hf.
  - destruct (at_path_words rb sb blkbits env s (k' :: q') b k' 0%nat e q') as (c0 & Hc0 & _ & Hk0 & _); [done..|].
    simpl in Hc. rewrite Hc in Hc0. injection Hc0 as <-. by apply (Hk0 k).
Qed.

Lemma link_shaped k w : linked o offs num x N c !! k = Some w -> shaped ptrs (buf s') (lv k) w.
Proof using All.
  pose proof link_branch as Hb. destruct (decide (offs = [])) as [E|E].
  - destruct (link_direct E) as [_ El]. destruct (Hdirect E) as [Hfit Hz]. rewrite El, lookup_put_run by lia. case_decide; [|apply link_shaped_old].
    intros _. destruct (Hz k ltac:(lia)) as [-> _]. by right.
  - destruct Hindirect as [H0 Hlv]. destruct (link_indirect E) as [El Er]. rewrite El. destruct (decide (k = o)) as [->|Hne].
    + rewrite list_lookup_insert_eq by done. intros [= <-]. rewrite Hlv. apply (bb_shaped _ _ _ _ _ _ _ _ Hb).
    + rewrite list_lookup_insert_ne by done. apply link_shaped_old.
Qed.

Lemma link_follow_old o' r : length r = lv o' -> follow (buf s') (default 0 (c !! o')) r = follow (buf s) (default 0 (c !! o')) r.
Proof using All.
  intros Hr. destruct (c !! o') as [w|] eqn:Ew; simpl; [|by rewrite !follow_0].
  apply (follow_ext _ _ (lv o')); [|lia]. intros y. by apply link_old.
Qed.

Lemma link_follow o' r : length r = lv o' -> follow (buf s') (default 0 (linked o offs num x N c !! o')) r =
  let v := in_run (o :: offs) num x (o' :: r) in if v =? 0 then follow (buf s) (default 0 (c !! o')) r else v.
Proof using All.
  intros Hr. cbn zeta. pose proof link_branch as Hb. destruct (decide (offs = [])) as [E|E].
  - destruct (link_direct E) as [_ El]. destruct (Hdirect E) as [Hfit Hz]. rewrite El, lookup_put_run, E, in_run_one by lia.
    destruct (decide (o <= o' < o + Z.to_nat num)%nat) as [Hin|Hout].
    + destruct (Hz o' ltac:(lia)) as [Hlv _]. rewrite Hlv in Hr. destruct r; [|done]. rewrite decide_True by lia.
      assert (Hn : block_number (x + (Z.of_nat o' - Z.of_nat o))) by (apply link_number, elem_of_app; right; apply elem_of_seqZ; lia).
      unfold block_number in Hn. rewrite (proj2 (Z.eqb_neq _ 0)) by lia. simpl. lia.
    + rewrite link_follow_old by done. destruct r; [rewrite decide_False by lia|]; by rewrite Z.eqb_refl.
  - destruct Hindirect as [H0 Hlv]. destruct (link_indirect E) as [El _]. rewrite El, in_run_cons by done. destruct (decide (o' = o)) as [->|Hne].
    + rewrite list_lookup_insert_eq by done. cbn [default id]. rewrite (bb_follow _ _ _ _ _ _ _ _ Hb) by lia.
      replace (match offs with [] => x | _ => in_run offs num x r end) with (in_run offs num x r) by (by destruct offs).
      rewrite H0. cbn [default id]. rewrite follow_0. destruct (Z.eqb_spec (in_run offs num x r) 0) as [E0|]; [by rewrite E0|done].
    + rewrite list_lookup_insert_ne by done. by rewrite link_follow_old.
Qed.

(** The file with the branch linked in. *)
Lemma link_file : file_ok s' /\ file_blocks s' ≡ₚ file_blocks s ++ N ++ seqZ x num /\ extends s s' q lv o offs num x.
Proof using All.
  assert (Hbase : forall b, b ∈ N -> a <> InBlock b).
  { intros b Hb Ha. destruct (link_base b Ha) as [Hin _]. apply (link_fresh b); [|done]. apply elem_of_app. by left. }
  destruct (array_change rb sb blkbits env s s' a q lv c (linked o offs num x N c) [] (N ++ seqZ x num) Hf Hloc Hc Hw) as (Hp & Hsh & Hlen & Hlk & Hlk').
  { destruct (decide (offs = [])) as [E|E]; [rewrite (proj2 (link_direct E)); apply length_put_run|rewrite (proj1 (link_indirect E)); apply length_insert]. }
  { intros Hne. assert (E : words s' InInode = words s InInode); [|by injection E].
    rewrite Hothers by congruence. by apply (gr_words _ _ _ _ _ _ _ _ _ _ _ Hg). }
  { intros b Ha y Hy Hn. apply link_kept; [done|]. rewrite Ha. intros [= ->]. apply Hn, owned_self.
    destruct Hloc as [|b' k q' e Hb Hb0 Hde]; [done|]. by injection Ha as <-. }
  { rewrite app_nil_r. apply link_perm. }
  { apply link_shaped. }
  rewrite app_nil_r in Hp. split_and!; [split| |split].
  - apply Hblk.
  - apply Hblk.
  - rewrite Hino. apply Hf.
  - done.
  - done.
  - split.
    + rewrite Hp. apply NoDup_app. split_and!; [apply (fo_owned _ _ _ _ s Hf)| |apply (tu_nodup _ _ _ _ _ _ (proj1 Hblk))].
      intros y Hy Hy'. by apply (link_fresh y).
    + intros y. rewrite Hp. intros [Hy|Hy]%elem_of_app.
      * eapply (turned_used sb); [exact (proj1 Hblk)| |by apply file_used]. intros Hy'. by apply (link_fresh y).
      * by eapply (turned_taken sb); [exact (proj1 Hblk)|].
  - intros b. destruct (decide (a = InBlock b)) as [Ha|Ha]; [left; apply Hassoc; by right|].
    destruct (decide (b ∈ N)) as [HbN|HbN]; [left; apply Hassoc; left; apply (gr_assoc _ _ _ _ _ _ _ _ _ _ _ Hg); by right|].
    destruct (fo_clean _ _ _ _ s Hf b) as [Hb|Hb]; [left; apply Hassoc; left; apply (gr_assoc _ _ _ _ _ _ _ _ _ _ _ Hg); by left|right].
    rewrite <- Hb. assert (E : words s' (InBlock b) = words s (InBlock b)); [|exact E]. rewrite Hothers by congruence.
    apply (gr_words _ _ _ _ _ _ _ _ _ _ _ Hg). intros y Hy [= ->]. done.
  - apply (zero_bit_kept s); [done|]. intros y Hy. destruct (decide (y = 0)) as [->|]; [right|by left].
    rewrite (tu_bits _ _ _ _ _ _ (proj1 Hblk) 0 Hy), decide_False; [done|]. intros H0. apply link_number in H0. unfold block_number in H0. lia.
  - done.
  - done.
  - intros o' r Hr. rewrite Hlk', link_follow by done. by rewrite (located_path s a q lv c).
Qed.
End Link.

(** ** The map after a branch has been linked in *)

Lemma in_run_spec l e num x : forall l' e',
  in_run (l ++ [e]) num x (l' ++ [e']) =
  if decide (l' = l /\ Z.of_nat e <= Z.of_nat e' < Z.of_nat e + num) then x + (Z.of_nat e' - Z.of_nat e) else 0.
Proof.
  induction l as [|o l IH]; intros [|o' l'] e'; cbn [app].
  - rewrite in_run_one. apply decide_ext. tauto.
  - rewrite in_run_one. rewrite (decide_False (P := o' :: l' = [] /\ _)) by (by intros [? _]). by destruct l'.
  - rewrite in_run_cons by (by destruct l). rewrite (decide_False (P := [] = o :: l /\ _)) by (by intros [? _]).
    case_decide; [|done]. by destruct l as [|? []].
  - rewrite in_run_cons by (by destruct l). destruct (decide (o' = o)) as [->|Hne].
    + rewrite IH. apply decide_ext. split; [by intros [-> ?]|intros [[= ->] ?]; done].
    + rewrite decide_False; [done|]. intros [[= ? ?] _]. done.
Qed.

(** The paths of the blocks of a run that stays in one array. *)
Lemma run_path i j l e l' e' num : is_path blkbits i (l ++ [e]) -> num <= last_size blkbits (l ++ [e]) - Z.of_nat e ->
  is_path blkbits j (l' ++ [e']) ->
  (i <= j < i + num <-> l' = l /\ Z.of_nat e <= Z.of_nat e' < Z.of_nat e + num) /\ (l' = l -> Z.of_nat e <= Z.of_nat e' < Z.of_nat e + num -> j = i + (Z.of_nat e' - Z.of_nat e)).
Proof.
  intros Hi Hn Hj. pose proof (path_step blkbits _ l e i Hi eq_refl) as Hstep.
  assert (Hback : l' = l -> Z.of_nat e <= Z.of_nat e' < Z.of_nat e + num -> j = i + (Z.of_nat e' - Z.of_nat e)).
  { intros -> He. specialize (Hstep (Z.of_nat e' - Z.of_nat e) ltac:(lia)). replace (e + Z.to_nat (Z.of_nat e' - Z.of_nat e))%nat with e' in Hstep by lia.
    destruct Hj as (_ & <- & _), Hstep as (_ & E & _). congruence. }
  split; [split|done].
  - intros Hr. specialize (Hstep (j - i) ltac:(lia)). replace (i + (j - i)) with j in Hstep by lia.
    pose proof (is_path_unique blkbits j _ _ Hstep (proj1 Hj) (proj1 (proj2 Hj))) as E. apply app_inj_tail in E as [-> ->]. split; [done|lia].
  - intros [E He]. specialize (Hback E He). lia.
Qed.

Lemma below_level p m r o r' : valid_path blkbits p -> (m < length p)%nat -> valid_path blkbits r -> r = take m p ++ o :: r' ->
  length r' = lv_at p m o.
Proof.
  intros Hp Hm Hr ->. destruct p as [|k p]; [done|]. destruct m as [|m]; [apply Hr|]. simpl in Hm, Hr |- *.
  destruct Hr as (_ & Hl & _). rewrite length_app, length_take in Hl. simpl in Hl. lia.
Qed.

Lemma extends_bmap s s' p m num x i : is_path blkbits i p -> (m < length p)%nat -> 1 <= x ->
  num <= last_size blkbits p - Z.of_nat (default 0%nat (last p)) ->
  extends s s' (take m p) (lv_at p m) (nth m p 0%nat) (drop (S m) p) num x ->
  forall j, bmap s' j = if decide (i <= j < i + num) then x + (j - i) else bmap s j.
Proof.
  intros Hp Hm Hx Hn [Hout Hin] j. pose proof Hp as Hp0. set (q := take m p) in *. set (o := nth m p 0%nat) in *. set (offs := drop (S m) p) in *.
  assert (Ep : p = q ++ o :: offs) by by apply split_at. destruct (exists_last (l := o :: offs) ltac:(done)) as (l0 & e & El).
  rewrite El, app_assoc in Ep. assert (Hl : default 0%nat (last p) = e) by by rewrite Ep, last_snoc. rewrite Hl in Hn. rewrite El in Hin.
  assert (Hrun : forall r', is_path blkbits j r' -> bmap s' j = if decide (i <= j < i + num) then x + (j - i) else bmap s j).
  { intros r Hr. rewrite !(bmap_path blkbits env _ j r Hr). destruct (exists_last (l := r)) as (l' & e' & Er); [intros ->; by destruct Hr|].
    rewrite Ep in Hp, Hn. rewrite Er in Hr. destruct (run_path i j _ e l' e' num Hp Hn Hr) as [Hiff Hback].
    destruct (decide (take (length q) r = q /\ (length q < length r)%nat)) as [[Eq Hlt]|Hnb].
    - assert (E' := split_at r _ Hlt). rewrite Eq in E'. set (o' := nth _ r _) in E'. set (r' := drop _ r) in E'.
      pose proof (below_level p m r o' r' (proj1 Hp0) Hm ltac:(by rewrite Er; apply Hr) E') as Hlev.
      destruct (exists_last (l := o' :: r') ltac:(done)) as (l1 & e1 & E1). assert (E2 := E'). rewrite E1, app_assoc, Er in E2.
      apply app_inj_tail in E2 as [-> ->]. rewrite E', (Hin o' r' Hlev), E1, in_run_spec. cbn zeta.
      destruct (decide (l1 = l0 /\ _)) as [[-> He]|Hne].
      + rewrite (proj2 (Z.eqb_neq _ 0)) by lia. rewrite decide_True by (apply Hiff; by split). rewrite (Hback eq_refl He). lia.
      + rewrite Z.eqb_refl, decide_False; [done|]. intros [E He]%Hiff. apply app_inv_head in E. tauto.
    - rewrite decide_False.
      + destruct r as [|k r]; [by destruct l'|]. rewrite <- Er in Hr. apply Hout; [destruct Hr as [(_ & -> & _) _]; lia|].
        intros (o' & r' & E). apply Hnb. rewrite E, take_app_length, length_app. simpl. split; [done|lia].
      + intros [-> He]%Hiff. apply Hnb. rewrite Er, <- app_assoc, take_app_length, !length_app. simpl. split; [done|lia]. }
  destruct (decide (0 <= j < max_block blkbits)) as [Hj|Hj]; [destruct (block_to_path_spec blkbits j Hj) as (r & Hr); by eapply Hrun|].
  rewrite decide_False; [by rewrite !bmap_outside|]. intros Hr. rewrite Ep in Hp, Hn.
  pose proof (path_step blkbits _ _ e i Hp eq_refl (j - i) ltac:(lia)) as [Hv [Hb _]]. apply Hj. replace j with (i + (j - i)) by lia.
  rewrite <- Hb. by apply valid_range.
Qed.
End Get.
