(* ===== verification/Ext2GetBlocks.v ===== *)
(** * ext2: what ext2_get_blocks does

    The specification of [ext2_get_blocks] of [fs/ext2/inode.c] ([get_blocks_spec]): a run
    that is mapped is found, a hole is left alone or filled with free blocks, and an error
    leaves the file as it was. *)

From S2P Require Import Prelude CString ByteMem Ext2Layout Ext2Dir Ext2Super Ext2Inode Ext2Ialloc Ext2IallocFacts.
From S2P Require Import Ext2Balloc Ext2BallocBits Ext2BallocRsv Ext2BallocGroup Ext2BallocFacts Ext2BallocAlloc Ext2BallocFree Ext2BallocTheorems.
From S2P Require Import Ext2BlockMap Ext2BlockTree Ext2BlockPath Ext2BlockFacts Ext2BlockFile Ext2BlockTrunc Ext2BlockAlloc Ext2BlockGet.

Section GetBlocks.
Context (rb : rb_lib) {RL : RbLaws rb} (sb : sb_info) {W : SbWf sb} {B : BlkWf sb} (blkbits : Z) {G : MapWf blkbits} (env : map_env) {EW : EnvWf env}.

Notation buf := (buf env).
Notation words := (words env).
Notation ptrs := (ptrs blkbits).
Notation clean := (clean env).
Notation file_ok := (file_ok rb sb blkbits env).
Notation file_blocks := (file_blocks env).
Notation at_path := (at_path env).
Notation located := (located env).
Notation used := (used sb).
Notation bmap := (bmap blkbits env).
Notation took := (took rb sb).
Notation unchanged := (unchanged rb sb).
Notation given_back := (given_back rb sb env).
Notation grown := (grown rb sb blkbits env).
Notation is_path := (is_path blkbits).
Notation branch_found := (branch_found env).
Notation chain_at := (chain_at env).
Notation base_at := (base_at env).

(** ** Where to allocate, and how much *)

Lemma near_loop_ok s a c n : words s a = Some c -> (n <= length c)%nat -> exists x, near_loop env s a n = Ok x.
Proof.
  intros Hc. induction n as [|n IH]; intros Hn; cbn [near_loop]; [by eexists|].
  destruct (lookup_lt_is_Some_2 c n ltac:(lia)) as [w Hw]. rewrite (load_ok env s a c n w Hc Hw). cbn [rbind].
  destruct (w =? 0); [apply IH; lia|by eexists].
Qed.

Lemma find_goal_ok s a c o key block : words s a = Some c -> (o <= length c)%nat ->
  exists goal, ext2_find_goal sb env s block (Ind a (Z.of_nat o) key) = Ok goal.
Proof.
  intros Hc Ho. destruct (near_loop_ok s a c o Hc Ho) as [x Hx].
  assert (Hnear : exists goal, ext2_find_near sb env s (Ind a (Z.of_nat o) key) = Ok goal).
  { unfold ext2_find_near. cbn [ind_base ind_off]. rewrite Nat2Z.id, Hx. cbn [rbind]. repeat case_match; by eexists. }
  unfold ext2_find_goal. repeat case_match; (done || by eexists).
Qed.

(** The words after a missing one that are missing too. *)
Lemma count_free_spec s a c o key blks b : words s a = Some c -> Z.of_nat o + b < Z.of_nat (length c) ->
  forall fuel count, 1 <= count -> count <= blks -> count <= b + 1 -> b + 1 - count <= Z.of_nat fuel ->
  (forall k, Z.of_nat o < Z.of_nat k < Z.of_nat o + count -> c !! k = Some 0) ->
  exists n, count_free env fuel s (Ind a (Z.of_nat o) key) count blks b = Ok n /\ 1 <= n <= blks /\ n <= b + 1 /\
    forall k, Z.of_nat o < Z.of_nat k < Z.of_nat o + n -> c !! k = Some 0.
Proof.
  intros Hc Hb. induction fuel as [|fuel IH]; intros count H1 H2 H3 Hfu Hz; cbn [count_free ind_base ind_off];
    destruct (Z.ltb_spec count blks), (Z.leb_spec count b); cbn [andb]; try (exists count; split_and!; (done || lia)).
  destruct (lookup_lt_is_Some_2 c (o + Z.to_nat count)%nat ltac:(lia)) as [w Hw].
  replace (Z.of_nat o + count) with (Z.of_nat (o + Z.to_nat count)) by lia. rewrite (load_ok env s a c _ w Hc Hw). cbn [rbind].
  destruct (decide (w = 0)) as [E0|Hne]; [|rewrite (proj2 (Z.eqb_neq w 0) Hne); exists count; split_and!; (done || lia)].
  rewrite E0 in *. cbn [Z.eqb]. apply IH; try lia. intros k Hk.
  destruct (decide (k = (o + Z.to_nat count)%nat)) as [->|]; [done|apply Hz; lia].
Qed.

(** A run of words that are consecutive numbers. *)
Lemma map_more_spec s chain a c o key maxb b : verify_chain env s chain = Ok true -> words s a = Some c ->
  Z.of_nat o + b < Z.of_nat (length c) -> b <= 2 ^ 14 -> 0 <= key < 2 ^ 32 ->
  forall fuel count, 1 <= count -> count <= maxb -> count <= b + 1 -> b + 1 - count <= Z.of_nat fuel ->
  (forall j, 1 <= j < count -> c !! (o + Z.to_nat j)%nat = Some (key + j)) ->
  exists n, map_more env fuel s chain (Ind a (Z.of_nat o) key) count maxb b = Ok (0, n) /\ 1 <= n <= maxb /\ n <= b + 1 /\
    (forall j, 1 <= j < n -> c !! (o + Z.to_nat j)%nat = Some (key + j)) /\
    (n = maxb \/ n = b + 1 \/ c !! (o + Z.to_nat n)%nat <> Some (key + n)).
Proof.
  intros Hv Hc Hb Hb14 Hkey. induction fuel as [|fuel IH]; intros count H1 H2 H3 Hfu Hz; cbn [map_more ind_base ind_off ind_key];
    destruct (Z.ltb_spec count maxb), (Z.leb_spec count b); cbn [andb]; try (exists count; split_and!; (done || lia)).
  rewrite Hv. cbn [rbind negb]. destruct (lookup_lt_is_Some_2 c (o + Z.to_nat count)%nat ltac:(lia)) as [w Hw].
  replace (Z.of_nat o + count) with (Z.of_nat (o + Z.to_nat count)) by lia. rewrite (load_ok env s a c _ w Hc Hw). cbn [rbind].
  rewrite u64_id by lia. destruct (decide (w = key + count)) as [E0|Hne].
  2:{ rewrite (proj2 (Z.eqb_neq w _) Hne). exists count. split_and!; try (done || lia). right. right. congruence. }
  rewrite E0 in *. rewrite Z.eqb_refl. apply IH; try lia. intros j Hj.
  destruct (decide (j = count)) as [->|]; [done|apply Hz; lia].
Qed.

(** ** The reservation windows do not matter to the file *)

Definition with_rsv (w : rsv_state) (st : bstate) : bstate := BState (b_sbi st) w (b_charged st).

Lemma took_with_rsv st st' ino N w w' : took (with_rsv w st) st' ino N -> win_ok rb w' -> took st (with_rsv w' st') ino N.
Proof. intros [[H1 H2 H3 H4 H5 H6] [H7 _]] Hw. by split; split. Qed.

Lemma took_same_rsv st st' ino N w : took (with_rsv w st) st' ino N -> took st st' ino N.
Proof. intros [[H1 H2 H3 H4 H5 H6] [H7 Hw]]. by split; split. Qed.

Lemma with_rsv_file s w : file_ok s -> win_ok rb w -> file_ok (set_blk (with_rsv w (m_blk s)) s).
Proof. intros [H1 H2 H3 H4 H5 H6 H7 H8] Hw. destruct s. by split. Qed.

Lemma given_back_rsv s s' w : given_back (set_blk (with_rsv w (m_blk s)) s) s' -> given_back s s'.
Proof. destruct s. intros [[[H1 H2] H3 H4 H5] H6 H7 H8 H9]. by split; [split|..]. Qed.

Lemma grown_rsv s s' w offs N x num more : grown (set_blk (with_rsv w (m_blk s)) s) s' offs N x num more -> grown s s' offs N x num more.
Proof. destruct s. intros [H1 H2 H3 H4 H5 H6 H7]. split; try done. exact (took_same_rsv _ _ _ _ w H1). Qed.

(** ** Linking the branch in *)

Definition touched (n : inode) : inode := mark_inode_dirty (with_core (with_ctime (map_time env) (core n)) n).

Lemma linked_rewrote s a c o offs N x num : words s a = Some c -> (o < length c)%nat -> 1 <= num -> length N = length offs ->
  (offs = [] -> Z.of_nat o + num <= Z.of_nat (length c)) -> (forall y, x <= y < x + num -> block_number y) ->
  exists s', (let* s := store env a (Z.of_nat o) (default x (head N)) s in
     if (length offs =? 0)%nat && (1 <? num)
     then store_run env (Z.to_nat (num - 1)) a (Z.of_nat o + 1) (default x (head N) + 1) s else Ok s) = Ok s' /\
    rewrote env s s' a (linked o offs num x N c).
Proof.
  intros Hc Ho Hn Hl Hfit Hx. destruct (store_rewrote env s a c o (default x (head N)) Hc Ho) as (s1 & -> & R1). cbn [rbind].
  destruct offs as [|o1 offs]; [|by exists s1]. destruct N; [|done]. cbn [length Nat.eqb andb head default id linked] in *.
  specialize (Hfit eq_refl). replace (Z.to_nat num) with (S (Z.to_nat (num - 1))) by lia. cbn [put_run].
  destruct (Z.ltb_spec 1 num) as [H1|H1]; [|replace (Z.to_nat (num - 1)) with 0%nat by lia; by exists s1].
  replace (Z.of_nat o + 1) with (Z.of_nat (S o)) by lia.
  destruct (store_run_rewrote env a (Z.to_nat (num - 1)) (S o) (x + 1) s1 (<[o := x]> c)) as (s2 & -> & R2).
  { apply R1. }
  { rewrite length_insert. lia. }
  { intros y Hy. specialize (Hx y ltac:(lia)). unfold block_number in Hx. lia. }
  exists s2. split; [done|]. by eapply rewrote_trans.
Qed.

Lemma last_alloc_rsv s logical physical : win_ok rb (b_rsv (m_blk s)) ->
  exists w, win_ok rb w /\ set_last_alloc s logical physical = set_blk (with_rsv w (m_blk s)) s.
Proof.
  intros Hw. unfold set_last_alloc. eexists. split; [|reflexivity]. destruct (rsv_nodes _ !! _); [|done].
  destruct Hw as [H1 H2 H3 H4 H5 H6]. split; try done. intros p n Hp. destruct (H6 p n Hp). by split.
Qed.

Lemma splice_spec s a c o offs N x num q block : words s a = Some c -> (o < length c)%nat -> 1 <= num -> length N = length offs ->
  (offs = [] -> Z.of_nat o + num <= Z.of_nat (length c)) -> (forall y, x <= y < x + num -> block_number y) -> win_ok rb (b_rsv (m_blk s)) ->
  exists s' w, ext2_splice_branch env s block (Ind a (Z.of_nat o) (default x (head N))) q (length offs) num = Ok s' /\
    words s' a = Some (linked o offs num x N c) /\ (forall a', a' <> a -> words s' a' = words s a') /\
    win_ok rb w /\ m_blk s' = with_rsv w (m_blk s) /\ m_inode s' = touched (m_inode s) /\ m_info s' = m_info s /\
    (forall b, b ∈ m_assoc s' <-> b ∈ m_assoc s \/ a = InBlock b).
Proof.
  intros Hc Ho Hn Hl Hfit Hx Hw. destruct (linked_rewrote s a c o offs N x num Hc Ho Hn Hl Hfit Hx) as (s1 & E1 & [R1 R2 (RB & RI & RF & RA)]).
  unfold ext2_splice_branch. cbn [ind_base ind_off ind_key].
  destruct (store env a (Z.of_nat o) (default x (head N)) s) as [s0| | |]; try done. cbn [rbind] in E1 |- *. rewrite E1. cbn [rbind].
  destruct (last_alloc_rsv s1 (block + num - 1) (ind_key q + num - 1)) as (w & Hw' & ->); [by rewrite RB|]. eexists _, w. split; [reflexivity|].
  destruct s1, a; simpl in *; subst; split_and!; try done; set_solver.
Qed.

(** ** The missing link of a branch *)

Definition boundary_of (p : list nat) : Z := last_size blkbits p - 1 - Z.of_nat (default 0%nat (last p)).

Lemma boundary_range p : valid_path blkbits p -> 0 <= boundary_of p < 2 ^ 14.
Proof.
  destruct (ptrs_pos blkbits) as [Ep Hp]. destruct p as [|k r]; [done|]. intros (Hk & Hl & Hr). unfold boundary_of, last_size.
  destruct r as [|e r _] using rev_ind.
  - simpl in *. unfold dep in Hl. lia.
  - apply Forall_app in Hr as [_ Hr]. rewrite Forall_singleton in Hr. rewrite app_comm_cons, last_snoc, length_app. cbn [default id length].
    rewrite (proj2 (Nat.eqb_neq (S (length r) + 1) 1)) by lia. lia.
Qed.

Lemma slot_array s p m : file_ok s -> valid_path blkbits p -> (m < length p)%nat -> (forall j, (j < m)%nat -> at_path s (take (S j) p) <> 0) ->
  let o := nth m p 0%nat in let offs := drop (S m) p in
  located s (base_at s p m) (take m p) (lv_at p m) /\
  exists c, words s (base_at s p m) = Some c /\ c !! o = Some (at_path s (take (S m) p)) /\ lv_at p m o = length offs /\
    (offs = [] -> Z.of_nat o + boundary_of p < Z.of_nat (length c) /\ forall k, Z.of_nat k <= Z.of_nat o + boundary_of p -> lv_at p m k = 0%nat).
Proof.
  intros Hf Hv Hm Hnz o offs. destruct (chain_step rb sb blkbits env s p m Hf (valid_partial _ p Hv) Hm) as (Hloc & c & Hc & Hk & Hlen).
  { destruct m; [by left|right; apply Hnz; lia]. }
  split; [done|]. exists c. pose proof (boundary_range p Hv) as Hb. pose proof (ptrs_pos blkbits) as [Ep Hp].
  assert (Hlv : lv_at p m o = length offs).
  { symmetry. apply (below_level blkbits p m p); [done..|]. by apply split_at. }
  split_and!; [done..|]. intros E. assert (Hs : S m = length p).
  { apply (f_equal length) in E. unfold offs in E. rewrite length_drop in E. simpl in E. lia. }
  assert (Ho : default 0%nat (last p) = o).
  { rewrite (split_at p m Hm). fold offs. by rewrite E, last_snoc. }
  unfold boundary_of, last_size in *. rewrite Ho in *. destruct m as [|m].
  - rewrite <- Hs in *. cbn [Nat.eqb] in *. rewrite Hlen. split; [lia|]. intros k Hk'. simpl. unfold dep. lia.
  - replace (length p =? 1)%nat with false in * by (symmetry; apply Nat.eqb_neq; lia). rewrite Hlen. split; [lia|].
    intros k _. change (lv_at p (S m) k) with (lv_at p (S m) o). by rewrite Hlv, E.
Qed.

Lemma rest_offsets p m : valid_path blkbits p -> (m < length p)%nat -> let offs := drop (S m) p in
  Forall (fun o => (o < ptrs)%nat) offs /\ (length offs <= 3)%nat /\
  (forall e, last offs = Some e -> Z.of_nat e + boundary_of p < Z.of_nat ptrs).
Proof.
  intros Hv Hm offs. destruct p as [|k r]; [done|]. destruct Hv as (Hk & Hl & Hr). unfold offs. cbn [drop]. split_and!.
  - by apply Forall_drop.
  - rewrite length_drop, Hl. unfold dep. lia.
  - intros e He. assert (Hlast : last (k :: r) = Some e).
    { rewrite <- (take_drop m r), app_comm_cons. by rewrite last_app, He. }
    unfold boundary_of, last_size. rewrite Hlast. pose proof (ptrs_pos blkbits) as [Ep _]. destruct r as [|y r]; [by rewrite drop_nil in He|].
    simpl. lia.
Qed.

Lemma array_bmap s p m i c j : file_ok s -> is_path i p -> S m = length p -> located s (base_at s p m) (take m p) (lv_at p m) ->
  words s (base_at s p m) = Some c -> 0 <= j <= boundary_of p -> bmap s (i + j) = default 0 (c !! (nth m p 0 + Z.to_nat j)%nat).
Proof.
  intros Hf Hp Hm Hloc Hc Hj. assert (E : p = take m p ++ [nth m p 0%nat]).
  { rewrite (split_at p m) at 1 by lia. by rewrite (drop_ge p) by lia. }
  assert (El : default 0%nat (last p) = nth m p 0%nat) by (rewrite E at 1; by rewrite last_snoc).
  unfold boundary_of in Hj. rewrite El in Hj. pose proof (path_step blkbits p _ _ i Hp E j ltac:(lia)) as Hpj.
  rewrite (bmap_path blkbits env s _ _ Hpj). by rewrite (located_path env s _ _ _ c _ [] Hloc Hc).
Qed.

Lemma zero_path s p j : valid_path blkbits p -> at_path s (take (S j) p) = 0 -> at_path s p = 0.
Proof.
  intros Hv H0. destruct p as [|k r]; [done|]. unfold Ext2BlockFile.at_path in *. rewrite <- (take_drop (S j) (k :: r)).
  rewrite look_app by done. rewrite H0. apply follow_0.
Qed.

(** The blocks that a new run covers were holes. *)
Lemma run_holes s p m i num : file_ok s -> is_path i p -> branch_found s p false m ->
  let o := nth m p 0%nat in let offs := drop (S m) p in num <= boundary_of p + 1 ->
  (offs = [] -> forall c k, words s (base_at s p m) = Some c -> Z.of_nat o < Z.of_nat k < Z.of_nat o + num -> c !! k = Some 0) ->
  forall j, i <= j < i + num -> bmap s j = 0.
Proof.
  intros Hf Hp (Hm & Hnz & H0) o offs Hnum Hz j Hj. replace j with (i + (j - i)) by lia. destruct (decide (S m = length p)) as [Hs|Hs].
  - destruct (slot_array s p m Hf (proj1 Hp) Hm Hnz) as (Hloc & c & Hc & Hk & _). rewrite (array_bmap s p m i c) by (done || lia).
    fold o in Hk |- *. destruct (decide (j = i)) as [->|]; [by rewrite Z.sub_diag, Nat.add_0_r, Hk, H0|].
    rewrite (Hz ltac:(unfold offs; rewrite drop_ge by lia; done) c _ Hc); [done|lia].
  - destruct (exists_last (l := p)) as (l & e & El); [intros E; rewrite E in Hm; simpl in Hm; lia|]. unfold boundary_of in Hnum. rewrite El, last_snoc, <- El in Hnum.
    cbn [default id] in Hnum. pose proof (path_step blkbits p l e i Hp El (j - i) ltac:(lia)) as Hpj. rewrite (bmap_path blkbits env s _ _ Hpj).
    apply (zero_path s _ m); [apply Hpj|]. rewrite take_app_le; [|rewrite El, length_app in Hs, Hm; simpl in Hs, Hm; lia].
    rewrite <- (take_app_le l [e]), <- El; [done|rewrite El, length_app in Hs, Hm; simpl in Hs, Hm; lia].
Qed.

(** ** A run of new blocks *)

(** The blocks [x], [x + 1], ... of the disk have become the blocks [i], [i + 1], ... of the
    file; [N] are the new indirect blocks. *)
Record mapped (s s' : mstate) (i num x : Z) (N : list Z) : Prop := {
  mp_file : file_ok s';
  mp_blocks : file_blocks s' ≡ₚ file_blocks s ++ N ++ seqZ x num;
  mp_took : took (m_blk s) (m_blk s') (ino_of s) (N ++ seqZ x num);
  mp_bmap j : bmap s' j = if decide (i <= j < i + num) then x + (j - i) else bmap s j;
  mp_holes j : i <= j < i + num -> bmap s j = 0;
  mp_others b : used (m_blk s) b -> b ∉ file_blocks s -> buf s' b = buf s b;
  mp_inode : m_inode s' = touched (m_inode s);
  mp_info : m_info s' = m_info s }.

(** The blocks [L] have been taken and are not part of the file. *)
Record lost (s s' : mstate) (L : list Z) : Prop := {
  lo_file : file_ok s';
  lo_blocks : file_blocks s' = file_blocks s;
  lo_took : took (m_blk s) (m_blk s') (ino_of s) L;
  lo_bmap j : bmap s' j = bmap s j;
  lo_others b : used (m_blk s) b -> buf s' b = buf s b;
  lo_inode : m_inode s' = m_inode s;
  lo_info : m_info s' = m_info s }.

Lemma grown_used s s' offs N x num more b : grown s s' offs N x num more -> used (m_blk s) b -> buf s' b = buf s b.
Proof.
  intros Hg Hb. apply (gr_words _ _ _ _ _ _ _ _ _ _ _ Hg (InBlock b)). intros y Hy [= ->].
  eapply (took_unused rb sb s _ _ y); [apply Hg| |done]. set_solver.
Qed.

Lemma grown_lost s s' offs N x num more : file_ok s -> grown s s' offs N x num more -> lost s s' (N ++ seqZ x num).
Proof.
  intros Hf Hg. assert (Hd : i_data s' = i_data s) by (pose proof (gr_words _ _ _ _ _ _ _ _ _ _ _ Hg InInode ltac:(done)) as E; by injection E).
  assert (Hi : ino_of s' = ino_of s) by (unfold ino_of; by rewrite (gr_inode _ _ _ _ _ _ _ _ _ _ _ Hg)).
  pose proof (gr_took _ _ _ _ _ _ _ _ _ _ _ Hg) as Ht.
  destruct (file_same rb sb blkbits env s s' Hf Hd) as (E1 & E2 & E3); [intros b Hb; by eapply grown_used, (file_used rb sb blkbits env)|].
  split; [split| | | | | |]; try apply Hg; try done.
  - rewrite Hi. apply Hf.
  - rewrite Hd. apply Hf.
  - rewrite E1. split; [apply (fo_owned _ _ _ _ s Hf)|]. intros b Hb. pose proof (file_used rb sb blkbits env s b Hf Hb) as Hu.
    eapply (turned_used sb); [apply Ht| |done]. intros Hin. by eapply (took_unused rb sb s); [exact Ht|exact Hin|].
  - intros b. destruct (decide (b ∈ N)) as [HbN|HbN]; [left; apply (gr_assoc _ _ _ _ _ _ _ _ _ _ _ Hg); by right|].
    destruct (fo_clean _ _ _ _ s Hf b) as [Hb|Hb]; [left; apply (gr_assoc _ _ _ _ _ _ _ _ _ _ _ Hg); by left|right].
    rewrite <- Hb. apply (gr_words _ _ _ _ _ _ _ _ _ _ _ Hg (InBlock b)). intros y Hy [= ->]. done.
  - apply (zero_bit_kept rb sb blkbits env s); [done|]. intros y Hy. destruct (decide (y = 0)) as [->|]; [right|by left].
    rewrite (tu_bits _ _ _ _ _ _ (proj1 Ht) 0 Hy), decide_False; [done|]. intros H0.
    apply (took_number rb sb blkbits env s _ _ 0 Hf Ht) in H0. unfold block_number in H0. lia.
  - intros i. destruct (decide (0 <= i < max_block blkbits)) as [Hr|Hr]; [|by rewrite !bmap_outside].
    destruct (block_to_path_spec blkbits i Hr) as (q & Hq). rewrite !(bmap_path blkbits env _ i q Hq). apply E2, valid_partial, Hq.
  - intros b. by eapply grown_used.
Qed.

Lemma splice_mapped s s1 p m i N x num more q block : file_ok s -> is_path i p -> branch_found s p false m ->
  let o := nth m p 0%nat in let offs := drop (S m) p in 1 <= num <= boundary_of p + 1 ->
  (offs = [] -> forall c k, words s (base_at s p m) = Some c -> Z.of_nat o < Z.of_nat k < Z.of_nat o + num -> c !! k = Some 0) ->
  grown s s1 offs N x num more ->
  exists s', ext2_splice_branch env s1 block (Ind (base_at s p m) (Z.of_nat o) (default x (head N))) q (length offs) num = Ok s' /\ mapped s s' i num x N.
Proof.
  intros Hf Hp (Hm & Hnz & H0) o offs Hnum Hz Hg. pose proof (gr_took _ _ _ _ _ _ _ _ _ _ _ Hg) as Ht.
  destruct (slot_array s p m Hf (proj1 Hp) Hm Hnz) as (Hloc & c & Hc & Hk & Hlv & Hdir). rewrite H0 in Hk. fold o offs in Hk, Hlv, Hdir.
  assert (Ho : (o < length c)%nat) by by eapply lookup_lt_Some.
  destruct (located_below rb sb blkbits env s _ _ _ c Hf Hloc Hc) as (_ & _ & Hbase).
  assert (Hc1 : words s1 (base_at s p m) = Some c).
  { rewrite (gr_words _ _ _ _ _ _ _ _ _ _ _ Hg); [done|]. intros b Hb Ha. destruct (Hbase b Ha) as (_ & _ & Hin).
    eapply (took_unused rb sb s _ _ b); [exact Ht|set_solver|by apply (file_used rb sb blkbits env)]. }
  assert (Hx : forall y, x <= y < x + num -> block_number y).
  { intros y Hy. eapply (took_number rb sb blkbits env); [exact Hf|exact Ht|]. apply elem_of_app. right. apply elem_of_seqZ. lia. }
  destruct (splice_spec s1 (base_at s p m) c o offs N x num q block Hc1 Ho) as (s' & w & E & Hw & Hoth & Hwin & Hblk & Hin & Hinf & Has); try (done || apply Hg || apply Ht || lia).
  { intros E. destruct (Hdir E). lia. }
  exists s'. split; [done|]. assert (Hi : m_inode s' = touched (m_inode s)) by by rewrite Hin, (gr_inode _ _ _ _ _ _ _ _ _ _ _ Hg).
  assert (Hino : ino_of s' = ino_of s) by (unfold ino_of; by rewrite Hi; destruct (m_inode s) as [[]]).
  assert (Ht' : took (m_blk s) (m_blk s') (ino_of s) (N ++ seqZ x num)).
  { rewrite Hblk. eapply (took_with_rsv _ _ _ _ (b_rsv (m_blk s))); [|done]. by destruct (m_blk s). }
  destruct (link_file rb sb blkbits env s s1 s' (base_at s p m) (take m p) (lv_at p m) c o offs N x num more) as (Hf' & Hb' & Hext); try done.
  { lia. }
  { intros E'. destruct (Hdir E') as [H1 H2]. split; [lia|]. intros k Hk'. split; [apply H2; lia|].
    destruct (decide (k = o)) as [->|]; [done|]. apply (Hz E' c k Hc). lia. }
  { intros b. apply Has. }
  split; try done.
  - apply (extends_bmap blkbits env s s' p m num x i); try done; [specialize (Hx x ltac:(lia)); unfold block_number in Hx; lia|].
    unfold boundary_of in Hnum. lia.
  - apply (run_holes s p m i num); (done || lia).
  - intros b Hu Hn. rewrite <- (grown_used s s1 offs N x num more b Hg Hu). apply (Hoth (InBlock b)). intros E'. destruct (Hbase b (eq_sym E')) as (_ & _ & ?). done.
  - by rewrite Hinf, (gr_info _ _ _ _ _ _ _ _ _ _ _ Hg).
Qed.

Lemma init_rsv s : file_ok s ->
  exists w, win_ok rb w /\
    (if S_ISREG (i_mode (core (m_inode s))) && negb (bool_decide (is_Some (rsv_nodes (b_rsv (m_blk s)) !! ino_of s)))
     then set_blk (BState (b_sbi (m_blk s)) (ext2_init_block_alloc_info sb (me_blocks env) (ino_of s) (b_rsv (m_blk s))) (b_charged (m_blk s))) s
     else s) = set_blk (with_rsv w (m_blk s)) s.
Proof.
  intros Hf. destruct (S_ISREG _ && negb (bool_decide _)) eqn:E.
  - apply andb_true_iff in E as [_ E]. apply negb_true_iff, bool_decide_eq_false, eq_None_not_Some in E.
    eexists. split; [|reflexivity]. apply (init_info_ok rb sb); [apply Hf|done|apply Hf].
  - exists (b_rsv (m_blk s)). split; [apply Hf|]. by destruct s as [? ? ? ? ? ? []].
Qed.

Lemma blks_to_allocate_spec s p m i maxb : file_ok s -> is_path i p -> branch_found s p false m -> 1 <= maxb ->
  let o := nth m p 0%nat in let offs := drop (S m) p in
  exists n, ext2_blks_to_allocate env s (chain_at s p m) (Z.of_nat (length offs)) maxb (boundary_of p) = Ok n /\
    1 <= n <= maxb /\ n <= boundary_of p + 1 /\
    (offs = [] -> forall c k, words s (base_at s p m) = Some c -> Z.of_nat o < Z.of_nat k < Z.of_nat o + n -> c !! k = Some 0).
Proof.
  intros Hf Hp (Hm & Hnz & H0) Hmax o offs. pose proof (boundary_range p (proj1 Hp)) as Hb. unfold ext2_blks_to_allocate.
  destruct (slot_array s p m Hf (proj1 Hp) Hm Hnz) as (_ & c & Hc & _ & _ & Hdir). destruct (Z.ltb_spec 0 (Z.of_nat (length offs))) as [Hl|Hl].
  - eexists. split; [reflexivity|]. destruct (Z.ltb_spec maxb (boundary_of p + 1)); split_and!; try lia; intros E; rewrite E in Hl; simpl in Hl; lia.
  - assert (E : offs = []) by (destruct offs; [done|simpl in Hl; lia]). destruct (Hdir E) as [Hfit _].
    destruct (count_free_spec s _ c o (at_path s (take (S m) p)) maxb (boundary_of p) Hc Hfit (Z.to_nat (boundary_of p)) 1) as (n & En & Hn & Hn' & Hz); try lia.
    exists n. split_and!; try (done || lia). intros _ c' k Hc' Hk. rewrite Hc in Hc'. injection Hc' as <-. by apply Hz.
Qed.

(** The flag of the inode for which new blocks are zeroed on the disk. *)
Definition is_dax (s : mstate) : bool := negb (Z.land (i_sflags (m_inode s)) S_DAX =? 0).

(** What comes of a hole that is to be filled. *)
Definition filled (s s' : mstate) (i maxblocks b : Z) (g : got) : Prop :=
  (exists num x N, 1 <= num <= maxblocks /\ num <= b + 1 /\ mapped s s' i num x N /\ g = Got num (Some x) true (b <? num) /\
     (is_dax s = true -> sb_issue_zeroout env x num = 0)) \/
  (exists err, err < 0 /\ g = Got err None false false /\
     (given_back s s' \/ is_dax s = true /\ exists N x num, 1 <= num /\ lost s s' (N ++ seqZ x num) /\ err = sb_issue_zeroout env x num)).

Lemma drop_at (p : list nat) m : (m < length p)%nat -> drop m p = nth m p 0%nat :: drop (S m) p.
Proof. intros Hm. apply drop_S. destruct (nth_lookup_or_length p m 0%nat); [done|lia]. Qed.

(** The end of [ext2_get_blocks], with the branch built. *)
Lemma splice_filled s s1 p m i maxb n N x num more : file_ok s -> is_path i p -> branch_found s p false m ->
  let o := nth m p 0%nat in let offs := drop (S m) p in 1 <= num <= n -> n <= maxb -> n <= boundary_of p + 1 ->
  (offs = [] -> forall c k, words s (base_at s p m) = Some c -> Z.of_nat o < Z.of_nat k < Z.of_nat o + n -> c !! k = Some 0) ->
  grown s s1 offs N x num more ->
  exists g s',
    (let* q := deref (last (Ind (base_at s p m) (Z.of_nat o) (default x (head N)) :: more)) in
     let err := if negb (Z.land (i_sflags (m_inode s1)) S_DAX =? 0) then sb_issue_zeroout env (ind_key q) num else 0 in
     if negb (err =? 0) then Ok (Got err None false false, s1)
     else
       let* s := ext2_splice_branch env s1 i (Ind (base_at s p m) (Z.of_nat o) (default x (head N))) q (length offs) num in
       Ok (Got num (Some (ind_key q)) true (boundary_of p <? num), s)) = Ok (g, s') /\
    filled s s' i maxb (boundary_of p) g.
Proof.
  intros Hf Hp Hbf o offs Hnum Hmax Hb Hz Hg.
  assert (Hlast : exists q, last (Ind (base_at s p m) (Z.of_nat o) (default x (head N)) :: more) = Some q /\ ind_key q = x).
  { pose proof (bb_last _ _ _ _ _ _ _ _ (gr_branch _ _ _ _ _ _ _ _ _ _ _ Hg)) as Hl. pose proof (gr_length _ _ _ _ _ _ _ _ _ _ _ Hg) as HN.
    destruct offs; [subst more; destruct N; [by eexists|done]|]. destruct Hl as (q & Hl & Hq). exists q. split; [|done]. by destruct more. }
  destruct Hlast as (q & -> & Hq). cbn [deref rbind]. rewrite Hq, (gr_inode _ _ _ _ _ _ _ _ _ _ _ Hg). fold (is_dax s).
  set (err := if is_dax s then _ else 0). destruct (decide (err = 0)) as [E|E].
  - rewrite E. cbn [Z.eqb negb]. destruct (splice_mapped s s1 p m i N x num more q i Hf Hp Hbf) as (s' & Es & Hs); [lia| |done|].
    { intros E0 c k Hc Hk. apply (Hz E0 c k Hc). unfold o. lia. }
    fold o offs in Es. rewrite Es. cbn [rbind]. eexists _, s'. split; [done|]. left. exists num, x, N.
    split_and!; try (done || lia). intros Hd. unfold err in E. by rewrite Hd in E.
  - rewrite (proj2 (Z.eqb_neq err 0) E). eexists _, s1. split; [done|]. right. exists err. subst err. destruct (is_dax s) eqn:Ed; [|done].
    pose proof (ew_zeroout (env := env) x num). split_and!; [lia|done|]. right. split; [done|]. exists N, x, num.
    split_and!; [lia|by eapply grown_lost|done].
Qed.

Lemma alloc_and_splice_spec s p m i maxb : file_ok s -> is_path i p -> branch_found s p false m -> 1 <= maxb ->
  exists g s', alloc_and_splice rb sb blkbits env s i maxb (boundary_of p) (map Z.of_nat p) (map (chain_at s p) (seq 0 (S m))) = Ok (g, s') /\
    filled s s' i maxb (boundary_of p) g.
Proof.
  intros Hf Hp Hbf Hmax. pose proof Hbf as (Hm & Hnz & _). unfold alloc_and_splice. rewrite last_map_seq. cbn [deref rbind].
  destruct (init_rsv s Hf) as (w & Hw & ->). set (s0 := set_blk (with_rsv w (m_blk s)) s).
  assert (Hf0 : file_ok s0) by by apply with_rsv_file. assert (Hbf0 : branch_found s0 p false m) by (unfold s0; by destruct s).
  assert (Ech : chain_at s p m = chain_at s0 p m) by (unfold s0; by destruct s). rewrite Ech.
  set (o := nth m p 0%nat). set (offs := drop (S m) p). pose proof (boundary_range p (proj1 Hp)) as Hb.
  destruct (slot_array s0 p m Hf0 (proj1 Hp) Hm (proj1 (proj2 Hbf0))) as (_ & c & Hc & Hk & _).
  destruct (find_goal_ok s0 _ c o (at_path s0 (take (S m) p)) i Hc) as [goal Eg]; [apply lookup_lt_Some in Hk; unfold o; lia|].
  change (Ind _ _ _) with (chain_at s0 p m) in Eg. rewrite Eg. cbn [rbind].
  replace (length (map Z.of_nat p) - length (map (chain_at s p) (seq 0 (S m))))%nat with (length offs) by (unfold offs; rewrite length_drop, !length_map, length_seq; lia).
  destruct (blks_to_allocate_spec s0 p m i maxb Hf0 Hp Hbf0 Hmax) as (n & En & Hn & Hnb & Hz). fold offs in En, Hz. rewrite En. cbn [rbind].
  destruct (rest_offsets p m (proj1 Hp) Hm) as (Ho & Hl & Hlast). fold offs in Ho, Hl, Hlast.
  replace (drop (length (map (chain_at s p) (seq 0 (S m))) - 1) (map Z.of_nat p)) with (map Z.of_nat (o :: offs)).
  2:{ rewrite length_map, length_seq, skipn_map. f_equal. replace (S m - 1)%nat with m by lia. symmetry. by apply drop_at. }
  destruct (alloc_branch_spec rb sb blkbits env s0 goal n o offs (chain_at s0 p m)) as (err & num & br & s1 & -> & H); try (done || lia).
  { intros e He. specialize (Hlast e He). lia. }
  cbn [rbind]. destruct H as [[He Hgb]|(-> & Hnum & N & x & more & Hg & ->)].
  { rewrite (proj2 (Z.eqb_neq err 0)) by lia. cbn [negb]. eexists _, s1. split; [done|]. right. exists err. split_and!; try done. left.
    by apply (given_back_rsv s s1 w). }
  apply (grown_rsv s s1 w) in Hg. cbn [Z.eqb negb head deref rbind]. rewrite <- Ech.
  apply (splice_filled s s1 p m i maxb n N x num more); try (done || lia). unfold s0 in Hz. by destruct s.
Qed.

(** ** ext2_get_blocks *)

(** A run of [n] blocks that are mapped, as long as the array and the request allow. *)
Definition run_at (s : mstate) (i maxb b n : Z) : Prop :=
  1 <= n <= maxb /\ n <= b + 1 /\ (forall j, 0 <= j < n -> bmap s (i + j) = bmap s i + j) /\
  (n = maxb \/ n = b + 1 \/ bmap s (i + n) <> bmap s i + n).

Inductive get_result (s : mstate) (i maxb : Z) (create : bool) : got -> mstate -> Prop :=
  | GetOutside : ~ 0 <= i < max_block blkbits -> get_result s i maxb create (Got (- EIO) None false false) s
  | GetFound b n : snd (ext2_block_to_path blkbits i) = b -> bmap s i <> 0 -> run_at s i maxb b n ->
      get_result s i maxb create (Got n (Some (bmap s i)) false (b <? n)) s
  | GetHole : 0 <= i < max_block blkbits -> bmap s i = 0 -> create = false -> get_result s i maxb create (Got 0 None false false) s
  | GetFilled b g s' : 0 <= i < max_block blkbits -> snd (ext2_block_to_path blkbits i) = b -> bmap s i = 0 -> create = true ->
      filled s s' i maxb b g -> get_result s i maxb create g s'.

Lemma bmap_owned s i : file_ok s -> bmap s i <> 0 -> bmap s i ∈ file_blocks s.
Proof.
  intros Hf. destruct (decide (0 <= i < max_block blkbits)) as [Hi|Hi]; [|by rewrite bmap_outside].
  destruct (block_to_path_spec blkbits i Hi) as (p & Hp). rewrite (bmap_path blkbits env s i p Hp). destruct p as [|k r]; [by destruct Hp|].
  destruct Hp as [(Hk & Hl & _) _]. unfold Ext2BlockFile.at_path. simpl. destruct (i_data s !! k) as [w|] eqn:Ew; simpl; [|by rewrite follow_0].
  intros H0. apply elem_of_arr. exists k, w. split; [done|]. apply follow_owned; [lia|done].
Qed.

Lemma get_found s p i m maxb : file_ok s -> is_path i p -> branch_found s p true m -> 1 <= maxb ->
  exists n, map_more env (Z.to_nat (boundary_of p)) s (map (chain_at s p) (seq 0 (S m))) (chain_at s p m) 1 maxb (boundary_of p) = Ok (0, n) /\
    run_at s i maxb (boundary_of p) n /\ bmap s i <> 0 /\ ind_key (chain_at s p m) = bmap s i.
Proof.
  intros Hf Hp (Hm & Hnz & Hs & H0) Hmax. pose proof (boundary_range p (proj1 Hp)) as Hb.
  destruct (slot_array s p m Hf (proj1 Hp) Hm Hnz) as (Hloc & c & Hc & Hk & _ & Hdir).
  destruct (Hdir ltac:(rewrite drop_ge by lia; done)) as [Hfit _]. rewrite (firstn_all2 p) in Hk by lia.
  assert (Hkey : ind_key (chain_at s p m) = bmap s i).
  { simpl. rewrite (bmap_path blkbits env s i p Hp). by rewrite firstn_all2 by lia. }
  pose proof (fun j Hj => array_bmap s p m i c j Hf Hp Hs Hloc Hc Hj) as Hab. set (o := nth m p 0%nat) in *.
  assert (Hbm : bmap s i <> 0) by by rewrite (bmap_path blkbits env s i p Hp).
  assert (Hrange : 0 <= bmap s i < 2 ^ 32).
  { destruct (file_used rb sb blkbits env s _ Hf (bmap_owned s i Hf Hbm)) as [Hz _]. pose proof (zone_bound sb _ Hz). lia. }
  destruct (map_more_spec s (map (chain_at s p) (seq 0 (S m))) (base_at s p m) c o (bmap s i) maxb (boundary_of p)) with (fuel := Z.to_nat (boundary_of p)) (count := 1)
    as (n & En & Hn & Hnb & Hrun & Hend); try (done || lia).
  { apply (verify_ok rb sb blkbits env); [done|apply valid_partial, Hp|lia|]. intros j Hj. apply Hnz. lia. }
  assert (Ech : chain_at s p m = Ind (base_at s p m) (Z.of_nat o) (bmap s i)) by by rewrite <- Hkey.
  exists n. split; [by rewrite Ech|]. split_and!; try done. split_and!; try (done || lia).
  - intros j Hj. rewrite Hab by lia. destruct (decide (j = 0)) as [->|]; [|by rewrite Hrun by lia].
    rewrite Nat.add_0_r, Hk. rewrite (bmap_path blkbits env s i p Hp). simpl. lia.
  - destruct (decide (n = boundary_of p + 1)); [by right; left|]. destruct Hend as [?|[?|He]]; [by left|done|right; right].
    rewrite Hab by lia. intros E. apply He. destruct (lookup_lt_is_Some_2 c (o + Z.to_nat n)%nat ltac:(lia)) as [w Hw]. rewrite Hw in E |- *. simpl in E. congruence.
Qed.

Lemma get_blocks_spec s i maxb create : file_ok s -> 1 <= maxb ->
  exists g s', ext2_get_blocks rb sb blkbits env s i maxb create = Ok (g, s') /\ get_result s i maxb create g s'.
Proof.
  intros Hf Hmax. unfold ext2_get_blocks. rewrite (proj2 (Z.eqb_neq maxb 0)) by lia.
  destruct (decide (0 <= i < max_block blkbits)) as [Hi|Hi].
  2:{ pose proof (block_to_path_outside blkbits i Hi) as E. destruct (ext2_block_to_path blkbits i) as [offs b]. simpl in E. subst offs.
      eexists _, s. split; [done|]. by apply GetOutside. }
  destruct (block_to_path_spec blkbits i Hi) as (p & Hp). pose proof Hp as (Hv & _ & Ep). rewrite Ep. fold (boundary_of p) in Ep |- *.
  assert (Hb : snd (ext2_block_to_path blkbits i) = boundary_of p) by by rewrite Ep.
  rewrite length_map. replace (length p =? 0)%nat with false by (by destruct p).
  destruct (get_branch_spec rb sb blkbits env s p Hf (valid_partial _ p Hv)) as (full & m & -> & Hbf). cbn [rbind]. destruct full.
  - rewrite last_map_seq. cbn [deref rbind]. destruct (get_found s p i m maxb Hf Hp Hbf Hmax) as (n & -> & Hrun & H0 & Hk). cbn [rbind].
    cbn [Z.eqb Z.opp EAGAIN negb andb]. eexists _, s. split; [done|]. rewrite Hk. by apply (GetFound s i maxb create (boundary_of p)).
  - cbn [rbind andb]. pose proof Hbf as (Hm & Hnz & H0). apply zero_path in H0; [|done]. rewrite <- (bmap_path blkbits env s i p Hp) in H0.
    cbn [Z.eqb Z.opp EIO orb]. destruct create; cbn [negb orb].
    + assert (Hver : verify_chain env s (map (chain_at s p) (seq 0 (S m))) = Ok true).
      { apply (verify_ok rb sb blkbits env); [done|by apply valid_partial|lia|]. intros j Hj. apply Hnz. lia. }
      cbn [Z.eqb Z.opp EAGAIN]. rewrite Hver. cbn [rbind].
      destruct (alloc_and_splice_spec s p m i maxb Hf Hp Hbf Hmax) as (g & s' & E & Hfi). exists g, s'. split; [exact E|].
      by apply (GetFilled s i maxb true (boundary_of p)).
    + eexists _, s. split; [done|]. by apply GetHole.
Qed.
End GetBlocks.
