(* ===== verification/Ext2BlockSystem.v ===== *)
(** * ext2: the callers of the block map, and several files

    The functions of [fs/ext2/inode.c] that call [ext2_get_blocks] and
    [__ext2_truncate_blocks], and the files of a file system side by side: they share the
    buffer cache and the allocator, and an operation on one of them does not reach the
    blocks of another. *)

From S2P Require Import Prelude CString ByteMem Ext2Layout Ext2Dir Ext2Super Ext2Inode Ext2Ialloc Ext2IallocFacts.
From S2P Require Import Ext2Balloc Ext2BallocBits Ext2BallocRsv Ext2BallocGroup Ext2BallocFacts Ext2BallocAlloc Ext2BallocFree Ext2BallocTheorems.
From S2P Require Import Ext2BlockMap Ext2BlockTree Ext2BlockPath Ext2BlockFacts Ext2BlockFile Ext2BlockTrunc Ext2BlockAlloc Ext2BlockGet Ext2GetBlocks.

Section System.
Context (rb : rb_lib) {RL : RbLaws rb} (sb : sb_info) {W : SbWf sb} {B : BlkWf sb} (blkbits : Z) {G : MapWf blkbits} (env : map_env) {EW : EnvWf env}.

Notation buf := (buf env).
Notation file_ok := (file_ok rb sb blkbits env).
Notation file_blocks := (file_blocks env).
Notation used := (used sb).
Notation bmap := (bmap blkbits env).
Notation mapped := (mapped rb sb blkbits env).
Notation lost := (lost rb sb blkbits env).
Notation given_back := (given_back rb sb env).
Notation released := (released rb sb blkbits env).
Notation get_result := (get_result rb sb blkbits env).

(** ** What an operation on a file leaves alone *)

Record keeps (s s' : mstate) : Prop := {
  kp_file : file_ok s';
  kp_ino : ino_of s' = ino_of s;
  kp_others b : used (m_blk s) b -> b ∉ file_blocks s -> buf s' b = buf s b /\ used (m_blk s') b;
  kp_blocks b : b ∈ file_blocks s' -> used (m_blk s) b -> b ∈ file_blocks s }.

Lemma keeps_id s : file_ok s -> keeps s s.
Proof. by split. Qed.

Lemma keeps_trans s s1 s2 : keeps s s1 -> keeps s1 s2 -> keeps s s2.
Proof.
  intros [F1 I1 O1 B1] [F2 I2 O2 B2]. split; [done|congruence| |].
  - intros b Hu Hn. destruct (O1 b Hu Hn) as [E1 U1]. destruct (O2 b U1) as [E2 U2]; [|by rewrite E2, E1]. intros Hb. by apply Hn, B1.
  - intros b Hb Hu. destruct (decide (b ∈ file_blocks s)) as [|Hn]; [done|]. destruct (O1 b Hu Hn) as [_ U1]. apply B1; [by apply B2|done].
Qed.

Lemma mapped_keeps s s' i num x N : file_ok s -> mapped s s' i num x N -> keeps s s'.
Proof.
  intros Hf [H1 H2 H3 H4 Hh H5 H6 H7]. split; [done| | |].
  - unfold ino_of. rewrite H6. by destruct (m_inode s) as [[]].
  - intros b Hu Hn. split; [by apply H5|]. eapply (turned_used sb); [apply H3| |done].
    intros Hb. by apply (took_unused rb sb s _ _ b H3 Hb).
  - intros b Hb Hu. rewrite H2 in Hb. apply elem_of_app in Hb as [|Hb]; [done|]. by destruct (took_unused rb sb s _ _ b H3 Hb).
Qed.

Lemma given_back_keeps s s' : file_ok s -> given_back s s' -> keeps s s'.
Proof.
  intros Hf Hg. destruct (given_back_file rb sb blkbits env s s' Hf Hg) as (H1 & H2 & _). destruct Hg as [[_ Hs Hbi _] Hw _ Hi _]. split.
  - done.
  - by apply same_ino.
  - intros b Hu _. split; [apply (Hw (InBlock b)); [done|by intros y [= <-]]|]. destruct Hu as (Hz & Hb & Hn). split; [done|].
    rewrite Hbi by done. split; [done|]. by rewrite <- (system_side sb _ _ b Hs Hz).
  - intros b Hb _. by rewrite <- H2.
Qed.

Lemma lost_keeps s s' L : file_ok s -> lost s s' L -> keeps s s'.
Proof.
  intros Hf [H1 H2 H3 H4 H5 H6 H7]. split.
  - done.
  - unfold ino_of. by rewrite H6.
  - intros b Hu _. split; [by apply H5|]. eapply (turned_used sb); [apply H3| |done]. intros Hb. by apply (took_unused rb sb s _ _ b H3 Hb).
  - intros b Hb _. by rewrite <- H2.
Qed.

Lemma released_keeps s s' L : released s s' L -> keeps s s'.
Proof.
  intros [H1 H2 H3 H4 H5 H6]. split.
  - done.
  - by apply same_ino.
  - intros b Hu Hn. split; [by apply H4|]. eapply (turned_used sb); [done| |done]. intros Hb. apply Hn. rewrite H3. set_solver.
  - intros b Hb _. rewrite H3. set_solver.
Qed.

(** ** Calls of get_block *)

Definition same_attrs (n n' : inode) : Prop :=
  i_size (core n') = i_size (core n) /\ i_mode (core n') = i_mode (core n) /\ i_sflags n' = i_sflags n /\ i_blocks (core n') = i_blocks (core n).

Lemma dirty_attrs n n' : mark_inode_dirty n' = mark_inode_dirty n -> same_attrs n n'.
Proof.
  intros E. apply (f_equal (fun n => (i_size (core n), i_mode (core n), i_sflags n, i_blocks (core n)))) in E. destruct n as [[]], n' as [[]]. by injection E.
Qed.

(** A call that maps blocks: blocks that were mapped stay. *)
Record grows (s s' : mstate) : Prop := {
  gw_keeps : keeps s s';
  gw_map j : bmap s j <> 0 -> bmap s' j = bmap s j;
  gw_attrs : same_attrs (m_inode s) (m_inode s');
  gw_info : m_info s' = m_info s }.

Lemma grows_refl s : file_ok s -> grows s s.
Proof. intros Hf. split; [by apply keeps_id|done..]. Qed.

Lemma grows_trans s s1 s2 : grows s s1 -> grows s1 s2 -> grows s s2.
Proof.
  intros [K1 M1 (A1 & A2 & A3 & A7) I1] [K2 M2 (A4 & A5 & A6 & A8) I2]. split; [by eapply keeps_trans| | |congruence].
  - intros j Hj. rewrite M2; rewrite M1; done.
  - split_and!; congruence.
Qed.

Lemma get_grows s i maxb create g s' : file_ok s -> get_result s i maxb create g s' -> grows s s'.
Proof.
  intros Hf [| | |b g' s1 _ _ H0 _ [(num & x & N & _ & _ & Hm & _)|(err & _ & _ & [Hg|(_ & N & x & num & _ & Hl & _)])]]; try by apply grows_refl.
  - split; [by eapply mapped_keeps| | |apply Hm].
    + intros j Hj. rewrite (mp_bmap _ _ _ _ _ _ _ _ _ _ Hm), decide_False; [done|]. intros Hr. by apply Hj, (mp_holes _ _ _ _ _ _ _ _ _ _ Hm).
    + rewrite (mp_inode _ _ _ _ _ _ _ _ _ _ Hm). by destruct (m_inode s) as [[]].
  - destruct (given_back_file rb sb blkbits env s s1 Hf Hg) as (_ & _ & Hb). split; [by apply given_back_keeps|done| |apply Hg].
    by apply dirty_attrs, (gb_inode _ _ _ _ _ Hg).
  - split; [by eapply lost_keeps|intros j _; apply Hl| |apply Hl]. by rewrite (lo_inode _ _ _ _ _ _ _ Hl).
Qed.

(** The functions of the page cache get at the file through [ext2_get_block]. *)
Definition got_block (s s' : mstate) : Prop :=
  exists i size create r bh, 1 <= u32 (Z.shiftr size blkbits) /\ ext2_get_block rb sb blkbits env s i size create = Ok (r, bh, s').

Lemma get_block_spec s i size create : file_ok s -> 1 <= u32 (Z.shiftr size blkbits) ->
  exists g s', get_result s i (u32 (Z.shiftr size blkbits)) create g s' /\
    ext2_get_block rb sb blkbits env s i size create =
    Ok (match g_bno g with
        | Some x => (0, Some (BufferHead x (Z.shiftl (g_ret g) blkbits) (g_new g) (g_boundary g)), s')
        | None => (g_ret g, None, s')
        end).
Proof.
  intros Hf Hs. destruct (get_blocks_spec rb sb blkbits env s i _ create Hf Hs) as (g & s' & E & Hg). exists g, s'. split; [done|].
  unfold ext2_get_block. rewrite E. cbn [rbind].
  destruct Hg as [|b n _ _ (? & _)| |b g' s1 _ _ _ _ [(num & x & N & ? & _ & _ & -> & _)|(err & ? & -> & _)]]; cbn [g_ret g_bno deref rbind];
    try done; [rewrite (proj2 (Z.leb_gt n 0)) by lia|rewrite (proj2 (Z.leb_gt num 0)) by lia|rewrite (proj2 (Z.leb_le err 0)) by lia]; done.
Qed.

Lemma got_block_grows s s' : file_ok s -> rtc got_block s s' -> grows s s'.
Proof.
  intros Hf H. induction H as [s|s s1 s2 (i & size & create & r & bh & Hs & E) _ IH]; [by apply grows_refl|].
  destruct (get_block_spec s i size create Hf Hs) as (g & s1' & Hg & E'). rewrite E in E'.
  assert (s1' = s1) as -> by (destruct (g_bno g); by injection E').
  pose proof (get_grows s i _ create g s1 Hf Hg) as Hgr. eapply grows_trans; [done|]. apply IH, Hgr.
Qed.

(** ** Truncation *)

(** Only the inode has changed. *)
Lemma set_inode_file s n : file_ok s -> i_ino (core n) = ino_of s -> file_ok (set_inode n s).
Proof. intros [H1 H2 H3 H4 H5 H6 H7 H8] Hn. destruct s. split; try done. unfold ino_of in *. simpl in *. congruence. Qed.

Lemma set_inode_keeps s n : file_ok s -> i_ino (core n) = ino_of s -> keeps s (set_inode n s).
Proof. intros Hf Hn. pose proof (set_inode_file s n Hf Hn). by destruct s; split. Qed.

Lemma set_info_keeps s i : file_ok s -> keeps s (set_info i s).
Proof.
  intros Hf. assert (Hf' : file_ok (set_info i s)) by (destruct Hf as [H1 H2 H3 H4 H5 H6 H7 H8]; destruct s; by split). by destruct s; split.
Qed.

(** Files that are cut at all: not append-only and not immutable, and not a symbolic link. *)
Definition can_cut (s : mstate) : bool :=
  let mode := i_mode (core (m_inode s)) in (S_ISREG mode || S_ISDIR mode) && negb (append_or_immutable (m_inode s)).

Lemma dir_or_reg_not_link mode : S_ISREG mode || S_ISDIR mode = true -> S_ISLNK mode = false.
Proof.
  unfold S_ISREG, S_ISDIR, S_ISLNK. intros H. apply orb_true_iff in H. destruct H as [H|H]; apply Z.eqb_eq in H; by rewrite H.
Qed.

Lemma truncate_blocks_eq s offset : can_cut s = true -> ext2_truncate_blocks rb sb blkbits env offset s = __ext2_truncate_blocks rb sb blkbits env offset s.
Proof.
  intros Hc. apply andb_true_iff in Hc as [Hm Ha]. apply negb_true_iff in Ha. unfold ext2_truncate_blocks, has_blocks, ext2_inode_is_fast_symlink.
  by rewrite Hm, (dir_or_reg_not_link _ Hm), Ha.
Qed.

Lemma truncate_blocks_spec s offset : file_ok s -> can_cut s = true -> 0 <= offset ->
  exists s' L, ext2_truncate_blocks rb sb blkbits env offset s = Ok s' /\ released s s' L /\
    (forall i, bmap s' i = if i <? first_gone blkbits offset then bmap s i else 0).
Proof.
  intros Hf Hc Ho. rewrite truncate_blocks_eq by done.
  destruct (truncate_spec rb sb blkbits env s offset Hf Ho) as (s' & L & E & Hr & _ & Hb & _). by exists s', L.
Qed.

(** The file has been cut to [newsize], or extended. *)
Record resized (s s' : mstate) (newsize : Z) : Prop := {
  rz_keeps : keeps s s';
  rz_inode : mark_inode_dirty (m_inode s') = mark_inode_dirty (with_core (with_times (map_time env) (set_size newsize (core (m_inode s)))) (m_inode s));
  rz_info : m_info s' = m_info s;
  rz_freed : exists L, file_blocks s ≡ₚ L ++ file_blocks s' /\ turned sb false (m_blk s) (m_blk s') (ino_of s) L;
  rz_map i : bmap s' i = if i <? first_gone blkbits newsize then bmap s i else 0 }.

(** What is done before the blocks are freed, and after. *)
Lemma resized_before s s' newsize L :
  let s0 := set_inode (with_core (set_size newsize (core (m_inode s))) (m_inode s)) s in
  file_ok s -> released s0 s' L -> (forall i, bmap s' i = if i <? first_gone blkbits newsize then bmap s0 i else 0) ->
  let n := with_core (with_times (map_time env) (core (m_inode s'))) (m_inode s') in
  resized s (set_inode n s') newsize /\ resized s (dirty_inode (set_inode n s')) newsize.
Proof.
  intros s0 Hf Hr Hb n. assert (Hn : i_ino (core (m_inode s0)) = ino_of s) by (unfold s0, ino_of; by destruct s as [[[]] ]).
  assert (Hs0 : s0 = set_inode (m_inode s0) s) by (unfold s0; by destruct s as [[[]] ]).
  assert (K1 : keeps s s0) by (rewrite Hs0; by apply set_inode_keeps). pose proof (released_keeps _ _ _ Hr) as K2.
  assert (Hn1 : i_ino (core n) = ino_of s') by (unfold n, ino_of; by destruct s' as [[[]] ]).
  pose proof (set_inode_keeps s' n (re_ok _ _ _ _ _ _ _ Hr) Hn1) as K3. pose proof (keeps_trans _ _ _ (keeps_trans _ _ _ K1 K2) K3) as K.
  assert (K4 : keeps s (dirty_inode (set_inode n s'))).
  { eapply keeps_trans; [exact K|]. apply set_inode_keeps; [apply K|]. by destruct s', n as [[]]. }
  destruct Hr as [_ R2 R3 _ R5 R6]. assert (Hd : forall f, mark_inode_dirty (m_inode (set_inode n s')) = f -> mark_inode_dirty (m_inode (dirty_inode (set_inode n s'))) = f)
    by (intros f <-; by destruct s', n as [[]]).
  assert (Hi : mark_inode_dirty (m_inode (set_inode n s')) = mark_inode_dirty (with_core (with_times (map_time env) (set_size newsize (core (m_inode s)))) (m_inode s))).
  { revert R5. unfold n, s0. clear. destruct s as [[[]] ], s' as [[[]] ]. intros [=]. by subst. }
  assert (E0 : ino_of s0 = ino_of s /\ m_blk s0 = m_blk s /\ file_blocks s0 = file_blocks s) by (unfold s0; by destruct s as [[[]] ]).
  assert (Hb' : forall i, bmap s' i = if i <? first_gone blkbits newsize then bmap s i else 0) by (intros i; rewrite Hb; by destruct s).
  destruct E0 as (E1 & E2 & E3). rewrite E1, E2 in R2. rewrite E3 in R3. split; (split; [done|by auto|transitivity (m_info s'); [by destruct s'|]; rewrite R6; by destruct s|exists L; by destruct s'|intros i; rewrite <- Hb'; by destruct s']).
Qed.

(** Why the size of a file cannot be set. *)
Definition size_error (s : mstate) (truncate_page : Z -> Z) (newsize : Z) : Z :=
  if negb (has_blocks (i_mode (core (m_inode s)))) || ext2_inode_is_fast_symlink blkbits s then - EINVAL
  else if append_or_immutable (m_inode s) then - EPERM else truncate_page newsize.

Lemma setsize_spec s truncate_page newsize : file_ok s -> 0 <= newsize ->
  if size_error s truncate_page newsize =? 0
  then exists s', ext2_setsize rb sb blkbits env truncate_page newsize s = Ok (0, s') /\ resized s s' newsize
  else ext2_setsize rb sb blkbits env truncate_page newsize s = Ok (size_error s truncate_page newsize, s).
Proof.
  intros Hf Ho. unfold ext2_setsize, size_error. destruct (negb (has_blocks _)); [done|]. destruct (ext2_inode_is_fast_symlink _ _); [done|]. cbn [orb].
  destruct (append_or_immutable _); [done|]. destruct (truncate_page newsize =? 0); cbn [negb]; [|done]. set (s0 := set_inode _ s).
  assert (Hf0 : file_ok s0) by (apply set_inode_file; [done|]; unfold ino_of; by destruct (m_inode s) as [[]]).
  destruct (truncate_spec rb sb blkbits env s0 newsize Hf0 Ho) as (s1 & L & -> & Hr & _ & Hb & _). cbn [rbind].
  destruct (resized_before s s1 newsize L Hf Hr Hb) as [R1 R2]. eexists. split; [done|]. by destruct (inode_needs_sync _ _).
Qed.

(** ** Writes that fail *)

Lemma write_failed_spec s s1 to : file_ok s -> grows s s1 -> can_cut s = true -> 0 <= i_size (core (m_inode s)) < to ->
  exists s', ext2_write_failed rb sb blkbits env to s1 = Ok s' /\ keeps s s' /\
    (forall j, first_gone blkbits (i_size (core (m_inode s))) <= j -> bmap s' j = 0) /\
    (forall j, j < first_gone blkbits (i_size (core (m_inode s))) -> bmap s j <> 0 -> bmap s' j = bmap s j).
Proof.
  intros Hf [K M (A1 & A2 & A3 & _) _] Hc Hto. unfold ext2_write_failed. rewrite A1, (proj2 (Z.ltb_lt _ to)) by lia.
  destruct (truncate_blocks_spec s1 (i_size (core (m_inode s)))) as (s' & L & -> & Hr & Hb).
  { apply K. }
  { unfold can_cut, append_or_immutable in *. by rewrite A2, A3. }
  { lia. }
  exists s'. split; [done|]. split; [by eapply keeps_trans, released_keeps|]. split; intros j Hj; rewrite Hb.
  - by rewrite (proj2 (Z.ltb_ge j _)) by lia.
  - rewrite (proj2 (Z.ltb_lt j _)) by lia. apply M.
Qed.

(** ** Several files *)

(** The inodes in memory share the buffer cache, the dirty buffers and the allocator. *)
Record files : Type := Files {
  fs_files : gmap Z (inode * inode_info * list Z); fs_bufs : gmap Z (list Z); fs_assoc : gset Z; fs_blk : bstate }.

Definition open_file (fs : files) (ino : Z) : option mstate :=
  match fs_files fs !! ino with Some (n, i, d) => Some (MState n i d (fs_bufs fs) (fs_assoc fs) 0 (fs_blk fs)) | None => None end.

Definition put_file (fs : files) (ino : Z) (s : mstate) : files :=
  Files (<[ino := (m_inode s, m_info s, i_data s)]> (fs_files fs)) (m_bufs s) (m_assoc s) (m_blk s).

(** An operation on the file [ino]. *)
Inductive fstep (ino : Z) (fs : files) : files -> Prop :=
  | StepGetBlocks s i maxb create g s' : open_file fs ino = Some s -> 1 <= maxb ->
      ext2_get_blocks rb sb blkbits env s i maxb create = Ok (g, s') -> fstep ino fs (put_file fs ino s')
  | StepTruncate s offset s' : open_file fs ino = Some s -> 0 <= offset ->
      __ext2_truncate_blocks rb sb blkbits env offset s = Ok s' -> fstep ino fs (put_file fs ino s').

(** Every file is in order, and no block belongs to two of them. *)
Record files_ok (fs : files) : Prop := {
  fk_file ino s : open_file fs ino = Some s -> file_ok s /\ ino_of s = ino;
  fk_disjoint ino ino' s s' b : open_file fs ino = Some s -> open_file fs ino' = Some s' -> b ∈ file_blocks s -> b ∈ file_blocks s' -> ino = ino' }.

Lemma open_put fs ino s ino' : open_file (put_file fs ino s) ino' =
  if decide (ino' = ino) then Some (set_nr 0 s)
  else match open_file fs ino' with Some t => Some (MState (m_inode t) (m_info t) (i_data t) (m_bufs s) (m_assoc s) 0 (m_blk s)) | None => None end.
Proof.
  unfold open_file, put_file. cbn [fs_files fs_bufs fs_assoc fs_blk]. case_decide as E; [subst; rewrite lookup_insert_eq; by destruct s|].
  rewrite lookup_insert_ne by done. by destruct (fs_files fs !! ino') as [[[]]|].
Qed.

(** Another file after the operation: the same blocks at the same places. *)
Lemma other_file s s' t : keeps s s' -> file_ok t -> m_bufs t = m_bufs s -> m_blk t = m_blk s -> (forall b, b ∈ file_blocks t -> b ∉ file_blocks s) ->
  let t' := MState (m_inode t) (m_info t) (i_data t) (m_bufs s') (m_assoc s') 0 (m_blk s') in
  file_ok t' /\ file_blocks t' = file_blocks t /\ forall j, bmap t' j = bmap t j.
Proof.
  intros K Hf Hb Hk Hd t'. assert (Hbuf : forall st st', m_bufs st = m_bufs st' -> buf st = buf st') by (intros st st' E; unfold Ext2BlockMap.buf; by rewrite E).
  assert (Hx : forall b, b ∈ file_blocks t -> buf t' b = buf t b /\ used (m_blk t') b).
  { intros b Hbt. rewrite (Hbuf t s Hb), (Hbuf t' s' eq_refl). apply (kp_others _ _ K); [|by apply Hd]. rewrite <- Hk. by apply (file_used rb sb blkbits env). }
  destruct (file_same rb sb blkbits env t t' Hf eq_refl) as (E1 & E2 & E3); [intros b Hbt; by apply Hx|]. destruct (kp_file _ _ K) as [F1 F2 F3 F4 F5 F6 F7 F8].
  split_and!; [split|done|]; try done.
  - apply Hf.
  - apply Hf.
  - rewrite E1. split; [apply (fo_owned _ _ _ _ t Hf)|]. intros b Hbt. by apply Hx.
  - intros i. destruct (decide (0 <= i < max_block blkbits)) as [Hr|Hr]; [|by rewrite !bmap_outside].
    destruct (block_to_path_spec blkbits i Hr) as (q & Hq). rewrite !(bmap_path blkbits env _ i q Hq). apply E2, valid_partial, Hq.
Qed.

Lemma open_parts fs ino s : open_file fs ino = Some s -> m_bufs s = fs_bufs fs /\ m_assoc s = fs_assoc fs /\ m_blk s = fs_blk fs.
Proof. unfold open_file. destruct (fs_files fs !! ino) as [[[]]|]; [|done]. by intros [= <-]. Qed.

Lemma set_nr_file s : file_ok s -> file_ok (set_nr 0 s) /\ file_blocks (set_nr 0 s) = file_blocks s /\ ino_of (set_nr 0 s) = ino_of s.
Proof. intros Hf. split; [by apply file_ok_nr|]. by destruct s. Qed.

(** The other files after an operation on the file [ino]. *)
Definition others_kept (fs fs' : files) (ino : Z) : Prop :=
  forall ino' t, ino' <> ino -> open_file fs ino' = Some t ->
  exists t', open_file fs' ino' = Some t' /\ file_blocks t' = file_blocks t /\ forall j, bmap t' j = bmap t j.

Lemma put_file_ok fs ino s s' : files_ok fs -> open_file fs ino = Some s -> keeps s s' ->
  files_ok (put_file fs ino s') /\ others_kept fs (put_file fs ino s') ino.
Proof.
  intros [Hok Hdis] Hs K. destruct (open_parts fs ino s Hs) as (P1 & P2 & P3). destruct (Hok ino s Hs) as [_ Hino].
  destruct (set_nr_file s' (kp_file _ _ K)) as (N1 & N2 & N3).
  assert (Hoth : forall ino' t, ino' <> ino -> open_file fs ino' = Some t ->
    exists t', open_file (put_file fs ino s') ino' = Some t' /\ file_ok t' /\ ino_of t' = ino' /\ file_blocks t' = file_blocks t /\ forall j, bmap t' j = bmap t j).
  { intros ino' t Hne Ht. destruct (open_parts fs ino' t Ht) as (Q1 & _ & Q3). destruct (Hok ino' t Ht) as [Ft It].
    destruct (other_file s s' t K Ft) as (F' & B' & M'); [congruence|congruence|intros b Hb Hb'; by apply Hne, (Hdis ino' ino t s b)|].
    rewrite open_put, decide_False, Ht by done. by eexists. }
  assert (Hsplit : forall ino' t, open_file (put_file fs ino s') ino' = Some t ->
    file_ok t /\ ino_of t = ino' /\ (ino' = ino /\ file_blocks t = file_blocks s' \/ ino' <> ino /\ exists t0, open_file fs ino' = Some t0 /\ file_blocks t = file_blocks t0)).
  { intros ino' t Ht. destruct (decide (ino' = ino)) as [->|Hne].
    - rewrite open_put, decide_True in Ht by done. injection Ht as <-. split_and!; [done|rewrite N3, (kp_ino _ _ K); done|by left].
    - destruct (open_file fs ino') as [t0|] eqn:E0; [|rewrite open_put, decide_False, E0 in Ht; done].
      destruct (Hoth ino' t0 Hne E0) as (t' & E' & F' & I' & B' & _). rewrite Ht in E'. injection E' as <-. split_and!; [done..|right]. eauto. }
  split; [split|].
  - intros ino' t Ht. by destruct (Hsplit ino' t Ht) as (? & ? & _).
  - assert (Hnew : forall ino' t0 b, ino' <> ino -> open_file fs ino' = Some t0 -> b ∈ file_blocks t0 -> b ∉ file_blocks s').
    { intros ino' t0 b Hne H0 Hb Hb'. destruct (open_parts fs ino' t0 H0) as (_ & _ & Q3). apply Hne, (Hdis ino' ino t0 s b); [done..|].
      apply (kp_blocks _ _ K); [done|]. rewrite P3, <- Q3. apply (file_used rb sb blkbits env); [by eapply Hok|done]. }
    intros i1 i2 t1 t2 b H1 H2 Hb1 Hb2. destruct (Hsplit i1 t1 H1) as (_ & _ & [[-> E1]|(Hn1 & u1 & U1 & E1)]), (Hsplit i2 t2 H2) as (_ & _ & [[-> E2]|(Hn2 & u2 & U2 & E2)]);
      rewrite E1 in Hb1; rewrite E2 in Hb2; [done| | |by apply (Hdis i1 i2 u1 u2 b)].
    + by destruct (Hnew i2 u2 b Hn2 U2 Hb2).
    + by destruct (Hnew i1 u1 b Hn1 U1 Hb1).
  - intros ino' t Hne Ht. destruct (Hoth ino' t Hne Ht) as (t' & ? & _ & _ & ? & ?). by exists t'.
Qed.

Lemma fstep_ok ino fs fs' : files_ok fs -> fstep ino fs fs' -> files_ok fs' /\ others_kept fs fs' ino.
Proof.
  intros Hok Hs. destruct Hs as [s i maxb create g s' Ho Hm E|s offset s' Ho Hof E]; destruct (fk_file _ Hok ino s Ho) as [Hf _]; eapply put_file_ok; try done.
  - destruct (get_blocks_spec rb sb blkbits env s i maxb create Hf Hm) as (g0 & s0 & E0 & Hg). rewrite E in E0. injection E0 as <- <-. by eapply get_grows.
  - destruct (truncate_spec rb sb blkbits env s offset Hf Hof) as (s0 & L & E0 & Hr & _). rewrite E in E0. injection E0 as <-. by eapply released_keeps.
Qed.

Definition fsteps : files -> files -> Prop := rtc (fun fs fs' => exists ino, fstep ino fs fs').

Lemma fsteps_ok fs fs' : files_ok fs -> fsteps fs fs' -> files_ok fs'.
Proof. intros Hok H. induction H as [|fs fs1 fs2 (ino & Hs) _ IH]; [done|]. by apply IH, (fstep_ok ino fs). Qed.
End System.
