(* ===== verification/Ext2BlockTheorems.v ===== *)
(** * ext2: the theorems about the blocks of files

    The map of a file's blocks ([fs/ext2/inode.c]) under [ext2_get_blocks] and truncation:
    which blocks are found, taken and given back, and that the files of a file system do not
    get in each other's way. *)

From S2P Require Import Prelude CString ByteMem Ext2Layout Ext2Dir Ext2Super Ext2Inode Ext2Ialloc Ext2IallocFacts.
From S2P Require Import Ext2Balloc Ext2BallocBits Ext2BallocRsv Ext2BallocGroup Ext2BallocFacts Ext2BallocAlloc Ext2BallocFree Ext2BallocTheorems.
From S2P Require Import Ext2BlockMap Ext2BlockTree Ext2BlockPath Ext2BlockFacts Ext2BlockFile Ext2BlockTrunc Ext2BlockAlloc Ext2BlockGet Ext2GetBlocks Ext2BlockSystem.

(** ** A file system for the witnesses *)

Module DemoFile.
Import DemoBlocks.

Definition demo_map_env : map_env := MapEnv demo_env (fun _ => None) (fun _ => true) 1 (fun _ _ => 0) (fun _ => false) (fun _ => false) 100.

(** The same, where the disk refuses to be zeroed. *)
Definition demo_dax_env : map_env := MapEnv demo_env (fun _ => None) (fun _ => true) 1 (fun _ _ => - EIO) (fun _ => false) (fun _ => false) 100.

#[global] Instance demo_map_wf : MapWf 10.
Proof. split. lia. Qed.
#[global] Instance demo_env_wf : EnvWf demo_map_env.
Proof. split; done. Qed.
#[global] Instance demo_dax_wf : EnvWf demo_dax_env.
Proof. split; done. Qed.

(** A regular file of [size] bytes without blocks. *)
Definition demo_inode (ino size flags : Z) : inode :=
  Inode (Dir ino (32768 + 420) size 0 0 0 0 0 0 false ∅ []) 1 1 false 0 0 0 0 ext2_file_inode_operations ext2_aops None 0 flags.

Definition demo_info : inode_info := InodeInfo 0 0 0 0 0 0 false 0.

Definition demo_file (ino size flags : Z) : mstate := MState (demo_inode ino size flags) demo_info (replicate 15 0) ∅ ∅ 0 demo_state.

Lemma zeroes_no_blocks env s : i_data s = replicate 15 0 -> file_blocks env s = [].
Proof. intros E. unfold file_blocks. by rewrite E. Qed.

Lemma demo_file_ok env ino size flags : ino <> 0 -> file_ok demo_rb demo_sb 10 env (demo_file ino size flags).
Proof.
  intros Hi. split.
  - apply demo_blocks_ok.
  - apply demo_windows_ok.
  - done.
  - done.
  - intros k w Hk. apply lookup_replicate in Hk as [-> _]. apply shaped_0.
  - rewrite zeroes_no_blocks by done. split; [constructor|]. by intros x ?%not_elem_of_nil.
  - intros b. right. reflexivity.
  - by left.
Qed.

(** With three blocks from block 12 on, below an indirect block. *)
Definition demo_grown : mstate :=
  match ext2_get_blocks demo_rb demo_sb 10 demo_map_env (demo_file 12 15000 0) 12 3 true with Ok (_, s) => s | _ => demo_file 12 15000 0 end.

Lemma demo_grown_ok : file_ok demo_rb demo_sb 10 demo_map_env demo_grown.
Proof.
  pose proof (demo_file_ok demo_map_env 12 15000 0 ltac:(done)) as Hf.
  destruct (get_blocks_spec demo_rb demo_sb 10 demo_map_env (demo_file 12 15000 0) 12 3 true Hf ltac:(lia)) as (g & s & E & Hg).
  unfold demo_grown. rewrite E. apply (get_grows _ _ _ _ _ _ _ _ _ _ Hf Hg).
Qed.

Lemma demo_grown_size : i_size (core (m_inode demo_grown)) = 15000.
Proof. vm_compute. reflexivity. Qed.

Lemma demo_grown_flags : append_or_immutable (m_inode demo_grown) = false.
Proof. vm_compute. reflexivity. Qed.

Lemma demo_grown_map : bmap 10 demo_map_env demo_grown 14 = 16.
Proof. vm_compute. reflexivity. Qed.

(** Two files, without blocks, and after each of them has been written to. *)
Definition demo_files : files :=
  Files {[ 12 := (demo_inode 12 15000 0, demo_info, replicate 15 0); 13 := (demo_inode 13 0 0, demo_info, replicate 15 0) ]} ∅ ∅ demo_state.

Lemma demo_files_open ino s : open_file demo_files ino = Some s -> exists size, s = demo_file ino size 0 /\ (ino = 12 \/ ino = 13).
Proof.
  unfold open_file, demo_files. cbn [fs_files]. destruct (decide (ino = 12)) as [->|H12]; [rewrite lookup_insert_eq; intros [= <-]; exists 15000; eauto|].
  rewrite lookup_insert_ne by done. destruct (decide (ino = 13)) as [->|H13]; [rewrite lookup_singleton_eq; intros [= <-]; exists 0; eauto|].
  by rewrite lookup_singleton_ne by done.
Qed.

Lemma demo_files_ok : files_ok demo_rb demo_sb 10 demo_map_env demo_files.
Proof.
  split.
  - intros ino s (size & -> & Hi)%demo_files_open. split; [|done]. apply demo_file_ok. lia.
  - intros ino ino' s s' b (size & -> & _)%demo_files_open _ Hb. rewrite zeroes_no_blocks in Hb by done. by apply not_elem_of_nil in Hb.
Qed.

Lemma demo_two_steps : exists fs' s s', fsteps demo_rb demo_sb 10 demo_map_env demo_files fs' /\
  open_file fs' 12 = Some s /\ open_file fs' 13 = Some s' /\ file_blocks demo_map_env s = [13; 14; 15; 16].
Proof.
  assert (H : exists g1 s1, ext2_get_blocks demo_rb demo_sb 10 demo_map_env (demo_file 12 15000 0) 12 3 true = Ok (g1, s1)) by (eexists _, _; vm_compute; reflexivity).
  destruct H as (g1 & s1 & E1). set (fs1 := put_file demo_files 12 s1). set (t := MState (demo_inode 13 0 0) demo_info (replicate 15 0) (m_bufs s1) (m_assoc s1) 0 (m_blk s1)).
  assert (H : exists g2 s2, ext2_get_blocks demo_rb demo_sb 10 demo_map_env t 0 2 true = Ok (g2, s2)).
  { unfold t. vm_compute in E1. injection E1 as _ <-. eexists _, _. vm_compute. reflexivity. }
  destruct H as (g2 & s2 & E2). exists (put_file fs1 13 s2), (MState (m_inode s1) (m_info s1) (i_data s1) (m_bufs s2) (m_assoc s2) 0 (m_blk s2)), (set_nr 0 s2). split_and!.
  - eapply rtc_l; [exists 12; by apply (StepGetBlocks _ _ _ _ 12 demo_files (demo_file 12 15000 0) 12 3 true g1 s1)|].
    eapply rtc_once. exists 13. by apply (StepGetBlocks _ _ _ _ 13 fs1 t 0 2 true g2 s2).
  - rewrite open_put, decide_False by done. unfold fs1. rewrite open_put, decide_True by done. by destruct s1.
  - by rewrite open_put, decide_True.
  - unfold t in E2. vm_compute in E1. injection E1 as _ <-. vm_compute in E2. injection E2 as _ <-. vm_compute. reflexivity.
Qed.
End DemoFile.

Import DemoBlocks DemoFile.

(** ** The theorems *)

(** C30: [ext2_block_to_path] numbers the blocks of a file by the paths to them.  For a block
    that a file can have it returns a path of one of the fifteen pointers of the inode and
    the offsets in the indirect blocks below it, all in range, and the number of blocks
    after it that are in the same array; every such path belongs to exactly one block, and a
    later block has a later path.  For any other number it returns no path. *)
Theorem block_to_path_numbers_blocks blkbits `{!MapWf blkbits} i :
  (0 <= i < max_block blkbits ->
   exists q, ext2_block_to_path blkbits i = (map Z.of_nat q, last_size blkbits q - 1 - Z.of_nat (default 0%nat (last q))) /\
     valid_path blkbits q /\ block_of blkbits q = i /\
     (forall r, valid_path blkbits r -> block_of blkbits r = i -> r = q) /\
     (forall r, valid_path blkbits r -> i < block_of blkbits r <-> lexlt q r)) /\
  (~ 0 <= i < max_block blkbits -> fst (ext2_block_to_path blkbits i) = []) /\
  (forall r, valid_path blkbits r -> 0 <= block_of blkbits r < max_block blkbits).
Proof.
  split_and!; [|apply block_to_path_outside, _|apply valid_range, _].
  intros Hi. destruct (block_to_path_spec blkbits i Hi) as (q & Hq). pose proof Hq as (Hv & Hb & E). exists q. split_and!; [done..| |].
  - intros r. by apply is_path_unique.
  - intros r Hr. rewrite <- Hb. split; [by apply lexlt_block|by apply block_of_lt].
Qed.

Lemma block_to_path_numbers_blocks_witness : exists q, ext2_block_to_path 10 300 = (map Z.of_nat q, 223) /\ q = [13%nat; 0%nat; 32%nat].
Proof.
  destruct (block_to_path_numbers_blocks 10 300) as [H _]. destruct H as (q & E & _ & _ & Hu & _); [vm_compute; split; [discriminate|reflexivity]|].
  assert (Hq : [13; 0; 32]%nat = q) by (apply Hu; [vm_compute; intuition (try lia)|reflexivity]; repeat constructor). subst q. exists [13; 0; 32]%nat. split; [exact E|reflexivity].
Defined.

(** C8: [ext2_get_blocks] on a file in order always returns, with one of these results.  A
    number that no file has is refused.  A block that is mapped is returned with the run of
    consecutive blocks after it, as long as asked for unless the array of pointers or the
    run ends.  A hole is reported and left alone when no block is to be created.  Otherwise
    a run of holes from there on has become a run of blocks that were free, with the
    indirect blocks that were missing, and every other block of the file is where it was;
    or an error is returned and the map of the file is the same: then nothing is taken,
    except that blocks which the disk could not zero for a DAX file are not given back. *)
Theorem get_blocks_maps_runs rb `{!RbLaws rb} sb `{!SbWf sb, !BlkWf sb} blkbits `{!MapWf blkbits} env `{!EnvWf env} s i maxblocks create :
  file_ok rb sb blkbits env s -> 1 <= maxblocks ->
  exists g s', ext2_get_blocks rb sb blkbits env s i maxblocks create = Ok (g, s') /\ get_result rb sb blkbits env s i maxblocks create g s'.
Proof. apply (get_blocks_spec rb sb blkbits env). Qed.

Lemma get_blocks_maps_runs_witness :
  exists g s', ext2_get_blocks demo_rb demo_sb 10 demo_map_env (demo_file 12 15000 0) 12 3 true = Ok (g, s') /\
    get_result demo_rb demo_sb 10 demo_map_env (demo_file 12 15000 0) 12 3 true g s' /\ g = Got 3 (Some 14) true false.
Proof.
  destruct (get_blocks_maps_runs demo_rb demo_sb 10 demo_map_env (demo_file 12 15000 0) 12 3 true)
    as (g & s' & E & Hg); [apply demo_file_ok; discriminate|lia|]. exists g, s'. split; [exact E|]. split; [exact Hg|].
  vm_compute in E. injection E as <- _. reflexivity.
Defined.

(** C28: what [ext2_get_blocks] has mapped is found again: a second call for the same block
    returns the same block of the disk and at least as long a run, and changes nothing. *)
Theorem mapped_blocks_are_found rb `{!RbLaws rb} sb `{!SbWf sb, !BlkWf sb} blkbits `{!MapWf blkbits} env `{!EnvWf env} s i maxblocks g s' create :
  file_ok rb sb blkbits env s -> 1 <= maxblocks ->
  ext2_get_blocks rb sb blkbits env s i maxblocks true = Ok (g, s') -> 0 < g_ret g ->
  exists n x, g_bno g = Some x /\ g_ret g <= n <= maxblocks /\
    ext2_get_blocks rb sb blkbits env s' i maxblocks create =
    Ok (Got n (Some x) false (snd (ext2_block_to_path blkbits i) <? n), s').
Proof.
  intros Hf Hm E Hg. destruct (get_blocks_spec rb sb blkbits env s i maxblocks true Hf Hm) as (g0 & s0 & E0 & Hr). rewrite E in E0. injection E0 as <- <-.
  assert (Hx : exists x, g_bno g = Some x /\ bmap blkbits env s' i = x /\ x <> 0 /\ g_ret g <= maxblocks /\
    g_ret g <= snd (ext2_block_to_path blkbits i) + 1 /\ forall j, 0 <= j < g_ret g -> bmap blkbits env s' (i + j) = x + j).
  { destruct Hr as [|b n <- H0 (Hn & Hb & Hrun & _)| |b g s1 _ <- H0 _ [(num & x & N & Hn & Hb & Hmp & -> & _)|(err & He & -> & _)]]; simpl in Hg |- *; try (done || lia).
    - exists (bmap blkbits env s i). split_and!; (done || lia).
    - exists x. assert (Hx : block_number x).
      { eapply (took_number rb sb blkbits env); [exact Hf|apply Hmp|]. apply elem_of_app. right. apply elem_of_seqZ. lia. }
      unfold block_number in Hx. pose proof (mp_bmap _ _ _ _ _ _ _ _ _ _ Hmp) as Hbm. split_and!; try (done || lia).
      + rewrite Hbm, decide_True by lia. lia.
      + intros j Hj. rewrite Hbm, decide_True by lia. lia. }
  destruct Hx as (x & Hbno & Hxi & Hx0 & Hmax & Hbd & Hrun). pose proof (kp_file _ _ _ _ _ _ (gw_keeps _ _ _ _ _ _ (get_grows rb sb blkbits env s i _ _ g s' Hf Hr))) as Hf'.
  destruct (get_blocks_spec rb sb blkbits env s' i maxblocks create Hf' Hm) as (g2 & s2 & -> & Hr2).
  inversion Hr2 as [Hout|b n Hb H0 (Hn & Hnb & Hrun2 & Hend)| |]; subst; try done.
  - by rewrite bmap_outside in Hx0.
  - exists n, (bmap blkbits env s2 i). split_and!; try (done || lia). destruct (decide (n < g_ret g)) as [Hlt|]; [|lia].
    rewrite Hrun in Hend by lia. lia.
Qed.

Lemma mapped_blocks_are_found_witness :
  exists n, 3 <= n <= 4 /\ ext2_get_blocks demo_rb demo_sb 10 demo_map_env demo_grown 12 4 false = Ok (Got n (Some 14) false (255 <? n), demo_grown).
Proof.
  destruct (mapped_blocks_are_found demo_rb demo_sb 10 demo_map_env demo_grown 12 4 (Got 3 (Some 14) false false) demo_grown false) as (n & x & Ex & Hn & E).
  - apply demo_grown_ok.
  - lia.
  - vm_compute. reflexivity.
  - reflexivity.
  - injection Ex as <-. exists n. split; [exact Hn|exact E].
Defined.

(** C9: [__ext2_truncate_blocks] on a file in order always returns.  Afterwards the blocks
    that hold bytes before the offset are where they were and there are no others; what the
    file has lost, data and indirect blocks, and nothing else is free, once, and no longer
    charged to the inode; blocks of others are untouched.  At offset 0 the file has no
    block left. *)
Theorem truncate_cuts_map rb `{!RbLaws rb} sb `{!SbWf sb, !BlkWf sb} blkbits `{!MapWf blkbits} env s offset :
  file_ok rb sb blkbits env s -> 0 <= offset ->
  exists s' L, __ext2_truncate_blocks rb sb blkbits env offset s = Ok s' /\ file_ok rb sb blkbits env s' /\
    (forall i, bmap blkbits env s' i = if i * 2 ^ blkbits <? offset then bmap blkbits env s i else 0) /\
    file_blocks env s ≡ₚ L ++ file_blocks env s' /\
    (forall y, in_zone sb y -> bbit sb (b_sbi (m_blk s')) y = if decide (y ∈ L) then Some false else bbit sb (b_sbi (m_blk s)) y) /\
    blocks_charged (m_blk s') (ino_of s) = blocks_charged (m_blk s) (ino_of s) - Z.of_nat (length L) /\
    (forall b, b ∉ file_blocks env s -> buf env s' b = buf env s b) /\
    (offset = 0 -> file_blocks env s' = []).
Proof.
  intros Hf Ho. destruct (truncate_spec rb sb blkbits env s offset Hf Ho) as (s' & L & E & Hr & _ & Hb & H0). exists s', L. split; [done|].
  pose proof (re_turned _ _ _ _ _ _ _ Hr) as Ht. split_and!; try apply Hr; try done.
  - intros i. rewrite Hb. pose proof (first_gone_bounds blkbits offset Ho) as Hg. pose proof blkbits_range.
    assert (0 < 2 ^ blkbits) by (apply Z.pow_pos_nonneg; lia).
    destruct (Z.ltb_spec i (first_gone blkbits offset)), (Z.ltb_spec (i * 2 ^ blkbits) offset); (done || nia).
  - rewrite (tu_charged _ _ _ _ _ _ Ht), decide_True by done. lia.
Qed.

Lemma truncate_cuts_map_witness :
  exists s', __ext2_truncate_blocks demo_rb demo_sb 10 demo_map_env 13312 demo_grown = Ok s' /\
    file_blocks demo_map_env s' = [13; 14] /\ bmap 10 demo_map_env s' 12 = 14 /\ bmap 10 demo_map_env s' 13 = 0.
Proof.
  destruct (truncate_cuts_map demo_rb demo_sb 10 demo_map_env demo_grown 13312) as (s' & L & E & _ & Hb & _); [apply demo_grown_ok|lia|].
  exists s'. split; [exact E|]. split.
  - vm_compute in E. injection E as <-. vm_compute. reflexivity.
  - rewrite !Hb. split; vm_compute; reflexivity.
Defined.

(** C7: files in order that have no block in common, with the allocator and the buffer cache
    they share, stay so under any sequence of calls of [ext2_get_blocks] and
    [__ext2_truncate_blocks] on them, errors included: no block comes to belong to two files,
    every block of a file is marked as used and is none of the groups' own blocks, the next
    call returns whatever it is, and an operation on one file leaves the blocks and the map
    of every other file as they are. *)
Theorem files_share_no_block rb `{!RbLaws rb} sb `{!SbWf sb, !BlkWf sb} blkbits `{!MapWf blkbits} env `{!EnvWf env} fs fs' :
  files_ok rb sb blkbits env fs -> fsteps rb sb blkbits env fs fs' ->
  (forall ino ino' s s' b, open_file fs' ino = Some s -> open_file fs' ino' = Some s' -> ino <> ino' ->
     b ∈ file_blocks env s -> b ∉ file_blocks env s') /\
  (forall ino s b, open_file fs' ino = Some s -> b ∈ file_blocks env s ->
     bbit sb (b_sbi (fs_blk fs')) b = Some true /\ ~ is_system sb (b_sbi (fs_blk fs')) b) /\
  (forall ino s i maxb create, open_file fs' ino = Some s -> 1 <= maxb ->
     exists g s', ext2_get_blocks rb sb blkbits env s i maxb create = Ok (g, s')) /\
  (forall ino s offset, open_file fs' ino = Some s -> 0 <= offset -> exists s', __ext2_truncate_blocks rb sb blkbits env offset s = Ok s') /\
  (forall ino fs'', fstep rb sb blkbits env ino fs' fs'' -> others_kept blkbits env fs' fs'' ino).
Proof.
  intros Hok Hst. pose proof (fsteps_ok rb sb blkbits env fs fs' Hok Hst) as Hok'. split_and!.
  - intros ino ino' s s' b H1 H2 Hne Hb Hb'. by apply Hne, (fk_disjoint _ _ _ _ _ Hok' ino ino' s s' b).
  - intros ino s b Ho Hb. destruct (fk_file _ _ _ _ _ Hok' ino s Ho) as [Hf _]. destruct (open_parts fs' ino s Ho) as (_ & _ & <-).
    by destruct (file_used rb sb blkbits env s b Hf Hb) as (_ & ? & ?).
  - intros ino s i maxb create Ho Hm. destruct (fk_file _ _ _ _ _ Hok' ino s Ho) as [Hf _].
    destruct (get_blocks_spec rb sb blkbits env s i maxb create Hf Hm) as (g & s' & E & _). by exists g, s'.
  - intros ino s offset Ho Hof. destruct (fk_file _ _ _ _ _ Hok' ino s Ho) as [Hf _].
    destruct (truncate_spec rb sb blkbits env s offset Hf Hof) as (s' & L & E & _). by exists s'.
  - intros ino fs'' Hs. by eapply (fstep_ok rb sb blkbits env ino).
Qed.

Lemma files_share_no_block_witness : exists fs', fsteps demo_rb demo_sb 10 demo_map_env demo_files fs' /\
  (exists s s', open_file fs' 12 = Some s /\ open_file fs' 13 = Some s' /\ file_blocks demo_map_env s = [13; 14; 15; 16] /\
     forall b, b ∈ file_blocks demo_map_env s -> b ∉ file_blocks demo_map_env s').
Proof.
  destruct demo_two_steps as (fs' & s & s' & Hst & H1 & H2 & Hb). exists fs'. split; [exact Hst|]. exists s, s'. split; [exact H1|]. split; [exact H2|]. split; [exact Hb|].
  intros b. apply (files_share_no_block demo_rb demo_sb 10 demo_map_env demo_files fs' demo_files_ok Hst) with (ino := 12) (ino' := 13); [exact H1|exact H2|discriminate].
Defined.

(** C29: a write to a regular file that [block_write_begin] has given up leaves no block past
    the end: [begin] calls [ext2_get_block] as often as it likes before it fails; afterwards
    nothing from [i_size] on is mapped, blocks that were mapped before the end are where
    they were, and the blocks of others are untouched.  Of a file that is append-only or
    immutable nothing is cut: it keeps whatever blocks [begin] has mapped. *)
Theorem failed_write_leaves_nothing_past_end rb `{!RbLaws rb} sb `{!SbWf sb, !BlkWf sb} blkbits `{!MapWf blkbits} env `{!EnvWf env} s begin pos len ret s1 :
  file_ok rb sb blkbits env s -> S_ISREG (i_mode (core (m_inode s))) = true -> 0 <= i_size (core (m_inode s)) < pos + len ->
  begin s = Ok (ret, s1) -> ret < 0 -> rtc (got_block rb sb blkbits env) s s1 ->
  exists s', ext2_write_begin rb sb blkbits env begin pos len s = Ok (ret, s') /\
    if append_or_immutable (m_inode s) then s' = s1
    else file_ok rb sb blkbits env s' /\
      (forall j, i_size (core (m_inode s)) <= j * 2 ^ blkbits -> bmap blkbits env s' j = 0) /\
      (forall j, j * 2 ^ blkbits < i_size (core (m_inode s)) -> bmap blkbits env s j <> 0 -> bmap blkbits env s' j = bmap blkbits env s j) /\
      (forall b, used sb (m_blk s) b -> b ∉ file_blocks env s -> buf env s' b = buf env s b /\ used sb (m_blk s') b).
Proof.
  intros Hf Hreg Hsz E Hret Hrun. pose proof (got_block_grows rb sb blkbits env s s1 Hf Hrun) as Hg. unfold ext2_write_begin. rewrite E. cbn [rbind].
  rewrite (proj2 (Z.ltb_lt ret 0) Hret). destruct (append_or_immutable (m_inode s)) eqn:Ea.
  - exists s1. split; [|done]. destruct (gw_attrs _ _ _ _ _ _ Hg) as (A1 & A2 & A3 & _).
    unfold ext2_write_failed, ext2_truncate_blocks, has_blocks, ext2_inode_is_fast_symlink. rewrite A1, A2, (proj2 (Z.ltb_lt _ _)), Hreg, (dir_or_reg_not_link (i_mode (core (m_inode s)))) by (lia || by rewrite Hreg).
    unfold append_or_immutable in *. by rewrite A3, Ea.
  - destruct (write_failed_spec rb sb blkbits env s s1 (pos + len) Hf Hg) as (s' & -> & K & H1 & H2); [unfold can_cut; by rewrite Hreg, Ea|done|].
    exists s'. split; [done|]. pose proof (first_gone_bounds blkbits (i_size (core (m_inode s))) ltac:(lia)) as Hgb. pose proof blkbits_range.
    assert (0 < 2 ^ blkbits) by (apply Z.pow_pos_nonneg; lia). split_and!; [apply K|intros j Hj; apply H1; nia|intros j Hj; apply H2; nia|apply K].
Qed.

Lemma failed_write_leaves_nothing_past_end_witness :
  exists s s', ext2_get_block demo_rb demo_sb 10 demo_map_env demo_grown 15 1024 true = Ok (0, Some (BufferHead 20 1024 true false), s) /\
    ext2_write_begin demo_rb demo_sb 10 demo_map_env (fun _ => Ok (- ENOSPC, s)) 15360 2048 demo_grown = Ok (- ENOSPC, s') /\
    bmap 10 demo_map_env s 15 = 20 /\ bmap 10 demo_map_env s' 15 = 0 /\ bmap 10 demo_map_env s' 14 = 16.
Proof.
  assert (H : exists s, ext2_get_block demo_rb demo_sb 10 demo_map_env demo_grown 15 1024 true = Ok (0, Some (BufferHead 20 1024 true false), s) /\ bmap 10 demo_map_env s 15 = 20)
    by (eexists; split; vm_compute; reflexivity).
  destruct H as (s & E & Eb). destruct (failed_write_leaves_nothing_past_end demo_rb demo_sb 10 demo_map_env demo_grown (fun _ => Ok (- ENOSPC, s)) 15360 2048 (- ENOSPC) s)
    as (s' & E' & H).
  - apply demo_grown_ok.
  - vm_compute. reflexivity.
  - rewrite demo_grown_size. lia.
  - reflexivity.
  - reflexivity.
  - apply rtc_once. exists 15, 1024, true, 0, (Some (BufferHead 20 1024 true false)). split; [vm_compute; discriminate|exact E].
  - rewrite demo_grown_flags in H. destruct H as (_ & H1 & H2 & _). exists s, s'. split; [exact E|]. split; [exact E'|]. split; [exact Eb|]. split.
    + apply H1. rewrite demo_grown_size. lia.
    + rewrite H2; [apply demo_grown_map|rewrite demo_grown_size; lia|rewrite demo_grown_map; discriminate].
Defined.

(** [i_blocks], which the quota code keeps, follows the map: a call of
    [ext2_get_blocks] on a file without DAX or of [__ext2_truncate_blocks] changes it by as
    many blocks as the file has gained or lost, indirect blocks included, also when the
    call fails on the way. *)
Theorem i_blocks_follows_map rb `{!RbLaws rb} sb `{!SbWf sb, !BlkWf sb} blkbits `{!MapWf blkbits} env `{!EnvWf env} s s' :
  file_ok rb sb blkbits env s ->
  (is_dax s = false /\ exists i maxblocks create g, 1 <= maxblocks /\ ext2_get_blocks rb sb blkbits env s i maxblocks create = Ok (g, s')) \/
  (exists offset, 0 <= offset /\ __ext2_truncate_blocks rb sb blkbits env offset s = Ok s') ->
  inode_blocks blkbits s' - inode_blocks blkbits s =
  (Z.of_nat (length (file_blocks env s')) - Z.of_nat (length (file_blocks env s))) * Z.shiftr (EXT2_BLOCK_SIZE blkbits) 9.
Proof.
  intros Hf Hop. enough (Hc : ino_of s' = ino_of s /\ i_blocks (core (m_inode s')) = i_blocks (core (m_inode s)) /\ blocks_charged (m_blk s') (ino_of s) - blocks_charged (m_blk s) (ino_of s) =
    Z.of_nat (length (file_blocks env s')) - Z.of_nat (length (file_blocks env s))).
  { destruct Hc as (Hi & Hb & Hc). unfold inode_blocks. rewrite Hi, Hb. fold (blocks_charged (m_blk s') (ino_of s)) (blocks_charged (m_blk s) (ino_of s)). rewrite <- Hc. lia. }
  destruct Hop as [(Hd & i & maxb & create & g & Hm & E)|(offset & Ho & E)].
  - destruct (get_blocks_spec rb sb blkbits env s i maxb create Hf Hm) as (g0 & s0 & E0 & Hr). rewrite E in E0. injection E0 as <- <-.
    pose proof (get_grows rb sb blkbits env s i _ _ g s' Hf Hr) as [Hk _ (_ & _ & _ & Hb) _]. split; [apply Hk|]. split; [done|]. clear Hk Hb.
    destruct Hr as [| | |b g s1 _ _ _ _ [(num & x & N & _ & _ & Hmp & _)|(err & _ & _ & [Hg|[Hdax _]])]]; try lia; [| |congruence].
    + destruct (mp_took _ _ _ _ _ _ _ _ _ _ Hmp) as [Ht _]. rewrite (tu_charged _ _ _ _ _ _ Ht), decide_True by done.
      rewrite (Permutation_length (mp_blocks _ _ _ _ _ _ _ _ _ _ Hmp)), (length_app (file_blocks env s)). lia.
    + destruct (given_back_file rb sb blkbits env s s1 Hf Hg) as (_ & -> & _). rewrite (uc_charged _ _ _ _ (gb_blk _ _ _ _ _ Hg)). lia.
  - destruct (truncate_spec rb sb blkbits env s offset Hf Ho) as (s0 & L & E0 & Hr & _). rewrite E in E0. injection E0 as <-.
    split; [by apply (kp_ino _ _ _ _ _ _ (released_keeps rb sb blkbits env s s' L Hr))|].
    split; [apply (dirty_attrs (m_inode s)), Hr|].
    rewrite (tu_charged _ _ _ _ _ _ (re_turned _ _ _ _ _ _ _ Hr)), decide_True by done.
    rewrite (Permutation_length (re_blocks _ _ _ _ _ _ _ Hr)), length_app. lia.
Qed.

Lemma i_blocks_follows_map_witness : inode_blocks 10 demo_grown - inode_blocks 10 (demo_file 12 15000 0) = 4 * 2.
Proof.
  rewrite (i_blocks_follows_map demo_rb demo_sb 10 demo_map_env (demo_file 12 15000 0) demo_grown).
  - vm_compute. reflexivity.
  - apply demo_file_ok. discriminate.
  - left. split; [reflexivity|]. exists 12, 3, true, (Got 3 (Some 14) true false). split; [lia|]. vm_compute. reflexivity.
Defined.

(** When the disk cannot zero the new blocks of a DAX file, [ext2_get_blocks] fails and
    does not map them, but it does not give them back either: if it could allocate at all,
    there are blocks that were free, are now marked as used and charged to the inode, and
    belong to no place of the file. *)
Theorem dax_zeroout_failure_loses_blocks rb `{!RbLaws rb} sb `{!SbWf sb, !BlkWf sb} blkbits `{!MapWf blkbits} env `{!EnvWf env} s i maxblocks :
  file_ok rb sb blkbits env s -> is_dax s = true -> (forall x n, sb_issue_zeroout env x n <> 0) ->
  0 <= i < max_block blkbits -> bmap blkbits env s i = 0 -> 1 <= maxblocks ->
  exists err s', ext2_get_blocks rb sb blkbits env s i maxblocks true = Ok (Got err None false false, s') /\ err < 0 /\
    file_blocks env s' = file_blocks env s /\ (forall j, bmap blkbits env s' j = bmap blkbits env s j) /\
    ((forall y, in_zone sb y -> bbit sb (b_sbi (m_blk s')) y = bbit sb (b_sbi (m_blk s)) y) \/
     exists L, L <> [] /\ blocks_charged (m_blk s') (ino_of s) = blocks_charged (m_blk s) (ino_of s) + Z.of_nat (length L) /\
       forall y, y ∈ L -> bbit sb (b_sbi (m_blk s)) y = Some false /\ bbit sb (b_sbi (m_blk s')) y = Some true /\ (y ∉ file_blocks env s')).
Proof.
  intros Hf Hd Hz Hi H0 Hm. destruct (get_blocks_spec rb sb blkbits env s i maxblocks true Hf Hm) as (g & s' & E & Hr).
  inversion Hr as [| | |b g0 s0 _ _ _ _ Hfl]; subst; try done. destruct Hfl as [(num & x & N & _ & _ & _ & _ & Hzero)|(err & He & -> & Hs)]; [by destruct (Hz x num); apply Hzero|].
  exists err, s'. split; [done|]. split; [done|]. destruct Hs as [Hg|(_ & N & x & num & Hn & Hl & _)].
  - destruct (given_back_file rb sb blkbits env s s' Hf Hg) as (_ & Hb & Hbm). split_and!; [done..|]. left. apply (uc_bits _ _ _ _ (gb_blk _ _ _ _ _ Hg)).
  - destruct Hl as [Hf' Hb [Ht _] Hbm _ _ _]. split_and!; [done..|]. right. exists (N ++ seqZ x num). split_and!.
    + intros E0. apply (f_equal length) in E0. rewrite length_app, length_seqZ in E0. simpl in E0. lia.
    + by rewrite (tu_charged _ _ _ _ _ _ Ht), decide_True by done.
    + intros y Hy. destruct (tu_old _ _ _ _ _ _ Ht y Hy) as (Hzy & Hfree & _). split_and!; [done| |].
      * by destruct (turned_taken sb _ _ _ _ y Ht Hy) as (_ & ? & _).
      * rewrite Hb. intros Hin. destruct (file_used rb sb blkbits env s y Hf Hin) as (_ & Hu & _). by rewrite Hu in Hfree.
Qed.

Lemma dax_zeroout_failure_loses_blocks_witness :
  exists err s', ext2_get_blocks demo_rb demo_sb 10 demo_dax_env (demo_file 12 0 8192) 0 2 true = Ok (Got err None false false, s') /\
    file_blocks demo_dax_env s' = [] /\ s_freeblocks_counter (b_sbi (m_blk s')) = 23 /\ s_freeblocks_counter demo_sbi = 25.
Proof.
  destruct (dax_zeroout_failure_loses_blocks demo_rb demo_sb 10 demo_dax_env (demo_file 12 0 8192) 0 2) as (err & s' & E & _ & Hb & _).
  - apply demo_file_ok. discriminate.
  - reflexivity.
  - discriminate.
  - vm_compute. split; [discriminate|reflexivity].
  - reflexivity.
  - lia.
  - exists err, s'. split; [exact E|]. split; [exact Hb|]. vm_compute in E. injection E as _ <-. split; vm_compute; reflexivity.
Defined.
