(* ===== verification/Ext2Namei.v ===== *)
(** * ext2: operations on names

    [fs/ext2/namei.c]: the handlers that the VFS calls to look names up and to create,
    link, remove and rename files.  The state is the superblock with the inodes in memory;
    each inode has its own page cache, so [k] gives the kernel around each directory by its
    inode number.  [symlink_page] and [read_inode] stand for [page_symlink] and for
    [ext2_iget] of an inode that is not in memory.  The kernel is configured with extended
    attributes ([CONFIG_EXT2_FS_XATTR]). *)

From S2P Require Import Prelude CString ByteMem Ext2Layout Ext2Dir Ext2Super Ext2Inode Ext2Ialloc.

Definition ENOENT : Z := 2.
Definition ENAMETOOLONG : Z := 36.
Definition ENOTEMPTY : Z := 39.
Definition ESTALE : Z := 116.

Record fs : Type := Fs { f_sb : sbi; f_inodes : gmap Z inode }.

(** A directory entry of the cache: the directory, the name and the inode, if it has one. *)
Record dentry : Type := Dentry { d_parent : Z; d_name : list byte; d_inode : option Z }.

Definition d_instantiate (dentry : dentry) (ino : Z) : Ext2Namei.dentry :=
  Dentry (d_parent dentry) (d_name dentry) (Some ino).

Definition RENAME_NOREPLACE : Z := 1.

Section NameiC.
Context (k : Z -> kernel) (sbd : super) (sb : sb_info) (v : vfs) (release_blocks : inode -> sbi -> sbi).
Context (fresh_page : Z -> option (list byte)) (symlink_page : dir -> list byte -> Z * dir) (read_inode : Z -> Z + inode).

(** ** Inodes in memory *)

Definition get_inode (f : fs) (ino : Z) : res inode := deref (f_inodes f !! ino).
Definition put_inode (ino : Z) (n : inode) (f : fs) : fs := Fs (f_sb f) (<[ino := n]> (f_inodes f)).

Definition upd_inode (g : inode -> inode) (ino : Z) (f : fs) : res fs :=
  let* n := get_inode f ino in Ok (put_inode ino (g n) f).

(** A function of [dir.c] on the inode. *)
Definition on_dir {A} (g : dir -> res (A * dir)) (ino : Z) (f : fs) : res (A * fs) :=
  let* n := get_inode f ino in
  let* '(a, d) := g (core n) in Ok (a, put_inode ino (with_core d n) f).

Definition iput_inode (ino : Z) (f : fs) : res fs :=
  let* n := get_inode f ino in
  let* '(r, s) := iput sb release_blocks (f_sb f) n in
  Ok (Fs s (match r with Some n => <[ino := n]> (f_inodes f) | None => delete ino (f_inodes f) end)).

(** [ext2_iget]: the inode in memory, or one read from the disk. *)
Definition ext2_iget (ino : Z) (f : fs) : (Z + Z) * fs :=
  match f_inodes f !! ino with
  | Some n => (inr ino, put_inode ino (ihold n) f)
  | None =>
      match read_inode ino with
      | inl err => (inl err, f)
      | inr n => (inr ino, put_inode ino n f)
      end
  end.

Definition new_inode (f : fs) (dir mode : Z) : res ((Z + Z) * fs) :=
  let* d := get_inode f dir in
  let* '(r, s) := ext2_new_inode sb v release_blocks (dom (f_inodes f)) (f_sb f) d mode in
  match r with
  | inl err => Ok (inl err, Fs s (f_inodes f))
  | inr n => Ok (inr (i_ino (core n)), Fs s (<[i_ino (core n) := n]> (f_inodes f)))
  end.

(** [ext2_add_link] of the inode under the name of the dentry. *)
Definition add_link (dentry : dentry) (ino : Z) (f : fs) : res (Z * fs) :=
  let* n := get_inode f ino in
  on_dir (fun d => ext2_add_link (k (d_parent dentry)) sbd d (d_name dentry) (Target ino (i_mode (core n))))
    (d_parent dentry) f.

Definition find_entry (dir : Z) (name : list byte) (f : fs) : res (option (Z * Z) * fs) :=
  on_dir (fun d => ext2_find_entry (k dir) sbd d name) dir f.

Definition delete_entry (dir : Z) (de : Z * Z) (f : fs) : res (Z * fs) :=
  on_dir (fun d => ext2_delete_entry (k dir) sbd d (fst de) (snd de)) dir f.

Definition set_link (dir : Z) (de : Z * Z) (ino : Z) (times : bool) (f : fs) : res fs :=
  let* n := get_inode f ino in
  let* '(_, f) := on_dir (fun d =>
    let* d := ext2_set_link (k dir) sbd d (fst de) (snd de) (Target ino (i_mode (core n))) times in Ok (tt, d)) dir f in
  Ok f.

Definition set_aops (n : inode) : inode := with_aops (if NOBH sb then ext2_nobh_aops else ext2_aops) n.
Definition stamp_ctime (now : Z) (n : inode) : inode := with_core (with_ctime now (core n)) n.

(** ** Looking up *)

Definition ext2_lookup (dir : Z) (dentry : dentry) (f : fs) : res ((Z + Ext2Namei.dentry) * fs) :=
  if Z.of_nat EXT2_NAME_LEN <? len (d_name dentry) then Ok (inl (- ENAMETOOLONG), f)
  else
    let* '(ino, f) := on_dir (fun d => ext2_inode_by_name (k dir) sbd d (d_name dentry)) dir f in
    if ino =? 0 then Ok (inr dentry, f)
    else
      let '(r, f) := ext2_iget ino f in
      match r with
      | inl err =>
          if err =? - ESTALE then Ok (inl (- EIO), Fs (sb_report (DeletedInodeReferenced ino) (f_sb f)) (f_inodes f))
          else Ok (inl err, f)
      | inr ino => Ok (inr (d_instantiate dentry ino), f)
      end.

Definition ext2_get_parent (child : Z) (f : fs) : res ((Z + Z) * fs) :=
  let* '(ino, f) := on_dir (fun d => ext2_inode_by_name (k child) sbd d [dot; dot]) child f in
  if ino =? 0 then Ok (inl (- ENOENT), f) else Ok (ext2_iget ino f).

(** ** Creating *)

Definition ext2_add_nondir (dentry : dentry) (ino : Z) (f : fs) : res (Z * Ext2Namei.dentry * fs) :=
  let* '(err, f) := add_link dentry ino f in
  if err =? 0 then
    let* f := upd_inode unlock_new_inode ino f in Ok (0, d_instantiate dentry ino, f)
  else
    let* f := upd_inode inode_dec_link_count ino f in
    let* f := upd_inode unlock_new_inode ino f in
    let* f := iput_inode ino f in Ok (err, dentry, f).

Definition ext2_create (dir : Z) (dentry : dentry) (mode : Z) (f : fs) : res (Z * Ext2Namei.dentry * fs) :=
  let err := dquot_initialize v dir in
  if negb (err =? 0) then Ok (err, dentry, f)
  else
    let* '(r, f) := new_inode f dir mode in
    match r with
    | inl err => Ok (err, dentry, f)
    | inr ino =>
        let* f := upd_inode (fun n => mark_inode_dirty (set_aops (with_op ext2_file_inode_operations n))) ino f in
        ext2_add_nondir dentry ino f
    end.

(** [d_tmpfile] of [fs/dcache.c]: the dentry gets the inode number as its name. *)
Definition ext2_tmpfile (tmpname : Z -> list byte) (dir : Z) (dentry : dentry) (mode : Z) (f : fs) :
    res (Z * Ext2Namei.dentry * fs) :=
  let* '(r, f) := new_inode f dir mode in
  match r with
  | inl err => Ok (err, dentry, f)
  | inr ino =>
      let* f := upd_inode (fun n => mark_inode_dirty (set_aops (with_op ext2_file_inode_operations n))) ino f in
      let* f := upd_inode inode_dec_link_count ino f in
      let dentry := Dentry (d_parent dentry) (tmpname ino) (Some ino) in
      let* f := upd_inode unlock_new_inode ino f in
      Ok (0, dentry, f)
  end.

(** [init_special_inode] of [fs/inode.c]. *)
Definition S_IFCHR : Z := 8192.
Definition S_IFBLK : Z := 24576.
Definition init_special_inode (rdev : Z) (n : inode) : inode :=
  let fmt := Z.land (i_mode (core n)) S_IFMT in
  if (fmt =? S_IFCHR) || (fmt =? S_IFBLK) then with_rdev rdev n else n.

Definition ext2_mknod (dir : Z) (dentry : dentry) (mode rdev : Z) (f : fs) : res (Z * Ext2Namei.dentry * fs) :=
  let err := dquot_initialize v dir in
  if negb (err =? 0) then Ok (err, dentry, f)
  else
    let* '(r, f) := new_inode f dir mode in
    match r with
    | inl err => Ok (err, dentry, f)
    | inr ino =>
        let* f := upd_inode
          (fun n => mark_inode_dirty (with_op ext2_special_inode_operations (init_special_inode rdev n))) ino f in
        ext2_add_nondir dentry ino f
    end.

(** The bytes of [i_data]. *)
Definition SIZEOF_I_DATA : Z := 60.

Definition ext2_symlink (dir : Z) (dentry : dentry) (symname : list byte) (f : fs) : res (Z * Ext2Namei.dentry * fs) :=
  let l := len symname + 1 in
  if s_blocksize sbd <? l then Ok (- ENAMETOOLONG, dentry, f)
  else
    let err := dquot_initialize v dir in
    if negb (err =? 0) then Ok (err, dentry, f)
    else
      let* '(r, f) := new_inode f dir (Z.lor S_IFLNK S_IRWXUGO) in
      match r with
      | inl err => Ok (err, dentry, f)
      | inr ino =>
          if SIZEOF_I_DATA <? l then
            let* f := upd_inode (fun n => set_aops (with_op ext2_symlink_inode_operations n)) ino f in
            let* '(err, f) := on_dir (fun d => Ok (symlink_page d symname)) ino f in
            if negb (err =? 0) then
              let* f := upd_inode inode_dec_link_count ino f in
              let* f := upd_inode unlock_new_inode ino f in
              let* f := iput_inode ino f in Ok (err, dentry, f)
            else
              let* f := upd_inode mark_inode_dirty ino f in ext2_add_nondir dentry ino f
          else
            let* f := upd_inode (fun n =>
              let n := with_link (Some symname) (with_op ext2_fast_symlink_inode_operations n) in
              mark_inode_dirty (with_core (set_size (l - 1) (core n)) n)) ino f in
            ext2_add_nondir dentry ino f
      end.

Definition ext2_link (ino dir : Z) (dentry : dentry) (f : fs) : res (Z * Ext2Namei.dentry * fs) :=
  let err := dquot_initialize v dir in
  if negb (err =? 0) then Ok (err, dentry, f)
  else
    let* f := upd_inode (fun n => ihold (inode_inc_link_count (stamp_ctime (vfs_time v) n))) ino f in
    let* '(err, f) := add_link dentry ino f in
    if err =? 0 then Ok (0, d_instantiate dentry ino, f)
    else
      let* f := upd_inode inode_dec_link_count ino f in
      let* f := iput_inode ino f in Ok (err, dentry, f).

Definition ext2_mkdir (dir : Z) (dentry : dentry) (mode : Z) (f : fs) : res (Z * Ext2Namei.dentry * fs) :=
  let err := dquot_initialize v dir in
  if negb (err =? 0) then Ok (err, dentry, f)
  else
    let* f := upd_inode inode_inc_link_count dir f in
    let out_dir err f := let* f := upd_inode inode_dec_link_count dir f in Ok (err, dentry, f) in
    let* '(r, f) := new_inode f dir (Z.lor S_IFDIR mode) in
    match r with
    | inl err => out_dir err f
    | inr ino =>
        let out_fail err f :=
          let* f := upd_inode inode_dec_link_count ino f in
          let* f := upd_inode inode_dec_link_count ino f in
          let* f := upd_inode unlock_new_inode ino f in
          let* f := iput_inode ino f in out_dir err f in
        let* f := upd_inode (fun n => inode_inc_link_count (set_aops (with_op ext2_dir_inode_operations n))) ino f in
        let* '(err, f) := on_dir (fun d => ext2_make_empty (k ino) sbd (fresh_page ino) d dir) ino f in
        if negb (err =? 0) then out_fail err f
        else
          let* '(err, f) := add_link dentry ino f in
          if negb (err =? 0) then out_fail err f
          else
            let* f := upd_inode unlock_new_inode ino f in
            Ok (0, d_instantiate dentry ino, f)
    end.

(** ** Removing *)

Definition ext2_unlink (dir : Z) (dentry : dentry) (f : fs) : res (Z * fs) :=
  let err := dquot_initialize v dir in
  if negb (err =? 0) then Ok (err, f)
  else
    let* '(de, f) := find_entry dir (d_name dentry) f in
    match de with
    | None => Ok (- ENOENT, f)
    | Some de =>
        let* '(err, f) := delete_entry dir de f in
        if negb (err =? 0) then Ok (err, f)
        else
          let* d := get_inode f dir in
          let* ino := deref (d_inode dentry) in
          let* f := upd_inode (fun n => inode_dec_link_count (stamp_ctime (i_ctime (core d)) n)) ino f in
          Ok (0, f)
    end.

Definition ext2_rmdir (dir : Z) (dentry : dentry) (f : fs) : res (Z * fs) :=
  let* ino := deref (d_inode dentry) in
  let* '(empty, f) := on_dir (fun d => ext2_empty_dir (k ino) sbd d) ino f in
  if empty : bool then
    let* '(err, f) := ext2_unlink dir dentry f in
    if err =? 0 then
      let* f := upd_inode (fun n => inode_dec_link_count (with_core (set_size 0 (core n)) n)) ino f in
      let* f := upd_inode inode_dec_link_count dir f in Ok (0, f)
    else Ok (err, f)
  else Ok (- ENOTEMPTY, f).

(** ** Renaming *)

(** The tail of [ext2_rename]: the old entry goes, and [..] of a moved directory changes. *)
Definition rename_finish (old_dir new_dir old_inode : Z) (old_de : Z * Z) (dir_de : option (Z * Z)) (f : fs) : res (Z * fs) :=
  let* f := upd_inode (fun n => mark_inode_dirty (stamp_ctime (vfs_time v) n)) old_inode f in
  let* '(_, f) := delete_entry old_dir old_de f in
  match dir_de with
  | None => Ok (0, f)
  | Some dir_de =>
      let* f := if negb (old_dir =? new_dir) then set_link old_inode dir_de new_dir false f else Ok f in
      let* f := upd_inode inode_dec_link_count old_dir f in Ok (0, f)
  end.

(** Its middle part: the new name is given to the inode. *)
Definition rename_target (new_dir old_inode : Z) (new_dentry : dentry) (is_dir : bool) (f : fs) : res (Z * fs) :=
  match d_inode new_dentry with
  | Some new_inode =>
      let* '(empty, f) := (if is_dir then on_dir (fun d => ext2_empty_dir (k new_inode) sbd d) new_inode f
                           else Ok (true, f)) in
      if negb empty then Ok (- ENOTEMPTY, f)
      else
        let* '(new_de, f) := find_entry new_dir (d_name new_dentry) f in
        match new_de with
        | None => Ok (- ENOENT, f)
        | Some new_de =>
            let* f := set_link new_dir new_de old_inode true f in
            let* f := upd_inode (fun n =>
              let n := stamp_ctime (vfs_time v) n in
              inode_dec_link_count (if is_dir then drop_nlink n else n)) new_inode f in
            Ok (0, f)
        end
  | None =>
      let* '(err, f) := add_link new_dentry old_inode f in
      if negb (err =? 0) then Ok (err, f)
      else if is_dir then let* f := upd_inode inode_inc_link_count new_dir f in Ok (0, f)
      else Ok (0, f)
  end.

Definition ext2_rename (old_dir : Z) (old_dentry : dentry) (new_dir : Z) (new_dentry : dentry) (flags : Z) (f : fs) :
    res (Z * fs) :=
  if negb (Z.land flags (u32 (Z.lnot RENAME_NOREPLACE)) =? 0) then Ok (- EINVAL, f)
  else if negb (dquot_initialize v old_dir =? 0) then Ok (dquot_initialize v old_dir, f)
  else if negb (dquot_initialize v new_dir =? 0) then Ok (dquot_initialize v new_dir, f)
  else
    let* '(old_de, f) := find_entry old_dir (d_name old_dentry) f in
    match old_de with
    | None => Ok (- ENOENT, f)
    | Some old_de =>
        let* old_inode := deref (d_inode old_dentry) in
        let* n := get_inode f old_inode in
        let is_dir := S_ISDIR (i_mode (core n)) in
        let* '(dotdot, f) := (if is_dir then on_dir (fun d => ext2_dotdot (k old_inode) sbd d) old_inode f
                              else Ok (None, f)) in
        match dotdot, is_dir with
        | None, true => Ok (- EIO, f)
        | _, _ =>
            let* '(err, f) := rename_target new_dir old_inode new_dentry is_dir f in
            if negb (err =? 0) then Ok (err, f)
            else rename_finish old_dir new_dir old_inode old_de ((fun o => (0, o)) <$> dotdot) f
        end
    end.
End NameiC.
