(* ===== verification/Ext2Tree.v ===== *)
(** * ext2: link counts and the directory tree

    The abstract state that the operations of [fs/ext2/namei.c] implement: for each inode
    whether it is a directory, its link count and, of a directory in use, the map of its
    entries.  [balanced] says that every link count is the number of entries that refer
    to the inode; [tree_ok] that the directories form a tree through their entries and
    their entries [..].  The changes that the operations make keep both. *)

From stdpp Require Import functions.
From S2P Require Import Prelude CString ByteMem Ext2Layout Ext2Dir Ext2DirRep.

(** ** Sums over finite maps *)

Section MapSum.
Context `{Countable K} {A : Type} (f : K -> A -> Z).

Definition msum (m : gmap K A) : Z := map_fold (fun i x acc => f i x + acc) 0 m.

Lemma msum_empty : msum ∅ = 0.
Proof using. apply map_fold_empty. Qed.

Lemma msum_insert m i x : m !! i = None -> msum (<[i := x]> m) = f i x + msum m.
Proof using. intros Hi. unfold msum. rewrite map_fold_insert_L; [done|intros; lia|done]. Qed.

Lemma msum_delete m i x : m !! i = Some x -> msum m = f i x + msum (delete i m).
Proof using.
  intros Hi. rewrite <- (insert_delete_id m i x Hi) at 1. apply msum_insert, lookup_delete_eq.
Qed.

Lemma msum_update m i x y : m !! i = Some x -> msum (<[i := y]> m) = msum m - f i x + f i y.
Proof using.
  intros Hi. rewrite (msum_delete m i x Hi), <- insert_delete_eq, msum_insert by apply lookup_delete_eq. lia.
Qed.

Lemma msum_zero m : (forall i x, m !! i = Some x -> f i x = 0) -> msum m = 0.
Proof using.
  induction m as [|i x m Hi IH] using map_ind; intros Hz; [apply msum_empty|].
  rewrite msum_insert, (Hz i x), IH; [done| |apply lookup_insert_eq|done].
  intros j y Hj. apply Hz. rewrite lookup_insert_ne; [done|congruence].
Qed.

Lemma msum_ge m : (forall i x, 0 <= f i x) -> 0 <= msum m /\ forall i x, m !! i = Some x -> f i x <= msum m.
Proof using.
  intros Hf. induction m as [|i x m Hi [IH1 IH2]] using map_ind; [rewrite msum_empty; by split|].
  rewrite msum_insert by done. pose proof (Hf i x). split; [lia|].
  intros j y [[<- <-]|[_ Hj]]%lookup_insert_Some; [lia|]. specialize (IH2 j y Hj). lia.
Qed.
End MapSum.

(** ** The tree *)

Record node : Type := Node { n_isdir : bool; n_links : Z; n_dir : option dirmap }.
Notation tree := (gmap Z node).

Definition dir_of (t : tree) (d : Z) : option dirmap := t !! d ≫= n_dir.

(** The links of an inode, and the entries that refer to it. *)
Definition links (t : tree) (i : Z) : Z := match t !! i with Some n => n_links n | None => 0 end.

Definition one (b : bool) : Z := if b then 1 else 0.
Definition refs_in (i : Z) (m : dirmap) : Z := msum (fun _ j => one (bool_decide (j = i))) m.
Definition node_refs (i : Z) (n : node) : Z := match n_dir n with Some m => refs_in i m | None => 0 end.
Definition refs (t : tree) (i : Z) : Z := msum (fun _ n => node_refs i n) t.

Definition balance (t : tree) (i : Z) : Z := links t i - refs t i.
Definition balanced (t : tree) : Prop := forall i, balance t i = 0.

(** ** Changes *)

Definition set_dir (d : Z) (m : option dirmap) (t : tree) : tree :=
  alter (fun n => Node (n_isdir n) (n_links n) m) d t.
Definition add_links (i : Z) (l : Z) (t : tree) : tree :=
  alter (fun n => Node (n_isdir n) (n_links n + l) (n_dir n)) i t.
Definition put_entry (d : Z) (name : list byte) (i : Z) (t : tree) : tree :=
  match dir_of t d with Some m => set_dir d (Some (<[name := i]> m)) t | None => t end.
Definition del_entry (d : Z) (name : list byte) (t : tree) : tree :=
  match dir_of t d with Some m => set_dir d (Some (delete name m)) t | None => t end.

Lemma one_range b : 0 <= one b <= 1.
Proof. destruct b; simpl; lia. Qed.

Lemma refs_in_nonneg i m : 0 <= refs_in i m.
Proof. apply msum_ge. intros. apply one_range. Qed.

Lemma refs_in_put i m name j : refs_in i (<[name := j]> m) =
  refs_in i m + one (bool_decide (j = i)) - match m !! name with Some j' => one (bool_decide (j' = i)) | None => 0 end.
Proof.
  unfold refs_in. destruct (m !! name) as [j'|] eqn:E.
  - rewrite (msum_update _ m name j' j E). lia.
  - rewrite msum_insert by done. lia.
Qed.

Lemma refs_in_delete i m name j : m !! name = Some j -> refs_in i (delete name m) = refs_in i m - one (bool_decide (j = i)).
Proof. intros E. unfold refs_in. rewrite (msum_delete _ m name j E). lia. Qed.

Lemma refs_in_new_dir i ino p : refs_in i (new_dir ino p) = one (bool_decide (ino = i)) + one (bool_decide (p = i)).
Proof.
  unfold new_dir, refs_in. rewrite msum_insert by done. rewrite <- insert_empty, msum_insert, msum_empty by done. lia.
Qed.

Lemma node_refs_nonneg i n : 0 <= node_refs i n.
Proof. unfold node_refs. destruct (n_dir n); [apply refs_in_nonneg|done]. Qed.

Lemma dir_of_Some t d m : dir_of t d = Some m <-> exists n, t !! d = Some n /\ n_dir n = Some m.
Proof. unfold dir_of. rewrite bind_Some. done. Qed.

Lemma refs_entry t d m name i : dir_of t d = Some m -> m !! name = Some i -> 1 <= refs t i.
Proof.
  intros (n & En & Em)%dir_of_Some Hm. unfold refs.
  pose proof (proj2 (msum_ge (fun _ n => node_refs i n) t (fun _ n => node_refs_nonneg i n)) d n En) as H1.
  unfold node_refs in H1 at 1. rewrite Em in H1.
  pose proof (proj2 (msum_ge (fun (_ : list byte) (j : Z) => one (bool_decide (j = i))) m (fun _ _ => proj1 (one_range _))) name i Hm) as H2.
  simpl in H2. rewrite bool_decide_true in H2 by done. unfold refs_in in H1. simpl in H2. lia.
Qed.

(** Each change, as far as the balance goes. *)
Lemma balance_node (t : tree) i n n' : t !! i = Some n -> forall j, balance (<[i := n']> t) j =
  balance t j + (if decide (j = i) then n_links n' - n_links n else 0) + node_refs j n - node_refs j n'.
Proof.
  intros E j. unfold balance, links, refs. rewrite (msum_update _ t i n n' E).
  destruct (decide (j = i)) as [->|]; [rewrite lookup_insert_eq, E|rewrite lookup_insert_ne by done]; lia.
Qed.

Lemma alter_insert (g : node -> node) (t : tree) i n : t !! i = Some n -> alter g i t = <[i := g n]> t.
Proof.
  intros E. apply map_eq. intros j. destruct (decide (j = i)) as [->|].
  - by rewrite lookup_alter_eq, lookup_insert_eq, E.
  - by rewrite lookup_alter_ne, lookup_insert_ne by done.
Qed.

Lemma balance_links (t : tree) i l : is_Some (t !! i) -> forall j, balance (add_links i l t) j = balance t j + (if decide (j = i) then l else 0).
Proof.
  intros [n E] j. unfold add_links. rewrite (alter_insert _ t i n E), (balance_node t i n _ E j).
  unfold node_refs. cbn [n_dir n_links]. case_decide; lia.
Qed.

Lemma balance_set_dir (t : tree) d m m' : dir_of t d = Some m -> forall j, balance (set_dir d m' t) j =
  balance t j + refs_in j m - match m' with Some m' => refs_in j m' | None => 0 end.
Proof.
  intros (n & En & Em)%dir_of_Some j. unfold set_dir. rewrite (alter_insert _ t d n En), (balance_node t d n _ En j).
  unfold node_refs. rewrite Em. cbn [n_dir n_links]. case_decide; lia.
Qed.

Lemma balance_put (t : tree) d m name i : dir_of t d = Some m -> forall j, balance (put_entry d name i t) j =
  balance t j - one (bool_decide (i = j)) + match m !! name with Some i' => one (bool_decide (i' = j)) | None => 0 end.
Proof.
  intros E j. unfold put_entry. rewrite E, (balance_set_dir t d m _ E j), refs_in_put. lia.
Qed.

Lemma balance_del (t : tree) d m name i : dir_of t d = Some m -> m !! name = Some i -> forall j,
  balance (del_entry d name t) j = balance t j + one (bool_decide (i = j)).
Proof.
  intros E En j. unfold del_entry. rewrite E, (balance_set_dir t d m _ E j), (refs_in_delete j m name i En). lia.
Qed.

Lemma balance_new (t : tree) i n : t !! i = None -> forall j, balance (<[i := n]> t) j =
  balance t j + (if decide (j = i) then n_links n else 0) - node_refs j n.
Proof.
  intros E j. unfold balance, links, refs. rewrite msum_insert by done.
  destruct (decide (j = i)) as [->|]; [rewrite lookup_insert_eq, E|rewrite lookup_insert_ne by done]; lia.
Qed.

Lemma balance_gone (t : tree) i n : t !! i = Some n -> forall j, balance (delete i t) j =
  balance t j - (if decide (j = i) then n_links n else 0) + node_refs j n.
Proof.
  intros E j. unfold balance, links, refs. rewrite (msum_delete _ t i n E).
  destruct (decide (j = i)) as [->|]; [rewrite lookup_delete_eq, E|rewrite lookup_delete_ne by done]; lia.
Qed.

(** ** The shape of the tree *)

Definition dotname : list byte := [dot].
Definition dotdotname : list byte := [dot; dot].
Definition ordinary (name : list byte) : Prop := name <> dotname /\ name <> dotdotname.

(** From a directory to the one that its [..] refers to. *)
Definition up (D : Z -> option dirmap) (d p : Z) : Prop := exists m, D d = Some m /\ m !! dotdotname = Some p.

(** [D] gives the entries of the directories in use: each has [.] and [..]; every one but the
    root is named by exactly one entry, in the directory that its [..] refers to; and the
    way up from each of them ends at the root. *)
Record tree_ok (root : Z) (D : Z -> option dirmap) : Prop := {
  tr_root : exists m, D root = Some m /\ m !! dotdotname = Some root;
  tr_dot d m : D d = Some m -> m !! dotname = Some d;
  tr_dotdot d m : D d = Some m -> exists p mp, m !! dotdotname = Some p /\ D p = Some mp;
  tr_up d m name c mc : D d = Some m -> ordinary name -> m !! name = Some c -> D c = Some mc ->
    c <> root /\ mc !! dotdotname = Some d;
  tr_once d m n1 n2 c mc : D d = Some m -> ordinary n1 -> ordinary n2 -> m !! n1 = Some c -> m !! n2 = Some c ->
    D c = Some mc -> n1 = n2;
  tr_child c mc p mp : D c = Some mc -> c <> root -> mc !! dotdotname = Some p -> D p = Some mp ->
    exists name, ordinary name /\ mp !! name = Some c;
  tr_rooted d m : D d = Some m -> rtc (up D) d root }.

Lemma up_mono (D D' : Z -> option dirmap) d root : (forall x p, up D x p -> up D' x p) -> rtc (up D) d root -> rtc (up D') d root.
Proof. intros H Hr. by apply (rtc_subrel (up D) (up D')). Qed.

(** A directory below the root is not its own parent. *)
Lemma no_self (root : Z) (D : Z -> option dirmap) d m : tree_ok root D -> D d = Some m -> m !! dotdotname = Some d -> d = root.
Proof.
  intros HT Hd Hp. induction (tr_rooted _ _ HT d m Hd) as [|x y z (m' & Hx & Hy) _ IH]; [done|].
  assert (x = y) as <- by congruence. by apply IH.
Qed.

Lemma tree_ok_ext (root : Z) (D : Z -> option dirmap) D' : (forall d, D' d = D d) -> tree_ok root D -> tree_ok root D'.
Proof.
  intros E [T1 T2 T3 T4 T5 T6 T7]. split; intros *; rewrite ?E; eauto.
  - intros H. destruct (T3 _ _ H) as (p & mp & ? & ?). exists p, mp. by rewrite E.
  - intros H. apply (up_mono D); [|by eapply T7]. intros x p (mx & ? & ?). exists mx. by rewrite E.
Qed.

(** One directory's map changes in what is not a directory. *)
Lemma tree_files (root : Z) (D : Z -> option dirmap) (d : Z) (m m' : dirmap) : tree_ok root D -> D d = Some m ->
  m' !! dotname = m !! dotname -> m' !! dotdotname = m !! dotdotname ->
  (forall name c mc, ordinary name -> D c = Some mc -> m' !! name = Some c <-> m !! name = Some c) ->
  tree_ok root (<[d := Some m']> D).
Proof.
  intros HT Hd E1 E2 Ho. assert (HT0 := HT). destruct HT0 as [T1 T2 T3 T4 T5 T6 T7].
  assert (Hin : forall x mx, <[d := Some m']> D x = Some mx -> exists m0, D x = Some m0 /\ mx !! dotname = m0 !! dotname /\
    mx !! dotdotname = m0 !! dotdotname /\ forall name c mc, ordinary name -> D c = Some mc -> mx !! name = Some c <-> m0 !! name = Some c).
  { intros x mx. destruct (decide (x = d)) as [->|]; [rewrite fn_lookup_insert; intros [= <-]; eauto|].
    rewrite fn_lookup_insert_ne by done. intros H. exists mx. auto. }
  assert (Hout : forall x mx, D x = Some mx -> exists m0, <[d := Some m']> D x = Some m0 /\ m0 !! dotdotname = mx !! dotdotname /\
    forall name c mc, ordinary name -> D c = Some mc -> m0 !! name = Some c <-> mx !! name = Some c).
  { intros x mx Hx. destruct (decide (x = d)) as [->|]; [|exists mx; rewrite fn_lookup_insert_ne by done; auto].
    rewrite fn_lookup_insert. replace mx with m by congruence. eauto. }
  split.
  - destruct T1 as (mr & Hr & Hrr). destruct (Hout _ _ Hr) as (m0 & ? & ? & _). exists m0. split; [done|congruence].
  - intros x mx (m0 & Hx & -> & _)%Hin. by apply T2.
  - intros x mx (m0 & Hx & _ & -> & _)%Hin. destruct (T3 _ _ Hx) as (p & mp & Hp & HDp).
    destruct (Hout _ _ HDp) as (m1 & ? & _). exists p, m1. auto.
  - intros x mx name c mc (m0 & Hx & _ & _ & H0)%Hin Hn Hc (mc0 & Hcc & _ & -> & _)%Hin. apply (H0 name c mc0) in Hc; [|done..]. eauto.
  - intros x mx n1 n2 c mc (m0 & Hx & _ & _ & H0)%Hin Hn1 Hn2 Hc1 Hc2 (mc0 & Hcc & _)%Hin.
    apply (H0 _ c mc0) in Hc1, Hc2; [|done..]. eauto.
  - intros c mc p mp (mc0 & Hc & _ & -> & _)%Hin Hne Hp (mp0 & Hmp & _ & _ & H0)%Hin.
    destruct (T6 c mc0 p mp0 Hc Hne Hp Hmp) as (name & Hn & Hl). exists name. split; [done|]. by apply (H0 name c mc0).
  - intros x mx (m0 & Hx & _)%Hin. apply (up_mono D); [|by eapply T7]. intros y p (my & Hy & Hp). destruct (Hout _ _ Hy) as (m1 & ? & E & _). exists m1. by rewrite E.
Qed.

Lemma tree_put_file (root : Z) (D : Z -> option dirmap) (d : Z) (m : dirmap) name (i : Z) : tree_ok root D -> D d = Some m -> ordinary name -> D i = None ->
  (forall j, m !! name = Some j -> D j = None) -> tree_ok root (<[d := Some (<[name := i]> m)]> D).
Proof.
  intros HT Hd [Hn1 Hn2] Hi Hj. apply (tree_files root D d m); [done|done|by rewrite lookup_insert_ne..|].
  intros n c mc _ Hc. destruct (decide (n = name)) as [->|]; [|by rewrite lookup_insert_ne].
  rewrite lookup_insert_eq. split; [intros [= ->]; congruence|]. intros Hx%Hj. congruence.
Qed.

Lemma tree_del_file (root : Z) (D : Z -> option dirmap) (d : Z) (m : dirmap) name (i : Z) : tree_ok root D -> D d = Some m -> ordinary name -> m !! name = Some i -> D i = None ->
  tree_ok root (<[d := Some (delete name m)]> D).
Proof.
  intros HT Hd [Hn1 Hn2] Hm Hi. apply (tree_files root D d m); [done|done|by rewrite lookup_delete_ne..|].
  intros n c mc _ Hc. destruct (decide (n = name)) as [->|]; [|by rewrite lookup_delete_ne].
  rewrite lookup_delete_eq. split; [done|congruence].
Qed.

(** A directory that nothing refers to is added. *)
Lemma tree_mkdir (root : Z) (D : Z -> option dirmap) (d : Z) (m : dirmap) name (c : Z) : tree_ok root D -> D d = Some m -> ordinary name -> m !! name = None -> D c = None ->
  (forall x mx n, D x = Some mx -> mx !! n <> Some c) ->
  tree_ok root (<[d := Some (<[name := c]> m)]> (<[c := Some (new_dir c d)]> D)).
Proof.
  intros HT Hd Hord Hnone Hc Hnew. assert (HT0 := HT). destruct HT0 as [T1 T2 T3 T4 T5 T6 T7]. assert (Hdc : d <> c) by congruence.
  destruct Hord as [Hn1 Hn2]. set (D' := <[d := _]> _).
  assert (Hd' : D' d = Some (<[name := c]> m)) by apply fn_lookup_insert.
  assert (Hc' : D' c = Some (new_dir c d)) by (unfold D'; by rewrite fn_lookup_insert_ne, fn_lookup_insert).
  assert (Hx' : forall x, x <> d -> x <> c -> D' x = D x) by (intros; unfold D'; by rewrite !fn_lookup_insert_ne).
  assert (Hnd : forall n i, new_dir c d !! n = Some i -> n = dotname /\ i = c \/ n = dotdotname /\ i = d).
  { intros n i Hni. unfold new_dir in Hni. apply lookup_insert_Some in Hni as [[<- <-]|[_ Hni]]; [auto|].
    apply lookup_singleton_Some in Hni as [<- <-]. auto. }
  assert (Hold : forall x mx, D' x = Some mx -> x <> c -> exists m0, D x = Some m0 /\
    (forall n, n <> name \/ x <> d -> mx !! n = m0 !! n) /\ (x = d -> mx !! name = Some c)).
  { intros x mx Hx Hxc. destruct (decide (x = d)) as [->|]; [|rewrite Hx' in Hx by done; by exists mx].
    rewrite Hd' in Hx. injection Hx as <-. exists m. split; [done|]. split; [|intros; apply lookup_insert_eq].
    intros n [?|?]; [by rewrite lookup_insert_ne|done]. }
  assert (HD : forall x m0, D x = Some m0 -> exists mx, D' x = Some mx).
  { intros x m0 Hx. destruct (decide (x = d)) as [->|]; [eauto|]. rewrite Hx'; [eauto|done|congruence]. }
  split.
  - destruct T1 as (mr & Hr & Hrr). destruct (HD _ _ Hr) as [mx Hmx]. exists mx. split; [done|].
    destruct (Hold root mx Hmx) as (m0 & E & Hl & _); [congruence|]. rewrite Hl by auto. congruence.
  - intros x mx Hx. destruct (decide (x = c)) as [->|Hxc]; [rewrite Hc' in Hx; by injection Hx as <-|].
    destruct (Hold x mx Hx Hxc) as (m0 & E & Hl & _). rewrite Hl by auto. by apply T2.
  - intros x mx Hx. destruct (decide (x = c)) as [->|Hxc]; [rewrite Hc' in Hx; injection Hx as <-; eauto|].
    destruct (Hold x mx Hx Hxc) as (m0 & E & Hl & _). destruct (T3 _ _ E) as (p & mp & Hp & Hmp).
    destruct (HD _ _ Hmp) as [mx' ?]. exists p, mx'. rewrite Hl by auto. auto.
  - intros x mx n i mi Hx Hn Hl Hi. destruct (decide (x = c)) as [->|Hxc].
    { rewrite Hc' in Hx. injection Hx as <-. destruct Hn. by apply Hnd in Hl as [[-> _]|[-> _]]. }
    destruct (Hold x mx Hx Hxc) as (m0 & E & Hll & Hlc). destruct (decide (i = c)) as [->|Hic].
    + rewrite Hc' in Hi. injection Hi as <-. split; [destruct T1 as (mr & Hr & _); congruence|].
      destruct (decide (n = name /\ x = d)) as [[-> ->]|Hnn]; [done|]. rewrite Hll in Hl by (destruct (decide (n = name)); [right; tauto|auto]). by apply (Hnew x m0 n E) in Hl.
    + assert (Hnn : n <> name \/ x <> d).
      { destruct (decide (n = name)) as [->|]; [|auto]. right. intros ->. rewrite Hlc in Hl by done. congruence. }
      rewrite Hll in Hl by done. destruct (Hold i mi Hi Hic) as (mi0 & Ei & Hli & _). rewrite Hli by auto. eauto.
  - intros x mx n1 n2 i mi Hx Ho1 Ho2 H1 H2 Hi. destruct (decide (x = c)) as [->|Hxc].
    { rewrite Hc' in Hx. injection Hx as <-. destruct Ho1. by apply Hnd in H1 as [[-> _]|[-> _]]. }
    destruct (Hold x mx Hx Hxc) as (m0 & E & Hll & Hlc).
    assert (Hcase : forall n, mx !! n = Some i -> i = c -> n = name).
    { intros n Hn ->. destruct (decide (n = name)); [done|]. rewrite Hll in Hn by auto. by apply (Hnew x m0 n E) in Hn. }
    destruct (decide (i = c)) as [Eic|Hic]; [rewrite (Hcase n1), (Hcase n2) by done; done|].
    assert (Hnn : forall n, mx !! n = Some i -> m0 !! n = Some i).
    { intros n Hn. rewrite <- Hll; [done|]. destruct (decide (n = name)) as [->|]; [|auto]. right. intros ->.
      rewrite Hlc in Hn by done. congruence. }
    destruct (Hold i mi Hi Hic) as (mi0 & Ei & _). by apply (T5 x m0 n1 n2 i mi0); auto.
  - intros i mi p mp Hi Hne Hp Hmp. destruct (decide (i = c)) as [->|Hic].
    + rewrite Hc' in Hi. injection Hi as <-. assert (p = d) as -> by by injection Hp. rewrite Hd' in Hmp. injection Hmp as <-.
      exists name. split; [by split|apply lookup_insert_eq].
    + destruct (Hold i mi Hi Hic) as (mi0 & Ei & Hli & _). rewrite Hli in Hp by auto.
      destruct (decide (p = c)) as [->|Hpc]; [by apply (Hnew i mi0 _ Ei) in Hp|]. destruct (Hold p mp Hmp Hpc) as (mp0 & Emp & Hlp & _).
      destruct (T6 i mi0 p mp0 Ei Hne Hp Emp) as (n & Hn & Hl). exists n. split; [done|]. rewrite Hlp; [done|].
      destruct (decide (n = name)) as [->|]; [|auto]. right. intros ->. congruence.
  - assert (Hup : forall y m0, D y = Some m0 -> rtc (up D') y root).
    { intros y m0 Hy. apply (up_mono D); [|by eapply T7]. intros z p (mz & Hz & Hp). destruct (HD _ _ Hz) as [mz' Hz']. exists mz'. split; [done|].
      destruct (Hold z mz' Hz') as (m1 & E & Hl & _); [congruence|]. rewrite Hl by auto. congruence. }
    intros x mx Hx. destruct (decide (x = c)) as [->|Hxc]; [|by destruct (Hold x mx Hx Hxc) as (m0 & E & _); eapply Hup].
    apply rtc_l with d; [by exists (new_dir c d)|by eapply Hup].
Qed.

(** Nothing but its entry and its own [.] refers to an empty directory. *)
Lemma empty_unreferenced (root : Z) (D : Z -> option dirmap) (c : Z) mc : tree_ok root D -> D c = Some mc -> c <> root ->
  (forall n i, mc !! n = Some i -> ~ ordinary n) -> forall x mx, D x = Some mx -> mx !! dotdotname <> Some c.
Proof.
  intros [T1 T2 T3 T4 T5 T6 _] Hc Hcr He x mx Hx Hp. destruct (decide (x = root)) as [->|Hxr].
  - destruct T1 as (mr & Hr & Hrr). congruence.
  - destruct (T6 x mx c mc Hx Hxr Hp Hc) as (n & Hn & Hl). by apply (He n x).
Qed.

Lemma tree_rmdir (root : Z) (D : Z -> option dirmap) (d : Z) (m : dirmap) name (c : Z) mc : tree_ok root D -> D d = Some m ->
  ordinary name -> m !! name = Some c -> D c = Some mc -> (forall n i, mc !! n = Some i -> ~ ordinary n) ->
  tree_ok root (<[d := Some (delete name m)]> (<[c := None]> D)).
Proof.
  intros HT Hd Hord Hl Hc He. assert (HT0 := HT). destruct HT0 as [T1 T2 T3 T4 T5 T6 T7].
  destruct (T4 d m name c mc Hd Hord Hl Hc) as [Hcr Hcd]. pose proof (empty_unreferenced root D c mc HT Hc Hcr He) as Hun.
  assert (Hdc : d <> c). { intros ->. replace mc with m in He by congruence. by apply (He name c). }
  destruct Hord as [Hn1 Hn2]. set (D' := <[d := _]> _).
  assert (Hin : forall x mx, D' x = Some mx -> x <> c /\ exists m0, D x = Some m0 /\
    (forall n, ~ (x = d /\ n = name) -> mx !! n = m0 !! n) /\ (x = d -> mx !! name = None)).
  { intros x mx Hx. unfold D' in Hx. destruct (decide (x = d)) as [->|].
    - rewrite fn_lookup_insert in Hx. injection Hx as <-. split; [done|]. exists m. split; [done|].
      split; [|intros; apply lookup_delete_eq]. intros n Hn. rewrite lookup_delete_ne; [done|]. intros <-. tauto.
    - rewrite fn_lookup_insert_ne in Hx by done. destruct (decide (x = c)) as [->|]; [by rewrite fn_lookup_insert in Hx|].
      rewrite fn_lookup_insert_ne in Hx by done. split; [done|]. exists mx. done. }
  assert (Hout : forall x m0, D x = Some m0 -> x <> c -> exists mx, D' x = Some mx).
  { intros x m0 Hx Hxc. unfold D'. destruct (decide (x = d)) as [->|]; [rewrite fn_lookup_insert; eauto|].
    rewrite !fn_lookup_insert_ne by done. eauto. }
  assert (Hord : forall x (mx m0 : dirmap) n i, D x = Some m0 -> (forall n, ~ (x = d /\ n = name) -> mx !! n = m0 !! n) ->
    (x = d -> mx !! name = None) -> mx !! n = Some i -> m0 !! n = Some i).
  { intros x mx m0 n i _ H1 H2 Hn. rewrite <- H1; [done|]. intros [-> ->]. rewrite H2 in Hn by done. done. }
  split.
  - destruct T1 as (mr & Hr & Hrr). destruct (Hout root mr Hr) as [mx Hx]; [congruence|]. exists mx. split; [done|].
    destruct (Hin root mx Hx) as (_ & m0 & E & H1 & _). rewrite H1 by naive_solver. congruence.
  - intros x mx (_ & m0 & E & H1 & _)%Hin. rewrite H1 by naive_solver. by apply T2.
  - intros x mx (_ & m0 & E & H1 & _)%Hin. destruct (T3 x m0 E) as (p & mp & Hp & Hmp).
    destruct (Hout p mp Hmp) as [mx' ?]; [intros ->; by apply (Hun x m0)|]. exists p, mx'. rewrite H1 by naive_solver. auto.
  - intros x mx n i mi (_ & m0 & E & H1 & H2)%Hin Ho Hn (_ & mi0 & Ei & Hi1 & _)%Hin.
    apply (Hord x mx m0 n i) in Hn; [|done..]. rewrite Hi1 by naive_solver. eauto.
  - intros x mx n1 n2 i mi (_ & m0 & E & H1 & H2)%Hin Ho1 Ho2 Hn1' Hn2' (_ & mi0 & Ei & _)%Hin.
    apply (Hord x mx m0) in Hn1', Hn2'; [|done..]. by apply (T5 x m0 n1 n2 i mi0).
  - intros i mi p mp (Hic & mi0 & Ei & Hi1 & _)%Hin Hne Hp (_ & mp0 & Emp & Hp1 & _)%Hin. rewrite Hi1 in Hp by naive_solver.
    destruct (T6 i mi0 p mp0 Ei Hne Hp Emp) as (n & Ho & Hn). exists n. split; [done|]. rewrite Hp1; [done|].
    intros [-> ->]. congruence.
  - intros x mx (Hxc & m0 & E & _)%Hin. pose proof (T7 x m0 E) as Hr. clear E. induction Hr as [|x p z (mx' & Hx & Hp) _ IH]; [done|].
    apply rtc_l with p; [|apply IH; [done..|intros ->; by apply (Hun x mx')]]. destruct (Hout x mx' Hx Hxc) as [m1 H1]. exists m1. split; [done|].
    destruct (Hin x m1 H1) as (_ & m2 & E2 & H2 & _). rewrite H2 by naive_solver. congruence.
Qed.

(** Only the way up from [c] changes, and it goes through [nd], which is not below [c]. *)
Lemma moved_rooted (root : Z) (D D' : Z -> option dirmap) (c nd : Z) (mn mc : dirmap) x m : tree_ok root D -> D nd = Some mn -> D c = Some mc ->
  ~ rtc (up D) nd c -> (forall x p, x <> c -> up D x p -> up D' x p) -> up D' c nd -> D x = Some m -> rtc (up D') x root.
Proof.
  intros HT Hnd Hc Hbelow Hstep Hcn Hx. assert (Hn : rtc (up D') nd root).
  { revert Hbelow. generalize (tr_rooted _ _ HT nd mn Hnd). clear -Hstep. intros Hr. induction Hr as [|y p z Hy _ IH]; [done|]. intros Hb.
    apply rtc_l with p; [apply Hstep; [by intros ->; apply Hb|done]|]. apply IH. intros Hr. by apply Hb, rtc_l with p. }
  generalize (tr_rooted _ _ HT x m Hx). clear -Hstep Hcn Hn. intros Hr. induction Hr as [|y p z Hy _ IH]; [done|].
  destruct (decide (y = c)) as [->|Hyc]; [by apply rtc_l with nd|]. apply rtc_l with p; [by apply Hstep|by apply IH].
Qed.

(** A directory is moved to another directory. *)
Lemma tree_move (root : Z) (D : Z -> option dirmap) (od nd : Z) (mo mn : dirmap) old new (c : Z) mc : tree_ok root D ->
  D od = Some mo -> ordinary old -> mo !! old = Some c -> D c = Some mc -> D nd = Some mn -> ordinary new -> mn !! new = None ->
  od <> nd -> c <> od -> ~ rtc (up D) nd c ->
  tree_ok root (<[c := Some (<[dotdotname := nd]> mc)]> (<[od := Some (delete old mo)]> (<[nd := Some (<[new := c]> mn)]> D))).
Proof.
  intros HT Hod Hold Hlo Hc Hnd Hnew Hln Hon Hco Hbelow. assert (Hcn : c <> nd) by (intros ->; by apply Hbelow). assert (HT0 := HT). destruct HT0 as [T1 T2 T3 T4 T5 T6 T7].
  destruct (T4 od mo old c mc Hod Hold Hlo Hc) as [Hcr Hcd]. set (D' := <[c := _]> _).
  assert (Hdn : dotname <> dotdotname) by done.
  (* what the new maps hold *)
  assert (Hin : forall x mx, D' x = Some mx -> exists m0, D x = Some m0 /\ mx !! dotname = m0 !! dotname /\
    mx !! dotdotname = (if decide (x = c) then Some nd else m0 !! dotdotname) /\
    (forall n i, ordinary n -> mx !! n = Some i <-> m0 !! n = Some i /\ ~ (x = od /\ n = old) \/ x = nd /\ n = new /\ i = c)).
  { intros x mx Hx. unfold D' in Hx. destruct Hold as [Ho1 Ho2], Hnew as [Hw1 Hw2].
    destruct (decide (x = c)) as [->|Hxc].
    { rewrite fn_lookup_insert in Hx. injection Hx as <-. exists mc. rewrite lookup_insert_eq, lookup_insert_ne by done.
      split; [done|]. split; [done|]. split; [done|]. intros n i [? ?]. rewrite lookup_insert_ne by done. naive_solver. }
    rewrite fn_lookup_insert_ne in Hx by done. destruct (decide (x = od)) as [->|Hxo].
    { rewrite fn_lookup_insert in Hx. injection Hx as <-. exists mo. rewrite !lookup_delete_ne by done.
      split; [done|]. split; [done|]. split; [done|]. intros n i _. destruct (decide (n = old)) as [->|].
      - rewrite lookup_delete_eq. naive_solver.
      - rewrite lookup_delete_ne by done. naive_solver. }
    rewrite fn_lookup_insert_ne in Hx by done. destruct (decide (x = nd)) as [->|Hxn].
    { rewrite fn_lookup_insert in Hx. injection Hx as <-. exists mn. rewrite !lookup_insert_ne by done.
      split; [done|]. split; [done|]. split; [done|]. intros n i _. destruct (decide (n = new)) as [->|].
      - rewrite lookup_insert_eq, Hln. naive_solver.
      - rewrite lookup_insert_ne by done. naive_solver. }
    rewrite fn_lookup_insert_ne in Hx by done. exists mx. split; [done|]. split; [done|]. split; [done|]. naive_solver. }
  assert (Hout : forall x m0, D x = Some m0 -> exists mx, D' x = Some mx).
  { intros x m0 Hx. unfold D'. destruct (decide (x = c)) as [->|]; [rewrite fn_lookup_insert; eauto|].
    destruct (decide (x = od)) as [->|]; [rewrite fn_lookup_insert_ne, fn_lookup_insert by done; eauto|].
    destruct (decide (x = nd)) as [->|]; [rewrite !fn_lookup_insert_ne, fn_lookup_insert by done; eauto|].
    rewrite !fn_lookup_insert_ne by done. eauto. }
  (* the old entry was the only one *)
  assert (Honly : forall x m0 n, D x = Some m0 -> ordinary n -> m0 !! n = Some c -> x = od /\ n = old).
  { intros x m0 n Hx Hn Hl. destruct (T4 x m0 n c mc Hx Hn Hl Hc) as [_ Hp]. assert (x = od) as -> by congruence.
    split; [done|]. replace m0 with mo in Hl by congruence. by apply (T5 od mo n old c mc). }
  split.
  - destruct T1 as (mr & Hr & Hrr). destruct (Hout root mr Hr) as [mx Hx]. exists mx. split; [done|].
    destruct (Hin root mx Hx) as (m0 & E & _ & -> & _). rewrite decide_False by done. congruence.
  - intros x mx (m0 & E & -> & _)%Hin. by apply T2.
  - intros x mx (m0 & E & _ & -> & _)%Hin. case_decide.
    + destruct (Hout nd mn Hnd) as [mx' ?]. eauto.
    + destruct (T3 x m0 E) as (p & mp & Hp & Hmp). destruct (Hout p mp Hmp) as [mx' ?]. eauto.
  - intros x mx n i mi (m0 & E & _ & _ & H1)%Hin Ho Hn (mi0 & Ei & _ & -> & _)%Hin. apply H1 in Hn; [|done].
    destruct Hn as [[Hn Hne]|(-> & -> & ->)]; [|by rewrite decide_True].
    rewrite decide_False; [by apply (T4 x m0 n i mi0)|]. intros ->. by apply Hne, (Honly x m0 n).
  - intros x mx n1 n2 i mi (m0 & E & _ & _ & H1)%Hin Ho1 Ho2 Hn1 Hn2 (mi0 & Ei & _)%Hin. apply H1 in Hn1, Hn2; [|done..].
    destruct Hn1 as [[Hn1 Hne1]|(Ex1 & En1 & Ei1)], Hn2 as [[Hn2 Hne2]|(Ex2 & En2 & Ei2)].
    + by apply (T5 x m0 n1 n2 i mi0).
    + subst i. exfalso. by apply Hne1, (Honly x m0 n1).
    + subst i. exfalso. by apply Hne2, (Honly x m0 n2).
    + congruence.
  - intros i mi p mp (mi0 & Ei & _ & Hi & _)%Hin Hne Hp (mp0 & Emp & _ & _ & Hp1)%Hin. rewrite Hi in Hp. case_decide as Hic.
    + subst i. injection Hp as <-. exists new. split; [done|]. apply Hp1; [done|]. right. done.
    + destruct (T6 i mi0 p mp0 Ei Hne Hp Emp) as (n & Ho & Hn). exists n. split; [done|]. apply Hp1; [done|]. left.
      split; [done|]. intros [-> ->]. congruence.
  - assert (Hstep : forall x p, x <> c -> up D x p -> up D' x p).
    { intros x p Hxc (mx & Hx & Hp). destruct (Hout x mx Hx) as [m1 H1]. exists m1. split; [done|].
      destruct (Hin x m1 H1) as (m2 & E2 & _ & -> & _). rewrite decide_False by done. congruence. }
    intros x mx (m0 & E & _)%Hin. apply (moved_rooted root D D' c nd mn mc x m0); try done. eexists. split; [apply fn_lookup_insert|apply lookup_insert_eq].
Qed.

(** A directory gets another name in the same directory. *)
Lemma tree_move_same (root : Z) (D : Z -> option dirmap) (d : Z) (m : dirmap) old new (c : Z) mc : tree_ok root D ->
  D d = Some m -> ordinary old -> m !! old = Some c -> D c = Some mc -> ordinary new -> m !! new = None -> c <> d ->
  tree_ok root (<[d := Some (delete old (<[new := c]> m))]> D).
Proof.
  intros HT Hd Hold Hlo Hc Hnew Hln Hcd. assert (HT0 := HT). destruct HT0 as [T1 T2 T3 T4 T5 T6 T7]. set (D' := <[d := _]> D).
  assert (Hin : forall x mx, D' x = Some mx -> exists m0, D x = Some m0 /\ mx !! dotname = m0 !! dotname /\
    mx !! dotdotname = m0 !! dotdotname /\
    (forall n i, ordinary n -> mx !! n = Some i <-> m0 !! n = Some i /\ ~ (x = d /\ n = old) \/ x = d /\ n = new /\ i = c)).
  { intros x mx Hx. unfold D' in Hx. destruct Hold as [Ho1 Ho2], Hnew as [Hw1 Hw2].
    destruct (decide (x = d)) as [->|]; [|rewrite fn_lookup_insert_ne in Hx by done; exists mx; naive_solver].
    rewrite fn_lookup_insert in Hx. injection Hx as <-. exists m. rewrite !lookup_delete_ne, !lookup_insert_ne by done.
    split; [done|]. split; [done|]. split; [done|]. intros n i _. destruct (decide (n = old)) as [->|].
    - rewrite lookup_delete_eq. split; [done|]. intros [[_ ?]|(_ & -> & _)]; [naive_solver|congruence].
    - rewrite lookup_delete_ne by done. destruct (decide (n = new)) as [->|].
      + rewrite lookup_insert_eq, Hln. naive_solver.
      + rewrite lookup_insert_ne by done. naive_solver. }
  assert (Hout : forall x m0, D x = Some m0 -> exists mx, D' x = Some mx).
  { intros x m0 Hx. unfold D'. destruct (decide (x = d)) as [->|]; [rewrite fn_lookup_insert|rewrite fn_lookup_insert_ne by done]; eauto. }
  assert (Honly : forall x m0 n, D x = Some m0 -> ordinary n -> m0 !! n = Some c -> x = d /\ n = old).
  { intros x m0 n Hx Hn Hl. destruct (T4 x m0 n c mc Hx Hn Hl Hc) as [_ Hp].
    destruct (T4 d m old c mc Hd Hold Hlo Hc) as [_ Hp']. assert (x = d) as -> by congruence.
    split; [done|]. replace m0 with m in Hl by congruence. by apply (T5 d m n old c mc). }
  split.
  - destruct T1 as (mr & Hr & Hrr). destruct (Hout root mr Hr) as [mx Hx]. exists mx. split; [done|].
    destruct (Hin root mx Hx) as (m0 & E & _ & -> & _). congruence.
  - intros x mx (m0 & E & -> & _)%Hin. by apply T2.
  - intros x mx (m0 & E & _ & -> & _)%Hin. destruct (T3 x m0 E) as (p & mp & Hp & Hmp). destruct (Hout p mp Hmp) as [mx' ?]. eauto.
  - intros x mx n i mi (m0 & E & _ & _ & H1)%Hin Ho Hn (mi0 & Ei & _ & -> & _)%Hin. apply H1 in Hn; [|done].
    destruct Hn as [[Hn Hne]|(-> & -> & ->)]; [by apply (T4 x m0 n i mi0)|]. by apply (T4 d m old c mi0).
  - intros x mx n1 n2 i mi (m0 & E & _ & _ & H1)%Hin Ho1 Ho2 Hn1 Hn2 (mi0 & Ei & _)%Hin. apply H1 in Hn1, Hn2; [|done..].
    destruct Hn1 as [[Hn1 Hne1]|(Ex1 & En1 & Ei1)], Hn2 as [[Hn2 Hne2]|(Ex2 & En2 & Ei2)].
    + by apply (T5 x m0 n1 n2 i mi0).
    + subst i. exfalso. by apply Hne1, (Honly x m0 n1).
    + subst i. exfalso. by apply Hne2, (Honly x m0 n2).
    + congruence.
  - intros i mi p mp (mi0 & Ei & _ & Hi & _)%Hin Hne Hp (mp0 & Emp & _ & _ & Hp1)%Hin. rewrite Hi in Hp.
    destruct (T6 i mi0 p mp0 Ei Hne Hp Emp) as (n & Ho & Hn). destruct (decide (p = d /\ n = old)) as [[-> ->]|Hpn].
    + exists new. split; [done|]. apply Hp1; [done|]. right. split; [done|]. split; [done|].
      replace mp0 with m in Hn by congruence. congruence.
    + exists n. split; [done|]. apply Hp1; [done|]. auto.
  - intros x mx (m0 & E & _)%Hin. apply (up_mono D); [|by eapply T7]. intros y p (my & Hy & Hp). destruct (Hout y my Hy) as [m1 H1]. exists m1. split; [done|].
    destruct (Hin y m1 H1) as (m2 & E2 & _ & -> & _). congruence.
Qed.

(** ** The directories after a change *)

Lemma dir_of_insert (t : tree) i n d : dir_of (<[i := n]> t) d = <[i := n_dir n]> (dir_of t) d.
Proof.
  unfold dir_of. destruct (decide (d = i)) as [->|]; [by rewrite lookup_insert_eq, fn_lookup_insert|].
  by rewrite lookup_insert_ne, fn_lookup_insert_ne by done.
Qed.

Lemma dir_of_links (t : tree) i l d : dir_of (add_links i l t) d = dir_of t d.
Proof.
  unfold dir_of, add_links. destruct (decide (d = i)) as [->|]; [|by rewrite lookup_alter_ne].
  rewrite lookup_alter_eq. by destruct (t !! i).
Qed.

Lemma dir_of_set (t : tree) d m m' x : dir_of t d = Some m -> dir_of (set_dir d m' t) x = <[d := m']> (dir_of t) x.
Proof.
  intros (n & En & _)%dir_of_Some. unfold set_dir. by rewrite (alter_insert _ t d n En), dir_of_insert.
Qed.

Lemma dir_of_put (t : tree) d m name i x : dir_of t d = Some m ->
  dir_of (put_entry d name i t) x = <[d := Some (<[name := i]> m)]> (dir_of t) x.
Proof. intros E. unfold put_entry. rewrite E. by apply (dir_of_set t d m). Qed.

Lemma dir_of_del (t : tree) d m name x : dir_of t d = Some m ->
  dir_of (del_entry d name t) x = <[d := Some (delete name m)]> (dir_of t) x.
Proof. intros E. unfold del_entry. rewrite E. by apply (dir_of_set t d m). Qed.

(** The type and the links of each inode. *)
Definition typed (t : tree) : Prop := forall i n, t !! i = Some n ->
  (n_isdir n = false -> n_dir n = None) /\ (n_isdir n = true -> n_links n <> 0 -> n_dir n <> None).

Definition consistent (root : Z) (t : tree) : Prop := balanced t /\ tree_ok root (dir_of t) /\ typed t.

(** What the VFS knows of an inode. *)
Definition is_dir (t : tree) (i : Z) : Prop := exists n, t !! i = Some n /\ n_isdir n = true.
Definition is_file (t : tree) (i : Z) : Prop := exists n, t !! i = Some n /\ n_isdir n = false.

Lemma file_no_dir t i : typed t -> is_file t i -> dir_of t i = None.
Proof. intros Ht (n & En & Hf). unfold dir_of. rewrite En. simpl. by apply (Ht i n). Qed.

Lemma entry_present root t d m name i : consistent root t -> dir_of t d = Some m -> m !! name = Some i ->
  exists n, t !! i = Some n /\ 1 <= n_links n.
Proof.
  intros (Hb & _ & _) Hd Hm. pose proof (refs_entry t d m name i Hd Hm) as Hr. specialize (Hb i).
  unfold balance, links in Hb. destruct (t !! i) as [n|] eqn:E; [|lia]. exists n. split; [done|lia].
Qed.

Lemma absent_unreferenced root t i : consistent root t -> t !! i = None ->
  forall x mx n, dir_of t x = Some mx -> mx !! n <> Some i.
Proof. intros Hc Hi x mx n Hx Hm. destruct (entry_present root t x mx n i Hc Hx Hm) as (nd & ? & _). congruence. Qed.

Lemma live_is_dir t d m : typed t -> dir_of t d = Some m -> exists n, t !! d = Some n /\ n_isdir n = true /\ n_dir n = Some m.
Proof.
  intros Ht (n & En & Em)%dir_of_Some. exists n. split; [done|]. split; [|done].
  destruct (n_isdir n) eqn:E; [done|]. rewrite (proj1 (Ht d n En) E) in Em. done.
Qed.

(** The maps keep their types under changes of entries and links. *)
Lemma typed_put t d name i : typed t -> typed (put_entry d name i t).
Proof.
  intros Ht. unfold put_entry. destruct (dir_of t d) as [m|] eqn:Hd; [|done].
  destruct (live_is_dir t d m Ht Hd) as (n & En & Hi & _). intros j nj. unfold set_dir.
  destruct (decide (j = d)) as [->|]; [|rewrite lookup_alter_ne by done; apply Ht].
  rewrite lookup_alter_eq, En. simpl. intros [= <-]. simpl. split; [congruence|done].
Qed.

Lemma typed_del t d name : typed t -> typed (del_entry d name t).
Proof.
  intros Ht. unfold del_entry. destruct (dir_of t d) as [m|] eqn:Hd; [|done].
  destruct (live_is_dir t d m Ht Hd) as (n & En & Hi & _). intros j nj. unfold set_dir.
  destruct (decide (j = d)) as [->|]; [|rewrite lookup_alter_ne by done; apply Ht].
  rewrite lookup_alter_eq, En. simpl. intros [= <-]. simpl. split; [congruence|done].
Qed.

Lemma typed_links t i l : typed t -> is_file t i \/ is_Some (dir_of t i) -> typed (add_links i l t).
Proof.
  intros Ht Hi j nj. unfold add_links. destruct (decide (j = i)) as [->|]; [|rewrite lookup_alter_ne by done; apply Ht].
  rewrite lookup_alter_eq. destruct (t !! i) as [n|] eqn:E; [|done]. simpl. intros [= <-]. simpl.
  destruct Hi as [(n' & E' & Hf)|[m Hm]].
  - replace n' with n in Hf by congruence. split; [intros; by apply (Ht i n)|congruence].
  - destruct (live_is_dir t i m Ht Hm) as (n' & E' & Hd & Hm'). replace n' with n in * by congruence. split; congruence.
Qed.
