(* ===== verification/Ext2TreeOps.v ===== *)
(** * ext2: the operations on the tree keep it consistent

    What each operation of [fs/ext2/namei.c] does to the abstract state when it succeeds,
    and that link counts and the shape of the tree stay right. *)

From stdpp Require Import functions.
From S2P Require Import Prelude CString ByteMem Ext2Layout Ext2Dir Ext2DirRep Ext2Tree.

Definition t_create (d : Z) (name : list byte) (i : Z) (t : tree) : tree :=
  put_entry d name i (<[i := Node false 1 None]> t).
Definition t_link (d : Z) (name : list byte) (i : Z) (t : tree) : tree := put_entry d name i (add_links i 1 t).
Definition t_mkdir (d : Z) (name : list byte) (c : Z) (t : tree) : tree :=
  put_entry d name c (<[c := Node true 2 (Some (new_dir c d))]> (add_links d 1 t)).
Definition t_unlink (d : Z) (name : list byte) (i : Z) (t : tree) : tree := add_links i (-1) (del_entry d name t).
Definition t_rmdir (d : Z) (name : list byte) (c : Z) (t : tree) : tree :=
  add_links d (-1) (add_links c (-2) (set_dir c None (del_entry d name t))).

(** The entry of the target, and what becomes of the inode that had it. *)
Definition t_target (isdir : bool) (nd : Z) (new : list byte) (i : Z) (x : option Z) (t : tree) : tree :=
  let t := put_entry nd new i t in
  match x with
  | Some x => if isdir then set_dir x None (add_links x (-2) t) else add_links x (-1) t
  | None => if isdir then add_links nd 1 t else t
  end.
Definition t_finish (isdir : bool) (od : Z) (old : list byte) (nd i : Z) (t : tree) : tree :=
  let t := del_entry od old t in
  if isdir then add_links od (-1) (if decide (od = nd) then t else put_entry i dotdotname nd t) else t.
Definition t_rename (isdir : bool) (od : Z) (old : list byte) (nd : Z) (new : list byte) (i : Z) (x : option Z) (t : tree) : tree :=
  t_finish isdir od old nd i (t_target isdir nd new i x t).

(** The sums of indicators that the balances leave. *)
Ltac indicators :=
  unfold one;
  repeat match goal with
  | |- context [decide ?P] => destruct (decide P)
  | |- context [bool_decide ?P] => destruct (bool_decide_reflect P)
  end; subst; done || lia.

Section Ops.
Context (root : Z).

Lemma create_ok t d m name i : consistent root t -> dir_of t d = Some m -> ordinary name -> m !! name = None -> t !! i = None ->
  consistent root (t_create d name i t).
Proof using.
  intros Hc Hd Ho Hm Hi. assert (Hc0 := Hc). destruct Hc0 as (Hb & HT & Hty). set (t1 := <[i := Node false 1 None]> t).
  assert (Hdi : d <> i) by (intros ->; unfold dir_of in Hd; rewrite Hi in Hd; done).
  assert (Hd1 : forall x, dir_of t1 x = dir_of t x).
  { intros x. unfold t1. rewrite dir_of_insert. destruct (decide (x = i)) as [->|]; [|by rewrite fn_lookup_insert_ne].
    rewrite fn_lookup_insert. unfold dir_of. by rewrite Hi. }
  assert (Hd1' : dir_of t1 d = Some m) by by rewrite Hd1.
  split; [|split].
  - intros j. unfold t_create. fold t1. rewrite (balance_put t1 d m name i Hd1' j), Hm. unfold t1.
    rewrite (balance_new t i _ Hi j), (Hb j). unfold node_refs. cbn [n_dir n_links]. indicators.
  - apply (tree_ok_ext root (<[d := Some (<[name := i]> m)]> (dir_of t))).
    { intros x. unfold t_create. fold t1. rewrite (dir_of_put t1 d m name i x Hd1'). destruct (decide (x = d)) as [->|];
        [by rewrite !fn_lookup_insert|by rewrite !fn_lookup_insert_ne]. }
    apply tree_put_file; [done|done|done|unfold dir_of; by rewrite Hi|]. intros j Hj. congruence.
  - apply typed_put. intros j n. unfold t1. intros [[<- <-]|[_ Hj]]%lookup_insert_Some; [done|by apply (Hty j)].
Qed.

Lemma link_ok t d m name i : consistent root t -> dir_of t d = Some m -> ordinary name -> m !! name = None -> is_file t i ->
  consistent root (t_link d name i t).
Proof using.
  intros (Hb & HT & Hty) Hd Ho Hm Hf. assert (Hd1 : dir_of (add_links i 1 t) d = Some m) by by rewrite dir_of_links.
  split; [|split].
  - intros j. unfold t_link. rewrite (balance_put _ d m name i Hd1 j), Hm, (balance_links t i 1), (Hb j)
      by (destruct Hf as (n & ? & _); eauto). indicators.
  - apply (tree_ok_ext root (<[d := Some (<[name := i]> m)]> (dir_of t))).
    { intros x. unfold t_link. rewrite (dir_of_put _ d m name i x Hd1). destruct (decide (x = d)) as [->|];
        [by rewrite !fn_lookup_insert|by rewrite !fn_lookup_insert_ne, dir_of_links]. }
    apply tree_put_file; [done|done|done|by apply file_no_dir|]. intros j Hj. congruence.
  - apply typed_put, typed_links; auto.
Qed.

Lemma unlink_ok t d m name i : consistent root t -> dir_of t d = Some m -> ordinary name -> m !! name = Some i -> is_file t i ->
  consistent root (t_unlink d name i t).
Proof using.
  intros (Hb & HT & Hty) Hd Ho Hm Hf. assert (Hf' : is_file (del_entry d name t) i).
  { destruct Hf as (n & En & Hn). assert (Hdi : i <> d).
    { intros ->. destruct (live_is_dir t d m Hty Hd) as (n' & ? & ? & _). congruence. }
    exists n. unfold del_entry. rewrite Hd. unfold set_dir. by rewrite lookup_alter_ne. }
  split; [|split].
  - intros j. unfold t_unlink. rewrite (balance_links _ i (-1)), (balance_del t d m name i Hd Hm), (Hb j)
      by (destruct Hf' as (n & ? & _); eauto). indicators.
  - apply (tree_ok_ext root (<[d := Some (delete name m)]> (dir_of t))).
    { intros x. unfold t_unlink. by rewrite dir_of_links, (dir_of_del t d m name x Hd). }
    apply (tree_del_file root _ d m name i); [done..|by apply file_no_dir].
  - apply typed_links; [by apply typed_del|auto].
Qed.

Lemma mkdir_ok t d m name c : consistent root t -> dir_of t d = Some m -> ordinary name -> m !! name = None -> t !! c = None ->
  consistent root (t_mkdir d name c t).
Proof using.
  intros Hcon Hd Ho Hm Hc. assert (Hcon0 := Hcon). destruct Hcon0 as (Hb & HT & Hty).
  assert (Hdc : d <> c) by (intros ->; unfold dir_of in Hd; rewrite Hc in Hd; done).
  set (t1 := add_links d 1 t). set (t2 := <[c := Node true 2 (Some (new_dir c d))]> t1).
  assert (Hc1 : t1 !! c = None) by (unfold t1, add_links; by rewrite lookup_alter_ne).
  assert (Hd2 : dir_of t2 d = Some m) by (unfold t2; rewrite dir_of_insert, fn_lookup_insert_ne by done; unfold t1; by rewrite dir_of_links).
  assert (Hsd : is_Some (t !! d)) by (apply dir_of_Some in Hd as (n & ? & _); eauto).
  split; [|split].
  - intros j. unfold t_mkdir. fold t1 t2. rewrite (balance_put t2 d m name c Hd2 j), Hm. unfold t2.
    rewrite (balance_new t1 c _ Hc1 j). unfold t1. rewrite (balance_links t d 1 Hsd j), (Hb j). unfold node_refs.
    cbn [n_dir n_links]. rewrite refs_in_new_dir. indicators.
  - apply (tree_ok_ext root (<[d := Some (<[name := c]> m)]> (<[c := Some (new_dir c d)]> (dir_of t)))).
    { intros x. unfold t_mkdir. fold t1 t2. rewrite (dir_of_put t2 d m name c x Hd2). destruct (decide (x = d)) as [->|];
        [by rewrite !fn_lookup_insert|rewrite !(fn_lookup_insert_ne _ d) by done]. unfold t2. rewrite dir_of_insert.
      destruct (decide (x = c)) as [->|]; [by rewrite !fn_lookup_insert|rewrite !fn_lookup_insert_ne by done].
      unfold t1. by rewrite dir_of_links. }
    apply tree_mkdir; [done|done|done|done|unfold dir_of; by rewrite Hc|]. by apply absent_unreferenced with (root := root).
  - apply typed_put. intros j n. unfold t2. intros [[<- <-]|[_ Hj]]%lookup_insert_Some; [done|].
    eapply typed_links; [exact Hty| |exact Hj]. right. eauto.
Qed.

(** An empty directory has the two entries only. *)
Lemma empty_map (mc : dirmap) c p : mc !! dotname = Some c -> mc !! dotdotname = Some p ->
  (forall n i, mc !! n = Some i -> ~ ordinary n) -> mc = new_dir c p.
Proof using.
  intros H1 H2 He. apply map_eq. intros n. unfold new_dir. fold dotname dotdotname.
  destruct (decide (n = dotname)) as [->|]; [by rewrite lookup_insert_eq|]. rewrite lookup_insert_ne by done.
  destruct (decide (n = dotdotname)) as [->|]; [by rewrite lookup_singleton_eq|]. rewrite lookup_singleton_ne by done.
  destruct (mc !! n) as [i|] eqn:E; [|done]. exfalso. by apply (He n i E).
Qed.

Lemma unreferenced_zero t c : (forall x mx n, dir_of t x = Some mx -> mx !! n <> Some c) -> refs t c = 0.
Proof using.
  intros H. apply msum_zero. intros x n En. unfold node_refs. destruct (n_dir n) as [mx|] eqn:Em; [|done].
  apply msum_zero. intros nm i Hi. rewrite bool_decide_false; [done|]. intros ->.
  apply (H x mx nm); [apply dir_of_Some; eauto|done].
Qed.

Lemma rmdir_dirs t d m name c mc z : dir_of t d = Some m -> dir_of t c = Some mc -> d <> c ->
  dir_of (t_rmdir d name c t) z = <[d := Some (delete name m)]> (<[c := None]> (dir_of t)) z.
Proof using.
  intros Hd Hc Hdc. unfold t_rmdir. rewrite !dir_of_links.
  rewrite (dir_of_set _ c mc None z) by (rewrite (dir_of_del t d m name c Hd); by rewrite fn_lookup_insert_ne).
  destruct (decide (z = c)) as [->|]; [by rewrite fn_lookup_insert, fn_lookup_insert_ne, fn_lookup_insert by done|].
  rewrite fn_lookup_insert_ne by done. rewrite (dir_of_del t d m name z Hd).
  destruct (decide (z = d)) as [->|]; [by rewrite !fn_lookup_insert|by rewrite !fn_lookup_insert_ne].
Qed.

Lemma rmdir_balance t d m name c : balanced t -> dir_of t d = Some m -> m !! name = Some c -> dir_of t c = Some (new_dir c d) ->
  d <> c -> balanced (t_rmdir d name c t).
Proof using.
  intros Hb Hd Hm Hc Hdc j. unfold t_rmdir. set (t1 := del_entry d name t).
  assert (Hs : forall i, is_Some (t !! i) -> is_Some (set_dir c None t1 !! i)).
  { intros i Hi. unfold t1, del_entry. rewrite Hd. unfold set_dir. by rewrite !lookup_alter_is_Some. }
  apply dir_of_Some in Hd as Hd0. destruct Hd0 as (nd & End & _). apply dir_of_Some in Hc as Hc0. destruct Hc0 as (nc & Enc & _).
  rewrite (balance_links _ d (-1)) by (unfold add_links; rewrite lookup_alter_is_Some; eauto).
  rewrite (balance_links _ c (-2)) by eauto.
  rewrite (balance_set_dir t1 c (new_dir c d) None), refs_in_new_dir
    by (unfold t1; rewrite (dir_of_del t d m name c Hd); by rewrite fn_lookup_insert_ne).
  unfold t1. rewrite (balance_del t d m name c Hd Hm j), (Hb j). indicators.
Qed.

(** Nothing refers to the removed directory. *)
Lemma rmdir_unreferenced t d m name c mc : tree_ok root (dir_of t) -> dir_of t d = Some m -> ordinary name -> m !! name = Some c ->
  dir_of t c = Some mc -> (forall n i, mc !! n = Some i -> ~ ordinary n) -> d <> c ->
  forall x mx n, dir_of (t_rmdir d name c t) x = Some mx -> mx !! n <> Some c.
Proof using.
  intros HT Hd Ho Hm Hc He Hdc x mx n Hx Hn. destruct (tr_up _ _ HT d m name c mc Hd Ho Hm Hc) as [Hcr Hcd].
  rewrite (rmdir_dirs t d m name c mc x Hd Hc Hdc) in Hx. destruct (decide (x = c)) as [->|Hxc];
    [by rewrite fn_lookup_insert_ne, fn_lookup_insert in Hx by done|].
  assert (Hold : exists m0, dir_of t x = Some m0 /\ m0 !! n = Some c /\ ~ (x = d /\ n = name)).
  { destruct (decide (x = d)) as [->|].
    - rewrite fn_lookup_insert in Hx. injection Hx as <-. exists m. split; [done|].
      destruct (decide (n = name)) as [->|]; [by rewrite lookup_delete_eq in Hn|]. rewrite lookup_delete_ne in Hn by done. naive_solver.
    - rewrite !fn_lookup_insert_ne in Hx by done. exists mx. naive_solver. }
  destruct Hold as (m0 & Hx0 & Hn0 & Hne). destruct (decide (n = dotname)) as [->|Hn1].
  { pose proof (tr_dot _ _ HT x m0 Hx0). congruence. }
  destruct (decide (n = dotdotname)) as [->|Hn2]; [by eapply (empty_unreferenced root (dir_of t) c mc)|].
  destruct (tr_up _ _ HT x m0 n c mc Hx0 (conj Hn1 Hn2) Hn0 Hc) as [_ Hp]. assert (x = d) as -> by congruence.
  apply Hne. split; [done|]. replace m0 with m in Hn0 by congruence. by apply (tr_once _ _ HT d m n name c mc).
Qed.

Lemma rmdir_typed t d m name c mc : typed t -> dir_of t d = Some m -> dir_of t c = Some mc -> d <> c ->
  links (t_rmdir d name c t) c = 0 -> typed (t_rmdir d name c t).
Proof using.
  intros Hty Hd Hc Hdc Hz j n Hj. destruct (decide (j = c)) as [->|Hjc].
  - unfold links in Hz. rewrite Hj in Hz. pose proof (rmdir_dirs t d m name c mc c Hd Hc Hdc) as HD.
    unfold dir_of in HD at 1. rewrite Hj in HD. simpl in HD. rewrite fn_lookup_insert_ne, fn_lookup_insert in HD by done.
    rewrite HD. split; [done|congruence].
  - assert (Hty1 : typed (del_entry d name t)) by by apply typed_del.
    unfold t_rmdir, set_dir, add_links in Hj. destruct (decide (j = d)) as [->|Hjd].
    + rewrite lookup_alter_eq, !lookup_alter_ne in Hj by done.
      assert (Hd1 : dir_of (del_entry d name t) d = Some (delete name m)) by by rewrite (dir_of_del t d m name d Hd), fn_lookup_insert.
      destruct (live_is_dir _ d _ Hty1 Hd1) as (nd & End & Hdd & Hmd). rewrite End in Hj. simpl in Hj. injection Hj as <-. simpl.
      rewrite Hmd. split; [congruence|done].
    + rewrite !lookup_alter_ne in Hj by done. by apply (Hty1 j).
Qed.

Lemma rmdir_ok t d m name c mc : consistent root t -> dir_of t d = Some m -> ordinary name -> m !! name = Some c ->
  dir_of t c = Some mc -> (forall n i, mc !! n = Some i -> ~ ordinary n) -> consistent root (t_rmdir d name c t).
Proof using.
  intros (Hb & HT & Hty) Hd Ho Hm Hc He. destruct (tr_up _ _ HT d m name c mc Hd Ho Hm Hc) as [Hcr Hcd].
  assert (Hdc : d <> c). { intros ->. replace mc with m in He by congruence. by apply (He name c). }
  assert (Hbal : balanced (t_rmdir d name c t)).
  { apply (rmdir_balance t d m name c Hb Hd Hm); [|done]. by rewrite <- (empty_map mc c d (tr_dot _ _ HT c mc Hc) Hcd He). }
  split; [done|]. split.
  - eapply tree_ok_ext; [intros z; by apply (rmdir_dirs t d m name c mc z)|]. by eapply tree_rmdir.
  - apply (rmdir_typed t d m name c mc); try done. specialize (Hbal c). unfold balance in Hbal.
    rewrite (unreferenced_zero _ c) in Hbal; [lia|]. by eapply rmdir_unreferenced.
Qed.

(** ** Renaming *)

Lemma typed_set t d m m' : typed t -> dir_of t d = Some m -> typed (set_dir d (Some m') t).
Proof using.
  intros Hty Hd j n. unfold set_dir. rewrite lookup_alter_Some. intros [(<- & n0 & En & ->)|[_ Hj]]; [|by apply (Hty j)].
  destruct (live_is_dir t d m Hty Hd) as (n1 & ? & Hn & _). replace n0 with n1 by congruence. simpl. split; [congruence|done].
Qed.

Lemma is_file_put t d m name j i : typed t -> dir_of t d = Some m -> is_file t i -> is_file (put_entry d name j t) i.
Proof using.
  intros Hty Hd (n & En & Hn). exists n. unfold put_entry. rewrite Hd. unfold set_dir. split; [|done].
  rewrite lookup_alter_ne; [done|]. intros ->. destruct (live_is_dir t i m Hty Hd) as (n' & ? & ? & _). congruence.
Qed.

Lemma rename_file_ok t od mo old nd mn new i x : consistent root t -> dir_of t od = Some mo -> ordinary old -> mo !! old = Some i ->
  dir_of t nd = Some mn -> ordinary new -> mn !! new = x -> ~ (od = nd /\ old = new) -> is_file t i ->
  (forall j, x = Some j -> is_file t j) -> consistent root (t_rename false od old nd new i x t).
Proof using.
  intros (Hb & HT & Hty) Hod Ho Hold Hnd Hn Hnew Hne Hi Hx. set (t1 := put_entry nd new i t).
  assert (Hty1 : typed t1) by by apply typed_put. set (t2 := t_target false nd new i x t).
  assert (Hty2 : typed t2). { unfold t2, t_target. destruct x as [x|]; [|done]. apply typed_links; [done|left]. eapply is_file_put; eauto. }
  set (mo' := if decide (od = nd) then <[new := i]> mn else mo).
  assert (HD : forall z, dir_of t2 z = <[nd := Some (<[new := i]> mn)]> (dir_of t) z).
  { intros z. unfold t2, t_target. rewrite <- (dir_of_put t nd mn new i z Hnd). destruct x; [apply dir_of_links|done]. }
  assert (Hod' : dir_of t2 od = Some mo').
  { rewrite HD. unfold mo'. destruct (decide (od = nd)); [subst; by rewrite fn_lookup_insert|by rewrite fn_lookup_insert_ne]. }
  assert (Hold' : mo' !! old = Some i).
  { unfold mo'. destruct (decide (od = nd)); [|done]. subst. rewrite lookup_insert_ne by naive_solver. congruence. }
  split; [|split].
  - intros j. unfold t_rename, t_finish. fold t2. rewrite (balance_del t2 od mo' old i Hod' Hold' j). unfold t2, t_target. fold t1.
    assert (balance t1 j = - one (bool_decide (i = j)) + match x with Some i' => one (bool_decide (i' = j)) | None => 0 end) as Hj
      by (unfold t1; rewrite (balance_put t nd mn new i Hnd j), (Hb j), Hnew; lia).
    destruct x as [x|]; [|lia]. destruct (is_file_put t nd mn new i x Hty Hnd (Hx x eq_refl)) as (nx & Enx & _).
    rewrite (balance_links t1 x (-1)) by eauto. rewrite Hj. indicators.
  - apply (tree_ok_ext root (<[od := Some (delete old mo')]> (<[nd := Some (<[new := i]> mn)]> (dir_of t)))).
    { intros z. unfold t_rename, t_finish. fold t2. rewrite (dir_of_del t2 od mo' old z Hod').
      destruct (decide (z = od)) as [->|]; [by rewrite !fn_lookup_insert|]. rewrite !(fn_lookup_insert_ne _ od) by done. apply HD. }
    assert (Hi0 : <[nd := Some (<[new := i]> mn)]> (dir_of t) i = None).
    { assert (i <> nd) by (intros ->; by rewrite (file_no_dir t nd Hty Hi) in Hnd). rewrite fn_lookup_insert_ne by done. by apply file_no_dir. }
    apply (tree_del_file root _ od mo' old i); [|by rewrite <- HD|done..].
    apply tree_put_file; [done..|by apply file_no_dir|]. intros j Hj. apply file_no_dir; [done|]. apply Hx. congruence.
  - by apply typed_del.
Qed.

Lemma some_put t d name i j : is_Some (t !! j) -> is_Some (put_entry d name i t !! j).
Proof using. intros Hj. unfold put_entry. case_match; [|done]. unfold set_dir. by rewrite lookup_alter_is_Some. Qed.

Lemma move_dirs t od mo old nd mn new i mi z : dir_of t od = Some mo -> mo !! old = Some i ->
  dir_of t nd = Some mn -> dir_of t i = Some mi -> i <> od -> i <> nd -> mn !! new = None ->
  dir_of (t_rename true od old nd new i None t) z =
    (if decide (od = nd) then <[od := Some (delete old (<[new := i]> mo))]> (dir_of t)
     else <[i := Some (<[dotdotname := nd]> mi)]> (<[od := Some (delete old mo)]> (<[nd := Some (<[new := i]> mn)]> (dir_of t)))) z.
Proof using.
  intros Hod Hold Hnd Hi Hio Hin Hnew. unfold t_rename, t_finish, t_target. rewrite dir_of_links.
  set (t2 := add_links nd 1 (put_entry nd new i t)).
  assert (HD : forall z, dir_of t2 z = <[nd := Some (<[new := i]> mn)]> (dir_of t) z).
  { intros y. unfold t2. by rewrite dir_of_links, (dir_of_put t nd mn new i y Hnd). }
  destruct (decide (od = nd)) as [Hd|Hd].
  - subst nd. replace mn with mo in * by congruence. rewrite (dir_of_del t2 od (<[new := i]> mo) old z) by (rewrite HD; by rewrite fn_lookup_insert).
    destruct (decide (z = od)) as [->|]; [by rewrite !fn_lookup_insert|]. by rewrite !fn_lookup_insert_ne, HD, fn_lookup_insert_ne by done.
  - assert (HD3 : forall y, dir_of (del_entry od old t2) y = <[od := Some (delete old mo)]> (<[nd := Some (<[new := i]> mn)]> (dir_of t)) y).
    { intros y. rewrite (dir_of_del t2 od mo old y) by (rewrite HD; by rewrite fn_lookup_insert_ne).
      destruct (decide (y = od)) as [->|]; [by rewrite !fn_lookup_insert|]. rewrite !(fn_lookup_insert_ne _ od) by done. apply HD. }
    rewrite (dir_of_put _ i mi dotdotname nd z) by (rewrite HD3; by rewrite !fn_lookup_insert_ne).
    destruct (decide (z = i)) as [->|]; [by rewrite !fn_lookup_insert|]. rewrite !(fn_lookup_insert_ne _ i) by done. apply HD3.
Qed.

Lemma move_balance t od mo old nd mn new i mi : balanced t -> dir_of t od = Some mo -> mo !! old = Some i ->
  dir_of t nd = Some mn -> dir_of t i = Some mi -> i <> od -> i <> nd -> mn !! new = None -> mi !! dotdotname = Some od ->
  ordinary old -> balanced (t_rename true od old nd new i None t).
Proof using.
  intros Hb Hod Hold Hnd Hi Hio Hin Hnew Hup Ho j. unfold t_rename, t_finish, t_target.
  set (t1 := put_entry nd new i t). set (t2 := add_links nd 1 t1).
  assert (HD : forall z, dir_of t2 z = <[nd := Some (<[new := i]> mn)]> (dir_of t) z).
  { intros y. unfold t2. by rewrite dir_of_links; unfold t1; rewrite (dir_of_put t nd mn new i y Hnd). }
  assert (Hnd1 : is_Some (t1 !! nd)). { assert (dir_of t1 nd = Some (<[new := i]> mn)) as (n & ? & _)%dir_of_Some; [|eauto].
    rewrite <- (dir_of_links t1 nd 1). fold t2. by rewrite HD, fn_lookup_insert. }
  assert (H2 : balance t2 j = - one (bool_decide (i = j)) + (if decide (j = nd) then 1 else 0)).
  { unfold t2. rewrite (balance_links t1 nd 1 Hnd1 j). unfold t1. rewrite (balance_put t nd mn new i Hnd j), (Hb j), Hnew. lia. }
  set (mo' := if decide (od = nd) then <[new := i]> mn else mo).
  assert (Hod' : dir_of t2 od = Some mo').
  { rewrite HD. unfold mo'. destruct (decide (od = nd)); [subst; by rewrite fn_lookup_insert|by rewrite fn_lookup_insert_ne]. }
  assert (Hold' : mo' !! old = Some i).
  { unfold mo'. destruct (decide (od = nd)); [|done]. subst. rewrite lookup_insert_ne by congruence. congruence. }
  assert (H3 : balance (del_entry od old t2) j = if decide (j = nd) then 1 else 0)
    by (rewrite (balance_del t2 od mo' old i Hod' Hold' j), H2; lia).
  assert (HD3 : forall y, dir_of (del_entry od old t2) y = <[od := Some (delete old mo')]> (dir_of t2) y) by (intros; by apply dir_of_del).
  rewrite balance_links.
  - destruct (decide (od = nd)) as [Hd|Hd].
    + rewrite H3. indicators.
    + rewrite (balance_put _ i mi dotdotname nd) by (rewrite HD3, fn_lookup_insert_ne, HD, fn_lookup_insert_ne by done; done).
      rewrite H3, Hup. indicators.
  - assert (dir_of (del_entry od old t2) od = Some (delete old mo')) as (n & En & _)%dir_of_Some by by rewrite HD3, fn_lookup_insert.
    destruct (decide (od = nd)); [|apply some_put]; eauto.
Qed.

(** A directory is not an entry of itself. *)
Lemma entry_below (D : Z -> option dirmap) d m name c mc : tree_ok root D -> D d = Some m -> ordinary name -> m !! name = Some c -> D c = Some mc -> c <> d.
Proof using. intros HT Hd Ho Hm Hc ->. destruct (tr_up _ _ HT d m name d mc Hd Ho Hm Hc) as [Hr Hp]. by apply Hr, (no_self root D d mc). Qed.

Lemma not_inside t d m name i : consistent root t -> dir_of t d = Some m -> ordinary name -> m !! name = Some i -> i <> d.
Proof using.
  intros Hc Hd Ho Hm. destruct (dir_of t i) as [mi|] eqn:Hi; [|congruence]. by eapply entry_below; [apply Hc|..].
Qed.

Lemma move_ok t od mo old nd mn new i mi : consistent root t -> dir_of t od = Some mo -> ordinary old -> mo !! old = Some i ->
  dir_of t nd = Some mn -> ordinary new -> mn !! new = None -> dir_of t i = Some mi -> ~ rtc (up (dir_of t)) nd i ->
  consistent root (t_rename true od old nd new i None t).
Proof using.
  intros (Hb & HT & Hty) Hod Ho Hold Hnd Hn Hnew Hi Hbelow. assert (Hin : i <> nd) by (intros ->; by apply Hbelow). pose proof (entry_below (dir_of t) od mo old i mi HT Hod Ho Hold Hi) as Hio. destruct (tr_up _ _ HT od mo old i mi Hod Ho Hold Hi) as [Hir Hup].
  split; [by eapply move_balance|split].
  - eapply tree_ok_ext; [intros z; by apply (move_dirs t od mo old nd mn new i mi z)|]. destruct (decide (od = nd)) as [Hd|Hd].
    + subst nd. replace mn with mo in * by congruence. by eapply tree_move_same.
    + by eapply tree_move.
  - unfold t_rename, t_finish, t_target.
    assert (H3 : typed (del_entry od old (add_links nd 1 (put_entry nd new i t)))).
    { apply typed_del, typed_links; [by apply typed_put|right]. rewrite (dir_of_put t nd mn new i nd Hnd), fn_lookup_insert. eauto. }
    apply typed_links; [case_decide; [done|by apply typed_put]|right].
    pose proof (move_dirs t od mo old nd mn new i mi od Hod Hold Hnd Hi Hio Hin Hnew) as HD.
    unfold t_rename, t_finish, t_target in HD. rewrite dir_of_links in HD. rewrite HD. destruct (decide (od = nd)).
    + rewrite fn_lookup_insert. eauto.
    + rewrite fn_lookup_insert_ne, fn_lookup_insert by done. eauto.
Qed.

Lemma rmdir_up t d m name c mc x p : dir_of t d = Some m -> dir_of t c = Some mc -> d <> c -> ordinary name ->
  up (dir_of (t_rmdir d name c t)) x p -> up (dir_of t) x p.
Proof using.
  intros Hd Hc Hdc Ho (mx & Hx & Hp). rewrite (rmdir_dirs t d m name c mc x Hd Hc Hdc) in Hx. destruct (decide (x = d)) as [->|].
  - rewrite fn_lookup_insert in Hx. injection Hx as <-. exists m. split; [done|]. destruct Ho as [_ Ho]. by rewrite lookup_delete_ne in Hp.
  - rewrite fn_lookup_insert_ne in Hx by done. destruct (decide (x = c)) as [->|]; [by rewrite fn_lookup_insert in Hx|].
    rewrite fn_lookup_insert_ne in Hx by done. by exists mx.
Qed.

(** Onto an empty directory: as if that were removed first. *)
Lemma target_rmdir t nd mn new i x mx : dir_of t nd = Some mn -> dir_of t x = Some mx -> nd <> x ->
  t_target true nd new i (Some x) t = t_target true nd new i None (t_rmdir nd new x t).
Proof using.
  intros Hnd Hx Hne. unfold t_target, put_entry. rewrite Hnd. rewrite (rmdir_dirs t nd mn new x mx nd Hnd Hx Hne), fn_lookup_insert.
  unfold t_rmdir, del_entry. rewrite Hnd. unfold set_dir, add_links. apply map_eq. intros z.
  destruct (decide (z = nd)) as [->|Hzn].
  - repeat (rewrite lookup_alter_eq || rewrite lookup_alter_ne by done). destruct (t !! nd) as [n|]; simpl; [|done].
    rewrite insert_delete_eq. do 2 f_equal. lia.
  - destruct (decide (z = x)) as [->|Hzx]; repeat (rewrite lookup_alter_eq || rewrite lookup_alter_ne by done); [|done].
    by destruct (t !! x) as [n|].
Qed.

Lemma replace_ok t od mo old nd mn new i mi x mx : consistent root t -> dir_of t od = Some mo -> ordinary old -> mo !! old = Some i ->
  dir_of t nd = Some mn -> ordinary new -> mn !! new = Some x -> dir_of t i = Some mi -> ~ rtc (up (dir_of t)) nd i -> i <> x ->
  dir_of t x = Some mx -> (forall n j, mx !! n = Some j -> ~ ordinary n) -> ~ (od = nd /\ old = new) ->
  consistent root (t_rename true od old nd new i (Some x) t).
Proof using.
  intros Hc Hod Ho Hold Hnd Hn Hnew Hi Hbelow Hix Hx He Hne. assert (Hin : i <> nd) by (intros ->; by apply Hbelow). assert (Hio : i <> od) by (destruct Hc as (_ & HT & _); by apply (entry_below (dir_of t) od mo old i mi)).
  assert (Hnx : nd <> x) by (intros ->; replace mx with mn in He by congruence; by apply (He new x)).
  assert (Hox : od <> x) by (intros ->; replace mx with mo in He by congruence; by apply (He old i)).
  unfold t_rename. rewrite (target_rmdir t nd mn new i x mx Hnd Hx Hnx).
  set (mo' := if decide (od = nd) then delete new mo else mo).
  apply (move_ok _ od mo' old nd (delete new mn) new i mi).
  - by eapply rmdir_ok.
  - rewrite (rmdir_dirs t nd mn new x mx od Hnd Hx Hnx). unfold mo'. destruct (decide (od = nd)) as [->|].
    + rewrite fn_lookup_insert. congruence.
    + by rewrite !fn_lookup_insert_ne.
  - done.
  - unfold mo'. destruct (decide (od = nd)); [|done]. rewrite lookup_delete_ne; naive_solver.
  - by rewrite (rmdir_dirs t nd mn new x mx nd Hnd Hx Hnx), fn_lookup_insert.
  - done.
  - apply lookup_delete_eq.
  - by rewrite (rmdir_dirs t nd mn new x mx i Hnd Hx Hnx), !fn_lookup_insert_ne.
  - intros Hr. apply Hbelow. revert Hr. apply up_mono. intros z p. by apply (rmdir_up t nd mn new x mx).
Qed.

(** ** Inodes without a name *)

Lemma tmpfile_ok t i : consistent root t -> t !! i = None -> consistent root (<[i := Node false 0 None]> t).
Proof using.
  intros (Hb & HT & Hty) Hi. split; [|split].
  - intros j. rewrite (balance_new t i _ Hi j), (Hb j). unfold node_refs. cbn [n_dir n_links]. by destruct (decide (j = i)).
  - eapply tree_ok_ext; [|exact HT]. intros d. rewrite dir_of_insert. destruct (decide (d = i)) as [->|]; [|by rewrite fn_lookup_insert_ne].
    rewrite fn_lookup_insert. unfold dir_of. by rewrite Hi.
  - intros j n [[<- <-]|[_ Hj]]%lookup_insert_Some; [done|by apply (Hty j)].
Qed.

Lemma drop_ok t i n : consistent root t -> t !! i = Some n -> n_links n = 0 -> consistent root (delete i t).
Proof using.
  intros (Hb & HT & Hty) Hi Hl. assert (Hd : n_dir n = None).
  { destruct (n_dir n) as [m|] eqn:Em; [|done]. assert (Hm : dir_of t i = Some m) by (apply dir_of_Some; eauto).
    pose proof (refs_entry t i m dotname i Hm (tr_dot _ _ HT i m Hm)) as Hr. specialize (Hb i). unfold balance, links in Hb. rewrite Hi in Hb. lia. }
  split; [|split].
  - intros j. rewrite (balance_gone t i n Hi j), (Hb j). unfold node_refs. rewrite Hd, Hl. by destruct (decide (j = i)).
  - eapply tree_ok_ext; [|exact HT]. intros d. unfold dir_of. destruct (decide (d = i)) as [->|]; [|by rewrite lookup_delete_ne].
    rewrite lookup_delete_eq, Hi. simpl. by rewrite Hd.
  - intros j a [_ Hj]%lookup_delete_Some. by apply (Hty j).
Qed.
End Ops.
