(* ===== verification/Ext2NameiSim.v ===== *)
(** * ext2: the inodes in memory represent a tree

    [sim] relates the state of [Ext2Namei] to the abstract tree of [Ext2Tree]: each inode
    in memory has the type and the links of its node, is marked as used in the bitmap and,
    when it is a directory in use, its bytes hold the node's entries.  One lemma for each
    call that the handlers make says what it does to the tree. *)

From stdpp Require Import functions.
From S2P Require Import Prelude CString ByteMem Ext2Layout Ext2Dir Ext2DirPage Ext2DirRead Ext2DirFind Ext2DirWrite Ext2DirUpdate Ext2DirRep.
From S2P Require Import Ext2Super Ext2Inode Ext2Ialloc Ext2IallocFacts Ext2IallocTheorems Ext2Namei Ext2Tree Ext2TreeOps.

(** What the handlers rely on: pages can be read, blocks that are there can be written
    again, and a synchronous directory is written without errors.  Blocks, pages, inodes
    and quota may run out. *)
Class NameiEnv (k : Z -> kernel) (sbd : super) (sb : sb_info) (v : vfs) (release_blocks : inode -> sbi -> sbi)
    (fresh_page : Z -> option (list byte)) (symlink_page : dir -> list byte -> Z * dir) : Prop := {
  env_geometry i :: Geometry (k i) sbd;
  env_super :: SbWf sb;
  env_inodes : sb_inodes_count sbd = es_inodes_count sb;
  env_types : keeps_type v;
  env_release n s : inodes_same sb s (release_blocks n s);
  env_sync i : commit_err (k i) = 0;
  env_rewrite i : rewritable (k i);
  env_read i n : 0 <= n -> exists kaddr, readpage (k i) n = inr kaddr /\ len kaddr = PAGE_SIZE (k i);
  env_fresh i data : fresh_page i = Some data -> len data = PAGE_SIZE (k i);
  env_symlink d name : same_inode d (snd (symlink_page d name)) }.

(** ** Changes that a directory does not notice *)

Definition eqv (d d' : dir) : Prop :=
  i_ino d' = i_ino d /\ i_mode d' = i_mode d /\ i_size d' = i_size d /\ i_pages d' = i_pages d /\
  i_blocks d' = i_blocks d /\ i_dir_start_lookup d' = i_dir_start_lookup d.

Lemma rep_eqv k sb d d' m T : eqv d d' -> dir_rep k sb d m T -> dir_rep k sb d' m T.
Proof.
  intros (Ei & Em & Es & Ep & Eb & El) (pss & [H1 H2 H3 H4 H5] & He & HT). exists pss. split; [split|split].
  - by apply (holds_ext k sb d).
  - done.
  - intros n Hn. unfold readable. rewrite Ep. apply (H3 n Hn).
  - unfold blocks_ok in *. by rewrite Es, Eb.
  - by rewrite El.
  - done.
  - eapply Forall_impl; [exact HT|]. intros s (Hs & H0 & Hh). split; [done|]. split; [done|]. by rewrite Ep.
Qed.

(** A place that is held is also a place that is not. *)
Definition unheld (s : spot) : spot := Spot (sp_page s) (sp_off s) (sp_name s) (sp_ino s) false.

Lemma rep_unheld k sb d m s T : dir_rep k sb d m (s :: T) -> dir_rep k sb d m (unheld s :: s :: T).
Proof.
  intros (pss & Hok & He & HT). exists pss. split; [done|]. split; [done|]. constructor; [|done].
  apply Forall_cons in HT as [(Hs & H0 & _) _]. done.
Qed.

(** An inode changes as [g] does: [l] links and [c] references are added, and of the
    directory nothing that [dir_rep] looks at. *)
Definition soft (g : inode -> inode) (l c : Z) : Prop := forall n, is_bad_inode n = false ->
  eqv (core n) (core (g n)) /\ i_block_group (g n) = i_block_group n /\ is_bad_inode (g n) = false /\
  i_count (g n) = i_count n + c /\
  (0 <= i_nlink n < 2 ^ 32 -> 0 <= i_nlink n + l < 2 ^ 32 -> i_nlink (g n) = i_nlink n + l).

Ltac soft_tac :=
  let n := fresh in intros n ?; destruct n as [[]]; unfold eqv; simpl in *; repeat split; try done; try lia;
  intros; unfold u32; rewrite ?Z.mod_small by lia; lia.

Lemma soft_inc : soft inode_inc_link_count 1 0.
Proof. soft_tac. Qed.
Lemma soft_dec : soft inode_dec_link_count (-1) 0.
Proof. soft_tac. Qed.
Lemma soft_unlock : soft unlock_new_inode 0 0.
Proof. soft_tac. Qed.
Lemma soft_ihold : soft ihold 0 1.
Proof. soft_tac. Qed.

Section Sim.
Context (k : Z -> kernel) (sbd : super) (sb : sb_info) (v : vfs) (release_blocks : inode -> sbi -> sbi).
Context (fresh_page : Z -> option (list byte)) (symlink_page : dir -> list byte -> Z * dir).
Context {Env : NameiEnv k sbd sb v release_blocks fresh_page symlink_page}.

(** An inode and its node; [X] are places of entries that are known besides those of [.]
    and [..]. *)
Record node_rep (X : list spot) (i : Z) (n : inode) (a : node) : Prop := {
  nr_ino : i_ino (core n) = i;
  nr_range : 1 <= i <= es_inodes_count sb;
  nr_first : i = EXT2_ROOT_INO \/ EXT2_FIRST_INO sb <= i;
  nr_group : 0 <= i_block_group n < s_groups_count sb;
  nr_nlink : i_nlink n = n_links a;
  nr_links : 0 <= n_links a < 2 ^ 32;
  nr_type : S_ISDIR (i_mode (core n)) = n_isdir a;
  nr_good : is_bad_inode n = false;
  nr_dir : match n_dir a with Some m => exists p, dir_rep (k i) sbd (core n) m (dots i p ++ X) | None => True end }.

(** [S] gives the known places, [R] a directory that can grow by a block and [C] an inode
    with a single reference. *)
Record sim (f : fs) (t : tree) (S : Z -> list spot) (R C : option Z) : Prop := {
  sim_alloc : ialloc_ok sb (f_sb f);
  sim_node i n : f_inodes f !! i = Some n -> exists a, t !! i = Some a /\ node_rep (S i) i n a /\ allocated sb (f_sb f) i;
  sim_tree i a : t !! i = Some a -> is_Some (f_inodes f !! i);
  sim_room d n : R = Some d -> f_inodes f !! d = Some n -> i_size (core n) + s_blocksize sbd < 2 ^ 32;
  sim_pin c n : C = Some c -> f_inodes f !! c = Some n -> i_count n = 1 }.

Lemma sim_get f t S R C i a : sim f t S R C -> t !! i = Some a ->
  exists n, get_inode f i = Ok n /\ f_inodes f !! i = Some n /\ node_rep (S i) i n a /\ allocated sb (f_sb f) i.
Proof using.
  intros Hs Ha. destruct (sim_tree _ _ _ _ _ Hs i a Ha) as [n En]. destruct (sim_node _ _ _ _ _ Hs i n En) as (a' & Ha' & Hn & Hal).
  exists n. unfold get_inode. rewrite En. replace a with a' by congruence. done.
Qed.

Lemma node_rep_weaken X X' i n a : X' ⊆ X -> node_rep X i n a -> node_rep X' i n a.
Proof using.
  intros HX [H1 H2 H2' H3 H4 H5 H6 H7 H8]. split; try done. destruct (n_dir a); [|done]. destruct H8 as (p & H8). exists p.
  eapply rep_weaken; [|exact H8]. intros x [?|?]%elem_of_app; apply elem_of_app; auto.
Qed.

Lemma sim_weaken f t S S' R R' C C' : (forall i, S' i ⊆ S i) -> R' = None \/ R' = R -> C' = None \/ C' = C ->
  sim f t S R C -> sim f t S' R' C'.
Proof using.
  intros HS HR HC [H1 H2 H3 H4 H5]. split; try done.
  - intros i n Hi. destruct (H2 i n Hi) as (a & ? & ? & ?). exists a. split; [done|]. split; [|done]. by apply (node_rep_weaken (S i)).
  - intros d n Hd. apply H4. destruct HR; congruence.
  - intros d n Hd. apply H5. destruct HC; congruence.
Qed.

(** One inode changes together with its node. *)
Lemma sim_put f t S S' R C i n n' a a' : sim f t S R C -> f_inodes f !! i = Some n -> t !! i = Some a ->
  node_rep (S' i) i n' a' -> (forall j, j <> i -> S' j = S j) ->
  R <> Some i \/ i_size (core n') = i_size (core n) -> C <> Some i \/ i_count n' = i_count n ->
  sim (put_inode i n' f) (<[i := a']> t) S' R C.
Proof using.
  intros [H1 H2 H3 H4 H5] Hi Ha Hn HS HR HC. split; simpl.
  - done.
  - intros j nj Hj. destruct (decide (j = i)) as [->|Hji].
    + rewrite lookup_insert_eq in Hj. injection Hj as <-. exists a'. rewrite lookup_insert_eq. split; [done|]. split; [done|].
      by destruct (H2 i n Hi) as (? & _ & _ & ?).
    + rewrite lookup_insert_ne in Hj by done. rewrite lookup_insert_ne by done. rewrite HS by done. by apply H2.
  - intros j aj. destruct (decide (j = i)) as [->|]; [rewrite !lookup_insert_eq; eauto|rewrite !lookup_insert_ne by done; apply H3].
  - intros d nd -> [[<- <-]|[_ Hd]]%lookup_insert_Some; [|eauto]. destruct HR as [?| ->]; [done|eauto].
  - intros c nc -> [[<- <-]|[_ Hc]]%lookup_insert_Some; [|eauto]. destruct HC as [?| ->]; [done|eauto].
Qed.

(** ** Changes of an inode *)

Lemma add_links_0 t i : add_links i 0 t = t.
Proof using. apply alter_id. intros [b l m] _. by rewrite Z.add_0_r. Qed.

Lemma sim_upd g l c f t S R C i a : sim f t S R C -> t !! i = Some a -> soft g l c -> 0 <= n_links a + l < 2 ^ 32 ->
  c = 0 \/ C <> Some i -> exists f', upd_inode g i f = Ok f' /\ sim f' (add_links i l t) S R C.
Proof using.
  intros Hs Ha Hg Hl Hc. destruct (sim_get _ _ _ _ _ i a Hs Ha) as (n & En & Ei & Hn & _).
  unfold upd_inode. rewrite En. cbn [rbind]. eexists. split; [done|].
  destruct Hn as [H1 H2 H2' H3 H4 H5 H6 H7 H8]. destruct (Hg n H7) as (He & G2 & G3 & G4 & G5). assert (He0 := He).
  destruct He0 as (E1 & E2 & E3 & _). unfold add_links. rewrite (alter_insert _ t i a Ha).
  apply (sim_put f t S S R C i n (g n) a); [done|done|done| |done|by right|destruct Hc as [-> |?]; [right; lia|by left]].
  split; cbn [n_links n_isdir n_dir]; try congruence; try lia.
  destruct (n_dir a) as [m|]; [|done]. destruct H8 as (p & H8). exists p. by eapply rep_eqv.
Qed.

(** The same without a change of the links. *)
Lemma sim_touch g c f t S R C i a : sim f t S R C -> t !! i = Some a -> soft g 0 c -> c = 0 \/ C <> Some i ->
  exists f', upd_inode g i f = Ok f' /\ sim f' t S R C.
Proof using.
  intros Hs Ha Hg Hc. destruct (sim_get _ _ _ _ _ i a Hs Ha) as (n & _ & _ & Hn & _).
  destruct (sim_upd g 0 c f t S R C i a Hs Ha Hg) as (f' & E & Hs'); [|done|rewrite add_links_0 in Hs'; eauto].
  rewrite Z.add_0_r. apply Hn.
Qed.

(** ** Calls into the directory *)

Lemma set_dir_insert t d a m' : t !! d = Some a ->
  set_dir d m' t = <[d := Node (n_isdir a) (n_links a) m']> t.
Proof using. intros Ha. unfold set_dir. by rewrite (alter_insert _ t d a Ha). Qed.

Lemma sim_on_dir {A} (g : dir -> res (A * dir)) x d d' f t S S' R C i n m m' :
  sim f t S R C -> f_inodes f !! i = Some n -> core n = d -> dir_of t i = Some m -> g d = Ok (x, d') ->
  same_inode d d' -> R <> Some i \/ i_size d' = i_size d -> (exists p, dir_rep (k i) sbd d' m' (dots i p ++ S' i)) ->
  (forall j, j <> i -> S' j = S j) ->
  exists f', on_dir g i f = Ok (x, f') /\ sim f' (set_dir i (Some m') t) S' R C.
Proof using.
  intros Hs Hi <- Hm Hg [I1 I2] Hz Hr HS. apply dir_of_Some in Hm as (a & Ha & Ea).
  destruct (sim_get _ _ _ _ _ i a Hs Ha) as (n' & _ & Hi' & Hn & _). replace n' with n in * by congruence.
  unfold on_dir, get_inode. rewrite Hi. cbn [deref rbind]. rewrite Hg. cbn [rbind]. eexists. split; [done|].
  rewrite (set_dir_insert t i a _ Ha). destruct Hn as [H1 H2 H2' H3 H4 H5 H6 H7 H8].
  apply (sim_put f t S S' R C i n (with_core d' n) a); [done|done|done| |done| |right; by destruct n].
  - split; cbn [n_links n_isdir n_dir]; try by destruct n. by destruct n; simpl in *; congruence. destruct n; simpl in *. congruence.
  - destruct Hz; [by left|right; by destruct n].
Qed.

Lemma set_dir_id t d m : dir_of t d = Some m -> set_dir d (Some m) t = t.
Proof using.
  intros (a & Ha & Ea)%dir_of_Some. apply alter_id. intros x Hx. replace x with a by congruence. destruct a; simpl in *. congruence.
Qed.

(** The directory, its inode and what is known of it. *)
Lemma sim_dir f t S R C i m : sim f t S R C -> dir_of t i = Some m ->
  exists n p, f_inodes f !! i = Some n /\ get_inode f i = Ok n /\ dir_rep (k i) sbd (core n) m (dots i p ++ S i) /\
    i_ino (core n) = i /\ 1 <= i <= es_inodes_count sb.
Proof using.
  intros Hs (a & Ha & Ea)%dir_of_Some. destruct (sim_get _ _ _ _ _ i a Hs Ha) as (n & E & Hi & Hn & _).
  destruct Hn as [H1 H2 H2' H3 H4 H5 H6 H7 H8]. rewrite Ea in H8. destruct H8 as (p & H8). by exists n, p.
Qed.

Lemma sim_find f t S R C d m name : sim f t S R C -> dir_of t d = Some m -> valid_name name ->
  exists r f', find_entry k sbd d name f = Ok (r, f') /\
    match r with
    | Some de => exists i, m !! name = Some i /\ sim f' t (<[d := Spot (fst de) (snd de) name i true :: S d]> S) R C
    | None => m !! name = None /\ sim f' t S R C
    end.
Proof using Env.
  intros Hs Hm Hv. destruct (sim_dir _ _ _ _ _ d m Hs Hm) as (n & p & Hi & _ & Hr & _).
  destruct (rep_find (k d) sbd (core n) m _ name Hr Hv) as (r & d' & E & Hsi & Hz & Ho).
  destruct r as [[pg o]|].
  - destruct Ho as (i & Ho). pose proof (spot_in_map _ _ _ _ _ _ Ho) as Hmi.
    destruct (sim_on_dir (fun x => ext2_find_entry (k d) sbd x name) (Some (pg, o)) (core n) d' f t S
      (<[d := Spot pg o name i true :: S d]> S) R C d n m m) as (f' & E' & Hs'); try done; [by right| | |].
    + exists p. rewrite fn_lookup_insert. eapply rep_weaken; [|exact Ho]. set_solver.
    + intros j Hj. by rewrite fn_lookup_insert_ne.
    + rewrite set_dir_id in Hs' by done. exists (Some (pg, o)), f'. split; [done|]. exists i. done.
  - destruct Ho as [Hn Ho].
    destruct (sim_on_dir (fun x => ext2_find_entry (k d) sbd x name) None (core n) d' f t S S R C d n m m) as (f' & E' & Hs'); try done;
      [by right|by exists p|]. rewrite set_dir_id in Hs' by done. by exists None, f'.
Qed.

(** Names other than [.] and [..] differ from those of the two entries. *)
Lemma dots_differ i p X name : ordinary name -> Forall (fun t => sp_name t <> name) X ->
  Forall (fun t => sp_name t <> name) (dots i p ++ X).
Proof using. intros [H1 H2] HX. repeat constructor; simpl; try done; congruence. Qed.

Lemma sim_add f t S C dentry d name m i a : sim f t S (Some d) C -> d_parent dentry = d -> d_name dentry = name ->
  dir_of t d = Some m -> valid_name name -> m !! name = None -> t !! i = Some a ->
  exists err f', add_link k sbd dentry i f = Ok (err, f') /\
    (err = 0 /\ sim f' (put_entry d name i t) S None C \/ err <> 0 /\ ~ writable (k d) /\ sim f' t S None C).
Proof using Env.
  intros Hs <- <- Hm Hv Hno Ha. destruct (sim_dir _ _ _ _ _ _ m Hs Hm) as (n & p & Hi & _ & Hr & _).
  destruct (sim_get _ _ _ _ _ i a Hs Ha) as (ni & Eni & _ & Hni & _). pose proof (sim_room _ _ _ _ _ Hs _ n eq_refl Hi) as Hroom.
  destruct (rep_add (k (d_parent dentry)) sbd (core n) m _ (d_name dentry) (Target i (i_mode (core ni))) Hr Hv)
    as (err & d' & E & Hsi & Ho); [|done|done|].
  { unfold valid_target. simpl. pose proof (nr_range _ _ _ _ Hni). rewrite env_inodes. lia. }
  assert (Hs0 : sim f t S None C) by (eapply sim_weaken; [..|exact Hs]; auto).
  unfold add_link. rewrite Eni. cbn [rbind]. destruct Ho as [[-> Ho]|(He & Hnw & Ho)].
  - rewrite env_sync in E. edestruct (sim_on_dir (fun x => ext2_add_link (k (d_parent dentry)) sbd x (d_name dentry)
      (Target i (i_mode (core ni)))) 0 (core n) d' f t S S None C (d_parent dentry) n m) as (f' & -> & Hs'); try done; [by left|by exists p|].
    exists 0, f'. split; [done|]. left. split; [done|]. unfold put_entry. rewrite Hm. exact Hs'.
  - destruct (sim_on_dir (fun x => ext2_add_link (k (d_parent dentry)) sbd x (d_name dentry)
      (Target i (i_mode (core ni)))) err (core n) d' f t S S None C (d_parent dentry) n m m) as (f' & -> & Hs'); try done; [by left|by exists p|].
    rewrite set_dir_id in Hs' by done. exists err, f'. auto.
Qed.

(** The place of an entry is used up. *)
Lemma sim_delete f t S R C d m name de i X : sim f t S R C -> dir_of t d = Some m -> ordinary name ->
  S d = Spot (fst de) (snd de) name i true :: X -> Forall (fun t => sp_name t <> name) X ->
  exists f', delete_entry k sbd d de f = Ok (0, f') /\ sim f' (del_entry d name t) (<[d := X]> S) R C.
Proof using Env.
  intros Hs Hm Ho HS HX. destruct (sim_dir _ _ _ _ _ d m Hs Hm) as (n & p & Hi & _ & Hr & _). rewrite HS in Hr.
  destruct (rep_delete (k d) sbd (core n) m (dots d p ++ X) (Spot (fst de) (snd de) name i true)) as (d' & E & Hsi & Hz & Hr').
  { eapply rep_weaken; [|exact Hr]. intros x. rewrite !elem_of_cons, !elem_of_app, !elem_of_cons. tauto. }
  { by apply dots_differ. }
  { done. }
  { apply env_rewrite. }
  rewrite env_sync in E. destruct (sim_on_dir (fun x => ext2_delete_entry (k d) sbd x (fst de) (snd de)) 0 (core n) d' f t S
    (<[d := X]> S) R C d n m (delete name m)) as (f' & E' & Hs'); try done; [by right|rewrite fn_lookup_insert; by exists p| |].
  { intros j Hj. by rewrite fn_lookup_insert_ne. }
  exists f'. split; [exact E'|]. unfold del_entry. by rewrite Hm.
Qed.

Lemma set_link_on_dir d de i times f n ni x d' : get_inode f i = Ok ni -> f_inodes f !! d = Some n ->
  ext2_set_link (k d) sbd (core n) (fst de) (snd de) (Target i (i_mode (core ni))) times = Ok d' ->
  on_dir (fun x => let* x := ext2_set_link (k d) sbd x (fst de) (snd de) (Target i (i_mode (core ni))) times in Ok (tt, x)) d f = Ok (tt, x) ->
  set_link k sbd d de i times f = Ok x.
Proof using. intros E1 E2 E3 E4. unfold set_link. rewrite E1. cbn [rbind]. by rewrite E4. Qed.

Lemma sim_set_link f t S R C d m name de i i0 a X times : sim f t S R C -> dir_of t d = Some m -> ordinary name ->
  S d = Spot (fst de) (snd de) name i0 true :: X -> Forall (fun t => sp_name t <> name) X -> t !! i = Some a ->
  exists f', set_link k sbd d de i times f = Ok f' /\ sim f' (put_entry d name i t) (<[d := X]> S) R C.
Proof using Env.
  intros Hs Hm Ho HS HX Ha. destruct (sim_dir _ _ _ _ _ d m Hs Hm) as (n & p & Hi & _ & Hr & _). rewrite HS in Hr.
  destruct (sim_get _ _ _ _ _ i a Hs Ha) as (ni & Eni & _ & Hni & _).
  destruct (rep_set_link (k d) sbd (core n) m (dots d p ++ X) (Spot (fst de) (snd de) name i0 true) (Target i (i_mode (core ni))) times)
    as (d' & E & Hsi & Hz & Hr').
  { eapply rep_weaken; [|exact Hr]. intros x. rewrite !elem_of_cons, !elem_of_app, !elem_of_cons. tauto. }
  { by apply dots_differ. }
  { done. }
  { apply env_rewrite. }
  { unfold valid_target. simpl. pose proof (nr_range _ _ _ _ Hni). rewrite env_inodes. lia. }
  destruct (sim_on_dir (fun x => let* x := ext2_set_link (k d) sbd x (fst de) (snd de) (Target i (i_mode (core ni))) times in Ok (tt, x))
    tt (core n) d' f t S (<[d := X]> S) R C d n m (<[name := i]> m)) as (f' & E' & Hs'); try done.
  { cbn [sp_page sp_off] in E. by rewrite E. }
  { by right. }
  { rewrite fn_lookup_insert. exists p. eapply rep_weaken; [|exact Hr']. intros x ?. by apply elem_of_cons; right. }
  { intros j Hj. by rewrite fn_lookup_insert_ne. }
  exists f'. split; [by eapply set_link_on_dir|]. unfold put_entry. by rewrite Hm.
Qed.

(** ** [.] and [..] *)

Lemma sim_dotdot f t S R C c m : sim f t S R C -> dir_of t c = Some m -> S c = [] ->
  exists f' p, on_dir (fun x => ext2_dotdot (k c) sbd x) c f = Ok (Some 12, f') /\
    sim f' t (<[c := [Spot 0 12 dotdotname p true]]> S) R C.
Proof using Env.
  intros Hs Hm HS. destruct (sim_dir _ _ _ _ _ c m Hs Hm) as (n & p & Hi & _ & Hr & _). rewrite HS in Hr.
  destruct (rep_dotdot (k c) sbd (core n) m [] c p Hr) as (d' & E & Hsi & Hz & Hr').
  destruct (sim_on_dir (fun x => ext2_dotdot (k c) sbd x) (Some 12) (core n) d' f t S
    (<[c := [Spot 0 12 dotdotname p true]]> S) R C c n m m) as (f' & E' & Hs'); try done; [by right| | |].
  - rewrite fn_lookup_insert. exists p. apply rep_unheld in Hr'. eapply rep_weaken; [|exact Hr']. intros x Hx. apply elem_of_app in Hx.
    unfold dots in Hx. rewrite !elem_of_cons in Hx. unfold unheld. rewrite !elem_of_cons. simpl. unfold dotdotname in *. tauto.
  - intros j Hj. by rewrite fn_lookup_insert_ne.
  - rewrite set_dir_id in Hs' by done. eauto.
Qed.

Lemma sim_set_dotdot f t S R C c m p i a times : sim f t S R C -> dir_of t c = Some m ->
  S c = [Spot 0 12 dotdotname p true] -> t !! i = Some a ->
  exists f', set_link k sbd c (0, 12) i times f = Ok f' /\ sim f' (put_entry c dotdotname i t) (<[c := []]> S) R C.
Proof using Env.
  intros Hs Hm HS Ha. destruct (sim_dir _ _ _ _ _ c m Hs Hm) as (n & q & Hi & _ & Hr & _). rewrite HS in Hr.
  destruct (sim_get _ _ _ _ _ i a Hs Ha) as (ni & Eni & _ & Hni & _).
  destruct (rep_set_link (k c) sbd (core n) m [Spot 0 0 dotname c false] (Spot 0 12 dotdotname p true) (Target i (i_mode (core ni))) times)
    as (d' & E & Hsi & Hz & Hr').
  { eapply rep_weaken; [|exact Hr]. intros x. unfold dots, dotname. rewrite elem_of_app, !elem_of_cons. tauto. }
  { by repeat constructor. }
  { done. }
  { apply env_rewrite. }
  { unfold valid_target. simpl. pose proof (nr_range _ _ _ _ Hni). rewrite env_inodes. lia. }
  destruct (sim_on_dir (fun x => let* x := ext2_set_link (k c) sbd x 0 12 (Target i (i_mode (core ni))) times in Ok (tt, x))
    tt (core n) d' f t S (<[c := []]> S) R C c n m (<[dotdotname := i]> m)) as (f' & E' & Hs'); try done.
  { cbn [sp_page sp_off] in E. by rewrite E. }
  { by right. }
  { rewrite fn_lookup_insert. exists i. apply rep_unheld in Hr'. eapply rep_weaken; [|exact Hr']. intros x Hx. rewrite app_nil_r in Hx.
    unfold dots in Hx. rewrite !elem_of_cons in Hx. unfold unheld. rewrite !elem_of_cons. simpl. unfold dotname, dotdotname in *. tauto. }
  { intros j Hj. by rewrite fn_lookup_insert_ne. }
  exists f'. split; [by eapply set_link_on_dir|]. unfold put_entry. by rewrite Hm.
Qed.

(** [ext2_empty_dir] looks for other entries than the two. *)
Lemma sim_empty f t S R C c m : sim f t S R C -> dir_of t c = Some m ->
  exists b f', on_dir (fun x => ext2_empty_dir (k c) sbd x) c f = Ok (b, f') /\ sim f' t S R C /\
    (b = true -> forall n i, m !! n = Some i -> ~ ordinary n) /\
    (b = false -> m !! dotname = Some c -> exists n i, ordinary n /\ m !! n = Some i).
Proof using Env.
  intros Hs Hm. destruct (sim_dir _ _ _ _ _ c m Hs Hm) as (n & p & Hi & _ & Hr & Hino & Hrg).
  pose proof (geo_inodes (k := k c) (sb := sbd)) as HG. rewrite env_inodes in HG.
  destruct (rep_empty_dir (k c) sbd (core n) m _ Hr) as (b & d' & E & Hsi & Hz & Hr' & Hb); [lia|].
  destruct (sim_on_dir (fun x => ext2_empty_dir (k c) sbd x) b (core n) d' f t S S R C c n m m) as (f' & E' & Hs'); try done;
    [by right|by exists p|]. rewrite set_dir_id in Hs' by done. exists b, f'. split; [done|]. split; [done|]. rewrite Hino in Hb. split.
  - intros Hbt nm i Hnm [Ho1 Ho2]. destruct ((proj1 Hb) Hbt nm i Hnm) as [[-> _]| ->]; done.
  - intros -> Hdot. destruct (decide (map_Exists (fun nm _ => nm <> dotname /\ nm <> dotdotname) m)) as [(nm & i & ? & ?)|He].
    { by exists nm, i. }
    assert (Hn : ~ only_dots c m) by (intros ?%Hb; done). exfalso. apply Hn. intros nm i Hnm.
    destruct (decide (nm = dotname)) as [->|]; [left; split; [done|congruence]|].
    destruct (decide (nm = dotdotname)) as [->|]; [by right|]. exfalso. apply He. by exists nm, i.
Qed.
End Sim.
