(* ===== verification/Ext2NameiCalls.v ===== *)
(** * ext2: inodes come and go

    The calls of the handlers in [Ext2Namei] that make, look up or drop inodes, as changes
    of the tree that the state represents. *)

From stdpp Require Import functions.
From S2P Require Import Prelude CString ByteMem Ext2Layout Ext2Dir Ext2DirPage Ext2DirRead Ext2DirFind Ext2DirWrite Ext2DirUpdate Ext2DirRep.
From S2P Require Import Ext2Super Ext2Inode Ext2Ialloc Ext2IallocFacts Ext2IallocTheorems Ext2Namei Ext2Tree Ext2TreeOps Ext2NameiSim.

Section Calls.
Context (k : Z -> kernel) (sbd : super) (sb : sb_info) (v : vfs) (release_blocks : inode -> sbi -> sbi).
Context (fresh_page : Z -> option (list byte)) (symlink_page : dir -> list byte -> Z * dir).
Context {Env : NameiEnv k sbd sb v release_blocks fresh_page symlink_page}.

Notation sim := (sim k sbd sb).

(** The inodes are marked as before, except one that is not in the tree. *)
Lemma sim_marked f t S R C s' : sim f t S R C -> ialloc_ok sb s' ->
  (forall i, is_Some (t !! i) -> 1 <= i <= es_inodes_count sb -> allocated sb (f_sb f) i -> allocated sb s' i) ->
  sim (Fs s' (f_inodes f)) t S R C.
Proof using.
  intros [H1 H2 H3 H4 H5] Hs' Hal. split; simpl; try done. intros i n Hi. destruct (H2 i n Hi) as (a & Ha & Hn & Hi'). exists a.
  split; [done|]. split; [done|]. apply Hal; eauto. apply Hn.
Qed.

Lemma sim_parent f t S R C d a : sim f t S R C -> t !! d = Some a -> exists n, get_inode f d = Ok n /\ parent_ok sb n.
Proof using.
  intros Hs Ha. destruct (sim_get _ _ _ _ _ _ _ _ d a Hs Ha) as (n & E & _ & Hn & _). exists n. split; [done|].
  destruct Hn as [H1 H2 _ H3 _ _ _ _ _]. split; [done|]. lia.
Qed.

(** A directory that nothing has been written to. *)
Definition blank_dir (f : fs) (c : Z) : Prop := exists n, f_inodes f !! c = Some n /\
  i_size (core n) = 0 /\ i_blocks (core n) = 0 /\ i_dir_start_lookup (core n) = 0 /\ i_pages (core n) = ∅.

Lemma blank_upd g l r c f f' i : blank_dir f c -> soft g l r -> upd_inode g i f = Ok f' ->
  (forall n, f_inodes f !! c = Some n -> is_bad_inode n = false) -> blank_dir f' c.
Proof using.
  intros (n & En & B) Hg E Hb. unfold upd_inode, get_inode in E. destruct (f_inodes f !! i) as [ni|] eqn:Ei; [|done].
  cbn [deref rbind] in E. apply (inj Ok) in E. subst f'. unfold blank_dir. simpl. destruct (decide (i = c)) as [->|].
  - rewrite lookup_insert_eq. replace ni with n by congruence. destruct (Hg n (Hb n En)) as ((E1 & E2 & E3 & E4 & E5 & E6) & _).
    exists (g n). rewrite E3, E4, E5, E6. done.
  - rewrite lookup_insert_ne by done. eauto.
Qed.

(** Some inode is free. *)
Definition has_free (f : fs) : Prop := exists i, 1 <= i <= es_inodes_count sb /\ ~ allocated sb (f_sb f) i.

Lemma sim_new f t S R C d a mode : sim f t S R C -> t !! d = Some a ->
  exists r f', new_inode sb v release_blocks f d mode = Ok (r, f') /\
    match r with
    | inl err => err <> 0 /\ ~ (hooks_succeed v /\ has_free f) /\ sim f' t S R C
    | inr c => t !! c = None /\ EXT2_FIRST_INO sb <= c /\ blank_dir f' c /\
        sim f' (<[c := Node (S_ISDIR mode) 1 None]> t) S R (Some c)
    end.
Proof using Env.
  intros Hs Ha. destruct (sim_parent _ _ _ _ _ d a Hs Ha) as (nd & Ed & Hp). unfold new_inode. rewrite Ed. cbn [rbind].
  pose proof (sim_alloc _ _ _ _ _ _ _ _ Hs) as Hio. pose proof (io_count sb _ Hio) as Hcnt.
  destruct (new_inode_spec sb v release_blocks env_types env_release (dom (f_inodes f)) (f_sb f) nd mode Hio Hp) as (r & s' & E & Hs' & Ho).
  { intros i [n Hi]%elem_of_dom. by destruct (sim_node _ _ _ _ _ _ _ _ Hs i n Hi) as (_ & _ & _ & ?). }
  rewrite E. cbn [rbind]. destruct r as [err|n].
  - destruct Ho as (He & Hsame & Hwhy). exists (inl err), (Fs s' (f_inodes f)). split; [done|]. split; [done|]. split.
    { intros (Hh & i & Hi & Hni). destruct Hwhy as [[_ Hfull]|?]; [|done]. apply Hni, (full_allocated sb (f_sb f) i Hio Hfull); lia. }
    apply sim_marked; [done|done|]. intros i _ Hi ?. apply Hsame; [by rewrite <- Hcnt|done].
  - destruct Ho as (Hr & Hna & (F1 & F2 & F3 & F4 & F5 & F6 & F7 & F8 & F9) & Hg & _ & s1 & Hfl & Hsame).
    set (c := i_ino (core n)) in *. pose proof (wf_first (sb := sb)) as Hfi.
    assert (Hal : forall i, 1 <= i <= es_inodes_count sb -> allocated sb s' i <-> i = c \/ allocated sb (f_sb f) i).
    { intros i Hi. rewrite Hcnt in Hi. rewrite (inodes_same_allocated sb s1 s' i Hsame Hi), (fl_alloc _ _ _ _ _ _ Hfl i Hi).
      case_decide as E'; [subst; tauto|]. tauto. }
    assert (Hnew : f_inodes f !! c = None).
    { apply eq_None_not_Some. intros [n' Hn']. by destruct (sim_node _ _ _ _ _ _ _ _ Hs c n' Hn') as (_ & _ & _ & ?). }
    assert (Htc : t !! c = None).
    { apply eq_None_not_Some. intros [a' Ha']. destruct (sim_tree _ _ _ _ _ _ _ _ Hs c a' Ha') as [? ?]. congruence. }
    exists (inr c), (Fs s' (<[c := n]> (f_inodes f))). split; [done|]. split; [done|]. split; [lia|]. split.
    { exists n. simpl. rewrite lookup_insert_eq. done. }
    destruct (sim_marked _ _ _ _ _ s' Hs Hs') as [H1 H2 H3 H4 H5]; [intros i _ Hi ?; apply Hal; auto|]. simpl in *. split; simpl.
    + done.
    + intros i ni. destruct (decide (i = c)) as [->|]; [rewrite !lookup_insert_eq|rewrite !lookup_insert_ne by done; apply H2].
      intros [= <-]. eexists. split; [done|]. split; [|apply Hal; [lia|by left]].
      split; cbn [n_links n_isdir n_dir]; try done; try lia. unfold is_bad_inode. by rewrite F4.
    + intros i ai. destruct (decide (i = c)) as [->|]; [rewrite !lookup_insert_eq; eauto|rewrite !lookup_insert_ne by done; apply H3].
    + intros x nx Hx [[<- <-]|[_ Hn']]%lookup_insert_Some; [|eauto]. rewrite F5.
      destruct (geo_sizes (k c) sbd) as (_ & _ & _ & _ & HB & _). lia.
    + intros x nx [= <-]. rewrite lookup_insert_eq. by intros [= <-].
Qed.

(** A call on an inode that is not a directory in use. *)
Lemma sim_on_file {A} (g : dir -> res (A * dir)) x d' f t S R C i n a a' : sim f t S R C -> f_inodes f !! i = Some n ->
  t !! i = Some a -> g (core n) = Ok (x, d') -> same_inode (core n) d' -> R <> Some i ->
  n_isdir a' = n_isdir a -> n_links a' = n_links a ->
  (match n_dir a' with Some m => exists p, dir_rep (k i) sbd d' m (dots i p ++ S i) | None => True end) ->
  exists f', on_dir g i f = Ok (x, f') /\ sim f' (<[i := a']> t) S R C.
Proof using.
  intros Hs Hi Ha Hg [I1 I2] HR E1 E2 Hd. unfold on_dir, get_inode. rewrite Hi. cbn [deref rbind]. rewrite Hg. cbn [rbind].
  eexists. split; [done|]. destruct (sim_get _ _ _ _ _ _ _ _ i a Hs Ha) as (n' & _ & Hi' & Hn & _). replace n' with n in * by congruence.
  destruct Hn as [H1 H2 H2' H3 H4 H5 H6 H7 H8].
  apply (sim_put _ _ _ f t S S R C i n (with_core d' n) a); [done|done|done| |done|by left|right; by destruct n].
  destruct n; split; simpl in *; first [done|congruence|lia|idtac].
Qed.

Lemma sim_make_empty f t S R C c l p : sim f t S R C -> t !! c = Some (Node true l None) -> blank_dir f c -> S c = [] -> R <> Some c ->
  1 <= p <= es_inodes_count sb ->
  exists err f', on_dir (fun d => ext2_make_empty (k c) sbd (fresh_page c) d p) c f = Ok (err, f') /\
    (err = 0 /\ sim f' (<[c := Node true l (Some (new_dir c p))]> t) S R C \/ err <> 0 /\ sim f' t S R C).
Proof using Env.
  intros Hs Ha (n & En & B1 & B2 & B3 & B4) HS HR Hp. destruct (sim_get _ _ _ _ _ _ _ _ c _ Hs Ha) as (n' & _ & Hi' & Hn & _).
  replace n' with n in * by congruence. pose proof (nr_ino _ _ _ _ _ _ _ Hn) as Hino. pose proof (nr_range _ _ _ _ _ _ _ Hn) as Hrg.
  destruct (rep_make_empty (k c) sbd (fresh_page c) (core n) p) as (err & d' & E & Hsi & Ho); try (rewrite ?env_inodes; lia).
  { rewrite B4. apply lookup_empty. }
  { intros data. apply env_fresh. }
  { intros m Hm. unfold readable. rewrite B4, lookup_empty. by apply env_read. }
  rewrite Hino in Ho. destruct Ho as [(-> & _ & Hr)|[He _]].
  - rewrite env_sync in E. destruct (sim_on_file (fun d => ext2_make_empty (k c) sbd (fresh_page c) d p) 0 d' f t S R C c n _
      (Node true l (Some (new_dir c p))) Hs En Ha) as (f' & E' & Hs'); try done; [|eauto 10].
    exists p. by rewrite HS, app_nil_r.
  - destruct (sim_on_file (fun d => ext2_make_empty (k c) sbd (fresh_page c) d p) err d' f t S R C c n _
      (Node true l None) Hs En Ha) as (f' & E' & Hs'); try done. rewrite insert_id in Hs' by done. eauto 10.
Qed.

(** ** [iput] *)

Lemma sim_iput_last f t S R i a : sim f t S R (Some i) -> t !! i = Some a -> n_links a = 0 -> EXT2_FIRST_INO sb <= i ->
  exists f', iput_inode sb release_blocks i f = Ok f' /\ sim f' (delete i t) S R None.
Proof using Env.
  intros Hs Ha Hl Hfi. destruct (sim_get _ _ _ _ _ _ _ _ i a Hs Ha) as (n & E & Hi & Hn & Hal).
  pose proof (sim_pin _ _ _ _ _ _ _ _ Hs i n eq_refl Hi) as Hpin. destruct Hn as [H1 H2 H2' H3 H4 H5 H6 H7 H8].
  pose proof (sim_alloc _ _ _ _ _ _ _ _ Hs) as Hio. pose proof (io_count sb _ Hio) as Hcnt.
  set (s1 := release_blocks (with_count (i_count n - 1) n) (f_sb f)).
  assert (Hsame : inodes_same sb (f_sb f) s1) by apply env_release.
  assert (Hal1 : forall j, 1 <= j <= es_inodes_count sb -> allocated sb s1 j <-> allocated sb (f_sb f) j)
    by (intros j Hj; apply (inodes_same_allocated sb (f_sb f) s1 j Hsame); lia).
  assert (Ei : i_ino (core (with_count (i_count n - 1) n)) = i) by (by destruct n).
  destruct (free_spec sb s1 (with_count (i_count n - 1) n)) as (s2 & Ef & Hfl & _).
  { by apply (inodes_same_ok sb (f_sb f)). }
  { by rewrite Ei. }
  { rewrite Ei. lia. }
  { rewrite Ei. by apply Hal1. }
  rewrite Ei in Hfl.
  unfold iput_inode. rewrite E. cbn [rbind]. unfold iput, ext2_evict_inode.
  replace (i_count (with_count _ n)) with 0 by (destruct n; simpl in *; lia). cbn [Z.eqb].
  replace (i_nlink (with_count _ n)) with 0 by (destruct n; simpl in *; lia). cbn [Z.eqb orb andb].
  replace (is_bad_inode (with_count _ n)) with false by (by destruct n). cbn [negb]. fold s1. rewrite Ef. cbn [rbind].
  eexists. split; [done|]. destruct Hs as [G1 G2 G3 G4 G5]. split; simpl.
  - apply Hfl.
  - intros j nj [Hji Hj]%lookup_delete_Some. destruct (G2 j nj Hj) as (aj & Haj & Hnj & Halj). exists aj.
    rewrite lookup_delete_ne by done. split; [done|]. split; [done|]. pose proof (nr_range _ _ _ _ _ _ _ Hnj) as Hrj.
    apply (fl_alloc _ _ _ _ _ _ Hfl); [lia|]. rewrite decide_False by done. by apply Hal1.
  - intros j aj [Hji Hj]%lookup_delete_Some. rewrite lookup_delete_ne by done. eauto.
  - intros d nd HR [_ Hd]%lookup_delete_Some. eauto.
  - done.
Qed.

(** An inode with links stays. *)
Lemma sim_iput_linked f t S R C i a : sim f t S R C -> t !! i = Some a -> n_links a <> 0 \/ (forall n, f_inodes f !! i = Some n -> i_count n <> 1) -> C <> Some i ->
  exists f', iput_inode sb release_blocks i f = Ok f' /\ sim f' t S R C.
Proof using.
  intros Hs Ha Hl HC. destruct (sim_get _ _ _ _ _ _ _ _ i a Hs Ha) as (n & E & Hi & Hn & Hal). assert (Hn0 := Hn).
  destruct Hn0 as [H1 H2 H2' H3 H4 H5 H6 H7 H8]. unfold iput_inode. rewrite E. cbn [rbind]. unfold iput.
  assert (Hput : sim (put_inode i (with_count (i_count n - 1) n) f) (<[i := a]> t) S R C).
  { apply (sim_put _ _ _ f t S S R C i n _ a); [done|done|done| |done|right; by destruct n|by left]. by destruct n; split. }
  rewrite insert_id in Hput by done. replace (i_nlink (with_count _ n)) with (n_links a) by (by destruct n).
  replace (is_bad_inode (with_count _ n)) with false by (by destruct n).
  destruct Hl as [Hl|Hl].
  - rewrite (proj2 (Z.eqb_neq _ 0) Hl). cbn [orb]. destruct (i_count (with_count (i_count n - 1) n) =? 0); eauto.
  - specialize (Hl n Hi). rewrite (proj2 (Z.eqb_neq _ 0)) by (destruct n; simpl in *; lia). eauto.
Qed.
End Calls.
