(* ===== verification/Ext2NameiOps.v ===== *)
(** * ext2: the handlers change the tree as they should

    For each handler of [Ext2Namei], called as the VFS calls it: it returns, with 0 and the
    change of [Ext2TreeOps], or with an error and an unchanged tree. *)

From stdpp Require Import functions.
From S2P Require Import Prelude CString ByteMem Ext2Layout Ext2Dir Ext2DirPage Ext2DirRead Ext2DirFind Ext2DirWrite Ext2DirUpdate Ext2DirRep.
From S2P Require Import Ext2Super Ext2Inode Ext2Ialloc Ext2IallocFacts Ext2IallocTheorems Ext2Namei Ext2Tree Ext2TreeOps Ext2NameiSim Ext2NameiCalls.

(** A change of an inode whose contents no longer matter. *)
Definition light (g : inode -> inode) (l c : Z) : Prop := forall n, is_bad_inode n = false ->
  same_inode (core n) (core (g n)) /\ i_block_group (g n) = i_block_group n /\ is_bad_inode (g n) = false /\
  i_count (g n) = i_count n + c /\
  (0 <= i_nlink n < 2 ^ 32 -> 0 <= i_nlink n + l < 2 ^ 32 -> i_nlink (g n) = i_nlink n + l).

Ltac light_tac :=
  let n := fresh in intros n ?; destruct n as [[]]; unfold same_inode; simpl in *; repeat split; try done; try lia;
  intros; unfold u32; rewrite ?Z.mod_small by (rewrite ?Z.mod_small; lia); lia.

Definition nowhere : Z -> list spot := fun _ => [].

Section Ops.
Context (k : Z -> kernel) (sbd : super) (sb : sb_info) (v : vfs) (release_blocks : inode -> sbi -> sbi).
Context (fresh_page : Z -> option (list byte)) (symlink_page : dir -> list byte -> Z * dir).
Context {Env : NameiEnv k sbd sb v release_blocks fresh_page symlink_page} (root : Z).

Notation sim := (sim k sbd sb).
Notation iput_inode := (iput_inode sb release_blocks).

Lemma sim_upd_dead g l c f t S R C i a : sim f t S R C -> t !! i = Some a -> light g l c -> 0 <= n_links a + l < 2 ^ 32 ->
  c = 0 \/ C <> Some i -> R <> Some i ->
  exists f', upd_inode g i f = Ok f' /\ sim f' (<[i := Node (n_isdir a) (n_links a + l) None]> t) S R C.
Proof using.
  intros Hs Ha Hg Hl Hc HR. destruct (sim_get _ _ _ _ _ _ _ _ i a Hs Ha) as (n & En & Ei & Hn & _).
  unfold upd_inode. rewrite En. cbn [rbind]. eexists. split; [done|].
  destruct Hn as [H1 H2 H2' H3 H4 H5 H6 H7 H8]. destruct (Hg n H7) as ((E1 & E2) & G2 & G3 & G4 & G5).
  apply (sim_put _ _ _ f t S S R C i n (g n) a); [done|done|done| |done|by left|destruct Hc as [-> |?]; [right; lia|by left]].
  split; cbn [n_links n_isdir n_dir]; try congruence; try lia.
Qed.

(** Places that are no longer needed. *)
Lemma released f t S R C : sim f t S R C -> sim f t nowhere None None.
Proof using. intros Hs. eapply sim_weaken; [..|exact Hs]; auto. intros i. apply list_subseteq_nil. Qed.

(** ** Making files *)

Lemma dir_of_new t i a d m : t !! i = None -> dir_of t d = Some m -> dir_of (<[i := a]> t) d = Some m /\ d <> i.
Proof using.
  intros Hi Hd. assert (d <> i) by (intros ->; unfold dir_of in Hd; rewrite Hi in Hd; done).
  split; [|done]. rewrite dir_of_insert. by rewrite fn_lookup_insert_ne.
Qed.

Lemma add_links_new t i b l l' m : add_links i l (<[i := Node b l' m]> t) = <[i := Node b (l' + l) m]> t.
Proof using. unfold add_links. by rewrite (alter_insert _ _ i _ (lookup_insert_eq t i _)), insert_insert_eq. Qed.

Lemma add_links_add t i l l' : add_links i l (add_links i l' t) = add_links i (l' + l) t.
Proof using.
  unfold add_links. rewrite alter_alter_eq. apply alter_ext. intros [b x y] _. simpl. f_equal. lia.
Qed.

Lemma is_Some_links t i l j a : t !! j = Some a -> exists a', add_links i l t !! j = Some a' /\
  n_links a' = n_links a + (if decide (j = i) then l else 0) /\ n_isdir a' = n_isdir a /\ n_dir a' = n_dir a.
Proof using.
  intros Ha. unfold add_links. destruct (decide (j = i)) as [->|].
  - rewrite lookup_alter_eq, Ha. by eexists.
  - rewrite lookup_alter_ne, Ha by done. eexists. split; [done|]. split; [lia|done].
Qed.

(** The new inode is dropped again. *)
Lemma drop_new t S R i b m f : sim f (<[i := Node b 1 m]> t) S R (Some i) -> t !! i = None -> EXT2_FIRST_INO sb <= i ->
  exists f1 f2 f3, upd_inode inode_dec_link_count i f = Ok f1 /\ upd_inode unlock_new_inode i f1 = Ok f2 /\
    iput_inode i f2 = Ok f3 /\ sim f3 t S R None.
Proof using Env.
  intros Hs Hi Hfi. destruct (sim_upd _ _ _ _ _ 0 _ _ _ _ _ i _ Hs (lookup_insert_eq _ _ _) soft_dec) as (f1 & E1 & Hs1);
    [simpl; lia|by left|]. rewrite add_links_new in Hs1.
  destruct (sim_touch _ _ _ _ 0 _ _ _ _ _ i _ Hs1 (lookup_insert_eq _ _ _) soft_unlock) as (f2 & E2 & Hs2); [by left|].
  destruct (sim_iput_last _ _ _ _ _ _ _ _ _ _ _ i _ Hs2 (lookup_insert_eq _ _ _)) as (f3 & E3 & Hs3); [done|done|].
  rewrite delete_insert_id in Hs3 by done. by exists f1, f2, f3.
Qed.

(** What a handler that makes a file leaves behind; it does not fail when [ok] holds. *)
Definition made (dentry : dentry) (t : tree) (ok : Prop) (err : Z) (de : Ext2Namei.dentry) (f : fs) : Prop :=
  err = 0 /\ (exists i, t !! i = None /\ de = d_instantiate dentry i /\
    sim f (t_create (d_parent dentry) (d_name dentry) i t) nowhere None None) \/
  err <> 0 /\ ~ ok /\ de = dentry /\ sim f t nowhere None None.

Section Make.
Context (f : fs) (t : tree) (dentry : dentry) (m : dirmap).
Notation d := (d_parent dentry).
Notation name := (d_name dentry).
Hypothesis Hs : sim f t nowhere (Some d) None.
Hypothesis Hd : dir_of t d = Some m.
Hypothesis Hv : valid_name name.
Hypothesis Hno : m !! name = None.
Context (ok : Prop).

(** Nothing runs out. *)
Definition plenty : Prop := hooks_succeed v /\ has_free sb f /\ writable (k d).

Lemma add_nondir_sim f1 i : (ok -> writable (k d)) -> sim f1 (<[i := Node false 1 None]> t) nowhere (Some d) (Some i) -> t !! i = None -> EXT2_FIRST_INO sb <= i ->
  exists err de f', ext2_add_nondir k sbd sb release_blocks dentry i f1 = Ok (err, de, f') /\ made dentry t ok err de f'.
Proof using Env Hd Hv Hno.
  intros Hok Hs1 Hi Hfi. destruct (dir_of_new t i (Node false 1 None) _ m Hi Hd) as [Hd1 Hne].
  destruct (sim_add _ _ _ _ _ _ _ _ _ _ _ dentry _ _ m i _ Hs1 eq_refl eq_refl Hd1 Hv Hno (lookup_insert_eq _ _ _)) as (err & f2 & E2 & Ho).
  unfold ext2_add_nondir. rewrite E2. cbn [rbind]. destruct Ho as [[-> Hs2]|(He & Hnw & Hs2)].
  - cbn [Z.eqb]. destruct (some_put (<[i := Node false 1 None]> t) d name i i) as [a Ha]; [rewrite lookup_insert_eq; eauto|].
    destruct (sim_touch _ _ _ _ 0 _ _ _ _ _ i _ Hs2 Ha soft_unlock) as (f3 & -> & Hs3); [by left|]. cbn [rbind].
    eexists _, _, _. split; [done|]. left. split; [done|]. exists i. split; [done|]. split; [done|].
    by eapply released.
  - rewrite (proj2 (Z.eqb_neq err 0) He). destruct (drop_new t _ _ i _ _ f2 Hs2 Hi Hfi) as (f3 & f4 & f5 & -> & E4 & E5 & Hs5).
    cbn [rbind]. rewrite E4. cbn [rbind]. rewrite E5. cbn [rbind]. eexists _, _, _. split; [done|]. right. split; [done|]. split; [by intros ?%Hok|]. done.
Qed.

(** The inode is made first. *)
Lemma new_file_sim mode (rest : Z -> fs -> res (Z * Ext2Namei.dentry * fs)) a : S_ISDIR mode = false -> t !! d = Some a -> (ok -> plenty) ->
  (forall f1 i, sim f1 (<[i := Node false 1 None]> t) nowhere (Some d) (Some i) -> t !! i = None -> EXT2_FIRST_INO sb <= i ->
     exists err de f', rest i f1 = Ok (err, de, f') /\ made dentry t ok err de f') ->
  exists err de f', (let* '(r, f) := new_inode sb v release_blocks f d mode in
    match r with inl err => Ok (err, dentry, f) | inr ino => rest ino f end) = Ok (err, de, f') /\ made dentry t ok err de f'.
Proof using Env Hs.
  intros Hmode Ha Hok Hrest. destruct (sim_new _ _ _ _ _ _ _ _ _ _ _ _ d a mode Hs Ha) as (r & f1 & E1 & Ho). rewrite E1. cbn [rbind].
  destruct r as [err|i].
  - destruct Ho as (He & Hno' & Hs1). eexists _, _, _. split; [done|]. right. split; [done|]. split; [intros (? & ? & _)%Hok; by apply Hno'|].
    split; [done|]. by eapply released.
  - destruct Ho as (Hi & Hfi & _ & Hs1). rewrite Hmode in Hs1. by apply Hrest.
Qed.

Lemma failed_sim err : err <> 0 -> ~ ok -> made dentry t ok err dentry f.
Proof using Hs. intros He Hok. right. split; [done|]. split; [done|]. split; [done|]. by eapply released. Qed.

Lemma quota_ok : (ok -> plenty) -> dquot_initialize v d <> 0 -> ~ ok.
Proof using. intros Hok Hq ([_ Hh] & _)%Hok. by destruct (Hh d). Qed.

Lemma create_sim mode : (ok -> plenty) -> S_ISDIR mode = false ->
  exists err de f', ext2_create k sbd sb v release_blocks d dentry mode f = Ok (err, de, f') /\ made dentry t ok err de f'.
Proof using Env Hs Hd Hv Hno.
  intros Hok Hmode. unfold ext2_create. destruct (Z.eqb_spec (dquot_initialize v d) 0) as [E|E]; cbn [negb]; [|eauto 10 using failed_sim, quota_ok].
  apply dir_of_Some in Hd as Hd0. destruct Hd0 as (a & Ha & _). apply (new_file_sim mode _ a Hmode Ha Hok). intros f1 i Hs1 Hi Hfi.
  destruct (sim_touch k sbd sb (fun n => mark_inode_dirty (set_aops sb (with_op ext2_file_inode_operations n))) 0 _ _ _ _ _ i _ Hs1
    (lookup_insert_eq _ _ _)) as (f2 & -> & Hs2); [unfold set_aops; soft_tac|by left|]. cbn [rbind]. apply add_nondir_sim; [|done..]; by intros (_ & _ & ?)%Hok.
Qed.

Lemma mknod_sim mode rdev : (ok -> plenty) -> S_ISDIR mode = false ->
  exists err de f', ext2_mknod k sbd sb v release_blocks d dentry mode rdev f = Ok (err, de, f') /\ made dentry t ok err de f'.
Proof using Env Hs Hd Hv Hno.
  intros Hok Hmode. unfold ext2_mknod. destruct (Z.eqb_spec (dquot_initialize v d) 0) as [E|E]; cbn [negb]; [|eauto 10 using failed_sim, quota_ok].
  apply dir_of_Some in Hd as Hd0. destruct Hd0 as (a & Ha & _). apply (new_file_sim mode _ a Hmode Ha Hok). intros f1 i Hs1 Hi Hfi.
  destruct (sim_touch k sbd sb (fun n => mark_inode_dirty (with_op ext2_special_inode_operations (init_special_inode rdev n))) 0
    _ _ _ _ _ i _ Hs1 (lookup_insert_eq _ _ _)) as (f2 & -> & Hs2); [|by left|cbn [rbind]; apply add_nondir_sim; [|done..]; by intros (_ & _ & ?)%Hok].
  intros n Hn. unfold init_special_inode. destruct ((_ =? _) || (_ =? _)); revert n Hn; soft_tac.
Qed.

Lemma symlink_sim symname : ~ ok ->
  exists err de f', ext2_symlink k sbd sb v release_blocks symlink_page d dentry symname f = Ok (err, de, f') /\ made dentry t ok err de f'.
Proof using Env Hs Hd Hv Hno.
  intros Hok. unfold ext2_symlink. destruct (s_blocksize sbd <? len symname + 1); [by eauto 10 using failed_sim, quota_ok|].
  destruct (Z.eqb_spec (dquot_initialize v d) 0) as [E|E]; cbn [negb]; [|eauto 10 using failed_sim, quota_ok].
  apply dir_of_Some in Hd as Hd0. destruct Hd0 as (a & Ha & _). apply (new_file_sim (Z.lor S_IFLNK S_IRWXUGO) _ a eq_refl Ha); [done|]. intros f1 i Hs1 Hi Hfi.
  destruct (dir_of_new t i (Node false 1 None) _ m Hi Hd) as [_ Hne]. destruct (SIZEOF_I_DATA <? len symname + 1).
  - destruct (sim_touch k sbd sb (fun n => set_aops sb (with_op ext2_symlink_inode_operations n)) 0 _ _ _ _ _ i _ Hs1
      (lookup_insert_eq _ _ _)) as (f2 & -> & Hs2); [unfold set_aops; soft_tac|by left|]. cbn [rbind].
    destruct (sim_get _ _ _ _ _ _ _ _ i _ Hs2 (lookup_insert_eq _ _ _)) as (n & _ & En & _).
    pose proof (env_symlink (core n) symname) as Hsy. destruct (symlink_page (core n) symname) as [err d'] eqn:Esy. simpl in Hsy.
    destruct (sim_on_file k sbd sb (fun d => Ok (symlink_page d symname)) err d' f2 _ _ _ _ i n _ (Node false 1 None) Hs2 En (lookup_insert_eq _ _ _))
      as (f3 & -> & Hs3); [by rewrite Esy|done|congruence|done..|]. cbn [rbind]. rewrite insert_insert_eq in Hs3.
    destruct (Z.eqb_spec err 0) as [E'|E']; cbn [negb].
    + destruct (sim_touch k sbd sb mark_inode_dirty 0 _ _ _ _ _ i _ Hs3 (lookup_insert_eq _ _ _)) as (f4 & -> & Hs4);
        [soft_tac|by left|]. cbn [rbind]. by apply add_nondir_sim.
    + destruct (drop_new t _ _ i _ _ f3 Hs3 Hi Hfi) as (f4 & f5 & f6 & -> & E5 & E6 & Hs6).
      cbn [rbind]. rewrite E5. cbn [rbind]. rewrite E6. cbn [rbind]. eexists _, _, _. split; [done|]. right. split; [done|]. split; [done|]. split; [done|].
      by eapply released.
  - match goal with |- context [upd_inode ?g i f1] =>
      destruct (sim_upd_dead g 0 0 f1 _ _ _ _ i _ Hs1 (lookup_insert_eq _ _ _)) as (f2 & -> & Hs2) end;
      [light_tac|simpl; lia|by left|congruence|]. cbn [rbind]. rewrite insert_insert_eq in Hs2.
    by apply add_nondir_sim.
Qed.

(** ** Links and directories *)

Lemma link_sim i a : t !! i = Some a -> 1 <= n_links a < 2 ^ 32 - 1 ->
  exists err de f', ext2_link k sbd sb v release_blocks i d dentry f = Ok (err, de, f') /\
    (err = 0 /\ de = d_instantiate dentry i /\ sim f' (t_link d name i t) nowhere None None \/
     err <> 0 /\ de = dentry /\ sim f' t nowhere None None).
Proof using Env Hs Hd Hv Hno.
  intros Ha Hl. unfold ext2_link. destruct (Z.eqb_spec (dquot_initialize v d) 0) as [E|E]; cbn [negb].
  2: { eexists _, _, _. split; [done|]. right. split; [done|]. split; [done|]. by eapply released. }
  destruct (sim_upd k sbd sb (fun n => ihold (inode_inc_link_count (stamp_ctime (vfs_time v) n))) 1 1 f t _ _ _ i a Hs Ha)
    as (f1 & -> & Hs1); [soft_tac|lia|by right|]. cbn [rbind].
  destruct (is_Some_links t i 1 i a Ha) as (a1 & Ha1 & Hl1 & _). rewrite decide_True in Hl1 by done.
  destruct (sim_add _ _ _ _ _ _ _ _ _ _ _ dentry _ _ m i a1 Hs1 eq_refl eq_refl) as (err & f2 & -> & Ho);
    [by rewrite dir_of_links|done|done|done|]. cbn [rbind]. destruct Ho as [[-> Hs2]|(He & _ & Hs2)].
  - cbn [Z.eqb]. eexists _, _, _. split; [done|]. left. done.
  - rewrite (proj2 (Z.eqb_neq err 0) He).
    destruct (sim_upd k sbd sb inode_dec_link_count (-1) 0 f2 _ _ _ _ i a1 Hs2 Ha1 soft_dec) as (f3 & -> & Hs3); [lia|by left|].
    cbn [rbind]. rewrite add_links_add, add_links_0 in Hs3.
    destruct (sim_iput_linked _ _ _ release_blocks _ _ _ _ _ i a Hs3 Ha) as (f4 & -> & Hs4); [left; lia|done|]. cbn [rbind].
    eexists _, _, _. split; [done|]. right. done.
Qed.

(** The way out of [ext2_mkdir] when the new inode has been made. *)
Lemma mkdir_fail f1 c b R : sim f1 (<[c := Node true 2 b]> (add_links d 1 t)) nowhere R (Some c) -> t !! c = None ->
  EXT2_FIRST_INO sb <= c -> d <> c -> forall err, err <> 0 ->
  exists de f', (let* f := upd_inode inode_dec_link_count c f1 in
    let* f := upd_inode inode_dec_link_count c f in
    let* f := upd_inode unlock_new_inode c f in
    let* f := iput_inode c f in
    let* f := upd_inode inode_dec_link_count d f in Ok (err, dentry, f)) = Ok (err, de, f') /\
    de = dentry /\ sim f' t nowhere None None.
Proof using Env Hs Hd.
  intros Hs1 Hc Hfi Hne err He. apply dir_of_Some in Hd as (a & Ha & _).
  destruct (sim_upd _ _ _ _ _ 0 _ _ _ _ _ c _ Hs1 (lookup_insert_eq _ _ _) soft_dec) as (f2 & -> & Hs2);
    [simpl; lia|by left|]. cbn [rbind]. rewrite add_links_new in Hs2.
  assert (Hc1 : add_links d 1 t !! c = None) by (unfold add_links; by rewrite lookup_alter_ne).
  destruct (drop_new _ _ _ c _ _ f2 Hs2 Hc1 Hfi) as (f3 & f4 & f5 & -> & E4 & E5 & Hs5). cbn [rbind]. rewrite E4. cbn [rbind].
  rewrite E5. cbn [rbind]. destruct (is_Some_links t d 1 d a Ha) as (a1 & Ha1 & Hl1 & _). rewrite decide_True in Hl1 by done.
  destruct (sim_get _ _ _ _ _ _ _ _ d _ Hs Ha) as (n & _ & _ & Hn & _). pose proof (nr_links _ _ _ _ _ _ _ Hn).
  destruct (sim_upd k sbd sb inode_dec_link_count (-1) 0 f5 _ _ _ _ d a1 Hs5 Ha1 soft_dec) as (f6 & -> & Hs6); [lia|by left|].
  cbn [rbind]. rewrite add_links_add, add_links_0 in Hs6. eexists _, _. split; [done|]. split; [done|].
  by eapply released.
Qed.

Lemma mkdir_sim mode : S_ISDIR (Z.lor S_IFDIR mode) = true -> links t d < 2 ^ 32 - 1 ->
  exists err de f', ext2_mkdir k sbd sb v release_blocks fresh_page d dentry mode f = Ok (err, de, f') /\
    (err = 0 /\ (exists c, t !! c = None /\ de = d_instantiate dentry c /\ sim f' (t_mkdir d name c t) nowhere None None) \/
     err <> 0 /\ de = dentry /\ sim f' t nowhere None None).
Proof using Env Hs Hd Hv Hno.
  intros Hmode Hl. unfold ext2_mkdir. destruct (Z.eqb_spec (dquot_initialize v d) 0) as [E|E]; cbn [negb].
  2: { eexists _, _, _. split; [done|]. right. split; [done|]. split; [done|]. by eapply released. }
  apply dir_of_Some in Hd as Hd0. destruct Hd0 as (a & Ha & _). unfold links in Hl. rewrite Ha in Hl.
  destruct (sim_get _ _ _ _ _ _ _ _ d _ Hs Ha) as (n & _ & _ & Hn & _). pose proof (nr_links _ _ _ _ _ _ _ Hn).
  pose proof (nr_range _ _ _ _ _ _ _ Hn) as Hrd.
  destruct (sim_upd k sbd sb inode_inc_link_count 1 0 f t _ _ _ d a Hs Ha soft_inc) as (f1 & -> & Hs1); [lia|by left|]. cbn [rbind].
  destruct (is_Some_links t d 1 d a Ha) as (a1 & Ha1 & Hl1 & _). rewrite decide_True in Hl1 by done.
  destruct (sim_new _ _ _ _ _ _ _ _ _ _ _ _ d a1 (Z.lor S_IFDIR mode) Hs1 Ha1) as (r & f2 & -> & Ho). cbn [rbind].
  destruct r as [err|c].
  { destruct Ho as (He & _ & Hs2). destruct (sim_upd k sbd sb inode_dec_link_count (-1) 0 f2 _ _ _ _ d a1 Hs2 Ha1 soft_dec) as (f3 & -> & Hs3);
      [lia|by left|]. cbn [rbind]. rewrite add_links_add, add_links_0 in Hs3. eexists _, _, _. split; [done|]. right. split; [done|].
    split; [done|]. by eapply released. }
  destruct Ho as (Hc1 & Hfi & Hbl & Hs2). rewrite Hmode in Hs2.
  assert (Hne : d <> c) by (intros Heq; rewrite <- Heq in Hc1; congruence).
  assert (Hc : t !! c = None) by (unfold add_links in Hc1; by rewrite lookup_alter_ne in Hc1).
  set (g := fun n => inode_inc_link_count (set_aops sb (with_op ext2_dir_inode_operations n))).
  assert (Hg : soft g 1 0) by (unfold g, set_aops; soft_tac).
  destruct (sim_upd k sbd sb g 1 0 f2 _ _ _ _ c _ Hs2 (lookup_insert_eq _ _ _) Hg) as (f3 & E3 & Hs3); [simpl; lia|by left|].
  rewrite E3. cbn [rbind]. rewrite add_links_new in Hs3. change (1 + 1) with 2 in Hs3.
  assert (Hbl3 : blank_dir f3 c).
  { eapply blank_upd; [exact Hbl|exact Hg|exact E3|]. intros n' Hn'. destruct (sim_node _ _ _ _ _ _ _ _ Hs2 c n' Hn') as (? & _ & Hr & _). apply Hr. }
  destruct (sim_make_empty _ _ _ _ _ fresh_page _ _ _ _ _ _ c 2 d Hs3 (lookup_insert_eq _ _ _) Hbl3) as (err & f4 & -> & Ho);
    [done|congruence|done|]. cbn [rbind]. destruct Ho as [[-> Hs4]|[He Hs4]].
  2: { rewrite (proj2 (Z.eqb_neq err 0) He). cbn [negb]. destruct (mkdir_fail f4 c _ _ Hs4 Hc Hfi Hne err He) as (de & f' & E' & -> & Hs').
    eexists _, _, _. split; [exact E'|]. by right. }
  cbn [Z.eqb negb]. rewrite insert_insert_eq in Hs4. set (t4 := <[c := Node true 2 (Some (new_dir c d))]> (add_links d 1 t)) in *.
  destruct (sim_add _ _ _ _ _ _ _ _ _ _ _ dentry _ _ m c (Node true 2 (Some (new_dir c d))) Hs4 eq_refl eq_refl) as (err & f5 & -> & Ho);
    [unfold t4; apply dir_of_new; [done|by rewrite dir_of_links]|done|done|apply lookup_insert_eq|]. cbn [rbind].
  destruct Ho as [[-> Hs5]|(He & _ & Hs5)].
  2: { rewrite (proj2 (Z.eqb_neq err 0) He). cbn [negb]. destruct (mkdir_fail f5 c _ _ Hs5 Hc Hfi Hne err He) as (de & f' & E' & -> & Hs').
    eexists _, _, _. split; [exact E'|]. by right. }
  cbn [Z.eqb negb]. destruct (some_put t4 d name c c) as [a5 Ha5]; [unfold t4; rewrite lookup_insert_eq; eauto|].
  destruct (sim_touch _ _ _ _ 0 _ _ _ _ _ c _ Hs5 Ha5 soft_unlock) as (f6 & -> & Hs6); [by left|]. cbn [rbind].
  eexists _, _, _. split; [done|]. left. split; [done|]. exists c. split; [done|]. split; [done|]. by eapply released.
Qed.
End Make.

(** A file without a name. *)
Lemma tmpfile_sim f t d m tmpname dentry mode : sim f t nowhere None None -> dir_of t d = Some m -> S_ISDIR mode = false ->
  exists err de f', ext2_tmpfile sb v release_blocks tmpname d dentry mode f = Ok (err, de, f') /\
    (err = 0 /\ (exists i, t !! i = None /\ d_inode de = Some i /\ sim f' (<[i := Node false 0 None]> t) nowhere None None) \/
     err <> 0 /\ sim f' t nowhere None None).
Proof using Env.
  intros Hs Hd Hmode. apply dir_of_Some in Hd as Hd0. destruct Hd0 as (a & Ha & _). unfold ext2_tmpfile.
  destruct (sim_new _ _ _ _ _ _ _ _ _ _ _ _ d a mode Hs Ha) as (r & f1 & -> & Ho). cbn [rbind]. destruct r as [err|i].
  - destruct Ho as (He & _ & Hs1). eexists _, _, _. split; [done|]. right. split; [done|]. by eapply released.
  - destruct Ho as (Hi & Hfi & _ & Hs1). rewrite Hmode in Hs1.
    destruct (sim_touch k sbd sb (fun n => mark_inode_dirty (set_aops sb (with_op ext2_file_inode_operations n))) 0 _ _ _ _ _ i _ Hs1
      (lookup_insert_eq _ _ _)) as (f2 & -> & Hs2); [unfold set_aops; soft_tac|by left|]. cbn [rbind].
    destruct (sim_upd _ _ _ _ _ 0 _ _ _ _ _ i _ Hs2 (lookup_insert_eq _ _ _) soft_dec) as (f3 & -> & Hs3);
      [simpl; lia|by left|]. rewrite add_links_new in Hs3. cbn [rbind].
    destruct (sim_touch _ _ _ _ 0 _ _ _ _ _ i _ Hs3 (lookup_insert_eq _ _ _) soft_unlock) as (f4 & -> & Hs4); [by left|]. cbn [rbind].
    eexists _, _, _. split; [done|]. left. split; [done|]. exists i. split; [done|]. split; [done|]. by eapply released.
Qed.

(** ** Removing *)

(** An entry that is there is found. *)
Lemma sim_found f t S R C d m name i : sim f t S R C -> dir_of t d = Some m -> valid_name name -> m !! name = Some i ->
  exists de f', find_entry k sbd d name f = Ok (Some de, f') /\
    sim f' t (<[d := Spot (fst de) (snd de) name i true :: S d]> S) R C.
Proof using Env.
  intros Hs Hd Hv Hi. destruct (sim_find _ _ _ _ _ _ _ _ _ _ _ _ d m name Hs Hd Hv) as (r & f' & E & Ho).
  destruct r as [de|]; [|destruct Ho; congruence]. destruct Ho as (i' & Hi' & Ho). exists de, f'. split; [done|].
  by replace i with i' by congruence.
Qed.

Lemma is_Some_del t d name i a : t !! i = Some a -> exists a', del_entry d name t !! i = Some a' /\
  n_links a' = n_links a /\ n_isdir a' = n_isdir a.
Proof using.
  intros Ha. unfold del_entry. destruct (dir_of t d); [|eauto]. unfold set_dir. destruct (decide (i = d)) as [->|].
  - rewrite lookup_alter_eq, Ha. by eexists.
  - rewrite lookup_alter_ne by done. eauto.
Qed.

Lemma unlink_sim f t d m name i a : sim f t nowhere None None -> dir_of t d = Some m -> ordinary name -> valid_name name ->
  m !! name = Some i -> t !! i = Some a -> 1 <= n_links a ->
  exists err f', ext2_unlink k sbd v d (Dentry d name (Some i)) f = Ok (err, f') /\ err = dquot_initialize v d /\
    sim f' (if err =? 0 then t_unlink d name i t else t) nowhere None None.
Proof using Env.
  intros Hs Hd Ho Hv Hi Ha Hl. unfold ext2_unlink. destruct (Z.eqb_spec (dquot_initialize v d) 0) as [E|E]; cbn [negb].
  2: { eexists _, _. split; [done|]. split; [done|]. by rewrite (proj2 (Z.eqb_neq _ 0) E). }
  cbn [d_name d_inode deref]. destruct (sim_found f t _ _ _ d m name i Hs Hd Hv Hi) as (de & f1 & -> & Hs1). cbn [rbind].
  destruct (sim_delete _ _ _ _ _ _ _ _ _ _ _ _ d m name de i [] Hs1 Hd Ho (fn_lookup_insert _ _ _)) as (f2 & -> & Hs2); [done|].
  cbn [rbind Z.eqb negb]. apply released in Hs2.
  assert (Hd2 : dir_of (del_entry d name t) d = Some (delete name m)) by by rewrite (dir_of_del t d m name d Hd), fn_lookup_insert.
  destruct (sim_dir _ _ _ _ _ _ _ _ d _ Hs2 Hd2) as (nd & _ & _ & -> & _). cbn [rbind].
  destruct (is_Some_del t d name i a Ha) as (a2 & Ha2 & Hl2 & _).
  destruct (sim_get _ _ _ _ _ _ _ _ i _ Hs2 Ha2) as (n & _ & _ & Hn & _). pose proof (nr_links _ _ _ _ _ _ _ Hn).
  destruct (sim_upd k sbd sb (fun n => inode_dec_link_count (stamp_ctime (i_ctime (core nd)) n)) (-1) 0 f2 _ _ _ _ i a2 Hs2 Ha2)
    as (f3 & -> & Hs3); [soft_tac|lia|by left|]. cbn [rbind]. eexists _, _. split; [done|]. by rewrite E.
Qed.

(** A directory has two links at least: its entry and its [.]. *)
Lemma dir_links t d m name c mc : consistent root t -> dir_of t d = Some m -> ordinary name -> m !! name = Some c -> dir_of t c = Some mc ->
  2 <= links t c.
Proof using.
  intros (Hb & HT & Hty) Hd Ho Hm Hc. pose proof (tr_dot _ _ HT c mc Hc) as Hdot. pose proof (Hb c) as Hbc. unfold balance in Hbc.
  pose proof (balance_del t d m name c Hd Hm c) as Hdel. rewrite (Hb c), bool_decide_true in Hdel by done. unfold balance in Hdel.
  assert (Hl : links (del_entry d name t) c = links t c).
  { apply dir_of_Some in Hc as (a & Ha & _). destruct (is_Some_del t d name c a Ha) as (a' & Ha' & E & _). unfold links. by rewrite Ha, Ha'. }
  assert (Hr : 1 <= refs (del_entry d name t) c).
  { apply (refs_entry _ c (if decide (c = d) then delete name m else mc) dotname).
    - rewrite (dir_of_del t d m name c Hd). case_decide; [subst; by rewrite fn_lookup_insert|by rewrite fn_lookup_insert_ne].
    - case_decide; [|done]. subst. rewrite lookup_delete_ne by (intros ->; by destruct Ho). congruence. }
  simpl in Hdel. lia.
Qed.

Lemma self_links t d m : consistent root t -> dir_of t d = Some m -> 1 <= links t d.
Proof using.
  intros (Hb & HT & Hty) Hd. pose proof (Hb d) as Hbd. unfold balance in Hbd.
  pose proof (refs_entry t d m dotname d Hd (tr_dot _ _ HT d m Hd)). lia.
Qed.

Lemma links_lookup t i a : t !! i = Some a -> links t i = n_links a.
Proof using. unfold links. by intros ->. Qed.

(** The two ways to write what [ext2_rmdir] does. *)
Lemma rmdir_tree t d name c a : t_unlink d name c t !! c = Some a ->
  add_links d (-1) (<[c := Node (n_isdir a) (n_links a + (-1)) None]> (t_unlink d name c t)) = t_rmdir d name c t.
Proof using.
  unfold t_unlink, t_rmdir. intros Ha. f_equal. unfold add_links in Ha. apply lookup_alter_Some in Ha as [(_ & b & Hb & ->)|[? _]]; [|done].
  cbn [n_isdir n_links]. unfold add_links, set_dir. rewrite alter_alter_eq, !(alter_insert _ _ c b Hb), insert_insert_eq.
  simpl. do 2 f_equal. lia.
Qed.

Lemma rmdir_sim f t d m name c mc : sim f t nowhere None None -> consistent root t -> dir_of t d = Some m -> ordinary name -> valid_name name ->
  m !! name = Some c -> dir_of t c = Some mc ->
  exists err f', ext2_rmdir k sbd v d (Dentry d name (Some c)) f = Ok (err, f') /\
    (err = 0 /\ (forall n i, mc !! n = Some i -> ~ ordinary n) /\ sim f' (t_rmdir d name c t) nowhere None None \/
     err <> 0 /\ sim f' t nowhere None None /\
       (err = - ENOTEMPTY /\ (exists n i, ordinary n /\ mc !! n = Some i) \/ err = dquot_initialize v d)).
Proof using Env.
  intros Hs Hcon Hd Ho Hv Hm Hc. assert (Hcon0 := Hcon). destruct Hcon0 as (Hb & HT & Hty).
  unfold ext2_rmdir. cbn [d_inode deref rbind].
  destruct (sim_empty _ _ _ _ _ _ _ _ _ _ _ _ c mc Hs Hc) as (b & f1 & -> & Hs1 & Hb1 & Hb2). cbn [rbind]. destruct b.
  2: { eexists _, _. split; [done|]. right. split; [done|]. split; [done|]. left. split; [done|]. apply Hb2; [done|by apply (tr_dot _ _ HT)]. }
  specialize (Hb1 eq_refl). pose proof (dir_links t d m name c mc Hcon Hd Ho Hm Hc) as Hl. pose proof (self_links t d m Hcon Hd) as Hld.
  apply dir_of_Some in Hc as Hc0. destruct Hc0 as (a & Ha & _). rewrite (links_lookup t c a Ha) in Hl.
  destruct (unlink_sim f1 t d m name c a Hs1 Hd Ho Hv Hm Ha) as (err & f2 & -> & Herr & Hs2); [lia|]. cbn [rbind].
  destruct (Z.eqb_spec err 0) as [E|E]; [|eexists _, _; split; [done|]; right; auto].
  assert (Hdc : c <> d) by (intros ->; replace mc with m in * by congruence; by apply (Hb1 name d)).
  destruct (is_Some_del t d name c a Ha) as (a1 & Ha1 & Hl1 & _). destruct (is_Some_links _ c (-1) c a1 Ha1) as (a2 & Ha2 & Hl2 & _).
  rewrite decide_True in Hl2 by done. fold (t_unlink d name c t) in Ha2.
  destruct (sim_upd_dead (fun n => inode_dec_link_count (with_core (set_size 0 (core n)) n)) (-1) 0 f2 _ _ _ _ c a2 Hs2 Ha2)
    as (f3 & -> & Hs3); [light_tac| |by left|done|].
  { destruct (sim_get _ _ _ _ _ _ _ _ c _ Hs2 Ha2) as (n & _ & _ & Hn & _). pose proof (nr_links _ _ _ _ _ _ _ Hn). lia. }
  cbn [rbind]. apply dir_of_Some in Hd as Hd0. destruct Hd0 as (ad & Had & _). rewrite (links_lookup t d ad Had) in Hld.
  destruct (is_Some_del t d name d ad Had) as (ad1 & Had1 & Hld1 & _). destruct (is_Some_links _ c (-1) d ad1 Had1) as (ad2 & Had2 & Hld2 & _).
  rewrite decide_False in Hld2 by done. fold (t_unlink d name c t) in Had2.
  destruct (sim_upd k sbd sb inode_dec_link_count (-1) 0 f3 _ _ _ _ d ad2 Hs3) as (f4 & -> & Hs4); [by rewrite lookup_insert_ne|apply soft_dec| |by left|].
  { destruct (sim_get _ _ _ _ _ _ _ _ d _ Hs2 Had2) as (n & _ & _ & Hn & _). pose proof (nr_links _ _ _ _ _ _ _ Hn). lia. }
  cbn [rbind]. eexists _, _. split; [done|]. left. split; [done|]. split; [done|]. by rewrite (rmdir_tree t d name c a2 Ha2) in Hs4.
Qed.
End Ops.
