(* ===== verification/Ext2NameiRename.v ===== *)
(** * ext2: renaming and looking up

    [ext2_rename] in its two halves, and [ext2_lookup], as changes of the tree. *)

From stdpp Require Import functions.
From S2P Require Import Prelude CString ByteMem Ext2Layout Ext2Dir Ext2DirPage Ext2DirRead Ext2DirFind Ext2DirWrite Ext2DirUpdate Ext2DirRep.
From S2P Require Import Ext2Super Ext2Inode Ext2Ialloc Ext2IallocFacts Ext2IallocTheorems Ext2Namei Ext2Tree Ext2TreeOps Ext2NameiSim Ext2NameiCalls Ext2NameiOps.

Section Rename.
Context (k : Z -> kernel) (sbd : super) (sb : sb_info) (v : vfs) (release_blocks : inode -> sbi -> sbi).
Context (fresh_page : Z -> option (list byte)) (symlink_page : dir -> list byte -> Z * dir).
Context {Env : NameiEnv k sbd sb v release_blocks fresh_page symlink_page} (root : Z).

Notation sim := (sim k sbd sb).

Lemma is_Some_put t d name j i a : t !! i = Some a -> exists a', put_entry d name j t !! i = Some a' /\
  n_links a' = n_links a /\ n_isdir a' = n_isdir a.
Proof using.
  intros Ha. unfold put_entry. destruct (dir_of t d); [|eauto]. unfold set_dir. destruct (decide (i = d)) as [->|].
  - rewrite lookup_alter_eq, Ha. by eexists.
  - rewrite lookup_alter_ne by done. eauto.
Qed.

(** The inode that had the new name loses its links. *)
Lemma target_old t (isdir : bool) x a : t !! x = Some a -> (isdir = false -> n_dir a = None) ->
  <[x := Node (n_isdir a) (n_links a + (if isdir then -2 else -1)) None]> t =
  if isdir then set_dir x None (add_links x (-2) t) else add_links x (-1) t.
Proof using.
  intros Ha Hd. destruct isdir; unfold set_dir, add_links.
  - by rewrite alter_alter_eq, (alter_insert _ t x a Ha).
  - rewrite (alter_insert _ t x a Ha). by rewrite Hd.
Qed.

(** A directory that an entry names is in use. *)
Lemma target_dir t nd mn new y : consistent root t -> dir_of t nd = Some mn -> ordinary new -> mn !! new = Some y -> is_dir t y ->
  exists my, dir_of t y = Some my /\ 2 <= links t y.
Proof using.
  intros Hcon Hnd Hon Hnew (b & Hb & Hbd). assert (Hcon0 := Hcon). destruct Hcon0 as (_ & _ & Hty).
  destruct (entry_present root t nd mn new y Hcon Hnd Hnew) as (b' & Hb' & Hl). replace b' with b in Hl by congruence.
  destruct (Hty y b Hb) as [_ Hlive]. destruct (n_dir b) as [my|] eqn:Em; [|exfalso; apply Hlive; [done|lia|done]].
  assert (Hy : dir_of t y = Some my) by (apply dir_of_Some; eauto). exists my. split; [done|].
  exact (dir_links root t nd mn new y my Hcon Hnd Hon Hnew Hy).
Qed.

(** What [t_target] leaves of the other inodes. *)
Lemma target_node (isdir : bool) t nd mn new i x j b : dir_of t nd = Some mn -> t !! j = Some b -> x <> Some j ->
  exists b', t_target isdir nd new i x t !! j = Some b' /\ n_links b <= n_links b' /\
    n_dir b' = if decide (j = nd) then Some (<[new := i]> mn) else n_dir b.
Proof using.
  intros Hnd Hb Hx. assert (Hp : exists b1, put_entry nd new i t !! j = Some b1 /\ n_links b1 = n_links b /\
    n_dir b1 = if decide (j = nd) then Some (<[new := i]> mn) else n_dir b).
  { unfold put_entry. rewrite Hnd. unfold set_dir. destruct (decide (j = nd)) as [->|].
    - rewrite lookup_alter_eq, Hb. by eexists.
    - rewrite lookup_alter_ne by done. eauto. }
  destruct Hp as (b1 & Hb1 & Hl & Hd1). unfold t_target. destruct x as [y|].
  - assert (j <> y) by congruence. exists b1. split; [|split; [lia|done]].
    destruct isdir; unfold set_dir, add_links; by rewrite !lookup_alter_ne.
  - destruct isdir; [|exists b1; split; [done|]; split; [lia|done]].
    destruct (is_Some_links _ nd 1 j b1 Hb1) as (b2 & Hb2 & Hl2 & _ & Hd2). exists b2. split; [done|]. split; [case_decide; lia|congruence].
Qed.

(** The old name goes. *)
Lemma rename_finish_sim f t S (isdir : bool) od mo old nd an i a mi de p : sim f t S None None -> dir_of t od = Some mo ->
  ordinary old -> S od = [Spot (fst de) (snd de) old i true] -> t !! i = Some a -> t !! nd = Some an -> 1 <= links t od ->
  (isdir = true -> dir_of t i = Some mi /\ S i = [Spot 0 12 dotdotname p true] /\ i <> od) ->
  exists f', rename_finish k sbd v od nd i de (if isdir then Some (0, 12) else None) f = Ok (0, f') /\
    sim f' (t_finish isdir od old nd i t) nowhere None None.
Proof using Env.
  intros Hs Hod Ho HS Hi Hnd Hl Hdir. unfold rename_finish, t_finish.
  destruct (sim_touch k sbd sb (fun n => mark_inode_dirty (stamp_ctime (vfs_time v) n)) 0 f t _ _ _ i a Hs Hi) as (f1 & -> & Hs1);
    [soft_tac|by left|]. cbn [rbind].
  destruct (sim_delete _ _ _ _ _ _ _ _ _ _ _ _ od mo old de i [] Hs1 Hod Ho HS) as (f2 & -> & Hs2); [done|]. cbn [rbind].
  destruct isdir; [|eexists; split; [done|]; by eapply released]. destruct (Hdir eq_refl) as (Hmi & HSi & Hio).
  assert (Hmi2 : dir_of (del_entry od old t) i = Some mi) by by rewrite (dir_of_del t od mo old i Hod), fn_lookup_insert_ne.
  assert (H3 : exists f3, (if negb (od =? nd) then set_link k sbd i (0, 12) nd false f2 else Ok f2) = Ok f3 /\
    sim f3 (if decide (od = nd) then del_entry od old t else put_entry i dotdotname nd (del_entry od old t)) nowhere None None).
  { destruct (Z.eqb_spec od nd) as [E|E]; cbn [negb]; [rewrite decide_True by done; eexists; split; [done|]; by eapply released|].
    rewrite decide_False by done. destruct (is_Some_del t od old nd an Hnd) as (an' & Han' & _).
    destruct (sim_set_dotdot _ _ _ _ _ _ _ _ _ _ _ _ i mi p nd an' false Hs2 Hmi2) as (f3 & E3 & Hs3); [by rewrite fn_lookup_insert_ne|done|].
    exists f3. split; [done|]. by eapply released. }
  destruct H3 as (f3 & -> & Hs3). cbn [rbind].
  apply dir_of_Some in Hod as (ao & Hao & _). rewrite (links_lookup t od ao Hao) in Hl. destruct (is_Some_del t od old od ao Hao) as (ao1 & Hao1 & Hl1 & _).
  assert (H4 : exists ao2, (if decide (od = nd) then del_entry od old t else put_entry i dotdotname nd (del_entry od old t)) !! od = Some ao2 /\
    n_links ao2 = n_links ao).
  { destruct (decide (od = nd)); [eauto|]. destruct (is_Some_put (del_entry od old t) i dotdotname nd od ao1 Hao1) as (ao2 & ? & ? & _).
    exists ao2. split; [done|congruence]. }
  destruct H4 as (ao2 & Hao2 & Hl2). destruct (sim_get _ _ _ _ _ _ _ _ od _ Hs3 Hao2) as (n & _ & _ & Hn & _).
  pose proof (nr_links _ _ _ _ _ _ _ Hn). destruct (sim_upd k sbd sb inode_dec_link_count (-1) 0 f3 _ _ _ _ od ao2 Hs3 Hao2 soft_dec) as (f4 & -> & Hs4);
    [lia|by left|]. cbn [rbind]. eauto.
Qed.

Section Call.
Context (t : tree) (od : Z) (mo : dirmap) (old : list byte) (nd : Z) (mn : dirmap) (new : list byte) (i : Z) (a : node).
Context (x : option Z) (isdir : bool).
Hypothesis Hcon : consistent root t.
Hypothesis Hod : dir_of t od = Some mo.
Hypothesis Hold : mo !! old = Some i.
Hypothesis Hoo : ordinary old.
Hypothesis Hvo : valid_name old.
Hypothesis Hnd : dir_of t nd = Some mn.
Hypothesis Hnew : mn !! new = x.
Hypothesis Hon : ordinary new.
Hypothesis Hvn : valid_name new.
Hypothesis Hi : t !! i = Some a.
Hypothesis Hisdir : n_isdir a = isdir.
Hypothesis Hne : ~ (od = nd /\ old = new).
Hypothesis Hself : i <> od /\ i <> nd /\ x <> Some i.
Hypothesis Hbelow : ~ rtc (up (dir_of t)) nd i.
Hypothesis Hx : forall y, x = Some y -> if isdir then is_dir t y else is_file t y.
Hypothesis Hroom : links t nd < 2 ^ 32 - 1.

(** The places that are known while the new name is given. *)
Definition held (S : Z -> list spot) (old_de : Z * Z) (p : Z) : Prop :=
  S od = [Spot (fst old_de) (snd old_de) old i true] /\ (nd <> od -> S nd = []) /\
  (isdir = true -> S i = [Spot 0 12 dotdotname p true]).

Lemma rename_target_sim f1 S de p R : sim f1 t S R None -> held S de p -> (x = None -> R = Some nd) ->
  exists err f', rename_target k sbd v nd i (Dentry nd new x) isdir f1 = Ok (err, f') /\
    (err = 0 /\ (forall y my, x = Some y -> isdir = true -> dir_of t y = Some my -> forall n j, my !! n = Some j -> ~ ordinary n) /\
       sim f' (t_target isdir nd new i x t) S None None \/ err <> 0 /\ sim f' t S None None).
Proof using All.
  intros Hs1 (HSo & HSn & HSi) HR. unfold rename_target, t_target. cbn [d_inode d_name]. destruct x as [y|] eqn:Ex.
  - assert (Hs0 : sim f1 t S None None) by (eapply sim_weaken; [intros j; done|by left|by left|exact Hs1]). clear Hs1.
    assert (He : exists b f2, (if isdir then on_dir (fun d => ext2_empty_dir (k y) sbd d) y f1 else Ok (true, f1)) = Ok (b, f2) /\
      sim f2 t S None None /\ (b = true -> forall my, isdir = true -> dir_of t y = Some my -> forall n j, my !! n = Some j -> ~ ordinary n)).
    { destruct isdir; [|by exists true, f1]. destruct (target_dir t nd mn new y Hcon Hnd Hon Hnew (Hx y eq_refl)) as (my & Hy & _).
      destruct (sim_empty _ _ _ _ _ _ _ _ _ _ _ _ y my Hs0 Hy) as (b & f2 & E & Hs2 & Hb & _). exists b, f2. split; [done|]. split; [done|].
      intros Hbt my' _ Hy'. replace my' with my by congruence. exact (Hb Hbt). }
    destruct He as (b & f2 & -> & Hs2 & Hb). cbn [rbind]. destruct b; cbn [negb]; [|eexists _, _; split; [done|]; by right].
    specialize (Hb eq_refl). destruct (sim_found _ _ _ _ _ _ _ f2 t S _ _ nd mn new y Hs2 Hnd Hvn Hnew) as (nde & f3 & -> & Hs3). cbn [rbind].
    destruct (sim_set_link _ _ _ _ _ _ _ _ _ _ _ _ nd mn new nde i y a (S nd) true Hs3 Hnd Hon (fn_lookup_insert _ _ _)) as (f4 & -> & Hs4);
      [|done|]. { destruct (decide (nd = od)) as [->|E]; [rewrite HSo|by rewrite HSn]. repeat constructor. simpl. naive_solver. }
    cbn [rbind]. assert (Hs5 : sim f4 (put_entry nd new i t) S None None).
    { eapply sim_weaken; [..|exact Hs4]; auto. intros j. destruct (decide (j = nd)) as [->|];
        [by rewrite fn_lookup_insert|by rewrite !fn_lookup_insert_ne]. }
    destruct (entry_present root t nd mn new y Hcon Hnd Hnew) as (b & Hyb & Hl1). destruct (is_Some_put t nd new i y b Hyb) as (b1 & Hb1 & Hl & Hd1).
    set (g := fun n => let n := stamp_ctime (vfs_time v) n in inode_dec_link_count (if isdir then drop_nlink n else n)).
    destruct (sim_get _ _ _ _ _ _ _ _ y _ Hs5 Hb1) as (n & _ & _ & Hn & _). pose proof (nr_links _ _ _ _ _ _ _ Hn) as Hlr.
    destruct (sim_upd_dead _ _ _ g (if isdir then -2 else -1) 0 f4 _ _ _ _ y b1 Hs5 Hb1) as (f5 & E5 & Hs6).
    { unfold g. clear. intros n' Hn'. destruct isdir; revert n' Hn'; light_tac. }
    { destruct isdir eqn:Ed; [|lia]. destruct (target_dir t nd mn new y Hcon Hnd Hon Hnew (Hx y eq_refl)) as (my & _ & Hl2). rewrite (links_lookup t y b Hyb) in Hl2. lia. }
    { by left. } { done. }
    fold g. rewrite E5. cbn [rbind]. eexists _, _. split; [done|]. left. split; [done|]. split; [intros y' my [= <-]; apply Hb|].
    rewrite target_old in Hs6; [done|done|]. intros ->. specialize (Hx y eq_refl). simpl in Hx. assert (Hcon0 := Hcon).
    destruct Hcon0 as (_ & _ & Hty). destruct (is_file_put t nd mn new i y Hty Hnd Hx) as (b2 & Hb2 & Hf2).
    replace b1 with b2 by congruence. apply (typed_put t nd new i Hty y b2 Hb2). done.
  - rewrite HR in Hs1 by done.
    destruct (sim_add _ _ _ _ _ _ _ _ _ _ _ (Dentry nd new None) nd new mn i a Hs1 eq_refl eq_refl Hnd Hvn Hnew Hi) as (err & f2 & -> & Ho).
    cbn [rbind]. destruct Ho as [[-> Hs2]|(He & _ & Hs2)]; [|rewrite (proj2 (Z.eqb_neq err 0) He); cbn [negb]; eexists _, _; split; [done|]; by right].
    cbn [Z.eqb negb]. destruct isdir; [|eexists _, _; split; [done|]; left; split; [done|]; split; [done|]; exact Hs2].
    apply dir_of_Some in Hnd as Hnd0. destruct Hnd0 as (b & Hb & _). rewrite (links_lookup t nd b Hb) in Hroom.
    destruct (is_Some_put t nd new i nd b Hb) as (b1 & Hb1 & Hl & _). destruct (sim_get _ _ _ _ _ _ _ _ nd _ Hs2 Hb1) as (n & _ & _ & Hn & _).
    pose proof (nr_links _ _ _ _ _ _ _ Hn). destruct (sim_upd k sbd sb inode_inc_link_count 1 0 f2 _ _ _ _ nd b1 Hs2 Hb1 soft_inc) as (f3 & -> & Hs3);
      [lia|by left|]. cbn [rbind]. eexists _, _. split; [done|]. left. split; [done|]. split; [done|]. exact Hs3.
Qed.

Lemma old_dir_live :
  (forall y my, x = Some y -> isdir = true -> dir_of t y = Some my -> forall n j, my !! n = Some j -> ~ ordinary n) ->
  x <> Some od /\ x <> Some nd.
Proof using All.
  intros He. assert (Hcon0 := Hcon). destruct Hcon0 as (_ & _ & Hty). destruct isdir eqn:Ed.
  - split; intros Hy; [by apply (He od mo Hy eq_refl Hod old i Hold)|by apply (He nd mn Hy eq_refl Hnd new nd (eq_trans Hnew Hy))].
  - split; intros Hy; pose proof (file_no_dir t _ Hty (Hx _ Hy)); congruence.
Qed.

Lemma renamed_consistent : 
  (forall y my, x = Some y -> isdir = true -> dir_of t y = Some my -> forall n j, my !! n = Some j -> ~ ordinary n) ->
  consistent root (t_rename isdir od old nd new i x t).
Proof using All.
  intros He. destruct Hself as (Hio & Hin & Hxi). assert (Hcon0 := Hcon). destruct Hcon0 as (_ & _ & Hty). destruct isdir eqn:Ed.
  - destruct (target_dir t od mo old i Hcon Hod Hoo Hold) as (mi & Hmi & _); [by exists a|]. destruct x as [y|] eqn:Ey.
    + destruct (target_dir t nd mn new y Hcon Hnd Hon Hnew (Hx y eq_refl)) as (my & Hmy & _).
      apply (replace_ok root t od mo old nd mn new i mi y my); try done; [congruence|by apply (He y my)].
    + by apply (move_ok root t od mo old nd mn new i mi).
  - apply (rename_file_ok root t od mo old nd mn new i x); try done. by exists a.
Qed.

(** Up to the first change: the old entry and [..] are found. *)
Lemma rename_start f R : sim f t nowhere R None ->
  exists de f1, find_entry k sbd od old f = Ok (Some de, f1) /\
    exists n, get_inode f1 i = Ok n /\ S_ISDIR (i_mode (core n)) = isdir /\
    exists f2 S p, (if isdir then on_dir (fun d => ext2_dotdot (k i) sbd d) i f1 else Ok (None, f1)) = Ok (if isdir then Some 12 else None, f2) /\
      sim f2 t S R None /\ held S de p.
Proof using All.
  intros Hs. destruct (sim_found _ _ _ _ _ _ _ f t _ _ _ od mo old i Hs Hod Hvo Hold) as (de & f1 & E1 & Hs1). exists de, f1. split; [done|].
  destruct (sim_get _ _ _ _ _ _ _ _ i _ Hs1 Hi) as (n & En & _ & Hn & _). exists n. split; [done|].
  pose proof (nr_type _ _ _ _ _ _ _ Hn) as Hty. split; [congruence|]. destruct Hself as (Hio & Hin & _). clear Hty.
  unfold held. destruct isdir eqn:Ed.
  - destruct (entry_present root t od mo old i Hcon Hod Hold) as (a' & Ha' & Hl). replace a' with a in * by congruence.
    assert (Hcon0 := Hcon). destruct Hcon0 as (_ & _ & Ht). destruct (Ht i a Hi) as [_ Hlive].
    destruct (n_dir a) as [mi|] eqn:Em; [|exfalso; apply Hlive; [done|lia|done]].
    assert (Hmi : dir_of t i = Some mi) by (apply dir_of_Some; eauto).
    destruct (sim_dotdot _ _ _ _ _ _ _ _ _ _ _ _ i mi Hs1 Hmi) as (f2 & p & E2 & Hs2); [by rewrite fn_lookup_insert_ne|].
    eexists f2, _, p. split; [done|]. split; [exact Hs2|]. rewrite fn_lookup_insert_ne, fn_lookup_insert by done. split; [done|].
    split; [intros; by rewrite !fn_lookup_insert_ne by done|intros _; apply fn_lookup_insert].
  - eexists f1, _, 0. split; [done|]. split; [exact Hs1|]. rewrite fn_lookup_insert. split; [done|]. split; [|done].
    intros. by rewrite !fn_lookup_insert_ne by done.
Qed.

Lemma rename_sim f R flags : sim f t nowhere R None -> (x = None -> R = Some nd) ->
  exists err f', ext2_rename k sbd v od (Dentry od old (Some i)) nd (Dentry nd new x) flags f = Ok (err, f') /\
    (err = 0 /\ sim f' (t_rename isdir od old nd new i x t) nowhere None None /\ consistent root (t_rename isdir od old nd new i x t) \/
     err <> 0 /\ sim f' t nowhere None None).
Proof using All.
  intros Hs HR. unfold ext2_rename. assert (Hun : sim f t nowhere None None) by by eapply released.
  destruct (Z.land _ _ =? 0); cbn [negb]; [|eexists _, _; split; [done|]; by right].
  destruct (Z.eqb_spec (dquot_initialize v od) 0); cbn [negb]; [|eexists _, _; split; [done|]; by right].
  destruct (Z.eqb_spec (dquot_initialize v nd) 0); cbn [negb]; [|eexists _, _; split; [done|]; by right].
  cbn [d_name d_inode deref]. destruct (rename_start f R Hs) as (de & f1 & -> & n & En & Hty & f2 & S & p & E2 & Hs2 & Hheld).
  cbn [rbind]. rewrite En. cbn [rbind]. rewrite Hty, E2. cbn [rbind].
  destruct (rename_target_sim f2 S de p R Hs2 Hheld HR) as (err & f3 & E3 & Ho).
  replace (match (if isdir then Some 12 else None : option Z), isdir with None, true => Ok (- EIO, f2) | _, _ => _ end) with
    (let* '(err, f) := rename_target k sbd v nd i (Dentry nd new x) isdir f2 in
     if negb (err =? 0) then Ok (err, f) else rename_finish k sbd v od nd i de (if isdir then Some (0, 12) else None) f)
    by by destruct isdir.
  rewrite E3. cbn [rbind]. destruct Ho as [(-> & Hempty & Hs3)|[He Hs3]].
  2: { rewrite (proj2 (Z.eqb_neq err 0) He). cbn [negb]. eexists _, _. split; [done|]. right. split; [done|]. by eapply released. }
  cbn [Z.eqb negb]. destruct Hheld as (HSo & HSn & HSi). destruct Hself as (Hio & Hin & Hxi).
  destruct (old_dir_live Hempty) as [Hxo Hxn]. pose proof (self_links root t od mo Hcon Hod) as Hlo.
  apply dir_of_Some in Hod as Hod0. destruct Hod0 as (ao & Hao & Emo). apply dir_of_Some in Hnd as Hnd0. destruct Hnd0 as (an & Han & _).
  destruct (target_node isdir t nd mn new i x od ao Hnd Hao Hxo) as (ao' & Hao' & Hl' & Hd').
  destruct (target_node isdir t nd mn new i x nd an Hnd Han Hxn) as (an' & Han' & _ & _).
  destruct (target_node isdir t nd mn new i x i a Hnd Hi Hxi) as (a' & Ha' & _ & Hda'). rewrite decide_False in Hda' by done.
  rewrite (links_lookup t od ao Hao) in Hlo.
  destruct (rename_finish_sim f3 _ S isdir od (if decide (od = nd) then <[new := i]> mn else mo) old nd an' i a'
    (default ∅ (n_dir a)) de p Hs3) as (f4 & E4 & Hs4); [|done..| | |].
  - apply dir_of_Some. exists ao'. split; [done|]. rewrite Hd', Emo. by destruct (decide (od = nd)).
  - rewrite (links_lookup _ od ao' Hao'). lia.
  - intros Ed. split; [|split; [auto|done]]. destruct (target_dir t od mo old i Hcon Hod Hoo Hold) as (mi & Hmi & _); [exists a; split; congruence|].
    apply dir_of_Some in Hmi as (a0 & Ha0 & Em). replace a0 with a in Em by congruence. apply dir_of_Some. exists a'. split; [done|].
    by rewrite Hda', Em.
  - eexists _, _. split; [exact E4|]. left. split; [done|]. split; [exact Hs4|]. by apply renamed_consistent.
Qed.
End Call.
End Rename.
