(* ===== verification/Ext2NameiTheorems.v ===== *)
(** * ext2: the operations on names keep the file system consistent

    The handlers of [Ext2Namei], called in any order as the VFS calls them, implement the
    operations on the tree of [Ext2Tree]; so every link count is the number of entries that
    refer to the inode, and the directories stay a tree. *)

From stdpp Require Import functions.
From S2P Require Import Prelude CString ByteMem Ext2Layout Ext2Dir Ext2DirPage Ext2DirRead Ext2DirFind Ext2DirWrite Ext2DirUpdate Ext2DirRep Ext2DirTheorems.
From S2P Require Import Ext2Super Ext2Inode Ext2Ialloc Ext2IallocFacts Ext2IallocTheorems Ext2Namei Ext2Tree Ext2TreeOps Ext2NameiSim Ext2NameiCalls Ext2NameiOps Ext2NameiRename.

(** A call of the VFS; [Unlink], [Rmdir], [Link] and [Rename] come with the inodes of
    their dentries, and [Iput] drops a reference that a dentry held. *)
Inductive op : Type :=
  | Lookup (d : Z) (name : list byte)
  | Create (d : Z) (name : list byte) (mode : Z)
  | Mknod (d : Z) (name : list byte) (mode rdev : Z)
  | Symlink (d : Z) (name target : list byte)
  | Tmpfile (d : Z) (mode : Z)
  | Link (i d : Z) (name : list byte)
  | Mkdir (d : Z) (name : list byte) (mode : Z)
  | Unlink (d : Z) (name : list byte) (i : Z)
  | Rmdir (d : Z) (name : list byte) (i : Z)
  | Rename (od : Z) (old : list byte) (i nd : Z) (new : list byte) (x : option Z) (flags : Z)
  | Iput (i : Z).

Section Theorems.
Context (k : Z -> kernel) (sbd : super) (sb : sb_info) (v : vfs) (release_blocks : inode -> sbi -> sbi).
Context (fresh_page : Z -> option (list byte)) (symlink_page : dir -> list byte -> Z * dir) (read_inode : Z -> Z + inode).
Context (tmpname : Z -> list byte).

(** The result of a handler and the state after it. *)
Definition exec (o : op) (f : fs) : res (Z * fs) :=
  let done3 (r : res (Z * dentry * fs)) := let* '(err, _, f) := r in Ok (err, f) in
  match o with
  | Lookup d name =>
      let* '(r, f) := ext2_lookup k sbd read_inode d (Dentry d name None) f in
      Ok (match r with inl err => err | inr _ => 0 end, f)
  | Create d name mode => done3 (ext2_create k sbd sb v release_blocks d (Dentry d name None) mode f)
  | Mknod d name mode rdev => done3 (ext2_mknod k sbd sb v release_blocks d (Dentry d name None) mode rdev f)
  | Symlink d name target => done3 (ext2_symlink k sbd sb v release_blocks symlink_page d (Dentry d name None) target f)
  | Tmpfile d mode => done3 (ext2_tmpfile sb v release_blocks tmpname d (Dentry d [] None) mode f)
  | Link i d name => done3 (ext2_link k sbd sb v release_blocks i d (Dentry d name None) f)
  | Mkdir d name mode => done3 (ext2_mkdir k sbd sb v release_blocks fresh_page d (Dentry d name None) mode f)
  | Unlink d name i => ext2_unlink k sbd v d (Dentry d name (Some i)) f
  | Rmdir d name i => ext2_rmdir k sbd v d (Dentry d name (Some i)) f
  | Rename od old i nd new x flags => ext2_rename k sbd v od (Dentry od old (Some i)) nd (Dentry nd new x) flags f
  | Iput i => let* f := iput_inode sb release_blocks i f in Ok (0, f)
  end.

(** The tree that the inodes in memory represent. *)
Definition view (f : fs) (t : tree) : Prop := sim k sbd sb f t nowhere None None.

(** What the VFS has checked before it calls: the parent is a directory in use, the dentry
    has the inode that the directory has for its name, types fit, link counts and sizes
    are below their limits, and an inode is not moved to itself or below itself: the dentry
    [trap] of [lock_rename]. *)
Definition free_name (t : tree) (d : Z) (name : list byte) : Prop :=
  valid_name name /\ ordinary name /\ exists m, dir_of t d = Some m /\ m !! name = None.
Definition has_name (t : tree) (d : Z) (name : list byte) (i : Z) : Prop :=
  valid_name name /\ ordinary name /\ exists m, dir_of t d = Some m /\ m !! name = Some i.
Definition room (f : fs) (d : Z) : Prop :=
  forall n, f_inodes f !! d = Some n -> i_size (core n) + s_blocksize sbd < 2 ^ 32.

Definition allowed (f : fs) (t : tree) (o : op) : Prop :=
  match o with
  | Lookup d name => valid_name name /\ is_Some (dir_of t d)
  | Create d name mode | Mknod d name mode _ => free_name t d name /\ room f d /\ S_ISDIR mode = false
  | Symlink d name _ => free_name t d name /\ room f d
  | Tmpfile d mode => is_Some (dir_of t d) /\ S_ISDIR mode = false
  | Link i d name => free_name t d name /\ room f d /\ is_file t i /\ 1 <= links t i < 2 ^ 32 - 1
  | Mkdir d name mode => free_name t d name /\ room f d /\ S_ISDIR (Z.lor S_IFDIR mode) = true /\ links t d < 2 ^ 32 - 1
  | Unlink d name i => has_name t d name i /\ is_file t i
  | Rmdir d name i => has_name t d name i /\ is_dir t i
  | Rename od old i nd new x _ => has_name t od old i /\ ~ (od = nd /\ old = new) /\
      ~ rtc (up (dir_of t)) nd i /\ x <> Some i /\ links t nd < 2 ^ 32 - 1 /\
      match x with
      | None => free_name t nd new /\ room f nd
      | Some y => has_name t nd new y /\ (is_dir t i /\ is_dir t y \/ is_file t i /\ is_file t y)
      end
  | Iput i => is_Some (t !! i)
  end.

(** What it does to the tree when it succeeds. *)
Definition effect (o : op) (t t' : tree) : Prop :=
  match o with
  | Lookup _ _ => t' = t
  | Create d name _ | Mknod d name _ _ | Symlink d name _ => exists i, t !! i = None /\ t' = t_create d name i t
  | Tmpfile _ _ => exists i, t !! i = None /\ t' = <[i := Node false 0 None]> t
  | Link i d name => t' = t_link d name i t
  | Mkdir d name _ => exists c, t !! c = None /\ t' = t_mkdir d name c t
  | Unlink d name i => t' = t_unlink d name i t
  | Rmdir d name c => t' = t_rmdir d name c t
  | Rename od old i nd new x _ => exists isdir, (isdir = true <-> is_dir t i) /\ t' = t_rename isdir od old nd new i x t
  | Iput i => t' = t \/ links t i = 0 /\ t' = delete i t
  end.

Context {Env : NameiEnv k sbd sb v release_blocks fresh_page symlink_page}.

Notation root := EXT2_ROOT_INO.

Lemma view_room f t d : view f t -> room f d -> sim k sbd sb f t nowhere (Some d) None.
Proof using. intros [H1 H2 H3 H4 H5] Hr. split; try done. intros d' n [= <-]. apply Hr. Qed.

(** ** Looking up *)

Lemma lookup_sim f t d m name : view f t -> consistent root t -> dir_of t d = Some m -> valid_name name ->
  exists f', ext2_lookup k sbd read_inode d (Dentry d name None) f = Ok (inr (Dentry d name (m !! name)), f') /\ view f' t.
Proof using Env.
  intros Hs Hcon Hd Hv. destruct (sim_dir _ _ _ _ _ _ _ _ d m Hs Hd) as (n & p & Hi & _ & Hr & _).
  destruct (rep_inode_by_name (k d) sbd (core n) m _ name Hr Hv) as (d' & E & Hsi & Hz & Hr').
  unfold ext2_lookup. cbn [d_name]. rewrite (proj2 (Z.ltb_ge _ _)) by (destruct Hv; unfold EXT2_NAME_LEN; lia).
  destruct (sim_on_dir k sbd sb (fun x => ext2_inode_by_name (k d) sbd x name) (default 0 (m !! name)) (core n) d' f t nowhere nowhere
    None None d n m m Hs Hi eq_refl Hd E Hsi) as (f1 & -> & Hs1); [by right|by exists p|done|].
  cbn [rbind]. rewrite set_dir_id in Hs1 by done. destruct (m !! name) as [i|] eqn:Em; simpl; [|eauto].
  destruct (entry_present root t d m name i Hcon Hd Em) as (a & Ha & _).
  destruct (sim_touch k sbd sb ihold 1 f1 t _ _ _ i a Hs1 Ha soft_ihold) as (f2 & E2 & Hs2); [by right|].
  destruct (sim_get _ _ _ _ _ _ _ _ i a Hs1 Ha) as (ni & Eni & Hni & Hnr & _). pose proof (nr_range _ _ _ _ _ _ _ Hnr).
  rewrite (proj2 (Z.eqb_neq i 0)) by lia. unfold ext2_iget. rewrite Hni. unfold upd_inode in E2. rewrite Eni in E2. cbn [rbind] in E2.
  apply (inj Ok) in E2. rewrite E2. eexists. split; [done|done].
Qed.

(** ** Dropping a reference *)

Lemma iput_sim f t i a : view f t -> consistent root t -> t !! i = Some a ->
  exists f', iput_inode sb release_blocks i f = Ok f' /\ (view f' t \/ links t i = 0 /\ view f' (delete i t)).
Proof using Env.
  intros Hs Hcon Ha. destruct (sim_get _ _ _ _ _ _ _ _ i a Hs Ha) as (n & _ & Hi & Hn & _).
  destruct (decide (n_links a = 0 /\ i_count n = 1)) as [[Hl Hc]|Hno].
  - assert (Hp : sim k sbd sb f t nowhere None (Some i)).
    { destruct Hs as [H1 H2 H3 H4 H5]. split; try done. intros c n' [= <-]. congruence. }
    destruct (sim_iput_last k sbd sb v release_blocks fresh_page symlink_page f t nowhere None i a Hp Ha Hl) as (f' & E & Hs'); [|by exists f'; split; [|right; split; [rewrite (links_lookup t i a Ha)|]]].
    destruct (nr_first _ _ _ _ _ _ _ Hn) as [-> |?]; [|done]. assert (Hcon0 := Hcon). destruct Hcon0 as (_ & HT & _).
    destruct (tr_root _ _ HT) as (m & Hm & _). pose proof (self_links root t root m Hcon Hm) as Hsl. rewrite (links_lookup _ _ _ Ha) in Hsl. lia.
  - destruct (sim_iput_linked k sbd sb release_blocks f t nowhere None None i a Hs Ha) as (f' & E & Hs'); [|done|eauto].
    destruct (decide (n_links a = 0)) as [Hl|]; [right; intros n' Hn'; replace n' with n by congruence; intros Hc; by apply Hno|by left].
Qed.

(** ** One call *)

(** A call returns; the tree is changed as it should, or not at all. *)
Definition simulated (o : op) (f : fs) (t : tree) : Prop :=
  exists err f' t', exec o f = Ok (err, f') /\ view f' t' /\ consistent root t' /\
    (err = 0 /\ effect o t t' \/ err <> 0 /\ t' = t).

Section Step.
Context (f : fs) (t : tree).
Hypothesis Hs : view f t.
Hypothesis Hcon : consistent root t.

(** The handlers that make a file. *)
Lemma made_step o d m name (r : res (Z * dentry * fs)) : dir_of t d = Some m -> ordinary name -> m !! name = None ->
  (forall t', effect o t t' <-> exists i, t !! i = None /\ t' = t_create d name i t) ->
  exec o f = (let* '(err, _, f) := r in Ok (err, f)) ->
  (exists err de f', r = Ok (err, de, f') /\ made k sbd sb (Dentry d name None) t False err de f') -> simulated o f t.
Proof using Hcon.
  intros Hd Ho Hm He Hx (err & de & f' & -> & Hmade). cbn [rbind] in Hx. destruct Hmade as [(-> & i & Hi & _ & Hs')|(Hne & _ & _ & Hs')].
  - exists 0, f', (t_create d name i t). split; [done|]. split; [exact Hs'|]. split; [by eapply create_ok|]. left. split; [done|].
    apply He. eauto.
  - exists err, f', t. split; [done|]. split; [done|]. split; [done|]. by right.
Qed.

Lemma create_step d name mode : allowed f t (Create d name mode) -> simulated (Create d name mode) f t.
Proof using Env Hs Hcon.
  intros ((Hv & Ho & m & Hd & Hm) & Hr & Hmode). eapply (made_step _ d m name _ Hd Ho Hm); [done|reflexivity|].
  apply (create_sim k sbd sb v release_blocks fresh_page symlink_page f t (Dentry d name None) m); try done. by apply view_room.
Qed.

Lemma mknod_step d name mode rdev : allowed f t (Mknod d name mode rdev) -> simulated (Mknod d name mode rdev) f t.
Proof using Env Hs Hcon.
  intros ((Hv & Ho & m & Hd & Hm) & Hr & Hmode). eapply (made_step _ d m name _ Hd Ho Hm); [done|reflexivity|].
  apply (mknod_sim k sbd sb v release_blocks fresh_page symlink_page f t (Dentry d name None) m); try done. by apply view_room.
Qed.

Lemma symlink_step d name target : allowed f t (Symlink d name target) -> simulated (Symlink d name target) f t.
Proof using Env Hs Hcon.
  intros ((Hv & Ho & m & Hd & Hm) & Hr). eapply (made_step _ d m name _ Hd Ho Hm); [done|reflexivity|].
  apply (symlink_sim k sbd sb v release_blocks fresh_page symlink_page f t (Dentry d name None) m); try done; [by apply view_room|tauto].
Qed.

Lemma tmpfile_step d mode : allowed f t (Tmpfile d mode) -> simulated (Tmpfile d mode) f t.
Proof using Env Hs Hcon.
  intros ([m Hd] & Hmode). unfold simulated, exec.
  destruct (tmpfile_sim k sbd sb v release_blocks fresh_page symlink_page f t d m tmpname (Dentry d [] None) mode Hs Hd Hmode)
    as (err & de & f' & -> & Ho). cbn [rbind]. destruct Ho as [(-> & i & Hi & _ & Hs')|[He Hs']].
  - eexists 0, f', _. split; [done|]. split; [exact Hs'|]. split; [by apply tmpfile_ok|]. left. split; [done|]. exists i. done.
  - exists err, f', t. split; [done|]. split; [done|]. split; [done|]. by right.
Qed.

Lemma link_step i d name : allowed f t (Link i d name) -> simulated (Link i d name) f t.
Proof using Env Hs Hcon.
  intros ((Hv & Ho & m & Hd & Hm) & Hr & Hf & Hl). unfold simulated, exec. destruct Hf as (a & Ha & Hfd). rewrite (links_lookup t i a Ha) in Hl.
  destruct (link_sim k sbd sb v release_blocks fresh_page symlink_page f t (Dentry d name None) m (view_room _ _ _ Hs Hr) Hd Hv Hm i a Ha Hl)
    as (err & de & f' & E & Hout). cbn [d_parent d_name] in E, Hout. rewrite E. cbn [rbind]. destruct Hout as [(-> & _ & Hs')|(He & _ & Hs')].
  - eexists 0, f', _. split; [done|]. split; [exact Hs'|]. split; [|by left]. eapply link_ok; try done. by exists a.
  - exists err, f', t. split; [done|]. split; [done|]. split; [done|]. by right.
Qed.

Lemma mkdir_step d name mode : allowed f t (Mkdir d name mode) -> simulated (Mkdir d name mode) f t.
Proof using Env Hs Hcon.
  intros ((Hv & Ho & m & Hd & Hm) & Hr & Hmode & Hl). unfold simulated, exec.
  destruct (mkdir_sim k sbd sb v release_blocks fresh_page symlink_page f t (Dentry d name None) m (view_room _ _ _ Hs Hr) Hd Hv Hm mode Hmode Hl)
    as (err & de & f' & E & Hout). cbn [d_parent d_name] in E, Hout. rewrite E. cbn [rbind]. destruct Hout as [(-> & c & Hc & _ & Hs')|(He & _ & Hs')].
  - eexists 0, f', _. split; [done|]. split; [exact Hs'|]. split; [by eapply mkdir_ok|]. left. split; [done|]. exists c. done.
  - exists err, f', t. split; [done|]. split; [done|]. split; [done|]. by right.
Qed.

Lemma unlink_step d name i : allowed f t (Unlink d name i) -> simulated (Unlink d name i) f t.
Proof using Env Hs Hcon.
  intros ((Hv & Ho & m & Hd & Hm) & Hf). unfold simulated, exec. destruct (entry_present root t d m name i Hcon Hd Hm) as (a & Ha & Hl).
  destruct (unlink_sim k sbd sb v release_blocks fresh_page symlink_page f t d m name i a) as (err & f' & -> & _ & Hs'); try done.
  destruct (Z.eqb_spec err 0) as [E|E].
  - exists err, f', (t_unlink d name i t). split; [done|]. split; [done|]. split; [by eapply unlink_ok|]. by left.
  - exists err, f', t. split; [done|]. split; [done|]. split; [done|]. by right.
Qed.

Lemma rmdir_step d name c : allowed f t (Rmdir d name c) -> simulated (Rmdir d name c) f t.
Proof using Env Hs Hcon.
  intros ((Hv & Ho & m & Hd & Hm) & Hf). unfold simulated, exec. destruct (target_dir root t d m name c Hcon Hd Ho Hm Hf) as (mc & Hc & _).
  destruct (rmdir_sim k sbd sb v release_blocks fresh_page symlink_page root f t d m name c mc Hs Hcon Hd Ho Hv Hm Hc) as (err & f' & -> & Hout).
  destruct Hout as [(-> & He & Hs')|(He & Hs' & _)].
  - exists 0, f', (t_rmdir d name c t). split; [done|]. split; [done|]. split; [by eapply rmdir_ok|]. by left.
  - exists err, f', t. split; [done|]. split; [done|]. split; [done|]. by right.
Qed.

Lemma rename_step od old i nd new x flags : allowed f t (Rename od old i nd new x flags) -> simulated (Rename od old i nd new x flags) f t.
Proof using Env Hs Hcon.
  intros ((Hvo & Hoo & mo & Hod & Hold) & Hne & Hbelow & Hxi & Hl & Hx). assert (Hin : i <> nd) by (intros ->; by apply Hbelow). unfold simulated, exec.
  destruct (entry_present root t od mo old i Hcon Hod Hold) as (a & Ha & _). pose proof (not_inside root t od mo old i Hcon Hod Hoo Hold) as Hio.
  assert (Hnew : exists mn, dir_of t nd = Some mn /\ mn !! new = x /\ ordinary new /\ valid_name new).
  { destruct x as [y|]; destruct Hx as ((? & ? & mn & ? & ?) & _); eauto 10. }
  destruct Hnew as (mn & Hnd & Hnew & Hon & Hvn).
  assert (Hty : forall y, x = Some y -> if n_isdir a then is_dir t y else is_file t y).
  { intros y ->. destruct Hx as (_ & [[(b & Hb & Hbd) ?]|[(b & Hb & Hbd) ?]]); replace b with a in Hbd by congruence; by rewrite Hbd. }
  set (R := match x with None => Some nd | Some _ => None end). assert (HsR : sim k sbd sb f t nowhere R None).
  { unfold R. destruct x; [exact Hs|]. apply view_room; [done|]. by destruct Hx. }
  destruct (rename_sim k sbd sb v release_blocks fresh_page symlink_page root t od mo old nd mn new i a x (n_isdir a) Hcon Hod Hold Hoo Hvo Hnd
    Hnew Hon Hvn Ha eq_refl Hne (conj Hio (conj Hin Hxi)) Hbelow Hty Hl f R flags HsR) as (err & f' & -> & Hout); [by unfold R; intros ->|].
  destruct Hout as [(-> & Hs' & Hcon')|[He Hs']].
  - eexists 0, f', _. split; [done|]. split; [exact Hs'|]. split; [done|]. left. split; [done|]. exists (n_isdir a). split; [|done].
    split; [by exists a|]. intros (b & Hb & Hbd). congruence.
  - exists err, f', t. split; [done|]. split; [done|]. split; [done|]. by right.
Qed.

Lemma lookup_step d name : allowed f t (Lookup d name) -> simulated (Lookup d name) f t.
Proof using Env Hs Hcon.
  intros (Hv & m & Hd). unfold simulated, exec. destruct (lookup_sim f t d m name Hs Hcon Hd Hv) as (f' & -> & Hs'). cbn [rbind].
  exists 0, f', t. split; [done|]. split; [done|]. split; [done|]. by left.
Qed.

Lemma iput_step i : allowed f t (Iput i) -> simulated (Iput i) f t.
Proof using Env Hs Hcon.
  intros [a Ha]. unfold simulated, exec. destruct (iput_sim f t i a Hs Hcon Ha) as (f' & -> & [Hs'|[Hl Hs']]); cbn [rbind].
  - exists 0, f', t. split; [done|]. split; [done|]. split; [done|]. left. split; [done|by left].
  - exists 0, f', (delete i t). split; [done|]. split; [done|]. split; [eapply drop_ok; [done|exact Ha|]; by rewrite <- (links_lookup t i a Ha)|].
    left. split; [done|by right].
Qed.

Lemma every_step o : allowed f t o -> simulated o f t.
Proof using Env Hs Hcon.
  destruct o; [apply lookup_step|apply create_step|apply mknod_step|apply symlink_step|apply tmpfile_step|apply link_step|
    apply mkdir_step|apply unlink_step|apply rmdir_step|apply rename_step|apply iput_step].
Qed.
End Step.

(** ** Sequences of calls *)

(** A call that the VFS makes, whatever it returns. *)
Definition step (f f' : fs) : Prop :=
  exists o err t, view f t /\ consistent root t /\ allowed f t o /\ exec o f = Ok (err, f').

Lemma step_view f f' : step f f' -> exists t', view f' t' /\ consistent root t'.
Proof using Env.
  intros (o & err & t & Hs & Hcon & Hal & E). destruct (every_step f t Hs Hcon o Hal) as (err' & f1 & t1 & E' & Hs1 & Hcon1 & _).
  assert (f1 = f') as -> by congruence. eauto.
Qed.

Lemma steps_view f f' t : view f t -> consistent root t -> rtc step f f' -> exists t', view f' t' /\ consistent root t'.
Proof using Env. intros Hs Hcon [->|(f1 & _ & Hl)]%rtc_inv_r; [eauto|by eapply step_view]. Qed.

(** The links of an inode in memory. *)
Lemma view_links f t i n : view f t -> consistent root t -> f_inodes f !! i = Some n -> i_nlink n = refs t i.
Proof using.
  intros Hs (Hb & _) Hi. destruct (sim_node _ _ _ _ _ _ _ _ Hs i n Hi) as (a & Ha & Hn & _). specialize (Hb i). unfold balance, links in Hb.
  rewrite Ha in Hb. rewrite (nr_nlink _ _ _ _ _ _ _ Hn). lia.
Qed.
End Theorems.

(** A file system with an empty root directory. *)
Module DemoFs.
Definition demo_super : super := Super 1024 16 2.

#[global] Instance demo_fs_geometry : Geometry DemoDir.demo_kernel demo_super.
Proof. destruct DemoDir.demo_geometry as [H1 H2 H3 H4]. split; [exact H1|simpl; lia|exact H3|exact H4]. Qed.

Definition blank_root : dir := Dir 2 16877 0 0 0 0 0 0 0 false ∅ [].
Definition demo_root : dir :=
  match ext2_make_empty DemoDir.demo_kernel demo_super (Some DemoDir.zero_page) blank_root 2 with Ok (_, d) => d | _ => blank_root end.

Definition root_inode : inode := Inode demo_root 2 1 false 0 0 0 0 ext2_dir_inode_operations ext2_aops None 0 0.
Definition demo_fs : fs := Fs DemoSb.demo_sbi {[ 2 := root_inode ]}.
Definition demo_tree : tree := {[ 2 := Node true 2 (Some (new_dir 2 2)) ]}.
Definition demo_k (_ : Z) : kernel := DemoDir.demo_kernel.
Definition demo_fresh (_ : Z) : option (list byte) := Some DemoDir.zero_page.
Definition demo_symlink (d : dir) (_ : list byte) : Z * dir := (0, d).

#[global] Instance demo_env :
  NameiEnv demo_k demo_super DemoSb.demo_sb DemoSb.demo_vfs (fun _ s => s) demo_fresh demo_symlink.
Proof.
  split; try apply _; try done.
  - intros i n _. exists DemoDir.zero_page. split; vm_compute; reflexivity.
  - intros i data [= <-]. vm_compute. reflexivity.
Qed.

Lemma demo_root_rep : dir_rep DemoDir.demo_kernel demo_super demo_root (new_dir 2 2) (dots 2 2) /\ i_size demo_root = 1024 /\
  same_inode blank_root demo_root.
Proof.
  destruct (rep_make_empty DemoDir.demo_kernel demo_super (Some DemoDir.zero_page) blank_root 2) as (err & d' & E & Hsi & Ho); try (simpl; lia).
  - done.
  - intros data [= <-]. vm_compute. reflexivity.
  - intros n _. exists DemoDir.zero_page. split; vm_compute; reflexivity.
  - unfold demo_root. rewrite E. destruct Ho as [(_ & Hz & Hr)|(_ & [?|Hw])]; [done|done|]. by destruct Hw.
Qed.

Lemma demo_inodes i n : f_inodes demo_fs !! i = Some n -> i = 2 /\ n = root_inode.
Proof. unfold demo_fs. cbn [f_inodes]. by intros [<- <-]%lookup_singleton_Some. Qed.

Lemma demo_view : view demo_k demo_super DemoSb.demo_sb demo_fs demo_tree.
Proof.
  destruct demo_root_rep as (Hr & Hz & Hi & Hm). split.
  - apply DemoSb.demo_ok.
  - intros i n [-> ->]%demo_inodes. eexists. split; [apply lookup_singleton_eq|]. split.
    + split; unfold root_inode; cbn [core i_nlink i_block_group n_links n_isdir n_dir].
      * by rewrite Hi.
      * simpl. lia.
      * by left.
      * simpl. lia.
      * done.
      * lia.
      * by rewrite Hm.
      * done.
      * exists 2. by rewrite app_nil_r.
    + apply (io_reserved _ _ DemoSb.demo_ok). simpl. lia.
  - intros i a Ha. unfold demo_tree in Ha. apply lookup_singleton_Some in Ha as [<- _]. exists root_inode. apply lookup_singleton_eq.
  - done.
  - done.
Qed.

Lemma demo_dir_of d : dir_of demo_tree d = if decide (d = 2) then Some (new_dir 2 2) else None.
Proof. unfold dir_of, demo_tree. case_decide; [subst; by rewrite lookup_singleton_eq|by rewrite lookup_singleton_ne]. Qed.

Lemma demo_consistent : consistent EXT2_ROOT_INO demo_tree.
Proof.
  split; [|split].
  - intros j. unfold demo_tree. rewrite <- insert_empty, balance_new by done. unfold balance, links, refs. rewrite lookup_empty, msum_empty.
    unfold node_refs. cbn [n_dir n_links]. rewrite refs_in_new_dir. unfold one. case_decide; repeat case_bool_decide; lia.
  - assert (Hn : forall name c, new_dir 2 2 !! name = Some c -> ordinary name -> False).
    { unfold new_dir. intros name c [[<- _]|[_ [<- _]%lookup_singleton_Some]]%lookup_insert_Some [? ?]; done. }
    split.
    + exists (new_dir 2 2). rewrite demo_dir_of. done.
    + intros d m. rewrite demo_dir_of. case_decide; [|done]. intros [= <-]. subst. done.
    + intros d m. rewrite demo_dir_of. case_decide; [|done]. intros [= <-]. exists 2, (new_dir 2 2). by rewrite demo_dir_of.
    + intros d m name c mc. rewrite demo_dir_of. case_decide; [|done]. intros [= <-] Ho Hc. destruct (Hn name c Hc Ho).
    + intros d m n1 n2 c mc. rewrite demo_dir_of. case_decide; [|done]. intros [= <-] Ho _ Hc. destruct (Hn n1 c Hc Ho).
    + intros c mc p mp. rewrite demo_dir_of. case_decide; [|done]. intros _ Hne. by destruct Hne.
    + intros d m. rewrite demo_dir_of. case_decide; [|done]. subst. intros _. apply rtc_refl.
  - unfold demo_tree. intros i n [<- <-]%lookup_singleton_Some. done.
Qed.

Lemma demo_allowed : allowed demo_super demo_fs demo_tree (Mkdir 2 [Byte.x61] 493).
Proof.
  split; [split; [split; vm_compute; discriminate|split; [split; discriminate|]]|split; [|split; [reflexivity|reflexivity]]].
  - exists (new_dir 2 2). rewrite demo_dir_of. split; [done|]. vm_compute. reflexivity.
  - intros n [_ ->]%demo_inodes. destruct demo_root_rep as (_ & Hz & _). unfold root_inode. cbn [core]. rewrite Hz. simpl. lia.
Qed.
End DemoFs.

(** C3: each handler of [namei.c] refines its operation on the tree.  Called as the VFS
    calls it on a consistent file system whose directory blocks can be read and written
    ([NameiEnv]), it returns (no bad access, no bug), and either
    reports success having changed the tree as the operation does, or reports an error and
    leaves the tree as it was: an inode that was allocated on the way is freed again, and
    the links of the parent are restored. *)
Theorem namei_refines_tree k sbd sb v release fresh symlink read tmpname
    `{!NameiEnv k sbd sb v release fresh symlink} f t o :
  view k sbd sb f t -> consistent EXT2_ROOT_INO t -> allowed sbd f t o ->
  exists err f' t', exec k sbd sb v release fresh symlink read tmpname o f = Ok (err, f') /\
    view k sbd sb f' t' /\ consistent EXT2_ROOT_INO t' /\ (err = 0 /\ effect o t t' \/ err <> 0 /\ t' = t).
Proof. intros Hs Hcon Hal. exact (every_step k sbd sb v release fresh symlink read tmpname f t Hs Hcon o Hal). Qed.

Lemma namei_refines_tree_witness :
  exists err f' t', exec DemoFs.demo_k DemoFs.demo_super DemoSb.demo_sb DemoSb.demo_vfs (fun _ s => s) DemoFs.demo_fresh
      DemoFs.demo_symlink (fun _ => inl 0) (fun _ => []) (Mkdir 2 [Byte.x61] 493) DemoFs.demo_fs = Ok (err, f') /\
    view DemoFs.demo_k DemoFs.demo_super DemoSb.demo_sb f' t' /\ consistent EXT2_ROOT_INO t' /\
    (err = 0 /\ effect (Mkdir 2 [Byte.x61] 493) DemoFs.demo_tree t' \/ err <> 0 /\ t' = DemoFs.demo_tree).
Proof.
  apply (namei_refines_tree DemoFs.demo_k DemoFs.demo_super DemoSb.demo_sb DemoSb.demo_vfs (fun _ s => s) DemoFs.demo_fresh
    DemoFs.demo_symlink (fun _ => inl 0) (fun _ => []) DemoFs.demo_fs DemoFs.demo_tree (Mkdir 2 [Byte.x61] 493)
    DemoFs.demo_view DemoFs.demo_consistent DemoFs.demo_allowed).
Defined.

(** C4: whatever calls the VFS makes, one after the other, each of them succeeding or
    failing for want of inodes, blocks, memory or quota (the blocks of directories can be
    read and written, [NameiEnv]): the link count of every inode is the number of directory
    entries that refer to it, every inode in memory is marked as used in the bitmap, the
    free counts of the groups are those of the bitmaps, and the directories form a tree:
    every directory but the root has one name, in the directory that its [..] refers to,
    and the way up from it ends at the root.  The VFS does not move a directory below
    itself ([allowed]; [lock_rename] of [fs/namei.c] refuses). *)
Theorem link_counts_invariant k sbd sb v release fresh symlink read tmpname
    `{!NameiEnv k sbd sb v release fresh symlink} f t f' :
  view k sbd sb f t -> consistent EXT2_ROOT_INO t -> rtc (step k sbd sb v release fresh symlink read tmpname) f f' ->
  exists t', view k sbd sb f' t' /\ tree_ok EXT2_ROOT_INO (dir_of t') /\ ialloc_ok sb (f_sb f') /\
    forall i n, f_inodes f' !! i = Some n -> i_nlink n = refs t' i /\ allocated sb (f_sb f') i.
Proof.
  intros Hs Hcon Hr. destruct (steps_view k sbd sb v release fresh symlink read tmpname f f' t Hs Hcon Hr) as (t' & Hs' & Hcon').
  exists t'. split; [done|]. split; [apply Hcon'|]. split; [apply Hs'|]. intros i n Hi.
  split; [by eapply view_links|]. by destruct (sim_node _ _ _ _ _ _ _ _ Hs' i n Hi) as (_ & _ & _ & ?).
Qed.

Lemma link_counts_invariant_witness : exists f', 
  rtc (step DemoFs.demo_k DemoFs.demo_super DemoSb.demo_sb DemoSb.demo_vfs (fun _ s => s) DemoFs.demo_fresh
      DemoFs.demo_symlink (fun _ => inl 0) (fun _ => [])) DemoFs.demo_fs f' /\
  exists t', view DemoFs.demo_k DemoFs.demo_super DemoSb.demo_sb f' t' /\ tree_ok EXT2_ROOT_INO (dir_of t') /\
    ialloc_ok DemoSb.demo_sb (f_sb f') /\
    forall i n, f_inodes f' !! i = Some n -> i_nlink n = refs t' i /\ allocated DemoSb.demo_sb (f_sb f') i.
Proof.
  destruct (every_step DemoFs.demo_k DemoFs.demo_super DemoSb.demo_sb DemoSb.demo_vfs (fun _ s => s) DemoFs.demo_fresh
    DemoFs.demo_symlink (fun _ => inl 0) (fun _ => []) DemoFs.demo_fs DemoFs.demo_tree DemoFs.demo_view DemoFs.demo_consistent
    (Mkdir 2 [Byte.x61] 493) DemoFs.demo_allowed) as (err & f' & t' & E & _).
  assert (Hr : rtc (step DemoFs.demo_k DemoFs.demo_super DemoSb.demo_sb DemoSb.demo_vfs (fun _ s => s) DemoFs.demo_fresh
    DemoFs.demo_symlink (fun _ => inl 0) (fun _ => [])) DemoFs.demo_fs f').
  { apply rtc_once. exists (Mkdir 2 [Byte.x61] 493), err, DemoFs.demo_tree.
    split; [apply DemoFs.demo_view|]. split; [apply DemoFs.demo_consistent|]. split; [apply DemoFs.demo_allowed|exact E]. }
  exists f'. split; [exact Hr|].
  apply (link_counts_invariant DemoFs.demo_k DemoFs.demo_super DemoSb.demo_sb DemoSb.demo_vfs (fun _ s => s) DemoFs.demo_fresh
    DemoFs.demo_symlink (fun _ => inl 0) (fun _ => []) DemoFs.demo_fs DemoFs.demo_tree f' DemoFs.demo_view DemoFs.demo_consistent Hr).
Defined.

(** C32: when inodes and blocks are left and quota allows it, [ext2_create] makes a file
    with an inode that was not in use, and [ext2_lookup] then finds that inode under the
    name.  [ext2_unlink] of the dentry succeeds; after it the name is not found, and the
    directory has the entries of before. *)
Theorem create_lookup_unlink k sbd sb v release fresh symlink read `{!NameiEnv k sbd sb v release fresh symlink} f t d m name mode :
  view k sbd sb f t -> consistent EXT2_ROOT_INO t -> dir_of t d = Some m -> m !! name = None -> valid_name name -> ordinary name ->
  room sbd f d -> S_ISDIR mode = false -> hooks_succeed v -> has_free sb f -> writable (k d) ->
  exists i f1 f2 f3 f4 t4, t !! i = None /\
    ext2_create k sbd sb v release d (Dentry d name None) mode f = Ok (0, Dentry d name (Some i), f1) /\
    ext2_lookup k sbd read d (Dentry d name None) f1 = Ok (inr (Dentry d name (Some i)), f2) /\
    ext2_unlink k sbd v d (Dentry d name (Some i)) f2 = Ok (0, f3) /\
    ext2_lookup k sbd read d (Dentry d name None) f3 = Ok (inr (Dentry d name None), f4) /\
    view k sbd sb f4 t4 /\ dir_of t4 d = Some m.
Proof.
  intros Hs Hcon Hd Hm Hv Ho Hr Hmode Hh Hfree Hw. assert (Hq : dquot_initialize v d = 0) by by destruct Hh as [_ Hh]; destruct (Hh d).
  destruct (create_sim k sbd sb v release fresh symlink f t (Dentry d name None) m (view_room _ _ _ _ _ _ Hs Hr) Hd Hv Hm True mode)
    as (err & de & f1 & E & Hmade); [done|done|]. cbn [d_parent d_name] in E.
  destruct Hmade as [(-> & i & Hi & -> & Hs1)|(He & Hno & _)]; [|tauto]. cbn [d_parent d_name] in Hs1.
  destruct (dir_of_new t i (Node false 1 None) d m Hi Hd) as [Hd0 Hdi].
  assert (Hd1 : dir_of (t_create d name i t) d = Some (<[name := i]> m)).
  { unfold t_create. by rewrite (dir_of_put _ d m name i d Hd0), fn_lookup_insert. }
  pose proof (create_ok _ t d m name i Hcon Hd Ho Hm Hi) as Hcon1.
  destruct (lookup_sim k sbd sb v release fresh symlink read f1 _ d _ name Hs1 Hcon1 Hd1 Hv) as (f2 & E2 & Hs2). rewrite lookup_insert_eq in E2.
  assert (Hf : is_file (t_create d name i t) i).
  { exists (Node false 1 None). split; [|done]. unfold t_create, put_entry. rewrite Hd0. unfold set_dir. by rewrite lookup_alter_ne, lookup_insert_eq. }
  destruct (entry_present _ _ d _ name i Hcon1 Hd1 (lookup_insert_eq _ _ _)) as (a & Ha & Hl).
  destruct (unlink_sim k sbd sb v release fresh symlink f2 _ d _ name i a Hs2 Hd1 Ho Hv (lookup_insert_eq _ _ _) Ha Hl) as (err & f3 & E3 & -> & Hs3).
  rewrite Hq in E3, Hs3. cbn [Z.eqb] in Hs3. pose proof (unlink_ok _ _ d _ name i Hcon1 Hd1 Ho (lookup_insert_eq _ _ _) Hf) as Hcon3.
  assert (Hd3 : dir_of (t_unlink d name i (t_create d name i t)) d = Some m).
  { unfold t_unlink. by rewrite dir_of_links, (dir_of_del _ d _ name d Hd1), fn_lookup_insert, delete_insert_id. }
  destruct (lookup_sim k sbd sb v release fresh symlink read f3 _ d m name Hs3 Hcon3 Hd3 Hv) as (f4 & E4 & Hs4). rewrite Hm in E4.
  exists i, f1, f2, f3, f4, (t_unlink d name i (t_create d name i t)). done.
Qed.

Lemma create_lookup_unlink_witness :
  exists i f1 f2 f3 f4 t4, DemoFs.demo_tree !! i = None /\
    ext2_create DemoFs.demo_k DemoFs.demo_super DemoSb.demo_sb DemoSb.demo_vfs (fun _ s => s) 2
      (Dentry 2 [Byte.x61] None) 33188 DemoFs.demo_fs = Ok (0, Dentry 2 [Byte.x61] (Some i), f1) /\
    ext2_lookup DemoFs.demo_k DemoFs.demo_super (fun _ => inl 0) 2 (Dentry 2 [Byte.x61] None) f1 =
      Ok (inr (Dentry 2 [Byte.x61] (Some i)), f2) /\
    ext2_unlink DemoFs.demo_k DemoFs.demo_super DemoSb.demo_vfs 2 (Dentry 2 [Byte.x61] (Some i)) f2 = Ok (0, f3) /\
    ext2_lookup DemoFs.demo_k DemoFs.demo_super (fun _ => inl 0) 2 (Dentry 2 [Byte.x61] None) f3 =
      Ok (inr (Dentry 2 [Byte.x61] None), f4) /\
    view DemoFs.demo_k DemoFs.demo_super DemoSb.demo_sb f4 t4 /\ dir_of t4 2 = Some (new_dir 2 2).
Proof.
  destruct DemoFs.demo_allowed as ((Hv & Ho & _) & Hr & _).
  apply (create_lookup_unlink DemoFs.demo_k DemoFs.demo_super DemoSb.demo_sb DemoSb.demo_vfs (fun _ s => s) DemoFs.demo_fresh
    DemoFs.demo_symlink (fun _ => inl 0) DemoFs.demo_fs DemoFs.demo_tree 2 (new_dir 2 2) [Byte.x61] 33188
    DemoFs.demo_view DemoFs.demo_consistent (DemoFs.demo_dir_of 2)); [reflexivity|exact Hv|exact Ho|exact Hr|reflexivity| | |].
  - split; [reflexivity|]. intros ino. repeat split.
  - exists 11. split; [simpl; lia|]. intros (b & Hb & Hbit). vm_compute in Hb. injection Hb as <-. vm_compute in Hbit. discriminate.
  - exact DemoDir.demo_writable.
Defined.
