(* ===== verification/UserNs.v ===== *)
(** * User namespaces

    [kernel/user_namespace.c]: the maps between the identifiers of a user namespace and
    those of the kernel, the files [uid_map], [gid_map], [projid_map] and [setgroups] of
    /proc through which they are set up, and the namespaces as a tree.  A namespace is a
    node of a finite map from addresses; [init_user_ns] of [kernel/user.c] is its root.
    Reference counts are left out, so namespaces are never freed. *)

From S2P Require Import Prelude CString.

Definition INVALID_ID : Z := 4294967295.
Definition UID_GID_MAP_MAX_EXTENTS : Z := 5.
Definition USERNS_SETGROUPS_ALLOWED : Z := 1.
Definition CAP_SETGID : Z := 6.
Definition CAP_SETUID : Z := 7.
Definition CAP_SYS_ADMIN : Z := 21.
Definition CAP_LAST_CAP : Z := 37.
Definition OVERFLOW_PROJID : Z := 65534.

Definition EPERM : Z := 1.
Definition ENOMEM : Z := 12.
Definition EFAULT : Z := 14.
Definition EINVAL : Z := 22.
Definition ENOSPC : Z := 28.

(** ** Maps *)

Record extent : Type := Extent { first : Z; lower_first : Z; count : Z }.

(** The extents in use; their number is [nr_extents]. *)
Abbreviation uid_gid_map := (list extent).

#[export] Instance extent_eq_dec : EqDecision extent.
Proof. solve_decision. Defined.

Definition last_of (first count : Z) : Z := u32 (first + count - 1).

Definition map_id_range_down (map : uid_gid_map) (id count : Z) : Z :=
  let id2 := u32 (id + count - 1) in
  let inside first last := (first <=? id) && (id <=? last) && ((first <=? id2) && (id2 <=? last)) in
  match List.find (fun e => inside (first e) (last_of (first e) (UserNs.count e))) map with
  | Some e => u32 (u32 (id - first e) + lower_first e)
  | None => INVALID_ID
  end.

Definition map_id_down (map : uid_gid_map) (id : Z) : Z :=
  match List.find (fun e => (first e <=? id) && (id <=? last_of (first e) (count e))) map with
  | Some e => u32 (u32 (id - first e) + lower_first e)
  | None => INVALID_ID
  end.

Definition map_id_up (map : uid_gid_map) (id : Z) : Z :=
  match List.find (fun e => (lower_first e <=? id) && (id <=? last_of (lower_first e) (count e))) map with
  | Some e => u32 (u32 (id - lower_first e) + first e)
  | None => INVALID_ID
  end.

(** ** Namespaces *)

Inductive map_kind : Type := UidMap | GidMap | ProjidMap.

#[export] Instance map_kind_eq_dec : EqDecision map_kind.
Proof. solve_decision. Defined.

Record user_namespace : Type := Ns {
  uid_map : uid_gid_map; gid_map : uid_gid_map; projid_map : uid_gid_map;
  parent : option Z; level : Z; owner : Z; group : Z; flags : Z }.

Abbreviation namespaces := (gmap Z user_namespace).

Definition id_map (k : map_kind) (ns : user_namespace) : uid_gid_map :=
  match k with UidMap => uid_map ns | GidMap => gid_map ns | ProjidMap => projid_map ns end.

Definition with_map (k : map_kind) (m : uid_gid_map) (ns : user_namespace) : user_namespace :=
  let 'Ns u g p a l o r f := ns in
  match k with UidMap => Ns m g p a l o r f | GidMap => Ns u m p a l o r f | ProjidMap => Ns u g m a l o r f end.

Definition with_flags (f : Z) (ns : user_namespace) : user_namespace := let 'Ns u g p a l o r _ := ns in Ns u g p a l o r f.

(** [init_user_ns] of [kernel/user.c], with [USERNS_INIT_FLAGS]. *)
Definition whole_map : uid_gid_map := [Extent 0 0 4294967295].
Definition init_user_ns : user_namespace := Ns whole_map whole_map whole_map None 0 0 0 USERNS_SETGROUPS_ALLOWED.

Definition make_kuid (ns : user_namespace) (uid : Z) : Z := map_id_down (uid_map ns) uid.
Definition from_kuid (targ : user_namespace) (kuid : Z) : Z := map_id_up (uid_map targ) kuid.
Definition from_kuid_munged (overflowuid : Z) (targ : user_namespace) (kuid : Z) : Z :=
  let uid := from_kuid targ kuid in if uid =? INVALID_ID then overflowuid else uid.

Definition make_kgid (ns : user_namespace) (gid : Z) : Z := map_id_down (gid_map ns) gid.
Definition from_kgid (targ : user_namespace) (kgid : Z) : Z := map_id_up (gid_map targ) kgid.
Definition from_kgid_munged (overflowgid : Z) (targ : user_namespace) (kgid : Z) : Z :=
  let gid := from_kgid targ kgid in if gid =? INVALID_ID then overflowgid else gid.

Definition make_kprojid (ns : user_namespace) (projid : Z) : Z := map_id_down (projid_map ns) projid.
Definition from_kprojid (targ : user_namespace) (kprojid : Z) : Z := map_id_up (projid_map targ) kprojid.
Definition from_kprojid_munged (targ : user_namespace) (kprojid : Z) : Z :=
  let projid := from_kprojid targ kprojid in if projid =? INVALID_ID then OVERFLOW_PROJID else projid.

(** An identifier of the kernel has one in the namespace. *)
Definition kuid_has_mapping (ns : user_namespace) (uid : Z) : bool := negb (from_kuid ns uid =? INVALID_ID).
Definition kgid_has_mapping (ns : user_namespace) (gid : Z) : bool := negb (from_kgid ns gid =? INVALID_ID).

(** ** What the rest of the kernel answers *)

(** The functions of [lib/] on strings, without the terminating null character. *)
Record klib : Type := KLib {
  isspace : byte -> bool;
  skip_spaces : cstr -> cstr;
  simple_strtoul : cstr -> Z * cstr }.   (* base 10: the number and where it ends *)

(** An open file of /proc: the credentials of its opener, the namespace of its opener, and
    what [file_ns_capable] says of the opener for a namespace. *)
Record map_file : Type := MapFile { f_euid : Z; f_egid : Z; seq_user_ns : Z; file_ns_capable : Z -> Z -> bool }.

Record userns_env : Type := UsernsEnv {
  ns_capable : Z -> Z -> bool;           (* the task in a namespace, for a capability *)
  PAGE_SIZE : Z;
  inc_user_namespaces : Z -> Z -> bool;  (* the limit on namespaces allows one more *)
  current_chrooted : bool;
  user_ns_zalloc : bool;
  ns_alloc_inum : Z;
  setup_userns_sysctls : bool }.

(** ** Writing a map *)

Fixpoint mappings_overlap (new_map : uid_gid_map) (e : extent) : bool :=
  match new_map with
  | [] => false
  | prev :: new_map =>
      if (first prev <=? last_of (first e) (count e)) && (first e <=? last_of (first prev) (count prev)) then true
      else if (lower_first prev <=? last_of (lower_first e) (count e)) && (lower_first e <=? last_of (lower_first prev) (count prev)) then true
      else mappings_overlap new_map e
  end.

(** The line at [pos], and what follows it unless that is the end. *)
Fixpoint cut_line (pos : cstr) : cstr * option cstr :=
  match pos with
  | [] => ([], None)
  | b :: pos => if decide (b = newline) then ([], match pos with [] => None | _ => Some pos end)
                else let '(line, next) := cut_line pos in (b :: line, next)
  end.

Section UserNsC.
Context (lib : klib) (env : userns_env).

(** Three numbers and nothing else. *)
Definition parse_extent (line : cstr) : option extent :=
  let space pos := match pos with [] => isspace lib NUL | c :: _ => isspace lib c end in
  let '(first, pos) := simple_strtoul lib (skip_spaces lib line) in
  if negb (space pos) then None
  else
    let '(lower_first, pos) := simple_strtoul lib (skip_spaces lib pos) in
    if negb (space pos) then None
    else
      let '(count, pos) := simple_strtoul lib (skip_spaces lib pos) in
      if match pos with [] => false | c :: _ => negb (isspace lib c) end then None
      else match skip_spaces lib pos with [] => Some (Extent (u32 first) (u32 lower_first) (u32 count)) | _ => None end.

(** The checks on one extent. *)
Definition valid_extent (e : extent) : bool :=
  negb ((first e =? INVALID_ID) || (lower_first e =? INVALID_ID)) &&
  negb (u32 (first e + count e) <=? first e) && negb (u32 (lower_first e + count e) <=? lower_first e).

(** The loop over the lines: [Ok None] is the jump to [out] with [-EINVAL]. *)
Fixpoint parse_map (fuel : nat) (pos : cstr) (new_map : uid_gid_map) : res (option uid_gid_map) :=
  match fuel with
  | O => NoFuel
  | S fuel =>
      if UID_GID_MAP_MAX_EXTENTS <=? Z.of_nat (length new_map) then Undef BufferOverflow
      else
        let '(line, next_line) := cut_line pos in
        match parse_extent line with
        | None => Ok None
        | Some e =>
            if negb (valid_extent e) then Ok None
            else if mappings_overlap new_map e then Ok None
            else
              let new_map := new_map ++ [e] in
              match next_line with
              | None => Ok (Some new_map)
              | Some pos =>
                  if Z.of_nat (length new_map) =? UID_GID_MAP_MAX_EXTENTS then Ok None
                  else parse_map fuel pos new_map
              end
        end
  end.

Definition cap_valid (cap : Z) : bool := (0 <=? cap) && (cap <=? CAP_LAST_CAP).

Definition cap_setid (k : map_kind) : Z := match k with UidMap => CAP_SETUID | GidMap => CAP_SETGID | ProjidMap => -1 end.

(** [pa] and [par] are the parent of [ns] and its address. *)
Definition new_idmap_permitted (file : map_file) (ns : user_namespace) (pa : Z) (par : user_namespace) (k : map_kind) (new_map : uid_gid_map) : bool :=
  let single :=
    match new_map with
    | [e] =>
        if (count e =? 1) && (owner ns =? f_euid file) then
          match k with
          | UidMap => make_kuid par (lower_first e) =? f_euid file
          | GidMap => (Z.land (flags ns) USERNS_SETGROUPS_ALLOWED =? 0) && (make_kgid par (lower_first e) =? f_egid file)
          | ProjidMap => false
          end
        else false
    | _ => false
    end in
  if single then true
  else if negb (cap_valid (cap_setid k)) then true
  else ns_capable env pa (cap_setid k) && file_ns_capable file pa (cap_setid k).

(** The lower identifiers become those of the kernel. *)
Fixpoint map_lower (parent_map : uid_gid_map) (new_map : uid_gid_map) : option uid_gid_map :=
  match new_map with
  | [] => Some []
  | e :: new_map =>
      let lower_first := map_id_range_down parent_map (UserNs.lower_first e) (count e) in
      if lower_first =? INVALID_ID then None
      else match map_lower parent_map new_map with
           | Some l => Some (Extent (first e) lower_first (count e) :: l)
           | None => None
           end
  end.

(** [user] is what [memdup_user_nul] returns: an error, or the [count] bytes that have been
    written.  The result and the new map of the namespace [ns] at [a]. *)
Definition map_write (file : map_file) (user : Z + list byte) (count ppos : Z) (k : map_kind) (a : Z) (ns : user_namespace) (pa : Z) (par : user_namespace) :
  res (Z * uid_gid_map) :=
  let map := id_map k ns in
  if negb (Z.of_nat (length map) =? 0) then Ok (- EPERM, map)
  else if cap_valid (cap_setid k) && negb (file_ns_capable file a CAP_SYS_ADMIN) then Ok (- EPERM, map)
  else if negb (ppos =? 0) || (PAGE_SIZE env <=? count) then Ok (- EINVAL, map)
  else
    match user with
    | inl err => Ok (err, map)
    | inr kbuf =>
        let* new_map := parse_map (Z.to_nat UID_GID_MAP_MAX_EXTENTS) (c_str kbuf) [] in
        match new_map with
        | None => Ok (- EINVAL, map)
        | Some new_map =>
            if Z.of_nat (length new_map) =? 0 then Ok (- EINVAL, map)
            else if negb (new_idmap_permitted file ns pa par k new_map) then Ok (- EPERM, map)
            else match map_lower (id_map k par) new_map with
                 | None => Ok (- EPERM, map)
                 | Some new_map => Ok (count, new_map)
                 end
        end
    end.

(** [proc_uid_map_write], [proc_gid_map_write] and [proc_projid_map_write]. *)
Definition proc_map_write (k : map_kind) (file : map_file) (a : Z) (user : Z + list byte) (size ppos : Z) (st : namespaces) : res (Z * namespaces) :=
  let* ns := deref (st !! a) in
  match parent ns with
  | None => Ok (- EPERM, st)
  | Some pa =>
      if negb (seq_user_ns file =? a) && negb (seq_user_ns file =? pa) then Ok (- EPERM, st)
      else
        let* par := deref (st !! pa) in
        let* '(ret, map) := map_write file user size ppos k a ns pa par in
        Ok (ret, <[a := with_map k map ns]> st)
  end.

(** ** Reading a map *)

(** The conversion [%10u]. *)
Definition dec10 (z : Z) : cstr := replicate (10 - length (dec z)) space ++ dec z.

(** [uid_m_show], [gid_m_show] and [projid_m_show]; [m_start] and [m_next] go over the
    extents in order. *)
Definition m_show (k : map_kind) (lower_ns : user_namespace) (e : extent) : cstr :=
  dec10 (first e) ++ [space] ++ dec10 (map_id_up (id_map k lower_ns) (lower_first e)) ++ [space] ++ dec10 (count e) ++ [newline].

(** What a read of the file returns to the opener. *)
Definition map_read (k : map_kind) (file : map_file) (a : Z) (st : namespaces) : res cstr :=
  let* ns := deref (st !! a) in
  let* seq_ns := deref (st !! seq_user_ns file) in
  let* lower_ns := match parent seq_ns with
    | Some pa => if seq_user_ns file =? a then deref (st !! pa) else Ok seq_ns
    | None => Ok seq_ns
    end in
  Ok (concat (map (m_show k lower_ns) (id_map k ns))).

(** ** setgroups *)

(** [strncmp (pos, w, strlen (w)) == 0]: what follows the word. *)
Fixpoint after_word (w pos : cstr) : option cstr :=
  match w, pos with
  | [], _ => Some pos
  | c :: w, b :: pos => if decide (b = c) then after_word w pos else None
  | _ :: _, [] => None
  end.

Definition setgroups_request (pos : cstr) : option bool :=
  let junk pos := match skip_spaces lib pos with [] => false | _ => true end in
  match after_word (lit "allow") pos with
  | Some pos => if junk pos then None else Some true
  | None => match after_word (lit "deny") pos with
            | Some pos => if junk pos then None else Some false
            | None => None
            end
  end.

(** [user] is what [copy_from_user] copies, or a fault. *)
Definition proc_setgroups_write (a : Z) (user : option (list byte)) (count ppos : Z) (st : namespaces) : res (Z * namespaces) :=
  let* ns := deref (st !! a) in
  if negb (ppos =? 0) || (8 <=? count) then Ok (- EINVAL, st)
  else match user with
  | None => Ok (- EFAULT, st)
  | Some kbuf =>
      match setgroups_request (c_str kbuf) with
      | None => Ok (- EINVAL, st)
      | Some true => if Z.land (flags ns) USERNS_SETGROUPS_ALLOWED =? 0 then Ok (- EPERM, st) else Ok (count, st)
      | Some false =>
          if negb (Z.of_nat (length (gid_map ns)) =? 0) then Ok (- EPERM, st)
          else Ok (count, <[a := with_flags (Z.land (flags ns) (Z.lnot USERNS_SETGROUPS_ALLOWED)) ns]> st)
      end
  end.

Definition proc_setgroups_show (a : Z) (st : namespaces) : res cstr :=
  let* ns := deref (st !! a) in
  Ok ((if negb (Z.land (flags ns) USERNS_SETGROUPS_ALLOWED =? 0) then lit "allow" else lit "deny") ++ [newline]).

Definition userns_may_setgroups (ns : user_namespace) : bool :=
  negb (Z.of_nat (length (gid_map ns)) =? 0) && negb (Z.land (flags ns) USERNS_SETGROUPS_ALLOWED =? 0).

(** ** Creation *)

(** The credentials of a task, as far as they are used here. *)
Record cred : Type := Cred {
  euid : Z; egid : Z; fsuid : Z; fsgid : Z; cr_user_ns : Z; group_info : option (list Z);
  securebits : Z; cap_inheritable : Z; cap_permitted : Z; cap_effective : Z; cap_bset : Z; cap_ambient : Z }.

Definition CAP_FULL_SET : Z := Z.ones (CAP_LAST_CAP + 1).

(** All capabilities, but bound to the new namespace. *)
Definition set_cred_user_ns (c : cred) (a : Z) : cred :=
  Cred (euid c) (egid c) (fsuid c) (fsgid c) a (group_info c) 0 0 CAP_FULL_SET CAP_FULL_SET CAP_FULL_SET 0.

(** [a] is the address of the new namespace. *)
Definition create_user_ns (new : cred) (a : Z) (st : namespaces) : res (Z * cred * namespaces) :=
  let* parent_ns := deref (st !! cr_user_ns new) in
  let own := euid new in
  let grp := egid new in
  if 32 <? level parent_ns then Ok (- ENOSPC, new, st)
  else if negb (inc_user_namespaces env (cr_user_ns new) own) then Ok (- ENOSPC, new, st)
  else if current_chrooted env then Ok (- EPERM, new, st)
  else if negb (kuid_has_mapping parent_ns own) || negb (kgid_has_mapping parent_ns grp) then Ok (- EPERM, new, st)
  else if negb (user_ns_zalloc env) then Ok (- ENOMEM, new, st)
  else if negb (ns_alloc_inum env =? 0) then Ok (ns_alloc_inum env, new, st)
  else if negb (setup_userns_sysctls env) then Ok (- ENOMEM, new, st)
  else
    let ns := Ns [] [] [] (Some (cr_user_ns new)) (level parent_ns + 1) own grp (flags parent_ns) in
    Ok (0, set_cred_user_ns new a, <[a := ns]> st).

(** ** Walking to the root *)

(** The loop of [current_in_userns] and that of [ns_get_owner]: whether [target] is the
    namespace at [a] or above it. *)
Fixpoint up_to (fuel : nat) (st : namespaces) (a : option Z) (target : Z) : res bool :=
  match fuel with
  | O => NoFuel
  | S fuel =>
      match a with
      | None => Ok false
      | Some a => if a =? target then Ok true else let* ns := deref (st !! a) in up_to fuel st (parent ns) target
      end
  end.

(** A namespace has level at most 33, as [create_user_ns] checks. *)
Definition current_in_userns (st : namespaces) (current_ns target : Z) : res bool := up_to 35 st (Some current_ns) target.

(** [ns_get_owner]: the owner of a namespace unless it is outside the task's own. *)
Definition ns_get_owner (st : namespaces) (current_ns : Z) (own : option Z) : res (Z + Z) :=
  let* inside := up_to 35 st own current_ns in
  match own with
  | Some own => Ok (if inside then inr own else inl (- EPERM))
  | None => Ok (inl (- EPERM))
  end.

(** [userns_install]: the task enters the namespace at [a]; the other tests of the task are
    arguments. *)
Definition userns_install (thread_group_empty : bool) (fs_users : Z) (prepare_ok : bool) (a : Z) (c : cred) : Z * cred :=
  if a =? cr_user_ns c then (- EINVAL, c)
  else if negb thread_group_empty then (- EINVAL, c)
  else if negb (fs_users =? 1) then (- EINVAL, c)
  else if negb (ns_capable env a CAP_SYS_ADMIN) then (- EPERM, c)
  else if negb prepare_ok then (- ENOMEM, c)
  else (0, set_cred_user_ns c a).

Definition unshare_userns (newuser prepare_ok : bool) (c : cred) (a : Z) (st : namespaces) : res (Z * option cred * namespaces) :=
  if negb newuser then Ok (0, None, st)
  else if negb prepare_ok then Ok (- ENOMEM, None, st)
  else let* '(err, new, st) := create_user_ns c a st in Ok (err, if err =? 0 then Some new else None, st).
End UserNsC.

(** All changes: the rest of the kernel may answer differently each time. *)
Inductive ustep (lib : klib) : namespaces -> namespaces -> Prop :=
  | UCreate env c a st r c' st' : st !! a = None -> create_user_ns env c a st = Ok (r, c', st') -> ustep lib st st'
  | UWriteMap env k file a user size ppos st r st' : proc_map_write lib env k file a user size ppos st = Ok (r, st') -> ustep lib st st'
  | UWriteSetgroups a user size ppos st r st' : proc_setgroups_write lib a user size ppos st = Ok (r, st') -> ustep lib st st'.
