(* ===== verification/UserNsTheorems.v ===== *)
(** * User namespaces: the maps

    A map that [map_write] accepts is a bijection between disjoint ranges, and what it
    gives to a namespace is part of what its parent has ([ns_ok], kept by every change).
    What is read from a map can be written to another one. *)

From S2P Require Import Prelude CString UserNs.

(** ** The library *)

(** What the comments of [lib/] say; [simple_strtoul] is called with base 10. *)
Class KLibLaws (lib : klib) : Prop := {
  kl_space : isspace lib space = true;
  kl_nul : isspace lib NUL = false;
  kl_digit b : is_digit b = true -> isspace lib b = false;
  kl_skip s : skip_spaces lib s = drop_while (isspace lib) s;
  kl_strtoul ds rest : ds <> [] -> Forall (fun b => is_digit b = true) ds -> match rest with [] => True | c :: _ => is_digit c = false end ->
    simple_strtoul lib (ds ++ rest) = (u64 (atoi_digits ds), rest) }.

(** ** Maps in order *)

Record extent_ok (e : extent) : Prop := {
  eo_first : 0 <= first e;
  eo_lower : 0 <= lower_first e;
  eo_count : 0 < count e;
  eo_end : first e + count e < 2 ^ 32;
  eo_lower_end : lower_first e + count e < 2 ^ 32 }.

Definition apart (x n y m : Z) : Prop := x + n <= y \/ y + m <= x.

Definition disjoint_extents (e f : extent) : Prop :=
  apart (first e) (count e) (first f) (count f) /\ apart (lower_first e) (count e) (lower_first f) (count f).

Record map_ok (m : uid_gid_map) : Prop := {
  mo_len : Z.of_nat (length m) <= UID_GID_MAP_MAX_EXTENTS;
  mo_each e : e ∈ m -> extent_ok e;
  mo_apart i j e f : m !! i = Some e -> m !! j = Some f -> i <> j -> disjoint_extents e f }.

Lemma last_of_ok x n : 0 <= x -> 0 < n -> x + n < 2 ^ 32 -> last_of x n = x + n - 1.
Proof. intros. unfold last_of. apply u32_id. lia. Qed.

(** Two extents of a map with a common identifier, above or below, are the same. *)
Lemma same_extent m e f x : map_ok m -> e ∈ m -> f ∈ m ->
  first e <= x < first e + count e /\ first f <= x < first f + count f \/
  lower_first e <= x < lower_first e + count e /\ lower_first f <= x < lower_first f + count f -> e = f.
Proof.
  intros Hm [i Hi]%list_elem_of_lookup [j Hj]%list_elem_of_lookup Hx. destruct (decide (i = j)) as [->|Hne]; [congruence|].
  destruct (mo_apart m Hm i j e f Hi Hj Hne) as [H1 H2]. unfold apart in *. lia.
Qed.

Lemma find_range m (g : extent -> Z) x : (forall e, e ∈ m -> last_of (g e) (count e) = g e + count e - 1) ->
  (exists e, List.find (fun e => (g e <=? x) && (x <=? last_of (g e) (count e))) m = Some e /\ e ∈ m /\ g e <= x < g e + count e) \/
  List.find (fun e => (g e <=? x) && (x <=? last_of (g e) (count e))) m = None /\ forall e, e ∈ m -> ~ g e <= x < g e + count e.
Proof.
  intros Hl. destruct (List.find _ m) as [e|] eqn:E.
  - left. exists e. apply List.find_some in E as [Hin H]. apply list_elem_of_In in Hin. cbv beta in H. rewrite Hl in H by done. split; [done|]. split; [done|]. lia.
  - right. split; [done|]. intros e He. pose proof (List.find_none _ _ E e) as H. cbv beta in H. rewrite Hl in H by done. apply list_elem_of_In in He. specialize (H He). lia.
Qed.

Lemma map_id_down_spec m id : map_ok m -> 
  (exists e, e ∈ m /\ first e <= id < first e + count e /\ map_id_down m id = lower_first e + (id - first e)) \/
  map_id_down m id = INVALID_ID /\ forall e, e ∈ m -> ~ first e <= id < first e + count e.
Proof.
  intros Hm. destruct (find_range m first id) as [(e & E & He & Hr)|[E Hn]].
  { intros e He. destruct (mo_each m Hm e He). by apply last_of_ok. }
  - left. exists e. split; [done|]. split; [done|]. unfold map_id_down. rewrite E. destruct (mo_each m Hm e He). rewrite !u32_id; rewrite ?u32_id; lia.
  - right. unfold map_id_down. by rewrite E.
Qed.

Lemma map_id_up_spec m id : map_ok m ->
  (exists e, e ∈ m /\ lower_first e <= id < lower_first e + count e /\ map_id_up m id = first e + (id - lower_first e)) \/
  map_id_up m id = INVALID_ID /\ forall e, e ∈ m -> ~ lower_first e <= id < lower_first e + count e.
Proof.
  intros Hm. destruct (find_range m lower_first id) as [(e & E & He & Hr)|[E Hn]].
  { intros e He. destruct (mo_each m Hm e He). by apply last_of_ok. }
  - left. exists e. split; [done|]. split; [done|]. unfold map_id_up. rewrite E. destruct (mo_each m Hm e He). rewrite !u32_id; rewrite ?u32_id; lia.
  - right. unfold map_id_up. by rewrite E.
Qed.

Lemma map_down_up m id : map_ok m -> map_id_down m id <> INVALID_ID -> map_id_up m (map_id_down m id) = id.
Proof.
  intros Hm Hv. destruct (map_id_down_spec m id Hm) as [(e & He & Hr & E)|[E _]]; [|done]. rewrite E.
  destruct (map_id_up_spec m (lower_first e + (id - first e)) Hm) as [(f & Hf & Hrf & ->)|[_ Hn]]; [|exfalso; apply (Hn e); [done|lia]].
  rewrite (same_extent m f e (lower_first e + (id - first e)) Hm Hf He) by lia. lia.
Qed.

Lemma map_up_down m id : map_ok m -> map_id_up m id <> INVALID_ID -> map_id_down m (map_id_up m id) = id.
Proof.
  intros Hm Hv. destruct (map_id_up_spec m id Hm) as [(e & He & Hr & E)|[E _]]; [|done]. rewrite E.
  destruct (map_id_down_spec m (first e + (id - lower_first e)) Hm) as [(f & Hf & Hrf & ->)|[_ Hn]]; [|exfalso; apply (Hn e); [done|lia]].
  rewrite (same_extent m f e (first e + (id - lower_first e)) Hm Hf He) by lia. lia.
Qed.

(** A whole range is mapped by one extent. *)
Lemma map_range_spec m id n : map_ok m -> 0 <= id -> 0 < n -> id + n < 2 ^ 32 -> map_id_range_down m id n <> INVALID_ID ->
  exists e, e ∈ m /\ first e <= id /\ id + n <= first e + count e /\ map_id_range_down m id n = lower_first e + (id - first e).
Proof.
  intros Hm Hid Hn Hend Hv. unfold map_id_range_down in *. rewrite (u32_id (id + n - 1)) in * by lia.
  destruct (List.find _ m) as [e|] eqn:E; [|done]. apply List.find_some in E as [Hin H]. apply list_elem_of_In in Hin. cbv beta in H.
  destruct (mo_each m Hm e Hin). rewrite last_of_ok in H by lia. exists e. split; [done|]. rewrite !u32_id; rewrite ?u32_id; lia.
Qed.

Lemma map_range_inside m id n e : map_ok m -> e ∈ m -> 0 < n -> first e <= id -> id + n <= first e + count e ->
  map_id_range_down m id n = lower_first e + (id - first e).
Proof.
  intros Hm He Hn H1 H2. destruct (mo_each m Hm e He). unfold map_id_range_down. rewrite (u32_id (id + n - 1)) by lia.
  destruct (List.find _ m) as [f|] eqn:E.
  - apply List.find_some in E as [Hin H]. apply list_elem_of_In in Hin. cbv beta in H. destruct (mo_each m Hm f Hin). rewrite last_of_ok in H by lia.
    rewrite (same_extent m f e id Hm Hin He) in * by lia. rewrite !u32_id; rewrite ?u32_id; lia.
  - pose proof (List.find_none _ _ E e) as H. cbv beta in H. rewrite last_of_ok in H by lia. apply list_elem_of_In in He. specialize (H He). lia.
Qed.

(** ** What [map_write] accepts *)

Lemma valid_extent_ok e : 0 <= first e < 2 ^ 32 -> 0 <= lower_first e < 2 ^ 32 -> 0 <= count e < 2 ^ 32 -> valid_extent e = true <-> extent_ok e.
Proof.
  intros H1 H2 H3. unfold valid_extent, INVALID_ID.
  assert (Hw : forall x, 0 <= x < 2 ^ 32 -> (x =? 4294967295) = false /\ (u32 (x + count e) <=? x) = false <-> 0 < count e /\ x + count e < 2 ^ 32).
  { intros x Hx. unfold u32. rewrite Z.eqb_neq, Z.leb_gt. destruct (decide (x + count e < 2 ^ 32)).
    - rewrite Z.mod_small by lia. lia.
    - replace (x + count e) with ((x + count e - 2 ^ 32) + 1 * 2 ^ 32) by lia. rewrite Z.mod_add, Z.mod_small by lia. lia. }
  pose proof (Hw _ H1). pose proof (Hw _ H2). split.
  - rewrite !andb_true_iff, !negb_true_iff, orb_false_iff. intros [[[A B] C] D]. split; tauto || lia.
  - intros [A B C D E]. rewrite !andb_true_iff, !negb_true_iff, orb_false_iff. tauto.
Qed.

Lemma overlap_spec m e : (forall f, f ∈ m -> extent_ok f) -> extent_ok e -> mappings_overlap m e = false <-> forall f, f ∈ m -> disjoint_extents f e.
Proof.
  intros Hm [E1 E2 E3 E4 E5]. induction m as [|f m IH]; cbn [mappings_overlap]; [split; [by intros _ f ?%not_elem_of_nil|done]|].
  destruct (Hm f ltac:(left)) as [F1 F2 F3 F4 F5]. rewrite !last_of_ok by done. specialize (IH ltac:(intros g Hg; apply Hm; by right)).
  assert (Hd : disjoint_extents f e <-> ((first f <=? first e + count e - 1) && (first e <=? first f + count f - 1) = false) /\
    ((lower_first f <=? lower_first e + count e - 1) && (lower_first e <=? lower_first f + count f - 1) = false)).
  { unfold disjoint_extents, apart. rewrite !andb_false_iff, !Z.leb_gt. lia. }
  destruct (_ && _); [split; [done|]; intros H; specialize (H f ltac:(left)); apply Hd in H as [? _]; done|].
  destruct (_ && _); [split; [done|]; intros H; specialize (H f ltac:(left)); apply Hd in H as [_ ?]; done|].
  rewrite IH. split.
  - intros H g [->|Hg]%elem_of_cons; [by apply Hd|by apply H].
  - intros H g Hg. apply H. by right.
Qed.

Lemma map_ok_snoc m e : map_ok m -> Z.of_nat (length m) < UID_GID_MAP_MAX_EXTENTS -> extent_ok e -> (forall f, f ∈ m -> disjoint_extents f e) -> map_ok (m ++ [e]).
Proof.
  intros [_ H1 H2] Hlen He Hd. split.
  - rewrite length_app. cbn [length]. lia.
  - intros f [Hf| ->%list_elem_of_singleton]%elem_of_app; auto.
  - assert (Hsym : forall f, f ∈ m -> disjoint_extents e f) by (intros f Hf; destruct (Hd f Hf); unfold disjoint_extents, apart in *; lia).
    intros i j f g Hf Hg Hij. rewrite lookup_app in Hf, Hg. destruct (m !! i) as [f'|] eqn:Ei, (m !! j) as [g'|] eqn:Ej; simplify_eq.
    + by apply (H2 i j).
    + apply list_lookup_singleton_Some in Hg as [_ ->]. apply Hd. by eapply list_elem_of_lookup_2.
    + apply list_lookup_singleton_Some in Hf as [_ ->]. apply Hsym. by eapply list_elem_of_lookup_2.
    + apply list_lookup_singleton_Some in Hf as [Hi _], Hg as [Hj _]. apply lookup_ge_None in Ei, Ej. lia.
Qed.

Lemma map_ok_nil : map_ok [].
Proof. split; [done|by intros e ?%not_elem_of_nil|done]. Qed.

Section Accept.
Context (lib : klib).

Lemma parse_extent_range line e : parse_extent lib line = Some e -> 0 <= first e < 2 ^ 32 /\ 0 <= lower_first e < 2 ^ 32 /\ 0 <= count e < 2 ^ 32.
Proof using.
  unfold parse_extent. destruct (simple_strtoul lib _) as [x p1]. destruct (negb _); [done|]. destruct (simple_strtoul lib _) as [y p2]. destruct (negb _); [done|].
  destruct (simple_strtoul lib _) as [z p3]. destruct (match p3 with [] => _ | _ => _ end); [done|]. destruct (skip_spaces lib p3); [|done]. intros [= <-].
  cbn [first lower_first count]. split_and!; apply u32_range.
Qed.

(** The loop ends within its five extents, and never writes past them. *)
Lemma parse_map_total fuel pos m : map_ok m -> Z.of_nat fuel + Z.of_nat (length m) = UID_GID_MAP_MAX_EXTENTS -> (0 < fuel)%nat ->
  exists r, parse_map lib fuel pos m = Ok r /\ forall m', r = Some m' -> map_ok m' /\ (length m < length m')%nat.
Proof using.
  revert pos m. induction fuel as [|fuel IH]; intros pos m Hm Hf H0; [lia|]. cbn [parse_map]. rewrite (proj2 (Z.leb_gt _ _)) by lia.
  destruct (cut_line pos) as [line next]. destruct (parse_extent lib line) as [e|] eqn:Ee; [|by exists None].
  destruct (parse_extent_range line e Ee) as (R1 & R2 & R3). destruct (valid_extent e) eqn:Ev; cbn [negb]; [|by exists None].
  apply valid_extent_ok in Ev; [|done..]. destruct (mappings_overlap m e) eqn:Eo; [by exists None|].
  pose proof (proj1 (overlap_spec m e (mo_each m Hm) Ev) Eo) as Hd. pose proof (map_ok_snoc m e Hm ltac:(lia) Ev Hd) as Hm'.
  destruct next as [next|]; [|exists (Some (m ++ [e])); split; [done|]; intros m' [= <-]; split; [done|]; rewrite length_app; simpl; lia].
  destruct (Z.eqb_spec (Z.of_nat (length (m ++ [e]))) UID_GID_MAP_MAX_EXTENTS) as [E|E]; [by exists None|]. rewrite length_app in E. cbn [length] in E.
  destruct (IH next (m ++ [e]) Hm') as (r & -> & Hr); [rewrite length_app; cbn [length]; lia|lia|]. exists r. split; [done|]. intros m' Hm''.
  destruct (Hr m' Hm'') as [? Hl]. split; [done|]. rewrite length_app in Hl. lia.
Qed.
End Accept.

(** ** What a namespace gets is part of what its parent has *)

(** Every range of [m] is inside one of the lower ranges of [p]. *)
Definition inside (m p : uid_gid_map) : Prop :=
  forall e, e ∈ m -> exists f, f ∈ p /\ lower_first f <= lower_first e /\ lower_first e + count e <= lower_first f + count f.

(** [l] is [m] with the lower identifiers mapped through [p]. *)
Definition lowered (p m l : uid_gid_map) : Prop :=
  Forall2 (fun e f => exists g, g ∈ p /\ first g <= lower_first e /\ lower_first e + count e <= first g + count g /\
    f = Extent (first e) (lower_first g + (lower_first e - first g)) (count e)) m l.

Lemma map_lower_spec p m l : map_ok p -> (forall e, e ∈ m -> extent_ok e) -> map_lower p m = Some l -> lowered p m l.
Proof.
  intros Hp. revert l. induction m as [|e m IH]; intros l Hm; cbn [map_lower]; [intros [= <-]; constructor|].
  destruct (Hm e ltac:(left)) as [E1 E2 E3 E4 E5].
  destruct (Z.eqb_spec (map_id_range_down p (lower_first e) (count e)) INVALID_ID) as [|Hv]; [done|].
  destruct (map_lower p m) as [l'|] eqn:El; [|done]. intros [= <-]. constructor; [|apply IH; [intros f Hf; apply Hm; by right|done]].
  destruct (map_range_spec p _ _ Hp E2 E3 E5 Hv) as (g & Hg & H1 & H2 & ->). by exists g.
Qed.

Lemma lowered_ok p m l : map_ok p -> map_ok m -> lowered p m l -> map_ok l /\ inside l p /\ length l = length m.
Proof.
  intros Hp Hm Hl. split_and!; [|intros f [i Hi]%list_elem_of_lookup|by rewrite (Forall2_length _ _ _ Hl)].
  - split.
    + rewrite <- (Forall2_length _ _ _ Hl). apply Hm.
    + intros f [i Hi]%list_elem_of_lookup. destruct (Forall2_lookup_r _ _ _ _ _ Hl Hi) as (e & He & g & Hg & H1 & H2 & ->).
      destruct (mo_each m Hm e) as [A B C D E]; [by eapply list_elem_of_lookup_2|]. destruct (mo_each p Hp g Hg). split; cbn [first lower_first count]; lia.
    + intros i j f f' Hi Hj Hij. destruct (Forall2_lookup_r _ _ _ _ _ Hl Hi) as (e & He & g & Hg & H1 & H2 & ->).
      destruct (Forall2_lookup_r _ _ _ _ _ Hl Hj) as (e' & He' & g' & Hg' & H1' & H2' & ->). destruct (mo_apart m Hm i j e e' He He' Hij) as [D1 D2].
      unfold disjoint_extents, apart in *. cbn [first lower_first count] in *. split; [done|].
      destruct (list_elem_of_lookup_1 _ _ Hg) as [a Ha]. destruct (list_elem_of_lookup_1 _ _ Hg') as [a' Ha'].
      destruct (decide (a = a')) as [->|Hne]; [assert (g = g') as -> by congruence; lia|]. destruct (mo_apart p Hp a a' g g' Ha Ha' Hne) as [_ D3]. unfold apart in D3. lia.
  - destruct (Forall2_lookup_r _ _ _ _ _ Hl Hi) as (e & He & g & Hg & H1 & H2 & ->). exists g. cbn [lower_first count]. split; [done|]. lia.
Qed.

(** ** The namespaces *)

Definition allowed (n : user_namespace) : bool := negb (Z.land (flags n) USERNS_SETGROUPS_ALLOWED =? 0).

(** A namespace has only identifiers of its parent, and [setgroups] is allowed in it only if
    it is in its parent; a namespace with children has a map of groups. *)
Record below (n m : user_namespace) : Prop := {
  be_level : level n = level m + 1;
  be_ids k : inside (id_map k n) (id_map k m);
  be_groups : gid_map m <> [];
  be_allowed : allowed n = true -> allowed m = true }.

Record ns_ok (st : namespaces) : Prop := {
  no_root : exists r, st !! 0 = Some r /\ parent r = None /\ level r = 0 /\ forall k, id_map k r = whole_map;
  no_parent a n : st !! a = Some n -> a <> 0 -> exists p m, parent n = Some p /\ st !! p = Some m /\ below n m;
  no_maps a n k : st !! a = Some n -> map_ok (id_map k n);
  no_level a n : st !! a = Some n -> 0 <= level n <= 33 }.

Lemma whole_map_ok : map_ok whole_map.
Proof. apply (map_ok_snoc []); [apply map_ok_nil|done|by split|by intros f ?%not_elem_of_nil]. Qed.

Lemma init_ok : ns_ok {[ 0 := init_user_ns ]}.
Proof.
  split.
  - exists init_user_ns. split; [apply lookup_singleton_eq|]. split_and!; try done. by intros [].
  - intros a n [<- <-]%lookup_singleton_Some. done.
  - intros a n k [<- <-]%lookup_singleton_Some. destruct k; apply whole_map_ok.
  - intros a n [<- <-]%lookup_singleton_Some. by cbn.
Qed.

(** A namespace may change only so much. *)
Record refined (n n' : user_namespace) : Prop := {
  rf_parent : parent n' = parent n;
  rf_level : level n' = level n;
  rf_once k : id_map k n <> [] -> id_map k n' = id_map k n;
  rf_denied : allowed n' = true -> allowed n = true;
  rf_fixed : gid_map n <> [] -> allowed n' = allowed n }.

Lemma inside_nil m p : inside m [] -> inside m p.
Proof. intros H e He. destruct (H e He) as (f & Hf & _). by apply not_elem_of_nil in Hf. Qed.

Lemma refined_parent n m m' : below n m -> refined m m' -> below n m'.
Proof.
  intros [B1 B2 B3 B4] [R1 R2 R3 R4 R5]. split; [lia| | |].
  - intros k. specialize (B2 k). destruct (id_map k m) as [|e l] eqn:E; [by apply inside_nil|]. rewrite R3, E; [done|]. by rewrite E.
  - pose proof (R3 GidMap B3) as E. cbn in E. by rewrite E.
  - intros Hn. rewrite R5 by done. by apply B4.
Qed.

Lemma ns_ok_update st a n n' : ns_ok st -> st !! a = Some n -> refined n n' -> (forall k, map_ok (id_map k n')) ->
  (forall p m k, parent n = Some p -> st !! p = Some m -> inside (id_map k n') (id_map k m)) -> ns_ok (<[a := n']> st).
Proof.
  intros [O1 O2 O3 O4] Ha HR Hm Hin. pose proof HR as [R1 R2 R3 R4 R5]. split.
  - destruct O1 as (r & H0 & H1 & H2 & H3). destruct (decide (a = 0)) as [->|Hne]; [|exists r; by rewrite lookup_insert_ne].
    exists n'. rewrite lookup_insert_eq. simplify_eq. split_and!; [done|congruence|congruence|]. intros k. rewrite R3, H3; [done|]. by rewrite H3.
  - intros b nb Hb Hb0. assert (Hup : forall p m, st !! p = Some m -> below nb m -> exists m', <[a := n']> st !! p = Some m' /\ below nb m').
    { intros p m Hp Hbe. destruct (decide (p = a)) as [->|Hne]; [|exists m; by rewrite lookup_insert_ne]. exists n'. rewrite lookup_insert_eq. split; [done|].
      simplify_eq. by eapply refined_parent. }
    rewrite lookup_insert_Some in Hb. destruct Hb as [[<- <-]|[Hne Hb]].
    + destruct (O2 a n Ha Hb0) as (p & m & Hp & Hpm & [B1 B2 B3 B4]). exists p.
      destruct (Hup p m Hpm) as (m' & Hm' & Hbe); [split; [lia|by intros k; eapply Hin|done|tauto]|]. exists m'. split_and!; [congruence|done|done].
    + destruct (O2 b nb Hb Hb0) as (p & m & Hp & Hpm & Hbe). destruct (Hup p m Hpm Hbe) as (m' & Hm' & Hbe'). by exists p, m'.
  - intros b nb k. rewrite lookup_insert_Some. intros [[<- <-]|[_ Hb]]; [done|by apply (O3 b)].
  - intros b nb. rewrite lookup_insert_Some. intros [[<- <-]|[_ Hb]]; [rewrite R2; by apply (O4 a)|by apply (O4 b)].
Qed.

Lemma id_map_with k k' m n : id_map k (with_map k' m n) = if decide (k = k') then m else id_map k n.
Proof. by destruct n, k, k'. Qed.

(** What one call does to the namespaces. *)
Inductive changed (st : namespaces) : namespaces -> Prop :=
  | ch_same : changed st st
  | ch_new a n p m : st !! a = None -> (forall k, id_map k n = []) -> parent n = Some p -> st !! p = Some m -> level n = level m + 1 -> level m <= 32 ->
      gid_map m <> [] -> flags n = flags m -> changed st (<[a := n]> st)
  | ch_upd a n n' : st !! a = Some n -> refined n n' -> (forall k, map_ok (id_map k n')) ->
      (forall p m k, parent n = Some p -> st !! p = Some m -> inside (id_map k n') (id_map k m)) -> changed st (<[a := n']> st).

Lemma changed_ok st st' : ns_ok st -> changed st st' -> ns_ok st'.
Proof.
  intros Hst [|a n p m Ha Hk Hp Hm Hl Hl' Hg Hf|a n n' Ha HR Hm Hin]; [done| |by apply (ns_ok_update st a n)].
  pose proof (no_level _ Hst p m Hm) as Hlm. destruct Hst as [O1 O2 O3 O4]. split.
  - destruct O1 as (r0 & H0 & H1). exists r0. rewrite lookup_insert_ne by congruence. done.
  - intros b nb Hb Hb0. rewrite lookup_insert_Some in Hb. destruct Hb as [[<- <-]|[Hne Hb]].
    + exists p, m. split; [done|]. rewrite lookup_insert_ne by congruence. split; [done|]. split; [done| |done|unfold allowed; by rewrite Hf].
      intros k. rewrite Hk. by intros e ?%not_elem_of_nil.
    + destruct (O2 b nb Hb Hb0) as (q & mq & Hq & Hqm & Hbe). exists q, mq. by rewrite lookup_insert_ne by congruence.
  - intros b nb k. rewrite lookup_insert_Some. intros [[<- <-]|[_ Hb]]; [rewrite Hk; apply map_ok_nil|by apply (O3 b)].
  - intros b nb. rewrite lookup_insert_Some. intros [[<- <-]|[_ Hb]]; [lia|by apply (O4 b)].
Qed.

Lemma refined_id n : refined n n.
Proof. by split. Qed.

Lemma refined_trans n n1 n2 : refined n n1 -> refined n1 n2 -> refined n n2.
Proof.
  intros [A1 A2 A3 A4 A5] [B1 B2 B3 B4 B5]. split; [congruence|congruence| |tauto|].
  - intros k Hk. rewrite B3, A3; [done|done|]. by rewrite A3.
  - intros Hg. rewrite B5, A5; [done|done|]. pose proof (A3 GidMap Hg) as E. cbn in E. by rewrite E.
Qed.

Lemma changed_keeps st st' a n : changed st st' -> st !! a = Some n -> exists n', st' !! a = Some n' /\ refined n n'.
Proof.
  intros [|b nb p m Hb _ _ _ _ _ _ _|b nb nb' Hb HR _ _] Ha; [eauto using refined_id| |].
  - exists n. rewrite lookup_insert_ne by congruence. auto using refined_id.
  - destruct (decide (a = b)) as [->|Hne]; [exists nb'; rewrite lookup_insert_eq; by simplify_eq|exists n; rewrite lookup_insert_ne by done; auto using refined_id].
Qed.

Section Steps.
Context (lib : klib).

(** A write leaves the map, or fills an empty one. *)
Lemma map_write_spec env file user size ppos k a ns pa par : map_ok (id_map k ns) -> map_ok (id_map k par) ->
  exists ret m, map_write lib env file user size ppos k a ns pa par = Ok (ret, m) /\
    (m = id_map k ns \/ id_map k ns = [] /\ ret = size /\ map_ok m /\ inside m (id_map k par)).
Proof using.
  intros Hn Hp. unfold map_write. destruct (Z.eqb_spec (Z.of_nat (length (id_map k ns))) 0) as [E|E]; cbn [negb]; [|eexists _, _; split; [done|by left]].
  destruct (_ && _); [eexists _, _; split; [done|by left]|]. destruct (_ || _); [eexists _, _; split; [done|by left]|]. destruct user as [err|kbuf]; [eexists _, _; split; [done|by left]|].
  destruct (parse_map_total lib 5 (c_str kbuf) [] map_ok_nil ltac:(done) ltac:(lia)) as (r & Er & Hr).
  change (Z.to_nat UID_GID_MAP_MAX_EXTENTS) with 5%nat. rewrite Er. cbn [rbind]. destruct r as [m|]; [|eexists _, _; split; [done|by left]].
  destruct (Hr m eq_refl) as [Hm Hl]. destruct (Z.of_nat (length m) =? 0); [eexists _, _; split; [done|by left]|]. destruct (negb _); [eexists _, _; split; [done|by left]|].
  destruct (map_lower (id_map k par) m) as [l|] eqn:El; [|eexists _, _; split; [done|by left]]. eexists _, _. split; [done|]. right.
  apply map_lower_spec in El; [|done|apply Hm]. destruct (lowered_ok _ _ _ Hp Hm El) as (H1 & H2 & _). split_and!; try done.
  destruct (id_map k ns); [done|]. simpl in E. lia.
Qed.

Lemma write_refined k m n : m = id_map k n \/ id_map k n = [] -> refined n (with_map k m n).
Proof using.
  intros Hm. assert (Hf : flags (with_map k m n) = flags n) by by destruct n, k. split; try (unfold allowed; by rewrite Hf); try by destruct n, k.
  intros k' Hk. rewrite id_map_with. case_decide as E; [subst|done]. destruct Hm as [->|Hm]; [done|congruence].
Qed.

Lemma proc_map_write_changed env k file a user size ppos st r st' : ns_ok st -> proc_map_write lib env k file a user size ppos st = Ok (r, st') -> changed st st'.
Proof using.
  intros Hst. unfold proc_map_write. destruct (st !! a) as [n|] eqn:Ea; [|done]. cbn [deref rbind]. destruct (parent n) as [pa|] eqn:Ep; [|intros [= _ <-]; constructor].
  destruct (_ && _); [intros [= _ <-]; constructor|]. destruct (st !! pa) as [m|] eqn:Em; [|done]. cbn [deref rbind].
  destruct (map_write_spec env file user size ppos k a n pa m (no_maps _ Hst a n k Ea) (no_maps _ Hst pa m k Em)) as (ret & l & -> & Hl). cbn [rbind]. intros [= _ <-].
  assert (Ha0 : a <> 0) by (destruct (no_root _ Hst) as (r0 & H0 & H1 & _); intros ->; congruence).
  apply (ch_upd st a n _ Ea); [apply write_refined; tauto| |].
  - intros k'. rewrite id_map_with. case_decide as E; [subst|by apply (no_maps _ Hst a)]. destruct Hl as [->|(_ & _ & ? & _)]; [by apply (no_maps _ Hst a)|done].
  - intros p m' k' Hp' Hm'. assert (p = pa) as -> by congruence. assert (m' = m) as -> by congruence.
    destruct (no_parent _ Hst a n Ea Ha0) as (p & m' & Hp & Hpm & Hb). assert (p = pa) as -> by congruence. assert (m' = m) as -> by congruence.
    rewrite id_map_with. case_decide as E; [subst|apply Hb]. destruct Hl as [->|(_ & _ & _ & ?)]; [apply Hb|done].
Qed.

Lemma setgroups_changed a user size ppos st r st' : ns_ok st -> proc_setgroups_write lib a user size ppos st = Ok (r, st') -> changed st st'.
Proof using.
  intros Hst. unfold proc_setgroups_write. destruct (st !! a) as [n|] eqn:Ea; [|done]. cbn [deref rbind]. destruct (_ || _); [intros [= _ <-]; constructor|].
  destruct user as [kbuf|]; [|intros [= _ <-]; constructor].
  destruct (setgroups_request lib (c_str kbuf)) as [[]|]; [destruct (_ =? 0); intros [= _ <-]; constructor| |intros [= _ <-]; constructor].
  destruct (Z.eqb_spec (Z.of_nat (length (gid_map n))) 0) as [E|E]; cbn [negb]; [|intros [= _ <-]; constructor]. intros [= _ <-]. set (f := Z.land _ _).
  assert (Hg : gid_map n = []) by (destruct (gid_map n); [done|simpl in E; lia]).
  assert (Hm : forall k, id_map k (with_flags f n) = id_map k n) by (by intros k; destruct n, k).
  assert (Hf : allowed (with_flags f n) = false).
  { unfold allowed. replace (flags (with_flags f n)) with f by by destruct n. unfold f. by rewrite <- Z.land_assoc, Z.land_0_r. }
  apply (ch_upd st a n _ Ea).
  - split; [by destruct n|by destruct n|done|by rewrite Hf|done].
  - intros k. rewrite Hm. by apply (no_maps _ Hst a).
  - intros p m k Hp Hpm. rewrite Hm. assert (Ha0 : a <> 0) by (destruct (no_root _ Hst) as (r0 & H0 & H1 & _); intros ->; congruence).
    destruct (no_parent _ Hst a n Ea Ha0) as (p' & m' & Hp' & Hpm' & Hb). assert (p' = p) as -> by congruence. assert (m' = m) as -> by congruence. apply Hb.
Qed.

Lemma create_changed env c a st r c' st' : st !! a = None -> create_user_ns env c a st = Ok (r, c', st') -> changed st st'.
Proof using.
  intros Hnew. unfold create_user_ns. destruct (st !! cr_user_ns c) as [p|] eqn:Ep; [|done]. cbn [deref rbind].
  destruct (Z.ltb_spec 32 (level p)) as [|Hl]; [intros [= _ _ <-]; constructor|].
  destruct (negb (inc_user_namespaces _ _ _)); [intros [= _ _ <-]; constructor|]. destruct (current_chrooted env); [intros [= _ _ <-]; constructor|].
  destruct (kuid_has_mapping p _), (kgid_has_mapping p _) eqn:Eg; cbn [negb orb]; try by intros [= _ _ <-]; constructor.
  destruct (negb (user_ns_zalloc env)); [intros [= _ _ <-]; constructor|]. destruct (negb (_ =? 0)); [intros [= _ _ <-]; constructor|].
  destruct (negb (setup_userns_sysctls env)); [intros [= _ _ <-]; constructor|]. intros [= _ _ <-].
  apply (ch_new st a _ (cr_user_ns c) p); try done; [by intros []|]. intros E. unfold kgid_has_mapping, from_kgid in Eg. by rewrite E in Eg.
Qed.

Lemma ustep_changed st st' : ns_ok st -> ustep lib st st' -> changed st st'.
Proof using.
  intros Hst H. destruct H as [env c a st r c' st' Hn E|env k file a user size ppos st r st' E|a user size ppos st r st' E];
    [exact (create_changed env c a st r c' st' Hn E)|exact (proc_map_write_changed env k file a user size ppos st r st' Hst E)
    |exact (setgroups_changed a user size ppos st r st' Hst E)].
Qed.

(** Every call keeps the invariant, and what has been given to a namespace. *)
Lemma usteps_ok st st' : rtc (ustep lib) st st' -> ns_ok st -> ns_ok st' /\ forall a n, st !! a = Some n -> exists n', st' !! a = Some n' /\ refined n n'.
Proof using.
  induction 1 as [st|st st1 st2 Hs _ IH]; intros Hst; [eauto using refined_id|]. pose proof (ustep_changed _ _ Hst Hs) as Hc.
  destruct (IH (changed_ok _ _ Hst Hc)) as [H1 H2]. split; [done|]. intros a n Ha. destruct (changed_keeps _ _ a n Hc Ha) as (n1 & Hn1 & R1).
  destruct (H2 a n1 Hn1) as (n2 & Hn2 & R2). eauto using refined_trans.
Qed.
End Steps.

(** ** Above a namespace *)

Definition parent_of (st : namespaces) (a p : Z) : Prop := exists n, st !! a = Some n /\ parent n = Some p.

Lemma inside_mapped m p id : map_ok m -> map_ok p -> inside m p -> map_id_up m id <> INVALID_ID -> map_id_up p id <> INVALID_ID.
Proof.
  intros Hm Hp Hin Hv. destruct (map_id_up_spec m id Hm) as [(e & He & Hr & E)|[E _]]; [|done]. destruct (Hin e He) as (f & Hf & H1 & H2).
  destruct (map_id_up_spec p id Hp) as [(g & Hg & Hrg & ->)|[_ Hn]]; [|exfalso; apply (Hn f); [done|lia]]. destruct (mo_each p Hp g Hg). unfold INVALID_ID. lia.
Qed.

Lemma ancestor_spec st a b n : ns_ok st -> rtc (parent_of st) a b -> st !! a = Some n ->
  exists m, st !! b = Some m /\ (forall k id, map_id_up (id_map k n) id <> INVALID_ID -> map_id_up (id_map k m) id <> INVALID_ID) /\ (allowed n = true -> allowed m = true).
Proof.
  intros Hst H. revert n. induction H as [a|a p b (na & Ha & Hp) _ IH]; intros n Hn; [by exists n|]. assert (na = n) as -> by congruence.
  destruct (decide (a = 0)) as [->|Ha0]; [destruct (no_root _ Hst) as (r & H0 & H1 & _); congruence|].
  destruct (no_parent _ Hst a n Hn Ha0) as (p' & m & Hp' & Hm & [B1 B2 B3 B4]). assert (p' = p) as -> by congruence.
  destruct (IH m Hm) as (m' & Hm' & I1 & I2). exists m'. split; [done|]. split; [|tauto]. intros k id Hid. apply I1.
  by apply (inside_mapped (id_map k n)); [apply (no_maps _ Hst a)|apply (no_maps _ Hst p)|apply B2|].
Qed.

(** The loops up the tree end. *)
Lemma up_to_spec st t fuel : ns_ok st -> forall a n, st !! a = Some n -> level n + 2 <= Z.of_nat fuel ->
  exists r, up_to fuel st (Some a) t = Ok r /\ (r = true <-> rtc (parent_of st) a t).
Proof.
  intros Hst. induction fuel as [|fuel IH]; intros a n Ha Hf; [pose proof (no_level _ Hst a n Ha); lia|]. cbn [up_to].
  destruct (Z.eqb_spec a t) as [->|Hne]; [exists true; split; [done|]; split; [constructor|done]|]. rewrite Ha. cbn [deref rbind].
  destruct (decide (a = 0)) as [->|Ha0].
  - destruct (no_root _ Hst) as (r & H0 & H1 & H2 & _). assert (r = n) as -> by congruence. rewrite H1. exists false. split; [destruct fuel; [lia|done]|]. split; [done|].
    intros Hr. inversion Hr as [|x y z (n' & Hn' & Hp') _]; [congruence|]. congruence.
  - destruct (no_parent _ Hst a n Ha Ha0) as (p & m & Hp & Hm & Hb). rewrite Hp. destruct (IH p m Hm) as (r & E & Hr); [pose proof (be_level _ _ Hb); lia|].
    exists r. split; [done|]. rewrite Hr. split; [intros H; apply rtc_l with p; [by exists n|done]|]. intros H. inversion H as [|x y z (n' & Hn' & Hp') Hrest]; [congruence|].
    assert (p = y) as -> by congruence. done.
Qed.

(** ** Reading and writing maps *)

(** The map as it is written: with the identifiers of the parent. *)
Definition raise (p m : uid_gid_map) : uid_gid_map := map (fun e => Extent (first e) (map_id_up p (lower_first e)) (count e)) m.

Lemma raise_each p m e : map_ok p -> map_ok m -> inside m p -> e ∈ m ->
  exists f, f ∈ p /\ lower_first f <= lower_first e /\ lower_first e + count e <= lower_first f + count f /\
    map_id_up p (lower_first e) = first f + (lower_first e - lower_first f).
Proof.
  intros Hp Hm Hin He. destruct (Hin e He) as (f & Hf & H1 & H2). destruct (mo_each m Hm e He). exists f. split_and!; try done.
  destruct (map_id_up_spec p (lower_first e) Hp) as [(g & Hg & Hr & E)|[_ Hn]]; [|exfalso; apply (Hn f); [done|lia]].
  rewrite E. rewrite (same_extent p g f (lower_first e) Hp Hg Hf) by lia. done.
Qed.

Lemma raise_ok p m : map_ok p -> map_ok m -> inside m p -> map_ok (raise p m) /\ map_lower p (raise p m) = Some m.
Proof.
  intros Hp Hm Hin. split.
  - split; [unfold raise; rewrite length_map; apply Hm| |].
    + intros e' (e & -> & He)%list_elem_of_fmap. destruct (raise_each p m e Hp Hm Hin He) as (f & Hf & H1 & H2 & ->). destruct (mo_each m Hm e He), (mo_each p Hp f Hf).
      split; cbn [first lower_first count]; lia.
    + intros i j e' g' Hi Hj Hij. apply list_lookup_fmap_Some in Hi as (e & -> & Hi), Hj as (g & -> & Hj).
      destruct (mo_apart m Hm i j e g Hi Hj Hij) as [D1 D2]. unfold disjoint_extents, apart in *. cbn [first lower_first count]. split; [done|].
      destruct (raise_each p m e Hp Hm Hin) as (f & Hf & H1 & H2 & ->); [by eapply list_elem_of_lookup_2|].
      destruct (raise_each p m g Hp Hm Hin) as (f' & Hf' & H1' & H2' & ->); [by eapply list_elem_of_lookup_2|].
      destruct (list_elem_of_lookup_1 _ _ Hf) as [a Ha]. destruct (list_elem_of_lookup_1 _ _ Hf') as [a' Ha'].
      destruct (decide (a = a')) as [->|Hne]; [assert (f = f') as -> by congruence; lia|]. destruct (mo_apart p Hp a a' f f' Ha Ha' Hne) as [D3 _]. unfold apart in D3.
      destruct (mo_each m Hm e (list_elem_of_lookup_2 _ _ _ Hi)), (mo_each m Hm g (list_elem_of_lookup_2 _ _ _ Hj)). lia.
  - assert (Hall : forall e, e ∈ m -> map_id_range_down p (map_id_up p (lower_first e)) (count e) = lower_first e /\ lower_first e <> INVALID_ID).
    { intros e He. destruct (raise_each p m e Hp Hm Hin He) as (f & Hf & H1 & H2 & ->). destruct (mo_each m Hm e He). split; [|unfold INVALID_ID; lia].
      rewrite (map_range_inside p _ _ f Hp Hf) by lia. lia. }
    clear Hm Hin. induction m as [|e m IH]; [done|]. cbn [raise map map_lower lower_first count first]. destruct (Hall e ltac:(left)) as [-> Hv].
    rewrite (proj2 (Z.eqb_neq _ _) Hv). fold (raise p m). rewrite IH by (intros f Hf; apply Hall; by right). by destruct e.
Qed.

(** Numbers *)
Lemma dec_loop_value fuel z acc : 0 <= z < 10 ^ Z.of_nat fuel -> (0 < fuel)%nat ->
  exists ds, dec_loop fuel z acc = ds ++ acc /\ ds <> [] /\ Forall (fun b => is_digit b = true) ds /\ fold_left (fun n b => 10 * n + (b2z b - 48)) ds 0 = z.
Proof.
  revert z acc. induction fuel as [|fuel IH]; intros z acc Hz Hf; [lia|]. cbn [dec_loop].
  assert (Hd : b2z (digit z) = 48 + z mod 10 /\ is_digit (digit z) = true).
  { unfold is_digit, digit. pose proof (Z.mod_pos_bound z 10). rewrite b2z_z2b, (Z.mod_small (48 + _)) by lia. split; [done|]. lia. }
  destruct Hd as [Hv Hd]. pose proof (Z.div_mod z 10 ltac:(lia)) as Hdm. destruct (Z.eqb_spec (z / 10) 0) as [E|E].
  - exists [digit z]. split; [done|]. split; [done|]. split; [by constructor|]. simpl. lia.
  - rewrite Nat2Z.inj_succ, Z.pow_succ_r in Hz by lia. assert (0 <= z / 10 < 10 ^ Z.of_nat fuel) by (split; [apply Z.div_pos; lia|apply Z.div_lt_upper_bound; lia]).
    destruct (IH (z / 10) (digit z :: acc)) as (ds & -> & H1 & H2 & H3); [done|destruct fuel; [simpl in *; lia|lia]|].
    exists (ds ++ [digit z]). rewrite <- app_assoc. split; [done|]. split; [by destruct ds|]. split; [apply Forall_app; split; [done|by constructor]|].
    rewrite fold_left_app, H3. simpl. lia.
Qed.

Lemma dec_digits z : 0 <= z < 2 ^ 32 -> dec z <> [] /\ Forall (fun b => is_digit b = true) (dec z) /\ atoi_digits (dec z) = z /\ (length (dec z) <= 10)%nat.
Proof.
  intros Hz. unfold dec. rewrite (proj2 (Z.ltb_ge z 0)) by lia. assert (Hz' : 0 <= z < 10 ^ Z.of_nat 10) by (change (10 ^ Z.of_nat 10) with 10000000000; lia).
  destruct (dec_loop_value 10 z [] Hz' ltac:(lia)) as (ds & E & H1 & H2 & H3). pose proof (dec_loop_length 10 z [] 10 Hz' ltac:(lia)) as Hl. cbn [length] in Hl.
  rewrite E, app_nil_r in *. split; [done|]. split; [done|]. split; [|lia]. unfold atoi_digits. rewrite <- H3. f_equal. clear -H2. induction H2 as [|b ds Hb _ IH]; [done|]. simpl. by rewrite Hb, IH.
Qed.

Section Text.
Context (lib : klib) {KL : KLibLaws lib}.

(** One line, without its end. *)
Definition show_line (e : extent) : cstr := dec10 (first e) ++ space :: dec10 (lower_first e) ++ space :: dec10 (count e).

Lemma skip_padding n s b : isspace lib b = false -> skip_spaces lib (replicate n space ++ b :: s) = b :: s.
Proof using KL.
  intros Hb. rewrite kl_skip. induction n as [|n IH]; simpl; [by rewrite Hb|]. by rewrite kl_space.
Qed.

(** A padded number, before a character that is not a digit. *)
Lemma read_number n z rest : 0 <= z < 2 ^ 32 -> match rest with [] => True | c :: _ => is_digit c = false end ->
  simple_strtoul lib (skip_spaces lib (replicate n space ++ dec z ++ rest)) = (z, rest).
Proof using KL.
  intros Hz Hr. destruct (dec_digits z Hz) as (H1 & H2 & H3 & _). destruct (dec z) as [|b ds] eqn:E; [done|]. rewrite <- app_comm_cons.
  rewrite skip_padding by (apply kl_digit; by inversion H2). rewrite app_comm_cons, kl_strtoul, H3 by done. by rewrite u64_id by lia.
Qed.

Lemma parse_show e : extent_ok e -> parse_extent lib (show_line e) = Some e.
Proof using KL.
  intros [E1 E2 E3 E4 E5]. unfold parse_extent, show_line, dec10. rewrite <- !app_assoc.
  rewrite (read_number _ (first e)) by (done || lia). rewrite kl_space. cbn [negb].
  change (space :: ?l) with (replicate 1 space ++ l). rewrite !app_assoc. rewrite <- (replicate_add 1). rewrite <- !app_assoc.
  rewrite (read_number _ (lower_first e)) by (done || lia). cbn [replicate app]. rewrite kl_space. cbn [negb].
  change (space :: ?l) with (replicate 1 space ++ l). rewrite !app_assoc. rewrite <- (replicate_add 1). rewrite <- (app_nil_r (_ ++ dec (count e))), <- !app_assoc.
  rewrite (read_number _ (count e)) by (done || lia). rewrite kl_skip. cbn [drop_while]. rewrite !u32_id by lia. by destruct e.
Qed.

Definition plain (b : byte) : Prop := is_digit b = true \/ b = space.

Lemma dec10_plain z : 0 <= z < 2 ^ 32 -> Forall plain (dec10 z).
Proof using.
  intros Hz. destruct (dec_digits z Hz) as (_ & H2 & _). apply Forall_app. split; [apply Forall_replicate; by right|]. eapply Forall_impl; [exact H2|]. by left.
Qed.

Lemma show_plain e : extent_ok e -> Forall plain (show_line e).
Proof using.
  intros []. unfold show_line. apply Forall_app. split; [apply dec10_plain; lia|]. constructor; [by right|]. apply Forall_app. split; [apply dec10_plain; lia|].
  constructor; [by right|]. apply dec10_plain; lia.
Qed.

Lemma cut_plain l rest : Forall plain l -> cut_line (l ++ newline :: rest) = (l, match rest with [] => None | _ => Some rest end).
Proof using.
  induction 1 as [|b l Hb _ IH]; simpl; [done|]. rewrite IH. rewrite decide_False; [done|]. intros ->. by destruct Hb.
Qed.

Definition show_map (m : uid_gid_map) : cstr := concat (map (fun e => show_line e ++ [newline]) m).

(** What has been printed is read back. *)
Lemma parse_show_map m : forall fuel acc, m <> [] -> map_ok (acc ++ m) -> Z.of_nat fuel + Z.of_nat (length acc) = UID_GID_MAP_MAX_EXTENTS ->
  parse_map lib fuel (show_map m) acc = Ok (Some (acc ++ m)).
Proof using KL.
  induction m as [|e m IH]; intros fuel acc Hne Hm Hf; [done|]. pose proof (mo_len _ Hm) as Hl. rewrite length_app in Hl. cbn [length] in Hl.
  destruct fuel as [|fuel]; [lia|]. cbn [parse_map]. rewrite (proj2 (Z.leb_gt _ _)) by lia.
  assert (He : extent_ok e) by (apply (mo_each _ Hm); set_solver). unfold show_map. cbn [map concat]. fold (show_map m).
  rewrite <- app_assoc. cbn [app]. rewrite cut_plain by by apply show_plain. rewrite parse_show by done.
  destruct (mo_each _ Hm e) as []; [set_solver|]. rewrite (proj2 (valid_extent_ok e ltac:(lia) ltac:(lia) ltac:(lia)) He). cbn [negb].
  assert (Ho : mappings_overlap acc e = false).
  { apply overlap_spec; [intros f Hf'; apply (mo_each _ Hm); set_solver|done|]. intros f [i Hi]%list_elem_of_lookup.
    apply (mo_apart _ Hm i (length acc)); [by apply lookup_app_l_Some|rewrite lookup_app_r, Nat.sub_diag by lia; done|]. apply lookup_lt_Some in Hi. lia. }
  rewrite Ho. destruct m as [|e2 m]; [done|]. assert (Hs : exists b l, show_map (e2 :: m) = b :: l).
  { destruct (dec_digits (first e2)) as (H1 & _); [destruct (mo_each _ Hm e2); [set_solver|lia]|]. unfold show_map, show_line, dec10. cbn [map concat].
    destruct (10 - _)%nat; cbn [replicate app]; [|eauto]. destruct (dec (first e2)); [done|]. cbn [app]. eauto. }
  destruct Hs as (b & l & Es). rewrite Es. cbn [length] in Hl. rewrite (proj2 (Z.eqb_neq _ _)) by (rewrite length_app; cbn [length]; lia). rewrite <- Es.
  rewrite IH; [by rewrite <- app_assoc|done|by rewrite <- app_assoc|]. rewrite length_app. cbn [length]. lia.
Qed.

Lemma show_map_no_nul m : (forall e, e ∈ m -> extent_ok e) -> c_str (show_map m) = show_map m.
Proof using.
  intros Hm. apply c_str_id. unfold show_map. intros Hin. rewrite list_elem_of_In in Hin. apply List.in_concat in Hin as (l & Hl & Hin).
  apply List.in_map_iff in Hl as (e & <- & He). apply list_elem_of_In in He, Hin. apply elem_of_app in Hin as [Hin|Hin].
  - pose proof (show_plain e (Hm e He)) as Hp. rewrite Forall_forall in Hp. by destruct (Hp _ Hin).
  - by apply list_elem_of_singleton in Hin.
Qed.

Lemma show_map_length m : (forall e, e ∈ m -> extent_ok e) -> Z.of_nat (length (show_map m)) <= 33 * Z.of_nat (length m).
Proof using.
  induction m as [|e m IH]; intros Hm; [done|]. unfold show_map. cbn [map concat length]. fold (show_map m). rewrite length_app, length_app. cbn [length].
  specialize (IH ltac:(intros f Hf; apply Hm; by right)). destruct (Hm e ltac:(left)). assert (H10 : forall z, 0 <= z < 2 ^ 32 -> length (dec10 z) = 10%nat).
  { intros z Hz. destruct (dec_digits z Hz) as (_ & _ & _ & Hl). unfold dec10. rewrite length_app, length_replicate. lia. }
  unfold show_line. rewrite length_app. cbn [length]. rewrite length_app. cbn [length]. rewrite !H10 by lia. lia.
Qed.
End Text.

(** What is read from the map of [a] is accepted for [b]. *)
Lemma read_write lib `{!KLibLaws lib} env k st a b na nb pa par rfile file text : ns_ok st ->
  st !! a = Some na -> parent na = Some pa -> st !! b = Some nb -> parent nb = Some pa -> st !! pa = Some par ->
  id_map k na <> [] -> id_map k nb = [] -> seq_user_ns rfile = a -> map_read k rfile a st = Ok text ->
  (seq_user_ns file = b \/ seq_user_ns file = pa) ->
  (cap_valid (cap_setid k) = true -> file_ns_capable file b CAP_SYS_ADMIN = true /\ ns_capable env pa (cap_setid k) = true /\ file_ns_capable file pa (cap_setid k) = true) ->
  166 <= PAGE_SIZE env ->
  proc_map_write lib env k file b (inr text) (Z.of_nat (length text)) 0 st = Ok (Z.of_nat (length text), <[b := with_map k (id_map k na) nb]> st).
Proof.
  intros Hst Ha Hpa Hb Hpb Hpar Hne Hempty Hrf Hread Hfile HC Hpage. assert (Ha0 : a <> 0) by (destruct (no_root _ Hst) as (r0 & H0 & H1 & _); intros ->; congruence).
  destruct (no_parent _ Hst a na Ha Ha0) as (p & m & Hp & Hm & Hbe). assert (p = pa) as -> by congruence. assert (m = par) as -> by congruence.
  pose proof (no_maps _ Hst a na k Ha) as Hna. pose proof (no_maps _ Hst pa par k Hpar) as Hparm.
  destruct (raise_ok (id_map k par) (id_map k na) Hparm Hna (be_ids _ _ Hbe k)) as [Hrk Hlow].
  assert (Et : text = show_map (raise (id_map k par) (id_map k na))).
  { revert Hread. unfold map_read. rewrite Ha, Hrf, Ha. cbn [deref rbind]. rewrite Hpa, Z.eqb_refl, Hpar. cbn [deref rbind]. intros [= <-].
    unfold show_map, raise. rewrite map_map. f_equal. apply map_ext. intros e. unfold m_show, show_line. cbn [first lower_first count]. rewrite <- app_assoc. cbn [app]. do 2 f_equal. by rewrite <- app_assoc. }
  pose proof (show_map_length _ (mo_each _ Hrk)) as Hlen. rewrite <- Et in Hlen. pose proof (mo_len _ Hrk) as H5. unfold UID_GID_MAP_MAX_EXTENTS in H5.
  unfold proc_map_write. rewrite Hb. cbn [deref rbind]. rewrite Hpb. assert (negb (seq_user_ns file =? b) && negb (seq_user_ns file =? pa) = false) as ->.
  { destruct Hfile as [-> | ->]; rewrite Z.eqb_refl; [done|apply andb_false_r]. }
  rewrite Hpar. cbn [deref rbind]. unfold map_write. rewrite Hempty. cbn [length Z.of_nat Z.eqb negb].
  assert (cap_valid (cap_setid k) && negb (file_ns_capable file b CAP_SYS_ADMIN) = false) as -> by (destruct (cap_valid _); [by destruct (HC eq_refl) as [-> _]|done]). cbn [orb].
  rewrite (proj2 (Z.leb_gt _ _)) by lia. change (Z.to_nat UID_GID_MAP_MAX_EXTENTS) with 5%nat. rewrite Et, show_map_no_nul by apply Hrk.
  rewrite (parse_show_map lib (raise (id_map k par) (id_map k na)) 5 []); [|by destruct (id_map k na)|done|done]. cbn [rbind app].
  assert (Hperm : new_idmap_permitted env file nb pa par k (raise (id_map k par) (id_map k na)) = true).
  { unfold new_idmap_permitted. destruct (match raise _ _ with [] => _ | _ => _ end); [done|]. destruct (cap_valid _); [|done]. cbn [negb]. by destruct (HC eq_refl) as (_ & -> & ->). }
  rewrite Hperm, Hlow. by destruct (id_map k na).
Qed.

(** ** A system with two namespaces *)

Module DemoUserNs.
Definition demo_lib : klib := KLib is_space (drop_while is_space) (fun s => (u64 (atoi_digits s), drop_while is_digit s)).

#[global] Instance demo_lib_laws : KLibLaws demo_lib.
Proof.
  split; [done|done| |done|].
  - intros b Hb. simpl. unfold is_digit, is_space in *. apply orb_false_iff. split; [apply bool_decide_false; intros ->; done|lia].
  - intros ds rest Hne Hds Hr. cbn [simple_strtoul demo_lib]. assert (E1 : atoi_digits (ds ++ rest) = atoi_digits ds).
    { unfold atoi_digits. f_equal. clear Hne. induction Hds as [|b ds Hb _ IH]; simpl; [|by rewrite Hb, IH]. destruct rest as [|c rest]; [done|]. simpl. by rewrite Hr. }
    rewrite E1. f_equal. clear Hne E1. induction Hds as [|b ds Hb _ IH]; simpl; [|by rewrite Hb]. destruct rest as [|c rest]; [done|]. simpl. by rewrite Hr.
Qed.

Definition demo_env : userns_env := UsernsEnv (fun _ _ => true) 4096 (fun _ _ => true) false true 0 true.
Definition demo_cred : cred := Cred 1000 1000 1000 1000 0 (Some []) 0 0 0 0 0 0.
Definition demo_file : map_file := MapFile 1000 1000 0 (fun _ _ => true).
Definition demo_text : list byte := lit "0 1000 1" ++ [newline] ++ lit "1 100000 65535" ++ [newline].

(** Two namespaces; both maps of the first are written. *)
Definition demo_1 : namespaces := <[1 := Ns [] [] [] (Some 0) 1 1000 1000 1]> {[ 0 := init_user_ns ]}.
Definition demo_2 : namespaces := <[2 := Ns [] [] [] (Some 0) 1 1000 1000 1]> demo_1.
Definition demo_map : uid_gid_map := [Extent 0 1000 1; Extent 1 100000 65535].
Definition demo_3 : namespaces := <[1 := Ns demo_map [] [] (Some 0) 1 1000 1000 1]> demo_2.
Definition demo_4 : namespaces := <[1 := Ns demo_map demo_map [] (Some 0) 1 1000 1000 1]> demo_3.

Lemma demo_steps : rtc (ustep demo_lib) {[ 0 := init_user_ns ]} demo_4.
Proof.
  eapply rtc_l; [by apply (UCreate demo_lib demo_env demo_cred 1 _ 0 (set_cred_user_ns demo_cred 1) demo_1)|].
  eapply rtc_l; [by apply (UCreate demo_lib demo_env demo_cred 2 _ 0 (set_cred_user_ns demo_cred 2) demo_2)|].
  eapply rtc_l; [by apply (UWriteMap demo_lib demo_env UidMap demo_file 1 (inr demo_text) 24 0 _ 24 demo_3)|].
  eapply rtc_once. by apply (UWriteMap demo_lib demo_env GidMap demo_file 1 (inr demo_text) 24 0 _ 24 demo_4).
Qed.
End DemoUserNs.

Import DemoUserNs.

(** ** The theorems *)

(** C13: However user namespaces are created and their files [uid_map], [gid_map],
    [projid_map] and [setgroups] are written, a namespace never has more than those above
    it: every identifier of the kernel that has a mapping in a namespace has one in every
    namespace above it, up to the initial one, and where [setgroups] is denied it is denied
    in every namespace below. *)
Theorem userns_stays_within_parents lib st a n b : rtc (ustep lib) {[ 0 := init_user_ns ]} st -> st !! a = Some n -> rtc (parent_of st) a b ->
  exists m, st !! b = Some m /\
    (forall kuid, from_kuid n kuid <> INVALID_ID -> from_kuid m kuid <> INVALID_ID) /\
    (forall kgid, from_kgid n kgid <> INVALID_ID -> from_kgid m kgid <> INVALID_ID) /\
    (forall kprojid, from_kprojid n kprojid <> INVALID_ID -> from_kprojid m kprojid <> INVALID_ID) /\
    (userns_may_setgroups n = true -> userns_may_setgroups m = true).
Proof.
  intros Hr Ha Hb. destruct (usteps_ok lib _ _ Hr init_ok) as [Hst _]. destruct (ancestor_spec st a b n Hst Hb Ha) as (m & Hm & Hids & Hal).
  exists m. split; [done|]. split; [exact (Hids UidMap)|]. split; [exact (Hids GidMap)|]. split; [exact (Hids ProjidMap)|].
  unfold userns_may_setgroups. fold (allowed n) (allowed m). intros [Hg Ha1]%andb_true_iff. apply andb_true_iff. split; [|by apply Hal].
  pose proof (no_maps _ Hst a n GidMap Ha) as Hmg. destruct (gid_map n) as [|e l] eqn:Eg; [done|]. destruct (mo_each _ Hmg e) as [E1 E2 E3 E4 E5]; [cbn; rewrite Eg; left|].
  assert (Hup : map_id_up (id_map GidMap n) (lower_first e) <> INVALID_ID).
  { destruct (map_id_up_spec _ (lower_first e) Hmg) as [(f & Hf & Hr' & ->)|[_ Hno]]; [destruct (mo_each _ Hmg f Hf); unfold INVALID_ID; lia|].
    exfalso. apply (Hno e); [cbn; rewrite Eg; left|lia]. }
  specialize (Hids GidMap _ Hup). cbn in Hids. destruct (gid_map m); [by cbn in Hids|done].
Qed.

Lemma userns_stays_within_parents_witness : exists n m, demo_4 !! 1 = Some n /\ demo_4 !! 0 = Some m /\ from_kuid n 1000 = 0 /\
  (forall kuid, from_kuid n kuid <> INVALID_ID -> from_kuid m kuid <> INVALID_ID).
Proof.
  destruct (userns_stays_within_parents demo_lib demo_4 1 (Ns demo_map demo_map [] (Some 0) 1 1000 1000 1) 0 demo_steps) as (m & Hm & H & _).
  - reflexivity.
  - eapply rtc_once. eexists. split; [reflexivity|reflexivity].
  - exists (Ns demo_map demo_map [] (Some 0) 1 1000 1000 1), m. split; [reflexivity|]. split; [exact Hm|]. split; [reflexivity|exact H].
Defined.

(** C14: The maps of a namespace are bijections: an identifier that [make_kuid] maps to one of
    the kernel is what [from_kuid] gives for that, and the other way round, and the same
    for groups and projects; different identifiers have different images. *)
Theorem userns_maps_are_bijections lib st a n k : rtc (ustep lib) {[ 0 := init_user_ns ]} st -> st !! a = Some n ->
  (forall id, map_id_down (id_map k n) id <> INVALID_ID -> map_id_up (id_map k n) (map_id_down (id_map k n) id) = id) /\
  (forall kid, map_id_up (id_map k n) kid <> INVALID_ID -> map_id_down (id_map k n) (map_id_up (id_map k n) kid) = kid) /\
  (forall id id', map_id_down (id_map k n) id = map_id_down (id_map k n) id' -> map_id_down (id_map k n) id <> INVALID_ID -> id = id').
Proof.
  intros Hr Ha. destruct (usteps_ok lib _ _ Hr init_ok) as [Hst _]. pose proof (no_maps _ Hst a n k Ha) as Hm. split; [|split].
  - intros id. by apply map_down_up.
  - intros kid. by apply map_up_down.
  - intros id id' E Hv. rewrite <- (map_down_up _ id Hm Hv), E. apply (map_down_up _ id' Hm). by rewrite <- E.
Qed.

Lemma userns_maps_are_bijections_witness : map_id_down demo_map 2 = 100001 /\ map_id_up demo_map 100001 = 2.
Proof.
  split; [reflexivity|].
  exact (proj1 (userns_maps_are_bijections demo_lib demo_4 1 (Ns demo_map demo_map [] (Some 0) 1 1000 1000 1) UidMap demo_steps eq_refl) 2 ltac:(discriminate)).
Defined.

(** C15: What a namespace has been given stays: a map that is not empty never changes, a
    denied [setgroups] is never allowed again, and once the groups are mapped it is never
    denied any more; the parent of a namespace stays the same. *)
Theorem userns_maps_are_written_once lib st st' a n : rtc (ustep lib) {[ 0 := init_user_ns ]} st -> rtc (ustep lib) st st' -> st !! a = Some n ->
  exists n', st' !! a = Some n' /\ parent n' = parent n /\ (forall k, id_map k n <> [] -> id_map k n' = id_map k n) /\
    (allowed n = false -> allowed n' = false) /\ (gid_map n <> [] -> allowed n' = allowed n).
Proof.
  intros Hr Hr' Ha. destruct (usteps_ok lib _ _ Hr init_ok) as [Hst _]. destruct (usteps_ok lib _ _ Hr' Hst) as [_ Hk].
  destruct (Hk a n Ha) as (n' & Hn' & [R1 R2 R3 R4 R5]). exists n'. split; [done|]. split; [done|]. split; [done|]. split; [|done].
  intros Hf. destruct (allowed n') eqn:E; [|done]. rewrite R4 in Hf by done. done.
Qed.

Lemma userns_maps_are_written_once_witness : exists n', demo_4 !! 1 = Some n' /\ uid_map n' = demo_map.
Proof.
  destruct (userns_maps_are_written_once demo_lib demo_4 demo_4 1 (Ns demo_map demo_map [] (Some 0) 1 1000 1000 1) demo_steps (rtc_refl _ _) eq_refl) as (n' & Hn' & _ & Hm & _).
  exists n'. split; [exact Hn'|]. exact (Hm UidMap ltac:(discriminate)).
Defined.

(** C25: What is read from the file [uid_map], [gid_map] or [projid_map] of a namespace, by a
    task in it, can be written to that of another namespace with the same parent by a task
    with the capabilities for it, and gives that namespace the same map. *)
Theorem map_read_write_roundtrip lib `{!KLibLaws lib} env k st a b na nb pa par rfile file text : rtc (ustep lib) {[ 0 := init_user_ns ]} st ->
  st !! a = Some na -> parent na = Some pa -> st !! b = Some nb -> parent nb = Some pa -> st !! pa = Some par ->
  id_map k na <> [] -> id_map k nb = [] -> seq_user_ns rfile = a -> map_read k rfile a st = Ok text ->
  (seq_user_ns file = b \/ seq_user_ns file = pa) ->
  (cap_valid (cap_setid k) = true -> file_ns_capable file b CAP_SYS_ADMIN = true /\ ns_capable env pa (cap_setid k) = true /\ file_ns_capable file pa (cap_setid k) = true) ->
  166 <= PAGE_SIZE env ->
  exists nb', proc_map_write lib env k file b (inr text) (Z.of_nat (length text)) 0 st = Ok (Z.of_nat (length text), <[b := nb']> st) /\
    id_map k nb' = id_map k na.
Proof.
  intros Hr Ha Hpa Hb Hpb Hpar Hne Hempty Hrf Hread Hfile HC Hpage. destruct (usteps_ok lib _ _ Hr init_ok) as [Hst _].
  exists (with_map k (id_map k na) nb). split; [by eapply read_write|]. rewrite id_map_with. by rewrite decide_True.
Qed.

Lemma map_read_write_roundtrip_witness : exists text nb',
  map_read UidMap (MapFile 1000 1000 1 (fun _ _ => false)) 1 demo_4 = Ok text /\
  proc_map_write demo_lib demo_env UidMap demo_file 2 (inr text) 66 0 demo_4 = Ok (66, <[2 := nb']> demo_4) /\ uid_map nb' = demo_map.
Proof.
  assert (E : exists text, map_read UidMap (MapFile 1000 1000 1 (fun _ _ => false)) 1 demo_4 = Ok text /\ length text = 66%nat) by (eexists; split; vm_compute; reflexivity).
  destruct E as (text & Et & El). exists text.
  destruct (map_read_write_roundtrip demo_lib demo_env UidMap demo_4 1 2 (Ns demo_map demo_map [] (Some 0) 1 1000 1000 1) (Ns [] [] [] (Some 0) 1 1000 1000 1) 0 init_user_ns
    (MapFile 1000 1000 1 (fun _ _ => false)) demo_file text demo_steps) as (nb' & Hw & Hm); try reflexivity; try discriminate.
  - exact Et.
  - right. reflexivity.
  - intros _. split; [reflexivity|split; reflexivity].
  - exists nb'. rewrite El in Hw. split; [exact Et|]. split; [exact Hw|exact Hm].
Defined.

(** C26: [current_in_userns] and [ns_get_owner] always end.  The former says whether the
    namespace is the task's own or one of those above it, and the latter gives the owner of
    a namespace exactly when the task's namespace is the owner or above it. *)
Theorem current_in_userns_decides lib st a n target : rtc (ustep lib) {[ 0 := init_user_ns ]} st -> st !! a = Some n ->
  exists r, current_in_userns st a target = Ok r /\ (r = true <-> rtc (parent_of st) a target) /\
    ns_get_owner st target (Some a) = Ok (if r then inr a else inl (- EPERM)).
Proof.
  intros Hr Ha. destruct (usteps_ok lib _ _ Hr init_ok) as [Hst _]. pose proof (no_level _ Hst a n Ha).
  destruct (up_to_spec st target 35 Hst a n Ha) as (r & E & H1); [lia|]. exists r. split; [done|]. split; [done|]. unfold ns_get_owner. by rewrite E.
Qed.

Lemma current_in_userns_decides_witness : current_in_userns demo_4 1 0 = Ok true /\ current_in_userns demo_4 1 2 = Ok false /\ ~ rtc (parent_of demo_4) 1 2.
Proof.
  split; [reflexivity|]. split; [reflexivity|].
  destruct (current_in_userns_decides demo_lib demo_4 1 (Ns demo_map demo_map [] (Some 0) 1 1000 1000 1) 2 demo_steps eq_refl) as (r & Er & Hr & _).
  intros H. apply Hr in H. vm_compute in Er. injection Er as <-. discriminate H.
Defined.
