(* ===== verification/Groups.v ===== *)
(** * Supplementary groups

    [kernel/groups.c]: the groups of a task, kept in order, and the binary search that
    [in_group_p] uses.  A [kgid_t] is its number.  The sort is that of [lib/sort.c], a
    parameter; reference counts of [struct group_info] are left out. *)

From S2P Require Import Prelude CString UserNs UserNsTheorems.

Definition NGROUPS_MAX : Z := 65536.

(** What the rest of the kernel answers. *)
Record groups_env : Type := GroupsEnv {
  sort : (Z -> Z -> Z) -> list Z -> list Z;
  sizeof_group_info : Z;
  kmalloc_or_vmalloc : Z -> bool;        (* memory of that size is found *)
  prepare_creds : bool;
  capable_setgid : bool;                 (* [ns_capable] for [CAP_SETGID] in the task's namespace *)
  overflowgid : Z }.

(** ** The search *)

Definition b2i (b : bool) : Z := if b then 1 else 0.

Definition gid_cmp (a b : Z) : Z := b2i (b <? a) - b2i (a <? b).

Fixpoint search_loop (fuel : nat) (gid : list Z) (grp left right : Z) : res bool :=
  if left <? right then
    match fuel with
    | O => NoFuel
    | S fuel =>
        let mid := u32 (left + right) / 2 in
        match gid !! Z.to_nat mid with
        | None => Undef OutOfBoundsRead
        | Some g =>
            if g <? grp then search_loop fuel gid grp (mid + 1) right
            else if grp <? g then search_loop fuel gid grp left mid
            else Ok true
        end
    end
  else Ok false.

(** Each iteration takes at least one from the range that is left. *)
Definition groups_search (group_info : option (list Z)) (grp : Z) : res bool :=
  match group_info with
  | None => Ok false
  | Some gid => search_loop (length gid) gid grp 0 (Z.of_nat (length gid))
  end.

Definition in_group_p (c : cred) (grp : Z) : res bool :=
  if negb (grp =? fsgid c) then groups_search (group_info c) grp else Ok true.

Definition in_egroup_p (c : cred) (grp : Z) : res bool :=
  if negb (grp =? egid c) then groups_search (group_info c) grp else Ok true.

(** ** Setting and getting *)

Section GroupsC.
Context (env : groups_env).

Definition groups_sort (gid : list Z) : list Z := sort env gid_cmp gid.

(** The array is not initialised. *)
Definition groups_alloc (gidsetsize : Z) : bool := kmalloc_or_vmalloc env (u32 (sizeof_group_info env + 4 * gidsetsize)).

(** [get_user i] reads the list of the caller: [None] is a fault.  An error, or the groups. *)
Fixpoint groups_from_user (ns : user_namespace) (get_user : nat -> option Z) (n i : nat) : Z + list Z :=
  match n with
  | O => inr []
  | S n =>
      match get_user i with
      | None => inl (- EFAULT)
      | Some gid =>
          let kgid := make_kgid ns gid in
          if kgid =? INVALID_ID then inl (- EINVAL)
          else match groups_from_user ns get_user n (S i) with inl err => inl err | inr l => inr (kgid :: l) end
      end
  end.

(** What is written to the list of the caller before a fault. *)
Fixpoint groups_to_user (ns : user_namespace) (put_user : nat -> bool) (gid : list Z) (i : nat) : Z * list Z :=
  match gid with
  | [] => (0, [])
  | kgid :: gid =>
      if negb (put_user i) then (- EFAULT, [])
      else let '(r, l) := groups_to_user ns put_user gid (S i) in (r, from_kgid_munged (overflowgid env) ns kgid :: l)
  end.

Definition set_groups (gid : list Z) (new : cred) : cred :=
  let 'Cred a b c d e _ g h i j k l := new in Cred a b c d e (Some (groups_sort gid)) g h i j k l.

Definition set_current_groups (gid : list Z) (c : cred) : Z * cred :=
  if negb (prepare_creds env) then (- ENOMEM, c) else (0, set_groups gid c).

Definition may_setgroups (ns : user_namespace) : bool := capable_setgid env && userns_may_setgroups ns.

(** The system calls; [ns] is the namespace of the task. *)
Definition sys_setgroups (ns : user_namespace) (gidsetsize : Z) (grouplist : nat -> option Z) (c : cred) : Z * cred :=
  if negb (may_setgroups ns) then (- EPERM, c)
  else if NGROUPS_MAX <? u32 gidsetsize then (- EINVAL, c)
  else if negb (groups_alloc gidsetsize) then (- ENOMEM, c)
  else match groups_from_user ns grouplist (Z.to_nat gidsetsize) 0 with
       | inl err => (err, c)
       | inr gid => set_current_groups gid c
       end.

Definition sys_getgroups (ns : user_namespace) (gidsetsize : Z) (put_user : nat -> bool) (c : cred) : res (Z * list Z) :=
  if gidsetsize <? 0 then Ok (- EINVAL, [])
  else
    let* gid := deref (group_info c) in
    let i := Z.of_nat (length gid) in
    if negb (gidsetsize =? 0) then
      if gidsetsize <? i then Ok (- EINVAL, [])
      else
        let '(r, l) := groups_to_user ns put_user gid 0 in
        Ok (if negb (r =? 0) then - EFAULT else i, l)
    else Ok (i, []).
End GroupsC.

(** ** The search finds what is there *)

(** What the comment in [lib/sort.c] says, for a comparison that is a total order. *)
Class SortLaws (env : groups_env) : Prop := {
  sort_sorts (cmp : Z -> Z -> Z) l : (forall a b, cmp a b = - cmp b a) -> (forall a b c, cmp a b <= 0 -> cmp b c <= 0 -> cmp a c <= 0) ->
    sort env cmp l ≡ₚ l /\ StronglySorted (fun a b => cmp a b <= 0) (sort env cmp l) }.

Lemma gid_cmp_le a b : gid_cmp a b <= 0 <-> a <= b.
Proof. unfold gid_cmp, b2i. destruct (Z.ltb_spec b a), (Z.ltb_spec a b); lia. Qed.

Lemma groups_sort_spec env `{!SortLaws env} l : groups_sort env l ≡ₚ l /\ StronglySorted Z.le (groups_sort env l).
Proof.
  unfold groups_sort. destruct (sort_sorts gid_cmp l) as [H1 H2].
  - intros a b. unfold gid_cmp, b2i. destruct (a <? b), (b <? a); done.
  - intros a b c. rewrite !gid_cmp_le. lia.
  - split; [done|clear H1]. induction H2 as [|a k _ IH Ha]; [constructor|]. constructor; [done|]. eapply Forall_impl; [exact Ha|]. intros b. apply gid_cmp_le.
Qed.

Lemma sorted_lookup l i j a b : StronglySorted Z.le l -> l !! i = Some a -> l !! j = Some b -> (i <= j)%nat -> a <= b.
Proof.
  intros Hs. revert i j. induction Hs as [|x l _ IH Hx]; intros i j Hi Hj Hij; [done|]. destruct i as [|i], j as [|j]; simplify_eq/=; [lia| |lia|].
  - rewrite Forall_forall in Hx. apply Hx. by eapply list_elem_of_lookup_2.
  - apply (IH i j); [done|done|lia].
Qed.

(** What is not between [left] and [right] is known to be different. *)
Lemma search_loop_spec gid grp : Z.of_nat (length gid) < 2 ^ 31 -> forall fuel left right,
  0 <= left <= right -> right <= Z.of_nat (length gid) -> right - left <= Z.of_nat fuel ->
  exists r, search_loop fuel gid grp left right = Ok r /\
    (StronglySorted Z.le gid -> (forall i g, gid !! i = Some g -> g = grp -> left <= Z.of_nat i < right) -> r = true <-> grp ∈ gid).
Proof.
  intros Hlen. assert (Hempty : forall left right, right <= left -> (forall i g, gid !! i = Some g -> g = grp -> left <= Z.of_nat i < right) -> false = true <-> grp ∈ gid).
  { intros left right Hr Hall. split; [done|]. intros [i Hi]%list_elem_of_lookup. specialize (Hall i grp Hi eq_refl). lia. }
  induction fuel as [|fuel IH]; intros left right Hl Hr Hf; cbn [search_loop]; (destruct (Z.ltb_spec left right) as [Hlt|Hge]; [|exists false; split; [done|]; intros _; by apply Hempty]); [lia|].
  rewrite u32_id by lia. set (mid := (left + right) / 2). assert (Hmid : left <= mid < right) by (unfold mid; pose proof (Z.div_mod (left + right) 2); pose proof (Z.mod_pos_bound (left + right) 2); lia).
  destruct (lookup_lt_is_Some_2 gid (Z.to_nat mid)) as [g Hg]; [lia|]. rewrite Hg. destruct (Z.ltb_spec g grp) as [Hc|Hc]; [|destruct (Z.ltb_spec grp g) as [Hc'|Hc']].
  - destruct (IH (mid + 1) right) as (r & -> & Hr'); [lia|lia|lia|]. exists r. split; [done|]. intros Hs Hall. apply Hr'; [done|]. intros i x Hi ->.
    specialize (Hall i grp Hi eq_refl). destruct (decide (Z.of_nat i <= mid)); [|lia]. pose proof (sorted_lookup gid i (Z.to_nat mid) grp g Hs Hi Hg). lia.
  - destruct (IH left mid) as (r & -> & Hr'); [lia|lia|lia|]. exists r. split; [done|]. intros Hs Hall. apply Hr'; [done|]. intros i x Hi ->.
    specialize (Hall i grp Hi eq_refl). destruct (decide (mid <= Z.of_nat i)); [|lia]. pose proof (sorted_lookup gid (Z.to_nat mid) i g grp Hs Hg Hi). lia.
  - exists true. split; [done|]. intros _ _. split; [|done]. intros _. assert (g = grp) as <- by lia. by eapply list_elem_of_lookup_2.
Qed.

Lemma in_group_spec c l grp : group_info c = Some l -> Z.of_nat (length l) < 2 ^ 31 ->
  exists r, in_group_p c grp = Ok r /\ (StronglySorted Z.le l -> r = true <-> grp = fsgid c \/ grp ∈ l).
Proof.
  intros Hl Hlen. unfold in_group_p. destruct (Z.eqb_spec grp (fsgid c)) as [->|Hne]; cbn [negb]; [exists true; split; [done|]; tauto|].
  rewrite Hl. cbn [groups_search]. destruct (search_loop_spec l grp Hlen (length l) 0 (Z.of_nat (length l))) as (r & -> & Hr); [lia|lia|lia|].
  exists r. split; [done|]. intros Hs. rewrite (Hr Hs); [tauto|]. intros i g Hi _. apply lookup_lt_Some in Hi. lia.
Qed.

(** ** The system calls *)

Lemma from_user_spec ns get_user n i l : groups_from_user ns get_user n i = inr l ->
  exists gids, length gids = n /\ (forall j, (j < n)%nat -> get_user (i + j)%nat = gids !! j) /\ l = map (make_kgid ns) gids /\ Forall (fun g => make_kgid ns g <> INVALID_ID) gids.
Proof.
  revert i l. induction n as [|n IH]; intros i l; cbn [groups_from_user]; [intros [= <-]; exists []; split_and!; try done; intros; lia|].
  destruct (get_user i) as [gid|] eqn:Eg; [|done]. destruct (Z.eqb_spec (make_kgid ns gid) INVALID_ID) as [|Hv]; [done|].
  destruct (groups_from_user ns get_user n (S i)) as [|l'] eqn:El; [done|]. intros [= <-]. destruct (IH (S i) l' El) as (gids & H1 & H2 & H3 & H4).
  exists (gid :: gids). split_and!; [simpl; lia| |by rewrite H3|by constructor]. intros [|j] Hj; [by rewrite Nat.add_0_r|]. simpl. rewrite <- H2 by lia. f_equal. lia.
Qed.

Lemma to_user_spec env ns gid : forall i, groups_to_user env ns (fun _ => true) gid i = (0, map (from_kgid_munged (overflowgid env) ns) gid).
Proof. induction gid as [|g gid IH]; intros i; cbn [groups_to_user negb map]; [done|]. by rewrite IH. Qed.

(** The groups of the caller are installed, in order, or nothing changes. *)
Lemma setgroups_spec env `{!SortLaws env} ns n grouplist c : - 2 ^ 31 <= n < 2 ^ 31 -> let '(r, c') := sys_setgroups env ns n grouplist c in
  r <> 0 /\ c' = c \/
  r = 0 /\ 0 <= n <= NGROUPS_MAX /\ fsgid c' = fsgid c /\
    exists gids l, length gids = Z.to_nat n /\ (forall j, (j < Z.to_nat n)%nat -> grouplist j = gids !! j) /\ group_info c' = Some l /\ l ≡ₚ map (make_kgid ns) gids /\
      StronglySorted Z.le l /\ Forall (fun g => make_kgid ns g <> INVALID_ID) gids.
Proof.
  intros Hint. unfold sys_setgroups. destruct (negb (may_setgroups env ns)); [by left|]. destruct (Z.ltb_spec NGROUPS_MAX (u32 n)) as [|Hn]; [by left|].
  destruct (negb (groups_alloc env n)); [by left|]. destruct (groups_from_user ns grouplist (Z.to_nat n) 0) as [err|l] eqn:El.
  { left. split; [|done]. revert El. generalize 0%nat. induction (Z.to_nat n) as [|m IH]; intros i; cbn [groups_from_user]; [done|].
    destruct (grouplist i); [|by intros [= <-]]. destruct (_ =? _); [by intros [= <-]|]. destruct (groups_from_user ns grouplist m (S i)) eqn:E; [|done]. intros [= <-]. by apply (IH (S i)). }
  unfold set_current_groups. destruct (negb (prepare_creds env)); [by left|]. right. destruct (from_user_spec ns grouplist _ 0 l El) as (gids & H1 & H2 & H3 & H4).
  destruct (groups_sort_spec env l) as [P1 P2]. split; [done|]. split; [|split; [by destruct c|]].
  - unfold NGROUPS_MAX, u32 in *. destruct (decide (0 <= n)); [rewrite Z.mod_small in Hn by lia; lia|].
    replace n with (n + 2 ^ 32 + (-1) * 2 ^ 32) in Hn by lia. rewrite Z.mod_add, Z.mod_small in Hn by lia. lia.
  - exists gids, (groups_sort env l). split_and!; try done; [by destruct c|by rewrite P1, H3].
Qed.

(** A library whose sort is an insertion sort. *)
Module DemoGroups.
Fixpoint insert (cmp : Z -> Z -> Z) (a : Z) (l : list Z) : list Z :=
  match l with [] => [a] | b :: k => if cmp a b <=? 0 then a :: l else b :: insert cmp a k end.

Definition demo_env : groups_env := GroupsEnv (fun cmp => foldr (insert cmp) []) 8 (fun _ => true) true true 65534.

Lemma insert_perm cmp a l : insert cmp a l ≡ₚ a :: l.
Proof. induction l as [|b l IH]; simpl; [done|]. destruct (_ <=? _); [done|]. rewrite IH. constructor. Qed.

#[global] Instance demo_sort : SortLaws demo_env.
Proof.
  split. intros cmp l Hanti Htrans. cbn [sort demo_env]. induction l as [|a l [IH1 IH2]]; cbn [foldr]; [split; [done|constructor]|]. split.
  - rewrite insert_perm. by constructor.
  - clear IH1. induction IH2 as [|b k Hk IH Hb]; simpl; [repeat constructor|]. destruct (Z.leb_spec (cmp a b) 0) as [H|H].
    + constructor; [by constructor|]. constructor; [done|]. eapply Forall_impl; [exact Hb|]. intros c Hc. by apply (Htrans a b c).
    + constructor; [done|]. rewrite Forall_forall in *. intros c Hc. rewrite insert_perm in Hc. apply elem_of_cons in Hc as [->|Hc]; [rewrite Hanti; lia|by apply Hb].
Qed.
End DemoGroups.

Import DemoGroups.

(** C24: [setgroups] either fails and leaves the credentials as they were, or installs exactly
    the groups of the caller's list: [in_group_p] then says of a group whether it is the
    task's own or one of the list, and [getgroups] returns the list in some order, for a
    task in a namespace whose map of groups is in order. *)
Theorem setgroups_installs_groups env `{!SortLaws env} ns n grouplist c : - 2 ^ 31 <= n < 2 ^ 31 -> map_ok (gid_map ns) ->
  let '(r, c') := sys_setgroups env ns n grouplist c in
  r <> 0 /\ c' = c \/
  r = 0 /\ exists gids, length gids = Z.to_nat n /\ (forall j, (j < Z.to_nat n)%nat -> grouplist j = gids !! j) /\
    (forall grp, exists b, in_group_p c' grp = Ok b /\ (b = true <-> grp = fsgid c \/ exists gid, gid ∈ gids /\ make_kgid ns gid = grp)) /\
    exists l, sys_getgroups env ns NGROUPS_MAX (fun _ => true) c' = Ok (n, l) /\ l ≡ₚ gids.
Proof.
  intros Hint Hm. pose proof (setgroups_spec env ns n grouplist c Hint) as H. destruct (sys_setgroups env ns n grouplist c) as [r c'].
  destruct H as [H|(Hr & Hn & Hfs & gids & l & H1 & H2 & H3 & H4 & H5 & H6)]; [by left|]. right. split; [done|]. exists gids. split; [done|]. split; [done|].
  assert (Hlen : length l = Z.to_nat n) by (rewrite (Permutation_length H4), length_map; done). split.
  - intros grp. destruct (in_group_spec c' l grp H3) as (b & -> & Hb); [unfold NGROUPS_MAX in Hn; lia|]. exists b. split; [done|]. rewrite (Hb H5), Hfs, H4.
    split; (intros [->|H]; [by left|right]); [apply list_elem_of_fmap in H as (gid & -> & Hg); eauto|destruct H as (gid & Hg & <-); apply list_elem_of_fmap; eauto].
  - unfold sys_getgroups. rewrite H3. cbn [deref rbind]. replace (Z.of_nat (length l)) with n by lia. unfold NGROUPS_MAX in *. cbn [Z.ltb Z.compare Z.eqb negb].
    rewrite (proj2 (Z.ltb_ge _ _)) by lia. rewrite to_user_spec. cbn [Z.eqb negb]. eexists. split; [done|]. rewrite H4. rewrite map_map.
    rewrite <- (map_id gids) at 2. erewrite map_ext_in; [done|]. intros g Hg%list_elem_of_In. rewrite Forall_forall in H6. specialize (H6 g Hg).
    unfold from_kgid_munged, from_kgid, make_kgid in *. rewrite map_down_up by done. rewrite (proj2 (Z.eqb_neq g INVALID_ID)); [done|]. intros ->.
    destruct (map_id_down_spec (gid_map ns) INVALID_ID Hm) as [(e & He & Hr' & _)|[E _]]; [|done]. destruct (mo_each _ Hm e He). unfold INVALID_ID in Hr'. lia.
Qed.

Lemma setgroups_installs_groups_witness : exists c', sys_setgroups demo_env init_user_ns 3 (fun i => [30; 10; 20] !! i) DemoUserNs.demo_cred = (0, c') /\
  in_group_p c' 20 = Ok true /\ in_group_p c' 25 = Ok false /\ exists l, sys_getgroups demo_env init_user_ns NGROUPS_MAX (fun _ => true) c' = Ok (3, l) /\ l ≡ₚ [30; 10; 20].
Proof.
  pose proof (setgroups_installs_groups demo_env init_user_ns 3 (fun i => [30; 10; 20] !! i) DemoUserNs.demo_cred ltac:(lia) whole_map_ok) as H.
  destruct (sys_setgroups demo_env init_user_ns 3 (fun i => [30; 10; 20] !! i) DemoUserNs.demo_cred) as [r c'] eqn:E.
  assert (E' := E). vm_compute in E'. injection E' as <- <-. destruct H as [[Hr _]|(_ & gids & Hl & Hg & _ & Hget)]; [by destruct Hr|].
  eexists. split; [reflexivity|]. split; [reflexivity|]. split; [reflexivity|]. destruct Hget as (l & El & Hp). exists l. split; [exact El|].
  destruct gids as [|g1 [|g2 [|g3 [|]]]]; try discriminate Hl. pose proof (Hg 0%nat ltac:(simpl; lia)) as E0. pose proof (Hg 1%nat ltac:(simpl; lia)) as E1. pose proof (Hg 2%nat ltac:(simpl; lia)) as E2.
  injection E0 as <-. injection E1 as <-. injection E2 as <-. exact Hp.
Defined.
