(* ===== verification/Dquot.v ===== *)
(** * Disk quota: whom an inode is charged to

    The part of [fs/quota/dquot.c] that a change of the owner of an inode runs through:
    [dqget], [dquot_initialize], the checks of the limits, [dquot_transfer] and
    [__dquot_free_space].  A [struct dquot] is named by its type and id, so that a
    pointer to it is an id; reference counts and the list of dirty quotas are memory
    management and left out, as are the warnings that are sent to the user.  Quota
    formats and files ([acquire_dquot]), the state of the superblock, the capability and
    the clock are parameters. *)

From S2P Require Import Prelude Ext2Dir.

Definition i64 (z : Z) : Z := (z + 2 ^ 63) mod 2 ^ 64 - 2 ^ 63.

Definition ESRCH : Z := 3.
Definition EDQUOT : Z := 122.

(** The types of quota, below [MAXQUOTAS]. *)
Definition USRQUOTA : Z := 0.
Definition GRPQUOTA : Z := 1.
Definition PRJQUOTA : Z := 2.
Definition quota_types : list Z := [USRQUOTA; GRPQUOTA; PRJQUOTA].

(** [struct mem_dqblk] and [struct dquot]. *)
Record mem_dqblk : Type := Dqblk {
  dqb_bhardlimit : Z; dqb_bsoftlimit : Z; dqb_curspace : Z; dqb_rsvspace : Z;
  dqb_ihardlimit : Z; dqb_isoftlimit : Z; dqb_curinodes : Z; dqb_btime : Z; dqb_itime : Z }.
Record dquot : Type := Dquot { dq_dqb : mem_dqblk; dq_fake : bool; dq_mod : bool }.

(** The quotas in memory, by type and id, and those that the inode points to, by type. *)
Record quota : Type := Quota { dquots : gmap (Z * Z) dquot; i_dquot : gmap Z Z }.

Record quota_env : Type := QuotaEnv {
  is_noquota : bool; any_quota_loaded : Z; any_quota_suspended : Z;
  sb_has_quota_active : Z -> bool; sb_has_quota_limits_enabled : Z -> bool;
  cap_sys_resource : bool;
  old_root_squash : Z -> bool;               (* the old format, with DQF_ROOT_SQUASH *)
  negative_usage : bool;                     (* DQUOT_NEGATIVE_USAGE *)
  real_seconds : Z; dqi_bgrace : Z -> Z; dqi_igrace : Z -> Z;
  qid_has_mapping : Z -> Z -> bool;
  acquire_dquot : Z -> Z -> Z + dquot }.     (* an error, or what the quota file says *)

Definition with_inodes x b := let 'Dqblk bh bs c r ih sf _ bt it := b in Dqblk bh bs c r ih sf x bt it.
Definition with_space x b := let 'Dqblk bh bs _ r ih sf i bt it := b in Dqblk bh bs x r ih sf i bt it.
Definition with_rsv x b := let 'Dqblk bh bs c _ ih sf i bt it := b in Dqblk bh bs c x ih sf i bt it.
Definition with_btime x b := let 'Dqblk bh bs c r ih sf i _ it := b in Dqblk bh bs c r ih sf i x it.
Definition with_itime x b := let 'Dqblk bh bs c r ih sf i bt _ := b in Dqblk bh bs c r ih sf i bt x.
Definition on_dqb (f : mem_dqblk -> mem_dqblk) (dq : dquot) : dquot := Dquot (f (dq_dqb dq)) (dq_fake dq) (dq_mod dq).

Section Dquot.
Context (e : quota_env).

(** ** Usage *)

Definition dquot_incr_inodes (number : Z) := on_dqb (fun b => with_inodes (i64 (dqb_curinodes b + number)) b).
Definition dquot_incr_space (number : Z) := on_dqb (fun b => with_space (i64 (dqb_curspace b + number)) b).
Definition dquot_resv_space (number : Z) := on_dqb (fun b => with_rsv (i64 (dqb_rsvspace b + number)) b).

(** A grace time ends when the usage is below the soft limit. *)
Definition below_bsoft (b : mem_dqblk) : mem_dqblk :=
  if i64 (dqb_curspace b + dqb_rsvspace b) <=? dqb_bsoftlimit b then with_btime 0 b else b.

Definition dquot_free_reserved_space (number : Z) := on_dqb (fun b =>
  below_bsoft (with_rsv (if number <=? dqb_rsvspace b then i64 (dqb_rsvspace b - number) else 0) b)).

Definition dquot_decr_inodes (number : Z) := on_dqb (fun b =>
  let b := with_inodes (if negative_usage e || (number <=? dqb_curinodes b) then i64 (dqb_curinodes b - number) else 0) b in
  if dqb_curinodes b <=? dqb_isoftlimit b then with_itime 0 b else b).

Definition dquot_decr_space (number : Z) := on_dqb (fun b =>
  below_bsoft (with_space (if negative_usage e || (number <=? dqb_curspace b) then i64 (dqb_curspace b - number) else 0) b)).

(** ** Limits *)

Definition ignore_hardlimit (type : Z) : bool := cap_sys_resource e && negb (old_root_squash e type).

(** The error, and the quota, whose grace time may have begun. *)
Definition check_idq (type inodes : Z) (dq : dquot) : Z * dquot :=
  let b := dq_dqb dq in
  let newinodes := i64 (dqb_curinodes b + inodes) in
  let over_soft := negb (dqb_isoftlimit b =? 0) && (dqb_isoftlimit b <? newinodes) in
  if negb (sb_has_quota_limits_enabled e type) || dq_fake dq then (0, dq)
  else if negb (dqb_ihardlimit b =? 0) && (dqb_ihardlimit b <? newinodes) && negb (ignore_hardlimit type) then (- EDQUOT, dq)
  else if over_soft && negb (dqb_itime b =? 0) && (dqb_itime b <=? real_seconds e) && negb (ignore_hardlimit type) then (- EDQUOT, dq)
  else if over_soft && (dqb_itime b =? 0) then (0, on_dqb (with_itime (i64 (real_seconds e + dqi_igrace e type))) dq)
  else (0, dq).

Definition check_bdq (type space : Z) (prealloc : bool) (dq : dquot) : Z * dquot :=
  let b := dq_dqb dq in
  let tspace := i64 (dqb_curspace b + dqb_rsvspace b + space) in
  let over_soft := negb (dqb_bsoftlimit b =? 0) && (dqb_bsoftlimit b <? tspace) in
  if negb (sb_has_quota_limits_enabled e type) || dq_fake dq then (0, dq)
  else if negb (dqb_bhardlimit b =? 0) && (dqb_bhardlimit b <? tspace) && negb (ignore_hardlimit type) then (- EDQUOT, dq)
  else if over_soft && negb (dqb_btime b =? 0) && (dqb_btime b <=? real_seconds e) && negb (ignore_hardlimit type) then (- EDQUOT, dq)
  else if over_soft && (dqb_btime b =? 0) then
    if prealloc then (- EDQUOT, dq) else (0, on_dqb (with_btime (i64 (real_seconds e + dqi_bgrace e type))) dq)
  else (0, dq).

(** ** Finding quotas *)

Definition dquot_active : bool :=
  if is_noquota e then false else negb (Z.land (any_quota_loaded e) (Z.lnot (any_quota_suspended e)) =? 0).

Definition put_dquot (type id : Z) (dq : dquot) (q : quota) : quota := Quota (<[(type, id) := dq]> (dquots q)) (i_dquot q).
Definition point_to (type id : Z) (q : quota) : quota := Quota (dquots q) (<[type := id]> (i_dquot q)).

(** An error, or the quotas with the one that was asked for among them. *)
Definition dqget (type id : Z) (q : quota) : Z + quota :=
  if negb (qid_has_mapping e type id) then inl (- EINVAL)
  else if negb (sb_has_quota_active e type) then inl (- ESRCH)
  else match dquots q !! (type, id) with
       | Some _ => inr q
       | None => match acquire_dquot e type id with inl err => inl err | inr dq => inr (put_dquot type id dq q) end
       end.

(** The callers take a null pointer instead of [ESRCH]. *)
Definition dqget_or_null (type id : Z) (q : quota) : Z + (option Z * quota) :=
  match dqget type id q with
  | inr q => inr (Some id, q)
  | inl err => if err =? - ESRCH then inr (None, q) else inl err
  end.

(** [inode_get_rsv_space]: the operations ext2 uses have no [get_reserved_space]. *)
Definition inode_get_rsv_space : Z := 0.

(** [__dquot_initialize] for all types: first the references that are needed.  The
    operations ext2 uses have no [get_projid]. *)
Fixpoint get_loop (uid gid : Z) (types : list Z) (q : quota) (got : gmap Z Z) (init_needed : bool) : res (Z * quota * gmap Z Z * bool) :=
  match types with
  | [] => Ok (0, q, got, init_needed)
  | cnt :: types =>
      if bool_decide (is_Some (i_dquot q !! cnt)) || negb (sb_has_quota_active e cnt) then get_loop uid gid types q got init_needed
      else
        let* id := if cnt =? USRQUOTA then Ok uid else if cnt =? GRPQUOTA then Ok gid else Undef NullDeref in
        match dqget_or_null cnt id q with
        | inl err => Ok (err, q, got, true)
        | inr (Some id, q) => get_loop uid gid types q (<[cnt := id]> got) true
        | inr (None, q) => get_loop uid gid types q got true
        end
  end.

(** Then the pointers of the inode. *)
Definition fill_one (got : gmap Z Z) (q : quota) (cnt : Z) : quota :=
  if negb (sb_has_quota_active e cnt) then q
  else match got !! cnt, i_dquot q !! cnt with
       | Some id, None => point_to cnt id q
       | _, _ => q
       end.

Definition dquot_initialize (uid gid : Z) (q : quota) : res (Z * quota) :=
  if negb dquot_active then Ok (0, q)
  else
    let* '(ret, q, got, init_needed) := get_loop uid gid quota_types q ∅ false in
    if negb (ret =? 0) then Ok (ret, q)
    else if negb init_needed || is_noquota e then Ok (0, q)
    else Ok (0, foldl (fill_one got) q quota_types).

(** ** Transfer *)

(** The limits of the quotas that get the inode. *)
Fixpoint check_loop (inode_usage space : Z) (types : list Z) (transfer_to : gmap Z Z) (q : quota) : res (Z * quota) :=
  match types with
  | [] => Ok (0, q)
  | cnt :: types =>
      match transfer_to !! cnt with
      | None => check_loop inode_usage space types transfer_to q
      | Some id =>
          if negb (sb_has_quota_active e cnt) then check_loop inode_usage space types transfer_to q
          else
            let* dq := deref (dquots q !! (cnt, id)) in
            let '(ret, dq) := check_idq cnt inode_usage dq in
            if negb (ret =? 0) then Ok (ret, put_dquot cnt id dq q)
            else
              let '(ret, dq) := check_bdq cnt space false dq in
              if negb (ret =? 0) then Ok (ret, put_dquot cnt id dq q)
              else check_loop inode_usage space types transfer_to (put_dquot cnt id dq q)
      end
  end.

(** [mark_dquot_dirty]. *)
Definition mark_dirty (dq : dquot) : dquot := Dquot (dq_dqb dq) (dq_fake dq) true.

Definition charge_from (inode_usage cur_space rsv_space : Z) (dq : dquot) : dquot :=
  mark_dirty (dquot_free_reserved_space rsv_space (dquot_decr_space cur_space (dquot_decr_inodes inode_usage dq))).
Definition charge_to (inode_usage cur_space rsv_space : Z) (dq : dquot) : dquot :=
  mark_dirty (dquot_resv_space rsv_space (dquot_incr_space cur_space (dquot_incr_inodes inode_usage dq))).

Fixpoint move_loop (inode_usage cur_space rsv_space : Z) (types : list Z) (transfer_to : gmap Z Z) (q : quota) : res quota :=
  match types with
  | [] => Ok q
  | cnt :: types =>
      match transfer_to !! cnt with
      | None => move_loop inode_usage cur_space rsv_space types transfer_to q
      | Some id =>
          if negb (sb_has_quota_active e cnt) then move_loop inode_usage cur_space rsv_space types transfer_to q
          else
            let* q := match i_dquot q !! cnt with
              | Some from => let* dq := deref (dquots q !! (cnt, from)) in Ok (put_dquot cnt from (charge_from inode_usage cur_space rsv_space dq) q)
              | None => Ok q
              end in
            let* dq := deref (dquots q !! (cnt, id)) in
            let q := put_dquot cnt id (charge_to inode_usage cur_space rsv_space dq) q in
            move_loop inode_usage cur_space rsv_space types transfer_to (point_to cnt id q)
      end
  end.

(** The operations ext2 uses have no [get_inode_usage]: an inode counts 1. *)
Definition __dquot_transfer (cur_space : Z) (transfer_to : gmap Z Z) (q : quota) : res (Z * quota) :=
  if is_noquota e then Ok (0, q)
  else
    let rsv_space := inode_get_rsv_space in
    let* '(ret, q) := check_loop 1 (i64 (cur_space + rsv_space)) quota_types transfer_to q in
    if negb (ret =? 0) then Ok (ret, q)
    else let* q := move_loop 1 cur_space rsv_space quota_types transfer_to q in Ok (0, q).

(** The reference to one of the new owners, if there is one. *)
Definition want (type : Z) (new : option Z) (old : Z) (transfer_to : gmap Z Z) (q : quota) : Z + (gmap Z Z * quota) :=
  match new with
  | Some id =>
      if id =? old then inr (transfer_to, q)
      else match dqget_or_null type id q with
           | inl err => inl err
           | inr (Some id, q) => inr (<[type := id]> transfer_to, q)
           | inr (None, q) => inr (transfer_to, q)
           end
  | None => inr (transfer_to, q)
  end.

Definition dquot_transfer (ia_uid ia_gid : option Z) (uid gid cur_space : Z) (q : quota) : res (Z * quota) :=
  if negb dquot_active then Ok (0, q)
  else
    match want USRQUOTA ia_uid uid ∅ q with
    | inl ret => Ok (ret, q)
    | inr (transfer_to, q) =>
        match want GRPQUOTA ia_gid gid transfer_to q with
        | inl ret => Ok (ret, q)
        | inr (transfer_to, q) => __dquot_transfer cur_space transfer_to q
        end
    end.

(** ** Freed space *)

Definition free_one (number : Z) (q : quota) (cnt : Z) : res quota :=
  match i_dquot q !! cnt with
  | Some id => let* dq := deref (dquots q !! (cnt, id)) in Ok (put_dquot cnt id (mark_dirty (dquot_decr_space number dq)) q)
  | None => Ok q
  end.

(** [__dquot_free_space] without reservation; the blocks of the inode are counted elsewhere. *)
Definition __dquot_free_space (number : Z) (q : quota) : res quota :=
  if negb dquot_active then Ok q
  else
    let* q := free_one number q USRQUOTA in
    let* q := free_one number q GRPQUOTA in
    free_one number q PRJQUOTA.
End Dquot.

(** ** What is charged to whom *)

(** The errors of reading a quota; [ESRCH] means that there is none.  Project quota needs
    an operation that the operations of ext2 do not have, and cannot be turned on. *)
Class QuotaLaws (e : quota_env) : Prop := {
  acquire_err type id err : acquire_dquot e type id = inl err -> err < 0 /\ err <> - ESRCH;
  no_project_quota : sb_has_quota_active e PRJQUOTA = false }.

(** Inodes, bytes and reserved bytes. *)
Definition usage_of (dq : dquot) : Z * Z * Z := (dqb_curinodes (dq_dqb dq), dqb_curspace (dq_dqb dq), dqb_rsvspace (dq_dqb dq)).

Definition usage (e : quota_env) (q : quota) (type id : Z) : Z * Z * Z :=
  match dquots q !! (type, id) with
  | Some dq => usage_of dq
  | None => match acquire_dquot e type id with inr dq => usage_of dq | inl _ => (0, 0, 0) end
  end.

(** The quotas that the inode points to are in memory. *)
Definition held (q : quota) : Prop := forall type id, i_dquot q !! type = Some id -> is_Some (dquots q !! (type, id)).

(** One inode and its bytes less, never below 0 unless the format allows it, or more. *)
Definition less (e : quota_env) (n x : Z) : Z := if negative_usage e || (n <=? x) then i64 (x - n) else 0.
Definition without_inode (e : quota_env) (bytes : Z) (u : Z * Z * Z) : Z * Z * Z :=
  let '(i, s, r) := u in (less e 1 i, less e bytes s, if 0 <=? r then i64 r else 0).
Definition with_inode (bytes : Z) (u : Z * Z * Z) : Z * Z * Z := let '(i, s, r) := u in (i64 (i + 1), i64 (s + bytes), i64 r).

(** The usage of [id] when the inode goes from one quota to another. *)
Definition moved_usage (e : quota_env) (bytes : Z) (from : option Z) (new : Z) (u : Z -> Z * Z * Z) (id : Z) : Z * Z * Z :=
  let v := if decide (from = Some id) then without_inode e bytes (u id) else u id in
  if decide (id = new) then with_inode bytes v else v.

Section Facts.
Context (e : quota_env) {L : QuotaLaws e}.

(** Nobody is charged for anything else, and nothing goes out of memory. *)
Definition same_usage (q q' : quota) : Prop :=
  (forall type id, usage e q' type id = usage e q type id) /\ forall k, is_Some (dquots q !! k) -> is_Some (dquots q' !! k).
Definition quiet (q q' : quota) : Prop := same_usage q q' /\ i_dquot q' = i_dquot q.

Lemma quiet_refl q : quiet q q.
Proof using. done. Qed.

Lemma same_usage_trans q1 q2 q3 : same_usage q1 q2 -> same_usage q2 q3 -> same_usage q1 q3.
Proof using. intros [H1 H2] [H3 H4]. split; [intros; by rewrite H3|auto]. Qed.

Lemma quiet_trans q1 q2 q3 : quiet q1 q2 -> quiet q2 q3 -> quiet q1 q3.
Proof using. intros [H1 H2] [H3 H4]. split; [by eapply same_usage_trans|congruence]. Qed.

Lemma quiet_held q q' : quiet q q' -> held q -> held q'.
Proof using. intros [[_ H] E] Hh type id. rewrite E. eauto. Qed.

Lemma usage_put q type id dq type' id' :
  usage e (put_dquot type id dq q) type' id' = if decide ((type', id') = (type, id)) then usage_of dq else usage e q type' id'.
Proof using.
  unfold usage, put_dquot. cbn [dquots]. case_decide as E; [injection E as -> ->; by rewrite lookup_insert_eq|].
  by rewrite lookup_insert_ne by congruence.
Qed.

Lemma put_in_memory q type id dq k : is_Some (dquots q !! k) -> is_Some (dquots (put_dquot type id dq q) !! k).
Proof using. intros H. unfold put_dquot. cbn [dquots]. destruct (decide (k = (type, id))) as [->|]; [by rewrite lookup_insert_eq|by rewrite lookup_insert_ne]. Qed.

Lemma put_quiet q type id dq : usage_of dq = usage e q type id -> quiet q (put_dquot type id dq q).
Proof using.
  intros E. split; [|done]. split; [|intros k; apply put_in_memory].
  intros type' id'. rewrite usage_put. case_decide as D; [by injection D as -> ->|done].
Qed.

Lemma usage_in_memory q type id dq : dquots q !! (type, id) = Some dq -> usage e q type id = usage_of dq.
Proof using. intros E. unfold usage. by rewrite E. Qed.

Lemma dqget_spec type id q :
  match dqget e type id q with
  | inl err => err < 0 /\ (err = - ESRCH -> sb_has_quota_active e type = false)
  | inr q' => quiet q q' /\ is_Some (dquots q' !! (type, id)) /\ sb_has_quota_active e type = true
  end.
Proof using L.
  unfold dqget. destruct (qid_has_mapping e type id); cbn [negb]; [|done]. destruct (sb_has_quota_active e type); cbn [negb]; [|done].
  destruct (dquots q !! (type, id)) as [dq|] eqn:E; [split; [done|]; split; [by exists dq|done]|].
  destruct (acquire_dquot e type id) as [err|dq] eqn:Ea; [destruct (acquire_err _ _ _ Ea); by split|].
  split; [apply put_quiet; unfold usage; by rewrite E, Ea|]. split; [|done]. unfold put_dquot. cbn [dquots]. by rewrite lookup_insert_eq.
Qed.

Lemma dqget_or_null_spec type id q :
  match dqget_or_null e type id q with
  | inl err => err < 0
  | inr (r, q') => quiet q q' /\ (r = Some id /\ is_Some (dquots q' !! (type, id)) /\ sb_has_quota_active e type = true \/ r = None /\ sb_has_quota_active e type = false)
  end.
Proof using L.
  unfold dqget_or_null. pose proof (dqget_spec type id q) as H. destruct (dqget e type id q) as [err|q']; [|split; [apply H|left; split; [done|apply H]]].
  destruct (Z.eqb_spec err (- ESRCH)) as [->|]; [|apply H]. split; [done|]. right. split; [done|]. by apply H.
Qed.

(** *** Initialisation *)

(** The inode points to more quotas, those of its owner, and nobody's usage changes. *)
Definition initialised (uid gid : Z) (q q' : quota) : Prop :=
  same_usage q q' /\ (forall type id, i_dquot q !! type = Some id -> i_dquot q' !! type = Some id) /\
  (forall type id, i_dquot q' !! type = Some id -> i_dquot q !! type = Some id \/
     type = USRQUOTA /\ id = uid \/ type = GRPQUOTA /\ id = gid).

Lemma initialised_quiet uid gid q q' : quiet q q' -> initialised uid gid q q'.
Proof using. intros [H E]. split; [done|]. rewrite E. auto. Qed.

Definition got_ok (uid gid : Z) (q : quota) (got : gmap Z Z) : Prop :=
  forall type id, got !! type = Some id -> is_Some (dquots q !! (type, id)) /\ (type = USRQUOTA /\ id = uid \/ type = GRPQUOTA /\ id = gid).

Lemma get_loop_spec uid gid types q got needed :
  Forall (fun c => c = USRQUOTA \/ c = GRPQUOTA \/ c = PRJQUOTA) types -> got_ok uid gid q got ->
  exists ret q' got' needed', get_loop e uid gid types q got needed = Ok (ret, q', got', needed') /\
    quiet q q' /\ got_ok uid gid q' got' /\ ret <= 0.
Proof using L.
  intros Ht. revert q got needed. induction Ht as [|cnt types Hc Ht IH]; intros q got needed Hg; cbn [get_loop].
  - eexists _, _, _, _. split; [done|]. split; [apply quiet_refl|]. by split.
  - destruct (bool_decide _ || _) eqn:Eb; [by apply IH|]. apply orb_false_iff in Eb as [_ Ea]. rewrite negb_false_iff in Ea.
    assert (exists id, (if cnt =? USRQUOTA then Ok uid else if cnt =? GRPQUOTA then Ok gid else Undef NullDeref) = Ok id /\
              (cnt = USRQUOTA /\ id = uid \/ cnt = GRPQUOTA /\ id = gid)) as (id & -> & Hid).
    { destruct Hc as [->|[->| ->]]; [by eauto|by eauto|]. by rewrite no_project_quota in Ea. }
    cbn [rbind]. pose proof (dqget_or_null_spec cnt id q) as D. destruct (dqget_or_null e cnt id q) as [err|[r q']].
    + eexists _, _, _, _. split; [done|]. split; [apply quiet_refl|]. split; [done|lia].
    + destruct D as [Dq [(-> & Dm & _)|[-> _]]].
      * destruct (IH q' (<[cnt := id]> got) true) as (ret & q2 & got2 & n2 & -> & Q2 & G2 & R2).
        { intros type i. destruct (decide (type = cnt)) as [->|]; [rewrite lookup_insert_eq; intros [= <-]; by split|].
          rewrite lookup_insert_ne by done. intros H. destruct (Hg type i H) as [H1 H2]. split; [by apply Dq|done]. }
        eexists _, _, _, _. split; [done|]. split; [by eapply quiet_trans|done].
      * destruct (IH q' got true) as (ret & q2 & got2 & n2 & -> & Q2 & G2 & R2).
        { intros type i H. destruct (Hg type i H) as [H1 H2]. split; [by apply Dq|done]. }
        eexists _, _, _, _. split; [done|]. split; [by eapply quiet_trans|done].
Qed.

Lemma fill_one_spec uid gid got q cnt :
  got_ok uid gid q got -> held q -> initialised uid gid q (fill_one e got q cnt) /\ held (fill_one e got q cnt) /\ dquots (fill_one e got q cnt) = dquots q.
Proof using.
  intros Hg Hh. unfold fill_one. destruct (negb _); [split_and!; [apply initialised_quiet, quiet_refl|done|done]|].
  destruct (got !! cnt) as [id|] eqn:Eg, (i_dquot q !! cnt) eqn:Ei; try (split_and!; [apply initialised_quiet, quiet_refl|done|done]).
  destruct (Hg cnt id Eg) as [Hm Ho]. split_and!; [split_and!|..]; unfold point_to; cbn [i_dquot dquots]; try done.
  - intros type i H. destruct (decide (type = cnt)) as [->|]; [congruence|by rewrite lookup_insert_ne].
  - intros type i. destruct (decide (type = cnt)) as [->|]; [rewrite lookup_insert_eq; intros [= <-]; by right|].
    rewrite lookup_insert_ne by done. by left.
  - intros type i. cbn [i_dquot dquots]. destruct (decide (type = cnt)) as [->|]; [rewrite lookup_insert_eq; by intros [= <-]|].
    rewrite lookup_insert_ne by done. apply Hh.
Qed.

Lemma initialised_trans uid gid q1 q2 q3 : initialised uid gid q1 q2 -> initialised uid gid q2 q3 -> initialised uid gid q1 q3.
Proof using.
  intros (S1 & A1 & B1) (S2 & A2 & B2). split; [by eapply same_usage_trans|]. split; [auto|].
  intros type id H. destruct (B2 type id H) as [H2|]; [|by right]. by apply B1.
Qed.

Lemma fill_spec uid gid got types q :
  got_ok uid gid q got -> held q ->
  initialised uid gid q (foldl (fill_one e got) q types) /\ held (foldl (fill_one e got) q types).
Proof using.
  revert q. induction types as [|cnt types IH]; intros q Hg Hh; cbn [foldl]; [split; [apply initialised_quiet, quiet_refl|done]|].
  destruct (fill_one_spec uid gid got q cnt Hg Hh) as (H1 & H2 & H3).
  destruct (IH (fill_one e got q cnt)) as [H4 H5]; [unfold got_ok; by rewrite H3|done|]. split; [by eapply initialised_trans|done].
Qed.

Lemma types_known : Forall (fun c => c = USRQUOTA \/ c = GRPQUOTA \/ c = PRJQUOTA) quota_types.
Proof using. unfold quota_types. do 3 (apply Forall_cons; split; [by auto|]). apply Forall_nil_2. Qed.

Lemma dquot_initialize_spec uid gid q : held q ->
  exists ret q', dquot_initialize e uid gid q = Ok (ret, q') /\ held q' /\ initialised uid gid q q' /\ ret <= 0.
Proof using L.
  intros Hh. unfold dquot_initialize. destruct (dquot_active e); cbn [negb].
  2:{ eexists _, _. split; [done|]. split; [done|]. split; [apply initialised_quiet, quiet_refl|done]. }
  destruct (get_loop_spec uid gid quota_types q ∅ false types_known) as (ret & q' & got & needed & -> & Q & Hg & R).
  { intros type id. by rewrite lookup_empty. }
  cbn [rbind]. assert (Hh' : held q') by (by eapply quiet_held). pose proof (initialised_quiet uid gid _ _ Q) as Hi.
  destruct (negb (ret =? 0)); [eexists _, _; split; [done|]; split; [done|]; by split|].
  destruct (_ || _); [eexists _, _; split; [done|]; split; [done|]; by split|].
  destruct (fill_spec uid gid got quota_types q' Hg Hh') as [H1 H2]. eexists _, _. split; [done|]. split; [done|].
  split; [by eapply initialised_trans|done].
Qed.

(** *** Transfer *)

Lemma check_idq_usage type n dq : usage_of (check_idq e type n dq).2 = usage_of dq /\ (check_idq e type n dq).1 <= 0.
Proof using. unfold check_idq, EDQUOT. repeat case_match; cbn [fst snd]; (split; [|lia]); by destruct dq as [[]]. Qed.

Lemma check_bdq_usage type n p dq : usage_of (check_bdq e type n p dq).2 = usage_of dq /\ (check_bdq e type n p dq).1 <= 0.
Proof using. unfold check_bdq, EDQUOT. repeat case_match; cbn [fst snd]; (split; [|lia]); by destruct dq as [[]]. Qed.

(** The quotas that are to get the inode are in memory. *)
Definition wanted (to : gmap Z Z) (q : quota) : Prop := forall type id, to !! type = Some id -> is_Some (dquots q !! (type, id)).

Lemma wanted_quiet to q q' : quiet q q' -> wanted to q -> wanted to q'.
Proof using. intros [[_ H] _] Hw type id E. eauto. Qed.

Lemma check_loop_spec n space types to q : wanted to q ->
  exists ret q', check_loop e n space types to q = Ok (ret, q') /\ quiet q q' /\ ret <= 0.
Proof using.
  revert q. induction types as [|cnt types IH]; intros q Hw; cbn [check_loop]; [eexists _, _; split; [done|]; split; [apply quiet_refl|done]|].
  destruct (to !! cnt) as [id|] eqn:Et; [|by apply IH]. destruct (negb (sb_has_quota_active e cnt)); [by apply IH|].
  destruct (Hw cnt id Et) as [dq Hd]. rewrite Hd. cbn [deref rbind].
  destruct (check_idq_usage cnt n dq) as [U1 R1]. destruct (check_idq e cnt n dq) as [r1 dq1]. cbn [fst snd] in U1, R1.
  rewrite <- (usage_in_memory q _ _ _ Hd) in U1.
  destruct (negb (r1 =? 0)); [eexists _, _; split; [done|]; split; [by apply put_quiet|done]|].
  destruct (check_bdq_usage cnt space false dq1) as [U2 R2]. destruct (check_bdq e cnt space false dq1) as [r2 dq2]. cbn [fst snd] in U2, R2.
  assert (Q : quiet q (put_dquot cnt id dq2 q)) by (apply put_quiet; congruence).
  destruct (negb (r2 =? 0)); [eexists _, _; split; [done|]; by split|].
  destruct (IH (put_dquot cnt id dq2 q)) as (ret & q' & E & Q' & R); [by eapply wanted_quiet|].
  eexists _, _. split; [exact E|]. split; [by eapply quiet_trans|done].
Qed.

Lemma decr_inodes_usage n dq : usage_of (dquot_decr_inodes e n dq) = let '(i, s, r) := usage_of dq in (less e n i, s, r).
Proof using. destruct dq as [[]]. unfold dquot_decr_inodes, on_dqb, usage_of, less. cbn -[i64]. by destruct (_ <=? dqb_isoftlimit0). Qed.

Lemma below_bsoft_usage b f m : usage_of (Dquot (below_bsoft b) f m) = usage_of (Dquot b f m).
Proof using. unfold below_bsoft. destruct b. by destruct (_ <=? _). Qed.

Lemma decr_space_usage n dq : usage_of (dquot_decr_space e n dq) = let '(i, s, r) := usage_of dq in (i, less e n s, r).
Proof using. unfold dquot_decr_space, on_dqb. rewrite below_bsoft_usage. by destruct dq as [[]]. Qed.

Lemma free_reserved_usage n dq : usage_of (dquot_free_reserved_space n dq) = let '(i, s, r) := usage_of dq in (i, s, if n <=? r then i64 (r - n) else 0).
Proof using. unfold dquot_free_reserved_space, on_dqb. rewrite below_bsoft_usage. by destruct dq as [[]]. Qed.

Lemma charge_from_usage bytes dq : usage_of (charge_from e 1 bytes 0 dq) = without_inode e bytes (usage_of dq).
Proof using.
  transitivity (usage_of (dquot_free_reserved_space 0 (dquot_decr_space e bytes (dquot_decr_inodes e 1 dq)))); [done|].
  rewrite free_reserved_usage, decr_space_usage, decr_inodes_usage. destruct (usage_of dq) as [[i s] r]. by rewrite Z.sub_0_r.
Qed.

Lemma charge_to_usage bytes dq : usage_of (charge_to 1 bytes 0 dq) = with_inode bytes (usage_of dq).
Proof using. destruct dq as [[]]. unfold charge_to, usage_of. cbn -[i64]. by rewrite Z.add_0_r. Qed.

(** What a transfer of the inode, with these bytes, does: the quotas in [to] of a type that is
    active get it from those that had it. *)
Definition transferred (bytes : Z) (to : Z -> option Z) (q q' : quota) : Prop :=
  forall type,
    i_dquot q' !! type = (match to type with Some new => Some new | None => i_dquot q !! type end) /\
    forall id, usage e q' type id =
      match to type with Some new => moved_usage e bytes (i_dquot q !! type) new (usage e q type) id | None => usage e q type id end.

Lemma move_one_spec bytes cnt id q : held q -> is_Some (dquots q !! (cnt, id)) ->
  exists q1 dq q', (match i_dquot q !! cnt with
      | Some from => let* dq := deref (dquots q !! (cnt, from)) in Ok (put_dquot cnt from (charge_from e 1 bytes 0 dq) q)
      | None => Ok q end) = Ok q1 /\ dquots q1 !! (cnt, id) = Some dq /\
    q' = point_to cnt id (put_dquot cnt id (charge_to 1 bytes 0 dq) q1) /\ held q' /\
    (forall k, is_Some (dquots q !! k) -> is_Some (dquots q' !! k)) /\
    transferred bytes (fun type => if decide (type = cnt) then Some id else None) q q'.
Proof using.
  intros Hh Hid.
  assert (exists q1, (match i_dquot q !! cnt with
      | Some from => let* dq := deref (dquots q !! (cnt, from)) in Ok (put_dquot cnt from (charge_from e 1 bytes 0 dq) q)
      | None => Ok q end) = Ok q1 /\ i_dquot q1 = i_dquot q /\ (forall k, is_Some (dquots q !! k) -> is_Some (dquots q1 !! k)) /\
      forall type i, usage e q1 type i = if decide (type = cnt /\ i_dquot q !! cnt = Some i) then without_inode e bytes (usage e q type i) else usage e q type i)
    as (q1 & E1 & I1 & M1 & U1).
  { destruct (i_dquot q !! cnt) as [from|] eqn:Ef.
    - destruct (Hh cnt from Ef) as [dq Hd]. rewrite Hd. cbn [deref rbind]. eexists. split; [done|]. split; [done|]. split; [intros k; apply put_in_memory|].
      intros type i. rewrite usage_put, charge_from_usage, <- (usage_in_memory q _ _ _ Hd).
      destruct (decide ((type, i) = (cnt, from))) as [E|E]; [injection E as -> ->; by rewrite decide_True|]. rewrite decide_False; [done|]. intros [-> [= ->]]. done.
    - exists q. split; [done|]. split; [done|]. split; [done|]. intros type i. rewrite decide_False; [done|]. by intros [_ ?]. }
  destruct (M1 _ Hid) as [dq Hd]. eexists q1, dq, _. split; [exact E1|]. split; [exact Hd|]. split; [done|].
  assert (M2 : forall k, is_Some (dquots q !! k) -> is_Some (dquots (put_dquot cnt id (charge_to 1 bytes 0 dq) q1) !! k))
    by (intros k Hk; by apply put_in_memory, M1).
  split; [|split; [done|]].
  - intros type i. cbn [point_to i_dquot dquots]. destruct (decide (type = cnt)) as [->|]; [rewrite lookup_insert_eq; intros [= <-]; by apply M2|].
    rewrite lookup_insert_ne by done. cbn [put_dquot i_dquot]. rewrite I1. intros H. by apply M2, Hh.
  - intros type. split.
    + cbn [point_to i_dquot put_dquot]. case_decide as D; [subst; by rewrite lookup_insert_eq|]. rewrite lookup_insert_ne by done. by rewrite I1.
    + intros i.
      change (usage e (put_dquot cnt id (charge_to 1 bytes 0 dq) q1) type i = match (if decide (type = cnt) then Some id else None) with Some new => moved_usage e bytes (i_dquot q !! type) new (usage e q type) i | None => usage e q type i end).
      rewrite usage_put, charge_to_usage, <- (usage_in_memory q1 _ _ _ Hd). unfold moved_usage. destruct (decide (type = cnt)) as [->|Hne].
      * destruct (decide ((cnt, i) = (cnt, id))) as [E|E].
        -- injection E as ->. rewrite (decide_True (P := id = id)) by done. rewrite U1. f_equal. repeat case_decide; tauto.
        -- rewrite (decide_False (P := i = id)) by congruence. rewrite U1. repeat case_decide; tauto.
      * rewrite decide_False by congruence. rewrite U1, decide_False; [done|]. by intros [? _].
Qed.

Lemma move_loop_spec bytes types to q : NoDup types -> held q -> wanted to q ->
  exists q', move_loop e 1 bytes 0 types to q = Ok q' /\ held q' /\
    transferred bytes (fun type => if decide (type ∈ types) then if sb_has_quota_active e type then to !! type else None else None) q q'.
Proof using L.
  intros Hnd. revert q. induction Hnd as [|cnt types Hni Hnd IH]; intros q Hh Hw; cbn [move_loop].
  { exists q. split; [done|]. split; [done|]. intros type. rewrite decide_False by set_solver. done. }
  assert (Hskip : (if sb_has_quota_active e cnt then to !! cnt else None) = None ->
    (exists q', move_loop e 1 bytes 0 types to q = Ok q' /\ held q' /\
       transferred bytes (fun type => if decide (type ∈ cnt :: types) then if sb_has_quota_active e type then to !! type else None else None) q q')).
  { intros Hn. destruct (IH q Hh Hw) as (q' & E & H' & T). exists q'. split; [done|]. split; [done|]. intros type. specialize (T type). cbv beta in T.
    destruct (decide (type = cnt)) as [->|]; [rewrite decide_False in T by done; rewrite decide_True, Hn by set_solver; done|].
    destruct (decide (type ∈ types)); [rewrite decide_True by set_solver; done|rewrite decide_False by set_solver; done]. }
  destruct (to !! cnt) as [id|] eqn:Et; [|apply Hskip; by destruct (sb_has_quota_active e cnt)].
  destruct (sb_has_quota_active e cnt) eqn:Ea; cbn [negb]; [|by apply Hskip]. clear Hskip.
  destruct (move_one_spec bytes cnt id q Hh (Hw _ _ Et)) as (q1 & dq & q2 & E1 & Hd & Eq2 & H2 & M2 & T2).
  rewrite E1. cbn [rbind]. rewrite Hd. cbn [deref rbind]. rewrite <- Eq2.
  destruct (IH q2 H2) as (q' & E & H' & T); [intros ty i Ei; by apply M2, Hw|]. exists q'. split; [done|]. split; [done|].
  intros type. specialize (T type). specialize (T2 type). cbv beta in T, T2. destruct T as [T1 T3], T2 as [T4 T5]. destruct (decide (type = cnt)) as [->|Hne].
  - rewrite decide_False in T1, T3 by done. rewrite decide_True, Ea, Et by set_solver. split; [congruence|]. intros i. by rewrite T3, T5.
  - rewrite T4 in T1, T3. destruct (decide (type ∈ types)); [rewrite decide_True by set_solver|rewrite decide_False by set_solver].
    + split; [done|]. intros i. rewrite T3. destruct (if sb_has_quota_active e type then to !! type else None); [|by rewrite T5].
      unfold moved_usage. by rewrite T5.
    + split; [done|]. intros i. by rewrite T3, T5.
Qed.

(** What has been collected for a type. *)
Definition changed (new : option Z) (old : Z) : option Z := match new with Some id => if id =? old then None else Some id | None => None end.

Lemma owner_lookup ia_uid ia_gid uid gid (to1 to : gmap Z Z) type :
  to1 = match changed ia_uid uid with Some id => if sb_has_quota_active e USRQUOTA then <[USRQUOTA := id]> ∅ else ∅ | None => ∅ end ->
  to = match changed ia_gid gid with Some id => if sb_has_quota_active e GRPQUOTA then <[GRPQUOTA := id]> to1 else to1 | None => to1 end ->
  (if decide (type ∈ quota_types) then if sb_has_quota_active e type then to !! type else None else None) =
  (if sb_has_quota_active e type then
     if type =? USRQUOTA then changed ia_uid uid else if type =? GRPQUOTA then changed ia_gid gid else None else None).
Proof using.
  intros E1 E2. destruct (sb_has_quota_active e type) eqn:Et; [|by case_decide].
  assert (Hto : to !! type = if type =? USRQUOTA then changed ia_uid uid else if type =? GRPQUOTA then changed ia_gid gid else None).
  { rewrite E2, E1. destruct (Z.eqb_spec type USRQUOTA) as [->|N1]; [|destruct (Z.eqb_spec type GRPQUOTA) as [->|N2]]; rewrite ?Et.
    - destruct (changed ia_gid gid); [destruct (sb_has_quota_active e GRPQUOTA); [rewrite lookup_insert_ne by done|]|];
        (destruct (changed ia_uid uid); [by rewrite lookup_insert_eq|by rewrite lookup_empty]).
    - destruct (changed ia_gid gid); [by rewrite lookup_insert_eq|]. destruct (changed ia_uid uid); [|by rewrite lookup_empty].
      destruct (sb_has_quota_active e USRQUOTA); [by rewrite lookup_insert_ne, lookup_empty|by rewrite lookup_empty].
    - destruct (changed ia_gid gid), (changed ia_uid uid), (sb_has_quota_active e USRQUOTA), (sb_has_quota_active e GRPQUOTA);
        rewrite ?lookup_insert_ne by congruence; by rewrite lookup_empty. }
  rewrite Hto. case_decide as Hin; [done|]. destruct (Z.eqb_spec type USRQUOTA) as [->|]; [by destruct Hin; left|].
  destruct (Z.eqb_spec type GRPQUOTA) as [->|]; [by destruct Hin; right; left|done].
Qed.

(** The new owner of a type, if the transfer changes it. *)
Definition new_owner (ia_uid ia_gid : option Z) (uid gid type : Z) : option Z :=
  if dquot_active e && sb_has_quota_active e type then
    if type =? USRQUOTA then changed ia_uid uid else if type =? GRPQUOTA then changed ia_gid gid else None
  else None.

Lemma want_spec type new old to q : wanted to q ->
  match want e type new old to q with
  | inl err => err < 0
  | inr (to', q') => quiet q q' /\ wanted to' q' /\
      to' = match changed new old with
            | Some id => if sb_has_quota_active e type then <[type := id]> to else to
            | None => to end
  end.
Proof using L.
  intros Hw. unfold want, changed. destruct new as [id|]; [|done]. destruct (id =? old); [done|].
  pose proof (dqget_or_null_spec type id q) as D. destruct (dqget_or_null e type id q) as [err|[r q']]; [done|].
  destruct D as [Dq [(-> & Dm & Da)|[-> Da]]]; rewrite Da; (split; [done|]); (split; [|done]).
  - intros ty i. destruct (decide (ty = type)) as [->|]; [rewrite lookup_insert_eq; by intros [= <-]|].
    rewrite lookup_insert_ne by done. intros H. by apply Dq, Hw.
  - by eapply wanted_quiet.
Qed.

Lemma dquot_transfer_spec ia_uid ia_gid uid gid bytes q : held q ->
  exists ret q', dquot_transfer e ia_uid ia_gid uid gid bytes q = Ok (ret, q') /\ held q' /\
    (ret < 0 /\ same_usage q q' /\ i_dquot q' = i_dquot q \/ ret = 0 /\ transferred bytes (new_owner ia_uid ia_gid uid gid) q q').
Proof using L.
  intros Hh. unfold dquot_transfer, new_owner. destruct (dquot_active e) eqn:Eact; cbn [negb andb].
  2:{ eexists _, _. split; [done|]. split; [done|]. right. split; [done|]. intros type. done. }
  assert (Hw0 : wanted ∅ q) by (intros ? ?; by rewrite lookup_empty).
  pose proof (want_spec USRQUOTA ia_uid uid ∅ q Hw0) as W1. destruct (want e USRQUOTA ia_uid uid ∅ q) as [err|[to1 q1]].
  { eexists _, _. split; [done|]. split; [done|]. left. done. }
  destruct W1 as (Q1 & Hw1 & E1). pose proof (want_spec GRPQUOTA ia_gid gid to1 q1 Hw1) as W2.
  destruct (want e GRPQUOTA ia_gid gid to1 q1) as [err|[to q2]].
  { eexists _, _. split; [done|]. split; [by eapply quiet_held|]. left. destruct Q1. done. }
  destruct W2 as (Q2 & Hw2 & E2). unfold __dquot_transfer.
  assert (is_noquota e = false) as -> by (unfold dquot_active in Eact; by destruct (is_noquota e)). unfold inode_get_rsv_space.
  destruct (check_loop_spec 1 (i64 (bytes + 0)) quota_types to q2 Hw2) as (ret & q3 & -> & Q3 & R3). cbn [rbind].
  assert (Q : quiet q q3) by (eapply quiet_trans; [by eapply quiet_trans|done]). assert (Hh3 : held q3) by (by eapply quiet_held).
  destruct (Z.eqb_spec ret 0) as [->|Hne]; cbn [negb].
  2:{ eexists _, _. split; [done|]. split; [done|]. left. destruct Q. split; [lia|done]. }
  destruct (move_loop_spec bytes quota_types to q3) as (q4 & -> & Hh4 & T); [|done|exact (wanted_quiet _ _ _ Q3 Hw2)|].
  { unfold quota_types. repeat constructor; set_solver. }
  cbn [rbind]. eexists _, _. split; [done|]. split; [done|]. right. split; [done|].
  intros type. specialize (T type). cbv beta in T. destruct Q as [[Qu _] Qi]. rewrite Qi in T.
  rewrite (owner_lookup ia_uid ia_gid uid gid to1 to type E1 E2) in T. destruct T as [T1 T2]. split; [done|]. intros id. rewrite T2. destruct (if sb_has_quota_active e type then _ else None); [|apply Qu].
  unfold moved_usage. by rewrite Qu.
Qed.

(** *** Freed space *)

(** Giving back in two steps is giving back at once. *)
Lemma less_twice m n x : 0 <= m -> 0 <= n -> m + n < 2 ^ 63 -> 0 <= x < 2 ^ 63 -> negative_usage e = false ->
  less e n (less e m x) = less e (m + n) x.
Proof using.
  intros Hm Hn Hs Hx En. unfold less. rewrite En. cbn [orb].
  destruct (Z.leb_spec m x), (Z.leb_spec (m + n) x); try lia.
  - assert (Hi : i64 (x - m) = x - m) by (unfold i64; rewrite Z.mod_small; lia). rewrite Hi, (proj2 (Z.leb_le _ _)) by lia. f_equal. lia.
  - assert (Hi : i64 (x - m) = x - m) by (unfold i64; rewrite Z.mod_small; lia). rewrite Hi, (proj2 (Z.leb_gt _ _)) by lia. done.
  - destruct (Z.leb_spec n 0) as [Hz0|]; [|done]. replace n with 0 by lia. done.
Qed.

Definition without_space (bytes : Z) (u : Z * Z * Z) : Z * Z * Z := let '(i, s, r) := u in (i, less e bytes s, r).

(** The quotas of these types that the inode points to are relieved of the bytes. *)
Definition relieved (bytes : Z) (types : list Z) (q q' : quota) : Prop :=
  i_dquot q' = i_dquot q /\ held q' /\
  forall type id, usage e q' type id =
    if decide (type ∈ types /\ i_dquot q !! type = Some id) then without_space bytes (usage e q type id) else usage e q type id.

Lemma free_one_spec bytes q cnt : held q -> exists q', free_one e bytes q cnt = Ok q' /\ relieved bytes [cnt] q q'.
Proof using.
  intros Hh. unfold free_one. destruct (i_dquot q !! cnt) as [id|] eqn:Ei.
  - destruct (Hh cnt id Ei) as [dq Hd]. rewrite Hd. cbn [deref rbind]. eexists. split; [done|]. split; [done|].
    split; [intros type i H; apply put_in_memory; by apply Hh|]. intros type i. rewrite usage_put.
    transitivity (if decide ((type, i) = (cnt, id)) then usage_of (dquot_decr_space e bytes dq) else usage e q type i); [done|].
    rewrite decr_space_usage, <- (usage_in_memory q _ _ _ Hd). destruct (decide ((type, i) = (cnt, id))) as [E|E].
    + injection E as -> ->. rewrite decide_True; [done|]. split; [by left|done].
    + rewrite decide_False; [done|]. intros [->%list_elem_of_singleton Hi]. congruence.
  - exists q. split; [done|]. split; [done|]. split; [done|]. intros type id. rewrite decide_False; [done|].
    intros [->%list_elem_of_singleton Hi]. congruence.
Qed.

Lemma relieved_app bytes t1 t2 q1 q2 q3 : (forall c, c ∈ t1 -> c ∈ t2 -> False) ->
  relieved bytes t1 q1 q2 -> relieved bytes t2 q2 q3 -> relieved bytes (t1 ++ t2) q1 q3.
Proof using L.
  intros Hd (I1 & _ & U1) (I2 & H2 & U2). split; [congruence|]. split; [done|]. intros type id. rewrite U2, I1, U1.
  destruct (decide (i_dquot q1 !! type = Some id)) as [Ei|Ei]; [|by rewrite !decide_False by tauto].
  destruct (decide (type ∈ t1)) as [M1|M1], (decide (type ∈ t2)) as [M2|M2]; [by destruct (Hd type)|..].
  - rewrite (decide_False (P := type ∈ t2 /\ _)) by tauto. by rewrite !decide_True by set_solver.
  - rewrite (decide_True (P := type ∈ t2 /\ _)) by tauto. rewrite (decide_False (P := type ∈ t1 /\ _)) by tauto. by rewrite decide_True by set_solver.
  - by rewrite !decide_False by set_solver.
Qed.

Lemma free_space_spec bytes q : held q ->
  exists q', __dquot_free_space e bytes q = Ok q' /\ relieved bytes (if dquot_active e then quota_types else []) q q'.
Proof using L.
  intros Hh. unfold __dquot_free_space. destruct (dquot_active e); cbn [negb].
  - destruct (free_one_spec bytes q USRQUOTA Hh) as (q1 & -> & R1). cbn [rbind].
    destruct (free_one_spec bytes q1 GRPQUOTA (proj1 (proj2 R1))) as (q2 & -> & R2). cbn [rbind].
    destruct (free_one_spec bytes q2 PRJQUOTA (proj1 (proj2 R2))) as (q3 & -> & R3). exists q3. split; [done|].
    apply (relieved_app bytes [USRQUOTA] [GRPQUOTA; PRJQUOTA] q q1); [|done|apply (relieved_app bytes [GRPQUOTA] [PRJQUOTA] q1 q2); [|done|done]].
    + intros c ->%list_elem_of_singleton H. by repeat (apply elem_of_cons in H as [H|H]; [done|]); apply elem_of_nil in H.
    + intros c ->%list_elem_of_singleton H. by apply list_elem_of_singleton in H.
  - exists q. split; [done|]. split; [done|]. split; [done|]. intros type id. rewrite decide_False; [done|]. intros [H _]. by apply elem_of_nil in H.
Qed.
End Facts.
