(* ===== verification/Ext2InodeDisk.v ===== *)
(** * ext2: inodes on the disk

    The part of [fs/ext2/inode.c] that reads and writes the inodes in the inode tables
    ([ext2_get_inode], [ext2_iget], [__ext2_write_inode], [ext2_setattr]) and that takes an
    inode leave ([ext2_evict_inode], with [ext2_xattr_delete_inode] of [fs/ext2/xattr.c]).
    A block of an inode table is a sequence of bytes in the buffer cache or on the disk;
    the fields of [struct ext2_inode] are stored at their offsets.  User and group numbers
    are those of the initial namespace. *)

From S2P Require Import UserNs Groups.
From S2P Require Import Prelude CString ByteMem Ext2Layout Ext2Dir Ext2Super Ext2Inode Ext2Ialloc Ext2Namei.
From S2P Require Import Ext2Balloc Ext2BlockMap Dquot.

Definition EFSCORRUPTED : Z := 117.

(** ** The structure *)

(** The fields of [struct ext2_inode] with the parts for Linux of its unions; [r_dir_acl] is
    also the field [i_size_high]. *)
Inductive raw_field : Type :=
  | r_mode | r_uid_low | r_size | r_atime | r_ctime | r_mtime | r_dtime | r_gid_low | r_links_count | r_blocks
  | r_flags | r_reserved1 | r_block (k : nat) | r_generation | r_file_acl | r_dir_acl | r_faddr
  | r_frag | r_fsize | r_pad1 | r_uid_high | r_gid_high | r_reserved2.

#[export] Instance raw_field_eq_dec : EqDecision raw_field.
Proof. solve_decision. Defined.

Definition raw_inode : list (raw_field * nat) :=
  [(r_mode, 2); (r_uid_low, 2); (r_size, 4); (r_atime, 4); (r_ctime, 4); (r_mtime, 4); (r_dtime, 4); (r_gid_low, 2);
   (r_links_count, 2); (r_blocks, 4); (r_flags, 4); (r_reserved1, 4)]%nat
  ++ map (fun k => (r_block k, 4%nat)) (seq 0 EXT2_N_BLOCKS)
  ++ [(r_generation, 4); (r_file_acl, 4); (r_dir_acl, 4); (r_faddr, 4); (r_frag, 1); (r_fsize, 1); (r_pad1, 2);
      (r_uid_high, 2); (r_gid_high, 2); (r_reserved2, 4)]%nat.

Notation rd := (field raw_inode).

(** A store to a field; the value is cut to the width of the field. *)
Definition wr (f : raw_field) (v : Z) (bs : list byte) : list byte :=
  let o := offset_of raw_inode f in
  take o bs ++ le_encode (width_of raw_inode f) v ++ drop (o + width_of raw_inode f) bs.

(** The words of [i_data] as bytes, and back. *)
Definition bytes_of (d : list Z) : list byte := concat (map (le_encode 4) d).

Fixpoint words_of (n : nat) (bs : list byte) : list Z :=
  match n with O => [] | S n' => le_decode (take 4 bs) :: words_of n' (drop 4 bs) end.

(** ** The state *)

(** The fields of the superblock that these functions change. *)
Record es_fields : Type := Es {
  s_rev_level : Z; s_first_ino : Z; s_inode_size : Z; s_feature_ro_compat : Z; s_free_blocks_count : Z; s_free_inodes_count : Z; s_wtime : Z }.

(** An inode, the cached blocks of the inode tables and of attributes, and the superblock. *)
Record dstate : Type := DState { d_file : mstate; d_bufs : gmap Z (list byte); d_es : es_fields }.

Definition set_file x d := let 'DState _ b c := d in DState x b c.
Definition set_dbufs x d := let 'DState a _ c := d in DState a x c.
Definition set_es x d := let 'DState a b _ := d in DState a b x.

(** What the rest of the kernel answers. *)
Record disk_env : Type := DiskEnv {
  de_read : Z -> option (list byte);     (* a block that is not cached *)
  de_sync_ok : Z -> bool;                (* a synchronous write of the block succeeds *)
  get_seconds : Z;
  fs_high2lowuid : Z -> Z; fs_high2lowgid : Z -> Z;
  old_valid_dev : Z -> bool; old_encode_dev : Z -> Z; old_decode_dev : Z -> Z; new_encode_dev : Z -> Z; new_decode_dev : Z -> Z;
  nd_terminate_link : list byte -> Z -> Z -> list byte }.

Definition EXT2_GOOD_OLD_REV : Z := 0.
Definition EXT2_DYNAMIC_REV : Z := 1.
Definition EXT2_GOOD_OLD_FIRST_INO : Z := 11.
Definition EXT2_GOOD_OLD_INODE_SIZE : Z := 128.
Definition EXT2_FEATURE_RO_COMPAT_LARGE_FILE : Z := 2.
Definition EXT2_XATTR_MAGIC : Z := 3925999616.

Definition S_ISCHR (mode : Z) : bool := Z.land mode S_IFMT =? S_IFCHR.
Definition S_ISBLK (mode : Z) : bool := Z.land mode S_IFMT =? S_IFBLK.

Definition set_sbi (x : sbi) (d : dstate) : dstate :=
  let s := d_file d in set_file (set_blk (BState x (b_rsv (m_blk s)) (b_charged (m_blk s))) s) d.
Definition sbi_of (d : dstate) : sbi := b_sbi (m_blk (d_file d)).

(** [struct iattr]: a field that is not valid is [None]; [ia_set_times] is any of the bits
    for times that the caller sets. *)
Record iattr : Type := IAttr {
  ia_uid : option Z; ia_gid : option Z; ia_mode : option Z; ia_size : option Z; ia_atime : option Z; ia_mtime : option Z; ia_ctime : option Z;
  ia_force : bool; ia_set_times : bool; ia_kill_priv : bool }.

Definition with_ia_mode x t := let 'IAttr a b _ d e f g h i j := t in IAttr a b x d e f g h i j.

(** The extended attributes of an inode, by name. *)
Definition xattrs : Type := list (list byte * list byte).

(** What [ext2_setattr] changes: the inode with its blocks and tables, the quotas, and the
    extended attributes. *)
Record astate : Type := AState { a_disk : dstate; a_quota : quota; a_xattrs : xattrs }.

(** The caller of [ext2_setattr]: the credentials, the namespace and the capabilities of the
    task, its limit on the size of files, the state of quota, and the answers of the page
    cache; the security module and the access control lists change the extended attributes
    and return an error or 0. *)
Record attr_env : Type := AttrEnv {
  at_cred : cred; at_ns : user_namespace; at_capable : Z -> bool; rlimit_fsize : Z; s_maxbytes : Z; IS_SWAPFILE : inode -> bool;
  at_quota : quota_env; is_quota_modification : inode -> iattr -> bool;
  inode_killpriv : xattrs -> Z * xattrs; posix_acl_chmod : Z -> xattrs -> Z * xattrs; truncate_page : Z -> Z }.

Definition CAP_CHOWN : Z := 0.
Definition CAP_FOWNER : Z := 3.
Definition CAP_FSETID : Z := 4.
Definition ETXTBSY : Z := 26.
Definition EFBIG : Z := 27.
Definition RLIM_INFINITY : Z := 2 ^ 64 - 1.

(** [capable_wrt_inode_uidgid] of [kernel/capability.c] and [inode_owner_or_capable] of
    [fs/inode.c]. *)
Definition privileged_wrt_inode_uidgid (ns : user_namespace) (n : inode) : bool :=
  kuid_has_mapping ns (i_uid n) && kgid_has_mapping ns (i_gid n).
Definition capable_wrt_inode_uidgid (a : attr_env) (n : inode) (cap : Z) : bool :=
  at_capable a cap && privileged_wrt_inode_uidgid (at_ns a) n.
Definition inode_owner_or_capable (a : attr_env) (n : inode) : bool :=
  if UserNs.fsuid (at_cred a) =? i_uid n then true
  else kuid_has_mapping (at_ns a) (i_uid n) && at_capable a CAP_FOWNER.

(** [inode_newsize_ok] of [fs/attr.c]; the signal that goes with the first error is left out. *)
Definition inode_newsize_ok (a : attr_env) (n : inode) (offset : Z) : Z :=
  if i_size (core n) <? offset then
    if negb (rlimit_fsize a =? RLIM_INFINITY) && (rlimit_fsize a <? u64 offset) then - EFBIG
    else if s_maxbytes a <? offset then - EFBIG else 0
  else if IS_SWAPFILE a n then - ETXTBSY else 0.

Section DiskC.
Context (rb : rb_lib) (sb : sb_info) (blkbits : Z) (env : map_env) (dsk : disk_env).
Context (NO_UID32 : bool) (EXT2_INODE_SIZE : Z).

(** The contents of a block: from the cache or, if it is not there, from the disk. *)
Definition dbuf (d : dstate) (b : Z) : option (list byte) :=
  match d_bufs d !! b with Some c => Some c | None => de_read dsk b end.

(** ** The place of an inode *)

(** An error, or the block and the offset in it. *)
Definition ext2_get_inode (d : dstate) (ino : Z) : res ((Z + Z * Z) * dstate) :=
  if negb (ino =? EXT2_ROOT_INO) && (ino <? EXT2_FIRST_INO sb) || (es_inodes_count sb <? ino)
  then Ok (inl (- EINVAL), set_sbi (sb_report (BadInodeNumber ino) (sbi_of d)) d)
  else
    let block_group := (ino - 1) / EXT2_INODES_PER_GROUP sb in
    let* '(gdp, s) := ext2_get_group_desc sb (sbi_of d) block_group in
    let d := set_sbi s d in
    match gdp with
    | None => Ok (inl (- EIO), d)
    | Some gdp =>
        let offset := (ino - 1) mod EXT2_INODES_PER_GROUP sb * EXT2_INODE_SIZE in
        let block := gd_inode_table gdp + Z.shiftr offset blkbits in
        match dbuf d block with
        | None => Ok (inl (- EIO), set_sbi (sb_report (NoInodeBlock ino block) (sbi_of d)) d)
        | Some _ => Ok (inr (block, Z.land offset (EXT2_BLOCK_SIZE blkbits - 1)), d)
        end
    end.

(** The bytes from the inode on to the end of its block. *)
Definition raw_at (d : dstate) (block offset : Z) : res (list byte) :=
  let* bs := deref (dbuf d block) in
  if offset + Z.of_nat (size_of raw_inode) <=? len bs then Ok (drop (Z.to_nat offset) bs) else Undef OutOfBoundsRead.

Definition put_raw (block offset : Z) (raw : list byte) (d : dstate) : dstate :=
  let bs := default [] (dbuf d block) in
  set_dbufs (<[block := take (Z.to_nat offset) bs ++ raw]> (d_bufs d)) d.

(** ** Reading *)

(** The attributes that tell whether the inode is in use. *)
Definition read_attrs (raw : list byte) (n : inode) (i : inode_info) : inode * inode_info :=
  let uid := rd r_uid_low raw in
  let gid := rd r_gid_low raw in
  let uid := if NO_UID32 then uid else Z.lor uid (Z.shiftl (rd r_uid_high raw) 16) in
  let gid := if NO_UID32 then gid else Z.lor gid (Z.shiftl (rd r_gid_high raw) 16) in
  let c := core n in
  let c := Dir (i_ino c) (rd r_mode raw) (rd r_size raw) (i_blocks c) (i_version c) (i_flags c)
             (i32 (rd r_mtime raw)) (i32 (rd r_ctime raw)) (i_dir_start_lookup c) (i_dirty c) (i_pages c) (reports c) in
  (with_core c (with_nlink (rd r_links_count raw) (with_owner uid gid n)),
   InodeInfo (i_file_acl i) (i_dir_acl i) (rd r_dtime raw) (i_faddr i) (i_frag_no i) (i_frag_size i) (ei_new i) (i32 (rd r_atime raw))).

(** The operations of the inode by its type; a short symbolic link is in [i_data]. *)
Definition read_ops (raw : list byte) (s : mstate) : mstate :=
  let n := m_inode s in
  let mode := i_mode (core n) in
  let aops := if NOBH sb then ext2_nobh_aops else ext2_aops in
  if S_ISREG mode then set_inode (with_aops aops (with_op ext2_file_inode_operations n)) s
  else if S_ISDIR mode then set_inode (with_aops aops (with_op ext2_dir_inode_operations n)) s
  else if S_ISLNK mode then
    if ext2_inode_is_fast_symlink blkbits s then
      let target := nd_terminate_link dsk (bytes_of (i_data s)) (i_size (core n)) (4 * Z.of_nat EXT2_N_BLOCKS - 1) in
      set_idata (words_of EXT2_N_BLOCKS target)
        (set_inode (with_op ext2_fast_symlink_inode_operations (with_link (Some (c_str target)) n)) s)
    else set_inode (with_aops aops (with_op ext2_symlink_inode_operations n)) s
  else
    let rdev := if negb (rd (r_block 0) raw =? 0) then old_decode_dev dsk (rd (r_block 0) raw)
                else new_decode_dev dsk (rd (r_block 1) raw) in
    set_inode (init_special_inode rdev (with_op ext2_special_inode_operations n)) s.

(** The inode that [iget_locked] has made is filled in from [raw]. *)
Definition read_inode (ino : Z) (raw : list byte) (d : dstate) : Z * dstate :=
  let s := d_file d in
  let '(n, i) := read_attrs raw (m_inode s) (m_info s) in
  let fill n i s := set_info i (set_inode n s) in
  if (i_nlink n =? 0) && ((i_mode (core n) =? 0) || negb (i_dtime i =? 0)) then (- ESTALE, set_file (fill n i s) d)
  else
    let c := core n in
    let c := Dir (i_ino c) (i_mode c) (i_size c) (rd r_blocks raw) (i_version c) (rd r_flags raw)
               (i_mtime c) (i_ctime c) (i_dir_start_lookup c) (i_dirty c) (i_pages c) (reports c) in
    let n := with_core c n in
    let i := InodeInfo (rd r_file_acl raw) 0 (i_dtime i) (rd r_faddr raw) (rd r_frag raw) (rd r_fsize raw) (ei_new i) (i_atime i) in
    if negb (i_file_acl i =? 0) && negb (ext2_data_block_valid sb (i_file_acl i) 1)
    then (- EFSCORRUPTED, set_sbi (sb_report (BadXattrBlock (i_file_acl i)) (sbi_of d)) (set_file (fill n i s) d))
    else
      let reg := S_ISREG (i_mode c) in
      let size := if reg then i64 (Z.lor (i_size c) (Z.shiftl (rd r_dir_acl raw) 32)) else i_size c in
      let n := with_core (set_size size c) n in
      let i := InodeInfo (i_file_acl i) (if reg then 0 else rd r_dir_acl raw) (i_dtime i) (i_faddr i) (i_frag_no i) (i_frag_size i) (ei_new i) (i_atime i) in
      if size <? 0 then (- EFSCORRUPTED, set_file (fill n i s) d)
      else
        let 'Inode c a1 a2 a3 a4 a5 _ _ a8 a9 a10 a11 a12 := n in
        let n := Inode (with_lookup 0 c) a1 a2 a3 a4 a5 ((ino - 1) / EXT2_INODES_PER_GROUP sb) (rd r_generation raw) a8 a9 a10 a11 a12 in
        let i := InodeInfo (i_file_acl i) (i_dir_acl i) 0 (i_faddr i) (i_frag_no i) (i_frag_size i) false (i_atime i) in
        let s := set_idata (map (fun k => rd (r_block k) raw) (seq 0 EXT2_N_BLOCKS)) (fill n i s) in
        let s := read_ops raw s in
        (0, set_file (set_inode (unlock_new_inode (ext2_set_inode_flags (DAX sb) (m_inode s))) s) d).

(** The inode is marked as bad.  [iput] then drops it: a bad inode is not deleted, and it has
    no reservation. *)
Definition iget_failed (d : dstate) : dstate :=
  let s := d_file d in
  set_file (set_inode (unlock_new_inode (make_bad_inode (map_time env) (m_inode s))) s) d.

(** [d_file] is what [iget_locked] returns, unless it is null.  The blocks charged to the
    inode are counted from here on. *)
Definition ext2_iget (found : bool) (d : dstate) (ino : Z) : res (Z * dstate) :=
  if negb found then Ok (- ENOMEM, d)
  else if negb (i_new (m_inode (d_file d))) then Ok (0, d)
  else
    let s := d_file d in
    let w := b_rsv (m_blk s) in
    let w := RsvState (delete ino (rsv_nodes w)) (s_rsv_window_root w) (delete ino (last_alloc w)) in
    let d := set_file (set_blk (BState (b_sbi (m_blk s)) w (delete ino (b_charged (m_blk s)))) s) d in
    let* '(r, d) := ext2_get_inode d ino in
    match r with
    | inl err => Ok (err, iget_failed d)
    | inr (block, offset) =>
        let* raw := raw_at d block offset in
        let '(err, d) := read_inode ino raw d in
        Ok (err, if err =? 0 then d else iget_failed d)
    end.

(** ** Writing *)

(** The device of a special file, or the words of [i_data]. *)
Definition fill_blocks_raw (s : mstate) (raw : list byte) : list byte :=
  let n := m_inode s in
  if S_ISCHR (i_mode (core n)) || S_ISBLK (i_mode (core n)) then
    if old_valid_dev dsk (i_rdev n) then wr (r_block 1) 0 (wr (r_block 0) (old_encode_dev dsk (i_rdev n)) raw)
    else wr (r_block 2) 0 (wr (r_block 1) (new_encode_dev dsk (i_rdev n)) (wr (r_block 0) 0 raw))
  else fold_left (fun raw k => wr (r_block k) (default 0 (i_data s !! k)) raw) (seq 0 EXT2_N_BLOCKS) raw.

Definition fill_owner (s : mstate) (raw : list byte) : list byte :=
  let n := m_inode s in
  if negb NO_UID32 then
    let raw := wr r_gid_low (u16 (i_gid n)) (wr r_uid_low (u16 (i_uid n)) raw) in
    if i_dtime (m_info s) =? 0 then wr r_gid_high (u16 (Z.shiftr (i_gid n) 16)) (wr r_uid_high (u16 (Z.shiftr (i_uid n) 16)) raw)
    else wr r_gid_high 0 (wr r_uid_high 0 raw)
  else
    let raw := wr r_gid_low (fs_high2lowgid dsk (i_gid n)) (wr r_uid_low (fs_high2lowuid dsk (i_uid n)) raw) in
    wr r_gid_high 0 (wr r_uid_high 0 raw).

(** The stores of [__ext2_write_inode], in order. *)
Definition fill_raw (s : mstate) (raw : list byte) : list byte :=
  let n := m_inode s in
  let c := core n in
  let i := m_info s in
  let raw := if ei_new i then replicate (Z.to_nat EXT2_INODE_SIZE) NUL ++ drop (Z.to_nat EXT2_INODE_SIZE) raw else raw in
  let raw := fill_owner s (wr r_mode (i_mode c) raw) in
  let raw := wr r_size (i_size c) (wr r_links_count (i_nlink n) raw) in
  let raw := wr r_mtime (i_mtime c) (wr r_ctime (i_ctime c) (wr r_atime (i_atime i) raw)) in
  let raw := wr r_flags (i_flags c) (wr r_dtime (i_dtime i) (wr r_blocks (inode_blocks blkbits s) raw)) in
  let raw := wr r_fsize (i_frag_size i) (wr r_frag (i_frag_no i) (wr r_faddr (i_faddr i) raw)) in
  let raw := wr r_file_acl (i_file_acl i) raw in
  let raw := wr r_dir_acl (if S_ISREG (i_mode c) then Z.shiftr (i_size c) 32 else i_dir_acl i) raw in
  fill_blocks_raw s (wr r_generation (i_generation n) raw).

(** [ext2_update_dynamic_rev] and [ext2_sync_super] of [fs/ext2/super.c]. *)
Definition ext2_update_dynamic_rev (e : es_fields) : es_fields :=
  if EXT2_GOOD_OLD_REV <? s_rev_level e then e
  else Es EXT2_DYNAMIC_REV EXT2_GOOD_OLD_FIRST_INO EXT2_GOOD_OLD_INODE_SIZE (s_feature_ro_compat e) (s_free_blocks_count e) (s_free_inodes_count e) (s_wtime e).

Definition ext2_sync_super (d : dstate) : res dstate :=
  let* '(blocks, s) := ext2_count_free_blocks sb (sbi_of d) in
  let* '(inodes, s) := ext2_count_free_inodes sb s in
  let e := d_es d in
  Ok (set_es (Es (s_rev_level e) (s_first_ino e) (s_inode_size e) (s_feature_ro_compat e) (u32 blocks) (u32 inodes) (u32 (get_seconds dsk))) (set_sbi s d)).

(** The first file that is too large for old kernels. *)
Definition note_large_file (d : dstate) : res dstate :=
  let e := d_es d in
  if (Z.land (s_feature_ro_compat e) EXT2_FEATURE_RO_COMPAT_LARGE_FILE =? 0) || (s_rev_level e =? EXT2_GOOD_OLD_REV) then
    let e := ext2_update_dynamic_rev e in
    let e := Es (s_rev_level e) (s_first_ino e) (s_inode_size e) (Z.lor (s_feature_ro_compat e) EXT2_FEATURE_RO_COMPAT_LARGE_FILE)
               (s_free_blocks_count e) (s_free_inodes_count e) (s_wtime e) in
    ext2_sync_super (set_es e d)
  else Ok d.

Definition __ext2_write_inode (do_sync : bool) (d : dstate) : res (Z * dstate) :=
  let s := d_file d in
  let* '(r, d) := ext2_get_inode d (ino_of s) in
  match r with
  | inl _ => Ok (- EIO, d)
  | inr (block, offset) =>
      let* raw := raw_at d block offset in
      let c := core (m_inode s) in
      let* d := if S_ISREG (i_mode c) && (2 ^ 31 - 1 <? i_size c) then note_large_file d else Ok d in
      let d := put_raw block offset (fill_raw s raw) d in
      let i := m_info s in
      let i := InodeInfo (i_file_acl i) (i_dir_acl i) (i_dtime i) (i_faddr i) (i_frag_no i) (i_frag_size i) false (i_atime i) in
      Ok (if do_sync && negb (de_sync_ok dsk block) then - EIO else 0, set_file (set_info i (d_file d)) d)
  end.

Definition ext2_write_inode (sync_all : bool) (d : dstate) : res (Z * dstate) := __ext2_write_inode sync_all d.

(** ** Attributes *)

Definition chown_refused (a : attr_env) (n : inode) (t : iattr) : bool :=
  match ia_uid t with
  | Some uid => (negb (UserNs.fsuid (at_cred a) =? i_uid n) || negb (uid =? i_uid n)) && negb (capable_wrt_inode_uidgid a n CAP_CHOWN)
  | None => false
  end.

Definition chgrp_refused (a : attr_env) (n : inode) (t : iattr) : res bool :=
  match ia_gid t with
  | Some gid =>
      let* member := Groups.in_group_p (at_cred a) gid in
      Ok ((negb (UserNs.fsuid (at_cred a) =? i_uid n) || negb member && negb (gid =? i_gid n)) && negb (capable_wrt_inode_uidgid a n CAP_CHOWN))
  | None => Ok false
  end.

(** The mode without the group bit unless the task is in the group. *)
Definition clear_sgid (a : attr_env) (n : inode) (gid mode : Z) : res Z :=
  let* member := Groups.in_group_p (at_cred a) gid in
  Ok (if negb member && negb (capable_wrt_inode_uidgid a n CAP_FSETID) then Z.land mode (Z.lnot S_ISGID) else mode).

(** [setattr_prepare] of [fs/attr.c]: the error, and the attributes, from whose mode the
    group bit may have been taken away, and the extended attributes, from which the
    privileges may have been taken. *)
Definition setattr_prepare (a : attr_env) (n : inode) (t : iattr) (x : xattrs) : res (Z * iattr * xattrs) :=
  let error := match ia_size t with Some size => inode_newsize_ok a n size | None => 0 end in
  let kill_priv t := let '(error, x) := if ia_kill_priv t then inode_killpriv a x else (0, x) in Ok (error, t, x) in
  if negb (error =? 0) then Ok (error, t, x)
  else if ia_force t then kill_priv t
  else if chown_refused a n t then Ok (- EPERM, t, x)
  else
    let* refused := chgrp_refused a n t in
    if refused then Ok (- EPERM, t, x)
    else
      let others := ia_set_times t && negb (inode_owner_or_capable a n) in
      match ia_mode t with
      | Some mode =>
          if negb (inode_owner_or_capable a n) then Ok (- EPERM, t, x)
          else
            let* mode := clear_sgid a n (default (i_gid n) (ia_gid t)) mode in
            let t := with_ia_mode (Some mode) t in
            if others then Ok (- EPERM, t, x) else kill_priv t
      | None => if others then Ok (- EPERM, t, x) else kill_priv t
      end.

(** [setattr_copy] of [fs/attr.c]; times have no fractions of seconds. *)
Definition setattr_copy (a : attr_env) (t : iattr) (s : mstate) : res mstate :=
  let n := m_inode s in
  let n := with_owner (default (i_uid n) (ia_uid t)) (default (i_gid n) (ia_gid t)) n in
  let c := core n in
  let i := m_info s in
  let i := InodeInfo (i_file_acl i) (i_dir_acl i) (i_dtime i) (i_faddr i) (i_frag_no i) (i_frag_size i) (ei_new i) (default (i_atime i) (ia_atime t)) in
  let c := Dir (i_ino c) (i_mode c) (i_size c) (i_blocks c) (i_version c) (i_flags c)
             (default (i_mtime c) (ia_mtime t)) (default (i_ctime c) (ia_ctime t)) (i_dir_start_lookup c) (i_dirty c) (i_pages c) (reports c) in
  let n := with_core c n in
  let* mode := match ia_mode t with Some mode => clear_sgid a n (i_gid n) mode | None => Ok (i_mode c) end in
  Ok (set_info i (set_inode (with_core (with_mode mode c) n) s)).

(** [inode_get_bytes] of [fs/stat.c]; ext2 has only whole sectors. *)
Definition inode_get_bytes (s : mstate) : Z := i64 (Z.shiftl (inode_blocks blkbits s) 9).

(** The owner or the group is asked to change. *)
Definition owner_changes (n : inode) (t : iattr) : bool :=
  match ia_uid t with Some uid => negb (uid =? i_uid n) | None => false end ||
  match ia_gid t with Some gid => negb (gid =? i_gid n) | None => false end.

(** [ext2_free_blocks] gives the quota of the blocks back as it frees them; here it is given
    back at once, which comes to the same ([less_twice]). *)
Definition give_back (qe : quota_env) (freed : Z) (q : quota) : res quota :=
  if freed =? 0 then Ok q else __dquot_free_space qe freed q.

Definition ext2_setattr (a : attr_env) (t : iattr) (x : astate) : res (Z * astate) :=
  let s := d_file (a_disk x) in
  let n := m_inode s in
  let qe := at_quota a in
  let* '(error, t, xa) := setattr_prepare a n t (a_xattrs x) in
  if negb (error =? 0) then Ok (error, AState (a_disk x) (a_quota x) xa)
  else
    let* '(error, q) := if is_quota_modification a n t then Dquot.dquot_initialize qe (i_uid n) (i_gid n) (a_quota x) else Ok (0, a_quota x) in
    if negb (error =? 0) then Ok (error, AState (a_disk x) q xa)
    else
      let* '(error, q) := if owner_changes n t then dquot_transfer qe (ia_uid t) (ia_gid t) (i_uid n) (i_gid n) (inode_get_bytes s) q else Ok (0, q) in
      if negb (error =? 0) then Ok (error, AState (a_disk x) q xa)
      else
        let* '(error, s') := match ia_size t with
          | Some size => if negb (size =? i_size (core n)) then ext2_setsize rb sb blkbits env (truncate_page a) size s else Ok (0, s)
          | None => Ok (0, s)
          end in
        let* q := give_back qe (inode_get_bytes s - inode_get_bytes s') q in
        if negb (error =? 0) then Ok (error, AState (set_file s' (a_disk x)) q xa)
        else
          let* s' := setattr_copy a t s' in
          let '(error, xa) := match ia_mode t with Some _ => posix_acl_chmod a (i_mode (core (m_inode s'))) xa | None => (0, xa) end in
          Ok (error, AState (set_file (dirty_inode s') (a_disk x)) q xa).

(** ** Eviction *)

Definition h_magic (bs : list byte) : Z := le_decode (take 4 bs).
Definition h_refcount (bs : list byte) : Z := le_decode (take 4 (drop 4 bs)).
Definition h_blocks (bs : list byte) : Z := le_decode (take 4 (drop 8 bs)).

Definition with_file_acl (x : Z) (i : inode_info) : inode_info :=
  InodeInfo x (i_dir_acl i) (i_dtime i) (i_faddr i) (i_frag_no i) (i_frag_size i) (ei_new i) (i_atime i).
Definition with_dtime (x : Z) (i : inode_info) : inode_info :=
  InodeInfo (i_file_acl i) (i_dir_acl i) x (i_faddr i) (i_frag_no i) (i_frag_size i) (ei_new i) (i_atime i).

(** [ext2_xattr_delete_inode] of [fs/ext2/xattr.c]: the block of attributes may be shared. *)
Definition ext2_xattr_delete_inode (d : dstate) : res dstate :=
  let s := d_file d in
  let acl := i_file_acl (m_info s) in
  let report e := Ok (set_sbi (sb_report e (sbi_of d)) d) in
  if acl =? 0 then Ok d
  else if negb (ext2_data_block_valid sb acl 0) then report (XattrOutOfRange (ino_of s) acl)
  else
    match dbuf d acl with
    | None => report (ReadFailure (ino_of s) acl)
    | Some bs =>
        if negb (h_magic bs =? EXT2_XATTR_MAGIC) || negb (h_blocks bs =? 1) then report (BadXattrBlock acl)
        else
          let* '(s, bufs) :=
            if h_refcount bs =? 1 then
              let* s := free_blocks sb s acl 1 in Ok (s, delete acl (d_bufs d))
            else
              let bs := take 4 bs ++ le_encode 4 (h_refcount bs - 1) ++ drop 8 bs in
              Ok (set_blk (charge (ino_of s) (-1) (m_blk s)) s, <[acl := bs]> (d_bufs d)) in
          Ok (set_dbufs bufs (set_file (set_info (with_file_acl 0 (m_info s)) s) d))
    end.

(** [ext2_discard_reservation], and the reservation itself is freed. *)
Definition drop_reservation (s : mstate) : res mstate :=
  let* w := ext2_discard_reservation rb (ino_of s) (b_rsv (m_blk s)) in
  let w := RsvState (delete (ino_of s) (rsv_nodes w)) (s_rsv_window_root w) (delete (ino_of s) (last_alloc w)) in
  Ok (set_blk (BState (b_sbi (m_blk s)) w (b_charged (m_blk s))) s).

(** The last reference to the inode is gone.  Its pages are dropped; buffers that are still
    dirty stay so, on nobody's list. *)
Definition ext2_evict_inode (d : dstate) : res dstate :=
  let n := m_inode (d_file d) in
  let want_delete := (i_nlink n =? 0) && negb (is_bad_inode n) in
  let* d :=
    if want_delete then
      let s := dirty_inode (set_info (with_dtime (u32 (get_seconds dsk)) (m_info (d_file d))) (d_file d)) in
      let* '(_, d) := __ext2_write_inode (inode_needs_sync env (m_inode s)) (set_file s d) in
      let s := d_file d in
      let s := set_inode (with_core (set_size 0 (core (m_inode s))) (m_inode s)) s in
      let* s := if negb (inode_blocks blkbits s =? 0) then ext2_truncate_blocks rb sb blkbits env 0 s else Ok s in
      ext2_xattr_delete_inode (set_file s d)
    else Ok d in
  let* s := drop_reservation (d_file d) in
  let d := set_file s d in
  if want_delete then let* x := ext2_free_inode sb (sbi_of d) (m_inode s) in Ok (set_sbi x d) else Ok d.
End DiskC.
