(* ===== verification/Ext2InodeDiskFacts.v ===== *)
(** * ext2: lemmas about inodes on the disk

    A store to one field of a structure leaves the others; the fields of an inode that has
    been written are those of the inode in memory, cut to their widths; and the inodes of
    the tables do not overlap. *)

From S2P Require Import Prelude CString ByteMem Ext2Layout Ext2Dir Ext2Super Ext2Inode Ext2Ialloc Ext2IallocFacts Ext2Namei.
From S2P Require Import Ext2Balloc Ext2BallocBits Ext2BallocRsv Ext2BallocGroup Ext2BallocFacts Ext2BallocAlloc Ext2BallocFree Ext2BallocTheorems.
From S2P Require Import Ext2BlockMap Ext2InodeDisk.

(** ** Fields *)

Lemma le_decode_mod n z : le_decode (le_encode n z) = z mod 256 ^ Z.of_nat n.
Proof.
  revert z. induction n as [|n IH]; intros z; [simpl; by rewrite Z.mod_1_r|]. cbn [le_encode le_decode]. rewrite b2z_z2b, IH.
  rewrite Nat2Z.inj_succ, Z.pow_succ_r by lia. rewrite Z.rem_mul_r by lia. lia.
Qed.

Section Fields.
Context {F : Type} `{EqDecision F}.
Implicit Types (L : list (F * nat)) (f g : F).

Lemma field_end L f : f ∈ L.*1 -> (offset_of L f + width_of L f <= size_of L)%nat.
Proof.
  induction L as [|[g w] L IH]; simpl; [by intros ?%not_elem_of_nil|]. intros Hin. unfold size_of in *. simpl. case_decide as E; [lia|].
  apply elem_of_cons in Hin as [->|Hin]; [done|]. specialize (IH Hin). lia.
Qed.

Lemma fields_apart L f g : f <> g -> f ∈ L.*1 -> g ∈ L.*1 ->
  (offset_of L f + width_of L f <= offset_of L g)%nat \/ (offset_of L g + width_of L g <= offset_of L f)%nat.
Proof.
  intros Hne. induction L as [|[h w] L IH]; simpl; [by intros ?%not_elem_of_nil|]. rewrite !elem_of_cons. intros Hf Hg.
  repeat case_decide; subst; [done|lia|lia|]. destruct Hf as [|Hf], Hg as [|Hg]; try done. specialize (IH Hf Hg). lia.
Qed.
End Fields.

Lemma slice_same {A} (l e : list A) o : (o <= length l)%nat -> take (length e) (drop o (take o l ++ e ++ drop (o + length e) l)) = e.
Proof.
  intros Ho. rewrite drop_app_ge by (rewrite length_take; lia). rewrite length_take, Nat.min_l by lia. rewrite Nat.sub_diag. apply take_app_length.
Qed.

Lemma slice_apart {A} (l e : list A) o w o' : (o' + length e <= length l)%nat -> (o + w <= o')%nat \/ (o' + length e <= o)%nat ->
  take w (drop o (take o' l ++ e ++ drop (o' + length e) l)) = take w (drop o l).
Proof.
  intros Hl [H|H].
  - rewrite drop_app_le by (rewrite length_take; lia). rewrite take_app_le by (rewrite length_drop, length_take; lia).
    rewrite !take_drop_commute, take_take. do 2 f_equal. lia.
  - rewrite drop_app_ge, drop_app_ge by (rewrite ?length_take; lia). rewrite length_take, drop_drop. do 2 f_equal. lia.
Qed.

(** A field of the inode: the block pointers are fifteen. *)
Definition is_field (f : raw_field) : Prop := match f with r_block k => (k < EXT2_N_BLOCKS)%nat | _ => True end.

Lemma is_field_elem f : is_field f -> f ∈ raw_inode.*1.
Proof.
  intros Hf. destruct f; try (unfold raw_inode; simpl; set_solver). simpl in Hf. unfold raw_inode. rewrite !fmap_app. apply elem_of_app. right.
  apply elem_of_app. left. rewrite list_elem_of_fmap. exists (r_block k, 4%nat). split; [done|]. rewrite list_elem_of_fmap. exists k. split; [done|].
  apply elem_of_seq. lia.
Qed.

Definition fwidth (f : raw_field) : Z := 256 ^ Z.of_nat (width_of raw_inode f).

Notation RAW := (size_of raw_inode).

(** The bytes from an inode on, [n] of them. *)
Definition raw_of (n : nat) (bs : list byte) : Prop := (RAW <= n)%nat /\ length bs = n.

Lemma raw_of_wr n f v bs : is_field f -> raw_of n bs -> raw_of n (wr f v bs).
Proof.
  intros Hf [Hn Hl]. split; [done|]. pose proof (field_end raw_inode f (is_field_elem f Hf)).
  unfold wr. rewrite !length_app, length_take, length_le_encode, length_drop. lia.
Qed.

Lemma rd_wr_same n f v bs : is_field f -> raw_of n bs -> rd f (wr f v bs) = v mod fwidth f.
Proof.
  intros Hf [Hn Hl]. pose proof (field_end raw_inode f (is_field_elem f Hf)). unfold field, wr.
  rewrite <- (length_le_encode (width_of raw_inode f) v) at 1 3. rewrite slice_same by lia. apply le_decode_mod.
Qed.

Lemma rd_wr_ne n f g v bs : is_field f -> is_field g -> raw_of n bs -> f <> g -> rd f (wr g v bs) = rd f bs.
Proof.
  intros Hf Hg [Hn Hl] Hne. pose proof (field_end raw_inode g (is_field_elem g Hg)). unfold field, wr.
  rewrite <- (length_le_encode (width_of raw_inode g) v) at 2. rewrite slice_apart; [done|rewrite length_le_encode; lia|]. rewrite length_le_encode.
  destruct (fields_apart raw_inode f g Hne (is_field_elem f Hf) (is_field_elem g Hg)); lia.
Qed.

(** ** The fields of an inode that has been written *)

Ltac raw_is := first [done|simpl; unfold EXT2_N_BLOCKS; lia].
Ltac raw_len := repeat (apply raw_of_wr; [raw_is|]); try eassumption.
Ltac raw_field := repeat first
  [erewrite rd_wr_same; [|raw_is|solve [raw_len]]
  |erewrite rd_wr_ne; [|raw_is|raw_is|solve [raw_len]|discriminate]].

Lemma block_width k : (k < EXT2_N_BLOCKS)%nat -> fwidth (r_block k) = 2 ^ 32.
Proof. intros Hk. unfold EXT2_N_BLOCKS in Hk. do 15 (destruct k as [|k]; [done|]). lia. Qed.

Section Fill.
Context (blkbits : Z) (dsk : disk_env) (NO_UID32 : bool) (isize : Z).
Notation fill_owner := (fill_owner dsk NO_UID32).
Notation fill_blocks_raw := (fill_blocks_raw dsk).
Notation fill_raw := (fill_raw blkbits dsk NO_UID32 isize).

Lemma fill_owner_length l s raw : raw_of l raw -> raw_of l (fill_owner s raw).
Proof. intros H. unfold Ext2InodeDisk.fill_owner. destruct NO_UID32, (i_dtime (m_info s) =? 0); cbn [negb]; raw_len. Qed.

Definition owner_field (f : raw_field) : bool :=
  match f with r_uid_low | r_gid_low | r_uid_high | r_gid_high => true | _ => false end.

Lemma fill_owner_other l s raw f : raw_of l raw -> is_field f -> owner_field f = false -> rd f (fill_owner s raw) = rd f raw.
Proof.
  intros H Hf Ho. assert (Hne : forall g, owner_field g = true -> f <> g) by (intros g Hg ->; congruence). unfold Ext2InodeDisk.fill_owner.
  destruct NO_UID32, (i_dtime (m_info s) =? 0); cbn [negb]; repeat (erewrite rd_wr_ne; [|done|done|solve [raw_len]|by apply Hne]); done.
Qed.

(** The words of [i_data]. *)
Lemma fill_words_rd n (v : nat -> Z) l : forall raw f, raw_of n raw -> is_field f -> NoDup l -> (forall k, k ∈ l -> is_field (r_block k)) ->
  let raw' := fold_left (fun raw k => wr (r_block k) (v k) raw) l raw in
  raw_of n raw' /\ ((forall k, k ∈ l -> f <> r_block k) -> rd f raw' = rd f raw) /\
  (forall k, k ∈ l -> rd (r_block k) raw' = v k mod 2 ^ 32).
Proof.
  induction l as [|j l IH]; intros raw f Hl Hf Hnd Hin; cbn [fold_left]; [split_and!; try done; by intros k ?%not_elem_of_nil|].
  apply NoDup_cons in Hnd as [Hj Hnd]. assert (Hfj : is_field (r_block j)) by (apply Hin; left).
  assert (Hlw : raw_of n (wr (r_block j) (v j) raw)) by by apply raw_of_wr.
  destruct (IH (wr (r_block j) (v j) raw) f Hlw Hf Hnd) as (H1 & H2 & H3); [intros k Hk; apply Hin; by right|].
  split_and!; [done| |].
  - intros Hne. rewrite H2 by (intros k Hk; apply Hne; by right). apply (rd_wr_ne n); [done..|]. apply Hne. left.
  - intros k Hk. destruct (decide (k = j)) as [->|Hkj].
    + destruct (IH (wr (r_block j) (v j) raw) (r_block j) Hlw Hfj Hnd) as (_ & H4 & _); [intros k Hk'; apply Hin; by right|].
      rewrite H4 by (intros k' Hk' [= ->]; done). rewrite (rd_wr_same n) by done. by rewrite block_width.
    + apply H3. apply elem_of_cons in Hk as [|]; done.
Qed.

Lemma data_words n s raw f : raw_of n raw -> is_field f ->
  let raw' := fold_left (fun raw k => wr (r_block k) (default 0 (i_data s !! k)) raw) (seq 0 EXT2_N_BLOCKS) raw in
  raw_of n raw' /\ ((forall k, f <> r_block k) -> rd f raw' = rd f raw) /\
  (forall k, (k < EXT2_N_BLOCKS)%nat -> rd (r_block k) raw' = default 0 (i_data s !! k) mod 2 ^ 32).
Proof.
  intros H Hf. destruct (fill_words_rd n (fun k => default 0 (i_data s !! k)) (seq 0 EXT2_N_BLOCKS) raw f H Hf) as (H1 & H2 & H3); [apply NoDup_seq| |].
  - intros k Hk%elem_of_seq. simpl. lia.
  - split_and!; [done|intros Hne; apply H2; done|]. intros k Hk. apply H3, elem_of_seq. lia.
Qed.

Definition is_special (s : mstate) : bool := S_ISCHR (i_mode (core (m_inode s))) || S_ISBLK (i_mode (core (m_inode s))).

Lemma fill_blocks_length l s raw : raw_of l raw -> raw_of l (fill_blocks_raw s raw).
Proof.
  intros H. unfold Ext2InodeDisk.fill_blocks_raw. fold (is_special s). destruct (is_special s); [destruct (old_valid_dev dsk _); raw_len|].
  by apply (data_words l s raw r_mode).
Qed.

Lemma fill_blocks_other l s raw f : raw_of l raw -> is_field f -> (forall k, f <> r_block k) -> rd f (fill_blocks_raw s raw) = rd f raw.
Proof.
  intros H Hf Hne. unfold Ext2InodeDisk.fill_blocks_raw. fold (is_special s). destruct (is_special s).
  - destruct (old_valid_dev dsk _); repeat (erewrite rd_wr_ne; [|done|raw_is|solve [raw_len]|done]); done.
  - by apply (data_words l s raw f).
Qed.

(** What the words of the block pointers hold. *)
Definition block_image (s : mstate) (k : nat) : option Z :=
  if is_special s then
    if old_valid_dev dsk (i_rdev (m_inode s)) then
      match k with 0%nat => Some (old_encode_dev dsk (i_rdev (m_inode s))) | 1%nat => Some 0 | _ => None end
    else match k with 0%nat => Some 0 | 1%nat => Some (new_encode_dev dsk (i_rdev (m_inode s))) | 2%nat => Some 0 | _ => None end
  else Some (default 0 (i_data s !! k)).

Lemma fill_blocks_rd l s raw k v : raw_of l raw -> (k < EXT2_N_BLOCKS)%nat -> block_image s k = Some v ->
  rd (r_block k) (fill_blocks_raw s raw) = v mod 2 ^ 32.
Proof.
  intros H Hk. unfold block_image, Ext2InodeDisk.fill_blocks_raw. fold (is_special s). destruct (is_special s).
  - destruct (old_valid_dev dsk _); (destruct k as [|[|[|k]]]; [| | |done]); intros [= <-]; raw_field; done.
  - intros [= <-]. by apply (data_words l s raw r_mode).
Qed.

(** What every field holds. *)
Definition image (s : mstate) (f : raw_field) : option Z :=
  let n := m_inode s in
  let c := core n in
  let i := m_info s in
  let high x := if NO_UID32 || negb (i_dtime i =? 0) then 0 else u16 (Z.shiftr x 16) in
  match f with
  | r_mode => Some (i_mode c) | r_size => Some (i_size c) | r_atime => Some (i_atime i) | r_ctime => Some (i_ctime c) | r_mtime => Some (i_mtime c)
  | r_dtime => Some (i_dtime i) | r_links_count => Some (i_nlink n) | r_blocks => Some (inode_blocks blkbits s) | r_flags => Some (i_flags c)
  | r_block k => block_image s k
  | r_generation => Some (i_generation n) | r_file_acl => Some (i_file_acl i)
  | r_dir_acl => Some (if S_ISREG (i_mode c) then Z.shiftr (i_size c) 32 else i_dir_acl i)
  | r_faddr => Some (i_faddr i) | r_frag => Some (i_frag_no i) | r_fsize => Some (i_frag_size i)
  | r_uid_low => Some (if NO_UID32 then fs_high2lowuid dsk (i_uid n) else u16 (i_uid n))
  | r_gid_low => Some (if NO_UID32 then fs_high2lowgid dsk (i_gid n) else u16 (i_gid n))
  | r_uid_high => Some (high (i_uid n)) | r_gid_high => Some (high (i_gid n))
  | r_reserved1 | r_pad1 | r_reserved2 => None
  end.

Lemma fill_owner_rd l s raw f v : raw_of l raw -> owner_field f = true -> image s f = Some v -> rd f (fill_owner s raw) = v mod fwidth f.
Proof.
  intros H Hf Hv. unfold image in Hv. unfold Ext2InodeDisk.fill_owner. destruct f; try done; injection Hv as <-;
    destruct NO_UID32, (i_dtime (m_info s) =? 0); cbn [negb orb]; raw_field; done.
Qed.

(** A new inode starts with zeroes. *)
Lemma zeroed_length l (b : bool) raw : raw_of l raw -> (Z.to_nat isize <= l)%nat ->
  raw_of l (if b then replicate (Z.to_nat isize) NUL ++ drop (Z.to_nat isize) raw else raw).
Proof. intros [H1 H2] Hi. split; [done|]. destruct b; [rewrite length_app, length_replicate, length_drop; lia|done]. Qed.

Lemma fill_raw_length l s raw : raw_of l raw -> (Z.to_nat isize <= l)%nat -> raw_of l (fill_raw s raw).
Proof.
  intros H Hi. unfold Ext2InodeDisk.fill_raw. pose proof (zeroed_length l (ei_new (m_info s)) raw H Hi) as H0.
  apply fill_blocks_length. raw_len. apply fill_owner_length. raw_len.
Qed.

Lemma fill_raw_rd l s raw f v : raw_of l raw -> (Z.to_nat isize <= l)%nat -> is_field f -> image s f = Some v ->
  rd f (fill_raw s raw) = v mod fwidth f.
Proof.
  intros H Hi Hf Hv. unfold Ext2InodeDisk.fill_raw. pose proof (zeroed_length l (ei_new (m_info s)) raw H Hi) as H0.
  set (raw0 := if ei_new _ then _ else raw) in *. clearbody raw0. set (rawm := wr r_mode _ raw0). assert (Hm0 : raw_of l rawm) by (unfold rawm; raw_len).
  set (raw1 := fill_owner s rawm). assert (H1 : raw_of l raw1) by by apply fill_owner_length.
  assert (Hm : rd r_mode raw1 = i_mode (core (m_inode s)) mod fwidth r_mode).
  { unfold raw1. erewrite fill_owner_other by done. unfold rawm. raw_field. done. }
  assert (Ho : owner_field f = true -> rd f raw1 = v mod fwidth f) by (intros Ho; by apply (fill_owner_rd l)).
  clearbody raw1. destruct f; cbn [image] in Hv; try discriminate Hv;
    try (erewrite fill_blocks_other; [|solve [raw_len]|done|done]; raw_field; first [by apply Ho|by injection Hv as <-]).
  erewrite (fill_blocks_rd l); [|raw_len|done|done]. by rewrite block_width.
Qed.

(** The bytes after the inode stay. *)
Definition raw_tail (l : nat) (t raw : list byte) : Prop := raw_of l raw /\ drop (Z.to_nat isize) raw = t.

Section Tail.
Context (Hsize : (RAW <= Z.to_nat isize)%nat).

Lemma raw_tail_wr l t f v raw : is_field f -> raw_tail l t raw -> raw_tail l t (wr f v raw).
Proof using Hsize.
  intros Hf [[Hl Hr] Ht]. split; [by apply raw_of_wr|]. pose proof (field_end raw_inode f (is_field_elem f Hf)). unfold wr. rewrite <- Ht.
  rewrite drop_app_ge, drop_app_ge by (rewrite ?length_take, ?length_le_encode; lia). rewrite length_take, length_le_encode, drop_drop. f_equal. lia.
Qed.

Lemma fill_raw_tail l t s raw : (Z.to_nat isize <= l)%nat -> raw_tail l t raw -> raw_tail l t (fill_raw s raw).
Proof using Hsize.
  intros Hi [Hr Ht]. unfold Ext2InodeDisk.fill_raw. set (raw0 := if ei_new _ then _ else raw).
  assert (H0 : raw_tail l t raw0).
  { split; [by apply zeroed_length|]. unfold raw0. destruct (ei_new _); [|done].
    rewrite drop_app_ge by (rewrite length_replicate; lia). by rewrite length_replicate, Nat.sub_diag. }
  clearbody raw0. assert (Ho : forall raw, raw_tail l t raw -> raw_tail l t (fill_owner s raw)).
  { clear -Hsize. intros raw H. unfold Ext2InodeDisk.fill_owner. destruct NO_UID32, (i_dtime (m_info s) =? 0); cbn [negb]; repeat (apply raw_tail_wr; [done|]); done. }
  assert (Hb : forall raw, raw_tail l t raw -> raw_tail l t (fill_blocks_raw s raw)).
  { clear -Hsize. intros raw H. unfold Ext2InodeDisk.fill_blocks_raw. destruct (_ || _).
    - destruct (old_valid_dev dsk _); repeat (apply raw_tail_wr; [raw_is|]); done.
    - assert (Hin : Forall (fun k => k < EXT2_N_BLOCKS)%nat (seq 0 EXT2_N_BLOCKS)) by (apply Forall_seq; lia). revert raw H.
      induction Hin as [|k ks Hk _ IH]; intros raw H; cbn [fold_left]; [done|]. apply IH. by apply raw_tail_wr. }
  apply Hb. repeat (apply raw_tail_wr; [done|]). apply Ho. by apply raw_tail_wr.
Qed.
End Tail.
End Fill.
