(* ===== verification/Ext2InodeWrite.v ===== *)
(** * ext2: the inode tables

    Where the inodes are on the disk: [ext2_get_inode] finds every inode in the table of
    its group, and the bytes of different inodes do not overlap.  [__ext2_write_inode] fills
    in the bytes of its inode, and those of every other inode stay. *)

From S2P Require Import Prelude CString ByteMem Ext2Layout Ext2Dir Ext2Super Ext2Inode Ext2Ialloc Ext2IallocFacts Ext2Namei.
From S2P Require Import Ext2Balloc Ext2BallocBits Ext2BallocRsv Ext2BallocGroup Ext2BallocFacts Ext2BallocAlloc Ext2BallocFree Ext2BallocTheorems.
From S2P Require Import Ext2BlockMap Ext2BlockPath Ext2InodeDisk Ext2InodeDiskFacts.

(** Inodes have a power of two of bytes, and a table has room for those of its group. *)
Class DiskWf (sb : sb_info) (blkbits isize : Z) : Prop := {
  dw_size : exists k, 7 <= k <= blkbits /\ isize = 2 ^ k;
  dw_table : EXT2_INODES_PER_GROUP sb * isize <= s_itb_per_group sb * 2 ^ blkbits }.

Section Place.
Context (sb : sb_info) {W : SbWf sb} {B : BlkWf sb} (blkbits isize : Z) {G : MapWf blkbits} {D : DiskWf sb blkbits isize} (dsk : disk_env).
Notation ngroups := (s_groups_count sb).
Notation ipg := (EXT2_INODES_PER_GROUP sb).
Notation dbuf := (dbuf dsk).
Notation ext2_get_inode := (ext2_get_inode sb blkbits dsk isize).

Definition is_inode (ino : Z) : Prop := (ino = EXT2_ROOT_INO \/ EXT2_FIRST_INO sb <= ino) /\ 1 <= ino <= ngroups * ipg.

(** The tables are in the groups and can be read. *)
Record tables_ok (d : dstate) : Prop := {
  tb_blocks : balloc_ok sb (sbi_of d);
  tb_inodes : ialloc_ok sb (sbi_of d);
  tb_read g gd x : 0 <= g < ngroups -> desc_at sb (sbi_of d) g = Some gd -> gd_inode_table gd <= x < gd_inode_table gd + s_itb_per_group sb ->
    exists bs, dbuf d x = Some bs /\ Z.of_nat (length bs) = 2 ^ blkbits }.

(** The block and the offset of an inode, by the start of its table. *)
Definition place_block (table ino : Z) : Z := table + (ino - 1) mod ipg * isize / 2 ^ blkbits.
Definition place_off (ino : Z) : Z := (ino - 1) mod ipg * isize mod 2 ^ blkbits.

Lemma block_bytes : EXT2_BLOCK_SIZE blkbits = 2 ^ blkbits /\ 2 ^ 10 <= 2 ^ blkbits.
Proof using G.
  pose proof blkbits_range. unfold EXT2_BLOCK_SIZE. rewrite Z.shiftl_mul_pow2, Z.mul_1_l by lia. split; [done|]. apply Z.pow_le_mono_r; lia.
Qed.

Lemma isize_facts : 128 <= isize /\ exists m, 1 <= m /\ 2 ^ blkbits = m * isize.
Proof using D.
  destruct (dw_size (sb := sb)) as (k & Hk & ->). split; [change 128 with (2 ^ 7); apply Z.pow_le_mono_r; lia|].
  exists (2 ^ (blkbits - k)). split; [assert (0 < 2 ^ (blkbits - k)) by (apply Z.pow_pos_nonneg; lia); lia|]. rewrite <- Z.pow_add_r by lia. f_equal. lia.
Qed.

(** An inode does not cross the end of its block. *)
Lemma place_fits ino : 0 <= place_off ino /\ place_off ino + isize <= 2 ^ blkbits /\ exists j, place_off ino = j * isize.
Proof using D G.
  destruct isize_facts as (Hi & m & Hm & Eb). destruct block_bytes as [_ Hb]. unfold place_off. rewrite Eb. rewrite (Z.mul_comm m isize), (Z.mul_comm _ isize).
  rewrite Z.mul_mod_distr_l by lia. pose proof (Z.mod_pos_bound ((ino - 1) mod ipg) m ltac:(lia)). split_and!; [nia|nia|]. eexists. apply Z.mul_comm.
Qed.

Lemma place_in_table table ino : 1 <= ino -> table <= place_block table ino < table + s_itb_per_group sb.
Proof using D G W.
  intros Hino. unfold place_block. destruct isize_facts as (Hi & _). destruct block_bytes as [_ Hb]. pose proof (wf_inodes (sb := sb)).
  pose proof (Z.mod_pos_bound (ino - 1) ipg ltac:(lia)) as Hm. pose proof (dw_table (sb := sb) (blkbits := blkbits) (isize := isize)) as Ht.
  assert (0 <= (ino - 1) mod ipg * isize / 2 ^ blkbits < s_itb_per_group sb); [|lia]. split; [apply Z.div_pos; nia|]. apply Z.div_lt_upper_bound; nia.
Qed.

Lemma inode_desc d ino : tables_ok d -> is_inode ino ->
  exists gd, 0 <= (ino - 1) / ipg < ngroups /\ desc_at sb (sbi_of d) ((ino - 1) / ipg) = Some gd /\ ext2_get_group_desc sb (sbi_of d) ((ino - 1) / ipg) = Ok (Some gd, sbi_of d).
Proof using W B.
  intros Hd [_ Hi]. destruct (ino_group sb ino Hi) as [Hg _]. destruct (io_group sb _ (tb_inodes d Hd) _ Hg) as (gd & b & Hgo).
  exists gd. split; [done|]. split; [apply Hgo|]. by eapply (group_get sb).
Qed.

Lemma set_sbi_id d : set_sbi (sbi_of d) d = d.
Proof using. by destruct d as [[? ? ? ? ? ? []] ]. Qed.

Lemma get_inode_ok d ino : tables_ok d -> is_inode ino ->
  exists gd bs, desc_at sb (sbi_of d) ((ino - 1) / ipg) = Some gd /\ 0 <= (ino - 1) / ipg < ngroups /\
    ext2_get_inode d ino = Ok (inr (place_block (gd_inode_table gd) ino, place_off ino), d) /\
    dbuf d (place_block (gd_inode_table gd) ino) = Some bs /\ Z.of_nat (length bs) = 2 ^ blkbits /\
    raw_at dsk d (place_block (gd_inode_table gd) ino) (place_off ino) = Ok (drop (Z.to_nat (place_off ino)) bs) /\
    raw_of (length bs - Z.to_nat (place_off ino)) (drop (Z.to_nat (place_off ino)) bs) /\ (Z.to_nat isize <= length bs - Z.to_nat (place_off ino))%nat.
Proof using W B G D.
  intros Hd Hi. destruct (inode_desc d ino Hd Hi) as (gd & Hg & Hgd & Eg). pose proof Hi as [Hv [H1 Hn]].
  destruct (tb_read d Hd _ gd (place_block (gd_inode_table gd) ino) Hg Hgd) as (bs & Hbs & Hl); [by apply place_in_table|].
  destruct (place_fits ino) as (Ho & Hfit & _). destruct block_bytes as [Eb Hb]. destruct isize_facts as (Hs & _). exists gd, bs.
  refine (conj Hgd (conj Hg (conj _ (conj Hbs (conj Hl (conj _ (conj _ _))))))).
  - unfold Ext2InodeDisk.ext2_get_inode. replace (negb (ino =? EXT2_ROOT_INO) && (ino <? EXT2_FIRST_INO sb) || (es_inodes_count sb <? ino)) with false.
    2:{ symmetry. apply orb_false_iff. rewrite (io_count sb _ (tb_inodes d Hd)). split; [|apply Z.ltb_ge; lia].
        destruct Hv as [->|Hv]; [done|]. by rewrite (proj2 (Z.ltb_ge _ _) Hv), andb_false_r. }
    rewrite Eg. cbn [rbind]. rewrite set_sbi_id. pose proof blkbits_range. rewrite Z.shiftr_div_pow2 by lia. fold (place_block (gd_inode_table gd) ino).
    rewrite Hbs, Eb. do 4 f_equal. unfold place_off. replace (2 ^ blkbits - 1) with (Z.ones blkbits) by (rewrite Z.ones_equiv; lia). by rewrite Z.land_ones by lia.
  - unfold raw_at. rewrite Hbs. cbn [deref rbind]. unfold len. change (Z.of_nat RAW) with 128. by rewrite (proj2 (Z.leb_le _ _)) by lia.
  - split; [change RAW with 128%nat; lia|apply length_drop].
  - lia.
Qed.
End Place.

Section Write.
Context (sb : sb_info) {W : SbWf sb} {B : BlkWf sb} (blkbits isize : Z) {G : MapWf blkbits} {D : DiskWf sb blkbits isize} (dsk : disk_env).
Context (NO_UID32 : bool).
Notation ngroups := (s_groups_count sb).
Notation ipg := (EXT2_INODES_PER_GROUP sb).
Notation dbuf := (dbuf dsk).
Notation tables_ok := (tables_ok sb blkbits dsk).
Notation is_inode := (is_inode sb).
Notation place_block := (place_block sb blkbits isize).
Notation place_off := (place_off sb blkbits isize).
Notation fill_raw := (fill_raw blkbits dsk NO_UID32 isize).
Notation write_inode := (__ext2_write_inode sb blkbits dsk NO_UID32 isize).

(** The bytes of an inode on the disk. *)
Definition inode_bytes (d : dstate) (ino : Z) : option (list byte) :=
  gd ← desc_at sb (sbi_of d) ((ino - 1) / ipg);
  bs ← dbuf d (place_block (gd_inode_table gd) ino);
  Some (take (Z.to_nat isize) (drop (Z.to_nat (place_off ino)) bs)).

Lemma note_large_ok d : tables_ok d -> exists e, note_large_file sb dsk d = Ok (set_es e d).
Proof using W B.
  intros Hd. unfold note_large_file. destruct (_ || _); [|exists (d_es d); by destruct d]. set (e := Es _ _ _ _ _ _ _).
  unfold ext2_sync_super. assert (Es : sbi_of (set_es e d) = sbi_of d) by by destruct d. rewrite Es.
  rewrite (count_free_blocks_spec sb) by apply (tb_blocks _ _ _ _ Hd). cbn [rbind]. unfold ext2_count_free_inodes. pose proof (wf_groups (sb := sb)).
  destruct (sum_free sb _ (Z.to_nat ngroups) (tb_inodes _ _ _ _ Hd) 0 0 ltac:(lia) ltac:(lia)) as (t & -> & _). cbn [rbind].
  rewrite <- Es, set_sbi_id. eexists. by destruct d.
Qed.

(** The inode in memory is no longer new. *)
Definition not_new (s : mstate) : mstate :=
  let i := m_info s in
  set_info (InodeInfo (i_file_acl i) (i_dir_acl i) (i_dtime i) (i_faddr i) (i_frag_no i) (i_frag_size i) false (i_atime i)) s.

Record written (d d' : dstate) (gd : group_desc) (bs raw : list byte) : Prop := {
  wn_file : d_file d' = not_new (d_file d);
  wn_desc : desc_at sb (sbi_of d) ((ino_of (d_file d) - 1) / ipg) = Some gd;
  wn_old : dbuf d (place_block (gd_inode_table gd) (ino_of (d_file d))) = Some bs;
  wn_len : Z.of_nat (length bs) = 2 ^ blkbits;
  wn_raw : raw = drop (Z.to_nat (place_off (ino_of (d_file d)))) bs;
  wn_room : raw_of (length raw) raw /\ (Z.to_nat isize <= length raw)%nat;
  wn_bufs : d_bufs d' = <[place_block (gd_inode_table gd) (ino_of (d_file d)) :=
    take (Z.to_nat (place_off (ino_of (d_file d)))) bs ++ fill_raw (d_file d) raw]> (d_bufs d) }.

Lemma write_spec sync d : tables_ok d -> is_inode (ino_of (d_file d)) ->
  exists r d' gd bs raw, write_inode sync d = Ok (r, d') /\ (sync = false -> r = 0) /\ written d d' gd bs raw.
Proof using W B G D.
  intros Hd Hi. destruct (get_inode_ok sb blkbits isize dsk d _ Hd Hi) as (gd & bs & Hgd & Hg & Eg & Hbs & Hl & Er & Hraw & Hroom).
  unfold __ext2_write_inode. rewrite Eg. cbn [rbind]. rewrite Er. cbn [rbind]. set (c := core _). set (raw := drop _ bs) in *.
  assert (Hn : exists e, (if S_ISREG (i_mode c) && (2 ^ 31 - 1 <? i_size c) then note_large_file sb dsk d else Ok d) = Ok (set_es e d)).
  { destruct (_ && _); [by apply note_large_ok|]. exists (d_es d). by destruct d. }
  destruct Hn as (e & ->). cbn [rbind]. do 2 eexists. exists gd, bs, raw. split; [done|]. split; [by intros ->|].
  assert (Ed : length raw = (length bs - Z.to_nat (place_off (ino_of (d_file d))))%nat) by apply length_drop.
  split; try done; [by destruct d| |].
  - rewrite Ed. by split.
  - unfold put_raw. assert (Eb : dbuf (set_es e d) (place_block (gd_inode_table gd) (ino_of (d_file d))) = Some bs) by by destruct d.
    rewrite Eb. by destruct d.
Qed.

(** ** The other inodes *)

Lemma places_apart d ino ino' gd gd' : tables_ok d -> is_inode ino -> is_inode ino' -> ino <> ino' ->
  desc_at sb (sbi_of d) ((ino - 1) / ipg) = Some gd -> desc_at sb (sbi_of d) ((ino' - 1) / ipg) = Some gd' ->
  place_block (gd_inode_table gd) ino <> place_block (gd_inode_table gd') ino' \/
  place_off ino' + isize <= place_off ino \/ place_off ino + isize <= place_off ino'.
Proof using W B G D.
  intros Hd [_ Hi] [_ Hi'] Hne Hgd Hgd'. destruct (ino_group sb ino Hi) as [Hg Hm]. destruct (ino_group sb ino' Hi') as [Hg' Hm'].
  destruct (decide ((ino - 1) / ipg = (ino' - 1) / ipg)) as [E|E].
  - rewrite E in Hgd. simplify_eq. destruct (isize_facts sb blkbits isize) as (Hs & _). destruct (block_bytes blkbits) as [_ Hb].
    destruct (place_fits sb blkbits isize ino) as (_ & _ & j & Ej). destruct (place_fits sb blkbits isize ino') as (_ & _ & j' & Ej').
    destruct (decide (place_block (gd_inode_table gd) ino = place_block (gd_inode_table gd) ino')) as [Eb|]; [right|by left].
    assert (j <> j'); [|destruct (decide (j < j')); [right|left]; rewrite Ej, Ej'; nia]. intros ->. rewrite <- Ej' in Ej.
    unfold Ext2InodeWrite.place_block, Ext2InodeWrite.place_off in *. pose proof (wf_inodes (sb := sb)).
    pose proof (Z.div_mod ((ino - 1) mod ipg * isize) (2 ^ blkbits) ltac:(lia)). pose proof (Z.div_mod ((ino' - 1) mod ipg * isize) (2 ^ blkbits) ltac:(lia)).
    assert ((ino - 1) mod ipg = (ino' - 1) mod ipg) by (apply (Z.mul_reg_r _ _ isize); [lia|]; apply Z.add_reg_l in Eb; congruence). pose proof (Z.div_mod (ino - 1) ipg ltac:(lia)). pose proof (Z.div_mod (ino' - 1) ipg ltac:(lia)).
    apply Hne. rewrite E in *. lia.
  - left. destruct (ba_groups _ _ (tb_blocks _ _ _ _ Hd) _ Hg) as (x & b & Hgo). destruct (ba_groups _ _ (tb_blocks _ _ _ _ Hd) _ Hg') as (x' & b' & Hgo').
    pose proof (bg_desc _ _ _ _ _ Hgo). pose proof (bg_desc _ _ _ _ _ Hgo'). simplify_eq. pose proof (bw_bpg (sb := sb)).
    destruct (bg_system _ _ _ _ _ Hgo (place_block (gd_inode_table gd) ino)) as [Hr _]; [right; right; apply (place_in_table sb blkbits isize); lia|].
    destruct (bg_system _ _ _ _ _ Hgo' (place_block (gd_inode_table gd') ino')) as [Hr' _]; [right; right; apply (place_in_table sb blkbits isize); lia|].
    unfold ext2_group_first_block_no in *. nia.
Qed.

Lemma raw_in_inode : (RAW <= Z.to_nat isize)%nat.
Proof using D. destruct (isize_facts sb blkbits isize) as (Hs & _). change RAW with 128%nat. lia. Qed.

Lemma written_dbuf d d' gd bs raw x : written d d' gd bs raw ->
  dbuf d' x = if decide (x = place_block (gd_inode_table gd) (ino_of (d_file d)))
              then Some (take (Z.to_nat (place_off (ino_of (d_file d)))) bs ++ fill_raw (d_file d) raw) else dbuf d x.
Proof using. intros Hw. unfold Ext2InodeDisk.dbuf. rewrite (wn_bufs _ _ _ _ _ Hw). case_decide as E; [subst; by rewrite lookup_insert_eq|by rewrite lookup_insert_ne]. Qed.

Lemma written_sbi d d' gd bs raw : written d d' gd bs raw -> sbi_of d' = sbi_of d.
Proof using. intros Hw. unfold sbi_of. rewrite (wn_file _ _ _ _ _ Hw). by destruct (d_file d). Qed.

Lemma written_length d d' gd bs raw : written d d' gd bs raw ->
  length (take (Z.to_nat (place_off (ino_of (d_file d)))) bs ++ fill_raw (d_file d) raw) = length bs /\ (Z.to_nat (place_off (ino_of (d_file d))) <= length bs)%nat.
Proof using G D.
  intros Hw. destruct (wn_room _ _ _ _ _ Hw) as [Hr Hi]. destruct (fill_raw_length blkbits dsk NO_UID32 isize _ (d_file d) raw Hr Hi) as [_ Hf].
  destruct (place_fits sb blkbits isize (ino_of (d_file d))) as (Ho & Hfit & _). pose proof (wn_len _ _ _ _ _ Hw). destruct (isize_facts sb blkbits isize) as (Hs & _).
  rewrite length_app, length_take, Hf, (wn_raw _ _ _ _ _ Hw), length_drop. lia.
Qed.

Lemma written_ok d d' gd bs raw : tables_ok d -> written d d' gd bs raw -> tables_ok d'.
Proof using G D.
  intros [H1 H2 H3] Hw. pose proof (written_sbi _ _ _ _ _ Hw) as Es. split; rewrite ?Es; try done. intros g gd' x Hg Hgd Hx.
  rewrite (written_dbuf _ _ _ _ _ x Hw). case_decide; [|by apply (H3 g gd')]. eexists. split; [done|].
  rewrite (proj1 (written_length _ _ _ _ _ Hw)). apply (wn_len _ _ _ _ _ Hw).
Qed.

Lemma written_others d d' gd bs raw ino : tables_ok d -> is_inode (ino_of (d_file d)) -> is_inode ino -> written d d' gd bs raw -> ino <> ino_of (d_file d) ->
  inode_bytes d' ino = inode_bytes d ino.
Proof using W B G D.
  intros Hd Hi Hi' Hw Hne. destruct (inode_desc sb blkbits dsk d ino Hd Hi') as (gd' & _ & Hgd' & _). unfold inode_bytes.
  rewrite (written_sbi _ _ _ _ _ Hw), Hgd'. simpl. rewrite (written_dbuf _ _ _ _ _ _ Hw). case_decide as E; [|done]. rewrite E, (wn_old _ _ _ _ _ Hw). simpl. f_equal.
  destruct (written_length _ _ _ _ _ Hw) as [_ Hol]. destruct (place_fits sb blkbits isize ino) as (Ho & _). destruct (place_fits sb blkbits isize (ino_of (d_file d))) as (Ho2 & _).
  destruct (isize_facts sb blkbits isize) as (Hs & _). destruct (places_apart d _ ino gd gd' Hd Hi Hi' ltac:(done) (wn_desc _ _ _ _ _ Hw) Hgd') as [|[Hap|Hap]]; [done| |].
  - rewrite drop_app_le by (rewrite length_take; lia). rewrite take_app_le by (rewrite length_drop, length_take; lia).
    rewrite !take_drop_commute, take_take. do 2 f_equal. lia.
  - destruct (wn_room _ _ _ _ _ Hw) as [Hr Hri].
    destruct (fill_raw_tail blkbits dsk NO_UID32 isize raw_in_inode _ (drop (Z.to_nat isize) raw) (d_file d) raw Hri (conj Hr eq_refl)) as [_ Ht].
    rewrite drop_app_ge by (rewrite length_take; lia). rewrite length_take, Nat.min_l by lia. rewrite (wn_raw _ _ _ _ _ Hw) in Ht |- *.
    replace (Z.to_nat (place_off ino) - _)%nat with (Z.to_nat isize + (Z.to_nat (place_off ino) - Z.to_nat (place_off (ino_of (d_file d))) - Z.to_nat isize))%nat by lia.
    rewrite <- drop_drop, Ht, !drop_drop. do 2 f_equal. lia.
Qed.
End Write.
