(* ===== verification/Ext2InodeRead.v ===== *)
(** * ext2: reading an inode back

    [ext2_iget] of an inode that [__ext2_write_inode] has written fills in what was written,
    for every inode whose fields fit into the structure on the disk. *)

From S2P Require Import Dquot.
From S2P Require Import Prelude CString ByteMem Ext2Layout Ext2Dir Ext2Super Ext2Inode Ext2Ialloc Ext2IallocFacts Ext2Namei.
From S2P Require Import Ext2Balloc Ext2BallocBits Ext2BallocRsv Ext2BallocGroup Ext2BallocFacts Ext2BallocAlloc Ext2BallocFree Ext2BallocTheorems.
From S2P Require Import Ext2BlockMap Ext2BlockPath Ext2InodeDisk Ext2InodeDiskFacts Ext2InodeWrite.

(** ** Words *)

(** A number from its low [k] bits and the rest. *)
Lemma lor_halves x k : 0 <= k -> Z.lor (x mod 2 ^ k) (Z.shiftl (Z.shiftr x k) k) = x.
Proof.
  intros Hk. apply Z.bits_inj'. intros i Hi. rewrite Z.lor_spec, Z.shiftl_spec by done. destruct (Z.lt_ge_cases i k).
  - rewrite Z.mod_pow2_bits_low by lia. rewrite (Z.testbit_neg_r _ (i - k)) by lia. apply orb_false_r.
  - rewrite Z.mod_pow2_bits_high by lia. rewrite Z.shiftr_spec by lia. simpl. f_equal. lia.
Qed.

Lemma shiftr_small x k m : 0 <= k -> 0 <= m -> 0 <= x < 2 ^ (k + m) -> 0 <= Z.shiftr x k < 2 ^ m.
Proof.
  intros Hk Hm Hx. rewrite Z.shiftr_div_pow2 by done. rewrite Z.pow_add_r in Hx by done.
  assert (0 < 2 ^ k) by (apply Z.pow_pos_nonneg; lia). split; [apply Z.div_pos; lia|apply Z.div_lt_upper_bound; lia].
Qed.

Lemma words_bytes l : Forall (fun x => 0 <= x < 2 ^ 32) l -> words_of (length l) (bytes_of l) = l.
Proof.
  induction 1 as [|x l Hx _ IH]; [done|]. unfold bytes_of in *. cbn [map concat length words_of].
  rewrite (take_app_length' (le_encode 4 x)), (drop_app_length' (le_encode 4 x)) by (by rewrite length_le_encode).
  rewrite IH, le_decode_mod. f_equal. by apply Z.mod_small.
Qed.

(** ** Inodes that can be stored *)

Definition fits (k : Z) (x : Z) : Prop := 0 <= x < 2 ^ k.
Definition is_time (t : Z) : Prop := - 2 ^ 31 <= t < 2 ^ 31.

Section Read.
Context (sb : sb_info) {W : SbWf sb} {B : BlkWf sb} (blkbits isize : Z) {G : MapWf blkbits} {D : DiskWf sb blkbits isize} (env : map_env) (dsk : disk_env).
Notation image := (image blkbits dsk false).
Notation read_inode := (read_inode sb blkbits dsk false).
Notation fast := (ext2_inode_is_fast_symlink blkbits).

(** Every field is in the range of its field on the disk, the inode is not a deleted one,
    and the block of its attributes is one of the data blocks. *)
Record storable (s : mstate) : Prop := {
  st_mode : fits 16 (i_mode (core (m_inode s)));
  st_uid : fits 32 (i_uid (m_inode s));
  st_gid : fits 32 (i_gid (m_inode s));
  st_nlink : fits 16 (i_nlink (m_inode s));
  st_live : i_nlink (m_inode s) = 0 -> i_mode (core (m_inode s)) <> 0;
  st_dtime : i_dtime (m_info s) = 0;
  st_size : fits (if S_ISREG (i_mode (core (m_inode s))) then 63 else 32) (i_size (core (m_inode s)));
  st_times : is_time (i_atime (m_info s)) /\ is_time (i_mtime (core (m_inode s))) /\ is_time (i_ctime (core (m_inode s)));
  st_blocks : fits 32 (inode_blocks blkbits s);
  st_flags : fits 32 (i_flags (core (m_inode s)));
  st_generation : fits 32 (i_generation (m_inode s));
  st_faddr : fits 32 (i_faddr (m_info s)) /\ fits 8 (i_frag_no (m_info s)) /\ fits 8 (i_frag_size (m_info s));
  st_acl : fits 32 (i_file_acl (m_info s)) /\ (i_file_acl (m_info s) <> 0 -> ext2_data_block_valid sb (i_file_acl (m_info s)) 1 = true);
  st_dir_acl : if S_ISREG (i_mode (core (m_inode s))) then i_dir_acl (m_info s) = 0 else fits 32 (i_dir_acl (m_info s));
  st_data : length (i_data s) = EXT2_N_BLOCKS /\ Forall (fits 32) (i_data s);
  st_rdev : is_special s = true -> fits 32 (i_rdev (m_inode s));
  st_link : fast s = true -> i_size (core (m_inode s)) < 60 /\ bytes_of (i_data s) !! Z.to_nat (i_size (core (m_inode s))) = Some NUL }.

(** The device numbers of [include/linux/kdev_t.h] and the end of a link of
    [include/linux/namei.h]. *)
Class DevLaws : Prop := {
  dl_old d : old_valid_dev dsk d = true -> 0 <= old_encode_dev dsk d < 2 ^ 16 /\ old_decode_dev dsk (old_encode_dev dsk d) = d;
  dl_new d : 0 <= d < 2 ^ 32 -> 0 <= new_encode_dev dsk d < 2 ^ 32 /\ new_decode_dev dsk (new_encode_dev dsk d) = d;
  dl_zero : old_decode_dev dsk 0 = 0 /\ new_decode_dev dsk 0 = 0;
  dl_link bs n m : nd_terminate_link dsk bs n m = <[Z.to_nat (Z.min n m) := NUL]> bs }.

(** Everything that is kept on the disk. *)
Record same_inode (s s' : mstate) : Prop := {
  si_mode : i_mode (core (m_inode s')) = i_mode (core (m_inode s));
  si_owner : i_uid (m_inode s') = i_uid (m_inode s) /\ i_gid (m_inode s') = i_gid (m_inode s);
  si_nlink : i_nlink (m_inode s') = i_nlink (m_inode s);
  si_size : i_size (core (m_inode s')) = i_size (core (m_inode s));
  si_times : i_atime (m_info s') = i_atime (m_info s) /\ i_mtime (core (m_inode s')) = i_mtime (core (m_inode s)) /\
    i_ctime (core (m_inode s')) = i_ctime (core (m_inode s));
  si_blocks : inode_blocks blkbits s' = inode_blocks blkbits s;
  si_flags : i_flags (core (m_inode s')) = i_flags (core (m_inode s));
  si_generation : i_generation (m_inode s') = i_generation (m_inode s);
  si_info : m_info s' = InodeInfo (i_file_acl (m_info s)) (i_dir_acl (m_info s)) 0 (i_faddr (m_info s)) (i_frag_no (m_info s)) (i_frag_size (m_info s)) false (i_atime (m_info s));
  si_data : if is_special s then i_rdev (m_inode s') = i_rdev (m_inode s) else i_data s' = i_data s;
  si_link : fast s = true -> i_link (m_inode s') = Some (c_str (bytes_of (i_data s))) }.

(** ** The values that are read *)

Section Values.
Context {L : DevLaws} (s : mstate) (Hs : storable s) (raw : list byte).
Context (Hraw : forall f v, is_field f -> image s f = Some v -> rd f raw = v mod fwidth f).

Lemma rd_fits k f v : is_field f -> image s f = Some v -> fwidth f = 2 ^ k -> fits k v -> rd f raw = v.
Proof using Hraw. intros Hf Hv Hw Hk. rewrite (Hraw f v Hf Hv), Hw. by apply Z.mod_small. Qed.

Lemma rd_time f v : is_field f -> image s f = Some v -> fwidth f = 2 ^ 32 -> is_time v -> i32 (rd f raw) = v.
Proof using Hraw.
  intros Hf Hv Hw Hk. rewrite (Hraw f v Hf Hv), Hw. unfold i32, is_time in *.
  rewrite (Z.add_mod_idemp_l v) by done. rewrite Z.mod_small by lia. lia.
Qed.

Lemma rd_id low high x : is_field low -> is_field high -> image s low = Some (u16 x) -> image s high = Some (u16 (Z.shiftr x 16)) ->
  fwidth low = 2 ^ 16 -> fwidth high = 2 ^ 16 -> fits 32 x -> Z.lor (rd low raw) (Z.shiftl (rd high raw) 16) = x.
Proof using Hraw.
  intros Hl Hh Il Ih Wl Wh Hx. rewrite (Hraw low _ Hl Il), (Hraw high _ Hh Ih), Wl, Wh. unfold u16. rewrite !Z.mod_mod by done.
  rewrite (Z.mod_small (Z.shiftr x 16)) by (apply shiftr_small; done). by apply lor_halves.
Qed.

Lemma rd_data : is_special s = false -> map (fun k => rd (r_block k) raw) (seq 0 EXT2_N_BLOCKS) = i_data s.
Proof using Hraw Hs.
  intros Hsp. destruct (st_data s Hs) as [Hl Hd]. apply list_eq. intros k. destruct (decide (k < EXT2_N_BLOCKS)%nat) as [Hk|Hk].
  - destruct (lookup_lt_is_Some_2 (i_data s) k) as [x Hx]; [lia|]. rewrite Hx.
    rewrite list_lookup_fmap, lookup_seq_lt by done. simpl. f_equal. apply (rd_fits 32); [done| |by apply block_width|].
    + cbn [Ext2InodeDiskFacts.image]. unfold block_image. by rewrite Hsp, Hx.
    + by apply (Forall_lookup_1 _ _ k x Hd).
  - rewrite (lookup_ge_None_2 (i_data s)) by lia. apply lookup_ge_None_2. rewrite length_map, length_seq. lia.
Qed.

Lemma rd_rdev : is_special s = true ->
  (if negb (rd (r_block 0) raw =? 0) then old_decode_dev dsk (rd (r_block 0) raw) else new_decode_dev dsk (rd (r_block 1) raw)) = i_rdev (m_inode s).
Proof using Hraw Hs L.
  intros Hsp. destruct dl_zero as [Z1 Z2]. destruct (old_valid_dev dsk (i_rdev (m_inode s))) eqn:Ev.
  - destruct (dl_old _ Ev) as [Hr Hd]. rewrite (rd_fits 32 (r_block 0) (old_encode_dev dsk (i_rdev (m_inode s)))); [|raw_is| |done|unfold fits; lia].
    2:{ cbn [Ext2InodeDiskFacts.image]. unfold block_image. by rewrite Hsp, Ev. }
    destruct (Z.eqb_spec (old_encode_dev dsk (i_rdev (m_inode s))) 0) as [E|E]; cbn [negb]; [|done]. rewrite E, Z1 in Hd. rewrite <- Hd.
    rewrite (rd_fits 32 (r_block 1) 0); [done|raw_is| |done|done]. cbn [Ext2InodeDiskFacts.image]. unfold block_image. by rewrite Hsp, Ev.
  - destruct (dl_new (i_rdev (m_inode s)) (st_rdev s Hs Hsp)) as [Hr Hd]. rewrite (rd_fits 32 (r_block 0) 0); [|raw_is| |done|done].
    2:{ cbn [Ext2InodeDiskFacts.image]. unfold block_image. by rewrite Hsp, Ev. }
    cbn [Z.eqb negb]. rewrite (rd_fits 32 (r_block 1) (new_encode_dev dsk (i_rdev (m_inode s)))); [done|raw_is| |done|done].
    cbn [Ext2InodeDiskFacts.image]. unfold block_image. by rewrite Hsp, Ev.
Qed.

Lemma rd_size : (if S_ISREG (i_mode (core (m_inode s))) then i64 (Z.lor (rd r_size raw) (Z.shiftl (rd r_dir_acl raw) 32)) else rd r_size raw) = i_size (core (m_inode s)).
Proof using Hraw Hs.
  pose proof (st_size s Hs) as Hz. destruct (S_ISREG _) eqn:E; [|by apply (rd_fits 32)].
  rewrite (rd_fits 32 r_dir_acl (Z.shiftr (i_size (core (m_inode s))) 32)); [|done| |done|].
  - rewrite (Hraw r_size _ I eq_refl). change (fwidth r_size) with (2 ^ 32). rewrite lor_halves by lia. unfold i64, fits in *. rewrite Z.mod_small by lia. lia.
  - cbn [Ext2InodeDiskFacts.image]. by rewrite E.
  - unfold fits in *. apply shiftr_small; lia.
Qed.

Lemma rd_dir_acl : (if S_ISREG (i_mode (core (m_inode s))) then 0 else rd r_dir_acl raw) = i_dir_acl (m_info s).
Proof using Hraw Hs.
  pose proof (st_dir_acl s Hs) as Ha. destruct (S_ISREG _) eqn:E; [done|]. apply (rd_fits 32); try done. cbn [Ext2InodeDiskFacts.image]. by rewrite E.
Qed.

(** The link of a fast symbolic link is terminated already. *)
Lemma short_link_kept : fast s = true -> nd_terminate_link dsk (bytes_of (i_data s)) (i_size (core (m_inode s))) (4 * Z.of_nat EXT2_N_BLOCKS - 1) = bytes_of (i_data s) /\
  words_of EXT2_N_BLOCKS (bytes_of (i_data s)) = i_data s.
Proof using Hs L.
  intros Hf. destruct (st_link s Hs Hf) as [Hz Hn]. destruct (st_data s Hs) as [Hl Hd]. rewrite dl_link. change (4 * Z.of_nat EXT2_N_BLOCKS - 1) with 59. rewrite Z.min_l by lia. split.
  - by apply list_insert_id.
  - rewrite <- Hl. by apply words_bytes.
Qed.

(** The types of files exclude each other. *)
Lemma special_type : is_special s = true ->
  S_ISREG (i_mode (core (m_inode s))) = false /\ S_ISDIR (i_mode (core (m_inode s))) = false /\ S_ISLNK (i_mode (core (m_inode s))) = false.
Proof using. unfold is_special, S_ISCHR, S_ISBLK, S_ISREG, S_ISDIR, S_ISLNK. intros [->%Z.eqb_eq| ->%Z.eqb_eq]%orb_true_iff; done. Qed.

(** The operations, by the type of the file; [t] is the inode as it has been read so far. *)
Lemma read_ops_same t : i_mode (core (m_inode t)) = i_mode (core (m_inode s)) -> i_size (core (m_inode t)) = i_size (core (m_inode s)) ->
  inode_blocks blkbits t = inode_blocks blkbits s -> i_file_acl (m_info t) = i_file_acl (m_info s) ->
  (is_special s = false -> i_data t = i_data s) ->
  let t' := read_ops sb blkbits dsk raw t in
  exists op ao li rdev, t' = set_idata (i_data t') (set_inode (with_rdev rdev (with_link li (with_aops ao (with_op op (m_inode t))))) t) /\
    (if is_special s then rdev = i_rdev (m_inode s) else i_data t' = i_data s) /\ (fast s = true -> li = Some (c_str (bytes_of (i_data s)))).
Proof using Hraw Hs L.
  intros Em Ez Eb Ea Ed. assert (Ef : fast t = fast s) by (unfold ext2_inode_is_fast_symlink; by rewrite Em, Eb, Ea). unfold read_ops. rewrite Em, Ef.
  destruct t as [[c t1 t2 t3 t4 t5 t6 t7 t8 t9 t10 t11 t12] i a x1 x2 x3 x4]. cbn [m_inode m_info i_data] in *.
  destruct (is_special s) eqn:Esp.
  - destruct (special_type Esp) as (E1 & E2 & E3). rewrite E1, E2, E3, (rd_rdev Esp). unfold init_special_inode. cbn [with_op core]. cbn [core] in Em. rewrite Em.
    unfold is_special, S_ISCHR, S_ISBLK in Esp. rewrite Esp. do 4 eexists. split; [done|]. split; [done|]. unfold ext2_inode_is_fast_symlink. by rewrite E3.
  - specialize (Ed eq_refl). subst. destruct (S_ISREG _) eqn:E1; [|destruct (S_ISDIR _) eqn:E2; [|destruct (S_ISLNK _) eqn:E3]].
    + do 4 eexists. split; [done|]. split; [done|]. unfold ext2_inode_is_fast_symlink, S_ISLNK, S_ISREG in *. apply Z.eqb_eq in E1. by rewrite E1.
    + do 4 eexists. split; [done|]. split; [done|]. unfold ext2_inode_is_fast_symlink, S_ISLNK, S_ISDIR in *. apply Z.eqb_eq in E2. by rewrite E2.
    + destruct (fast s) eqn:E4; [|do 4 eexists; by split_and!]. cbn [core] in *. cbv zeta. rewrite Ez. destruct (short_link_kept E4) as [-> ->]. do 4 eexists. split; [done|]. by split.
    + unfold init_special_inode. cbn [with_op core]. cbn [core] in Em. rewrite Em. unfold is_special, S_ISCHR, S_ISBLK in Esp. rewrite Esp.
      do 4 eexists. split; [done|]. split; [done|]. unfold ext2_inode_is_fast_symlink. by rewrite E3.
Qed.

Lemma read_back d : b_charged (m_blk (d_file d)) !! ino_of (d_file d) = None ->
  exists s', read_inode (ino_of (d_file d)) raw d = (0, set_file s' d) /\ same_inode s s' /\ m_blk s' = m_blk (d_file d) /\
    ino_of s' = ino_of (d_file d) /\ i_new (m_inode s') = false.
Proof using Hraw Hs L.
  destruct d as [[[[c0 c1 c2 c3 c4 c5 c6 c7 c8 c9 c10 c11] t1 t2 t3 t4 t5 t6 t7 t8 t9 t10 t11 t12] [i1 i2 i3 i4 i5 i6 i7 i8] a x1 x2 x3 x4] bu es].
  unfold ino_of. cbn [d_file m_blk m_inode core i_ino]. intros Hch. pose proof (st_times s Hs) as (T1 & T2 & T3). pose proof (st_faddr s Hs) as (F1 & F2 & F3).
  pose proof (st_acl s Hs) as [Ha1 Ha2]. assert (Hhi : forall x, (if false || negb (i_dtime (m_info s) =? 0) then 0 else u16 (Z.shiftr x 16)) = u16 (Z.shiftr x 16)) by (intros; by rewrite (st_dtime s Hs)).
  unfold Ext2InodeDisk.read_inode, read_attrs. cbn [d_file m_inode m_info core i_ino i_blocks i_version i_flags i_dir_start_lookup i_dirty i_pages reports
    with_core with_nlink with_owner i_nlink i_mode i_dtime i_file_acl i_dir_acl i_size i_mtime i_ctime].
  rewrite (rd_fits 16 r_mode (i_mode (core (m_inode s)))) by (done || apply st_mode, Hs).
  rewrite (rd_fits 16 r_links_count (i_nlink (m_inode s))) by (done || apply st_nlink, Hs).
  rewrite (rd_fits 32 r_dtime 0) by (done || cbn [Ext2InodeDiskFacts.image]; by rewrite (st_dtime s Hs)). cbn [Z.eqb negb]. rewrite orb_false_r.
  assert ((i_nlink (m_inode s) =? 0) && (i_mode (core (m_inode s)) =? 0) = false) as ->.
  { destruct (Z.eqb_spec (i_nlink (m_inode s)) 0) as [E|]; [|done]. cbn [andb]. apply Z.eqb_neq. by apply (st_live s Hs). }
  rewrite (rd_fits 32 r_file_acl (i_file_acl (m_info s))) by done.
  assert (negb (i_file_acl (m_info s) =? 0) && negb (ext2_data_block_valid sb (i_file_acl (m_info s)) 1) = false) as ->.
  { destruct (Z.eqb_spec (i_file_acl (m_info s)) 0); [done|]. by rewrite Ha2. }
  rewrite rd_size, rd_dir_acl. pose proof (st_size s Hs) as Hz. rewrite (proj2 (Z.ltb_ge _ _)) by exact (proj1 Hz).
  cbn [set_size with_lookup with_core i_faddr i_frag_no i_frag_size i_atime ei_new set_info set_inode set_idata].
  rewrite (rd_time r_atime (i_atime (m_info s))), (rd_time r_mtime (i_mtime (core (m_inode s)))), (rd_time r_ctime (i_ctime (core (m_inode s)))) by done.
  rewrite (rd_id r_uid_low r_uid_high (i_uid (m_inode s))) by (done || apply st_uid, Hs || (cbn [Ext2InodeDiskFacts.image]; by rewrite Hhi)).
  rewrite (rd_id r_gid_low r_gid_high (i_gid (m_inode s))) by (done || apply st_gid, Hs || (cbn [Ext2InodeDiskFacts.image]; by rewrite Hhi)).
  rewrite (rd_fits 32 r_blocks (inode_blocks blkbits s)) by (done || apply st_blocks, Hs).
  rewrite (rd_fits 32 r_flags (i_flags (core (m_inode s)))) by (done || apply st_flags, Hs).
  rewrite (rd_fits 32 r_faddr (i_faddr (m_info s))), (rd_fits 8 r_frag (i_frag_no (m_info s))), (rd_fits 8 r_fsize (i_frag_size (m_info s))) by done.
  rewrite (rd_fits 32 r_generation (i_generation (m_inode s))) by (done || apply st_generation, Hs).
  set (t := MState _ _ _ _ _ _ _). assert (Eb : inode_blocks blkbits t = inode_blocks blkbits s).
  { unfold inode_blocks at 1, ino_of. unfold t. cbn [m_blk m_inode core i_ino i_blocks]. rewrite Hch. simpl. lia. }
  destruct (read_ops_same t eq_refl eq_refl Eb eq_refl rd_data) as (op & ao & li & rdev & Et & Hd & Hl). unfold t in Et at 2. cbn [m_inode with_op with_aops with_link with_rdev set_inode set_idata] in Et.
  set (dt := i_data _) in Et, Hd. rewrite Et. eexists. split; [done|]. split; [|done].
  by split.
Qed.
End Values.

(** ** [ext2_iget] *)

Notation tables_ok := (tables_ok sb blkbits dsk).
Notation is_inode := (is_inode sb).
Notation place_block := (place_block sb blkbits isize).
Notation place_off := (place_off sb blkbits isize).
Notation ext2_iget := (ext2_iget sb blkbits env dsk false isize).

(** The inode starts without a reservation and without blocks charged to it. *)
Definition no_alloc_info (ino : Z) (d : dstate) : dstate :=
  let s := d_file d in
  let w := b_rsv (m_blk s) in
  set_file (set_blk (BState (b_sbi (m_blk s)) (RsvState (delete ino (rsv_nodes w)) (s_rsv_window_root w) (delete ino (last_alloc w))) (delete ino (b_charged (m_blk s)))) s) d.

Lemma tables_same d d' : sbi_of d' = sbi_of d -> d_bufs d' = d_bufs d -> tables_ok d -> tables_ok d'.
Proof using.
  intros Es Eb [H1 H2 H3]. split; rewrite ?Es; try done. intros g gd x Hg Hgd Hx. unfold dbuf. rewrite Eb. by apply (H3 g gd).
Qed.

Lemma iget_reads U d ino gd bs : tables_ok d -> is_inode ino -> i_new (m_inode (d_file d)) = true ->
  desc_at sb (sbi_of d) ((ino - 1) / EXT2_INODES_PER_GROUP sb) = Some gd -> dbuf dsk d (place_block (gd_inode_table gd) ino) = Some bs ->
  Ext2InodeDisk.ext2_iget sb blkbits env dsk U isize true d ino =
    let '(err, d') := Ext2InodeDisk.read_inode sb blkbits dsk U ino (drop (Z.to_nat (place_off ino)) bs) (no_alloc_info ino d) in Ok (err, if err =? 0 then d' else iget_failed env d').
Proof using W B G D.
  intros Hd Hi Hnew Hgd Hbs. unfold Ext2InodeDisk.ext2_iget. rewrite Hnew. cbn [negb]. fold (no_alloc_info ino d).
  assert (Es : sbi_of (no_alloc_info ino d) = sbi_of d) by by destruct d as [[] ].
  assert (Eb : d_bufs (no_alloc_info ino d) = d_bufs d) by by destruct d.
  destruct (get_inode_ok sb blkbits isize dsk _ ino (tables_same _ _ Es Eb Hd) Hi) as (gd' & bs' & Hgd' & _ & Eg & Hbs' & _ & Er & _).
  rewrite Es in Hgd'. simplify_eq. unfold dbuf in Hbs'. rewrite Eb in Hbs'. unfold dbuf in Hbs. rewrite Hbs in Hbs'. simplify_eq.
  rewrite Eg. cbn [rbind]. rewrite Er. cbn [rbind]. by destruct (Ext2InodeDisk.read_inode _ _ _ _ _ _ _).
Qed.

(** What is written is what is read. *)
Lemma write_then_iget `{!DevLaws} d d' gd bs raw s0 : tables_ok d -> is_inode (ino_of (d_file d)) -> storable (d_file d) ->
  written sb blkbits isize dsk false d d' gd bs raw -> m_blk s0 = m_blk (d_file d') -> ino_of s0 = ino_of (d_file d) -> i_new (m_inode s0) = true ->
  exists d'', ext2_iget true (set_file s0 d') (ino_of (d_file d)) = Ok (0, d'') /\ same_inode (d_file d) (d_file d'') /\
    ino_of (d_file d'') = ino_of (d_file d) /\ i_new (m_inode (d_file d'')) = false /\ sbi_of d'' = sbi_of d /\ d_bufs d'' = d_bufs d'.
Proof using W B G D.
  intros Hd Hi Hst Hw Hb E0 Hn. pose proof (written_ok sb blkbits isize dsk false _ _ _ _ _ Hd Hw) as Hd'.
  assert (Es : sbi_of (set_file s0 d') = sbi_of d).
  { rewrite <- (written_sbi sb blkbits isize dsk false _ _ _ _ _ Hw). unfold sbi_of. rewrite <- Hb. by destruct d'. }
  set (ino := ino_of (d_file d)) in *. set (new := take (Z.to_nat (place_off ino)) bs ++ fill_raw blkbits dsk false isize (d_file d) raw).
  rewrite (iget_reads false _ ino gd new); [|apply (tables_same d'); [|by destruct d'|done]|done| | |].
  - destruct (wn_room _ _ _ _ _ _ _ _ _ _ Hw) as [Hr Hri]. destruct (written_length sb blkbits isize dsk false _ _ _ _ _ Hw) as [_ Hol].
    unfold new. rewrite (drop_app_length' (take (Z.to_nat (place_off ino)) bs)) by (rewrite length_take; fold ino in Hol; lia).
    destruct (read_back (d_file d) Hst (fill_raw blkbits dsk false isize (d_file d) raw) (fun f v Hf Hv => fill_raw_rd blkbits dsk false isize _ _ _ f v Hr Hri Hf Hv)
      (no_alloc_info ino (set_file s0 d'))) as (s' & Es' & Hsame & Hblk & Hino & Hnew).
    { rewrite <- E0. destruct d', s0. apply lookup_delete_eq. }
    replace (ino_of (d_file (no_alloc_info ino (set_file s0 d')))) with ino in Es', Hino by (destruct d', s0; by rewrite <- E0).
    rewrite Es'. eexists. split; [done|]. destruct d' as [f' b' e']. cbn [set_file d_file d_bufs no_alloc_info] in *. split_and!; try done.
    transitivity (b_sbi (m_blk s')); [done|]. rewrite Hblk, <- Es. by destruct s0.
  - by rewrite Es, (written_sbi sb blkbits isize dsk false _ _ _ _ _ Hw).
  - by destruct d'.
  - rewrite Es. exact (wn_desc _ _ _ _ _ _ _ _ _ _ Hw).
  - pose proof (written_dbuf sb blkbits isize dsk false _ _ _ _ _ (place_block (gd_inode_table gd) ino) Hw) as Hx. rewrite decide_True in Hx by done. by destruct d'.
Qed.
End Read.
