(* ===== verification/Ext2Evict.v ===== *)
(** * ext2: the end of an inode

    [ext2_evict_inode] of a file without links: the truncation ([Ext2BlockTrunc]), the
    reservation windows ([Ext2BallocRsv]), the inode bitmap ([Ext2IallocFacts]) and the
    inode on the disk ([Ext2InodeWrite]) together. *)

From S2P Require Import Prelude CString ByteMem Ext2Layout Ext2Dir Ext2Super Ext2Inode Ext2Ialloc Ext2IallocFacts Ext2Namei.
From S2P Require Import Ext2Balloc Ext2BallocBits Ext2BallocRsv Ext2BallocGroup Ext2BallocFacts Ext2BallocAlloc Ext2BallocFree Ext2BallocTheorems.
From S2P Require Import Ext2BlockMap Ext2BlockTree Ext2BlockPath Ext2BlockFacts Ext2BlockFile Ext2BlockTrunc Ext2BlockAlloc Ext2BlockGet Ext2GetBlocks Ext2BlockSystem.
From S2P Require Import Ext2InodeDisk Ext2InodeDiskFacts Ext2InodeWrite Ext2InodeRead.

Section Evict.
Context (rb : rb_lib) {RL : RbLaws rb} (sb : sb_info) {W : SbWf sb} {B : BlkWf sb} (blkbits isize : Z) {G : MapWf blkbits} {D : DiskWf sb blkbits isize}.
Context (env : map_env) {EW : EnvWf env} (dsk : disk_env) (NO_UID32 : bool).
Notation ngroups := (s_groups_count sb).
Notation ipg := (EXT2_INODES_PER_GROUP sb).
Notation tables_ok := (tables_ok sb blkbits dsk).
Notation is_inode := (is_inode sb).
Notation file_ok := (file_ok rb sb blkbits env).
Notation file_blocks := (file_blocks env).
Notation written := (written sb blkbits isize dsk NO_UID32).
Notation inode_bytes := (inode_bytes sb blkbits isize dsk).
Notation evict := (ext2_evict_inode rb sb blkbits env dsk NO_UID32 isize).

(** ** Freeing the inode leaves the blocks *)

Lemma get_desc_counter s g r s' : ext2_get_group_desc sb s g = Ok (r, s') -> s_freeblocks_counter s' = s_freeblocks_counter s.
Proof using.
  unfold ext2_get_group_desc. destruct (_ <=? _); [intros [= _ <-]; by destruct s|].
  destruct (s_group_desc s !! _) as [[descs|]|]; [destruct (descs !! _); [|done]|..]; intros [= _ <-]; by destruct s.
Qed.

Lemma free_inode_counter s n s' : ext2_free_inode sb s n = Ok s' -> s_freeblocks_counter s' = s_freeblocks_counter s.
Proof using.
  unfold ext2_free_inode, read_inode_bitmap. destruct (_ || _); [intros [= <-]; by destruct s|].
  destruct (ext2_get_group_desc _ _ _) as [[gd s1]| | |] eqn:E1; cbn [rbind]; [|done..]. apply get_desc_counter in E1. rewrite <- E1.
  destruct gd as [gd|]; cbn [rbind]; [|by intros [= <-]]. unfold sb_bread.
  assert (Hrest : forall s2 b blk, s_freeblocks_counter s2 = s_freeblocks_counter s1 ->
    (let* '(old, b) := ext2_clear_bit_atomic ((i_ino (core n) - 1) mod ipg) b in
     let s := set_buffer blk b s2 in
     if negb old then Ok (sb_report (BitAlreadyCleared (i_ino (core n))) s)
     else ext2_release_inode sb s ((i_ino (core n) - 1) / ipg) (S_ISDIR (i_mode (core n)))) = Ok s' -> s_freeblocks_counter s' = s_freeblocks_counter s1).
  { intros s2 b blk <-. destruct (ext2_clear_bit_atomic _ b) as [[old b']| | |]; cbn [rbind]; [|done..]. destruct old; cbn [negb]; [|intros [= <-]; by destruct s2].
    unfold ext2_release_inode. destruct (ext2_get_group_desc _ _ _) as [[gd' s3]| | |] eqn:E3; cbn [rbind]; [|done..]. apply get_desc_counter in E3.
    replace (s_freeblocks_counter s2) with (s_freeblocks_counter s3) by (rewrite E3; by destruct s2).
    destruct gd'; intros [= <-]; [destruct (S_ISDIR _)|]; by destruct s3. }
  destruct (s_buffers s1 !! _) as [b|]; cbn [rbind]; [by apply Hrest|]. destruct (bread sb _) as [b|]; cbn [rbind]; [|intros [= <-]; by destruct s1].
  apply Hrest. by destruct s1.
Qed.

(** The descriptor and the inode bitmap of a group have changed. *)
Lemma put_inode_blocks s s2 g d b x y b' : groups_ok sb s -> 0 <= g < ngroups -> group_ok sb s g d b ->
  put_in sb s s2 g (gd_inode_bitmap d) (GroupDesc (gd_block_bitmap d) (gd_inode_bitmap d) (gd_inode_table d) (gd_free_blocks_count d) x y) b' ->
  groups_ok sb s2 /\ total_free sb s2 = total_free sb s /\ (forall z, 0 <= group_of sb z < ngroups -> bbit sb s2 z = bbit sb s z) /\
  (forall g', 0 <= g' < ngroups -> gd_inode_table <$> desc_at sb s2 g' = gd_inode_table <$> desc_at sb s g').
Proof using B.
  intros Hs Hg Hgo [P1 P2 _]. pose proof (go_desc _ _ _ _ _ Hgo) as Hd.
  assert (Hbits : forall g' d' c, bgroup_ok sb s g' d' c -> 0 <= g' < ngroups -> block_bits sb s2 (gd_block_bitmap d') = Some c).
  { intros g' d' c Hgo' Hg'. rewrite P2, decide_False; [apply Hgo'|]. intros Heq. destruct (Hs g Hg) as (d0 & c0 & Hgo0).
    pose proof (bg_desc _ _ _ _ _ Hgo0). simplify_eq. destruct (bitmaps_inj sb s g' g d' d c c0 Hgo' Hgo0) as [-> Heq']; [by right|].
    pose proof (bg_distinct _ _ _ _ _ Hgo0). congruence. }
  split_and!.
  - intros g' Hg'. destruct (Hs g' Hg') as (d' & c & Hgo'). pose proof (Hbits g' d' c Hgo' Hg') as Hc. destruct Hgo' as [G1 G2 G3 G4 G5 G6 G7].
    destruct (decide (g' = g)) as [->|Hne].
    + simplify_eq. eexists _, c. split; [by rewrite P1, decide_True by lia|..]; done.
    + exists d', c. split; try done. by rewrite P1, decide_False by lia.
  - apply sumz_ext. intros i Hi. unfold free_blocks_of. rewrite P1 by lia. case_decide; [subst; by rewrite Hd|done].
  - intros z Hz. unfold bbit. destruct (Hs _ Hz) as (d' & c & Hgo'). rewrite P1 by lia. rewrite (bg_desc _ _ _ _ _ Hgo'). case_decide as E.
    + pose proof (bg_desc _ _ _ _ _ Hgo'). rewrite E in *. simplify_eq. cbn [mbind option_bind gd_block_bitmap].
      by rewrite (Hbits _ _ _ Hgo' Hg), (bg_bits _ _ _ _ _ Hgo').
    + cbn [mbind option_bind]. by rewrite (Hbits _ _ _ Hgo' Hz), (bg_bits _ _ _ _ _ Hgo').
  - intros g' Hg'. rewrite P1 by lia. case_decide; [subst; by rewrite Hd|done].
Qed.

(** ** Windows *)

Lemma win_forget w ino la : win_ok rb w -> ino <> 0 -> (forall n, rsv_nodes w !! ino = Some n -> rsv_end n = 0) ->
  win_ok rb (RsvState (delete ino (rsv_nodes w)) (s_rsv_window_root w) la).
Proof using.
  intros Hw H0 He. assert (Hnt : ino ∉ inorder (s_rsv_window_root w)).
  { intros Hin. destruct (wo_mem rb w Hw ino Hin) as [n Hn]. pose proof (no_window _ _ _ (wo_node rb w Hw ino n Hn) H0 Hin). specialize (He n Hn). lia. }
  destruct Hw as [H1 H2 H3 H4 H5 H6]. split; cbn [s_rsv_window_root rsv_nodes]; try done.
  - apply StronglySorted_weaken with (R := before w); [|done]. intros x y Hx Hy. unfold before, wstart, wend. cbn [rsv_nodes].
    by rewrite !lookup_delete_ne by (intros ->; done).
  - intros p Hp. rewrite lookup_delete_ne by (intros ->; done). by apply H5.
  - intros p n. rewrite lookup_delete_Some. intros [Hne Hp]. destruct (H6 p n Hp) as [A C E F]. by constructor.
Qed.

Lemma drop_reservation_ok s : win_ok rb (b_rsv (m_blk s)) -> ino_of s <> 0 ->
  exists w, drop_reservation rb s = Ok (set_blk (BState (b_sbi (m_blk s)) w (b_charged (m_blk s))) s) /\ win_ok rb w /\ rsv_nodes w !! ino_of s = None /\
    (forall i, i <> ino_of s -> rsv_nodes w !! i = rsv_nodes (b_rsv (m_blk s)) !! i).
Proof using RL.
  intros Hw H0. unfold drop_reservation. destruct (discard_ok rb _ (ino_of s) Hw) as (w & -> & Hw' & He & Ho). cbn [rbind]. eexists. split; [done|].
  split; [by apply win_forget|]. split; [apply lookup_delete_eq|]. intros i Hi. cbn [rsv_nodes]. rewrite lookup_delete_ne by done. by apply Ho.
Qed.

(** ** The blocks *)

(** The blocks that are freed: none of those of an append-only or immutable file. *)
Definition gone_blocks (s : mstate) : list Z := if append_or_immutable (m_inode s) then [] else file_blocks s.

Definition reg_or_dir (s : mstate) : bool := S_ISREG (i_mode (core (m_inode s))) || S_ISDIR (i_mode (core (m_inode s))).

(** Nothing has changed that the block map looks at. *)
Record same_map (s s' : mstate) : Prop := {
  sm_blk : m_blk s' = m_blk s;
  sm_data : i_data s' = i_data s;
  sm_bufs : m_bufs s' = m_bufs s;
  sm_assoc : m_assoc s' = m_assoc s;
  sm_ino : ino_of s' = ino_of s;
  sm_mode : i_mode (core (m_inode s')) = i_mode (core (m_inode s));
  sm_sflags : i_sflags (m_inode s') = i_sflags (m_inode s);
  sm_count : i_blocks (core (m_inode s')) = i_blocks (core (m_inode s)) }.

Lemma same_map_file s s' : same_map s s' -> file_ok s ->
  file_ok s' /\ file_blocks s' = file_blocks s /\ reg_or_dir s' = reg_or_dir s /\ gone_blocks s' = gone_blocks s /\ inode_blocks blkbits s' = inode_blocks blkbits s.
Proof using.
  intros [E1 E2 E3 E4 E5 E6 E7 E8] Hf. assert (Hb : forall b, buf env s' b = buf env s b) by (intros b; unfold buf; by rewrite E3).
  unfold gone_blocks, reg_or_dir, append_or_immutable, inode_blocks. rewrite E1, E5, E6, E7, E8. split_and!; try done.
  - destruct s as [n i dt bu as_ nr bl], s' as [n' i' dt' bu' as_' nr' bl']. cbn in E1, E2, E3, E4. subst. destruct Hf as [H1 H2 H3 H4 H5 H6 H7 H8]. split; try done. by rewrite E5.
  - destruct s as [n i dt bu as_ nr bl], s' as [n' i' dt' bu' as_' nr' bl']. cbn in E1, E2, E3, E4. by subst.
  - destruct s as [n i dt bu as_ nr bl], s' as [n' i' dt' bu' as_' nr' bl']. cbn in E1, E2, E3, E4. by subst.
Qed.

Lemma truncate_all s : file_ok s -> reg_or_dir s = true -> (inode_blocks blkbits s = 0 -> file_blocks s = []) ->
  exists s', (if negb (inode_blocks blkbits s =? 0) then ext2_truncate_blocks rb sb blkbits env 0 s else Ok s) = Ok s' /\
    turned sb false (m_blk s) (m_blk s') (ino_of s) (gone_blocks s) /\ file_ok s' /\ mark_inode_dirty (m_inode s') = mark_inode_dirty (m_inode s) /\
    m_info s' = m_info s /\ (forall i, i <> ino_of s -> rsv_nodes (b_rsv (m_blk s')) !! i = rsv_nodes (b_rsv (m_blk s)) !! i).
Proof using RL W B G.
  intros Hf Hc Hz. destruct (Z.eqb_spec (inode_blocks blkbits s) 0) as [E|E]; cbn [negb].
  { exists s. unfold gone_blocks. rewrite Hz by done. split_and!; try done. destruct (append_or_immutable _); apply (turned_nil sb), Hf. }
  unfold gone_blocks. destruct (append_or_immutable (m_inode s)) eqn:Ea.
  { exists s. split_and!; try done; [|apply (turned_nil sb), Hf]. unfold ext2_truncate_blocks. rewrite Ea. by destruct (negb _), (ext2_inode_is_fast_symlink blkbits s). }
  rewrite truncate_blocks_eq by (unfold can_cut; fold (reg_or_dir s); by rewrite Hc, Ea). destruct (truncate_spec rb sb blkbits env s 0 Hf ltac:(done)) as (s' & L & Et & [R1 R2 R3 R4 R5 R6] & Hd & _ & Hnil).
  rewrite Hnil, app_nil_r in R3 by done. exists s'. split_and!; try done.
  - by apply (turned_perm sb _ _ _ _ L).
  - apply Hd. pose proof (first_gone_bounds blkbits 0 ltac:(done)). destruct (block_bytes blkbits) as [_ Hb]. assert (first_gone blkbits 0 = 0) by nia.
    destruct (ptrs_pos blkbits) as [_ Hp']. unfold max_block. nia.
Qed.

(** ** Eviction *)

(** A regular file or a directory without links and without attributes, whose count of
    blocks is 0 only when it has none. *)
Record dying (d : dstate) : Prop := {
  dy_tables : tables_ok d;
  dy_file : file_ok (d_file d);
  dy_type : reg_or_dir (d_file d) = true;
  dy_nlink : i_nlink (m_inode (d_file d)) = 0;
  dy_good : is_bad_inode (m_inode (d_file d)) = false;
  dy_acl : i_file_acl (m_info (d_file d)) = 0;
  dy_ino : EXT2_FIRST_INO sb <= ino_of (d_file d) <= ngroups * ipg;
  dy_used : allocated sb (sbi_of d) (ino_of (d_file d));
  dy_count : inode_blocks blkbits (d_file d) = 0 -> file_blocks (d_file d) = [] }.

(** Its blocks and its inode are free, its reservation is gone, and the other inodes are as
    they were. *)
Record evicted (d d' : dstate) : Prop := {
  ec_tables : tables_ok d';
  ec_bits z : in_zone sb z -> bbit sb (sbi_of d') z = if decide (z ∈ gone_blocks (d_file d)) then Some false else bbit sb (sbi_of d) z;
  ec_inodes i : 1 <= i <= ngroups * ipg -> allocated sb (sbi_of d') i <-> i <> ino_of (d_file d) /\ allocated sb (sbi_of d) i;
  ec_windows : win_ok rb (b_rsv (m_blk (d_file d')));
  ec_window : rsv_nodes (b_rsv (m_blk (d_file d'))) !! ino_of (d_file d) = None;
  ec_others i : i <> ino_of (d_file d) -> rsv_nodes (b_rsv (m_blk (d_file d'))) !! i = rsv_nodes (b_rsv (m_blk (d_file d))) !! i }.

(** The inode as it is written for the last time. *)
Definition last_write (d : dstate) : dstate :=
  set_file (dirty_inode (set_info (with_dtime (u32 (get_seconds dsk)) (m_info (d_file d))) (d_file d))) d.

Definition sized_0 (s : mstate) : mstate := set_inode (with_core (set_size 0 (core (m_inode s))) (m_inode s)) s.

Lemma last_same d s : d_file s = not_new (d_file (last_write d)) -> same_map (d_file d) (sized_0 (d_file s)) /\
  i_file_acl (m_info (sized_0 (d_file s))) = i_file_acl (m_info (d_file d)).
Proof using. intros ->. destruct d as [[[[]] [] ] ]. by split. Qed.

Lemma inode_side_allocated s s' i : inode_side sb s s' -> 1 <= i <= ngroups * ipg -> allocated sb s' i <-> allocated sb s i.
Proof using W. intros [H _] Hi. destruct (ino_group sb i Hi) as [Hg _]. destruct (H _ Hg) as [E _]. unfold allocated. by rewrite E. Qed.

Lemma inode_side_tables s s' g : inode_side sb s s' -> 0 <= g < ngroups -> gd_inode_table <$> desc_at sb s' g = gd_inode_table <$> desc_at sb s g.
Proof using. intros [H _] Hg. destruct (H g Hg) as (_ & gd & x & -> & ->). by destruct gd. Qed.

(** The inode tables are where they were. *)
Definition same_tables (s s' : sbi) : Prop := forall g, 0 <= g < ngroups -> gd_inode_table <$> desc_at sb s' g = gd_inode_table <$> desc_at sb s g.

(** The bit of the inode is cleared last. *)
Lemma free_last s n : balloc_ok sb s -> ialloc_ok sb s -> EXT2_FIRST_INO sb <= i_ino (core n) <= ngroups * ipg -> allocated sb s (i_ino (core n)) ->
  exists s', ext2_free_inode sb s n = Ok s' /\ balloc_ok sb s' /\ ialloc_ok sb s' /\ same_tables s s' /\
    (forall z, in_zone sb z -> bbit sb s' z = bbit sb s z) /\
    (forall i, 1 <= i <= ngroups * ipg -> allocated sb s' i <-> i <> i_ino (core n) /\ allocated sb s i).
Proof using W B.
  intros [Hs Hc] Hi Hr Ha. pose proof (wf_first (sb := sb)) as Hf. assert (Hr1 : 1 <= i_ino (core n) <= ngroups * ipg) by lia.
  destruct (free_spec sb s n Hi ltac:(lia) Hr1 Ha) as (s' & E & Hfl & _).
  destruct (free_put sb s n Hi ltac:(lia) Hr1 Ha) as (s2 & g & d & b & bit & x & E2 & _ & Hg & _ & Hgo & _ & Hp & _).
  rewrite E in E2. injection E2 as <-. destruct (put_inode_blocks s s' g d b _ _ _ Hs Hg Hgo Hp) as (H1 & H2 & H3 & H4).
  exists s'. split; [done|]. split_and!; [|apply Hfl|done| |].
  - split; [done|]. by rewrite (free_inode_counter s n s' E), Hc.
  - intros z Hz. apply H3. by apply (zone_group sb).
  - intros i Hi'. rewrite (fl_alloc _ _ _ _ _ _ Hfl i Hi'). destruct (decide _) as [->|]; [|tauto]. split; [done|]. by intros [? _].
Qed.

Lemma evict_spec d : dying d ->
  exists d1 gd bs raw d', evict d = Ok d' /\ written (last_write d) d1 gd bs raw /\ evicted d d' /\ d_bufs d' = d_bufs d1 /\ same_tables (sbi_of d) (sbi_of d').
Proof using RL W B G D.
  intros [Y1 Y2 Y3 Y4 Y5 Y6 Y7 Y8 Y9]. pose proof (wf_first (sb := sb)) as Hfirst. unfold ext2_evict_inode. rewrite Y4, Y5. cbn [Z.eqb negb andb].
  change (set_file (dirty_inode _) d) with (last_write d). set (sync := inode_needs_sync _ _).
  assert (Ei : ino_of (d_file (last_write d)) = ino_of (d_file d)) by by destruct d as [[[[]] ] ].
  assert (Ed : sbi_of (last_write d) = sbi_of d) by by destruct d as [[[[]] ] ].
  assert (Hlw : tables_ok (last_write d)) by (apply (tables_same sb blkbits dsk d); [done|by destruct d|done]).
  destruct (write_spec sb blkbits isize dsk NO_UID32 sync (last_write d) Hlw) as (r & d1 & gd & bs & raw & -> & _ & Hw).
  { rewrite Ei. split; [right|]; lia. }
  cbn [rbind]. fold (sized_0 (d_file d1)). destruct (last_same d d1 (wn_file _ _ _ _ _ _ _ _ _ _ Hw)) as [Hsm Hacl].
  set (s2 := sized_0 (d_file d1)) in *. destruct (same_map_file _ _ Hsm Y2) as (F1 & F2 & F3 & F2' & F4). pose proof (sm_blk _ _ Hsm) as Eb. pose proof (sm_ino _ _ Hsm) as Ei2.
  rewrite <- F3 in Y3. rewrite <- F4, <- F2 in Y9. destruct (truncate_all s2 F1 Y3 Y9) as (s3 & -> & Ht & F5 & En & Einfo & Hwin).
  cbn [rbind]. unfold ext2_xattr_delete_inode. replace (d_file (set_file s3 d1)) with s3 by by destruct d1. rewrite Einfo, Hacl, Y6. cbn [Z.eqb rbind].
  replace (d_file (set_file s3 d1)) with s3 by by destruct d1. pose proof (same_ino _ _ En : ino_of s3 = ino_of s2) as Ei3.
  destruct (drop_reservation_ok s3 (fo_windows _ _ _ _ _ F5) (fo_ino _ _ _ _ _ F5)) as (w & -> & W1 & W2 & W3). cbn [rbind].
  set (s4 := set_blk _ s3). assert (E4 : m_inode s4 = m_inode s3 /\ m_blk s4 = BState (b_sbi (m_blk s3)) w (b_charged (m_blk s3))) by by destruct s3.
  destruct E4 as [E4 E4b]. assert (Es4 : sbi_of (set_file s4 (set_file s3 d1)) = b_sbi (m_blk s3)) by (transitivity (b_sbi (m_blk s4)); [by destruct d1|by rewrite E4b]).
  assert (Es2 : b_sbi (m_blk s2) = sbi_of d) by by rewrite Eb. pose proof (tu_side _ _ _ _ _ _ Ht) as Hside. rewrite Es2 in Hside.
  assert (Eino : i_ino (core (m_inode s4)) = ino_of (d_file d)) by (rewrite E4; unfold ino_of in *; congruence).
  rewrite Es4. destruct (free_last (b_sbi (m_blk s3)) (m_inode s4)) as (x & -> & X1 & X2 & X3 & X4 & X5).
  { apply Ht. } { apply (inode_side_ok sb _ _ Hside), Y1. } { by rewrite Eino. } { rewrite Eino. apply (inode_side_allocated _ _ _ Hside); [lia|done]. }
  cbn [rbind]. exists d1, gd, bs, raw. eexists. split; [done|]. split; [done|]. set (d' := set_sbi x _).
  assert (Ed' : sbi_of d' = x /\ b_rsv (m_blk (d_file d')) = w /\ d_bufs d' = d_bufs d1).
  { split_and!; [by destruct d1, s4| |by destruct d1]. transitivity (b_rsv (m_blk s4)); [by destruct d1, s4|by rewrite E4b]. }
  destruct Ed' as (Ex & Ew & Ebuf). assert (Hst : same_tables (sbi_of d) (sbi_of d')).
  { intros g Hg. rewrite Ex, X3 by done. by apply inode_side_tables. }
  split; [|by split]. split; rewrite ?Ex, ?Ew; try done.
  - split; rewrite ?Ex; try done. intros g gd' z Hg Hgd Hz. specialize (Hst g Hg). rewrite Ex, Hgd in Hst. destruct (desc_at sb (sbi_of d) g) as [gd0|] eqn:E0; [|done].
    injection Hst as Et. pose proof (written_ok sb blkbits isize dsk NO_UID32 _ _ _ _ _ Hlw Hw) as Hd1.
    assert (Esb : sbi_of d1 = sbi_of d) by (rewrite <- Ed; eapply written_sbi, Hw).
    unfold dbuf. rewrite Ebuf. apply (tb_read _ _ _ _ Hd1 g gd0); [done|by rewrite Esb|lia].
  - intros z Hz. rewrite X4 by done. rewrite (tu_bits _ _ _ _ _ _ Ht) by done. by rewrite Es2, F2'.
  - intros i Hi. rewrite X5, Eino by done. by rewrite (inode_side_allocated _ _ _ Hside).
  - rewrite <- Ei2, <- Ei3. done.
  - intros i Hi. rewrite W3 by congruence. rewrite Hwin by congruence. by rewrite Eb.
Qed.

(** ** The inode on the disk *)

Lemma same_tables_bytes d d' ino : same_tables (sbi_of d) (sbi_of d') -> d_bufs d' = d_bufs d -> 1 <= ino <= ngroups * ipg -> inode_bytes d' ino = inode_bytes d ino.
Proof using W.
  intros Hst Eb Hi. destruct (ino_group sb ino Hi) as [Hg _]. specialize (Hst _ Hg). unfold Ext2InodeWrite.inode_bytes, dbuf. rewrite Eb.
  destruct (desc_at sb (sbi_of d') _), (desc_at sb (sbi_of d) _); try done. injection Hst as E. simpl. by rewrite E.
Qed.

(** The other inodes stay. *)
Lemma evict_others d d1 d' gd bs raw ino : dying d -> written (last_write d) d1 gd bs raw -> d_bufs d' = d_bufs d1 -> same_tables (sbi_of d) (sbi_of d') ->
  is_inode ino -> ino <> ino_of (d_file d) -> inode_bytes d' ino = inode_bytes d ino.
Proof using W B G D.
  intros [Y1 _ _ _ _ _ Y7 _ _] Hw Eb Hst Hi Hne. pose proof (wf_first (sb := sb)) as Hfirst.
  assert (Ei : ino_of (d_file (last_write d)) = ino_of (d_file d)) by by destruct d as [[[[]] ] ].
  assert (Ed : sbi_of (last_write d) = sbi_of d) by by destruct d as [[[[]] ] ].
  assert (Hlw : tables_ok (last_write d)) by (apply (tables_same sb blkbits dsk d); [done|by destruct d|done]).
  rewrite (same_tables_bytes d1 d' ino); [| |done|apply Hi].
  - rewrite (written_others sb blkbits isize dsk NO_UID32 _ d1 gd bs raw ino Hlw); [by destruct d as [[[[]] ] ]|rewrite Ei; split; [right|]; lia|done|done|by rewrite Ei].
  - by rewrite (written_sbi sb blkbits isize dsk NO_UID32 _ _ _ _ _ Hw), Ed.
Qed.

(** A new inode in memory with the number of the evicted one cannot be filled in. *)
Lemma evict_stale d d1 d' gd bs raw s0 : dying d -> u32 (get_seconds dsk) <> 0 -> written (last_write d) d1 gd bs raw -> d_bufs d' = d_bufs d1 ->
  same_tables (sbi_of d) (sbi_of d') -> tables_ok d' -> m_blk s0 = m_blk (d_file d') -> i_new (m_inode s0) = true ->
  exists d2, ext2_iget sb blkbits env dsk NO_UID32 isize true (set_file s0 d') (ino_of (d_file d)) = Ok (- ESTALE, d2).
Proof using W B G D.
  intros [Y1 _ _ Y4 _ _ Y7 _ _] Hs Hw Eb Hst Hd' Hb0 Hn0. pose proof (wf_first (sb := sb)) as Hfirst.
  assert (Ei : ino_of (d_file (last_write d)) = ino_of (d_file d)) by by destruct d as [[[[]] ] ].
  assert (Ed : sbi_of (last_write d) = sbi_of d) by by destruct d as [[[[]] ] ].
  assert (Es0 : sbi_of (set_file s0 d') = sbi_of d') by (unfold sbi_of; rewrite <- Hb0; by destruct d').
  set (ino := ino_of (d_file d)) in *. set (s := d_file (last_write d)) in *. assert (Hino : is_inode ino) by (split; [right|]; lia).
  set (new := take (Z.to_nat (place_off sb blkbits isize ino)) bs ++ fill_raw blkbits dsk NO_UID32 isize s raw).
  destruct (inode_desc sb blkbits dsk d' ino Hd' Hino) as (gd' & Hg & Hgd' & _). specialize (Hst _ Hg). rewrite Hgd' in Hst.
  pose proof (wn_desc _ _ _ _ _ _ _ _ _ _ Hw) as Hgd. rewrite Ed in Hgd. fold s in Hgd. rewrite Ei in Hgd. rewrite Hgd in Hst. injection Hst as Et.
  rewrite (iget_reads sb blkbits isize env dsk NO_UID32 _ ino gd' new).
  - destruct (wn_room _ _ _ _ _ _ _ _ _ _ Hw) as [Hr Hri]. destruct (written_length sb blkbits isize dsk NO_UID32 _ _ _ _ _ Hw) as [_ Hol].
    unfold new. rewrite (drop_app_length' (take (Z.to_nat (place_off sb blkbits isize ino)) bs)) by (fold s in Hol; rewrite Ei in Hol; rewrite length_take; lia).
    unfold read_inode, read_attrs. pose proof (fill_raw_rd blkbits dsk NO_UID32 isize _ s raw r_links_count _ Hr Hri I eq_refl) as ->.
    pose proof (fill_raw_rd blkbits dsk NO_UID32 isize _ s raw r_dtime _ Hr Hri I eq_refl) as ->.
    assert (i_nlink (m_inode s) = 0 /\ i_dtime (m_info s) = u32 (get_seconds dsk)) as [-> ->] by (rewrite <- Y4; unfold s; by destruct d as [[[[]] ] ]).
    change (fwidth r_dtime) with (2 ^ 32). rewrite (Z.mod_small (u32 _)) by apply u32_range. change (0 mod fwidth r_links_count) with 0.
    destruct (m_inode (d_file (no_alloc_info ino (set_file s0 d')))) as [c x1 x2 x3 x4 x5 x6 x7 x8 x9 x10 x11 x12].
    cbn [with_core with_nlink with_owner i_nlink core i_mode i_dtime Z.eqb andb]. rewrite (proj2 (Z.eqb_neq _ 0) Hs). cbn [negb]. rewrite orb_true_r. by eexists.
  - apply (tables_same sb blkbits dsk d'); [done|by destruct d'|done].
  - done.
  - by destruct d'.
  - by rewrite Es0.
  - pose proof (written_dbuf sb blkbits isize dsk NO_UID32 _ _ _ _ _ (place_block sb blkbits isize (gd_inode_table gd') ino) Hw) as Hx.
    fold s in Hx. rewrite Ei, Et, decide_True in Hx by done. rewrite Et. unfold dbuf in *. rewrite <- Eb in Hx. by destruct d'.
Qed.
End Evict.
