(* ===== verification/Ext2InodeTheorems.v ===== *)
(** * ext2: inodes on the disk and their attributes

    The theorems about the rest of [fs/ext2/inode.c]: an inode that is written is read back,
    a file without links leaves nothing behind when it is evicted, and [ext2_setattr] makes
    the changes that the caller may make, and moves the quotas. *)

From S2P Require Import Dquot UserNs UserNsTheorems Groups.
From S2P Require Import Prelude CString ByteMem Ext2Layout Ext2Dir Ext2Super Ext2Inode Ext2Ialloc Ext2IallocFacts Ext2Namei.
From S2P Require Import Ext2Balloc Ext2BallocBits Ext2BallocRsv Ext2BallocGroup Ext2BallocFacts Ext2BallocAlloc Ext2BallocFree Ext2BallocTheorems.
From S2P Require Import Ext2BlockMap Ext2BlockTree Ext2BlockPath Ext2BlockFacts Ext2BlockFile Ext2BlockTrunc Ext2BlockAlloc Ext2BlockGet Ext2GetBlocks Ext2BlockSystem.
From S2P Require Import Ext2BlockTheorems Ext2InodeDisk Ext2InodeDiskFacts Ext2InodeWrite Ext2InodeRead Ext2Evict.

(** ** Permissions *)

(** The groups of a task are as [setgroups] leaves them. *)
Definition has_groups (a : attr_env) : Prop := exists l, group_info (at_cred a) = Some l /\ Z.of_nat (length l) < 2 ^ 31.

Definition member (a : attr_env) (gid : Z) : Prop := Groups.in_group_p (at_cred a) gid = Ok true.

(** Who may change what: the owner, its group to one of the owner's own, and mode and times;
    others need a capability. *)
Record may_setattr (a : attr_env) (n : inode) (t : iattr) : Prop := {
  ms_uid uid : ia_uid t = Some uid -> UserNs.fsuid (at_cred a) = i_uid n /\ uid = i_uid n \/ capable_wrt_inode_uidgid a n CAP_CHOWN = true;
  ms_gid gid : ia_gid t = Some gid -> UserNs.fsuid (at_cred a) = i_uid n /\ (member a gid \/ gid = i_gid n) \/ capable_wrt_inode_uidgid a n CAP_CHOWN = true;
  ms_mode mode : ia_mode t = Some mode -> inode_owner_or_capable a n = true;
  ms_times : ia_set_times t = true -> inode_owner_or_capable a n = true }.

(** The group bit stays on a file of the group [gid]. *)
Definition may_keep (a : attr_env) (n : inode) (gid : Z) : Prop := member a gid \/ capable_wrt_inode_uidgid a n CAP_FSETID = true.

(** The mode [m], from which the group bit is taken unless [P]. *)
Definition sgid_if (P : Prop) (m m' : Z) : Prop := (P -> m' = m) /\ (~ P -> m' = Z.land m (Z.lnot S_ISGID)).

(** The attributes [t'] are [t], but for the group bit. *)
Record cleared (a : attr_env) (n : inode) (t t' : iattr) : Prop := {
  cl_mode : match ia_mode t, ia_mode t' with
    | Some m, Some m' => sgid_if (ia_force t = true \/ may_keep a n (default (i_gid n) (ia_gid t))) m m'
    | None, None => True
    | _, _ => False end;
  cl_rest : t' = with_ia_mode (ia_mode t') t }.

(** The extended attributes when the privileges of the file are to be dropped. *)
Definition killed (a : attr_env) (t : iattr) (x : xattrs) : Z * xattrs := if ia_kill_priv t then inode_killpriv a x else (0, x).

Definition permitted (a : attr_env) (n : inode) (t : iattr) : Prop := ia_force t = true \/ may_setattr a n t.

Section Attr.
Context (a : attr_env) (Hg : has_groups a).

Lemma group_decides gid : exists b, Groups.in_group_p (at_cred a) gid = Ok b /\ (b = true <-> member a gid).
Proof using Hg.
  destruct Hg as (l & Hl & Hlen). destruct (in_group_spec (at_cred a) l gid Hl Hlen) as (b & E & _). exists b. split; [done|]. unfold member. rewrite E.
  split; [by intros ->|by intros [= ->]].
Qed.

Lemma may_keep_dec n gid : may_keep a n gid \/ ~ may_keep a n gid.
Proof using Hg.
  unfold may_keep. destruct (group_decides gid) as (b & _ & Hb). destruct b, (capable_wrt_inode_uidgid a n CAP_FSETID); [left; left; by apply Hb|left; left; by apply Hb|by left; right|right].
  intros [H%Hb|H]; done.
Qed.

Lemma clear_sgid_spec n gid m : exists m', clear_sgid a n gid m = Ok m' /\ sgid_if (may_keep a n gid) m m'.
Proof using Hg.
  unfold clear_sgid, may_keep. destruct (group_decides gid) as (b & -> & Hb). cbn [rbind]. eexists. split; [done|].
  destruct b; [|destruct (capable_wrt_inode_uidgid a n CAP_FSETID)]; cbn [negb andb].
  - split; [done|]. intros H. exfalso. apply H. left. by apply Hb.
  - split; [done|]. intros H. exfalso. apply H. by right.
  - split; [|done]. intros [H%Hb|H]; done.
Qed.

Lemma chown_spec n t : chown_refused a n t = false <->
  forall uid, ia_uid t = Some uid -> UserNs.fsuid (at_cred a) = i_uid n /\ uid = i_uid n \/ capable_wrt_inode_uidgid a n CAP_CHOWN = true.
Proof using.
  unfold chown_refused. destruct (ia_uid t) as [uid|]; [|done]. split.
  - intros H u [= <-]. destruct (capable_wrt_inode_uidgid a n CAP_CHOWN); [by right|left]. rewrite andb_true_r, orb_false_iff, !negb_false_iff, !Z.eqb_eq in H. done.
  - intros H. destruct (H uid eq_refl) as [[-> ->]| ->]; [by rewrite Z.eqb_refl|apply andb_false_r].
Qed.

Lemma chgrp_spec n t : exists b, chgrp_refused a n t = Ok b /\ (b = false <->
  forall gid, ia_gid t = Some gid -> UserNs.fsuid (at_cred a) = i_uid n /\ (member a gid \/ gid = i_gid n) \/ capable_wrt_inode_uidgid a n CAP_CHOWN = true).
Proof using Hg.
  unfold chgrp_refused. destruct (ia_gid t) as [gid|]; [|by exists false]. destruct (group_decides gid) as (m & -> & Hm). cbn [rbind]. eexists. split; [done|]. split.
  - intros H g [= <-]. destruct (capable_wrt_inode_uidgid a n CAP_CHOWN); [by right|left]. rewrite andb_true_r, orb_false_iff, andb_false_iff, !negb_false_iff, !Z.eqb_eq, Hm in H. done.
  - intros H. destruct (H gid eq_refl) as [[-> Hor]| ->]; [|apply andb_false_r]. rewrite Z.eqb_refl. cbn [negb orb]. apply andb_false_iff. left. apply andb_false_iff.
    destruct Hor as [Hm'| ->]; [left; apply Hm in Hm' as ->; done|right; by rewrite Z.eqb_refl].
Qed.

(** [setattr_prepare] lets through what may be done. *)
Lemma prepare_spec n t x : match ia_size t with Some size => inode_newsize_ok a n size | None => 0 end = 0 ->
  permitted a n t /\ (exists t', setattr_prepare a n t x = Ok ((killed a t x).1, t', (killed a t x).2) /\ cleared a n t t') \/
  ia_force t = false /\ ~ may_setattr a n t /\ exists t', setattr_prepare a n t x = Ok (- EPERM, t', x).
Proof using Hg.
  intros E0. unfold setattr_prepare, permitted. rewrite E0. cbn [Z.eqb negb].
  assert (Hkill : forall t', t' = with_ia_mode (ia_mode t') t -> (let '(error, x0) := if ia_kill_priv t' then inode_killpriv a x else (0, x) in Ok (error, t', x0)) = Ok ((killed a t x).1, t', (killed a t x).2)).
  { intros t' Ht. assert (ia_kill_priv t' = ia_kill_priv t) as -> by (rewrite Ht; by destruct t). unfold killed. by destruct (if ia_kill_priv t then _ else _). }
  assert (Hself : t = with_ia_mode (ia_mode t) t) by by destruct t.
  destruct (ia_force t) eqn:Ef.
  { left. split; [by left|]. exists t. split; [by apply Hkill|]. split; [|done]. destruct (ia_mode t); [|done]. split; [done|]. intros H. exfalso. apply H. by left. }
  destruct (chown_refused a n t) eqn:Eu; [right; split; [done|]; split; [|by eauto]; intros M; pose proof (proj2 (chown_spec n t) (ms_uid _ _ _ M)); congruence|].
  destruct (chgrp_spec n t) as (b & -> & Hb). cbn [rbind]. destruct b; [right; split; [done|]; split; [|by eauto]; intros M; by pose proof (proj2 Hb (ms_gid _ _ _ M))|].
  pose proof (proj1 (chown_spec n t) Eu) as M1. pose proof (proj1 Hb eq_refl) as M2. destruct (inode_owner_or_capable a n) eqn:Eo; cbn [negb].
  - rewrite andb_false_r. left. split; [right; by split|]. destruct (ia_mode t) as [m|] eqn:Em; [|exists t; split; [apply Hkill; by rewrite Em|split; by rewrite Em]].
    destruct (clear_sgid_spec n (default (i_gid n) (ia_gid t)) m) as (m' & -> & Hm). cbn [rbind].
    eexists. split; [apply Hkill; by destruct t|]. split; [|by destruct t]. rewrite Em. replace (ia_mode (with_ia_mode (Some m') t)) with (Some m') by by destruct t.
    destruct Hm as [Hm1 Hm2]. split; [intros [?|?]; [congruence|by apply Hm1]|]. intros H. apply Hm2. intros K. apply H. by right.
  - rewrite andb_true_r. destruct (ia_mode t) as [m|] eqn:Em; [right; split; [done|]; split; [|by eauto]; intros M; pose proof (ms_mode _ _ _ M m Em); congruence|].
    destruct (ia_set_times t) eqn:Es; [right; split; [done|]; split; [|by eauto]; intros M; pose proof (ms_times _ _ _ M Es); congruence|].
    left. split; [right; split; [done|done|congruence|congruence]|]. exists t. split; [apply Hkill; by rewrite Em|]. split; by rewrite Em.
Qed.
End Attr.

(** ** [ext2_setattr] *)

Section Setattr.
Context (rb : rb_lib) {RL : RbLaws rb} (sb : sb_info) {W : SbWf sb} {B : BlkWf sb} (blkbits : Z) {G : MapWf blkbits} (env : map_env) {EW : EnvWf env}.
Context (a : attr_env) (Hg : has_groups a).
Notation file_ok := (file_ok rb sb blkbits env).
Notation bmap := (bmap blkbits env).
Notation keeps := (keeps rb sb blkbits env).
Notation resized := (resized rb sb blkbits env).
Notation ext2_setattr := (ext2_setattr rb sb blkbits env).

(** The size is asked to change. *)
Definition cuts (t : iattr) (s : mstate) : option Z :=
  match ia_size t with Some size => if size =? i_size (core (m_inode s)) then None else Some size | None => None end.

Definition stamp (t : iattr) (s : mstate) (time : Z) : Z := match cuts t s with Some _ => map_time env | None => time end.

(** The mode after a change of the mode to [m]: the group bit stays if the caller is in the
    group that the file has then, or has [CAP_FSETID] over the file, with its old owner (unless
    the change is forced) and with its new one. *)
Definition new_mode (t : iattr) (n : inode) (m m' : Z) : Prop :=
  let uid := default (i_uid n) (ia_uid t) in
  let gid := default (i_gid n) (ia_gid t) in
  sgid_if ((ia_force t = true \/ may_keep a n gid) /\ may_keep a (with_owner uid gid n) gid) m m'.

(** The attributes have been set as [t] says, and nothing else has changed; if the size is
    another one, the blocks behind it are gone. *)
Record applied (t : iattr) (s s' : mstate) : Prop := {
  ap_owner : i_uid (m_inode s') = default (i_uid (m_inode s)) (ia_uid t) /\ i_gid (m_inode s') = default (i_gid (m_inode s)) (ia_gid t);
  ap_mode : match ia_mode t with Some m => new_mode t (m_inode s) m (i_mode (core (m_inode s'))) | None => i_mode (core (m_inode s')) = i_mode (core (m_inode s)) end;
  ap_size : i_size (core (m_inode s')) = default (i_size (core (m_inode s))) (ia_size t);
  ap_atime : i_atime (m_info s') = default (i_atime (m_info s)) (ia_atime t);
  ap_mtime : i_mtime (core (m_inode s')) = default (stamp t s (i_mtime (core (m_inode s)))) (ia_mtime t);
  ap_ctime : i_ctime (core (m_inode s')) = default (stamp t s (i_ctime (core (m_inode s)))) (ia_ctime t);
  ap_rest : i_nlink (m_inode s') = i_nlink (m_inode s) /\ i_flags (core (m_inode s')) = i_flags (core (m_inode s)) /\ i_generation (m_inode s') = i_generation (m_inode s);
  ap_keeps : keeps s s';
  ap_map i : bmap s' i = match cuts t s with Some size => if i <? first_gone blkbits size then bmap s i else 0 | None => bmap s i end }.

(** The inode after the change of the size, if there is one. *)
Record sized (t : iattr) (s s1 : mstate) : Prop := {
  sz_keeps : keeps s s1;
  sz_inode : exists b, m_inode s1 = let n := m_inode s in
    let c := core n in
    with_core (Dir (i_ino c) (i_mode c) (default (i_size c) (ia_size t)) (i_blocks c) (i_version c) (i_flags c) (stamp t s (i_mtime c))
      (stamp t s (i_ctime c)) (i_dir_start_lookup c) b (i_pages c) (reports c)) n;
  sz_info : m_info s1 = m_info s;
  sz_map i : bmap s1 i = match cuts t s with Some size => if i <? first_gone blkbits size then bmap s i else 0 | None => bmap s i end }.

Lemma sized_same t s : file_ok s -> cuts t s = None -> sized t s s.
Proof using.
  intros Hf Hc. split; [by apply keeps_id| |done|intros i; by rewrite Hc]. exists (i_dirty (core (m_inode s))). unfold stamp. rewrite Hc.
  assert (Ez : default (i_size (core (m_inode s))) (ia_size t) = i_size (core (m_inode s))).
  { unfold cuts in Hc. destruct (ia_size t) as [z|]; [|done]. by destruct (Z.eqb_spec z (i_size (core (m_inode s)))). }
  rewrite Ez. by destruct s as [[[]] ].
Qed.

Lemma sized_resized t s s1 size : cuts t s = Some size -> resized s s1 size -> sized t s s1.
Proof using.
  intros Hc [R1 R2 R3 _ R5]. split; [done| |done|intros i; by rewrite Hc]. exists (i_dirty (core (m_inode s1))). unfold stamp. rewrite Hc.
  assert (Ez : default (i_size (core (m_inode s))) (ia_size t) = size).
  { unfold cuts in Hc. destruct (ia_size t) as [z|]; [|done]. destruct (z =? _); [done|]. by injection Hc as ->. }
  rewrite Ez. destruct s as [[[]] ], s1 as [[[]] ]. cbn in R2 |- *. unfold mark_inode_dirty in R2. cbn in R2. injection R2. intros. by subst.
Qed.

(** The inode with all changes but that of the mode, and with it. *)
Lemma copied_applies t t' s s1 s2 m' : sized t s s1 -> cleared a (m_inode s) t t' ->
  match ia_mode t with Some m => new_mode t (m_inode s) m m' | None => m' = i_mode (core (m_inode s)) end ->
  s2 = (let n := with_owner (default (i_uid (m_inode s1)) (ia_uid t')) (default (i_gid (m_inode s1)) (ia_gid t')) (m_inode s1) in
    let c := core n in
    let i := m_info s1 in
    let c := Dir (i_ino c) m' (i_size c) (i_blocks c) (i_version c) (i_flags c)
               (default (i_mtime c) (ia_mtime t')) (default (i_ctime c) (ia_ctime t')) (i_dir_start_lookup c) (i_dirty c) (i_pages c) (reports c) in
    set_info (InodeInfo (i_file_acl i) (i_dir_acl i) (i_dtime i) (i_faddr i) (i_frag_no i) (i_frag_size i) (ei_new i) (default (i_atime i) (ia_atime t')))
      (set_inode (with_core c n) s1)) -> applied t s (dirty_inode s2).
Proof using.
  intros [K (dirty & En) Ei Hm] [_ Cr] Hmode ->. set (s2 := set_info _ _). assert (Eu : ia_uid t' = ia_uid t /\ ia_gid t' = ia_gid t /\ ia_atime t' = ia_atime t /\ ia_mtime t' = ia_mtime t /\ ia_ctime t' = ia_ctime t)
    by (rewrite Cr; by destruct t). destruct Eu as (E1 & E2 & E3 & E4 & E5).
  assert (Hk : keeps s1 (dirty_inode s2) /\ forall i, bmap (dirty_inode s2) i = bmap s1 i).
  { split; [|intros i; unfold s2; by destruct s1]. pose proof (set_info_keeps rb sb blkbits env s1 (m_info s2) (kp_file _ _ _ _ _ _ K)) as K1.
    eapply keeps_trans; [exact K1|]. replace (dirty_inode s2) with (set_inode (m_inode (dirty_inode s2)) (set_info (m_info s2) s1)) by (unfold s2; by destruct s1).
    apply set_inode_keeps; [apply K1|]. unfold s2, ino_of. by destruct s1 as [[[]] ]. }
  destruct Hk as [Hk Hb]. assert (Hi : m_info (dirty_inode s2) = m_info s2 /\ i_uid (m_inode (dirty_inode s2)) = default (i_uid (m_inode s1)) (ia_uid t') /\
    i_gid (m_inode (dirty_inode s2)) = default (i_gid (m_inode s1)) (ia_gid t')) by (unfold s2; by destruct s1 as [[[]] ]).
  destruct Hi as (I1 & I2 & I3). assert (Eo : i_uid (m_inode s1) = i_uid (m_inode s) /\ i_gid (m_inode s1) = i_gid (m_inode s)) by (rewrite En; by destruct (m_inode s)).
  destruct Eo as [Eo1 Eo2]. assert (Emode : i_mode (core (m_inode (dirty_inode s2))) = m') by (unfold s2; by destruct s1 as [[[]] ]).
  split.
  - rewrite I2, I3, E1, E2, Eo1, Eo2. done.
  - by rewrite Emode.
  - transitivity (i_size (core (m_inode s1))); [unfold s2; by destruct s1 as [[[]] ]|]. rewrite En. by destruct (m_inode s).
  - rewrite I1. unfold s2. transitivity (default (i_atime (m_info s1)) (ia_atime t')); [by destruct s1|]. by rewrite Ei, E3.
  - transitivity (default (i_mtime (core (m_inode s1))) (ia_mtime t')); [unfold s2; by destruct s1 as [[[]] ]|]. rewrite En, E4. by destruct (m_inode s).
  - transitivity (default (i_ctime (core (m_inode s1))) (ia_ctime t')); [unfold s2; by destruct s1 as [[[]] ]|]. rewrite En, E5. by destruct (m_inode s).
  - assert (Er : i_nlink (m_inode (dirty_inode s2)) = i_nlink (m_inode s1) /\ i_flags (core (m_inode (dirty_inode s2))) = i_flags (core (m_inode s1)) /\
      i_generation (m_inode (dirty_inode s2)) = i_generation (m_inode s1)) by (unfold s2; by destruct s1 as [[[]] ]).
    destruct Er as (-> & -> & ->). rewrite En. by destruct (m_inode s).
  - exact (keeps_trans _ _ _ _ _ _ _ K Hk).
  - intros i. rewrite Hb. apply Hm.
Qed.

Lemma may_keep_ext n n' gid : i_uid n = i_uid n' -> i_gid n = i_gid n' -> may_keep a n gid <-> may_keep a n' gid.
Proof using. intros E1 E2. unfold may_keep, capable_wrt_inode_uidgid, privileged_wrt_inode_uidgid. by rewrite E1, E2. Qed.

Lemma sgid_twice (P Q : Prop) m m1 m' : (P \/ ~ P) -> sgid_if P m m1 -> sgid_if Q m1 m' -> sgid_if (P /\ Q) m m'.
Proof using.
  intros D [P1 P2] [Q1 Q2]. split; [intros [HP HQ]; by rewrite (Q1 HQ), (P1 HP)|]. intros H. destruct D as [HP|HP].
  - rewrite (Q2 ltac:(tauto)), (P1 HP). done.
  - rewrite <- (P2 HP). rewrite (P2 HP) in *. clear P1 P2. assert (E : Z.land (Z.land m (Z.lnot S_ISGID)) (Z.lnot S_ISGID) = Z.land m (Z.lnot S_ISGID)) by (by rewrite <- Z.land_assoc, Z.land_diag).
    rewrite E in Q2. destruct (Z.eq_dec m' (Z.land m (Z.lnot S_ISGID))) as [|Hne]; [done|]. exfalso. apply Hne, Q2. intros HQ. by apply Hne, Q1.
Qed.

Lemma copy_applies t t' s s1 : sized t s s1 -> cleared a (m_inode s) t t' -> exists s2, setattr_copy a t' s1 = Ok s2 /\ applied t s (dirty_inode s2).
Proof using Hg.
  intros Hs Hc. pose proof Hs as [_ (dirty & En) _ _]. pose proof Hc as [Cm Cr].
  assert (Eg : ia_gid t' = ia_gid t /\ ia_uid t' = ia_uid t) by (rewrite Cr; by destruct t). destruct Eg as [Eg Eu].
  unfold setattr_copy. cbv zeta. set (n2 := with_core (Dir _ _ _ _ _ _ _ _ _ _ _ _) _). set (n' := with_owner (default (i_uid (m_inode s)) (ia_uid t)) (default (i_gid (m_inode s)) (ia_gid t)) (m_inode s)).
  assert (E2 : i_gid n2 = default (i_gid (m_inode s)) (ia_gid t) /\ i_uid n2 = i_uid n' /\ i_gid n2 = i_gid n') by (unfold n2, n'; rewrite Eg, Eu, En; by destruct (m_inode s)).
  destruct E2 as (E2 & E3 & E4). destruct (ia_mode t) as [m|] eqn:Et, (ia_mode t') as [m1|]; try done.
  - destruct (clear_sgid_spec a Hg n2 (i_gid n2) m1) as (m' & -> & Hsm). cbn [rbind]. eexists. split; [done|]. eapply (copied_applies t t' s s1 _ m'); [done|done| |by destruct s1 as [[[]] ]].
    rewrite Et. unfold new_mode. cbv zeta. fold n'. apply (sgid_twice _ _ m m1 m'); [|done|].
    + destruct (may_keep_dec a Hg (m_inode s) (default (i_gid (m_inode s)) (ia_gid t))) as [|H]; [by left; right|]. destruct (ia_force t); [by left; left|]. right. by intros [?|?].
    + rewrite E2 in Hsm. destruct Hsm as [S1 S2]. split; intros H; [apply S1|apply S2]; [|intros K; apply H]; by apply (may_keep_ext n2 n').
  - cbn [rbind]. eexists. split; [done|]. eapply (copied_applies t t' s s1 _ (i_mode (core (m_inode s1)))); [done|done| |by destruct s1 as [[[]] ]]. rewrite Et, En. by destruct (m_inode s).
Qed.

(** *** Quota *)

Notation qe := (at_quota a).

(** The inode points to the quotas of its owner, and if the owner changes it has gone with its
    bytes from the quotas of the old owner to those of the new one. *)
Definition accounted (t : iattr) (s : mstate) (q q' : quota) : Prop :=
  let n := m_inode s in
  exists q1, initialised qe (i_uid n) (i_gid n) q q1 /\
    if owner_changes n t then transferred qe (inode_get_bytes blkbits s) (new_owner qe (ia_uid t) (ia_gid t) (i_uid n) (i_gid n)) q1 q' else q' = q1.

(** The blocks that a change of the size frees are given back. *)
Definition settled (s s' : mstate) (q q' : quota) : Prop :=
  let freed := inode_get_bytes blkbits s - inode_get_bytes blkbits s' in
  if freed =? 0 then q' = q else relieved qe freed (if dquot_active qe then quota_types else []) q q'.

Definition quota_init (t : iattr) (n : inode) (q : quota) : res (Z * quota) :=
  if is_quota_modification a n t then Dquot.dquot_initialize qe (i_uid n) (i_gid n) q else Ok (0, q).
Definition quota_move (t : iattr) (s : mstate) (q : quota) : res (Z * quota) :=
  let n := m_inode s in
  if owner_changes n t then dquot_transfer qe (ia_uid t) (ia_gid t) (i_uid n) (i_gid n) (inode_get_bytes blkbits s) q else Ok (0, q).

Lemma quota_init_spec t n q : QuotaLaws qe -> held q ->
  exists e q', quota_init t n q = Ok (e, q') /\ held q' /\ initialised qe (i_uid n) (i_gid n) q q'.
Proof using.
  intros L Hh. unfold quota_init. destruct (is_quota_modification a n t).
  - destruct (dquot_initialize_spec qe (i_uid n) (i_gid n) q Hh) as (e & q' & E & H1 & H2 & _). eauto.
  - eexists _, _. split; [done|]. split; [done|]. apply initialised_quiet, quiet_refl.
Qed.

Lemma quota_move_spec t s q q1 : QuotaLaws qe -> held q1 -> initialised qe (i_uid (m_inode s)) (i_gid (m_inode s)) q q1 ->
  exists e q', quota_move t s q1 = Ok (e, q') /\ held q' /\ (e <> 0 /\ same_usage qe q q' \/ e = 0 /\ accounted t s q q').
Proof using.
  intros L Hh Hi. unfold quota_move, accounted. destruct (owner_changes (m_inode s) t).
  - destruct (dquot_transfer_spec qe (ia_uid t) (ia_gid t) (i_uid (m_inode s)) (i_gid (m_inode s)) (inode_get_bytes blkbits s) q1 Hh)
      as (e & q' & E & H1 & [(H2 & H3 & _)|[H2 H3]]); eexists _, _; (split; [exact E|]); (split; [done|]); [left|right; by eauto].
    split; [lia|]. eapply same_usage_trans; [apply Hi|done].
  - eexists _, _. split; [done|]. split; [done|]. right. by eauto.
Qed.

Lemma give_back_spec s s' q : QuotaLaws qe -> held q ->
  exists q', give_back qe (inode_get_bytes blkbits s - inode_get_bytes blkbits s') q = Ok q' /\ held q' /\ settled s s' q q'.
Proof using.
  intros L Hh. unfold give_back, settled. destruct (_ =? 0); [by eauto|].
  destruct (free_space_spec qe (inode_get_bytes blkbits s - inode_get_bytes blkbits s') q Hh) as (q' & E & R). exists q'. split; [done|]. split; [apply R|done].
Qed.

(** What may go wrong before the changes are made, apart from the permissions. *)
Definition no_error (t : iattr) (x : astate) : Prop :=
  let s := d_file (a_disk x) in
  let n := m_inode s in
  match ia_size t with Some size => inode_newsize_ok a n size | None => 0 end = 0 /\ (killed a t (a_xattrs x)).1 = 0 /\
  (forall t' e q, cleared a n t t' -> quota_init t' n (a_quota x) = Ok (e, q) -> e = 0 /\
     forall e' q', quota_move t s q = Ok (e', q') -> e' = 0) /\
  match cuts t s with Some size => size_error blkbits s (truncate_page a) size | None => 0 end = 0.

(** What [posix_acl_chmod] says of the new mode and does to the attributes. *)
Definition acl_result (t : iattr) (x : astate) (s' : mstate) : Z * xattrs :=
  match ia_mode t with Some _ => posix_acl_chmod a (i_mode (core (m_inode s'))) (killed a t (a_xattrs x)).2 | None => (0, (killed a t (a_xattrs x)).2) end.

(** Why a call is refused: the size, or the caller may not. *)
Definition refusal (t : iattr) (x : astate) (e : Z) : Prop :=
  let n := m_inode (d_file (a_disk x)) in
  match ia_size t with Some size => inode_newsize_ok a n size | None => 0 end = e \/ e = - EPERM /\ ~ permitted a n t.

(** Why a permitted call fails before the size is changed: the privileges, or the quota. *)
Definition failure (t : iattr) (x : astate) (e : Z) (q : quota) : Prop :=
  let s := d_file (a_disk x) in
  (killed a t (a_xattrs x)).1 = e \/
  exists t', cleared a (m_inode s) t t' /\
    (quota_init t' (m_inode s) (a_quota x) = Ok (e, q) \/ exists q1, quota_init t' (m_inode s) (a_quota x) = Ok (0, q1) /\ quota_move t s q1 = Ok (e, q)).

(** The ways in which a call can end, with the error that it returns. *)
Inductive outcome (t : iattr) (x : astate) : Z -> astate -> Prop :=
  | out_refused e : e <> 0 -> refusal t x e -> outcome t x e x
  | out_failed e q : permitted a (m_inode (d_file (a_disk x))) t -> e <> 0 -> failure t x e q -> same_usage qe (a_quota x) q ->
      outcome t x e (AState (a_disk x) q (killed a t (a_xattrs x)).2)
  | out_not_resized e q size : permitted a (m_inode (d_file (a_disk x))) t -> cuts t (d_file (a_disk x)) = Some size ->
      e = size_error blkbits (d_file (a_disk x)) (truncate_page a) size -> e <> 0 -> accounted t (d_file (a_disk x)) (a_quota x) q ->
      outcome t x e (AState (a_disk x) q (killed a t (a_xattrs x)).2)
  | out_changed e s' q2 q xa : permitted a (m_inode (d_file (a_disk x))) t -> applied t (d_file (a_disk x)) s' ->
      accounted t (d_file (a_disk x)) (a_quota x) q2 -> settled (d_file (a_disk x)) s' q2 q -> acl_result t x s' = (e, xa) ->
      outcome t x e (AState (set_file s' (a_disk x)) q xa).

Lemma copy_bytes t s s2 : setattr_copy a t s = Ok s2 -> inode_get_bytes blkbits s = inode_get_bytes blkbits (dirty_inode s2).
Proof using.
  unfold setattr_copy. intros E. inv_ok. unfold inode_get_bytes, inode_blocks, ino_of. by destruct s as [[[]] ].
Qed.

Lemma size_step t t' s : file_ok s -> (forall size, ia_size t = Some size -> 0 <= size) -> ia_size t' = ia_size t ->
  let r := match ia_size t' with
    | Some size => if negb (size =? i_size (core (m_inode s))) then ext2_setsize rb sb blkbits env (truncate_page a) size s else Ok (0, s)
    | None => Ok (0, s) end in
  (exists s1, r = Ok (0, s1) /\ sized t s s1) \/
  exists e size, cuts t s = Some size /\ e = size_error blkbits s (truncate_page a) size /\ e <> 0 /\ r = Ok (e, s).
Proof using RL W B G EW.
  intros Hf Hsize -> r. unfold r. pose proof (sized_same t s Hf) as Hsame. pose proof (sized_resized t s) as Hres. unfold cuts in *.
  destruct (ia_size t) as [size|]; [|left; eauto]. destruct (Z.eqb_spec size (i_size (core (m_inode s)))) as [|Hne]; cbn [negb]; [left; eauto|].
  pose proof (setsize_spec rb sb blkbits env s (truncate_page a) size Hf (Hsize size eq_refl)) as Hss.
  destruct (Z.eqb_spec (size_error blkbits s (truncate_page a) size) 0) as [|He]; [left; destruct Hss as (s1 & E1 & R1); eauto|right].
  by exists (size_error blkbits s (truncate_page a) size), size.
Qed.

(** The call has ended with [e] and [x'], and has made the changes if nothing was in the way. *)
Definition ends (t : iattr) (x : astate) (r : res (Z * astate)) : Prop :=
  exists e x', r = Ok (e, x') /\ held (a_quota x') /\ outcome t x e x' /\
    (no_error t x -> permitted a (m_inode (d_file (a_disk x))) t ->
     applied t (d_file (a_disk x)) (d_file (a_disk x')) /\ e = (acl_result t x (d_file (a_disk x'))).1).

Lemma ends_failed t x e x' : held (a_quota x') -> outcome t x e x' ->
  (no_error t x -> permitted a (m_inode (d_file (a_disk x))) t -> False) -> ends t x (Ok (e, x')).
Proof using. intros H1 H2 H3. exists e, x'. split; [done|]. split; [done|]. split; [done|]. intros H4 H5. by destruct (H3 H4 H5). Qed.

(** What is done once the quotas have been moved. *)
Lemma setattr_tail t t' x q2 : QuotaLaws qe -> file_ok (d_file (a_disk x)) -> (forall size, ia_size t = Some size -> 0 <= size) ->
  permitted a (m_inode (d_file (a_disk x))) t -> cleared a (m_inode (d_file (a_disk x))) t t' -> held q2 -> accounted t (d_file (a_disk x)) (a_quota x) q2 ->
  ends t x (let s := d_file (a_disk x) in
    let* '(error, s') := match ia_size t' with
      | Some size => if negb (size =? i_size (core (m_inode s))) then ext2_setsize rb sb blkbits env (truncate_page a) size s else Ok (0, s)
      | None => Ok (0, s) end in
    let* q := give_back qe (inode_get_bytes blkbits s - inode_get_bytes blkbits s') q2 in
    if negb (error =? 0) then Ok (error, AState (set_file s' (a_disk x)) q (killed a t (a_xattrs x)).2)
    else
      let* s' := setattr_copy a t' s' in
      let '(error, xa) := match ia_mode t' with Some _ => posix_acl_chmod a (i_mode (core (m_inode s'))) (killed a t (a_xattrs x)).2 | None => (0, (killed a t (a_xattrs x)).2) end in
      Ok (error, AState (set_file (dirty_inode s') (a_disk x)) q xa)).
Proof using RL W B G EW Hg.
  intros L Hf Hsize Hp Hcl Hh2 Hacc. set (s := d_file (a_disk x)) in *. cbv zeta.
  assert (Esz : ia_size t' = ia_size t) by (rewrite (cl_rest _ _ _ _ Hcl); by destruct t).
  destruct (size_step t t' s Hf Hsize Esz) as [(s1 & -> & Hs1)|(e & size & Hcut & He & Hne & ->)]; cbn [rbind].
  - destruct (copy_applies t t' s s1 Hs1 Hcl) as (s2 & E2 & Hap). pose proof (copy_bytes t' s1 s2 E2) as Eb. rewrite E2.
    destruct (give_back_spec s s1 q2 L Hh2) as (q & -> & Hh & Hset). cbn [rbind Z.eqb negb].
    assert (Eacl : (match ia_mode t' with Some _ => posix_acl_chmod a (i_mode (core (m_inode s2))) (killed a t (a_xattrs x)).2 | None => (0, (killed a t (a_xattrs x)).2) end) = acl_result t x (dirty_inode s2)).
    { unfold acl_result. replace (i_mode (core (m_inode (dirty_inode s2)))) with (i_mode (core (m_inode s2))) by by destruct s2 as [[[]] ].
      pose proof (cl_mode _ _ _ _ Hcl) as Cm. by destruct (ia_mode t), (ia_mode t'). }
    rewrite Eacl. destruct (acl_result t x (dirty_inode s2)) as [e xa] eqn:Er. exists e, (AState (set_file (dirty_inode s2) (a_disk x)) q xa).
    split; [done|]. split; [done|]. cbn [a_disk]. replace (d_file (set_file (dirty_inode s2) (a_disk x))) with (dirty_inode s2) by by destruct (a_disk x).
    split; [|intros _ _; by rewrite Er]. apply (out_changed t x e (dirty_inode s2) q2 q xa); try done. unfold settled in *. by rewrite <- Eb.
  - replace (inode_get_bytes blkbits s - inode_get_bytes blkbits s) with 0 by lia. unfold give_back. cbn [Z.eqb rbind]. rewrite (proj2 (Z.eqb_neq e 0) Hne). cbn [negb].
    replace (set_file s (a_disk x)) with (a_disk x) by (unfold s; by destruct (a_disk x)).
    apply ends_failed; [done|by apply (out_not_resized t x e q2 size)|]. intros (_ & _ & _ & Hz) _. fold s in Hz. rewrite Hcut in Hz. congruence.
Qed.

Lemma setattr_spec t x : QuotaLaws qe -> held (a_quota x) -> file_ok (d_file (a_disk x)) -> (forall size, ia_size t = Some size -> 0 <= size) ->
  ends t x (ext2_setattr a t x).
Proof using RL W B G EW Hg.
  intros L Hh Hf Hsize. set (s := d_file (a_disk x)) in *. set (n := m_inode s).
  assert (Ex : AState (a_disk x) (a_quota x) (a_xattrs x) = x) by by destruct x.
  unfold Ext2InodeDisk.ext2_setattr. fold s n. destruct (decide (match ia_size t with Some size => inode_newsize_ok a n size | None => 0 end = 0)) as [E0|E0].
  2:{ unfold setattr_prepare. rewrite (proj2 (Z.eqb_neq _ _) E0). cbn [negb rbind]. rewrite (proj2 (Z.eqb_neq _ _) E0). cbn [negb]. rewrite Ex.
      apply ends_failed; [done|apply out_refused; [done|by left]|]. by intros [? _]. }
  destruct (prepare_spec a Hg n t (a_xattrs x) E0) as [(Hp & t' & -> & Hcl)|(Ef & Hnot & t' & ->)]; cbn [rbind].
  2:{ change (negb (- EPERM =? 0)) with true. cbv iota. rewrite Ex. assert (Hnp : ~ permitted a n t) by (intros [?|?]; [congruence|done]).
      apply ends_failed; [done|apply out_refused; [done|by right]|]. intros _ H. by apply Hnp. }
  destruct (Z.eqb_spec (killed a t (a_xattrs x)).1 0) as [Ek|Ek]; cbn [negb].
  2:{ apply ends_failed; [done|apply out_failed; [done|done|by left|apply quiet_refl]|]. intros (_ & Hk & _) _. done. }
  fold (quota_init t' n (a_quota x)). destruct (quota_init_spec t' n (a_quota x) L Hh) as (e1 & q1 & E1 & Hh1 & Hi). rewrite E1. cbn [rbind].
  destruct (Z.eqb_spec e1 0) as [Ez1|Ez1]; cbn [negb].
  2:{ apply ends_failed; [done|apply out_failed; [done|done|right; exists t'; split; [done|by left]|apply Hi]|]. intros (_ & _ & Hq & _) _. by apply Ez1, (Hq t' e1 q1 Hcl E1). }
  assert (Et : owner_changes n t' = owner_changes n t /\ ia_uid t' = ia_uid t /\ ia_gid t' = ia_gid t) by (rewrite (cl_rest _ _ _ _ Hcl); by destruct t).
  destruct Et as (-> & -> & ->). change (if owner_changes n t then dquot_transfer qe (ia_uid t) (ia_gid t) (i_uid n) (i_gid n) (inode_get_bytes blkbits s) q1 else Ok (0, q1)) with (quota_move t s q1).
  destruct (quota_move_spec t s (a_quota x) q1 L Hh1 Hi) as (e2 & q2 & E2 & Hh2 & Hq2). rewrite E2. cbn [rbind].
  destruct (Z.eqb_spec e2 0) as [Ez2|Ez2]; cbn [negb].
  2:{ destruct Hq2 as [[_ Hsame]|[? _]]; [|done]. apply ends_failed; [done|apply out_failed; [done|done|right; exists t'; split; [done|right; exists q1; split; [subst e1; exact E1|exact E2]]|done]|].
      intros (_ & _ & Hq & _) _. destruct (Hq t' e1 q1 Hcl E1) as [_ Hm]. by apply Ez2, (Hm e2 q2). }
  destruct Hq2 as [[? _]|[_ Hacc]]; [done|]. by apply setattr_tail.
Qed.
End Setattr.

(** ** A disk with two inode tables *)

Module DemoDisk.
Import DemoBlocks DemoFile.

(** Inodes 11 and 12 are in use as well. *)
Definition demo_disk_sbi : sbi :=
  Sbi [Some [GroupDesc 2 3 4 12 0 1; GroupDesc 17 18 19 13 4 0]] {[ 18 := replicate 4 true ++ replicate 12 false ]} [0; 0] 4 25 1 1000 [].

Definition demo_dsk : disk_env :=
  DiskEnv (fun b => if (b =? 4) || (b =? 19) then Some (replicate 1024 NUL) else None) (fun _ => true) 1000 (fun x => x) (fun x => x)
    (fun d => (0 <=? d) && (d <? 65536)) (fun d => d) (fun d => d) (fun d => d) (fun d => d) (fun bs n m => <[Z.to_nat (Z.min n m) := NUL]> bs).

#[global] Instance demo_dev_laws : DevLaws demo_dsk.
Proof. split; cbn; [intros d H; split; [lia|done]|by intros d H|done|done]. Qed.

#[global] Instance demo_disk_wf : DiskWf demo_sb 10 128.
Proof. split; [exists 7; lia|done]. Qed.

Definition demo_start (nlink flags : Z) : mstate :=
  MState (with_nlink nlink (with_owner 100000 100 (demo_inode 12 15000 flags))) (InodeInfo 0 0 0 0 0 0 true 7) (replicate 15 0) ∅ ∅ 0 (BState demo_disk_sbi demo_windows {[ 13 := 1 ]}).

(** The file with three blocks below an indirect block. *)
Definition demo_with_blocks (nlink flags : Z) : mstate :=
  match ext2_get_blocks demo_rb demo_sb 10 demo_map_env (demo_start nlink flags) 12 3 true with Ok (_, s) => s | _ => demo_start nlink flags end.

Definition demo_disk (s : mstate) : dstate := DState s ∅ (Es 1 11 128 0 0 0 0).

Lemma demo_disk_blocks : balloc_ok demo_sb demo_disk_sbi.
Proof.
  split; [|reflexivity]. intros g [-> | ->]%demo_two; eexists _, _; (split; [reflexivity|reflexivity| |reflexivity| | |discriminate]).
  1, 4: split; [discriminate|by exists 2].
  1, 3: intros x Hx; unfold system_block in Hx; cbn in Hx.
  1: assert (x = 2 \/ x = 3 \/ x = 4) as [-> |[-> | ->]] by lia; by split.
  1: assert (x = 17 \/ x = 18 \/ x = 19) as [-> |[-> | ->]] by lia; by split.
  all: intros i Hi Ht; exfalso; revert Hi Ht; unfold ext2_group_first_block_no; cbn; lia.
Qed.

Lemma demo_disk_inodes : ialloc_ok demo_sb demo_disk_sbi.
Proof.
  split; [| | |reflexivity|reflexivity].
  - intros g [-> | ->]%demo_two; eexists _, _; (split; [reflexivity|reflexivity|discriminate|reflexivity|by split]).
  - intros g g' d d' [-> | ->]%demo_two [-> | ->]%demo_two; try done;
      intros E1 E2 Eb; vm_compute in E1, E2; injection E1 as <-; injection E2 as <-; discriminate.
  - intros ino Hi. change (EXT2_FIRST_INO demo_sb) with 11 in Hi. unfold allocated.
    assert (ino = 1 \/ ino = 2 \/ ino = 3 \/ ino = 4 \/ ino = 5 \/ ino = 6 \/ ino = 7 \/ ino = 8 \/ ino = 9 \/ ino = 10)
      as Hx by lia. repeat destruct Hx as [-> |Hx]; try subst ino; eexists; (split; [reflexivity|reflexivity]).
Qed.

(** Only the descriptors and the cached blocks matter. *)
Lemma demo_tables s : balloc_ok demo_sb (b_sbi (m_blk s)) -> ialloc_ok demo_sb (b_sbi (m_blk s)) ->
  (forall g gd, 0 <= g < 2 -> desc_at demo_sb (b_sbi (m_blk s)) g = Some gd -> gd_inode_table gd = 4 \/ gd_inode_table gd = 19) -> tables_ok demo_sb 10 demo_dsk (demo_disk s).
Proof.
  intros Hb Hi Ht. split; [done|done|]. intros g gd x Hg Hgd Hx. exists (replicate 1024 NUL). split; [|by rewrite length_replicate].
  change (s_itb_per_group demo_sb) with 1 in Hx. destruct (Ht g gd Hg Hgd) as [E|E]; rewrite E in Hx; [assert (x = 4) as -> by lia|assert (x = 19) as -> by lia]; reflexivity.
Qed.

Lemma demo_start_ok nlink flags : file_ok demo_rb demo_sb 10 demo_map_env (demo_start nlink flags).
Proof.
  split.
  - apply demo_disk_blocks.
  - apply demo_windows_ok.
  - done.
  - done.
  - intros k w Hk. apply lookup_replicate in Hk as [-> _]. apply shaped_0.
  - rewrite zeroes_no_blocks by done. split; [constructor|]. by intros x ?%not_elem_of_nil.
  - intros b. right. reflexivity.
  - by left.
Qed.

Lemma demo_start_tables nlink flags : tables_ok demo_sb 10 demo_dsk (demo_disk (demo_start nlink flags)).
Proof.
  apply demo_tables; [apply demo_disk_blocks|apply demo_disk_inodes|]. intros g gd Hg Hgd. assert (g = 0 \/ g = 1) as [-> | ->] by lia; injection Hgd as <-; by auto.
Qed.

(** The file has been written to: the inodes are as before. *)
Lemma demo_blocks_side nlink flags : (nlink, flags) = (0, 0) \/ (nlink, flags) = (0, S_IMMUTABLE) -> inode_side demo_sb demo_disk_sbi (b_sbi (m_blk (demo_with_blocks nlink flags))).
Proof.
  intros H. split; [|destruct H as [[= -> ->]|[= -> ->]]; vm_compute; reflexivity].
  intros g [-> | ->]%demo_two; destruct H as [[= -> ->]|[= -> ->]]; (split; [vm_compute; reflexivity|]); eexists _, _; (split; [vm_compute; reflexivity|vm_compute; reflexivity]).
Qed.

Lemma demo_blocks_file nlink flags : file_ok demo_rb demo_sb 10 demo_map_env (demo_with_blocks nlink flags).
Proof.
  destruct (get_blocks_spec demo_rb demo_sb 10 demo_map_env (demo_start nlink flags) 12 3 true (demo_start_ok nlink flags) ltac:(lia)) as (g & s & E & Hg).
  unfold demo_with_blocks. rewrite E. apply (get_grows _ _ _ _ _ _ _ _ _ _ (demo_start_ok nlink flags) Hg).
Qed.

Lemma demo_dying nlink flags : (nlink, flags) = (0, 0) \/ (nlink, flags) = (0, S_IMMUTABLE) ->
  dying demo_rb demo_sb 10 demo_map_env demo_dsk (demo_disk (demo_with_blocks nlink flags)) /\ file_blocks demo_map_env (demo_with_blocks nlink flags) = [13; 14; 15; 16].
Proof.
  intros H. pose proof (demo_blocks_side nlink flags H) as Hside. pose proof (demo_blocks_file nlink flags) as Hf. split; [|by destruct H as [[= -> ->]|[= -> ->]]; vm_compute].
  assert (Ht : tables_ok demo_sb 10 demo_dsk (demo_disk (demo_with_blocks nlink flags))).
  { apply demo_tables; [apply Hf|exact (inode_side_ok demo_sb _ _ Hside demo_disk_inodes)|]. intros g gd Hg Hgd. destruct (proj1 Hside g Hg) as (_ & d0 & x & E1 & E2).
    rewrite E2 in Hgd. injection Hgd as <-. assert (g = 0 \/ g = 1) as [-> | ->] by lia; injection E1 as <-; by auto. }
  split; [exact Ht|exact Hf|..]; try (destruct H as [[= -> ->]|[= -> ->]]; vm_compute; done).
  apply (inode_side_allocated demo_sb demo_disk_sbi); [exact Hside|destruct H as [[= -> ->]|[= -> ->]]; vm_compute; split; discriminate|].
  destruct H as [[= -> ->]|[= -> ->]]; eexists; (split; [vm_compute; reflexivity|vm_compute; reflexivity]).
Qed.
End DemoDisk.

Import DemoBlocks DemoFile DemoDisk.

(** ** The theorems *)

(** C10: An inode that [__ext2_write_inode] has written is what [ext2_iget] reads: mode, owner,
    link count, size, times, number of blocks, flags, generation, attributes, and the block
    pointers, the device number or the target of a short symbolic link, for every inode
    whose values fit into [struct ext2_inode] and that is not marked as deleted.  The bytes
    of all other inodes on the disk stay as they were. *)
Theorem inode_write_read_roundtrip sb `{!SbWf sb, !BlkWf sb} blkbits isize `{!MapWf blkbits, !DiskWf sb blkbits isize} env dsk `{!DevLaws dsk} sync d s0 :
  tables_ok sb blkbits dsk d -> is_inode sb (ino_of (d_file d)) -> storable sb blkbits (d_file d) ->
  m_blk s0 = m_blk (d_file d) -> ino_of s0 = ino_of (d_file d) -> i_new (m_inode s0) = true ->
  exists r d' d'', __ext2_write_inode sb blkbits dsk false isize sync d = Ok (r, d') /\ (sync = false -> r = 0) /\
    ext2_iget sb blkbits env dsk false isize true (set_file s0 d') (ino_of (d_file d)) = Ok (0, d'') /\
    same_inode blkbits (d_file d) (d_file d'') /\
    (forall ino, is_inode sb ino -> ino <> ino_of (d_file d) -> inode_bytes sb blkbits isize dsk d' ino = inode_bytes sb blkbits isize dsk d ino).
Proof.
  intros Hd Hi Hs Hb Ei Hn. destruct (write_spec sb blkbits isize dsk false sync d Hd Hi) as (r & d' & gd & bs & raw & E & Hr & Hw).
  destruct (write_then_iget sb blkbits isize env dsk d d' gd bs raw s0 Hd Hi Hs Hw) as (d'' & E2 & Hsame & _); [|done|done|].
  { rewrite Hb, (wn_file _ _ _ _ _ _ _ _ _ _ Hw). by destruct (d_file d). }
  exists r, d', d''. split_and!; try done. intros ino Hino Hne. by apply (written_others sb blkbits isize dsk false d d' gd bs raw).
Qed.

Lemma demo_storable : storable demo_sb 10 (demo_start 1 0).
Proof.
  split; [vm_compute; intuition discriminate..| |vm_compute; intuition discriminate|vm_compute; intuition discriminate].
  split; [reflexivity|]. apply Forall_replicate. by split.
Qed.

Lemma inode_write_read_roundtrip_witness : exists r d' d'',
  __ext2_write_inode demo_sb 10 demo_dsk false 128 true (demo_disk (demo_start 1 0)) = Ok (r, d') /\
  ext2_iget demo_sb 10 demo_map_env demo_dsk false 128 true (set_file (set_inode (with_new true (demo_inode 12 0 0)) (demo_start 0 0)) d') 12 = Ok (0, d'') /\
  i_size (core (m_inode (d_file d''))) = 15000 /\ i_uid (m_inode (d_file d'')) = 100000.
Proof.
  destruct (inode_write_read_roundtrip demo_sb 10 128 demo_map_env demo_dsk true (demo_disk (demo_start 1 0)) (set_inode (with_new true (demo_inode 12 0 0)) (demo_start 0 0)))
    as (r & d' & d'' & E1 & _ & E2 & Hs & _).
  - apply demo_start_tables.
  - split; [right|split]; discriminate.
  - apply demo_storable.
  - reflexivity.
  - reflexivity.
  - reflexivity.
  - exists r, d', d''. split; [exact E1|]. split; [exact E2|]. split; [exact (si_size _ _ _ Hs)|exact (proj1 (si_owner _ _ _ Hs))].
Defined.

(** C11: When the last reference to a regular file or directory without links goes, which is
    neither append-only nor immutable and has no block of extended attributes,
    [ext2_evict_inode] gives everything back: all its blocks and its inode are free in the
    bitmaps and nothing else is, the invariants of both allocators hold, its reservation is
    gone and those of other files stay, the other inodes on the disk are untouched, and
    [ext2_iget] of its number fails with [-ESTALE]. *)
Theorem evict_frees_unlinked_file rb `{!RbLaws rb} sb `{!SbWf sb, !BlkWf sb} blkbits isize `{!MapWf blkbits, !DiskWf sb blkbits isize} env `{!EnvWf env} dsk U d :
  dying rb sb blkbits env dsk d -> append_or_immutable (m_inode (d_file d)) = false ->
  exists d', ext2_evict_inode rb sb blkbits env dsk U isize d = Ok d' /\
    balloc_ok sb (sbi_of d') /\ ialloc_ok sb (sbi_of d') /\ win_ok rb (b_rsv (m_blk (d_file d'))) /\
    (forall z, in_zone sb z -> bbit sb (sbi_of d') z = if decide (z ∈ file_blocks env (d_file d)) then Some false else bbit sb (sbi_of d) z) /\
    (forall i, 1 <= i <= s_groups_count sb * EXT2_INODES_PER_GROUP sb -> allocated sb (sbi_of d') i <-> i <> ino_of (d_file d) /\ allocated sb (sbi_of d) i) /\
    rsv_nodes (b_rsv (m_blk (d_file d'))) !! ino_of (d_file d) = None /\
    (forall i, i <> ino_of (d_file d) -> rsv_nodes (b_rsv (m_blk (d_file d'))) !! i = rsv_nodes (b_rsv (m_blk (d_file d))) !! i) /\
    (forall ino, is_inode sb ino -> ino <> ino_of (d_file d) -> inode_bytes sb blkbits isize dsk d' ino = inode_bytes sb blkbits isize dsk d ino) /\
    (u32 (get_seconds dsk) <> 0 -> forall s0, m_blk s0 = m_blk (d_file d') -> i_new (m_inode s0) = true ->
     exists d2, ext2_iget sb blkbits env dsk U isize true (set_file s0 d') (ino_of (d_file d)) = Ok (- ESTALE, d2)).
Proof.
  intros Hd Ha. destruct (evict_spec rb sb blkbits isize env dsk U d Hd) as (d1 & gd & bs & raw & d' & E & Hw & [T1 T2 T3 T4 T5 T6] & Eb & Hst).
  exists d'. split; [done|]. split; [apply T1|]. split; [apply T1|]. split; [done|]. split; [intros z Hz; rewrite T2 by done; unfold gone_blocks; by rewrite Ha|].
  split; [done|]. split; [done|]. split; [done|]. split; [intros ino Hi Hne; by eapply evict_others|]. intros Hs s0 Hb Hn. by eapply evict_stale.
Qed.

Lemma evict_frees_unlinked_file_witness : exists d', ext2_evict_inode demo_rb demo_sb 10 demo_map_env demo_dsk false 128 (demo_disk (demo_with_blocks 0 0)) = Ok d' /\
  bbit demo_sb (sbi_of d') 13 = Some false /\ ~ allocated demo_sb (sbi_of d') 12.
Proof.
  destruct (demo_dying 0 0 (or_introl eq_refl)) as [Hd Hb].
  destruct (evict_frees_unlinked_file demo_rb demo_sb 10 128 demo_map_env demo_dsk false _ Hd ltac:(vm_compute; reflexivity)) as (d' & E & _ & _ & _ & Hz & Ha & _).
  exists d'. split; [exact E|]. split.
  - rewrite (Hz 13 ltac:(split; vm_compute; congruence)). rewrite decide_True; [reflexivity|]. cbn [d_file demo_disk]. rewrite Hb. left.
  - intros H. apply Ha in H as [H _]; [|split; vm_compute; congruence]. apply H. vm_compute. reflexivity.
Defined.

(** C27: If the file without links is append-only or immutable, [ext2_truncate_blocks] refuses
    to cut it and [ext2_evict_inode] frees its inode but none of its blocks: they stay
    marked as used, though no inode leads to them any more. *)
Theorem evict_of_immutable_file_loses_blocks rb `{!RbLaws rb} sb `{!SbWf sb, !BlkWf sb} blkbits isize `{!MapWf blkbits, !DiskWf sb blkbits isize} env `{!EnvWf env} dsk U d :
  dying rb sb blkbits env dsk d -> append_or_immutable (m_inode (d_file d)) = true ->
  exists d', ext2_evict_inode rb sb blkbits env dsk U isize d = Ok d' /\ ~ allocated sb (sbi_of d') (ino_of (d_file d)) /\
    (forall z, z ∈ file_blocks env (d_file d) -> bbit sb (sbi_of d') z = Some true).
Proof.
  intros Hd Ha. destruct (evict_spec rb sb blkbits isize env dsk U d Hd) as (d1 & gd & bs & raw & d' & E & Hw & [T1 T2 T3 T4 T5 T6] & Eb & Hst).
  pose proof (dy_ino _ _ _ _ _ _ Hd). pose proof (wf_first (sb := sb)). exists d'. split; [done|]. split; [intros H1; apply T3 in H1 as [? _]; [done|lia]|].
  intros z Hz. destruct (fo_owned _ _ _ _ _ (dy_file _ _ _ _ _ _ Hd)) as [_ Hu]. destruct (Hu z Hz) as (Hzone & Hbit & _).
  rewrite T2 by done. unfold gone_blocks. rewrite Ha. rewrite decide_False by apply not_elem_of_nil. done.
Qed.

Lemma evict_of_immutable_file_loses_blocks_witness : exists d',
  ext2_evict_inode demo_rb demo_sb 10 demo_map_env demo_dsk false 128 (demo_disk (demo_with_blocks 0 S_IMMUTABLE)) = Ok d' /\ bbit demo_sb (sbi_of d') 13 = Some true.
Proof.
  destruct (demo_dying 0 S_IMMUTABLE (or_intror eq_refl)) as [Hd Hb].
  destruct (evict_of_immutable_file_loses_blocks demo_rb demo_sb 10 128 demo_map_env demo_dsk false _ Hd ltac:(vm_compute; reflexivity)) as (d' & E & _ & Hz).
  exists d'. split; [exact E|]. apply Hz. cbn [d_file demo_disk]. rewrite Hb. left.
Defined.

(** C12: [ext2_setattr] changes the attributes only if the caller may (the owner, or a
    capability over the inode) or if the change is forced.  A call ends in one of four ways.
    It is refused, for the size or with EPERM because the caller may not, and nothing has
    changed.  Or the privileges or the quota make it fail before the size is changed: the
    inode, its blocks and the tables are as before, nobody is charged for anything else, and
    the privileges have been dropped if that was asked for.  Or the change of the size fails:
    the inode, its blocks and the tables are as before, but the inode is already charged to
    the new owner.  Or owner, mode, size and times are the new ones, with the group bit as
    [new_mode] says, the blocks behind a new size are gone, nothing else of the inode has
    changed, the quotas of the old owner have lost the inode and its bytes to those of the
    new one, the freed blocks are given back, and the error is that of [posix_acl_chmod].
    With permission and without an error of the size, the privileges, the quota or the page
    cache a call ends in the last way. *)
Theorem setattr_applies_or_fails rb `{!RbLaws rb} sb `{!SbWf sb, !BlkWf sb} blkbits `{!MapWf blkbits} env `{!EnvWf env} a t x :
  has_groups a -> QuotaLaws (at_quota a) -> held (a_quota x) -> file_ok rb sb blkbits env (d_file (a_disk x)) ->
  (forall size, ia_size t = Some size -> 0 <= size) ->
  exists e x', ext2_setattr rb sb blkbits env a t x = Ok (e, x') /\ held (a_quota x') /\ outcome rb sb blkbits env a t x e x' /\
    (no_error blkbits a t x -> permitted a (m_inode (d_file (a_disk x))) t ->
     applied rb sb blkbits env a t (d_file (a_disk x)) (d_file (a_disk x')) /\ e = (acl_result a t x (d_file (a_disk x'))).1).
Proof. intros Hg L Hh Hf Hs. by apply setattr_spec. Qed.

(** User quota is on; root gives the file away, with the group bit, and cuts it. *)
Definition demo_quota_env : quota_env :=
  QuotaEnv false 1 0 (fun type => type =? USRQUOTA) (fun _ => true) false (fun _ => false) false 50 (fun _ => 100) (fun _ => 100)
    (fun _ _ => true) (fun _ _ => inr (Dquot (Dqblk 0 0 100000 0 0 0 10 0 0) false false)).

#[global] Instance demo_quota_laws : QuotaLaws demo_quota_env.
Proof. split; [by intros|reflexivity]. Qed.

Definition demo_attr : attr_env :=
  AttrEnv (Cred 0 5 0 5 0 (Some [5]) 0 0 0 0 0 0) init_user_ns (fun _ => true) RLIM_INFINITY (2 ^ 40) (fun _ => false)
    demo_quota_env (fun _ _ => true) (fun x => (0, x)) (fun _ x => (0, x)) (fun _ => 0).
Definition demo_give : iattr := IAttr (Some 200) None (Some (32768 + 1024 + 493)) (Some 1024) None None (Some 50) false false false.
Definition demo_astate : astate := AState (demo_disk (demo_with_blocks 0 0)) (Quota ∅ ∅) [].

Lemma setattr_applies_or_fails_witness : exists x',
  ext2_setattr demo_rb demo_sb 10 demo_map_env demo_attr demo_give demo_astate = Ok (0, x') /\
  i_uid (m_inode (d_file (a_disk x'))) = 200 /\
  bmap 10 demo_map_env (demo_with_blocks 0 0) 12 = 14 /\ bmap 10 demo_map_env (d_file (a_disk x')) 12 = 0 /\
  i_mode (core (m_inode (d_file (a_disk x')))) = 32768 + 1024 + 493.
Proof.
  destruct (setattr_applies_or_fails demo_rb demo_sb 10 demo_map_env demo_attr demo_give demo_astate) as (e & x' & E & _ & _ & H).
  - exists [5]. split; reflexivity.
  - apply demo_quota_laws.
  - intros type id. cbn [a_quota demo_astate i_dquot]. rewrite lookup_empty. discriminate.
  - apply demo_blocks_file.
  - intros size [= <-]. discriminate.
  - assert (Hown : i_uid (m_inode (demo_with_blocks 0 0)) = 100000 /\ i_gid (m_inode (demo_with_blocks 0 0)) = 100) by (vm_compute; split; reflexivity).
    destruct H as [[[Hu Hg] Hm _ _ _ _ _ _ Hmap] He].
    + split; [vm_compute; reflexivity|]. split; [reflexivity|]. split; [|vm_compute; reflexivity].
      intros t' e1 q1 _ E1. unfold quota_init in E1. cbn [a_disk demo_astate d_file demo_disk at_quota demo_attr is_quota_modification] in E1. destruct Hown as [Ho1 Ho2].
      rewrite Ho1, Ho2 in E1. vm_compute in E1. injection E1 as <- <-. split; [reflexivity|].
      intros e2 q2 E2. vm_compute in E2. injection E2 as <- _. reflexivity.
    + right. split; [intros; right; vm_compute; reflexivity|discriminate| |discriminate]. intros mode _. vm_compute. reflexivity.
    + exists x'. split; [rewrite E, He; reflexivity|]. split; [rewrite Hu; reflexivity|]. split; [vm_compute; reflexivity|]. split.
      * rewrite Hmap. vm_compute. reflexivity.
      * apply Hm. split; [right; right; vm_compute; reflexivity|right; vm_compute; reflexivity].
Defined.
